(* ===== verification/_CoqProject ===== *)
-Q . S2P
Prelude.v
GoStrings.v
GoErrors.v
GoTime.v
GoBase64.v
GoCrypto.v
GoJson.v
GoJsonFacts.v
GoURL.v
GoURLText.v
GoHttp.v
Interleave.v
GoProcess.v
GatewayDomain.v
GatewayService.v
GatewayUpstream.v
GatewayHTTP.v
GatewayHTTPFacts.v
GatewayLimiter.v
GatewayVerifier.v
GatewayTokens.v
GatewayConfig.v
GatewayProcess.v
OrdersDomain.v
Tx.v
ReadCommitted.v
GoSmtp.v
OrdersTables.v
OrdersPorts.v
OrdersQuote.v
OrdersStore.v
OrdersSaga.v
OrdersHistory.v
OrdersRows.v
OrdersInterleaved.v
OrdersStoreFacts.v
OrdersSagaFacts.v
OrdersSamples.v
OrdersOverlap.v
OrdersService.v
OrdersPaging.v
OrdersAuth.v
OrdersHTTP.v
OrdersHTTPFacts.v
OrdersConfig.v
OrdersMigrate.v
OrdersRelay.v
OrdersRelayFacts.v
OrdersPublish.v
OrdersProcess.v
GatewayOrders.v
OrdersWitnesses.v
GatewayWitnesses.v
IdentityDomain.v
IdentityTables.v
IdentityStore.v
IdentityService.v
IdentityFacts.v
IdentityInvariant.v
IdentityFamilies.v
IdentityCalls.v
IdentityTheorems.v
IdentityWitnesses.v
IdentityOverlap.v
IdentityCrypto.v
IdentityHTTP.v
IdentityHTTPFacts.v
IdentityKeys.v
IdentityConfig.v
IdentityMail.v
IdentityMailFacts.v
IdentityRedis.v
IdentityRelay.v
IdentityProcess.v
IdentityStart.v
RequestIds.v
HttpMetrics.v
GatewayTelemetry.v
TokenPath.v
TokenPathWitness.v
