(* ===== verification/Prelude.v ===== *)
(** * StreamWeave

    A verification of the three Go services of StreamWeave, an event-driven
    commerce platform, under [src/apps]:

    - Orders ([apps/orders]) keeps orders, prices them with quotes Inventory
      signed, and runs the saga that reserves, charges, ships and compensates.
      It has three processes: an HTTP API, a relay that publishes the outbox to
      Kafka and feeds the facts of the other services to the store, and a
      migrator.
    - Gateway ([apps/gateway]) is the public edge: it authenticates humans with
      the keys Identity publishes, authorizes and limits them by route, and
      forwards to the services behind with a token of its own and the actor in
      headers.
    - Identity ([apps/identity]) keeps users, sessions in families of refresh
      tokens, roles and machines, signs tokens, publishes its keys, mails links
      with one-time tokens, and relays its audit trail to Kafka.

    A request goes from the Gateway to Orders or Identity with the actor's
    headers ([GatewayOrders], [IdentityKeys]); tokens go from Identity's
    signer to the Gateway's verifier through the published key set
    ([IdentityKeys]), and as the Gateway's own credential on to Orders
    ([TokenPath]); the ids of a request go along with it ([RequestIds]); facts go
    from Kafka through the relay to the store.

    ** How code is modelled

    Go functions are Rocq functions of the same name where it is free.  An
    error is a value of [goerr] ([GoErrors]), a fallible result a [result].
    Machine integers are [Z] with their wrap-around and range checks written
    out ([wrap_i64], [next_bigint]); strings are byte strings ([GoStrings]).
    Code with a database is a program of the state-and-error monad of [Tx]: the
    state holds the rows, what the process keeps, and a counter of outside
    events, and the class [Env] says what each event brought, including that a
    statement or a commit failed, or succeeded with its answer lost.  A
    transaction runs its body on its own view and commits or rolls back
    ([in_tx]).  Functional theorems are about one whole transaction at a time.
    What must survive concurrency is shown for transactions that overlap: in
    Orders any number of them interleave statement by statement at READ COMMITTED
    ([ReadCommitted]: a statement sees the committed rows and its own
    transaction's, and waits for rows others are writing), and the serial account
    is one of those interleavings.  Identity's transactions interleave in the same
    way in [IdentityOverlap], where an update of many rows picks them from its
    snapshot; its other theorems let calls run between the reads a call makes
    before its transaction and the transaction itself, but take transactions one
    at a time ([sys_step] in [IdentityFamilies]).  Components whose methods release a lock
    while they wait (the Gateway's verifier and token client), processes that
    share a database lock, and the counters of overlapping requests are state
    machines that interleave in any order ([Interleave]).  The [run] functions
    of the processes are programs that leave a trace of what they opened, did
    and served, with the deferred closes at its end ([GoProcess]).

    Code outside the repository is a parameter: the class [GoLib] for what Go's
    string functions do outside ASCII, [Crypto] and [Argon] for the primitives,
    [Env] and [Pg] for PostgreSQL, [JwtLib] for the JWT
    parser and [JwtSigner] for its signing, [UuidLib] and [UuidText] for UUIDs,
    [DurationLib], [NetLib], [SourceLib] and [MailLib] for small parsers,
    [KeySetHTTP] and [UpstreamEnv] for HTTP exchanges, [Redis], [RedisLaws] and
    [IdRedis] for Redis, [RelayEnv] and [KafkaWriter] for Kafka, [Files] and
    [KeyFiles] for the file system, [SmtpPeer] for a mail relay and the network
    to it, [Host] for what a starting process meets, [IdPorts], [IdHost] and
    [Revocations] for the ports of Identity's service and its host.  Theorems hold
    for every instance; the few that need a documented fact (a signature verifies
    under its key, a counter expires as set) take it as a named hypothesis or a
    class of laws, and a witness applies them to a concrete instance.

    ** The files

    The language and its libraries: [Prelude] (results, the error notations,
    stable sorting, tactics), [GoStrings] (with a verified matcher for the
    regular expressions), [GoErrors], [GoTime], [GoBase64], [GoCrypto]
    (digests, signatures and JSON Web Tokens, as parameters), [GoJson]
    (the encoder, the scanner and the decoder) and [GoJsonFacts] (parsing gives
    back what was written), [GoURL] and [GoURLText] (writing URLs and queries, and
    reading them back), [GoHttp] (with durations and their texts), [Interleave],
    [GoProcess], [Tx] (the database server and programs that use it),
    [ReadCommitted] (their transactions when they overlap, with the rules to
    reason about one of them), [GoSmtp] (net/smtp and the dot writer of
    net/textproto).

    Orders: [OrdersDomain] (domain/orders: the aggregate), [OrdersTables] (the
    rows and SQL of generated/), [OrdersPorts], [OrdersQuote] (quote.go),
    [OrdersStore] and [OrdersSaga] (store.go), [OrdersService] (service.go,
    against the class of its store's laws, which the PostgreSQL store
    discharges), [OrdersAuth] and [OrdersHTTP] (inbound/http), [OrdersConfig],
    [OrdersRelay] (cmd/relay), [OrdersMigrate] (postgres.go), [OrdersProcess]
    (the three [run]s of cmd/).  Theorems: [OrdersHistory] (what every operation
    may do to the rows, as an evolution relation kept by any sequence of them),
    [OrdersStoreFacts], [OrdersSagaFacts], [OrdersPaging], [OrdersHTTPFacts],
    [OrdersRelayFacts], [OrdersPublish]; transactions that overlap in
    [OrdersRows] (the tables by rows and keys), [OrdersInterleaved] (the store's
    operations statement by statement, and what each relies on and guarantees)
    and [OrdersOverlap] (the theorems, and overlapping runs); concrete runs and
    witnesses in [OrdersSamples] and [OrdersWitnesses].

    Gateway: [GatewayDomain], [GatewayService], [GatewayUpstream] (upstream.go),
    [GatewayHTTP] (server.go), [GatewayLimiter] (redis/limiter.go),
    [GatewayVerifier] (jwks/verifier.go), [GatewayTokens] (outbound/identity),
    [GatewayConfig], [GatewayProcess] (cmd/api), [GatewayTelemetry] (what the
    service and the router count); [GatewayHTTPFacts], [GatewayOrders] and
    [GatewayWitnesses].

    Identity: [IdentityDomain], [IdentityTables], [IdentityStore],
    [IdentityService] (service.go, each transaction body a program of its own),
    [IdentityCrypto] (outbound/crypto), [IdentityHTTP] (inbound/http and
    health.go, with the multiplexer's routes), [IdentityRedis], [IdentityRelay]
    (kafka/publisher.go), [IdentityConfig], [IdentityMail] (platform/runtime: the
    templates and the mailers), [IdentityStart] (cmd/api).  Theorems: [IdentityFacts] (a call
    changes the rows by one transaction, a transaction by one [change] and one
    trail), [IdentityInvariant] (well-formed rows), [IdentityFamilies] (the
    contract of token families), [IdentityCalls], [IdentityTheorems],
    [IdentityHTTPFacts], [IdentityKeys], [IdentityMailFacts], [IdentityProcess]
    (the ports and the server as main wires them), [IdentityOverlap] (the service's
    transactions when they overlap); [IdentityWitnesses] and, for the HTTP
    interface, [IdentityKeys].

    Across the services: [TokenPath] and [TokenPathWitness] (also of
    [IdentityProcess]), [RequestIds],
    [HttpMetrics] (the request counters of the three servers).

    ** What is shown

    Orders.  However operations overlap and fail, orders keep their identity,
    grow in version and move along the status graph, and no order is CANCELLED
    without the compensations it needs; of overlapping deliveries of a fact at
    most one takes effect while no failure of it is recorded, and every order was
    made under an idempotency key of its own; what is shown of operations one
    after the other holds of a schedule of the interleaved server; payment is
    asked for the exact signed total, without overflow; creation and
    cancellation are atomic, idempotent and optimistic; the outbox is
    append-only, published only after it was sent, leased exclusively and
    drained when nothing fails; offsets follow effects and poison ends in
    quarantine; a cursor reads back as the order it was made for, and a client of
    the service that follows them is shown every order once; requests reach orders only for
    permitted actors; migrations run one at a time while the lock's session
    lives; the API and the relay serve what their configuration says, outside
    development safely.

    Gateway.  Nothing is forwarded that one policy did not route, validate and
    authorize; tokens are accepted only under keys fetched recently, with one
    fetch at a time and nobody left waiting; writes are sent at most once;
    errors are sanitized; windows admit their limit; service tokens have time
    left; the actor survives the hop to Orders; a Gateway serves only after it
    fetched keys and Redis answered; every refusal and every request sent behind
    is counted once, under labels no caller chooses.

    Identity.  However calls overlap, statement by statement, a refresh token
    gives new credentials once, a one-time token works once, and sessions only
    ever end.  Under any interleaving of calls whose transactions run one at a
    time the sessions refine the contract of token families: one live session per
    family, moved only by rotation, dead for good after a reuse; every change is audited in its transaction; revocations
    are final; credentials need the password, an active user and a verified
    address; reset tokens work once; machine tokens stay in scope; protected
    routes need a verified token with a live session in the rows, and changes
    of roles and statuses their scope; what signing in issues is accepted there;
    the email filter is the prefix it means; the Gateway reads exactly the keys
    Identity publishes.  A mail is handed over once and credentials only under
    TLS; its link carries the token that was issued, whatever bytes it has, and
    no text becomes markup.  An Identity in production serves only with a stored
    key and an authenticated mail relay.

    Together.  Who signs in at Identity gets through at the Gateway with exactly
    the user's roles and scopes; the token the Gateway buys with its credentials
    opens Orders, when its scopes contain one Orders wants; one request id
    follows a request; what the processes opened is closed in the opposite
    order however they end.

    Behaviours the code has against its own intent are theorems too, for
    instance [completion_skips_confirmation],
    [a_retried_fact_can_take_effect_twice],
    [a_rotation_outlives_the_revocation_of_all_sessions],
    [two_administrators_can_remove_each_other], [filtered_cursor_is_refused],
    [default_scopes_miss_orders_machine_scope],
    [administrators_are_refused_through_the_gateway],
    [the_last_active_administrator_can_be_disabled],
    [unknown_environment_escapes_the_checks], [gateway_labels_can_be_raw],
    [separators_are_no_brokers], [observer_is_set_while_the_relay_runs] and
    [accepted_mail_can_be_reported_as_failed].

    ** Bounds and fuel

    The JSON scanner recurses on fuel [json_fuel], three times the bytes and
    three; [json_round_trip] shows that as many steps as bytes are enough for
    what was written.  The relay's retries of one message ([settle]) take fuel
    8, the number of attempts after which the code itself quarantines.  A client
    that asks for the pages of a listing ([walk]) takes one more step than there are orders, and
    is shown to end.  [ParseDuration] takes its input's length, and the wrapping
    of a mail's picture as many rounds as it has characters, which is shown to
    lose none.  Nothing else runs on fuel.  The loops that run until a context is
    done ([publish], [Relay_Run]) take the list of what woke them.

    ** Not modelled, and why

    Logging, tracing, histograms of durations and the exporters of telemetry:
    they change no state the services act on.  The HTTP clients and servers below
    the handlers, and the pools of database connections but for the session of
    the migrations' lock; goose itself.  The redirect the multiplexer makes for
    paths that are not clean is a parameter.  The React frontend, the contracts
    and the deployment files, which are not Go.

    Of PostgreSQL's locks, only those of rows a transaction has changed: without
    the locks of rows it only named, and of the rows foreign keys point at, the
    model allows more interleavings than the server, and what is shown holds for
    the server's too.  A deadlock the server breaks is a statement that fails.
    Not modelled are the counters of Identity's handlers, and the
    races at the end of a process between its goroutines and the deferred
    closes.  The contract of token families is not claimed for transactions that
    overlap: a rotation under way can outlive a revocation. *)
From Stdlib Require Import ZArith Lia Ascii String.
From stdpp Require Import base gmap strings list sorting.

Open Scope Z_scope.

(** ** Go's pair of a value and an error *)

Inductive result (E A : Type) : Type :=
| Ok (a : A)
| Err (e : E).
Arguments Ok {E A} a.
Arguments Err {E A} e.

Declare Scope go_scope.
Delimit Scope go_scope with go.

Notation "'let?' x ':=' c 'in' k" :=
  (match c with Ok x => k | Err e => Err e end)
  (at level 10, x pattern, c at level 100, k at level 200) : go_scope.
Notation "'check' b 'else' e 'in' k" :=
  (if b then k else Err e)
  (at level 10, b at level 100, e at level 100, k at level 200) : go_scope.
Notation "'reject' b 'with' e 'in' k" :=
  (if b then Err e else k)
  (at level 10, b at level 100, e at level 100, k at level 200) : go_scope.

Definition is_ok {E A} (r : result E A) : bool :=
  match r with Ok _ => true | Err _ => false end.

(** ** Machine integers *)

Definition wrap_u64 (z : Z) : Z := z mod 2 ^ 64.
Definition wrap_i64 (z : Z) : Z := (z + 2 ^ 63) mod 2 ^ 64 - 2 ^ 63.
Definition wrap_i32 (z : Z) : Z := (z + 2 ^ 31) mod 2 ^ 32 - 2 ^ 31.

Definition in_i64 (z : Z) : Prop := - 2 ^ 63 <= z < 2 ^ 63.
Definition in_i32 (z : Z) : Prop := - 2 ^ 31 <= z < 2 ^ 31.
Definition in_u64 (z : Z) : Prop := 0 <= z < 2 ^ 64.

Lemma wrap_i64_id z : in_i64 z -> wrap_i64 z = z.
Proof. unfold in_i64, wrap_i64; intros; rewrite Z.mod_small; lia. Qed.

Lemma wrap_i32_id z : in_i32 z -> wrap_i32 z = z.
Proof. unfold in_i32, wrap_i32; intros; rewrite Z.mod_small; lia. Qed.

Lemma wrap_u64_id z : in_u64 z -> wrap_u64 z = z.
Proof. unfold in_u64, wrap_u64; intros; rewrite Z.mod_small; lia. Qed.

Lemma wrap_u64_range z : in_u64 (wrap_u64 z).
Proof. unfold in_u64, wrap_u64; apply Z.mod_pos_bound; lia. Qed.

(** ** Automation *)

Create HintDb streamweave.
Create Rewrite HintDb streamweave.
#[export] Hint Resolve wrap_u64_range : streamweave.

(** [break_match] splits on the scrutinee of a [match] in the goal or in a
    hypothesis, keeping the equation. *)
Ltac break_match :=
  match goal with
  | |- context [match ?x with _ => _ end] => destruct x eqn:?
  | H : context [match ?x with _ => _ end] |- _ => destruct x eqn:?
  end.

(** [go_inv H] takes an equation [program = Ok v] apart: every test on the
    way to the success becomes a hypothesis. *)
Ltac go_inv H :=
  repeat match type of H with
  | match ?x with _ => _ end = Ok _ => destruct x eqn:?; try discriminate H
  end;
  try (injection H; clear H; intros; subst).

(** ** Filters that keep all or nothing *)

Lemma filter_all {A} (P : A -> Prop) `{forall x, Decision (P x)} (l : list A) :
  (forall x, x ∈ l -> P x) -> filter P l = l.
Proof.
  induction l as [|x l IH]; intros HP; [done|].
  rewrite filter_cons_True by (apply HP; set_solver). f_equal. apply IH. set_solver.
Qed.
Lemma filter_none {A} (P : A -> Prop) `{forall x, Decision (P x)} (l : list A) :
  (forall x, x ∈ l -> ~ P x) -> filter P l = [].
Proof.
  induction l as [|x l IH]; intros HP; [done|].
  rewrite filter_cons_False by (apply HP; set_solver). apply IH. set_solver.
Qed.

(** ** Tables over time

    A keyed table evolves when no key is lost and every row changes along a
    preorder; a table in insertion order when rows are only appended and those
    there change along the preorder. *)

Definition map_evolves {K V} `{Countable K} (R : relation V) (m m' : gmap K V) : Prop :=
  forall k v, m !! k = Some v -> exists v', m' !! k = Some v' /\ R v v'.

Definition list_evolves {V} (R : relation V) (l l' : list V) : Prop :=
  exists old new, l' = old ++ new /\ Forall2 R l old.

Section TablesOverTime.
Context {K V : Type} `{Countable K} (R : relation V).

#[export] Instance map_evolves_refl : Reflexive R -> Reflexive (map_evolves (K := K) R).
Proof. intros HR m k v Hv. eauto. Qed.
#[export] Instance map_evolves_trans : Transitive R -> Transitive (map_evolves (K := K) R).
Proof.
  intros HR m1 m2 m3 H1 H2 k v Hv.
  destruct (H1 k v Hv) as (v' & Hv' & R1). destruct (H2 k v' Hv') as (v'' & Hv'' & R2). eauto.
Qed.
Lemma map_evolves_insert (m : gmap K V) k v :
  Reflexive R -> (forall v0, m !! k = Some v0 -> R v0 v) -> map_evolves R m (<[k := v]> m).
Proof.
  intros HR Hv k' v' Hk. destruct (decide (k' = k)) as [->|].
  - exists v. rewrite lookup_insert_eq. auto.
  - exists v'. rewrite lookup_insert_ne by done. auto.
Qed.

#[export] Instance list_evolves_refl : Reflexive R -> Reflexive (list_evolves R).
Proof. intros HR l. exists l, []. rewrite app_nil_r. split; [done|]. reflexivity. Qed.
#[export] Instance list_evolves_trans : Transitive R -> Transitive (list_evolves R).
Proof.
  intros HR l1 l2 l3 (o1 & n1 & -> & F1) (o2 & n2 & -> & F2).
  apply Forall2_app_inv_l in F2 as (o2a & o2b & Fa & Fb & ->).
  exists o2a, (o2b ++ n2). rewrite app_assoc. split; [done|].
  clear Fb. revert o2a Fa; induction F1 as [|x y l k Hxy F1 IH]; intros o2a Fa.
  - apply Forall2_nil_inv_l in Fa as ->. constructor.
  - apply Forall2_cons_inv_l in Fa as (z & o & Hyz & Fa & ->). constructor; eauto.
Qed.
Lemma list_evolves_app (l new : list V) : Reflexive R -> list_evolves R l (l ++ new).
Proof. intros HR. exists l, new. split; [done|]. reflexivity. Qed.
Lemma list_evolves_map (f : V -> V) (l : list V) :
  (forall x, x ∈ l -> R x (f x)) -> list_evolves R l (map f l).
Proof.
  intros Hf. exists (map f l), []. rewrite app_nil_r. split; [done|].
  induction l as [|x l IH]; cbn; constructor; [apply Hf; set_solver | apply IH; set_solver].
Qed.
End TablesOverTime.

(** ** Sorting *)

Fixpoint insert_by {A} (le : A -> A -> bool) (x : A) (l : list A) : list A :=
  match l with
  | [] => [x]
  | y :: r => if le x y then x :: l else y :: insert_by le x r
  end.
(** ORDER BY: a stable insertion sort. *)
Definition order_by {A} (le : A -> A -> bool) (l : list A) : list A := foldr (insert_by le) [] l.

Lemma insert_by_Permutation {A} (le : A -> A -> bool) x l : insert_by le x l ≡ₚ x :: l.
Proof.
  induction l as [|y l IH]; cbn; [done|]. case_match; [done|].
  etransitivity; [by constructor | apply Permutation_swap].
Qed.
Lemma order_by_Permutation {A} (le : A -> A -> bool) l : order_by le l ≡ₚ l.
Proof.
  induction l as [|x l IH]; cbn; [done|].
  etransitivity; [apply insert_by_Permutation | by constructor].
Qed.

(** A total comparison sorts, and sorting a sorted list changes nothing. *)
Lemma order_by_total {A} (le : A -> A -> bool) l : (forall x y, le x y = true \/ le y x = true) ->
  Sorted (fun x y => le x y = true) (order_by le l).
Proof.
  intros Htot. induction l as [|x l IH]; cbn; [constructor|]. fold (order_by le l).
  induction (order_by le l) as [|y r IHr]; cbn; [by repeat constructor|].
  apply Sorted_inv in IH as [Hr Hhd]. destruct (le x y) eqn:Hxy; [by repeat constructor|].
  assert (le y x = true) as Hyx by (destruct (Htot x y); congruence).
  constructor; [by apply IHr|].
  destruct r as [|z r]; cbn; [by constructor|]. case_match; [by constructor|].
  apply HdRel_inv in Hhd. by constructor.
Qed.
Lemma order_by_fixed {A} (le : A -> A -> bool) l : Sorted (fun x y => le x y = true) l -> order_by le l = l.
Proof.
  induction 1 as [|x l Hs IH Hhd]; cbn; [done|]. fold (order_by le l). rewrite IH.
  destruct Hhd as [|y l Hxy]; cbn; [done|]. by rewrite Hxy.
Qed.
