(* ===== verification/GoStrings.v ===== *)
(** * Go strings

    Byte strings and the part of Go's [strings] and [regexp] packages the
    services call.  Functions that Go runs through Unicode tables take their
    result from the class [GoLib] whenever the argument has a byte outside
    ASCII, the way the library itself leaves its ASCII fast path; everything
    proved here holds for every instance. *)
From Stdlib Require Import ZArith Lia Ascii String.
From stdpp Require Import base strings list.
From S2P Require Import Prelude.

Open Scope string_scope.
Open Scope Z_scope.

Definition bytes (s : string) : list ascii := list_ascii_of_string s.
Definition of_bytes (l : list ascii) : string := string_of_list_ascii l.

Lemma of_bytes_bytes s : of_bytes (bytes s) = s.
Proof. apply string_of_list_ascii_of_string. Qed.
Lemma bytes_of_bytes l : bytes (of_bytes l) = l.
Proof. apply list_ascii_of_string_of_list_ascii. Qed.
#[export] Hint Rewrite of_bytes_bytes bytes_of_bytes : streamweave.

Lemma bytes_inj s t : bytes s = bytes t -> s = t.
Proof. intros H; rewrite <- (of_bytes_bytes s), <- (of_bytes_bytes t); congruence. Qed.

Lemma bytes_app s t : bytes (s +:+ t) = (bytes s ++ bytes t)%list.
Proof. induction s; simpl; [reflexivity | f_equal; exact IHs]. Qed.

Lemma of_bytes_app l k : of_bytes (l ++ k) = of_bytes l +:+ of_bytes k.
Proof. apply bytes_inj; rewrite bytes_app, !bytes_of_bytes; reflexivity. Qed.

(** ** Character classes *)

Definition code (c : ascii) : Z := Z.of_N (N_of_ascii c).
Definition between (lo hi : ascii) (c : ascii) : bool :=
  (code lo <=? code c) && (code c <=? code hi).

Definition is_upper : ascii -> bool := between "A" "Z".
Definition is_lower : ascii -> bool := between "a" "z".
Definition is_digit : ascii -> bool := between "0" "9".
Definition is_alnum (c : ascii) : bool := is_upper c || is_lower c || is_digit c.
(** [[A-Za-z0-9._:-]] *)
Definition is_key_char (c : ascii) : bool :=
  is_alnum c || (c =? ".")%char || (c =? "_")%char || (c =? ":")%char || (c =? "-")%char.
(** [[a-z0-9:_-]] *)
Definition is_scope_char (c : ascii) : bool :=
  is_lower c || is_digit c || (c =? ":")%char || (c =? "_")%char || (c =? "-")%char.
(** [[A-Z0-9_]] *)
Definition is_reason_char (c : ascii) : bool :=
  is_upper c || is_digit c || (c =? "_")%char.

Definition is_ascii_byte (c : ascii) : bool := code c <? 128.
Definition is_ascii (s : string) : bool := forallb is_ascii_byte (bytes s).

(** Tab, line feed, vertical tab, form feed, carriage return and space. *)
Definition is_space (c : ascii) : bool :=
  ((9 <=? code c) && (code c <=? 13)) || (code c =? 32).

Definition to_upper_byte (c : ascii) : ascii :=
  if is_lower c then ascii_of_N (Z.to_N (code c - 32)) else c.
Definition to_lower_byte (c : ascii) : ascii :=
  if is_upper c then ascii_of_N (Z.to_N (code c + 32)) else c.

(** ** Package strings *)

(** What the standard library computes off the fast paths written out in this
    development: case mapping, trimming, splitting, JSON quoting and unquoting
    of strings with bytes outside ASCII, and [time.Parse] on texts the strict
    RFC 3339 reader refuses. *)
Class GoLib := {
  uni_TrimSpace : string -> string;
  uni_ToUpper : string -> string;
  uni_ToLower : string -> string;
  uni_Fields : string -> list string;
  uni_JsonQuote : string -> string;
  uni_JsonUnquote : string -> string;
  lenient_rfc3339 : string -> option (Z * option Z)
}.

(** An instance for concrete runs, whose inputs are ASCII. *)
Definition ascii_lib : GoLib :=
  {| uni_TrimSpace := fun s => s; uni_ToUpper := fun s => s; uni_ToLower := fun s => s;
     uni_Fields := fun s => [s]; uni_JsonQuote := fun s => s; uni_JsonUnquote := fun s => s;
     lenient_rfc3339 := fun _ => None |}.

Fixpoint drop_while {A} (p : A -> bool) (l : list A) : list A :=
  match l with
  | [] => []
  | x :: k => if p x then drop_while p k else l
  end.

Definition ascii_TrimSpace (s : string) : string :=
  of_bytes (rev (drop_while is_space (rev (drop_while is_space (bytes s))))).

Definition HasPrefix (s prefix : string) : bool := String.prefix prefix s.
Definition TrimPrefix (s prefix : string) : string :=
  if HasPrefix s prefix
  then of_bytes (drop (String.length prefix) (bytes s)) else s.
Definition HasSuffix (s suffix : string) : bool :=
  String.prefix (of_bytes (rev (bytes suffix))) (of_bytes (rev (bytes s))).
Definition TrimSuffix (s suffix : string) : string :=
  if HasSuffix s suffix
  then of_bytes (take (String.length s - String.length suffix) (bytes s)) else s.

Definition trim_right_byte (c : ascii) (s : string) : string :=
  of_bytes (rev (drop_while (Ascii.eqb c) (rev (bytes s)))).
Definition trim_left_byte (c : ascii) (s : string) : string :=
  of_bytes (drop_while (Ascii.eqb c) (bytes s)).

(** [strings.Split] with a one-byte separator: always at least one part. *)
Fixpoint split_bytes (sep : ascii) (l : list ascii) : list (list ascii) :=
  match l with
  | [] => [[]]
  | c :: k =>
      if (c =? sep)%char then [] :: split_bytes sep k
      else match split_bytes sep k with
           | [] => [[c]]
           | p :: ps => (c :: p) :: ps
           end
  end.
Definition Split (s : string) (sep : ascii) : list string :=
  map of_bytes (split_bytes sep (bytes s)).

(** Maximal runs of non-space bytes. *)
Definition ascii_Fields (s : string) : list string :=
  List.filter (fun p => negb (p =? "")%string)
    (map of_bytes (split_bytes " " (map (fun c => if is_space c then " "%char else c) (bytes s)))).

Definition Join (parts : list string) (sep : string) : string := String.concat sep parts.

(** At most the first [n] bytes: what [io.LimitReader] lets through. *)
Fixpoint take_string (n : Z) (s : string) : string :=
  match s with
  | EmptyString => ""
  | String c r => if n <=? 0 then "" else String c (take_string (n - 1) r)
  end.

Definition ContainsAnyCRLF (s : string) : bool :=
  existsb (fun c => (code c =? 10) || (code c =? 13)) (bytes s).

(** The part after the last occurrence of [sep], or the whole string. *)
Definition after_last (sep : ascii) (s : string) : string :=
  of_bytes (List.last (split_bytes sep (bytes s)) []).

(** A text with its double quotes, written here as tildes. *)
Definition quoted (s : string) : string :=
  of_bytes (map (fun c => if (c =? "~")%char then "034"%char else c) (bytes s)).

Definition ReplaceAllDash (s : string) : string :=
  of_bytes (List.filter (fun c => negb (c =? "-")%char) (bytes s)).

Section WithGoLib.
Context `{GoLib}.

Definition TrimSpace (s : string) : string :=
  if is_ascii s then ascii_TrimSpace s else uni_TrimSpace s.
Definition ToUpper (s : string) : string :=
  if is_ascii s then of_bytes (map to_upper_byte (bytes s)) else uni_ToUpper s.
Definition ToLower (s : string) : string :=
  if is_ascii s then of_bytes (map to_lower_byte (bytes s)) else uni_ToLower s.
Definition Fields (s : string) : list string :=
  if is_ascii s then ascii_Fields s else uni_Fields s.
End WithGoLib.

(** ** Package regexp *)

(** The expressions the services compile: byte classes with a repetition
    range, concatenation, alternation.  [Rep p m (Some n)] is [p{m,n}] and
    [Rep p m None] is [p{m,}]. *)
Inductive re :=
| Eps
| Never
| Rep (p : ascii -> bool) (m : nat) (n : option nat)
| Cat (a b : re)
| Alt (a b : re).

Fixpoint Lit (s : string) : re :=
  match s with
  | EmptyString => Eps
  | String c t => Cat (Rep (Ascii.eqb c) 1 (Some 1%nat)) (Lit t)
  end.

(** What an expression matches, anchored at both ends. *)
Inductive matches : re -> list ascii -> Prop :=
| M_eps : matches Eps []
| M_rep p m n l :
    Forall (fun c => p c = true) l ->
    (m <= length l)%nat ->
    match n with Some k => (length l <= k)%nat | None => True end ->
    matches (Rep p m n) l
| M_cat a b l k : matches a l -> matches b k -> matches (Cat a b) (l ++ k)
| M_alt_l a b l : matches a l -> matches (Alt a b) l
| M_alt_r a b l : matches b l -> matches (Alt a b) l.

Fixpoint nullable (r : re) : bool :=
  match r with
  | Eps => true
  | Never => false
  | Rep _ m _ => Nat.eqb m 0
  | Cat a b => nullable a && nullable b
  | Alt a b => nullable a || nullable b
  end.

Fixpoint deriv (c : ascii) (r : re) : re :=
  match r with
  | Eps | Never => Never
  | Rep p m n =>
      if p c then
        match n with
        | Some O => Never
        | Some (S k) => Rep p (pred m) (Some k)
        | None => Rep p (pred m) None
        end
      else Never
  | Cat a b =>
      if nullable a then Alt (Cat (deriv c a) b) (deriv c b) else Cat (deriv c a) b
  | Alt a b => Alt (deriv c a) (deriv c b)
  end.

Fixpoint match_bytes (r : re) (l : list ascii) : bool :=
  match l with
  | [] => nullable r
  | c :: k => match_bytes (deriv c r) k
  end.

(** [regexp.MustCompile("^r$").MatchString] *)
Definition MatchString (r : re) (s : string) : bool := match_bytes r (bytes s).

(** A repetition range no string can satisfy makes an expression ill formed;
    Go's compiler rejects it. *)
Fixpoint re_ok (r : re) : bool :=
  match r with
  | Eps | Never => true
  | Rep _ m (Some n) => Nat.leb m n
  | Rep _ _ None => true
  | Cat a b | Alt a b => re_ok a && re_ok b
  end.

Lemma deriv_ok c r : re_ok r = true -> re_ok (deriv c r) = true.
Proof.
  induction r as [| |p m n|a IHa b IHb|a IHa b IHb]; simpl; intros Hok; auto.
  - destruct (p c); [|reflexivity]. destruct n as [[|k]|]; simpl; auto.
    apply Nat.leb_le in Hok; apply Nat.leb_le; lia.
  - apply andb_true_iff in Hok as [Ha Hb].
    destruct (nullable a); simpl; rewrite ?IHa, ?IHb, ?Hb; auto.
  - apply andb_true_iff in Hok as [Ha Hb]. rewrite IHa, IHb; auto.
Qed.

Lemma matches_Cat a b l :
  matches (Cat a b) l <->
  exists l1 l2, l = (l1 ++ l2)%list /\ matches a l1 /\ matches b l2.
Proof.
  split.
  - intros H. remember (Cat a b) as r eqn:E. destruct H; simplify_eq; eauto.
  - intros (l1 & l2 & -> & H1 & H2). constructor; assumption.
Qed.

Lemma matches_Alt a b l : matches (Alt a b) l <-> matches a l \/ matches b l.
Proof.
  split.
  - intros H. remember (Alt a b) as r eqn:E. destruct H; simplify_eq; auto.
  - intros [H|H]; [apply M_alt_l|apply M_alt_r]; exact H.
Qed.

Lemma matches_Rep p m n l :
  matches (Rep p m n) l <->
  Forall (fun c => p c = true) l /\ (m <= length l)%nat /\
  match n with Some k => (length l <= k)%nat | None => True end.
Proof.
  split.
  - intros H. remember (Rep p m n) as r eqn:E. destruct H; simplify_eq; auto.
  - intros (? & ? & ?); constructor; assumption.
Qed.

Lemma matches_Eps l : matches Eps l <-> l = [].
Proof.
  split.
  - intros H. remember Eps as r eqn:E. destruct H; simplify_eq; auto.
  - intros ->; constructor.
Qed.

Lemma matches_Never l : ~ matches Never l.
Proof. inversion 1. Qed.

Lemma nullable_matches r : re_ok r = true -> nullable r = true <-> matches r [].
Proof.
  induction r as [| |p m n|a IHa b IHb|a IHa b IHb]; simpl; intros Hok.
  - rewrite matches_Eps; tauto.
  - split; [discriminate|intros []%matches_Never].
  - rewrite Nat.eqb_eq, matches_Rep; simpl; split; [intros ->|lia].
    split_and!; [constructor|lia|destruct n; [lia|exact I]].
  - apply andb_true_iff in Hok as [Ha Hb].
    rewrite andb_true_iff, IHa, IHb, matches_Cat by assumption; split.
    + intros [H1 H2]; exists [], []; auto.
    + intros (l1 & l2 & Heq & H1 & H2); symmetry in Heq; apply app_nil in Heq as [-> ->]; auto.
  - apply andb_true_iff in Hok as [Ha Hb].
    rewrite orb_true_iff, IHa, IHb, matches_Alt by assumption; tauto.
Qed.

Lemma deriv_rep_matches p m n c l :
  matches (deriv c (Rep p m n)) l <-> matches (Rep p m n) (c :: l).
Proof.
  simpl. rewrite (matches_Rep p m n (c :: l)), Forall_cons.
  destruct (p c) eqn:Hp.
  - destruct n as [[|k]|]; rewrite ?matches_Rep; simpl.
    + split; [intros []%matches_Never|lia].
    + split; intros (H1 & H2 & H3); [split_and!; auto; lia|].
      destruct H1; split_and!; auto; lia.
    + split; intros (H1 & H2 & H3); [split_and!; auto; lia|].
      destruct H1; split_and!; auto; lia.
  - split; [intros []%matches_Never|intros [[? _] _]; congruence].
Qed.

Lemma matches_Cat_cons a b c l :
  matches (Cat a b) (c :: l) <->
  (matches a [] /\ matches b (c :: l)) \/
  exists l1 l2, l = (l1 ++ l2)%list /\ matches a (c :: l1) /\ matches b l2.
Proof.
  rewrite matches_Cat; split.
  - intros ([|c' l1] & l2 & Heq & H1 & H2); simpl in Heq.
    + left; subst; auto.
    + injection Heq as <- ->; right; eauto.
  - intros [[H1 H2]|(l1 & l2 & -> & H1 & H2)]; [exists [], (c :: l)|exists (c :: l1), l2]; auto.
Qed.

Lemma deriv_matches c r l :
  re_ok r = true -> matches (deriv c r) l <-> matches r (c :: l).
Proof.
  revert l; induction r as [| |p m n|a IHa b IHb|a IHa b IHb]; intros l Hok.
  - simpl; rewrite matches_Eps; split; [intros []%matches_Never|discriminate].
  - split; intros []%matches_Never.
  - apply deriv_rep_matches.
  - simpl in Hok; apply andb_true_iff in Hok as [Ha Hb].
    assert (Hcat : matches (Cat (deriv c a) b) l <->
                   exists l1 l2, l = (l1 ++ l2)%list /\ matches a (c :: l1) /\ matches b l2).
    { rewrite matches_Cat; split; intros (l1 & l2 & ? & H1 & H2);
        exists l1, l2; split_and!; auto; apply IHa; auto. }
    rewrite matches_Cat_cons, <- Hcat; simpl.
    pose proof (nullable_matches a Ha) as Hn.
    destruct (nullable a); rewrite ?matches_Alt, ?(IHb _ Hb); [tauto|].
    split; [auto|intros [[H1%Hn _]|?]; [discriminate|auto]].
  - simpl in *; apply andb_true_iff in Hok as [Ha Hb].
    rewrite !matches_Alt, IHa, IHb by assumption; tauto.
Qed.

(** The derivative matcher decides the language of the expression. *)
Lemma match_bytes_spec r l : re_ok r = true -> match_bytes r l = true <-> matches r l.
Proof.
  revert r; induction l as [|c l IH]; simpl; intros r Hok.
  - apply nullable_matches, Hok.
  - rewrite IH by (apply deriv_ok, Hok). apply deriv_matches, Hok.
Qed.

Lemma Lit_ok s : re_ok (Lit s) = true.
Proof. induction s; simpl; auto. Qed.

Lemma matches_Lit s l : matches (Lit s) l <-> l = bytes s.
Proof.
  revert l; induction s as [|c s IH]; simpl; intros l; [apply matches_Eps|].
  rewrite matches_Cat; split.
  - intros (l1 & l2 & -> & H1 & ->%IH). apply matches_Rep in H1 as (HF & Hm & Hn).
    destruct l1 as [|c1 [|? ?]]; simpl in *; try lia.
    apply Forall_inv, Ascii.eqb_eq in HF as ->. reflexivity.
  - intros ->. exists [c], (bytes s). rewrite matches_Rep, IH; simpl.
    split_and!; auto; repeat constructor. apply Ascii.eqb_refl.
Qed.

(** [^pre[class]{m,n}$], the shape of every identifier pattern. *)
Definition prefixed (pre : string) (p : ascii -> bool) (m : nat) (n : option nat) : re :=
  Cat (Lit pre) (Rep p m n).

Lemma match_prefixed pre p m n s :
  match n with Some k => (m <= k)%nat | None => True end ->
  MatchString (prefixed pre p m n) s = true <->
  exists t, s = pre +:+ t /\ Forall (fun c => p c = true) (bytes t) /\
            (m <= String.length t)%nat /\
            match n with Some k => (String.length t <= k)%nat | None => True end.
Proof.
  intros Hmn. unfold MatchString. rewrite match_bytes_spec.
  2: { simpl. rewrite Lit_ok. destruct n; [apply Nat.leb_le, Hmn|reflexivity]. }
  assert (Hlen : forall t, String.length t = length (bytes t)).
  { induction t; simpl; auto. }
  split.
  - intros (l1 & l2 & Heq & ->%matches_Lit & (HF & Hm & Hn)%matches_Rep)%matches_Cat.
    exists (of_bytes l2). rewrite Hlen, bytes_of_bytes. split_and!; auto.
    apply bytes_inj. rewrite bytes_app, bytes_of_bytes. exact Heq.
  - intros (t & -> & HF & Hm & Hn). rewrite bytes_app. apply matches_Cat.
    rewrite Hlen in *. exists (bytes pre), (bytes t).
    rewrite matches_Lit, matches_Rep. auto.
Qed.

(** ** Words without white space *)

Definition plain_byte (c : ascii) : Prop := is_ascii_byte c = true /\ is_space c = false.
Definition plain (s : string) : Prop := Forall plain_byte (bytes s).

Lemma is_ascii_spec s : is_ascii s = true <-> Forall (fun c => is_ascii_byte c = true) (bytes s).
Proof. unfold is_ascii. by rewrite forallb_forall, List.Forall_forall. Qed.
Lemma plain_ascii s : plain s -> is_ascii s = true.
Proof. intros Hs. apply is_ascii_spec. eapply Forall_impl; [exact Hs|]. by intros c []. Qed.

Lemma drop_while_none {A} (p : A -> bool) l : Forall (fun x => p x = false) l -> drop_while p l = l.
Proof. destruct 1 as [|x l Hx _]; cbn; [done|]. by rewrite Hx. Qed.
Lemma TrimSpace_plain `{GoLib} s : plain s -> TrimSpace s = s.
Proof.
  intros Hs. unfold TrimSpace. rewrite plain_ascii by done.
  assert (Forall (fun c => is_space c = false) (bytes s)) as Hn by (eapply Forall_impl; [exact Hs|]; by intros c []).
  unfold ascii_TrimSpace. rewrite (drop_while_none is_space (bytes s)) by done.
  rewrite (drop_while_none is_space (rev (bytes s))) by (by apply List.Forall_rev).
  by rewrite rev_involutive, of_bytes_bytes.
Qed.

Lemma split_bytes_app sep w l : Forall (fun c => c <> sep) w ->
  split_bytes sep (w ++ sep :: l) = w :: split_bytes sep l.
Proof.
  induction 1 as [|c w Hc Hw IH]; cbn; [by rewrite Ascii.eqb_refl|].
  by rewrite (proj2 (Ascii.eqb_neq _ _) Hc), IH.
Qed.
Lemma split_bytes_word sep w : Forall (fun c => c <> sep) w -> split_bytes sep w = [w].
Proof.
  induction 1 as [|c w Hc Hw IH]; cbn; [done|]. by rewrite (proj2 (Ascii.eqb_neq _ _) Hc), IH.
Qed.
(** Splitting undoes joining words without the separator. *)
Lemma split_Join sep w l : Forall (fun w => Forall (fun c => c <> sep) (bytes w)) (w :: l) ->
  split_bytes sep (bytes (Join (w :: l) (String sep ""))) = map bytes (w :: l).
Proof.
  revert w. induction l as [|w' l IH]; intros w [Hw Hl]%Forall_cons.
  { by apply split_bytes_word. }
  change (Join (w :: w' :: l) (String sep "")) with (w +:+ (String sep "" +:+ Join (w' :: l) (String sep ""))).
  rewrite !bytes_app. cbn [bytes list_ascii_of_string app]. rewrite split_bytes_app by done.
  fold (bytes (Join (w' :: l) (String sep ""))). by rewrite IH.
Qed.

Lemma Forall_Join (P : ascii -> Prop) sep l :
  P sep -> Forall (fun w => Forall P (bytes w)) l -> Forall P (bytes (Join l (String sep ""))).
Proof.
  intros Hsep. induction 1 as [|w [|w' l] Hw Hl IH]; [constructor | done |].
  change (Join (w :: w' :: l) (String sep "")) with (w +:+ (String sep "" +:+ Join (w' :: l) (String sep ""))).
  rewrite !bytes_app. repeat (apply Forall_app; split); [done | by repeat constructor | done].
Qed.

(** [strings.Fields] undoes joining words with blanks. *)
Lemma Fields_Join `{GoLib} l :
  Forall (fun w => plain w /\ w <> "") l -> Fields (Join l " ") = l.
Proof.
  intros Hl. unfold Fields.
  assert (Forall plain l) as Hp by (eapply Forall_impl; [exact Hl|]; by intros w []).
  assert (is_ascii (Join l " ") = true) as ->.
  { apply is_ascii_spec, Forall_Join; [done|]. eapply Forall_impl; [exact Hp|].
    intros w Hw. apply is_ascii_spec. by apply plain_ascii. }
  unfold ascii_Fields.
  assert (map (fun c => if is_space c then " "%char else c) (bytes (Join l " ")) = bytes (Join l " ")) as ->.
  { rewrite <- (map_id (bytes (Join l " "))) at 2. apply map_ext_Forall.
    apply (Forall_Join (fun c => (if is_space c then " "%char else c) = c)); [done|].
    eapply Forall_impl; [exact Hp|]. intros w Hw. eapply Forall_impl; [exact Hw|]. by intros c [_ ->]. }
  destruct l as [|w l]; [done|]. rewrite split_Join.
  - rewrite map_map, (map_ext _ (fun x => x)) by apply of_bytes_bytes. rewrite map_id.
    clear Hp. induction Hl as [|x r [_ Hx] Hr IH]; cbn; [done|].
    by rewrite (proj2 (String.eqb_neq _ _) Hx), IH.
  - eapply Forall_impl; [exact Hp|]. intros x Hx. eapply Forall_impl; [exact Hx|]. by intros c [_ Hc] ->.
Qed.
