(* ===== verification/GoErrors.v ===== *)
(** * Go errors

    Error values as the services build them: sentinel variables of a package,
    errors made on the spot, the two database errors the adapters look for,
    and the wrappers [fmt.Errorf] and [errors.Join] put around them. *)
From Stdlib Require Import ZArith Ascii String.
From stdpp Require Import base strings list.
From S2P Require Import Prelude.

Open Scope string_scope.

Inductive goerr :=
| Sentinel (pkg text : string)
| NewErr (text : string)
| ErrNoRows
| PgError (code text : string)
| Errorf_w (e : goerr) (suffix : string)
| Errorf_ww (e1 e2 : goerr)
| Errorf_wv (e1 e2 : goerr)
| Join2 (e1 e2 : goerr).

#[export] Instance goerr_eq_dec : EqDecision goerr.
Proof. solve_decision. Defined.

(** [errors.Is]: the value itself or anything it wraps; [%v] wraps nothing. *)
Fixpoint errors_Is (e target : goerr) : bool :=
  bool_decide (e = target) ||
  match e with
  | Errorf_w e1 _ | Errorf_wv e1 _ => errors_Is e1 target
  | Errorf_ww e1 e2 | Join2 e1 e2 => errors_Is e1 target || errors_Is e2 target
  | _ => false
  end.

(** [errors.As] for [*pgconn.PgError], the code of the first one found. *)
Fixpoint errors_AsPg (e : goerr) : option string :=
  match e with
  | PgError c _ => Some c
  | Errorf_w e1 _ | Errorf_wv e1 _ => errors_AsPg e1
  | Errorf_ww e1 e2 | Join2 e1 e2 =>
      match errors_AsPg e1 with Some c => Some c | None => errors_AsPg e2 end
  | _ => None
  end.

(** [err.Error()] *)
Fixpoint ErrorText (e : goerr) : string :=
  match e with
  | Sentinel _ t | NewErr t => t
  | ErrNoRows => "sql: no rows in result set"
  | PgError c t => "ERROR: " +:+ t +:+ " (SQLSTATE " +:+ c +:+ ")"
  | Errorf_w e1 s => ErrorText e1 +:+ ": " +:+ s
  | Errorf_ww e1 e2 | Errorf_wv e1 e2 => ErrorText e1 +:+ ": " +:+ ErrorText e2
  | Join2 e1 e2 => ErrorText e1 +:+ String "010" (ErrorText e2)
  end.

Lemma errors_Is_refl e : errors_Is e e = true.
Proof. destruct e; cbn -[bool_decide]; rewrite bool_decide_true by reflexivity; reflexivity. Qed.
#[export] Hint Rewrite errors_Is_refl : streamweave.

Lemma errors_Is_wrap e s target :
  errors_Is e target = true -> errors_Is (Errorf_w e s) target = true.
Proof. intros H; cbn -[bool_decide]; rewrite H; apply orb_true_r. Qed.
