(* ===== verification/GoTime.v ===== *)
(** * Go times and durations

    A [time.Time] is an instant, in nanoseconds since the zero time (January 1
    of year 1, 00:00 UTC), together with its location: [None] is [time.UTC],
    [Some off] any other location whose offset at the instant is [off]
    seconds.  Durations are nanoseconds.  An RFC 3339 text reads back as the
    instant it was written for. *)
From Stdlib Require Import ZArith Lia Ascii String.
From stdpp Require Import base strings list pretty.
From S2P Require Import Prelude GoStrings.

Open Scope string_scope.
Open Scope Z_scope.

Record Time := mkTime { nanos : Z; zone : option Z }.

#[export] Instance Time_eq_dec : EqDecision Time.
Proof. solve_decision. Defined.

Definition zeroTime : Time := mkTime 0 None.
Definition IsZero (t : Time) : bool := nanos t =? 0.
Definition isUTC (t : Time) : bool := match zone t with None => true | Some _ => false end.
Definition UTC (t : Time) : Time := mkTime (nanos t) None.
Definition Before (t u : Time) : bool := nanos t <? nanos u.
Definition After (t u : Time) : bool := nanos u <? nanos t.
Definition Add (t : Time) (d : Z) : Time := mkTime (nanos t + d) (zone t).
Definition Sub (t u : Time) : Z := nanos t - nanos u.

Definition Second : Z := 1000000000.
Definition Minute : Z := 60 * Second.
Definition Hour : Z := 60 * Minute.

(** ** Civil dates (proleptic Gregorian calendar, day 0 is January 1 of year 1) *)

Definition days_from_civil (y m d : Z) : Z :=
  let y' := if m <=? 2 then y - 1 else y in
  let era := y' / 400 in
  let yoe := y' mod 400 in
  let doy := (153 * (if m <=? 2 then m + 9 else m - 3) + 2) / 5 + d - 1 in
  era * 146097 + (yoe * 365 + yoe / 4 - yoe / 100 + doy) - 306.

Definition civil_from_days (n : Z) : Z * Z * Z :=
  let z := n + 306 in
  let era := z / 146097 in
  let doe := z mod 146097 in
  let yoe := (doe - doe / 1460 + doe / 36524 - doe / 146096) / 365 in
  let doy := doe - (365 * yoe + yoe / 4 - yoe / 100) in
  let mp := (5 * doy + 2) / 153 in
  let d := doy - (153 * mp + 2) / 5 + 1 in
  let m := if mp <? 10 then mp + 3 else mp - 9 in
  (yoe + era * 400 + (if m <=? 2 then 1 else 0), m, d).

Definition is_leap (y : Z) : bool :=
  (y mod 4 =? 0) && (negb (y mod 100 =? 0) || (y mod 400 =? 0)).
Definition days_in_month (y m : Z) : Z :=
  if m =? 2 then (if is_leap y then 29 else 28)
  else if (m =? 4) || (m =? 6) || (m =? 9) || (m =? 11) then 30 else 31.

(** ** RFC 3339 *)

Definition digit (n : Z) : ascii := ascii_of_N (Z.to_N (48 + n)).
(** [n] in decimal with [w] digits, zero padded. *)
Fixpoint digits (w : nat) (n : Z) : list ascii :=
  match w with
  | O => []
  | S k => (digits k (n / 10) ++ [digit (n mod 10)])%list
  end.

Definition trim_zeros (l : list ascii) : list ascii :=
  rev (drop_while (Ascii.eqb "0") (rev l)).

Definition offset (t : Time) : Z := match zone t with None => 0 | Some o => o end.
(** The fraction of a second, which is left out when it is zero, and the offset. *)
Definition frac_text (frac : Z) : list ascii :=
  let f := trim_zeros (digits 9 frac) in match f with [] => [] | _ => "."%char :: f end.
Definition zone_text (off : Z) : list ascii :=
  (if off =? 0 then ["Z"%char]
   else (if off <? 0 then "-"%char else "+"%char) :: digits 2 (Z.abs off / 3600) ++ [":"%char] ++
        digits 2 (Z.abs off / 60 mod 60))%list.

(** [Format(time.RFC3339Nano)]; [None] when the year has not four digits,
    which [MarshalJSON] reports as an error. *)
Definition format_rfc3339nano (t : Time) : option string :=
  let local := nanos t + offset t * Second in
  let secs := local / Second in
  let '(y, m, d) := civil_from_days (secs / 86400) in
  let sod := secs mod 86400 in
  if (0 <=? y) && (y <=? 9999) then
    Some (of_bytes (digits 4 y ++ ["-"%char] ++ digits 2 m ++ ["-"%char] ++ digits 2 d ++ ["T"%char] ++
      digits 2 (sod / 3600) ++ [":"%char] ++ digits 2 (sod / 60 mod 60) ++ [":"%char] ++
      digits 2 (sod mod 60) ++ frac_text (local mod Second) ++ zone_text (offset t))%list)
  else None.

Fixpoint read_digits (w : nat) (acc : Z) (l : list ascii) : option (Z * list ascii) :=
  match w with
  | O => Some (acc, l)
  | S k => match l with
           | c :: r => if is_digit c then read_digits k (10 * acc + (code c - 48)) r else None
           | [] => None
           end
  end.
Definition read_char (c : ascii) (l : list ascii) : option (list ascii) :=
  match l with c' :: r => if (c' =? c)%char then Some r else None | [] => None end.

(** The digits of a fraction: its value in nanoseconds (further digits are
    dropped), how many digits were read, and the rest. *)
Fixpoint read_frac (scale acc : Z) (n : nat) (l : list ascii) : Z * nat * list ascii :=
  match l with
  | c :: r => if is_digit c then read_frac (scale / 10) (acc + (code c - 48) * scale) (S n) r
              else (acc, n, l)
  | [] => (acc, n, [])
  end.

(** An optional fraction, and the zone. *)
Definition read_fraction (l : list ascii) : option (Z * list ascii) :=
  match l with
  | c :: r => if (c =? ".")%char then
                let '(f, n, r') := read_frac 100000000 0 0 r in
                match n with O => None | _ => Some (f, r') end
              else Some (0, l)
  | [] => Some (0, l)
  end.
Definition read_zone (l : list ascii) : option (option Z * list ascii) :=
  match l with
  | [c] => if (c =? "Z")%char then Some (None, []) else None
  | c :: r =>
      if (c =? "+")%char || (c =? "-")%char then
        '(oh, r) ← read_digits 2 0 r; r ← read_char ":" r;
        '(om, r) ← read_digits 2 0 r;
        if (oh <=? 23) && (om <=? 59)
        then Some (Some ((if (c =? "-")%char then -1 else 1) * (oh * 3600 + om * 60)), r)
        else None
      else None
  | [] => None
  end.

(** [parseRFC3339], the fast path of [time.Parse] and of [Time.UnmarshalJSON]. *)
Definition strict_rfc3339 (s : string) : option Time :=
  '(y, l) ← read_digits 4 0 (bytes s); l ← read_char "-" l;
  '(m, l) ← read_digits 2 0 l; l ← read_char "-" l;
  '(d, l) ← read_digits 2 0 l; l ← read_char "T" l;
  '(hh, l) ← read_digits 2 0 l; l ← read_char ":" l;
  '(mi, l) ← read_digits 2 0 l; l ← read_char ":" l;
  '(ss, l) ← read_digits 2 0 l;
  '(frac, l) ← read_fraction l;
  '(off, l) ← read_zone l;
  match l with
  | [] =>
      if (1 <=? m) && (m <=? 12) && (1 <=? d) && (d <=? days_in_month y m)
         && (hh <=? 23) && (mi <=? 59) && (ss <=? 59)
      then Some (mkTime ((days_from_civil y m d * 86400 + hh * 3600 + mi * 60 + ss
                          - default 0 off) * Second + frac) off)
      else None
  | _ => None
  end.

(** [time.Parse(time.RFC3339Nano, s)], also what [Time.UnmarshalJSON] runs on
    the text between the quotes. *)
Definition parse_rfc3339nano `{GoLib} (s : string) : option Time :=
  match strict_rfc3339 s with
  | Some t => Some t
  | None => '(n, z) ← lenient_rfc3339 s; Some (mkTime n z)
  end.

Example rfc3339_example :
  format_rfc3339nano (mkTime ((days_from_civil 2026 7 24 * 86400 + 3661) * Second + 120000000) None)
  = Some "2026-07-24T01:01:01.12Z".
Proof. vm_compute. reflexivity. Qed.

Example strict_example :
  strict_rfc3339 "2026-07-24T01:01:01.12Z"
  = Some (mkTime ((days_from_civil 2026 7 24 * 86400 + 3661) * Second + 120000000) None).
Proof. vm_compute. reflexivity. Qed.

(** ** Dates there and back *)

Ltac div_lia := Z.to_euclidean_division_equations; lia.

(** The first day of a year of an era (the year 0 begins it, in March), and the
    year a day of the era belongs to. *)
Definition year_start (yoe : Z) : Z := 365 * yoe + yoe / 4 - yoe / 100 + yoe / 400.
Definition year_of_day (doe : Z) : Z := (doe - doe / 1460 + doe / 36524 - doe / 146096) / 365.

Lemma div_slow k a b : 0 < k -> a <= b -> a - a / k <= b - b / k.
Proof.
  intros Hk Hab. assert (b / k <= a / k + (b - a)); [|lia].
  rewrite <- Z.div_add by lia. apply Z.div_le_mono; nia.
Qed.
Lemma year_of_day_mono a b : 0 <= a <= b -> year_of_day a <= year_of_day b.
Proof.
  intros Hab. unfold year_of_day. apply Z.div_le_mono; [lia|].
  change 146096 with (36524 * 4). rewrite <- !Z.div_div by lia.
  pose proof (div_slow 1460 a b ltac:(lia) ltac:(lia)).
  assert (a / 36524 <= b / 36524) as Hc by (apply Z.div_le_mono; lia). revert Hc.
  generalize (a / 36524), (b / 36524). intros c d Hc. pose proof (div_slow 4 c d). lia.
Qed.
Lemma year_ends yoe : 0 <= yoe < 400 ->
  year_of_day (year_start yoe) = yoe /\ year_of_day (year_start (yoe + 1) - 1) = yoe.
Proof.
  intros Hy. assert (forallb (fun n => let y := Z.of_nat n in
    (year_of_day (year_start y) =? y) && (year_of_day (year_start (y + 1) - 1) =? y)) (seq 0 400) = true) as Hall
    by (vm_compute; reflexivity).
  rewrite forallb_forall in Hall. specialize (Hall (Z.to_nat yoe)). rewrite in_seq, Z2Nat.id in Hall by lia.
  destruct (proj1 (andb_true_iff _ _) (Hall ltac:(lia))) as [H1%Z.eqb_eq H2%Z.eqb_eq]. done.
Qed.
Lemma day_in_year doe : 0 <= doe < 146097 ->
  exists yoe, 0 <= yoe < 400 /\ year_start yoe <= doe < year_start (yoe + 1).
Proof.
  intros Hd. assert (forall k : nat, (k <= 400)%nat -> doe < year_start (Z.of_nat k) ->
    exists yoe, 0 <= yoe < 400 /\ year_start yoe <= doe < year_start (yoe + 1)) as Hk.
  { induction k as [|k IH]; intros Hle Hlt; [change (year_start (Z.of_nat 0)) with 0 in Hlt; lia|].
    destruct (Z.lt_ge_cases doe (year_start (Z.of_nat k))); [apply IH; [lia | done]|].
    exists (Z.of_nat k). replace (Z.of_nat k + 1) with (Z.of_nat (S k)) by lia. lia. }
  apply (Hk 400%nat); [lia|]. change (year_start (Z.of_nat 400)) with 146097. lia.
Qed.
Lemma day_of_year doe : 0 <= doe < 146097 -> let yoe := year_of_day doe in
  0 <= yoe < 400 /\ year_start yoe <= doe < year_start (yoe + 1).
Proof.
  intros Hd. destruct (day_in_year doe Hd) as (y & Hy & Hr). cbn.
  assert (year_of_day doe = y) as ->; [|done]. destruct (year_ends y Hy) as [He1 He2].
  assert (0 <= year_start y) as H0 by (unfold year_start; div_lia).
  pose proof (year_of_day_mono (year_start y) doe ltac:(lia)).
  pose proof (year_of_day_mono doe (year_start (y + 1) - 1) ltac:(lia)). lia.
Qed.

(** Within a year that begins in March: 29 days of February when its last day
    has the number 365. *)
Lemma month_of_day doy : 0 <= doy <= 365 ->
  let mp := (5 * doy + 2) / 153 in let d := doy - (153 * mp + 2) / 5 + 1 in
  0 <= mp <= 11 /\ 1 <= d /\
  d <= (if mp =? 11 then (if doy =? 365 then 29 else 28)
        else if (mp =? 1) || (mp =? 3) || (mp =? 6) || (mp =? 8) then 30 else 31).
Proof.
  intros Hd. cbn. assert (forallb (fun n => let doy := Z.of_nat n in
    let mp := (5 * doy + 2) / 153 in let d := doy - (153 * mp + 2) / 5 + 1 in
    (0 <=? mp) && (mp <=? 11) && (1 <=? d) &&
    (d <=? (if mp =? 11 then (if doy =? 365 then 29 else 28)
        else if (mp =? 1) || (mp =? 3) || (mp =? 6) || (mp =? 8) then 30 else 31))) (seq 0 366) = true) as Hall
    by (vm_compute; reflexivity).
  rewrite forallb_forall in Hall. specialize (Hall (Z.to_nat doy)). rewrite in_seq in Hall. cbv zeta in Hall.
  rewrite Z2Nat.id in Hall by lia. specialize (Hall ltac:(lia)).
  apply andb_true_iff in Hall as [[[H1%Z.leb_le H2%Z.leb_le]%andb_true_iff H3%Z.leb_le]%andb_true_iff H4%Z.leb_le]. done.
Qed.
Lemma leap_year y : year_start (y mod 400 + 1) - year_start (y mod 400) = 366 -> is_leap (y + 1) = true.
Proof.
  unfold year_start, is_leap. intros Hl.
  assert ((y + 1) mod 4 = (y mod 400 + 1) mod 4 /\ (y + 1) mod 100 = (y mod 400 + 1) mod 100 /\
          (y + 1) mod 400 = (y mod 400 + 1) mod 400) as (-> & -> & ->) by div_lia.
  pose proof (Z.mod_pos_bound y 400 ltac:(lia)). revert Hl. generalize dependent (y mod 400). intros k Hk Hl.
  apply andb_true_iff. rewrite orb_true_iff, negb_true_iff, Z.eqb_neq, !Z.eqb_eq. div_lia.
Qed.

Lemma civil_days n y m d : civil_from_days n = (y, m, d) ->
  days_from_civil y m d = n /\ 1 <= m <= 12 /\ 1 <= d <= days_in_month y m.
Proof.
  unfold civil_from_days. fold (year_of_day ((n + 306) mod 146097)).
  set (doe := (n + 306) mod 146097). set (yoe := year_of_day doe). set (era := (n + 306) / 146097).
  assert (n + 306 = 146097 * era + doe) as Hn by (apply Z.div_mod; lia).
  pose proof (Z.mod_pos_bound (n + 306) 146097 ltac:(lia)) as Hdoe. fold doe in Hdoe.
  destruct (day_of_year doe Hdoe) as [Hy Hr]. fold yoe in Hy, Hr. 
  set (doy := doe - (365 * yoe + yoe / 4 - yoe / 100)).
  assert (year_start yoe = 365 * yoe + yoe / 4 - yoe / 100) as Hys by (unfold year_start; div_lia).
  assert (0 <= doy <= 365) as Hdoy by (unfold year_start in Hr; subst doy; div_lia).
  destruct (month_of_day doy Hdoy) as (Hmp & Hd1 & Hd2). 
  set (mp := (5 * doy + 2) / 153) in *. set (dd := doy - (153 * mp + 2) / 5 + 1) in *.
  assert ((yoe + era * 400) / 400 = era /\ (yoe + era * 400) mod 400 = yoe) as [Hdiv Hmod] by div_lia.
  intros [= <- <- <-]. destruct (Z.ltb_spec mp 10) as [Hlt|Hge].
  - rewrite (proj2 (Z.leb_gt (mp + 3) 2)), Z.add_0_r by lia. unfold days_from_civil.
    rewrite (proj2 (Z.leb_gt (mp + 3) 2)), Hdiv, Hmod by lia. replace (mp + 3 - 3) with mp by lia.
    split; [lia|]. split; [lia|]. split; [done|]. etransitivity; [exact Hd2|]. unfold days_in_month.
    rewrite (proj2 (Z.eqb_neq mp 11)), (proj2 (Z.eqb_neq (mp + 3) 2)) by lia.
    assert (mp ∈ [0; 1; 2; 3; 4; 5; 6; 7; 8; 9]) as Hin by (rewrite !elem_of_cons; lia).
    revert Hin. generalize mp. clear. intros mp Hin.
    repeat (apply elem_of_cons in Hin as [->|Hin]; [done|]). by apply elem_of_nil in Hin.
  - rewrite (proj2 (Z.leb_le (mp - 9) 2)) by lia. unfold days_from_civil.
    rewrite (proj2 (Z.leb_le (mp - 9) 2)) by lia. replace (yoe + era * 400 + 1 - 1) with (yoe + era * 400) by lia.
    rewrite Hdiv, Hmod. replace (mp - 9 + 9) with mp by lia.
    split; [lia|]. split; [lia|]. split; [done|]. etransitivity; [exact Hd2|]. unfold days_in_month.
    destruct (Z.eqb_spec mp 11) as [->|]; [|by replace (mp - 9) with 1 by lia; destruct (_ || _)]. cbn [Z.eqb Z.sub Z.add Z.opp Z.pos_sub Pos.eqb].
    destruct (Z.eqb_spec doy 365) as [H365|]; [|by destruct (is_leap _)].
    rewrite leap_year; [done|]. rewrite Hmod. unfold year_start in Hr |- *. subst doy. div_lia.
Qed.

(** Digits there and back. *)
Lemma digit_code n : 0 <= n < 10 -> is_digit (digit n) = true /\ code (digit n) - 48 = n.
Proof.
  intros Hn. assert (n ∈ [0; 1; 2; 3; 4; 5; 6; 7; 8; 9]) as Hin by (rewrite !elem_of_cons; lia). clear Hn.
  repeat (apply elem_of_cons in Hin as [->|Hin]; [done|]). by apply elem_of_nil in Hin.
Qed.
Lemma digits_digits w n : Forall (fun c => is_digit c = true) (digits w n).
Proof.
  revert n. induction w as [|w IH]; intros n; cbn; [constructor|]. apply Forall_app. split; [done|].
  apply Forall_singleton, digit_code, Z.mod_pos_bound. lia.
Qed.
Lemma read_digits_last k acc l :
  read_digits (S k) acc l =
  match read_digits k acc l with
  | Some (v, c :: r) => if is_digit c then Some (10 * v + (code c - 48), r) else None
  | _ => None
  end.
Proof.
  revert acc l. induction k as [|k IH]; intros acc l; [by destruct l|].
  change (read_digits (S (S k)) acc l) with
    (match l with c :: r => if is_digit c then read_digits (S k) (10 * acc + (code c - 48)) r else None | [] => None end).
  destruct l as [|c r]; [done|]. cbn [read_digits]. destruct (is_digit c); [|done]. rewrite <- IH. done.
Qed.
Lemma read_digits_back w n rest : 0 <= n < 10 ^ Z.of_nat w -> read_digits w 0 (digits w n ++ rest) = Some (n, rest).
Proof.
  revert n rest. induction w as [|w IH]; intros n rest Hn; [cbn in *; by replace n with 0 by lia|].
  rewrite read_digits_last. cbn [digits]. rewrite <- app_assoc, IH; cbn [app].
  - destruct (digit_code (n mod 10)) as [-> ->]; [apply Z.mod_pos_bound; lia|]. by rewrite <- Z.div_mod by lia.
  - rewrite Nat2Z.inj_succ, Z.pow_succ_r in Hn by lia. split; [apply Z.div_pos; lia | apply Z.div_lt_upper_bound; lia].
Qed.

(** The value of the digits of a fraction. *)
Fixpoint frac_value (scale : Z) (l : list ascii) : Z :=
  match l with [] => 0 | c :: r => (code c - 48) * scale + frac_value (scale / 10) r end.
Lemma read_frac_back scale acc n l rest : Forall (fun c => is_digit c = true) l ->
  match rest with c :: _ => is_digit c = false | [] => True end ->
  read_frac scale acc n (l ++ rest) = (acc + frac_value scale l, (n + length l)%nat, rest).
Proof.
  intros Hl Hr. revert scale acc n. induction Hl as [|c l Hc Hl IH]; intros scale acc n; cbn.
  - rewrite Z.add_0_r, Nat.add_0_r. destruct rest; [done|]. cbn. by rewrite Hr.
  - by rewrite Hc, IH, <- Z.add_assoc, <- Nat.add_succ_comm.
Qed.
Lemma frac_value_zeros scale l k : frac_value scale (l ++ replicate k "0"%char) = frac_value scale l.
Proof.
  revert scale. induction l as [|c l IH]; intros scale; cbn; [|by rewrite IH].
  revert scale. induction k as [|k IH]; intros scale; cbn; [done | by rewrite IH].
Qed.
Lemma drop_zeros l : exists k, l = (replicate k "0"%char ++ drop_while (Ascii.eqb "0") l)%list.
Proof.
  induction l as [|c l [k IH]]; [by exists 0%nat|]. cbn [drop_while]. destruct (Ascii.eqb_spec "0" c) as [<-|].
  - exists (S k). cbn. by rewrite <- IH.
  - by exists 0%nat.
Qed.
Lemma trim_zeros_spec l : exists k, l = (trim_zeros l ++ replicate k "0"%char)%list.
Proof.
  destruct (drop_zeros (rev l)) as [k Hk]. exists k. unfold trim_zeros.
  rewrite <- (rev_involutive l) at 1. rewrite Hk at 1. rewrite rev_app_distr. f_equal.
  clear. induction k as [|k IH]; [done|]. cbn [replicate rev]. rewrite IH.
  clear. induction k as [|k IH]; [done|]. cbn. by f_equal.
Qed.
Lemma nine_digits n : 0 <= n < 1000000000 -> frac_value 100000000 (digits 9 n) = n.
Proof.
  intros Hn. cbn [digits app frac_value].
  repeat (rewrite (proj2 (digit_code _ (Z.mod_pos_bound _ 10 ltac:(lia))))).
  repeat match goal with |- context [Z.pos ?p / 10] => let v := eval vm_compute in (Z.pos p / 10) in change (Z.pos p / 10) with v end.
  rewrite !Z.div_div by lia. cbn [Z.mul Pos.mul].
  div_lia.
Qed.

(** A zone RFC 3339 can write: whole minutes, less than a day. *)
Definition plain_zone (t : Time) : Prop :=
  match zone t with None => True | Some off => off mod 60 = 0 /\ Z.abs off < 86400 end.
Lemma read_zone_back off : off mod 60 = 0 -> Z.abs off < 86400 ->
  exists z, read_zone (zone_text off) = Some (z, []) /\ default 0 z = off.
Proof.
  intros Hm Ha. unfold zone_text. destruct (Z.eqb_spec off 0) as [->|Hne]; [by exists None|].
  set (h := Z.abs off / 3600). set (m := Z.abs off / 60 mod 60).
  assert (0 <= h <= 23 /\ 0 <= m <= 59 /\ Z.abs off = h * 3600 + m * 60) as (Hh & Hmi & Habs).
  { subst h m. assert (Z.abs off mod 60 = 0) by (Z.to_euclidean_division_equations; lia).
    Z.to_euclidean_division_equations; lia. }
  exists (Some off). split; [|done]. unfold read_zone.
  destruct (digits 2 h ++ [":"%char] ++ digits 2 m)%list as [|c0 r0] eqn:Hd; [by destruct (digits 2 h)|]. rewrite <- Hd. clear Hd.
  assert (forall c, (c =? "+")%char || (c =? "-")%char = true ->
    ('(oh, r) ← read_digits 2 0 (digits 2 h ++ [":"%char] ++ digits 2 m); r ← read_char ":" r;
     '(om, r) ← read_digits 2 0 r;
     if (oh <=? 23) && (om <=? 59)
     then Some (Some ((if (c =? "-")%char then -1 else 1) * (oh * 3600 + om * 60)), r)
     else None) = Some (Some ((if (c =? "-")%char then -1 else 1) * (h * 3600 + m * 60)), ([] : list ascii))) as Hr.
  { intros c _. rewrite read_digits_back by (cbn; lia). cbn -[digits read_digits].
    rewrite <- (app_nil_r (digits 2 m)), read_digits_back by (cbn; lia). cbn.
    rewrite (proj2 (Z.leb_le h 23)), (proj2 (Z.leb_le m 59)) by lia. done. }
  destruct (Z.ltb_spec off 0); rewrite Hr by done; cbn; do 3 f_equal; lia.
Qed.

Lemma zone_text_starts off : exists c r, zone_text off = c :: r /\ is_digit c = false /\ (c =? ".")%char = false.
Proof. unfold zone_text. destruct (off =? 0); [|destruct (off <? 0)]; by do 2 eexists. Qed.
Lemma read_fraction_back frac off : 0 <= frac < 1000000000 ->
  read_fraction (frac_text frac ++ zone_text off) = Some (frac, zone_text off).
Proof.
  intros Hf. destruct (zone_text_starts off) as (c & r & Hz & Hc & Hdot). rewrite Hz.
  pose proof (nine_digits frac Hf) as Hv. pose proof (digits_digits 9 frac) as Hd. unfold frac_text.
  destruct (trim_zeros_spec (digits 9 frac)) as [k Hk]. rewrite Hk, frac_value_zeros in Hv.
  rewrite Hk in Hd. apply Forall_app in Hd as [Hd _].
  destruct (trim_zeros (digits 9 frac)) as [|c0 f]; cbn [app read_fraction].
  - cbn in Hv. by rewrite Hdot, Hv.
  - change ("." =? ".")%char with true. cbn iota.
    change (c0 :: f ++ c :: r)%list with ((c0 :: f) ++ c :: r)%list.
    rewrite read_frac_back by done. by rewrite Hv.
Qed.

Lemma format_shape t s : format_rfc3339nano t = Some s ->
  let local := nanos t + offset t * Second in
  let secs := local / Second in
  let sod := secs mod 86400 in
  exists y m d, civil_from_days (secs / 86400) = (y, m, d) /\ 0 <= y <= 9999 /\
  bytes s = (digits 4 y ++ "-"%char :: digits 2 m ++ "-"%char :: digits 2 d ++ "T"%char ::
    digits 2 (sod / 3600) ++ ":"%char :: digits 2 (sod / 60 mod 60) ++ ":"%char ::
    digits 2 (sod mod 60) ++ frac_text (local mod Second) ++ zone_text (offset t))%list.
Proof.
  unfold format_rfc3339nano. fold (offset t). cbv zeta.
  destruct (civil_from_days _) as [[y m] d] eqn:Hc. destruct (_ && _) eqn:Hy; [|done].
  intros Hs%(inj Some). exists y, m, d. split; [done|]. split.
  { apply andb_true_iff in Hy as [?%Z.leb_le ?%Z.leb_le]. done. }
  by rewrite <- Hs, bytes_of_bytes.
Qed.

Ltac read_field solve_bound :=
  rewrite read_digits_back by (cbn; solve_bound); cbn [mbind option_bind read_char];
  rewrite ?Ascii.eqb_refl; cbn [mbind option_bind].
(** What [MarshalJSON] writes, [UnmarshalJSON] reads: the same instant. *)
Lemma rfc3339_round_trip t s : plain_zone t -> format_rfc3339nano t = Some s ->
  exists t', strict_rfc3339 s = Some t' /\ nanos t' = nanos t.
Proof.
  intros Hz Hs. apply format_shape in Hs as (y & m & d & Hc & Hy & Hb).
  apply civil_days in Hc as (Hday & Hm & Hd).
  assert (exists z, read_zone (zone_text (offset t)) = Some (z, []) /\ default 0 z = offset t) as (z & Hrz & Hz').
  { unfold plain_zone, offset in *. destruct (zone t) as [off|]; [apply read_zone_back; apply Hz | apply (read_zone_back 0); done]. }
  set (local := nanos t + offset t * Second) in *. set (secs := local / Second) in *. set (sod := secs mod 86400) in *.
  pose proof (Z.mod_pos_bound secs 86400 ltac:(lia)) as Hsod. fold sod in Hsod.
  assert (d <= 31) by (pose proof (proj2 Hd); unfold days_in_month in *; repeat case_match; lia).
  unfold strict_rfc3339. rewrite Hb. read_field lia. read_field lia. read_field lia.
  read_field div_lia. read_field div_lia. read_field div_lia.
  rewrite read_fraction_back by (apply Z.mod_pos_bound; unfold Second; lia).
  cbn [mbind option_bind]. rewrite Hrz. cbn [mbind option_bind].
  rewrite (proj2 (Z.leb_le 1 m)), (proj2 (Z.leb_le m 12)), (proj2 (Z.leb_le 1 d)), (proj2 (Z.leb_le d _)),
    (proj2 (Z.leb_le (sod / 3600) 23)), (proj2 (Z.leb_le (sod / 60 mod 60) 59)), (proj2 (Z.leb_le (sod mod 60) 59))
    by (lia || div_lia).
  eexists. split; [reflexivity|]. cbn [nanos]. rewrite Hday, Hz'.
  pose proof (Z.div_mod local Second ltac:(done)) as Hl. fold secs in Hl.
  pose proof (Z.div_mod secs 86400 ltac:(done)) as Hsec. fold sod in Hsec.
  assert (sod / 3600 * 3600 + sod / 60 mod 60 * 60 + sod mod 60 = sod) by div_lia. subst local. nia.
Qed.

(** The characters of such a text. *)
Definition time_char (c : ascii) : bool := is_digit c || existsb (Ascii.eqb c) ["-"; ":"; "T"; "."; "Z"; "+"]%char.
Lemma digits_chars w n : Forall (fun c => time_char c = true) (digits w n).
Proof. eapply Forall_impl; [apply digits_digits|]. unfold time_char. by intros c ->. Qed.
Lemma frac_chars frac : Forall (fun c => time_char c = true) (frac_text frac).
Proof.
  unfold frac_text. pose proof (digits_chars 9 frac) as Hd. destruct (trim_zeros_spec (digits 9 frac)) as [k Hk].
  rewrite Hk in Hd. apply Forall_app in Hd as [Hd _]. destruct (trim_zeros (digits 9 frac)); [done|]. by constructor.
Qed.
Lemma zone_chars off : Forall (fun c => time_char c = true) (zone_text off).
Proof.
  unfold zone_text. destruct (off =? 0); [by repeat constructor|]. constructor; [by destruct (off <? 0)|].
  apply Forall_app. split; [apply digits_chars|]. constructor; [done | apply digits_chars].
Qed.
Lemma format_chars t s : format_rfc3339nano t = Some s -> Forall (fun c => time_char c = true) (bytes s).
Proof.
  intros (y & m & d & _ & _ & ->)%format_shape.
  repeat first [apply Forall_app; split; [apply digits_chars || apply frac_chars|] | constructor; [done|]].
  apply zone_chars.
Qed.
