(* ===== verification/GoBase64.v ===== *)
(** * Package encoding/base64 and hexadecimal text

    [base64.RawURLEncoding] and [StdEncoding.EncodeToString] as the services
    use them, and the lower-case hexadecimal of [hex.EncodeToString] and
    [%x].  Decoding undoes encoding. *)
From Stdlib Require Import ZArith Lia Ascii String.
From stdpp Require Import base strings list.
From S2P Require Import Prelude GoStrings.

Open Scope string_scope.
Open Scope Z_scope.

Definition byte_of (z : Z) : ascii := ascii_of_N (Z.to_N z).

Lemma code_range c : 0 <= code c < 256.
Proof. unfold code. pose proof (N_ascii_bounded c). lia. Qed.
Lemma byte_of_code c : byte_of (code c) = c.
Proof. unfold byte_of, code. rewrite N2Z.id. apply ascii_N_embedding. Qed.

(** ** The URL-safe alphabet *)

Definition url_char (n : Z) : ascii :=
  if n <? 26 then byte_of (65 + n)
  else if n <? 52 then byte_of (97 + (n - 26))
  else if n <? 62 then byte_of (48 + (n - 52))
  else if n =? 62 then "-"%char else "_"%char.
Definition url_value (c : ascii) : option Z :=
  if is_upper c then Some (code c - 65)
  else if is_lower c then Some (code c - 97 + 26)
  else if is_digit c then Some (code c - 48 + 52)
  else if (c =? "-")%char then Some 62
  else if (c =? "_")%char then Some 63
  else None.
Definition std_char (n : Z) : ascii :=
  if n =? 62 then "+"%char else if n =? 63 then "/"%char else url_char n.

Definition in_alphabet (n : Z) : bool :=
  match url_value (url_char n) with Some m => m =? n | None => false end
  && negb (url_char n =? "010")%char && negb (url_char n =? "013")%char
  && negb (url_char n =? ".")%char.

Lemma in_alphabet_all n : 0 <= n < 64 -> in_alphabet n = true.
Proof.
  intros Hn.
  assert (forallb in_alphabet (map Z.of_nat (seq 0 64)) = true) as Ha by (vm_compute; reflexivity).
  rewrite forallb_forall in Ha. apply Ha, in_map_iff.
  exists (Z.to_nat n). rewrite Z2Nat.id by lia. split; [done|]. apply in_seq. lia.
Qed.
Lemma url_value_char n : 0 <= n < 64 -> url_value (url_char n) = Some n.
Proof.
  intros Hn; pose proof (in_alphabet_all n Hn) as Ha; unfold in_alphabet in Ha.
  rewrite !andb_true_iff in Ha. destruct Ha as [[[Ha _] _] _].
  destruct (url_value (url_char n)); [|done]. apply Z.eqb_eq in Ha. congruence.
Qed.

(** ** Encoding: three bytes are four characters *)

Definition quad (a b c : Z) : list Z :=
  [a / 4; (a mod 4) * 16 + b / 16; (b mod 16) * 4 + c / 64; c mod 64].

Fixpoint sextets (l : list ascii) : list Z :=
  match l with
  | a :: b :: c :: r => (quad (code a) (code b) (code c) ++ sextets r)%list
  | [a; b] => take 3 (quad (code a) (code b) 0)
  | [a] => take 2 (quad (code a) 0 0)
  | [] => []
  end.

Definition RawURLEncode (s : string) : string := of_bytes (map url_char (sextets (bytes s))).

Definition padding (n : nat) : string :=
  match Nat.modulo n 3 with O => "" | 1%nat => "==" | _ => "=" end.
Definition StdEncode (s : string) : string :=
  of_bytes (map std_char (sextets (bytes s))) +:+ padding (String.length s).

(** ** Decoding: line breaks are skipped, a lone trailing character refused *)

Fixpoint unsextets (l : list Z) : option (list ascii) :=
  match l with
  | p :: q :: r :: s :: rest =>
      out ← unsextets rest;
      Some (byte_of (p * 4 + q / 16) :: byte_of ((q mod 16) * 16 + r / 4)
              :: byte_of ((r mod 4) * 64 + s) :: out)
  | [p; q; r] => Some [byte_of (p * 4 + q / 16); byte_of ((q mod 16) * 16 + r / 4)]
  | [p; q] => Some [byte_of (p * 4 + q / 16)]
  | [_] => None
  | [] => Some []
  end.

Definition not_break (c : ascii) : bool := negb ((c =? "010")%char || (c =? "013")%char).

Definition RawURLDecode (s : string) : option string :=
  vs ← mapM url_value (List.filter not_break (bytes s));
  out ← unsextets vs;
  Some (of_bytes out).

(** ** Round trip *)

Lemma three_bytes_ind (P : list ascii -> Prop) :
  P [] -> (forall a, P [a]) -> (forall a b, P [a; b]) ->
  (forall a b c r, P r -> P (a :: b :: c :: r)) -> forall l, P l.
Proof.
  intros H0 H1 H2 H3 l.
  enough (P l /\ (forall a, P (a :: l)) /\ (forall a b, P (a :: b :: l))) by tauto.
  induction l as [|x l (IH0 & IH1 & IH2)]; auto.
Qed.

(** The bounds of every byte in the goal. *)
Ltac byte_ranges :=
  repeat match goal with
  | |- context [code ?x] =>
      lazymatch goal with
      | _ : 0 <= code x < 256 |- _ => fail
      | _ => pose proof (code_range x)
      end
  end.

Lemma sextets_range l : Forall (fun n => 0 <= n < 64) (sextets l).
Proof.
  induction l as [|a|a b|a b c r IH] using three_bytes_ind; cbn;
    rewrite ?Forall_cons, ?Forall_nil; repeat split; try exact IH;
    byte_ranges; Z.div_mod_to_equations; lia.
Qed.

Lemma unsextets_sextets l : unsextets (sextets l) = Some l.
Proof.
  induction l as [|a|a b|a b c r IH] using three_bytes_ind; cbn [sextets quad app take].
  - done.
  - cbn. pose proof (code_range a).
    replace (code a / 4 * 4 + _) with (code a) by (Z.div_mod_to_equations; lia).
    by rewrite byte_of_code.
  - cbn. pose proof (code_range a); pose proof (code_range b).
    replace (code a / 4 * 4 + _) with (code a) by (Z.div_mod_to_equations; lia).
    replace (_ * 16 + _) with (code b) by (Z.div_mod_to_equations; lia).
    by rewrite !byte_of_code.
  - cbn [unsextets]. rewrite IH; cbn.
    pose proof (code_range a); pose proof (code_range b); pose proof (code_range c).
    replace (code a / 4 * 4 + _) with (code a) by (Z.div_mod_to_equations; lia).
    replace (_ * 16 + _ / 4) with (code b) by (Z.div_mod_to_equations; lia).
    replace (_ * 64 + _) with (code c) by (Z.div_mod_to_equations; lia).
    by rewrite !byte_of_code.
Qed.

Lemma url_chars_value l :
  Forall (fun n => 0 <= n < 64) l -> mapM url_value (List.filter not_break (map url_char l)) = Some l.
Proof.
  induction 1 as [|n l Hn Hl IH]; [done|]. cbn [map List.filter].
  pose proof (in_alphabet_all n Hn) as Ha. unfold in_alphabet in Ha.
  rewrite !andb_true_iff, !negb_true_iff in Ha. destruct Ha as [[[_ H1] H2] _].
  unfold not_break at 1. rewrite H1, H2; cbn [orb negb mapM].
  cbn. rewrite (url_value_char n Hn). cbn. by rewrite IH.
Qed.

Lemma RawURL_roundtrip s : RawURLDecode (RawURLEncode s) = Some s.
Proof.
  unfold RawURLDecode, RawURLEncode. rewrite bytes_of_bytes.
  rewrite url_chars_value by apply sextets_range. cbn.
  rewrite unsextets_sextets. cbn. by rewrite of_bytes_bytes.
Qed.

(** The encoded text has no full stop, which the services use as separator. *)
Lemma RawURLEncode_no_dot s : Forall (fun c => (c =? ".")%char = false) (bytes (RawURLEncode s)).
Proof.
  unfold RawURLEncode. rewrite bytes_of_bytes, Forall_map.
  eapply Forall_impl; [apply sextets_range|]. cbn; intros n Hn.
  pose proof (in_alphabet_all n Hn) as Ha; unfold in_alphabet in Ha.
  rewrite !andb_true_iff, !negb_true_iff in Ha. tauto.
Qed.

(** Four characters for three bytes, rounded up. *)
Lemma sextets_length l : Z.of_nat (length (sextets l)) = (4 * Z.of_nat (length l) + 2) / 3.
Proof.
  induction l as [|a|a b|a b c r IH] using three_bytes_ind; cbn [sextets quad take length app]; try done.
  rewrite !Nat2Z.inj_succ, IH. set (n := Z.of_nat (length r)).
  replace (4 * Z.succ (Z.succ (Z.succ n)) + 2) with (4 * n + 2 + 4 * 3) by lia.
  rewrite Z.div_add by lia. lia.
Qed.
Lemma length_bytes s : length (bytes s) = String.length s.
Proof. induction s; cbn; [done | by f_equal]. Qed.
Lemma length_of_bytes l : String.length (of_bytes l) = length l.
Proof. by rewrite <- length_bytes, bytes_of_bytes. Qed.
Lemma RawURLEncode_length s :
  Z.of_nat (String.length (RawURLEncode s)) = (4 * Z.of_nat (String.length s) + 2) / 3.
Proof. unfold RawURLEncode. by rewrite length_of_bytes, length_map, sextets_length, length_bytes. Qed.

(** ** Hexadecimal *)

Definition hex_digit (n : Z) : ascii := if n <? 10 then byte_of (48 + n) else byte_of (87 + n).
Definition HexEncode (s : string) : string :=
  of_bytes (flat_map (fun c => [hex_digit (code c / 16); hex_digit (code c mod 16)]) (bytes s)).

Example hex_example : HexEncode (of_bytes [byte_of 0; byte_of 171; byte_of 255]) = "00abff".
Proof. reflexivity. Qed.
Example base64_example : RawURLEncode "any carnal pleas" = "YW55IGNhcm5hbCBwbGVhcw".
Proof. vm_compute. reflexivity. Qed.
