(* ===== verification/GoCrypto.v ===== *)
(** * Cryptographic primitives and JSON Web Tokens

    The functions of [crypto/sha256], [crypto/hmac], [crypto/ed25519] and of
    the random generators, on byte strings.  They are parameters: what is
    proved holds for every choice of them, and the few theorems that need a
    documented fact about one (the length of a digest, that a signature made
    with a key verifies under it) name it as a hypothesis.
    So is [golang-jwt]'s [Parser.ParseWithClaims], which two services call. *)
From Stdlib Require Import ZArith Ascii String.
From stdpp Require Import base strings list.
From S2P Require Import Prelude GoTime.

Class Crypto := {
  sha256 : string -> string;
  hmac_sha256 : string -> string -> string;        (** key, message *)
  ed25519_verify : string -> string -> string -> bool  (** public key, message, signature *)
}.

Definition SignatureSize : nat := 64.
Definition PublicKeySize : nat := 32.

(** An instance for concrete runs: a constant digest, a message code that is
    the key and the message, and signatures that repeat the key. *)
Fixpoint repeat_byte (n : nat) (c : ascii) : string :=
  match n with O => EmptyString | S k => String c (repeat_byte k c) end.
Definition toy_crypto : Crypto :=
  {| sha256 := fun _ => repeat_byte 32 "h"%char;
     hmac_sha256 := fun k m => String.append k m;
     ed25519_verify := fun k _ s => String.eqb s (String.append k k) |}.

(** ** JSON Web Tokens

    Which key id the key function is asked for, and which claims a token yields
    under a key with the parser's options at a time, when the parser accepts it.
    The options are those the services set. *)

(** The claims the services read: their own and the registered ones. *)
Record JwtClaims := mkClaims {
  cl_TokenKind : string;
  cl_Scopes : list string;
  cl_Roles : list string;
  cl_SessionID : string;
  cl_Subject : string;
  cl_ID : string;
  cl_ExpiresAt : option Time;
  cl_IssuedAt : option Time;
  cl_NotBefore : option Time
}.

(** [WithValidMethods], [WithIssuer], [WithAudience], [WithLeeway]. *)
Record JwtOptions := mkJwtOptions {
  jo_methods : list string;
  jo_issuer : string;
  jo_audience : string;
  jo_leeway : Z
}.

Class JwtLib := {
  (** The header's key id when the parser gets as far as the key function: the
      inner option is none when it is missing or no string. *)
  jwt_kid : JwtOptions -> string -> option (option string);
  (** The claims of a token the parser accepts under a key. *)
  jwt_claims : JwtOptions -> string -> string -> Time -> option JwtClaims
}.
