(* ===== verification/GoJson.v ===== *)
(** * Go's encoding/json

    JSON documents as the encoder writes them and the decoder reads them.
    Strings and object keys are kept as the text between the quotes, numbers
    as their literal, which is what a [json.RawMessage] keeps; [unquote] and
    [int_of_literal] give their values.  The decoding helpers follow
    [json.Unmarshal] into Go values: keys match struct fields without regard
    to case, [null] leaves a field as it is, a value of the wrong type is an
    error, and a later occurrence of a key is decoded over an earlier one. *)
From Stdlib Require Import ZArith Lia Ascii String.
From stdpp Require Import base gmap strings list pretty.
From S2P Require Import Prelude GoStrings GoErrors GoTime.

Open Scope string_scope.
Open Scope Z_scope.

Inductive json :=
| JNull
| JBool (b : bool)
| JNum (lit : string)
| JStr (raw : string)
| JArr (l : list json)
| JObj (l : list (string * json)).

(** ** Strings *)

Definition hex_digit (n : Z) : ascii :=
  ascii_of_N (Z.to_N (if n <? 10 then 48 + n else 87 + n)).
Definition hex_value (c : ascii) : option Z :=
  if is_digit c then Some (code c - 48)
  else if between "a" "f" c then Some (code c - 87)
  else if between "A" "F" c then Some (code c - 55)
  else None.

(** What the encoder writes for a byte below 128, HTML escaping on. *)
Definition escape_byte (c : ascii) : list ascii :=
  if (c =? "034")%char then ["\"%char; "034"%char]
  else if (c =? "\")%char then ["\"%char; "\"%char]
  else if code c =? 8 then ["\"%char; "b"%char]
  else if code c =? 12 then ["\"%char; "f"%char]
  else if code c =? 10 then ["\"%char; "n"%char]
  else if code c =? 13 then ["\"%char; "r"%char]
  else if code c =? 9 then ["\"%char; "t"%char]
  else if (code c <? 32) || (c =? "<")%char || (c =? ">")%char || (c =? "&")%char
  then ["\"%char; "u"%char; "0"%char; "0"%char; hex_digit (code c / 16); hex_digit (code c mod 16)]
  else [c].

Definition utf8 (r : Z) : list ascii :=
  let b z := ascii_of_N (Z.to_N z) in
  if r <? 128 then [b r]
  else if r <? 2048 then [b (192 + r / 64); b (128 + r mod 64)]
  else if r <? 65536 then [b (224 + r / 4096); b (128 + r / 64 mod 64); b (128 + r mod 64)]
  else [b (240 + r / 262144); b (128 + r / 4096 mod 64); b (128 + r / 64 mod 64); b (128 + r mod 64)].

Definition hex4 (a b c d : ascii) : option Z :=
  w ← hex_value a; x ← hex_value b; y ← hex_value c; z ← hex_value d;
  Some (((w * 16 + x) * 16 + y) * 16 + z).

Definition is_surrogate (r : Z) : bool := (55296 <=? r) && (r <? 57344).
(** [utf16.DecodeRune]: 65533 unless a high half is followed by a low half. *)
Definition decode_rune (r1 r2 : Z) : Z :=
  if (55296 <=? r1) && (r1 <? 56320) && (56320 <=? r2) && (r2 <? 57344)
  then (r1 - 55296) * 1024 + (r2 - 56320) + 65536 else 65533.

Definition unescape_simple (c : ascii) : ascii :=
  if (c =? "b")%char then "008"%char
  else if (c =? "f")%char then "012"%char
  else if (c =? "n")%char then "010"%char
  else if (c =? "r")%char then "013"%char
  else if (c =? "t")%char then "009"%char
  else c.

Fixpoint unescape (fuel : nat) (l : list ascii) : list ascii :=
  match fuel with
  | O => []
  | S fuel =>
      match l with
      | [] => []
      | c :: r =>
          if (c =? "\")%char then
            match r with
            | u :: r1 =>
                if (u =? "u")%char then
                  match r1 with
                  | a :: b :: x :: y :: r2 =>
                      match hex4 a b x y with
                      | None => []
                      | Some v =>
                          if is_surrogate v then
                            match r2 with
                            | s :: u' :: a' :: b' :: x' :: y' :: r3 =>
                                let dec := if (s =? "\")%char && (u' =? "u")%char
                                           then v' ← hex4 a' b' x' y'; Some (decode_rune v v')
                                           else None in
                                match dec with
                                | Some d => if d =? 65533 then (utf8 65533 ++ unescape fuel r2)%list
                                            else (utf8 d ++ unescape fuel r3)%list
                                | None => (utf8 65533 ++ unescape fuel r2)%list
                                end
                            | _ => (utf8 65533 ++ unescape fuel r2)%list
                            end
                          else (utf8 v ++ unescape fuel r2)%list
                      end
                  | _ => []
                  end
                else unescape_simple u :: unescape fuel r1
            | [] => []
            end
          else c :: unescape fuel r
      end
  end.

Section WithGoLib.
Context `{GoLib}.

Definition quote (s : string) : string :=
  if is_ascii s then of_bytes (flat_map escape_byte (bytes s)) else uni_JsonQuote s.
Definition unquote (raw : string) : string :=
  if is_ascii raw then of_bytes (unescape (S (String.length raw)) (bytes raw))
  else uni_JsonUnquote raw.

Definition jstr (s : string) : json := JStr (quote s).
End WithGoLib.

(** ** Integers *)

Definition jint (z : Z) : json := JNum (pretty z).

Fixpoint read_nat (acc : Z) (l : list ascii) : option Z :=
  match l with
  | [] => Some acc
  | c :: r => if is_digit c then read_nat (10 * acc + (code c - 48)) r else None
  end.
(** The value of a literal without fraction and exponent. *)
Definition int_of_literal (lit : string) : option Z :=
  match bytes lit with
  | [] => None
  | c :: r =>
      if (c =? "-")%char
      then match r with [] => None | _ => n ← read_nat 0 r; Some (- n) end
      else read_nat 0 (c :: r)
  end.

(** ** Times and pointers *)

(** A [time.Time] in a document; years outside 0 to 9999 are an error. *)
Definition jtime (t : Time) : result goerr json :=
  match format_rfc3339nano t with
  | Some s => Ok (JStr s)
  | None => Err (NewErr "json: error calling MarshalJSON for type time.Time")
  end.

(** A pointer: null or what it points to. *)
Definition jopt {A} (f : A -> json) (o : option A) : json :=
  match o with Some a => f a | None => JNull end.

(** ** Objects from maps: [json.Marshal] writes a map's keys in byte order *)

Fixpoint insert_field (f : string * json) (l : list (string * json)) : list (string * json) :=
  match l with
  | [] => [f]
  | g :: r => if String.leb (fst f) (fst g) then f :: l else g :: insert_field f r
  end.
Definition jmap (l : list (string * json)) : json := JObj (foldr insert_field [] l).

(** ** Text *)

Definition dquote : string := String "034" "".

Fixpoint json_text (j : json) : string :=
  match j with
  | JNull => "null"
  | JBool true => "true"
  | JBool false => "false"
  | JNum lit => lit
  | JStr raw => dquote +:+ raw +:+ dquote
  | JArr l => "[" +:+ String.concat "," (map json_text l) +:+ "]"
  | JObj l =>
      "{" +:+ String.concat ","
        (map (fun f => dquote +:+ fst f +:+ dquote +:+ ":" +:+ json_text (snd f)) l) +:+ "}"
  end.

(** ** Reading *)

Definition is_json_space (c : ascii) : bool :=
  (code c =? 32) || (code c =? 9) || (code c =? 10) || (code c =? 13).
Definition skip_ws : list ascii -> list ascii := drop_while is_json_space.

Definition is_simple_escape (c : ascii) : bool :=
  (c =? "034")%char || (c =? "\")%char || (c =? "/")%char || (c =? "b")%char ||
  (c =? "f")%char || (c =? "n")%char || (c =? "r")%char || (c =? "t")%char.
Definition is_hex (c : ascii) : bool := match hex_value c with Some _ => true | None => false end.

(** The text of a string literal up to its closing quote. *)
Fixpoint scan_string (l : list ascii) : option (list ascii * list ascii) :=
  match l with
  | [] => None
  | c :: r =>
      if (c =? "034")%char then Some ([], r)
      else if (c =? "\")%char then
        match r with
        | e :: r1 =>
            if is_simple_escape e then
              '(s, rest) ← scan_string r1; Some (c :: e :: s, rest)
            else if (e =? "u")%char then
              match r1 with
              | a :: b :: x :: y :: r2 =>
                  if is_hex a && is_hex b && is_hex x && is_hex y then
                    '(s, rest) ← scan_string r2; Some (c :: e :: a :: b :: x :: y :: s, rest)
                  else None
              | _ => None
              end
            else None
        | [] => None
        end
      else if code c <? 32 then None
      else '(s, rest) ← scan_string r; Some (c :: s, rest)
  end.

Fixpoint take_while {A} (p : A -> bool) (l : list A) : list A :=
  match l with [] => [] | x :: r => if p x then x :: take_while p r else [] end.

Definition scan_digits1 (l : list ascii) : option (list ascii * list ascii) :=
  match take_while is_digit l with
  | [] => None
  | ds => Some (ds, drop_while is_digit l)
  end.

Definition scan_number (l : list ascii) : option (list ascii * list ascii) :=
  let '(sign, l) := match l with
                    | c :: r => if (c =? "-")%char then ([c], r) else ([], l)
                    | [] => ([], l)
                    end in
  '(ip, l) ← (match l with
              | c :: r => if (c =? "0")%char then Some ([c], r) else scan_digits1 l
              | [] => None
              end);
  '(fp, l) ← (match l with
              | c :: r => if (c =? ".")%char
                          then '(ds, r) ← scan_digits1 r; Some (c :: ds, r)
                          else Some ([], l)
              | [] => Some ([], l)
              end);
  '(ep, l) ← (match l with
              | c :: r =>
                  if (c =? "e")%char || (c =? "E")%char then
                    match r with
                    | s :: r' =>
                        if (s =? "+")%char || (s =? "-")%char
                        then '(ds, r'') ← scan_digits1 r'; Some (c :: s :: ds, r'')
                        else '(ds, r'') ← scan_digits1 r; Some (c :: ds, r'')
                    | [] => None
                    end
                  else Some ([], l)
              | [] => Some ([], l)
              end);
  Some ((sign ++ ip ++ fp ++ ep)%list, l).

Definition scan_word (w : string) (l : list ascii) : option (list ascii) :=
  if String.prefix w (of_bytes l) then Some (drop (String.length w) l) else None.

(** The scanner stops at this nesting depth. *)
Definition max_depth : Z := 10000.

Fixpoint scan_value (fuel : nat) (depth : Z) (l : list ascii) : option (json * list ascii) :=
  match fuel with
  | O => None
  | S fuel =>
      match skip_ws l with
      | [] => None
      | c :: r =>
          if (c =? "{")%char then
            if max_depth <? depth + 1 then None else
            match skip_ws r with
            | c1 :: r1 =>
                if (c1 =? "}")%char then Some (JObj [], r1)
                else '(fs, rest) ← scan_members fuel (depth + 1) r; Some (JObj fs, rest)
            | [] => None
            end
          else if (c =? "[")%char then
            if max_depth <? depth + 1 then None else
            match skip_ws r with
            | c1 :: r1 =>
                if (c1 =? "]")%char then Some (JArr [], r1)
                else '(vs, rest) ← scan_elements fuel (depth + 1) r; Some (JArr vs, rest)
            | [] => None
            end
          else if (c =? "034")%char then
            '(s, rest) ← scan_string r; Some (JStr (of_bytes s), rest)
          else if (c =? "t")%char then rest ← scan_word "true" (c :: r); Some (JBool true, rest)
          else if (c =? "f")%char then rest ← scan_word "false" (c :: r); Some (JBool false, rest)
          else if (c =? "n")%char then rest ← scan_word "null" (c :: r); Some (JNull, rest)
          else '(n, rest) ← scan_number (c :: r); Some (JNum (of_bytes n), rest)
      end
  end
with scan_elements (fuel : nat) (depth : Z) (l : list ascii) : option (list json * list ascii) :=
  match fuel with
  | O => None
  | S fuel =>
      '(v, r) ← scan_value fuel depth l;
      match skip_ws r with
      | c :: r1 =>
          if (c =? "]")%char then Some ([v], r1)
          else if (c =? ",")%char then
            '(vs, rest) ← scan_elements fuel depth r1; Some (v :: vs, rest)
          else None
      | [] => None
      end
  end
with scan_members (fuel : nat) (depth : Z) (l : list ascii)
  : option (list (string * json) * list ascii) :=
  match fuel with
  | O => None
  | S fuel =>
      match skip_ws l with
      | q :: r =>
          if (q =? "034")%char then
            '(k, r1) ← scan_string r;
            r2 ← read_char ":" (skip_ws r1);
            '(v, r3) ← scan_value fuel depth r2;
            match skip_ws r3 with
            | c :: r4 =>
                if (c =? "}")%char then Some ([(of_bytes k, v)], r4)
                else if (c =? ",")%char then
                  '(fs, rest) ← scan_members fuel depth r4; Some ((of_bytes k, v) :: fs, rest)
                else None
            | [] => None
            end
          else None
      | [] => None
      end
  end.

(** Every call consumes fuel, and three calls happen at most per byte read. *)
Definition json_fuel (s : string) : nat := 3 * String.length s + 3.

(** A whole document: one value with white space around it. *)
Definition json_parse (s : string) : option json :=
  '(v, rest) ← scan_value (json_fuel s) 0 (bytes s);
  match skip_ws rest with [] => Some v | _ => None end.

(** ** Decoding into Go values *)

Section Decode.
Context `{GoLib}.

(** Keys are compared after simple case folding; the two letters outside
    ASCII that fold into it are the long s and the Kelvin sign. *)
Fixpoint fold_bytes (l : list ascii) : list ascii :=
  match l with
  | "197"%char :: "191"%char :: r => "s"%char :: fold_bytes r
  | "226"%char :: "132"%char :: "170"%char :: r => "k"%char :: fold_bytes r
  | c :: r => to_lower_byte c :: fold_bytes r
  | [] => []
  end.
Definition key_matches (key name : string) : bool :=
  bool_decide (fold_bytes (bytes (unquote key)) = fold_bytes (bytes name)).

(** A decoder updates the current value of a Go variable, or fails. *)
Definition decoder (A : Type) := A -> json -> option A.

Definition dec_string : decoder string := fun cur v =>
  match v with
  | JNull => Some cur
  | JStr raw => Some (unquote raw)
  | _ => None
  end.
Definition dec_int (lo hi : Z) : decoder Z := fun cur v =>
  match v with
  | JNull => Some cur
  | JNum lit => z ← int_of_literal lit; if (lo <=? z) && (z <=? hi) then Some z else None
  | _ => None
  end.
Definition dec_int64 : decoder Z := dec_int (- 2 ^ 63) (2 ^ 63 - 1).
Definition dec_int32 : decoder Z := dec_int (- 2 ^ 31) (2 ^ 31 - 1).
(** [strconv.ParseUint] takes no sign. *)
Definition dec_uint64 : decoder Z := fun cur v =>
  match v with
  | JNum lit => if HasPrefix lit "-" then None else dec_int 0 (2 ^ 64 - 1) cur v
  | _ => dec_int 0 (2 ^ 64 - 1) cur v
  end.
Definition dec_time : decoder Time := fun cur v =>
  match v with
  | JNull => Some cur
  | JStr raw => parse_rfc3339nano raw
  | _ => None
  end.
(** [map[string]json.RawMessage] *)
Definition dec_rawmap : decoder (gmap string json) := fun cur v =>
  match v with
  | JNull => Some ∅
  | JObj fs => Some (foldl (fun m f => <[unquote (fst f) := snd f]> m) cur fs)
  | _ => None
  end.

(** The field [name] of a struct, starting from its zero value. *)
Definition dec_field {A} (dec : decoder A) (zero : A) (name : string)
    (fields : list (string * json)) : option A :=
  foldl (fun acc f => if key_matches (fst f) name
                      then cur ← acc; dec cur (snd f) else acc)
        (Some zero) fields.

(** [DisallowUnknownFields] *)
Definition known_fields (names : list string) (fs : list (string * json)) : bool :=
  forallb (fun f => existsb (key_matches (fst f)) names) fs.

(** A slice of structs: [null] is the nil slice and a [null] element the zero
    struct. *)
Definition dec_slice {A} (dec : list (string * json) -> option A) (v : json) : option (list A) :=
  match v with
  | JNull => Some []
  | JArr l => mapM (fun e => match e with
                             | JObj fs => dec fs
                             | JNull => dec []
                             | _ => None
                             end) l
  | _ => None
  end.

(** [json.Unmarshal(payload, &struct)]: a top-level [null] leaves the struct
    at its zero value. *)
Definition unmarshal_struct {A} (dec : list (string * json) -> option A) (payload : string)
  : option A :=
  j ← json_parse payload;
  match j with
  | JObj fs => dec fs
  | JNull => dec []
  | _ => None
  end.
End Decode.

Definition sample : json :=
  JObj [("a", JArr [JNum "1"; JNum "-2.5e3"; JBool true; JNull]); ("b", JStr "x\ny"); ("c", JObj [])].

Example parse_example : json_parse (" " +:+ json_text sample +:+ " ") = Some sample.
Proof. vm_compute. reflexivity. Qed.

(** ** Equality of documents *)

#[export] Instance json_eq_dec : EqDecision json.
Proof.
  refine (fix go (a b : json) : Decision (a = b) :=
    match a, b with
    | JNull, JNull => left eq_refl
    | JBool x, JBool y => cast_if (decide (x = y))
    | JNum x, JNum y => cast_if (decide (x = y))
    | JStr x, JStr y => cast_if (decide (x = y))
    | JArr x, JArr y => cast_if (@decide (x = y) (@list_eq_dec _ go x y))
    | JObj x, JObj y => cast_if (@decide (x = y) (@list_eq_dec _ (@prod_eq_dec _ _ _ go) x y))
    | _, _ => right _
    end); clear go; abstract congruence.
Defined.
