(* ===== verification/GoJsonFacts.v ===== *)
(** * What the encoder writes, the decoder reads

    [json_text] and [json_parse] are inverse on the documents the encoder
    writes, at any nesting the scanner takes, and the fuel of the parser is
    always enough for them; so are [quote] and [unquote] on ASCII, and a time
    reads back as the same instant. *)
From Stdlib Require Import ZArith Lia Ascii String.
From stdpp Require Import base gmap strings list pretty.
From S2P Require Import Prelude GoStrings GoErrors GoTime GoBase64 GoJson.

Open Scope string_scope.
Open Scope Z_scope.

(** ** Literals *)

(** A text the scanner reads up to its closing quote. *)
Definition text_literal (l : list ascii) : Prop :=
  forall rest, scan_string (l ++ "034"%char :: rest) = Some (l, rest).
(** Where a number ends. *)
Definition number_stops (rest : list ascii) : Prop :=
  match rest with
  | [] => True
  | c :: _ => is_digit c = false /\ c <> "."%char /\ c <> "e"%char /\ c <> "E"%char
  end.
Definition number_literal (l : list ascii) : Prop :=
  (exists c r, l = c :: r /\ (is_digit c = true \/ c = "-"%char)) /\
  forall rest, number_stops rest -> scan_number (l ++ rest) = Some (l, rest).

Lemma escape_byte_scanned c l : is_ascii_byte c = true -> text_literal l -> text_literal (escape_byte c ++ l).
Proof.
  intros Hc Hl rest. specialize (Hl rest). rewrite <- app_assoc. revert Hl.
  generalize (l ++ "034"%char :: rest)%list as k.
  destruct c as [[] [] [] [] [] [] [] []]; try discriminate Hc; intros k Hk;
    match goal with |- context [escape_byte ?c] =>
      let e := eval vm_compute in (escape_byte c) in change (escape_byte c) with e end;
    cbn -[code Z.ltb]; try change (is_hex _) with true; rewrite Hk; reflexivity.
Qed.
Lemma escaped_text_literal l : forallb is_ascii_byte l = true -> text_literal (flat_map escape_byte l).
Proof.
  induction l as [|c l IH]; [by intros _ rest|]. cbn [forallb flat_map]. intros [Hc Hl]%andb_true_iff.
  by apply escape_byte_scanned, IH.
Qed.

Lemma escape_byte_unescaped c fuel l :
  is_ascii_byte c = true -> unescape (S fuel) (escape_byte c ++ l) = c :: unescape fuel l.
Proof. intros Hc. destruct c as [[] [] [] [] [] [] [] []]; try discriminate Hc; reflexivity. Qed.
Lemma unescape_escaped l : forall fuel, forallb is_ascii_byte l = true -> (length l < fuel)%nat ->
  unescape fuel (flat_map escape_byte l) = l.
Proof.
  induction l as [|c l IH]; intros [|fuel] Hl Hf; [cbn in Hf; lia | done | cbn in Hf; lia|].
  cbn [forallb flat_map] in *. apply andb_true_iff in Hl as [Hc Hl].
  rewrite escape_byte_unescaped by done. f_equal. apply IH; [done | cbn in Hf; lia].
Qed.

Lemma escape_byte_ascii c : is_ascii_byte c = true -> forallb is_ascii_byte (escape_byte c) = true.
Proof. intros Hc. destruct c as [[] [] [] [] [] [] [] []]; try discriminate Hc; reflexivity. Qed.
Lemma escaped_ascii l : forallb is_ascii_byte l = true -> forallb is_ascii_byte (flat_map escape_byte l) = true.
Proof.
  induction l as [|c l IH]; [done|]. cbn [forallb flat_map]. intros [Hc Hl]%andb_true_iff.
  rewrite forallb_app, escape_byte_ascii, IH; done.
Qed.
Lemma escaped_longer l : (length l <= length (flat_map escape_byte l))%nat.
Proof.
  induction l as [|c l IH]; [done|]. cbn [flat_map]. rewrite length_app.
  assert (1 <= length (escape_byte c))%nat by (unfold escape_byte; repeat case_match; cbn; lia). cbn. lia.
Qed.

Section Quote.
Context `{GoLib}.

Lemma quote_literal s : is_ascii s = true -> text_literal (bytes (quote s)).
Proof. intros Hs. unfold quote. rewrite Hs, bytes_of_bytes. by apply escaped_text_literal. Qed.
Lemma unquote_quote s : is_ascii s = true -> unquote (quote s) = s.
Proof.
  intros Hs. unfold unquote, quote. rewrite Hs.
  assert (is_ascii (of_bytes (flat_map escape_byte (bytes s))) = true) as ->.
  { unfold is_ascii. rewrite bytes_of_bytes. by apply escaped_ascii. }
  rewrite bytes_of_bytes, unescape_escaped; [apply of_bytes_bytes | done|].
  rewrite length_of_bytes. pose proof (escaped_longer (bytes s)). lia.
Qed.
End Quote.

(** ** Documents *)

(** The documents of nesting [d] the encoder writes. *)
Fixpoint written (d : nat) (j : json) : Prop :=
  match j, d with
  | JNull, _ | JBool _, _ => True
  | JNum lit, _ => number_literal (bytes lit)
  | JStr raw, _ => text_literal (bytes raw)
  | JArr l, S d => Forall (written d) l
  | JObj l, S d => Forall (fun f => text_literal (bytes (fst f)) /\ written d (snd f)) l
  | _, O => False
  end.

Lemma written_arr d l : Forall (written d) l -> written (S d) (JArr l).
Proof. done. Qed.
Lemma written_obj d l :
  Forall (fun f => text_literal (bytes (fst f)) /\ written d (snd f)) l -> written (S d) (JObj l).
Proof. done. Qed.

Definition text (j : json) : list ascii := bytes (json_text j).
Definition member_text (f : string * json) : string := dquote +:+ fst f +:+ dquote +:+ ":" +:+ json_text (snd f).

Lemma bytes_concat x l :
  bytes (String.concat "," (x :: l)) =
  (bytes x ++ match l with [] => [] | _ => ","%char :: bytes (String.concat "," l) end)%list.
Proof.
  destruct l as [|y l]; cbn [String.concat]; [by rewrite app_nil_r|]. by rewrite !bytes_app.
Qed.
Lemma member_bytes f : bytes (member_text f) =
  ("034"%char :: bytes (fst f) ++ "034"%char :: ":"%char :: text (snd f))%list.
Proof. unfold member_text, text. by rewrite !bytes_app. Qed.
Lemma text_array l : text (JArr l) = ("["%char :: bytes (String.concat "," (map json_text l)) ++ ["]"%char])%list.
Proof. unfold text. cbn [json_text]. by rewrite !bytes_app. Qed.
Lemma text_object l : text (JObj l) = ("{"%char :: bytes (String.concat "," (map member_text l)) ++ ["}"%char])%list.
Proof. unfold text. cbn [json_text]. by rewrite !bytes_app. Qed.

(** How a value begins: no white space, no closing bracket. *)
Definition opens (l : list ascii) : Prop :=
  exists c r, l = c :: r /\ is_json_space c = false /\ c <> "]"%char /\ c <> "}"%char.
Lemma digit_opens c : is_digit c = true \/ c = "-"%char ->
  is_json_space c = false /\ c <> "]"%char /\ c <> "}"%char /\ c <> "{"%char /\ c <> "["%char /\ c <> "034"%char /\
  c <> "t"%char /\ c <> "f"%char /\ c <> "n"%char.
Proof. intros Hc. destruct c as [[] [] [] [] [] [] [] []]; vm_compute in Hc; destruct Hc as [Hc|Hc]; try discriminate Hc;
  vm_compute; split_and!; done. Qed.
Lemma written_opens d j : written d j -> opens (text j).
Proof.
  destruct j as [|[]|lit|raw|l|l]; cbn [written]; intros Hw.
  1-3: by do 2 eexists.
  - assert (number_literal (bytes lit)) as [(c & r & Hl & Hc) _] by (by destruct d).
    apply digit_opens in Hc. exists c, r. unfold text. cbn [json_text]. naive_solver.
  - unfold text. cbn [json_text]. by do 2 eexists.
  - rewrite text_array. by do 2 eexists.
  - rewrite text_object. by do 2 eexists.
Qed.

Lemma skip_ws_opens l rest : opens l -> skip_ws (l ++ rest) = (l ++ rest)%list.
Proof. intros (c & r & -> & Hc & _). unfold skip_ws. cbn. by rewrite Hc. Qed.
Lemma concat_opens {A} (f : A -> string) x l :
  opens (bytes (f x)) -> opens (bytes (String.concat "," (map f (x :: l)))).
Proof. intros (c & r & Hf & Hc). cbn [map]. rewrite bytes_concat, Hf. exists c. by eexists. Qed.

(** What follows a value in a document. *)
Definition follows (rest : list ascii) : Prop :=
  rest = [] \/ exists c r, rest = c :: r /\ (c = ","%char \/ c = "]"%char \/ c = "}"%char \/ c = "010"%char).
Lemma follows_stops rest : follows rest -> number_stops rest.
Proof. intros [->|(c & r & -> & [-> | [-> | [-> | ->]]])]; done. Qed.
Lemma follows_comma r : follows (","%char :: r).
Proof. right. do 2 eexists. eauto. Qed.
Lemma follows_bracket r : follows ("]"%char :: r).
Proof. right. do 2 eexists. eauto. Qed.
Lemma follows_brace r : follows ("}"%char :: r).
Proof. right. do 2 eexists. eauto. Qed.
#[local] Hint Resolve follows_comma follows_bracket follows_brace : core.

(** The scanner reads back a document of nesting [d] with as much fuel as the
    document has bytes. *)
Definition read_back (d : nat) : Prop := forall j depth fuel rest,
  written d j -> (length (text j) <= fuel)%nat -> 0 <= depth -> depth + Z.of_nat d <= max_depth -> follows rest ->
  scan_value fuel depth (text j ++ rest) = Some (j, rest).

Lemma scan_elements_back d : read_back d -> forall l v depth fuel rest,
  Forall (written d) (v :: l) -> (length (bytes (String.concat "," (map json_text (v :: l)))) < fuel)%nat ->
  0 <= depth -> depth + Z.of_nat d <= max_depth ->
  scan_elements fuel depth (bytes (String.concat "," (map json_text (v :: l))) ++ "]"%char :: rest) = Some (v :: l, rest).
Proof.
  intros Hd. induction l as [|v' l IH]; intros v depth [|fuel] rest Hw Hf H0 Hdep; try lia;
    apply Forall_cons in Hw as [Hv Hw]; revert Hf; rewrite map_cons, bytes_concat; fold (text v);
    rewrite <- app_assoc, length_app; intros Hf; cbn [scan_elements].
  - cbn [map app]. rewrite Hd by (auto; cbn in Hf; lia). reflexivity.
  - cbn [map] in *. cbn [app]. rewrite Hd by (auto; cbn [length] in Hf; lia). cbn [mbind option_bind skip_ws drop_while].
    change (is_json_space ",") with false. cbn -[scan_elements bytes String.concat max_depth].
    rewrite IH; [done | done | cbn [length map] in *; lia | done | done].
Qed.

Lemma scan_members_back d : read_back d -> forall l f depth fuel rest,
  Forall (fun f => text_literal (bytes (fst f)) /\ written d (snd f)) (f :: l) ->
  (length (bytes (String.concat "," (map member_text (f :: l)))) < fuel)%nat ->
  0 <= depth -> depth + Z.of_nat d <= max_depth ->
  scan_members fuel depth (bytes (String.concat "," (map member_text (f :: l))) ++ "}"%char :: rest) = Some (f :: l, rest).
Proof.
  intros Hd. induction l as [|f' l IH]; intros [k v] depth [|fuel] rest Hw Hf H0 Hdep; try lia;
    apply Forall_cons in Hw as [[Hk Hv] Hw]; cbn [fst snd] in Hk, Hv; revert Hf;
    rewrite map_cons, bytes_concat, member_bytes; cbn [fst snd];
    rewrite <- app_assoc, length_app; intros Hf; cbn [length] in Hf; rewrite length_app in Hf; cbn [length] in Hf;
    cbn [scan_members app]; cbn [skip_ws drop_while]; change (is_json_space "034") with false; cbn iota;
    rewrite <- app_assoc; cbn [app]; rewrite Hk; cbn [mbind option_bind];
    change (skip_ws (":"%char :: ?r)) with (":"%char :: r); cbn [read_char mbind option_bind];
    change (":" =? ":")%char with true; cbn [map app mbind option_bind].
  - rewrite Hd by (auto; lia). cbn -[bytes]. by rewrite of_bytes_bytes.
  - cbn [map] in *. rewrite Hd by (auto; lia). cbn [mbind option_bind].
    change (skip_ws (","%char :: ?r)) with (","%char :: r). cbn -[scan_members bytes String.concat max_depth].
    rewrite IH; [by rewrite of_bytes_bytes | done | cbn [length map] in *; lia | done | done].
Qed.

Lemma scan_null_back fuel depth rest : scan_value (S fuel) depth (text JNull ++ rest) = Some (JNull, rest).
Proof. destruct rest; reflexivity. Qed.
Lemma scan_bool_back b fuel depth rest : scan_value (S fuel) depth (text (JBool b) ++ rest) = Some (JBool b, rest).
Proof. destruct b, rest; reflexivity. Qed.
Lemma scan_str_back raw fuel depth rest :
  text_literal (bytes raw) -> scan_value (S fuel) depth (text (JStr raw) ++ rest) = Some (JStr raw, rest).
Proof.
  intros Hw. assert (text (JStr raw) ++ rest = "034"%char :: bytes raw ++ "034"%char :: rest)%list as ->.
  { unfold text. cbn [json_text]. rewrite !bytes_app. cbn. by rewrite <- app_assoc. }
  cbn [scan_value]. change (skip_ws ("034"%char :: ?r)) with ("034"%char :: r).
  cbn -[scan_string bytes]. rewrite Hw. cbn -[bytes]. by rewrite of_bytes_bytes.
Qed.
Lemma scan_num_back lit fuel depth rest :
  number_literal (bytes lit) -> follows rest ->
  scan_value (S fuel) depth (text (JNum lit) ++ rest) = Some (JNum lit, rest).
Proof.
  intros [(c & r & Hl & Hc) Hscan] Hrest. specialize (Hscan rest (follows_stops _ Hrest)).
  change (text (JNum lit)) with (bytes lit). rewrite Hl in *. cbn [app scan_value] in *.
  apply digit_opens in Hc as (Hs & _ & _ & H1 & H2 & H3 & H4 & H5 & H6).
  unfold skip_ws. cbn [drop_while]. rewrite Hs. cbn iota.
  apply Ascii.eqb_neq in H1, H2, H3, H4, H5, H6. rewrite H1, H2, H3, H4, H5, H6.
  rewrite Hscan. cbn [mbind option_bind]. by rewrite <- Hl, of_bytes_bytes.
Qed.

Lemma not_too_deep depth d : depth + Z.of_nat (S d) <= max_depth -> (max_depth <? depth + 1) = false.
Proof. intros. apply Z.ltb_ge. lia. Qed.

Lemma scan_arr_back d l depth fuel rest :
  read_back d -> Forall (written d) l -> (length (text (JArr l)) <= S fuel)%nat -> 0 <= depth ->
  depth + Z.of_nat (S d) <= max_depth -> scan_value (S fuel) depth (text (JArr l) ++ rest) = Some (JArr l, rest).
Proof.
  intros Hd Hw Hf H0 Hdep. rewrite text_array in *. cbn [app length] in *.
  rewrite <- app_assoc, length_app in *. cbn [app length] in *. cbn [scan_value].
  change (skip_ws ("["%char :: ?r)) with ("["%char :: r).
  change ("[" =? "{")%char with false. change ("[" =? "[")%char with true. cbn iota. rewrite (not_too_deep _ d) by done.
  destruct l as [|v l]; [reflexivity|].
  assert (opens (bytes (String.concat "," (map json_text (v :: l))))) as Ho.
  { apply (concat_opens json_text). apply Forall_cons in Hw as [Hv _]. by eapply written_opens. }
  rewrite skip_ws_opens by done. rewrite (scan_elements_back d) by (done || lia).
  destruct Ho as (c & r & -> & _ & Hc & _). cbn [app]. by rewrite (proj2 (Ascii.eqb_neq _ _) Hc).
Qed.
Lemma scan_obj_back d l depth fuel rest :
  read_back d -> Forall (fun f => text_literal (bytes (fst f)) /\ written d (snd f)) l ->
  (length (text (JObj l)) <= S fuel)%nat -> 0 <= depth -> depth + Z.of_nat (S d) <= max_depth ->
  scan_value (S fuel) depth (text (JObj l) ++ rest) = Some (JObj l, rest).
Proof.
  intros Hd Hw Hf H0 Hdep. rewrite text_object in *. cbn [app length] in *.
  rewrite <- app_assoc, length_app in *. cbn [app length] in *. cbn [scan_value].
  change (skip_ws ("{"%char :: ?r)) with ("{"%char :: r).
  change ("{" =? "{")%char with true. cbn iota. rewrite (not_too_deep _ d) by done.
  destruct l as [|v l]; [reflexivity|].
  assert (opens (bytes (String.concat "," (map member_text (v :: l))))) as Ho.
  { apply (concat_opens member_text). rewrite member_bytes. by do 2 eexists. }
  rewrite skip_ws_opens by done. rewrite (scan_members_back d) by (done || lia).
  destruct Ho as (c & r & -> & _ & _ & Hc). cbn [app]. by rewrite (proj2 (Ascii.eqb_neq _ _) Hc).
Qed.

Lemma documents_read_back d : read_back d.
Proof.
  induction d as [|d IH]; intros j depth fuel rest Hw Hf H0 Hdep Hrest;
    (destruct fuel as [|fuel]; [destruct (written_opens _ _ Hw) as (c & r & Ht & _); rewrite Ht in Hf; cbn in Hf; lia|]);
    destruct j; cbn [written] in Hw; try contradiction;
    eauto using scan_null_back, scan_bool_back, scan_str_back, scan_num_back, scan_arr_back, scan_obj_back.
Qed.

(** Parsing what was written gives it back, with white space after it or not. *)
Theorem json_round_trip d j :
  written d j -> Z.of_nat d <= max_depth -> json_parse (json_text j) = Some j.
Proof.
  intros Hw Hd. unfold json_parse. fold (text j). rewrite <- (app_nil_r (text j)).
  rewrite (documents_read_back d); [done | done | | lia | lia | by left].
  unfold json_fuel, text. rewrite <- length_bytes. lia.
Qed.
Theorem json_line_round_trip d j :
  written d j -> Z.of_nat d <= max_depth -> json_parse (json_text j +:+ String "010" "") = Some j.
Proof.
  intros Hw Hd. unfold json_parse. rewrite bytes_app. fold (text j).
  rewrite (documents_read_back d); [done | done | | lia | lia | right; do 2 eexists; eauto].
  unfold json_fuel, text. rewrite <- length_bytes, bytes_app, length_app. lia.
Qed.

(** ** Numbers of digits only *)

Lemma digits_scanned l rest : forallb is_digit l = true -> number_stops rest ->
  take_while is_digit (l ++ rest) = l /\ drop_while is_digit (l ++ rest) = rest.
Proof.
  intros Hl Hr. induction l as [|c l IH]; cbn.
  - destruct rest as [|c r]; [done|]. cbn in *. by destruct Hr as [-> _].
  - cbn in Hl. apply andb_true_iff in Hl as [-> Hl]. destruct (IH Hl) as [-> ->]. done.
Qed.
Lemma digits_literal c l : forallb is_digit (c :: l) = true -> c <> "0"%char -> number_literal (c :: l).
Proof.
  intros Hd H0. pose proof Hd as [Hc _]%andb_true_iff. split; [exists c, l; auto|]. intros rest Hr.
  destruct (digits_scanned (c :: l) rest Hd Hr) as [Ht Hdr].
  unfold scan_number. cbn [app]. assert ((c =? "-")%char = false) as -> by (by destruct c as [[] [] [] [] [] [] [] []]).
  apply Ascii.eqb_neq in H0. rewrite H0. unfold scan_digits1. cbn [app] in Ht, Hdr. rewrite Ht, Hdr. cbn [mbind option_bind].
  destruct rest as [|x r]; cbn [mbind option_bind]; [by rewrite !app_nil_r|].
  destruct Hr as (_ & H1 & H2 & H3). apply Ascii.eqb_neq in H1, H2, H3. rewrite H1. cbn [mbind option_bind].
  rewrite H2, H3. cbn [orb mbind option_bind]. by rewrite !app_nil_r.
Qed.

Lemma written_str `{GoLib} d s : is_ascii s = true -> written d (jstr s).
Proof. destruct d; apply quote_literal. Qed.

(** ** Times *)

Lemma time_char_plain c : time_char c = true -> is_ascii_byte c = true /\ escape_byte c = [c].
Proof. intros Hc. destruct c as [[] [] [] [] [] [] [] []]; try discriminate Hc; done. Qed.
Lemma written_time d t j : jtime t = Ok j -> written d j.
Proof.
  unfold jtime. destruct (format_rfc3339nano t) as [s|] eqn:Hf; [|done]. intros [= <-].
  assert (text_literal (bytes s)) as Hs; [|by destruct d].
  apply format_chars in Hf. assert (forallb is_ascii_byte (bytes s) = true /\ flat_map escape_byte (bytes s) = bytes s) as [Ha He].
  { induction Hf as [|c l Hc Hl [IHa IHe]]; [done|]. apply time_char_plain in Hc as [Hc Hq]. cbn.
    by rewrite Hc, Hq, IHa, IHe. }
  rewrite <- He. by apply escaped_text_literal.
Qed.
Lemma time_read `{GoLib} t j cur : plain_zone t -> jtime t = Ok j ->
  exists t', dec_time cur j = Some t' /\ nanos t' = nanos t.
Proof.
  intros Hz. unfold jtime. destruct (format_rfc3339nano t) as [s|] eqn:Hf; [|done]. intros [= <-].
  destruct (rfc3339_round_trip t s Hz Hf) as (t' & Hs & Hn). exists t'. split; [|done].
  cbn. unfold parse_rfc3339nano. by rewrite Hs.
Qed.

(** Comparing the names of fields, which are known. *)
Ltac keys_matched :=
  repeat match goal with |- context [key_matches ?a ?b] =>
    let v := eval vm_compute in (key_matches a b) in change (key_matches a b) with v end.
