(* ===== verification/GoURLText.v ===== *)
(** * Writing URLs

    The other direction of [GoURL]: [url.QueryEscape], [Values.Set] and
    [Values.Encode], and [URL.String] with the parts of a parsed URL that only
    matter for writing it again (user information, the raw path, the fragment).
    Reading what was written gives it back. *)
From Stdlib Require Import ZArith Lia Ascii String.
From stdpp Require Import base strings list.
From S2P Require Import Prelude GoStrings GoBase64 GoURL.

Open Scope string_scope.
Open Scope Z_scope.

(** ** Escaping *)

Definition shouldEscape (m : mode) (c : ascii) : bool :=
  if is_alnum c then false
  else if (mode_eqb m encodeHost || mode_eqb m encodeZone) && (one_of "!$&'()*+,;=:[]<>" c || (code c =? 34)) then false
  else if one_of "-_.~" c then false
  else if one_of "$&+,/:;=?@" c && mode_eqb m encodePath then (c =? "?")%char
  else if one_of "$&+,/:;=?@" c && mode_eqb m encodeUserPassword then one_of "@/?:" c
  else if one_of "$&+,/:;=?@" c && mode_eqb m encodeQueryComponent then true
  else if one_of "$&+,/:;=?@" c && mode_eqb m encodeFragment then false
  else if mode_eqb m encodeFragment && one_of "!()*" c then false
  else true.

Definition upper_hex (n : Z) : ascii := if n <? 10 then byte_of (48 + n) else byte_of (55 + n).
Definition escape_byte (m : mode) (c : ascii) : list ascii :=
  if (c =? " ")%char && mode_eqb m encodeQueryComponent then ["+"%char]
  else if shouldEscape m c then ["%"%char; upper_hex (code c / 16); upper_hex (code c mod 16)]
  else [c].
Definition escape (m : mode) (s : string) : string := of_bytes (flat_map (escape_byte m) (bytes s)).
Definition QueryEscape (s : string) : string := escape encodeQueryComponent s.

(** A text of the URL that may stand as it is. *)
Definition validEncoded (m : mode) (s : string) : bool :=
  forallb (fun c => one_of "!$&'()*+,;=:@[]%" c || negb (shouldEscape m c)) (bytes s).

(** ** Query strings *)

(** [Values.Set] and [Values.Encode]: keys in order, the values of a key as
    they came. *)
Definition Query_Set (values : list (string * string)) (key value : string) : list (string * string) :=
  List.filter (fun p => negb (fst p =? key)%string) values ++ [(key, value)].
Definition pair_le (p q : string * string) : bool := String.leb (fst p) (fst q).
Definition encode_pair (p : string * string) : string := QueryEscape (fst p) +:+ "=" +:+ QueryEscape (snd p).
Definition Query_Encode (values : list (string * string)) : string :=
  Join (map encode_pair (order_by pair_le values)) "&".

(** ** URLs *)

(** A parsed URL with all it is written from. *)
Record FullURL := mkFullURL {
  f_URL : URL;
  f_User : option (string * option string);
  f_RawPath : string;
  f_ForceQuery : bool;
  f_OmitHost : bool;
  f_Fragment : string;
  f_RawFragment : string
}.

Definition raw_if_needed (m : mode) (raw decoded : string) : string :=
  if (escape m decoded =? raw)%string then "" else raw.

Definition parseUserinfo (authority : string) : option (option (string * option string)) :=
  if contains_byte "@" authority then
    let userinfo := before_last "@" authority in
    if negb (validUserinfo userinfo) then None
    else
      let '(user, pass) := Cut userinfo ":" in
      user ← unescape encodeUserPassword user;
      match pass with
      | None => Some (Some (user, None))
      | Some p => p ← unescape encodeUserPassword p; Some (Some (user, Some p))
      end
  else Some None.

(** [url.Parse], keeping everything. *)
Definition ParseURL (raw : string) : option FullURL :=
  let '(u, frag) := Cut raw "#" in
  if has_control u then None
  else
    parsed ← (if (u =? "*")%string then Some (mkFullURL (mkURL "" "" "" "*" "") None "" false false "" "")
      else
        '(scheme, rest) ← getScheme u;
        let force := HasSuffix rest "?" && Nat.eqb (count_byte "?" rest) 1 in
        let '(rest, query) :=
          (if HasSuffix rest "?" && Nat.eqb (count_byte "?" rest) 1
           then (TrimSuffix rest "?", "")
           else let '(a, b) := Cut rest "?" in (a, default "" b)) in
        if negb (HasPrefix rest "/") && negb (scheme =? "")%string
        then Some (mkFullURL (mkURL scheme rest "" "" query) None "" force false "" "")
        else if negb (HasPrefix rest "/") && contains_byte ":" (fst (Cut rest "/"))
        then None
        else if (negb (scheme =? "")%string || negb (HasPrefix rest "///")) && HasPrefix rest "//" then
          let '(authority, path) := Cut (TrimPrefix rest "//") "/" in
          let rawpath := match path with Some p => String "/" p | None => "" end in
          host ← parseAuthority authority;
          user ← parseUserinfo authority;
          path ← unescape encodePath rawpath;
          Some (mkFullURL (mkURL scheme "" host path query) user (raw_if_needed encodePath rawpath path)
                  force false "" "")
        else
          path ← unescape encodePath rest;
          Some (mkFullURL (mkURL scheme "" "" path query) None (raw_if_needed encodePath rest path) force
                  (negb (scheme =? "")%string && HasPrefix rest "/") "" ""));
    let rawfrag := default "" frag in
    fragment ← unescape encodeFragment rawfrag;
    Some (mkFullURL (f_URL parsed) (f_User parsed) (f_RawPath parsed) (f_ForceQuery parsed) (f_OmitHost parsed)
            fragment (raw_if_needed encodeFragment rawfrag fragment)).

(** The raw form where it is one of the decoded text, else a fresh escaping. *)
Definition escaped_as (m : mode) (raw decoded : string) : string :=
  if negb (raw =? "")%string && validEncoded m raw && bool_decide (unescape m raw = Some decoded)
  then raw else escape m decoded.
Definition EscapedPath (f : FullURL) : string :=
  let path := u_Path (f_URL f) in
  if negb (f_RawPath f =? "")%string && validEncoded encodePath (f_RawPath f) &&
     bool_decide (unescape encodePath (f_RawPath f) = Some path)
  then f_RawPath f
  else if (path =? "*")%string then "*" else escape encodePath path.
Definition user_text (user : option (string * option string)) : string :=
  match user with
  | None => ""
  | Some (name, pass) =>
      escape encodeUserPassword name +:+
      match pass with Some p => ":" +:+ escape encodeUserPassword p | None => "" end +:+ "@"
  end.

(** [URL.String] *)
Definition authority_text (f : FullURL) : string :=
  let u := f_URL f in
  if (u_Scheme u =? "")%string && (u_Host u =? "")%string && bool_decide (f_User f = None) then ""
  else if f_OmitHost f && (u_Host u =? "")%string && bool_decide (f_User f = None) then ""
  else (if negb (u_Host u =? "")%string || negb (u_Path u =? "")%string || negb (bool_decide (f_User f = None))
        then "//" else "") +:+ user_text (f_User f) +:+ escape encodeHost (u_Host u).
(** A slash before a path of a host; a relative path that would read as a
    scheme is set off by a dot. *)
Definition path_text (before : string) (f : FullURL) : string :=
  let path := EscapedPath f in
  let slash := negb (path =? "")%string && negb (HasPrefix path "/") && negb (u_Host (f_URL f) =? "")%string in
  (if slash then "/" else "") +:+
  (if (before =? "")%string && negb slash && contains_byte ":" (fst (Cut path "/")) then "./" else "") +:+ path.
Definition String_ (f : FullURL) : string :=
  let u := f_URL f in
  let scheme := if (u_Scheme u =? "")%string then "" else u_Scheme u +:+ ":" in
  (if negb (u_Opaque u =? "")%string then scheme +:+ u_Opaque u
   else scheme +:+ authority_text f +:+ path_text (scheme +:+ authority_text f) f) +:+
  (if f_ForceQuery f || negb (u_RawQuery u =? "")%string then "?" +:+ u_RawQuery u else "") +:+
  (if (f_Fragment f =? "")%string then "" else "#" +:+ escaped_as encodeFragment (f_RawFragment f) (f_Fragment f)).

(** Keeping more parses nothing else. *)
Lemma parseUserinfo_some authority host : parseAuthority authority = Some host ->
  exists user, parseUserinfo authority = Some user.
Proof.
  unfold parseAuthority, parseUserinfo. destruct (contains_byte "@" authority); [|eauto].
  intros Ha. apply bind_Some in Ha as (h & _ & Ha). destruct (validUserinfo _); [cbn in *|done].
  destruct (Cut _ ":") as [user pass]. apply bind_Some in Ha as (x & -> & Ha).
  apply bind_Some in Ha as (y & Hy & _). destruct pass as [p|]; cbn [mbind option_bind]; [|eauto].
  change (default "" (Some p)) with p in Hy. rewrite Hy. cbn [mbind option_bind]. eauto.
Qed.
Lemma ParseURL_Parse raw : f_URL <$> ParseURL raw = Parse raw.
Proof.
  unfold ParseURL, Parse. destruct (Cut raw "#") as [u frag]. destruct (has_control u); [done|].
  set (full := if (u =? "*")%string then _ else _). set (plain := if (u =? "*")%string then _ else _).
  assert (f_URL <$> full = plain) as Hb.
  { subst full plain. destruct (u =? "*")%string; [done|]. destruct (getScheme u) as [[scheme rest]|]; [|done].
    cbn [mbind option_bind]. destruct (if _ && Nat.eqb _ 1 then _ else _) as [r q].
    destruct (negb (HasPrefix r "/") && negb (scheme =? "")%string); [done|].
    destruct (negb (HasPrefix r "/") && contains_byte ":" _); [done|].
    destruct ((negb (scheme =? "")%string || _) && _).
    - destruct (Cut (TrimPrefix r "//") "/") as [authority path]. destruct (parseAuthority authority) as [h|] eqn:Ha; [|done].
      destruct (parseUserinfo_some _ _ Ha) as [user Hu]. cbn [mbind option_bind]. rewrite Hu. cbn [mbind option_bind].
      by destruct (unescape encodePath _).
    - by destruct (unescape encodePath _). }
  rewrite <- Hb. destruct full as [f|]; [|done]. cbn. by destruct (unescape encodeFragment _).
Qed.

(** ** Reading back what was escaped *)

Definition keeps_all (m : mode) : bool := negb (mode_eqb m encodeHost || mode_eqb m encodeZone).

Lemma unescape_escape_byte m c k : keeps_all m = true ->
  unescape_bytes m (escape_byte m c ++ k) = (rest ← unescape_bytes m k; Some (c :: rest)).
Proof.
  intros Hm. destruct m; try discriminate Hm; destruct c as [[] [] [] [] [] [] [] []]; reflexivity.
Qed.
Lemma unescape_escape m s : keeps_all m = true -> unescape m (escape m s) = Some s.
Proof.
  intros Hm. unfold unescape, escape. rewrite bytes_of_bytes.
  enough (unescape_bytes m (flat_map (escape_byte m) (bytes s)) = Some (bytes s)) as -> by (cbn; by rewrite of_bytes_bytes).
  induction (bytes s) as [|c l IH]; [done|]. cbn [flat_map]. by rewrite unescape_escape_byte, IH.
Qed.

(** The bytes an escaped text is made of. *)
Definition escaped_byte (m : mode) (c : ascii) : bool :=
  (c =? "%")%char || (c =? "+")%char && mode_eqb m encodeQueryComponent || negb (shouldEscape m c).
Lemma escape_bytes m s : Forall (fun c => escaped_byte m c = true) (bytes (escape m s)).
Proof.
  unfold escape. rewrite bytes_of_bytes. induction (bytes s) as [|c l IH]; [constructor|].
  cbn [flat_map]. apply Forall_app_2; [|exact IH]. clear IH.
  enough (forallb (escaped_byte m) (escape_byte m c) = true) as Hb
    by (apply List.Forall_forall; by rewrite forallb_forall in Hb).
  destruct m; destruct c as [[] [] [] [] [] [] [] []]; reflexivity.
Qed.

Lemma escape_free m c s : escaped_byte m c = false -> Forall (fun x => x <> c) (bytes (escape m s)).
Proof. intros Hc. eapply Forall_impl; [apply escape_bytes|]. cbn. intros x Hx ->. congruence. Qed.

Lemma contains_byte_free c s : Forall (fun x => x <> c) (bytes s) -> contains_byte c s = false.
Proof.
  unfold contains_byte. induction 1 as [|x l Hx Hl IH]; [done|]. cbn. rewrite IH, orb_false_r.
  by apply Ascii.eqb_neq.
Qed.
Lemma cut_bytes_app sep l k : Forall (fun x => x <> sep) l -> cut_bytes sep (l ++ sep :: k) = (l, Some k).
Proof.
  induction 1 as [|x l Hx Hl IH]; cbn; [by rewrite Ascii.eqb_refl|].
  apply Ascii.eqb_neq in Hx. by rewrite Hx, IH.
Qed.

Lemma encode_pair_bytes p : Forall (fun x => x <> "&"%char /\ x <> ";"%char /\ x <> "#"%char) (bytes (encode_pair p)).
Proof.
  unfold encode_pair. rewrite !bytes_app. 
  assert (forall s, Forall (fun x => x <> "&"%char /\ x <> ";"%char /\ x <> "#"%char) (bytes (QueryEscape s))) as Hq
    by (intros s; rewrite !Forall_and; repeat split; by apply escape_free).
  repeat apply Forall_app_2; [apply Hq | | apply Hq]. by repeat constructor.
Qed.
Lemma parse_encode_pair p : parse_pair (encode_pair p) = Some p.
Proof.
  pose proof (encode_pair_bytes p) as Hb. rewrite !Forall_and in Hb. destruct Hb as (_ & Hsemi & _).
  unfold parse_pair. rewrite (contains_byte_free _ _ Hsemi). unfold encode_pair in *. clear Hsemi.
  destruct ((_ +:+ _) =? "")%string eqn:He.
  { apply String.eqb_eq in He. apply (f_equal bytes) in He. rewrite !bytes_app in He. by destruct (bytes (QueryEscape p.1)). }
  unfold Cut. rewrite !bytes_app. cbn [app]. change (bytes "=") with ["="%char]. cbn [app].
  rewrite cut_bytes_app by (by apply escape_free). unfold default, id. cbn [fmap option_fmap option_map].
  rewrite !of_bytes_bytes. unfold QueryUnescape, QueryEscape. rewrite !unescape_escape by done. by destruct p.
Qed.

(** Reading an encoded query gives its pairs, ordered by key. *)
Lemma ParseQuery_Encode values : ParseQuery (Query_Encode values) = order_by pair_le values.
Proof.
  unfold ParseQuery, Query_Encode. generalize (order_by pair_le values); intros l.
  destruct l as [|p l]; [done|]. unfold Split. cbn [map].
  rewrite (split_Join "&"); cycle 1.
  - change (encode_pair p :: map encode_pair l) with (map encode_pair (p :: l)).
    apply Forall_map, Forall_true. intros q. eapply Forall_impl; [apply encode_pair_bytes|]. intros x Hx. apply Hx.
  - rewrite map_map. change (encode_pair p :: map encode_pair l) with (map encode_pair (p :: l)).
    rewrite map_map. generalize (p :: l). intros ps. induction ps as [|q ps IH]; [done|].
    cbn -[parse_pair encode_pair]. rewrite of_bytes_bytes, parse_encode_pair. f_equal. exact IH.
Qed.

(** Sorting leaves the first pair of a key where [Get] finds it. *)
Lemma insert_by_find (le : string * string -> string * string -> bool) (f : string * string -> bool) p l :
  (forall q, f q = true -> f p = true -> le p q = true) ->
  List.find f (insert_by le p l) = if f p then Some p else List.find f l.
Proof.
  intros Hle. induction l as [|q l IH]; cbn; [done|].
  destruct (le p q) eqn:Hpq; cbn; [done|]. destruct (f q) eqn:Hq; [|exact IH].
  destruct (f p) eqn:Hp; [|done]. rewrite Hle in Hpq; done.
Qed.
Lemma string_leb_refl s : String.leb s s = true.
Proof.
  enough (String.compare s s = Eq) as Hs by (unfold String.leb; by rewrite Hs).
  induction s as [|c s IH]; cbn; [done|]. unfold Ascii.compare. by rewrite N.compare_refl.
Qed.
Lemma Query_Get_sorted values key : Query_Get (order_by pair_le values) key = Query_Get values key.
Proof.
  unfold Query_Get. set (f := fun p : string * string => (fst p =? key)%string).
  enough (List.find f (order_by pair_le values) = List.find f values) as -> by done.
  unfold order_by. induction values as [|p l IH]; [done|]. cbn [foldr List.find].
  rewrite insert_by_find, IH; [done|]. subst f. cbn. intros q Hq%String.eqb_eq Hp%String.eqb_eq.
  unfold pair_le. by rewrite Hp, Hq, string_leb_refl.
Qed.
Lemma Query_Get_Set values key value : Query_Get (Query_Set values key value) key = value.
Proof.
  unfold Query_Get, Query_Set. induction values as [|p l IH]; cbn.
  - by rewrite String.eqb_refl.
  - destruct (fst p =? key)%string eqn:Hk; cbn; [exact IH | rewrite Hk; exact IH].
Qed.
(** What was set is read from the encoded query. *)
Lemma encoded_value values key value :
  Query_Get (ParseQuery (Query_Encode (Query_Set values key value))) key = value.
Proof. by rewrite ParseQuery_Encode, Query_Get_sorted, Query_Get_Set. Qed.

(** ** The shape of a written URL *)

(** No byte that would end the part of a URL before its query, or the query. *)
Definition no_mark (s : string) : Prop := Forall (fun c => c <> "?"%char /\ c <> "#"%char) (bytes s).
Lemma no_mark_app s t : no_mark s -> no_mark t -> no_mark (s +:+ t).
Proof. unfold no_mark. rewrite bytes_app. apply Forall_app_2. Qed.
Lemma no_mark_escape m s : m <> encodeFragment -> no_mark (escape m s).
Proof. intros Hm. apply Forall_and; split; apply escape_free; by destruct m. Qed.
Lemma no_mark_valid m s : m <> encodeFragment -> validEncoded m s = true -> no_mark s.
Proof.
  unfold validEncoded. intros Hm Hv. rewrite forallb_forall in Hv. apply Forall_forall. intros c Hc%list_elem_of_In.
  specialize (Hv c Hc). split; intros ->; by destruct m.
Qed.

(** The path is written so that it reads back as itself. *)
Lemma EscapedPath_reads f : unescape encodePath (EscapedPath f) = Some (u_Path (f_URL f)).
Proof.
  unfold EscapedPath. destruct (_ && _ && bool_decide _) eqn:Hr.
  - rewrite andb_true_iff, bool_decide_eq_true in Hr. apply Hr.
  - destruct (u_Path (f_URL f) =? "*")%string eqn:Hs; [by apply String.eqb_eq in Hs as -> | by apply unescape_escape].
Qed.
Lemma EscapedPath_no_mark f : no_mark (EscapedPath f).
Proof.
  unfold EscapedPath. destruct (_ && _ && bool_decide _) eqn:Hr.
  - rewrite !andb_true_iff in Hr. by eapply no_mark_valid; [|apply Hr].
  - destruct (u_Path (f_URL f) =? "*")%string; [by repeat constructor | by apply no_mark_escape].
Qed.
Lemma user_text_no_mark user : no_mark (user_text user).
Proof.
  destruct user as [[name pass]|]; cbn; [|constructor].
  repeat apply no_mark_app; [by apply no_mark_escape | | by repeat constructor].
  destruct pass; [|constructor]. apply no_mark_app; [by repeat constructor | by apply no_mark_escape].
Qed.

(** With a scheme and a host, a URL is written as its origin, its path and its
    query. *)
Definition origin (f : FullURL) : string :=
  u_Scheme (f_URL f) +:+ "://" +:+ user_text (f_User f) +:+ escape encodeHost (u_Host (f_URL f)).
Definition fragment_text (f : FullURL) : string :=
  if (f_Fragment f =? "")%string then "" else "#" +:+ escaped_as encodeFragment (f_RawFragment f) (f_Fragment f).
Lemma append_assoc s t u : (s +:+ t) +:+ u = s +:+ t +:+ u.
Proof. apply bytes_inj. by rewrite !bytes_app, app_assoc. Qed.
Lemma append_nil_r s : s +:+ "" = s.
Proof. apply bytes_inj. by rewrite !bytes_app, app_nil_r. Qed.

Lemma HasPrefix_cons c s : HasPrefix (String c s) (String c "") = true.
Proof. unfold HasPrefix. cbn [String.prefix]. destruct (ascii_dec c c); [by destruct s | done]. Qed.

(** A parsed URL with a host has an absolute path or none. *)
Definition absolute (s : string) : Prop := s = "" \/ HasPrefix s "/" = true.
Lemma absolute_slash s : absolute (String "/" s).
Proof. right. apply HasPrefix_cons. Qed.
Lemma HasPrefix_slash s : HasPrefix s "/" = true -> exists r, s = String "/" r.
Proof.
  destruct s as [|c r]; unfold HasPrefix; cbn [String.prefix]; [done|]. destruct (ascii_dec "/" c) as [<-|]; [eauto | done].
Qed.
Lemma unescape_absolute m s t : absolute s -> unescape m s = Some t -> absolute t.
Proof.
  intros [->|[r ->]%HasPrefix_slash]; [by intros [= <-]; left|]. unfold unescape. cbn -[mode_eqb].
  destruct (_ && _ && _); [done|]. destruct (unescape_bytes m _); [|done]. cbn -[mode_eqb]. intros [= <-].
  rewrite andb_false_r. apply absolute_slash.
Qed.
Lemma ParseURL_absolute raw f : ParseURL raw = Some f -> u_Host (f_URL f) <> "" ->
  u_Opaque (f_URL f) = "" /\ absolute (f_RawPath f) /\ absolute (u_Path (f_URL f)).
Proof.
  unfold ParseURL. destruct (Cut raw "#") as [u frag]. destruct (has_control u); [done|].
  intros Hp Hh. apply bind_Some in Hp as (parsed & Hp & Hf). apply bind_Some in Hf as (fr & _ & [= <-]).
  cbn in *. destruct (u =? "*")%string; [by injection Hp as <-|].
  apply bind_Some in Hp as ([scheme rest] & _ & Hp).
  destruct (if _ && Nat.eqb _ 1 then _ else _) as [r q].
  destruct (negb (HasPrefix r "/") && negb (scheme =? "")%string); [by injection Hp as <-|].
  destruct (negb (HasPrefix r "/") && contains_byte ":" _); [done|].
  destruct ((negb (scheme =? "")%string || _) && _).
  - destruct (Cut (TrimPrefix r "//") "/") as [authority path].
    apply bind_Some in Hp as (host & _ & Hp). apply bind_Some in Hp as (user & _ & Hp).
    apply bind_Some in Hp as (pt & Hpt & [= <-]). cbn. split; [done|].
    assert (absolute match path with Some p => String "/" p | None => "" end) as Ha
      by (destruct path; [apply absolute_slash | by left]).
    split; [|by eapply unescape_absolute]. unfold raw_if_needed. destruct (_ =? _)%string; [by left | exact Ha].
  - by apply bind_Some in Hp as (pt & _ & [= <-]).
Qed.
Lemma EscapedPath_absolute f : absolute (f_RawPath f) -> absolute (u_Path (f_URL f)) -> absolute (EscapedPath f).
Proof.
  intros Hr Hp. unfold EscapedPath. destruct (_ && _ && _); [done|]. destruct (_ =? "*")%string eqn:Hstar.
  { apply String.eqb_eq in Hstar. rewrite Hstar in Hp. by destruct Hp. }
  destruct Hp as [->|[r ->]%HasPrefix_slash]; [by left | apply absolute_slash].
Qed.

Lemma String_shape f : u_Scheme (f_URL f) <> "" -> u_Host (f_URL f) <> "" -> u_Opaque (f_URL f) = "" ->
  u_RawQuery (f_URL f) <> "" -> absolute (EscapedPath f) ->
  String_ f = origin f +:+ EscapedPath f +:+ "?" +:+ u_RawQuery (f_URL f) +:+ fragment_text f.
Proof.
  intros Hs Hh Ho Hq Ha. unfold String_, authority_text, path_text, origin, fragment_text.
  apply String.eqb_neq in Hs, Hh, Hq. rewrite Hs, Hh, Hq, Ho, !andb_false_r. cbn [negb andb orb String.eqb].
  rewrite orb_true_r.
  assert (negb (EscapedPath f =? "")%string && negb (HasPrefix (EscapedPath f) "/") = false) as ->
    by (destruct Ha as [Ha|Ha]; rewrite Ha; [done | by rewrite andb_false_r]).
  replace ((_ +:+ _ =? "")%string) with false
    by (symmetry; apply String.eqb_neq; destruct (u_Scheme (f_URL f)); done).
  cbn [negb andb]. apply bytes_inj. repeat (rewrite ?bytes_app, <- ?app_assoc; cbn [bytes list_ascii_of_string app]). done.
Qed.
