(* ===== verification/GoHttp.v ===== *)
(** * net/http

    Headers under their canonical names, requests as the handlers see them, and
    the response writer the services put around the one they are given. *)
From Stdlib Require Import ZArith Lia Ascii String.
From stdpp Require Import base gmap strings list pretty.
From S2P Require Import Prelude GoStrings GoErrors GoTime GoURL GoJson.

Open Scope string_scope.
Open Scope Z_scope.

(** ** Headers *)

Definition is_token_byte (c : ascii) : bool := is_alnum c || one_of "!#$%&'*+-.^_`|~" c.

Fixpoint canonical_bytes (upper : bool) (l : list ascii) : list ascii :=
  match l with
  | [] => []
  | c :: r => (if upper then to_upper_byte c else to_lower_byte c)
                :: canonical_bytes (c =? "-")%char r
  end.
(** [http.CanonicalHeaderKey] *)
Definition CanonicalHeaderKey (key : string) : string :=
  if forallb is_token_byte (bytes key) then of_bytes (canonical_bytes true (bytes key)) else key.

Notation Header := (gmap string (list string)).
Definition Values (h : Header) (key : string) : list string := default [] (h !! CanonicalHeaderKey key).
Definition Get (h : Header) (key : string) : string := hd "" (Values h key).
Definition Set_ (h : Header) (key value : string) : Header := <[CanonicalHeaderKey key := [value]]> h.
Definition Add_ (h : Header) (key value : string) : Header :=
  <[CanonicalHeaderKey key := (Values h key ++ [value])%list]> h.

Lemma Get_Set h k v : Get (Set_ h k v) k = v.
Proof. unfold Get, Values, Set_. by rewrite lookup_insert_eq. Qed.
Lemma Values_Set h k v : Values (Set_ h k v) k = [v].
Proof. unfold Values, Set_. by rewrite lookup_insert_eq. Qed.
Lemma Values_Set_ne h k k' v :
  CanonicalHeaderKey k <> CanonicalHeaderKey k' -> Values (Set_ h k v) k' = Values h k'.
Proof. intros Hne. unfold Values, Set_. by rewrite lookup_insert_ne. Qed.
Lemma Get_Set_ne h k k' v :
  CanonicalHeaderKey k <> CanonicalHeaderKey k' -> Get (Set_ h k v) k' = Get h k'.
Proof. intros Hne. unfold Get. by rewrite Values_Set_ne. Qed.

(** ** Requests *)

Record Request := mkRequest {
  rq_Method : string;
  rq_Path : string;
  rq_RawQuery : string;
  rq_Header : Header;
  rq_Body : string;
  rq_ContentLength : Z;   (** -1 when unknown *)
  rq_RemoteAddr : string
}.
Definition rq_Query (r : Request) (key : string) : string := Query_Get (ParseQuery (rq_RawQuery r)) key.

(** ** Responses *)

(** The wrapped [http.ResponseWriter]: the headers set so far, the status line
    once it is written, with the headers it went out with, and the body. *)
Record Writer := mkWriter {
  w_header : Header;
  w_sent : option (Z * Header);
  w_body : string
}.
Definition new_writer (h : Header) : Writer := mkWriter h None "".
Definition set_header (w : Writer) (k v : string) : Writer :=
  mkWriter (Set_ (w_header w) k v) (w_sent w) (w_body w).
Definition add_header (w : Writer) (k v : string) : Writer :=
  mkWriter (Add_ (w_header w) k v) (w_sent w) (w_body w).
Definition WriteHeader (w : Writer) (status : Z) : Writer :=
  match w_sent w with
  | Some _ => w
  | None => mkWriter (w_header w) (Some (status, w_header w)) (w_body w)
  end.
Definition Write (w : Writer) (body : string) : Writer :=
  let w := match w_sent w with Some _ => w | None => WriteHeader w 200 end in
  mkWriter (w_header w) (w_sent w) (w_body w +:+ body).

(** [wrapped.status]: 200 until something else was written. *)
Definition status_of_writer (w : Writer) : Z := match w_sent w with Some (s, _) => s | None => 200 end.

(** [json.NewEncoder(w).Encode(value)], the error ignored. *)
Definition encode_json (w : Writer) (value : result goerr json) : Writer :=
  match value with
  | Ok j => Write w (json_text j +:+ String "010" "")
  | Err _ => w
  end.

Lemma WriteHeader_status w s : w_sent w = None -> status_of_writer (WriteHeader w s) = s.
Proof. intros Hn. unfold WriteHeader. by rewrite Hn. Qed.
Lemma WriteHeader_sent w s :
  w_sent w = None -> w_sent (WriteHeader w s) = Some (s, w_header w).
Proof. intros Hn. unfold WriteHeader. by rewrite Hn. Qed.
Lemma Write_sent w b x : w_sent w = Some x -> w_sent (Write w b) = Some x.
Proof. intros Hs. unfold Write. by rewrite Hs. Qed.
Lemma encode_json_sent w v x : w_sent w = Some x -> w_sent (encode_json w v) = Some x.
Proof. intros Hs. destruct v; [by apply Write_sent | done]. Qed.
#[export] Hint Resolve encode_json_sent : streamweave.

Definition MethodGet := "GET".
Definition MethodHead := "HEAD".
Definition MethodPost := "POST".
Definition MethodPut := "PUT".
Definition MethodPatch := "PATCH".
Definition MethodDelete := "DELETE".
Definition MethodOptions := "OPTIONS".

Definition status_texts : list (Z * string) :=
  [(100, "Continue"); (101, "Switching Protocols"); (102, "Processing"); (103, "Early Hints");
   (200, "OK"); (201, "Created"); (202, "Accepted"); (203, "Non-Authoritative Information");
   (204, "No Content"); (205, "Reset Content"); (206, "Partial Content"); (207, "Multi-Status");
   (208, "Already Reported"); (226, "IM Used");
   (300, "Multiple Choices"); (301, "Moved Permanently"); (302, "Found"); (303, "See Other");
   (304, "Not Modified"); (305, "Use Proxy"); (307, "Temporary Redirect"); (308, "Permanent Redirect");
   (400, "Bad Request"); (401, "Unauthorized"); (402, "Payment Required"); (403, "Forbidden");
   (404, "Not Found"); (405, "Method Not Allowed"); (406, "Not Acceptable");
   (407, "Proxy Authentication Required"); (408, "Request Timeout"); (409, "Conflict"); (410, "Gone");
   (411, "Length Required"); (412, "Precondition Failed"); (413, "Request Entity Too Large");
   (414, "Request URI Too Long"); (415, "Unsupported Media Type");
   (416, "Requested Range Not Satisfiable"); (417, "Expectation Failed"); (418, "I'm a teapot");
   (421, "Misdirected Request"); (422, "Unprocessable Entity"); (423, "Locked");
   (424, "Failed Dependency"); (425, "Too Early"); (426, "Upgrade Required");
   (428, "Precondition Required"); (429, "Too Many Requests");
   (431, "Request Header Fields Too Large"); (451, "Unavailable For Legal Reasons");
   (500, "Internal Server Error"); (501, "Not Implemented"); (502, "Bad Gateway");
   (503, "Service Unavailable"); (504, "Gateway Timeout"); (505, "HTTP Version Not Supported");
   (506, "Variant Also Negotiates"); (507, "Insufficient Storage"); (508, "Loop Detected");
   (510, "Not Extended"); (511, "Network Authentication Required")].
Definition StatusText (code : Z) : string :=
  match List.find (fun p => fst p =? code) status_texts with Some (_, t) => t | None => "" end.

(** ** strconv *)

(** [strconv.Atoi] on 64-bit integers. *)
Definition digits_value (l : list ascii) : option Z :=
  match l with
  | [] => None
  | _ => foldl (fun acc c => n ← acc; if is_digit c then Some (10 * n + (code c - 48)) else None) (Some 0) l
  end.
Definition Atoi (s : string) : option Z :=
  let ranged z := if (- 2 ^ 63 <=? z) && (z <? 2 ^ 63) then Some z else None in
  match bytes s with
  | "-"%char :: r => z ← digits_value r; ranged (- z)
  | "+"%char :: r => z ← digits_value r; ranged z
  | l => z ← digits_value l; ranged z
  end.
Definition Itoa (z : Z) : string := pretty z.

(** [strconv.ParseBool] *)
Definition ParseBool (s : string) : option bool :=
  if existsb (String.eqb s) ["1"; "t"; "T"; "true"; "TRUE"; "True"] then Some true
  else if existsb (String.eqb s) ["0"; "f"; "F"; "false"; "FALSE"; "False"] then Some false
  else None.

Example atoi_examples : map Atoi ["25"; "-7"; "+3"; ""; "-"; "1x"; "9223372036854775808"]
  = [Some 25; Some (-7); Some 3; None; None; None; None].
Proof. vm_compute. reflexivity. Qed.
Example canonical_examples :
  map CanonicalHeaderKey ["X-StreamWeave-Actor-ID"; "idempotency-key"; "a b"]
  = ["X-Streamweave-Actor-Id"; "Idempotency-Key"; "a b"].
Proof. vm_compute. reflexivity. Qed.

(** ** Durations, which the services' timeouts are configured with *)

(** [time.ParseDuration].  Texts with a decimal point are converted through
    floating point by the library and left to [fraction_duration]. *)
Class DurationLib := { fraction_duration : string -> option Z }.

Definition unit_nanos (u : string) : option Z :=
  if (u =? "ns")%string then Some 1
  else if (u =? "us")%string || (u =? of_bytes ["194"; "181"; "s"]%char)%string
          || (u =? of_bytes ["206"; "188"; "s"]%char)%string then Some 1000
  else if (u =? "ms")%string then Some 1000000
  else if (u =? "s")%string then Some Second
  else if (u =? "m")%string then Some Minute
  else if (u =? "h")%string then Some (60 * Minute)
  else None.

(** The longest prefix whose bytes satisfy [p], and the rest. *)
Fixpoint span_bytes (p : ascii -> bool) (l : list ascii) : list ascii * list ascii :=
  match l with
  | [] => ([], [])
  | c :: r => if p c then let '(a, b) := span_bytes p r in (c :: a, b) else ([], l)
  end.

(** The (number, unit) pairs of an unsigned duration, each at most 2^63
    nanoseconds and so their sum. *)
Fixpoint duration_terms (fuel : nat) (total : Z) (l : list ascii) : option Z :=
  match l with
  | [] => Some total
  | _ =>
      match fuel with
      | O => None
      | S fuel =>
          let '(ds, r1) := span_bytes is_digit l in
          let '(us, r2) := span_bytes (fun c => negb (is_digit c) && negb (c =? ".")%char) r1 in
          n ← digits_value ds;
          u ← unit_nanos (of_bytes us);
          let total' := total + n * u in
          if 2 ^ 63 <? total' then None else duration_terms fuel total' r2
      end
  end.
Definition ParseDuration `{DurationLib} (s : string) : option Z :=
  if contains_byte "." s then fraction_duration s
  else
    let '(neg, l) := match bytes s with
                     | "-"%char :: r => (true, r)
                     | "+"%char :: r => (false, r)
                     | l => (false, l)
                     end in
    if bool_decide (l = ["0"%char]) then Some 0
    else if bool_decide (l = []) then None
    else
      d ← duration_terms (length l) 0 l;
      if neg then Some (- d) else if 2 ^ 63 - 1 <? d then None else Some d.

Example durations :
  let lib := {| fraction_duration := fun _ => None |} in
  map (@ParseDuration lib) ["10s"; "1h30m"; "-2ms"; "5"; ""; "0"; "1x"]
  = [Some (10 * Second); Some (90 * Minute); Some (-2000000); None; None; Some 0; None].
Proof. vm_compute. reflexivity. Qed.
