(* ===== verification/Interleave.v ===== *)
(** * Goroutines over shared state

    A component whose methods take a lock for parts of their work is a step
    function on its shared state and the place a goroutine is at; a run
    interleaves the steps of any number of goroutines in any order.  The lemmas
    are the induction principles of runs. *)
From Stdlib Require Import ZArith Lia.
From stdpp Require Import base list.
From S2P Require Import Prelude.

Section Interleave.
(** The shared state, the places, what a step observes, the calls. *)
Context {V P E J : Type} (init : J -> P) (step : E -> P -> V -> option (V * P)).

Record Sys := mkSys { shared : V; threads : list P }.
Inductive label := Spawn (j : J) | Run (i : nat) (e : E).

Definition sys_step (l : label) (s : Sys) : option Sys :=
  match l with
  | Spawn j => Some (mkSys (shared s) (threads s ++ [init j]))
  | Run i e =>
      p ← threads s !! i;
      r ← step e p (shared s);
      Some (mkSys (fst r) (<[i := snd r]> (threads s)))
  end.
Fixpoint run (ls : list label) (s : Sys) : option Sys :=
  match ls with
  | [] => Some s
  | l :: rest => s' ← sys_step l s; run rest s'
  end.
Definition start (v : V) : Sys := mkSys v [].

Lemma run_app l1 : forall l2 s, run (l1 ++ l2) s = (s' ← run l1 s; run l2 s').
Proof.
  induction l1 as [|l l1 IH]; intros l2 s; [done|]. cbn. destruct (sys_step l s); [apply IH | done].
Qed.

(** A goroutine on its own. *)
Lemma run_alone e ls v p :
  run (Run 0 e :: ls) (mkSys v [p]) = (r ← step e p v; run ls (mkSys (fst r) [snd r])).
Proof. cbn. by destruct (step e p v). Qed.

(** What holds at the start and is kept by every step, whatever was run before. *)
Lemma run_invariant (I : list label -> Sys -> Prop) v :
  I [] (start v) ->
  (forall tr s l s', run tr (start v) = Some s -> I tr s -> sys_step l s = Some s' -> I (tr ++ [l]) s') ->
  forall tr s, run tr (start v) = Some s -> I tr s.
Proof.
  intros H0 Hstep tr. induction tr as [|l tr IH] using rev_ind; intros s.
  { cbn. by intros [= <-]. }
  rewrite run_app. destruct (run tr (start v)) as [s1|] eqn:Hr; [|done]. cbn.
  destruct (sys_step l s1) as [s2|] eqn:Hs; [|done]. intros [= <-]. by eapply Hstep; [|apply IH|].
Qed.

(** The same for a fact of the shared state and facts of the single goroutines
    that later steps cannot undo. *)
Lemma run_threads (A : list label -> V -> Prop) (T : list label -> nat -> P -> Prop) v :
  A [] v ->
  (forall tr l w, A tr w -> match l with Spawn _ => A (tr ++ [l]) w | Run _ _ => True end) ->
  (forall tr l i p, T tr i p -> T (tr ++ [l]) i p) ->
  (forall tr i j, T tr i (init j)) ->
  (forall tr s i e p w q, run tr (start v) = Some s -> threads s !! i = Some p ->
     step e p (shared s) = Some (w, q) -> A tr (shared s) -> T tr i p ->
     A (tr ++ [Run i e]) w /\ T (tr ++ [Run i e]) i q) ->
  forall tr s, run tr (start v) = Some s -> A tr (shared s) /\ forall i p, threads s !! i = Some p -> T tr i p.
Proof.
  intros H0 HA HT Hinit Hstep. apply run_invariant; [by split; [|intros i p Hi]|].
  intros tr s l s' Hr [Hs Hths]. destruct l as [j|i e]; cbn.
  { intros [= <-]. split; [exact (HA tr (Spawn j) _ Hs)|].
    intros i p [Hi|[_ Hi]]%lookup_app_Some; [by apply HT, Hths|].
    by apply list_lookup_singleton_Some in Hi as [_ <-]. }
  destruct (threads s !! i) as [p|] eqn:Hi; [|done]. cbn.
  destruct (step e p (shared s)) as [[w q]|] eqn:Hst; [|done]. intros [= <-]. cbn.
  destruct (Hstep _ _ _ _ _ _ _ Hr Hi Hst Hs (Hths _ _ Hi)) as [Hw Hq]. split; [done|].
  intros i' q' Hq'. destruct (decide (i' = i)) as [->|Hne].
  - rewrite list_lookup_insert_eq in Hq' by (by apply lookup_lt_Some in Hi). by injection Hq' as <-.
  - rewrite list_lookup_insert_ne in Hq' by done. by apply HT, Hths.
Qed.

(** What every step keeps of the shared state alone. *)
Lemma run_shared (I : V -> Prop) v : I v ->
  (forall e p w w' q, step e p w = Some (w', q) -> I w -> I w') ->
  forall ls s, run ls (start v) = Some s -> I (shared s).
Proof.
  intros H0 Hstep. apply (run_invariant (fun _ s => I (shared s))); [done|]. intros tr s l s' _ IH.
  destruct l as [j|i e]; cbn; [by intros [= <-]|].
  destruct (threads s !! i) as [p|]; [|done]. cbn. destruct (step e p (shared s)) as [[w q]|] eqn:Hs; [|done].
  intros [= <-]. by eapply Hstep.
Qed.

(** A quantity of the shared state that every step moves by what it moves the
    goroutine's own share is the sum of the shares. *)
Definition shares (wt : P -> Z) (l : list P) : Z := foldr (fun p acc => wt p + acc)%Z 0%Z l.
Lemma shares_app wt l1 l2 : shares wt (l1 ++ l2)%list = (shares wt l1 + shares wt l2)%Z.
Proof. unfold shares. induction l1 as [|p l1 IH]; cbn; [done | rewrite IH; lia]. Qed.
Lemma shares_insert wt l i p q : l !! i = Some p -> shares wt (<[i := q]> l) = (shares wt l + wt q - wt p)%Z.
Proof.
  unfold shares. revert i. induction l as [|x l IH]; intros i Hi; [done|].
  destruct i as [|i]; [injection Hi as ->; cbn; lia|].
  change (<[S i := q]> (x :: l)) with (x :: <[i := q]> l). cbn [foldr]. rewrite (IH i Hi). lia.
Qed.
Lemma shares_nonneg wt l : (forall p, 0 <= wt p)%Z -> (0 <= shares wt l)%Z.
Proof. intros Hw. unfold shares. induction l as [|p l IH]; cbn; [done|]. specialize (Hw p). lia. Qed.
Lemma run_shares (g : V -> Z) (wt : P -> Z) v :
  (forall j, wt (init j) = 0%Z) ->
  (forall e p w w' q, step e p w = Some (w', q) -> (g w' = g w + wt q - wt p)%Z) ->
  forall ls s, run ls (start v) = Some s -> g (shared s) = (g v + shares wt (threads s))%Z.
Proof.
  intros Hinit Hstep. apply (run_invariant (fun _ s => g (shared s) = (g v + shares wt (threads s))%Z)); [cbn; lia|].
  intros tr s l s' _ IH. destruct l as [j|i e]; cbn.
  - intros [= <-]. cbn [shared threads]. rewrite shares_app. cbn. rewrite Hinit. lia.
  - destruct (threads s !! i) as [p|] eqn:Hi; [|done]. cbn. destruct (step e p (shared s)) as [[w q]|] eqn:Hs; [|done].
    intros [= <-]. cbn [shared threads fst snd]. rewrite (shares_insert _ _ _ _ _ Hi), (Hstep _ _ _ _ _ Hs). lia.
Qed.
End Interleave.

Arguments Sys : clear implicits.
Arguments label : clear implicits.
Arguments mkSys {V P}.
Arguments shared {V P}.
Arguments threads {V P}.
Arguments Spawn {E J}.
Arguments Run {E J}.
Arguments start {V P}.
