(* ===== verification/GoProcess.v ===== *)
(** * Processes

    How the [main] packages start and stop: a program that opens resources,
    each with its deferred close, makes attempts that can fail, and at last
    serves until the server stops or a signal comes.  What it did is a trace;
    the deferred closes run when the function returns, last first.  [W] is what
    a process hands to its server. *)
From Stdlib Require Import ZArith Lia Ascii String.
From stdpp Require Import base gmap strings list.
From S2P Require Import Prelude GoErrors.

Open Scope string_scope.
Open Scope go_scope.

Inductive act (W : Type) :=
| Opened (name : string)
| Closed (name : string)
| Did (what : string)
| Spawned (what : string)
| Serving (w : W)
| ShutDown.
Arguments Opened {W} name.
Arguments Closed {W} name.
Arguments Did {W} what.
Arguments Spawned {W} what.
Arguments Serving {W} w.
Arguments ShutDown {W}.

(** What the host brought: whether a named call at an event failed, and which
    of the two the process was woken by while serving. *)
Class Host := {
  host_fails : string -> nat -> option goerr;
  host_signalled : nat -> bool
}.
Definition ErrCanceled : goerr := Sentinel "context" "context canceled".
Definition ErrServerClosed : goerr := Sentinel "http" "http: Server closed".

Record PSt (W : Type) := mkPSt { p_trace : list (act W); p_defers : list string; p_tick : nat }.
Arguments mkPSt {W} p_trace p_defers p_tick.
Arguments p_trace {W} p.
Arguments p_defers {W} p.
Arguments p_tick {W} p.

Section Process.
Context `{Host} {W : Type}.

Definition Proc (A : Type) : Type := PSt W -> PSt W * result goerr A.
Definition pret {A} (a : A) : Proc A := fun s => (s, Ok a).
Definition plift {A} (r : result goerr A) : Proc A := fun s => (s, r).
Definition pbind {A B} (m : Proc A) (k : A -> Proc B) : Proc B := fun s =>
  match m s with
  | (s', Ok a) => k a s'
  | (s', Err e) => (s', Err e)
  end.
Definition emit (a : act W) : Proc unit := fun s => (mkPSt (p_trace s ++ [a]) (p_defers s) (p_tick s), Ok tt).
(** A call that succeeds or gives its error. *)
Definition attempt (what : string) : Proc unit := fun s =>
  let s' := mkPSt (p_trace s) (p_defers s) (S (p_tick s)) in
  match host_fails what (p_tick s) with
  | Some e => (s', Err e)
  | None => emit (Did what) s'
  end.
(** [x, err := open(); if err != nil { return err }; defer x.Close()] *)
Definition acquire (name : string) : Proc unit := fun s =>
  let s' := mkPSt (p_trace s) (p_defers s) (S (p_tick s)) in
  match host_fails name (p_tick s) with
  | Some e => (s', Err e)
  | None => (mkPSt (p_trace s' ++ [Opened name]) (name :: p_defers s) (p_tick s'), Ok tt)
  end.
(** [ctx, stop := ...; defer stop()], which cannot fail. *)
Definition hold (name : string) : Proc unit := fun s =>
  (mkPSt (p_trace s ++ [Opened name]) (name :: p_defers s) (p_tick s), Ok tt).
(** [server.Start]: nil when the server was closed. *)
Definition start_result (e : option goerr) : result goerr unit :=
  match e with
  | None => Ok tt
  | Some e => if errors_Is e ErrServerClosed then Ok tt else Err e
  end.
(** [server.Shutdown]: its error unless the context was cancelled. *)
Definition shutdown_result (e : option goerr) : result goerr unit :=
  match e with
  | None => Ok tt
  | Some e => if errors_Is e ErrCanceled then Ok tt else Err e
  end.
(** The server in a goroutine, and the select on its error and the signal. *)
Definition serve_until_signal (w : W) : Proc unit := fun s =>
  let s' := mkPSt (p_trace s ++ [Serving w]) (p_defers s) (S (p_tick s)) in
  if host_signalled (p_tick s)
  then (mkPSt (p_trace s' ++ [ShutDown]) (p_defers s') (S (p_tick s')),
        shutdown_result (host_fails "shutdown" (p_tick s')))
  else (s', start_result (host_fails "serve" (p_tick s))).

(** Running [run]: its trace with the deferred closes, and its error. *)
Definition run_process (m : Proc unit) : list (act W) * result goerr unit :=
  let '(s, r) := m (mkPSt [] [] 0) in ((p_trace s ++ map Closed (p_defers s))%list, r).

(** ** The discipline of defer *)

Definition opened (t : list (act W)) : list string :=
  flat_map (fun a => match a with Opened n => [n] | _ => [] end) t.
Definition is_close (a : act W) : bool := match a with Closed _ => true | _ => false end.
(** So far nothing was closed, and what was opened is what will be. *)
Definition held (s : PSt W) : Prop := p_defers s = rev (opened (p_trace s)) /\ existsb is_close (p_trace s) = false.

(** A program that only opens what it defers the close of. *)
Class Disciplined {A} (m : Proc A) : Prop := disciplined : forall s, held s -> held (fst (m s)).

Lemma opened_app t u : opened (t ++ u) = (opened t ++ opened u)%list.
Proof. apply flat_map_app. Qed.
Lemma held_more s a n : held s -> is_close a = false -> opened [a] = [] ->
  held (mkPSt (p_trace s ++ [a]) (p_defers s) n).
Proof.
  intros [Hd Hc] Ha Ho. split; cbn.
  - by rewrite opened_app, Ho, app_nil_r.
  - rewrite existsb_app, Hc. cbn. by rewrite Ha.
Qed.
Lemma held_open s name n : held s -> held (mkPSt (p_trace s ++ [Opened name]) (name :: p_defers s) n).
Proof.
  intros [Hd Hc]. split; cbn.
  - by rewrite opened_app, rev_app_distr, Hd.
  - by rewrite existsb_app, Hc.
Qed.
Lemma held_tick s n : held s -> held (mkPSt (p_trace s) (p_defers s) n).
Proof. by intros []. Qed.

#[export] Instance disciplined_ret {A} (a : A) : Disciplined (pret a).
Proof. by intros s. Qed.
#[export] Instance disciplined_lift {A} (r : result goerr A) : Disciplined (plift r).
Proof. by intros s. Qed.
#[export] Instance disciplined_bind {A B} (m : Proc A) (k : A -> Proc B) :
  Disciplined m -> (forall a, Disciplined (k a)) -> Disciplined (pbind m k).
Proof. intros Hm Hk s Hs. unfold pbind. specialize (Hm s Hs). destruct (m s) as [s1 [a|e]]; [by apply Hk | done]. Qed.
#[export] Instance disciplined_attempt what : Disciplined (attempt what).
Proof. intros s Hs. unfold attempt. destruct (host_fails _ _); [by apply held_tick | by apply (held_more (mkPSt _ _ _))]. Qed.
#[export] Instance disciplined_acquire name : Disciplined (acquire name).
Proof. intros s Hs. unfold acquire. destruct (host_fails _ _); [by apply held_tick | exact (held_open s name _ Hs)]. Qed.
#[export] Instance disciplined_hold name : Disciplined (hold name).
Proof. intros s Hs. by apply held_open. Qed.
Lemma disciplined_emit a : is_close a = false -> opened [a] = [] -> Disciplined (emit a).
Proof. intros Ha Ho s Hs. by apply held_more. Qed.
#[export] Instance disciplined_spawn what : Disciplined (emit (Spawned what)).
Proof. by apply disciplined_emit. Qed.
#[export] Instance disciplined_did what : Disciplined (emit (Did what)).
Proof. by apply disciplined_emit. Qed.
#[export] Instance disciplined_serving w : Disciplined (emit (Serving w)).
Proof. by apply disciplined_emit. Qed.
#[export] Instance disciplined_serve w : Disciplined (serve_until_signal w).
Proof.
  intros s Hs. unfold serve_until_signal. destruct (host_signalled _); [|by apply held_more].
  apply (held_more (mkPSt (p_trace s ++ [Serving w]) (p_defers s) 0)); [by apply held_more | done | done].
Qed.

(** Every resource a process opened is closed once, after everything else it
    did, in the opposite order, however [run] ends. *)
Lemma run_process_closes m t r : Disciplined m -> run_process m = (t, r) ->
  exists body, t = (body ++ map Closed (rev (opened body)))%list /\ existsb is_close body = false.
Proof.
  unfold run_process. intros Hm. specialize (Hm (mkPSt [] [] 0) (conj eq_refl eq_refl)).
  destruct (m (mkPSt [] [] 0)) as [s x]. destruct Hm as [Hd Hc]. intros [= <- <-].
  exists (p_trace s). cbn [fst] in *. by rewrite Hd.
Qed.

(** ** What was served *)

Definition servings (t : list (act W)) : list W := flat_map (fun a => match a with Serving w => [w] | _ => [] end) t.
Lemma servings_app t u : servings (t ++ u) = (servings t ++ servings u)%list.
Proof. apply flat_map_app. Qed.

(** A program that starts no server. *)
Class Silent {A} (m : Proc A) : Prop := silent : forall s, servings (p_trace (fst (m s))) = servings (p_trace s).
#[export] Instance silent_ret {A} (a : A) : Silent (pret a).
Proof. by intros s. Qed.
#[export] Instance silent_lift {A} (r : result goerr A) : Silent (plift r).
Proof. by intros s. Qed.
#[export] Instance silent_bind {A B} (m : Proc A) (k : A -> Proc B) :
  Silent m -> (forall a, Silent (k a)) -> Silent (pbind m k).
Proof.
  intros Hm Hk s. unfold pbind. specialize (Hm s). destruct (m s) as [s1 [a|e]]; [|done]. by rewrite Hk.
Qed.
#[export] Instance silent_attempt what : Silent (attempt what).
Proof. intros s. unfold attempt. destruct (host_fails _ _); [done|]. cbn. rewrite servings_app. apply app_nil_r. Qed.
#[export] Instance silent_acquire name : Silent (acquire name).
Proof. intros s. unfold acquire. destruct (host_fails _ _); [done|]. cbn. rewrite servings_app. apply app_nil_r. Qed.
#[export] Instance silent_hold name : Silent (hold name).
Proof. intros s. cbn. rewrite servings_app. apply app_nil_r. Qed.
#[export] Instance silent_spawn what : Silent (emit (Spawned what)).
Proof. intros s. cbn. rewrite servings_app. apply app_nil_r. Qed.

#[export] Instance silent_did what : Silent (emit (Did what)).
Proof. intros s. cbn. rewrite servings_app. apply app_nil_r. Qed.

(** The program, run from here, hands [w] to its server. *)
Definition serves {A} (m : Proc A) (s : PSt W) (w : W) : Prop :=
  servings (p_trace (fst (m s))) = (servings (p_trace s) ++ [w])%list.
Lemma serves_bind {A B} (m : Proc A) (k : A -> Proc B) s w : Silent m -> serves (pbind m k) s w ->
  exists s1 a, m s = (s1, Ok a) /\ serves (k a) s1 w.
Proof.
  intros Hm. unfold serves, pbind. specialize (Hm s). destruct (m s) as [s1 [a|e]]; cbn in *; rewrite <- Hm.
  - eauto.
  - intros He. apply (f_equal length) in He. rewrite length_app in He. cbn in He. lia.
Qed.
Lemma serves_now w w' s : serves (serve_until_signal w) s w' -> w' = w.
Proof.
  unfold serves, serve_until_signal. destruct (host_signalled _); cbn; rewrite ?servings_app; cbn; rewrite ?app_nil_r;
    intros He%app_inv_head; congruence.
Qed.
Lemma serves_then {A} w w' (k : unit -> Proc A) s : Silent (k tt) -> serves (pbind (emit (Serving w)) k) s w' -> w' = w.
Proof.
  intros Hk. unfold serves, pbind. cbn. rewrite (Hk (mkPSt _ _ _)). cbn. rewrite servings_app. cbn.
  intros He%app_inv_head. congruence.
Qed.
Lemma served_once m t r w : serves m (mkPSt [] [] 0) w -> run_process m = (t, r) -> servings t = [w].
Proof.
  unfold serves, run_process. destruct (m _) as [s x]. cbn. intros Hs [= <- <-]. rewrite servings_app, Hs.
  assert (servings (map Closed (p_defers s)) = []) as -> by (by induction (p_defers s)). done.
Qed.

(** ** Traces only grow *)

Class Grows {A} (m : Proc A) : Prop := grows : forall s, exists u, p_trace (fst (m s)) = (p_trace s ++ u)%list.
#[export] Instance grows_ret {A} (a : A) : Grows (pret a).
Proof. intros s. exists []. by rewrite app_nil_r. Qed.
#[export] Instance grows_lift {A} (r : result goerr A) : Grows (plift r).
Proof. intros s. exists []. by rewrite app_nil_r. Qed.
#[export] Instance grows_emit a : Grows (emit a).
Proof. intros s. by exists [a]. Qed.
#[export] Instance grows_bind {A B} (m : Proc A) (k : A -> Proc B) : Grows m -> (forall a, Grows (k a)) -> Grows (pbind m k).
Proof.
  intros Hm Hk s. unfold pbind. destruct (Hm s) as [u Hu]. destruct (m s) as [s1 [a|e]]; cbn in *; [|eauto].
  destruct (Hk a s1) as [v Hv]. exists (u ++ v)%list. by rewrite Hv, Hu, app_assoc.
Qed.
#[export] Instance grows_attempt what : Grows (attempt what).
Proof. intros s. unfold attempt. destruct (host_fails _ _); [exists [] | by exists [Did what]]. by rewrite app_nil_r. Qed.
#[export] Instance grows_acquire name : Grows (acquire name).
Proof. intros s. unfold acquire. destruct (host_fails _ _); [exists [] | by exists [Opened name]]. by rewrite app_nil_r. Qed.
#[export] Instance grows_hold name : Grows (hold name).
Proof. intros s. by exists [Opened name]. Qed.
#[export] Instance grows_serve w : Grows (serve_until_signal w).
Proof.
  intros s. unfold serve_until_signal. destruct (host_signalled _); [exists [Serving w; ShutDown] | by exists [Serving w]].
  cbn. by rewrite <- app_assoc.
Qed.
(** What an attempt that succeeded left is in the trace of the whole run. *)
Lemma attempt_stays {A} what (m : Proc A) s0 s1 a : Grows m -> attempt what s0 = (s1, Ok a) -> Did what ∈ p_trace (fst (m s1)).
Proof.
  intros Hm Ha. unfold attempt in Ha. destruct (host_fails _ _); [done|]. injection Ha as <-.
  destruct (Hm (mkPSt (p_trace s0 ++ [Did what]) (p_defers s0) (S (p_tick s0)))) as [u Hu]. cbn in Hu |- *.
  rewrite Hu. set_solver.
Qed.
Lemma ran_trace m t r : run_process m = (t, r) -> forall a, a ∈ p_trace (fst (m (mkPSt [] [] 0))) -> a ∈ t.
Proof. unfold run_process. destruct (m _) as [s x]. intros [= <- <-] a Ha. cbn in Ha. set_solver. Qed.
Lemma pbind_fst {A B} (m : Proc A) (k : A -> Proc B) s s1 a : m s = (s1, Ok a) -> pbind m k s = k a s1.
Proof. unfold pbind. by intros ->. Qed.

(** ** Running to an end *)

Lemma plift_ok {A} (r : result goerr A) s s' a : plift r s = (s', Ok a) -> s' = s /\ r = Ok a.
Proof. unfold plift. by intros [= -> ->]. Qed.
Lemma pbind_run {A B} (m : Proc A) (k : A -> Proc B) s s' r : pbind m k s = (s', r) ->
  (exists e, m s = (s', Err e) /\ r = Err e) \/ exists s1 a, m s = (s1, Ok a) /\ k a s1 = (s', r).
Proof. unfold pbind. destruct (m s) as [s1 [a|e]]; [by eauto|]. intros [= <- <-]. eauto. Qed.
End Process.

Notation "'plet' x ':=' m 'in' k" := (pbind m (fun x => k))
  (at level 10, x pattern, m at level 100, k at level 200) : go_scope.

(** [served_step Hg Hin s a E]: the next step of a program that serves ended
    well; [Hin] says what is in the trace. *)
Ltac served_step Hg Hin s a E :=
  apply serves_bind in Hg as (s & a & E & Hg); [|apply _]; try rewrite (pbind_fst _ _ _ _ _ E) in Hin.
