(* ===== verification/GatewayDomain.v ===== *)
(** * Gateway: actors and policies

    [apps/gateway/internal/domain/gateway]: who calls, what each route asks of
    a caller, and the values exchanged with the other components. *)
From Stdlib Require Import ZArith Lia Ascii String.
From stdpp Require Import base gmap strings list.
From S2P Require Import Prelude GoStrings GoErrors GoTime GoURL GoHttp.

Open Scope string_scope.
Open Scope Z_scope.

(** ** Errors *)

Definition gateway_error (text : string) : goerr := Sentinel "gateway" text.
Definition ErrUnauthorized := gateway_error "unauthorized".
Definition ErrForbidden := gateway_error "forbidden".
Definition ErrRateLimited := gateway_error "rate limited".
Definition ErrDependency := gateway_error "dependency unavailable".
Definition ErrBadRequest := gateway_error "bad request".
Definition ErrPayloadTooLarge := gateway_error "payload too large".
Definition ErrUnsupportedMedia := gateway_error "unsupported media type".
Definition ErrUpstreamTimeout := gateway_error "upstream timeout".
Definition ErrUpstreamUnavailable := gateway_error "upstream unavailable".
Definition ErrUpstreamResponse := gateway_error "invalid upstream response".

(** ** Actors *)

Record Actor := mkActor {
  Subject : string;
  Type_ : string;
  Roles : list string;
  Scopes : list string;
  SessionID : string
}.
Definition no_actor : Actor := mkActor "" "" [] [] "".

Section WithLib.
Context `{GoLib}.

(** The loop of [uniqueSorted]: trimmed, non-empty, first occurrences. *)
Fixpoint unique_trimmed (seen : list string) (values : list string) : list string :=
  match values with
  | [] => []
  | v :: rest =>
      let v := TrimSpace v in
      if (v =? "")%string || bool_decide (v ∈ seen) then unique_trimmed seen rest
      else v :: unique_trimmed (v :: seen) rest
  end.
Definition uniqueSorted (values : list string) : list string := order_by String.leb (unique_trimmed [] values).

Definition Normalized (a : Actor) : Actor :=
  mkActor (TrimSpace (Subject a)) (TrimSpace (Type_ a)) (uniqueSorted (Roles a)) (uniqueSorted (Scopes a))
    (SessionID a).
End WithLib.

(** ** Route policies *)

Inductive AuthMode := AuthNone | AuthBearer.

Record RoutePolicy := mkPolicy {
  p_Method : string;
  p_Pattern : string;
  p_Owner : string;
  p_Auth : AuthMode;
  p_Scopes : list string;
  p_LimitClass : string;
  p_Timeout : Z;
  p_RetrySafeRead : bool;
  p_Mutation : bool;
  p_MaxBodyBytes : Z;
  p_RequireJSON : bool
}.

Definition Allows (p : RoutePolicy) (scopes : list string) : bool :=
  match p_Scopes p with
  | [] => true
  | required => existsb (fun r => bool_decide (r ∈ scopes)) required
  end.

Definition IsMutation (p : RoutePolicy) : bool :=
  p_Mutation p || existsb (String.eqb (p_Method p)) [MethodPost; MethodPut; MethodPatch; MethodDelete].

Definition LimitKeyClass `{GoLib} (p : RoutePolicy) : string :=
  if (TrimSpace (p_LimitClass p) =? "")%string then "default" else p_LimitClass p.

(** The rows of the table, by the fields they set. *)
Definition own_page (pattern class : string) (seconds : Z) : RoutePolicy :=
  mkPolicy MethodGet pattern "gateway" AuthNone [] class (seconds * Second) false false 0 false.
Definition public_post (pattern class : string) (mutation : bool) : RoutePolicy :=
  mkPolicy MethodPost pattern "identity" AuthNone [] class (5 * Second) false mutation (2 ^ 20) true.

Definition DefaultPolicies : list RoutePolicy :=
  [own_page "/health/live" "health" 1;
   own_page "/health/ready" "health" 2;
   own_page "/metrics" "metrics" 2;
   own_page "/v1/docs" "health" 2;
   own_page "/v1/openapi.yaml" "health" 2;
   public_post "/.well-known/register" "demo-registration" false;
   public_post "/v1/auth/login" "auth-write" true;
   public_post "/v1/auth/refresh" "auth-write" true;
   public_post "/v1/auth/password-reset/request" "auth-write" true;
   public_post "/v1/auth/password-reset/confirm" "auth-write" true;
   public_post "/v1/auth/email-verification/confirm" "auth-write" true;
   mkPolicy MethodPost "/v1/auth/logout" "identity" AuthBearer ["identity:sessions:write"] "auth-write"
     (5 * Second) false true (2 ^ 20) false;
   mkPolicy MethodPost "/v1/auth/logout-all" "identity" AuthBearer ["identity:sessions:write"] "auth-write"
     (5 * Second) false true (2 ^ 20) false;
   mkPolicy MethodGet "/v1/auth/sessions" "identity" AuthBearer ["identity:sessions:read"] "authenticated-read"
     (5 * Second) true false 0 false;
   mkPolicy MethodPost "/v1/orders" "orders" AuthBearer ["orders:write:self"; "orders:write:any"] "order-write"
     (10 * Second) false true (2 * 2 ^ 20) true;
   mkPolicy MethodGet "/v1/orders" "orders" AuthBearer ["orders:read:self"; "orders:read:any"] "order-read"
     (5 * Second) true false 0 false;
   mkPolicy MethodGet "/v1/orders/{order_id}" "orders" AuthBearer ["orders:read:self"; "orders:read:any"]
     "order-read" (5 * Second) true false 0 false;
   mkPolicy MethodPost "/v1/orders/{order_id}/cancel" "orders" AuthBearer
     ["orders:cancel:self"; "orders:cancel:any"] "order-write" (10 * Second) false true (2 ^ 20) false].

(** ** Requests to and responses from the services behind *)

Record ForwardRequest := mkForward {
  fr_Method : string;
  fr_Path : string;
  fr_Route : string;
  fr_RawQuery : string;
  fr_Body : string;
  fr_ContentType : string;
  fr_RequestID : string;
  fr_CorrelationID : string;
  fr_IdempotencyKey : string
}.

Record Response := mkResponse {
  rs_StatusCode : Z;
  rs_Header : gmap string (list string);
  rs_Body : string
}.

(** ** Facts *)

Lemma Allows_spec p scopes :
  Allows p scopes = true <-> p_Scopes p = [] \/ exists r, r ∈ p_Scopes p /\ r ∈ scopes.
Proof.
  unfold Allows. destruct (p_Scopes p) as [|r0 rs] eqn:Hp; [naive_solver|].
  rewrite existsb_exists. split.
  - intros (r & Hr & Hb%bool_decide_eq_true). right. exists r. split; [|done].
    by apply list_elem_of_In.
  - intros [?|(r & Hr & Hin)]; [done|]. exists r. split; [by apply list_elem_of_In | by apply bool_decide_eq_true].
Qed.
