(* ===== verification/GatewayService.v ===== *)
(** * Gateway: the application service

    [apps/gateway/internal/application/gateway/service.go], against the
    interfaces of [ports.go]: authorizing a request and forwarding it. *)
From Stdlib Require Import ZArith Lia Ascii String.
From stdpp Require Import base gmap strings list.
From S2P Require Import Prelude GoStrings GoErrors GoTime GoURL GoHttp GatewayDomain.

Open Scope string_scope.
Open Scope Z_scope.

(** A call on the components behind, with their state [G]. *)
Definition gcall (G A : Type) : Type := G -> G * result goerr A.

Class ClaimsVerifier (G : Type) := { cv_Verify : string -> gcall G Actor }.
Class RateLimiter (G : Type) := { rl_Allow : string -> string -> gcall G bool; rl_Check : gcall G unit }.
(** [Refresh] is there for a provider that is refreshable. *)
Class ServiceTokenProvider (G : Type) := {
  tp_Token : gcall G string;
  tp_Refresh : option (gcall G string)
}.
(** A nil response without an error is [Ok None]. *)
Class UpstreamClient (G : Type) := {
  up_Forward : string -> string -> option Actor -> ForwardRequest -> gcall G (option Response)
}.

Section Service.
Context `{GoLib} {G : Type} `{!ClaimsVerifier G} `{!RateLimiter G} `{!ServiceTokenProvider G} `{!UpstreamClient G}.

Definition limitKey (request : Request) (policy : RoutePolicy) (source : string) : string :=
  LimitKeyClass policy +:+ "|anonymous|" +:+ source +:+ "|" +:+ rq_Method request.
Definition limitKeyWithActor (policy : RoutePolicy) (source : string) (actor : Actor) : string :=
  LimitKeyClass policy +:+ "|" +:+ Subject actor +:+ "|" +:+ source +:+ "|" +:+ p_Method policy.

(** [strings.EqualFold] against an ASCII word without k or s. *)
Definition equal_fold (a b : string) : bool :=
  bool_decide (map to_lower_byte (bytes a) = map to_lower_byte (bytes b)).
Definition bearerToken (header : string) : option string :=
  match Fields header with
  | [scheme; token] => if equal_fold scheme "bearer" && negb (token =? "")%string then Some token else None
  | _ => None
  end.

(** The limiter's verdict as an error. *)
Definition limited_by (key : string) (policy : RoutePolicy) : G -> G * option goerr := fun g =>
  match rl_Allow key (LimitKeyClass policy) g with
  | (g, Err _) => (g, Some ErrDependency)
  | (g, Ok false) => (g, Some ErrRateLimited)
  | (g, Ok true) => (g, None)
  end.

Definition Authorize (request : Request) (policy : RoutePolicy) (source : string)
  : gcall G (Actor * string) := fun g =>
  match p_Auth policy with
  | AuthNone =>
      match limited_by (limitKey request policy source) policy g with
      | (g, Some e) => (g, Err e)
      | (g, None) => (g, Ok (no_actor, ""))
      end
  | AuthBearer =>
      if negb (Nat.eqb (length (Values (rq_Header request) "Authorization")) 1)
      then (g, Err ErrUnauthorized)
      else match bearerToken (Get (rq_Header request) "Authorization") with
           | None => (g, Err ErrUnauthorized)
           | Some raw =>
               match cv_Verify raw g with
               | (g, Err _) => (g, Err ErrUnauthorized)
               | (g, Ok verified) =>
                   let actor := Normalized verified in
                   if (Subject actor =? "")%string || negb (Type_ actor =? "human")%string ||
                      negb (Allows policy (Scopes actor))
                   then (g, Err ErrForbidden)
                   else match limited_by (limitKeyWithActor policy source actor) policy g with
                        | (g, Some e) => (g, Err e)
                        | (g, None) => (g, Ok (actor, raw))
                        end
               end
           end
  end.

Definition usable_response (r : option Response) : bool :=
  match r with
  | None => false
  | Some r => (100 <=? rs_StatusCode r) && (rs_StatusCode r <=? 599)
  end.

(** One forward, its response checked. *)
Definition forward_checked (owner token : string) (actor : option Actor) (request : ForwardRequest)
  : gcall G Response := fun g =>
  match up_Forward owner token actor request g with
  | (g, Err e) => (g, Err e)
  | (g, Ok (Some r)) => if usable_response (Some r) then (g, Ok r) else (g, Err ErrUpstreamResponse)
  | (g, Ok None) => (g, Err ErrUpstreamResponse)
  end.

Definition Forward (owner : string) (actor : option Actor) (request : ForwardRequest) (policy : RoutePolicy)
  : gcall G Response := fun g =>
  match tp_Token g with
  | (g, Err _) => (g, Err ErrDependency)
  | (g, Ok token) =>
      match forward_checked owner token actor request g with
      | (g, Err e) => (g, Err e)
      | (g, Ok response) =>
          if (rs_StatusCode response =? 401) && p_RetrySafeRead policy then
            match tp_Refresh with
            | None => (g, Ok response)
            | Some refresh =>
                match refresh g with
                | (g, Err _) => (g, Err ErrDependency)
                | (g, Ok freshToken) => forward_checked owner freshToken actor request g
                end
            end
          else (g, Ok response)
      end
  end.
End Service.

(** ** Who gets through *)

Section Facts.
Context `{GoLib} {G : Type} `{!ClaimsVerifier G} `{!RateLimiter G} `{!ServiceTokenProvider G} `{!UpstreamClient G}.

Lemma limited_by_none key policy (g g' : G) :
  limited_by key policy g = (g', None) <-> rl_Allow key (LimitKeyClass policy) g = (g', Ok true).
Proof.
  unfold limited_by. destruct (rl_Allow key _ g) as [g1 [[|]|e]]; split; intros E; inversion E; done.
Qed.
End Facts.

(** C20: on a protected route nobody gets through without a verified human
    token with one of the route's scopes, presented in a single Authorization
    header, and an admission by the limiter under the actor's own key; on a
    public route the limiter alone decides and no actor is made up. *)
Theorem authorized_callers_are_permitted `{GoLib} {G : Type} `{!ClaimsVerifier G} `{!RateLimiter G}
    request policy source (g g' : G) actor raw :
  Authorize request policy source g = (g', Ok (actor, raw)) ->
  match p_Auth policy with
  | AuthNone => actor = no_actor /\ raw = "" /\
      rl_Allow (limitKey request policy source) (LimitKeyClass policy) g = (g', Ok true)
  | AuthBearer => exists header verified g1,
      Values (rq_Header request) "Authorization" = [header] /\ bearerToken header = Some raw /\
      cv_Verify raw g = (g1, Ok verified) /\ actor = Normalized verified /\
      Subject actor <> "" /\ Type_ actor = "human" /\
      (p_Scopes policy = [] \/ exists s, s ∈ p_Scopes policy /\ s ∈ Scopes actor) /\
      rl_Allow (limitKeyWithActor policy source actor) (LimitKeyClass policy) g1 = (g', Ok true)
  end.
Proof.
  unfold Authorize. destruct (p_Auth policy).
  - destruct (limited_by _ _ g) as [g1 [e|]] eqn:Hl; intros [= <- <- <-].
    by apply limited_by_none in Hl.
  - destruct (Values (rq_Header request) "Authorization") as [|h [|? ?]] eqn:Hv; cbn [length Nat.eqb negb]; try done.
    assert (Get (rq_Header request) "Authorization" = h) as -> by (unfold Get; by rewrite Hv).
    destruct (bearerToken h) as [t|] eqn:Hb; [|done].
    destruct (cv_Verify t g) as [g1 [verified|e]] eqn:Hc; [|done].
    destruct (_ || _) eqn:Hbad; [done|].
    apply orb_false_iff in Hbad as [Hbad Hal%negb_false_iff].
    apply orb_false_iff in Hbad as [Hsub%String.eqb_neq Hty%negb_false_iff%String.eqb_eq].
    destruct (limited_by _ _ g1) as [g2 [e|]] eqn:Hl; intros [= <- <- <-].
    apply limited_by_none in Hl. apply Allows_spec in Hal.
    exists h, verified, g1. auto 10.
Qed.
