(* ===== verification/GatewayUpstream.v ===== *)
(** * Gateway: the client of the services behind

    [apps/gateway/internal/adapters/outbound/http/upstream.go]: the request is
    rebuilt from what the Gateway decided, sent with the service token and the
    actor's headers, and repeated once when a read got no answer. *)
From Stdlib Require Import ZArith Lia Ascii String.
From stdpp Require Import base gmap strings list.
From S2P Require Import Prelude GoStrings GoErrors GoTime GoURL GoHttp GatewayDomain GatewayService.

Open Scope string_scope.
Open Scope Z_scope.

Record HttpRequest := mkHttpRequest {
  hr_Method : string;
  hr_URL : string;
  hr_Header : Header;
  hr_Body : string
}.

(** What the outside does: whether a slot was free before the context ended,
    the context's error (true for a deadline), the peer's answer ([None]
    without one; the body [None] when it could not be read) — each by the
    event's number — and the library functions on URLs and trace headers. *)
Class UpstreamEnv := {
  slot_free : nat -> bool;
  ctx_error : nat -> option bool;
  peer : nat -> HttpRequest -> option (Z * Header * option string);
  (** [url.JoinPath], [url.Parse] and [URL.String] with the raw query. *)
  url_target : string -> string -> string -> option string;
  (** [http.NewRequestWithContext] accepts the method and the URL. *)
  request_ok : string -> string -> bool;
  (** The trace propagator's [Inject]. *)
  otel_inject : Header -> Header
}.

(** What was sent, and the number of the next event. *)
Record UpSt := mkUpSt { up_sent : list HttpRequest; up_tick : nat }.

Record Client := mkClient { c_URLs : gmap string string; c_MaxResponseSize : Z }.

Definition NewClient (urls : gmap string string) (maxResponseSize : Z) : result goerr Client :=
  if bool_decide (urls = ∅) then Err (NewErr "upstream URLs are required")
  else Ok (mkClient urls (if maxResponseSize <=? 0 then 4 * 2 ^ 20 else maxResponseSize)).

Definition safe_names : list string :=
  ["Content-Type"; "Cache-Control"; "ETag"; "Last-Modified"; "Location"; "Retry-After"].
(** [safeHeaders]: only these, under these names. *)
Definition safeHeaders (input : Header) : Header :=
  foldl (fun output name =>
           match input !! CanonicalHeaderKey name with
           | Some values => <[name := values]> output
           | None => output
           end) ∅ safe_names.

Definition classifyContextError (deadline : bool) : goerr :=
  if deadline then ErrUpstreamTimeout else ErrUpstreamUnavailable.

Section Upstream.
Context `{GoLib} `{UpstreamEnv}.

Definition set_nonempty (h : Header) (k v : string) : Header := if (v =? "")%string then h else Set_ h k v.

Definition actor_headers (h : Header) (actor : option Actor) : Header :=
  match actor with
  | None => h
  | Some a =>
      let normalized := Normalized a in
      let h := Set_ h "X-StreamWeave-Actor-ID" (Subject normalized) in
      let h := Set_ h "X-StreamWeave-Actor-Type" (Type_ normalized) in
      let h := Set_ h "X-StreamWeave-Scopes" (Join (Scopes normalized) " ") in
      set_nonempty h "X-StreamWeave-Actor-Session-ID" (SessionID normalized)
  end.

(** The headers of the request, none of them the client's own. *)
Definition request_headers (serviceToken : string) (actor : option Actor) (input : ForwardRequest) : Header :=
  let h := Set_ ∅ "Authorization" ("Bearer " +:+ serviceToken) in
  let h := Set_ h "X-Request-ID" (fr_RequestID input) in
  let h := Set_ h "X-Correlation-ID" (fr_CorrelationID input) in
  let h := set_nonempty h "Content-Type" (fr_ContentType input) in
  let h := set_nonempty h "Idempotency-Key" (fr_IdempotencyKey input) in
  actor_headers h actor.

Definition up_event (u : UpSt) : UpSt := mkUpSt (up_sent u) (S (up_tick u)).

Definition read_response (c : Client) (status : Z) (header : Header) (body : option string)
  : result goerr (option Response) :=
  match body with
  | None => Err ErrUpstreamResponse
  | Some b => if c_MaxResponseSize c <? Z.of_nat (String.length b) then Err ErrUpstreamResponse
              else Ok (Some (mkResponse status (safeHeaders header) b))
  end.

(** The attempts left: two at the start. *)
Fixpoint attempts (n : nat) (c : Client) (url serviceToken : string) (actor : option Actor)
    (input : ForwardRequest) (u : UpSt) : UpSt * result goerr (option Response) :=
  match n with
  | O => (u, Err ErrUpstreamUnavailable)
  | S n' =>
      if negb (request_ok (fr_Method input) url) then (u, Err ErrBadRequest)
      else
        let request := mkHttpRequest (fr_Method input) url
                         (otel_inject (request_headers serviceToken actor input)) (fr_Body input) in
        let answer := peer (up_tick u) request in
        let u := mkUpSt (up_sent u ++ [request])%list (S (up_tick u)) in
        match answer with
        | Some (status, header, body) => (u, read_response c status header body)
        | None =>
            match ctx_error (up_tick u) with
            | Some deadline => (up_event u, Err (classifyContextError deadline))
            | None =>
                if Nat.eqb n 2 && ((fr_Method input =? MethodGet)%string || (fr_Method input =? MethodHead)%string)
                then attempts n' c url serviceToken actor input (up_event u)
                else (up_event u, Err ErrUpstreamUnavailable)
            end
        end
  end.

Definition Client_Forward (c : Client) (owner serviceToken : string) (actor : option Actor)
    (input : ForwardRequest) (u : UpSt) : UpSt * result goerr (option Response) :=
  if (TrimSpace serviceToken =? "")%string then (u, Err ErrUpstreamUnavailable)
  else match c_URLs c !! owner with
       | None => (u, Err ErrUpstreamUnavailable)
       | Some base =>
           match url_target (trim_right_byte "/" base) (fr_Path input) (fr_RawQuery input) with
           | None => (u, Err ErrUpstreamUnavailable)
           | Some url =>
               if slot_free (up_tick u) then attempts 2 c url serviceToken actor input (up_event u)
               else (up_event u, Err (classifyContextError (default false (ctx_error (up_tick u)))))
           end
       end.
End Upstream.

(** ** The client inside the Gateway *)

(** Where a Gateway keeps the client's state. *)
Class HasUpstream (G : Type) := {
  get_up : G -> UpSt;
  set_up : UpSt -> G -> G;
  get_set_up : forall u g, get_up (set_up u g) = u
}.

Definition upstream_of `{GoLib} `{UpstreamEnv} {G} `{!HasUpstream G} (c : Client) : UpstreamClient G :=
  {| up_Forward := fun owner token actor input g =>
       let '(u, r) := Client_Forward c owner token actor input (get_up g) in (set_up u g, r) |}.

Definition is_read (m : string) : bool := (m =? MethodGet)%string || (m =? MethodHead)%string.

Section SentOnce.
Context `{GoLib} `{UpstreamEnv}.

(** What one call of the client sends: the same request at most twice, and only
    once when it is no read; an answer means it was sent. *)
Lemma attempts_sends c url tok a input : forall n u u' r,
  (n <= 2)%nat -> attempts n c url tok a input u = (u', r) ->
  exists k, up_sent u' = (up_sent u ++ repeat (mkHttpRequest (fr_Method input) url
                 (otel_inject (request_headers tok a input)) (fr_Body input)) k)%list /\
    (k <= n)%nat /\ (is_read (fr_Method input) = false -> k <= 1)%nat /\ (is_ok r = true -> 1 <= k)%nat.
Proof.
  induction n as [|n IH]; intros u u' r Hn; cbn [attempts].
  { intros [= <- <-]. exists 0%nat. cbn. rewrite app_nil_r. split_and!; done || lia. }
  destruct (request_ok _ _); cbn [negb].
  2:{ intros [= <- <-]. exists 0%nat. cbn. rewrite app_nil_r. split_and!; done || lia. }
  set (q := mkHttpRequest _ _ _ _). destruct (peer (up_tick u) q) as [[[st h] b]|].
  { intros [= <- <-]. exists 1%nat. cbn. split_and!; done || lia. }
  destruct (ctx_error _). { intros [= <- <-]. exists 1%nat. cbn. split_and!; done || lia. }
  fold (is_read (fr_Method input)). destruct (Nat.eqb (S n) 2 && is_read (fr_Method input)) eqn:Hre.
  2:{ intros [= <- <-]. exists 1%nat. cbn. split_and!; done || lia. }
  apply andb_true_iff in Hre as [Heq Hread]. intros Ha.
  apply IH in Ha as (k & Hs & Hk & _ & _); [|lia]. cbn in Hs. exists (S k). rewrite Hs, <- app_assoc. cbn.
  split_and!; [done | lia | congruence | lia].
Qed.

Lemma Client_Forward_sends c owner tok a input u u' r :
  Client_Forward c owner tok a input u = (u', r) ->
  exists k q, up_sent u' = (up_sent u ++ repeat q k)%list /\ (k <= 2)%nat /\
    hr_Method q = fr_Method input /\ hr_Body q = fr_Body input /\
    hr_Header q = otel_inject (request_headers tok a input) /\
    (is_read (fr_Method input) = false -> k <= 1)%nat /\ (is_ok r = true -> 1 <= k)%nat.
Proof.
  unfold Client_Forward.
  assert (exists k q, up_sent u = (up_sent u ++ repeat q k)%list /\ (k <= 2)%nat /\
    hr_Method q = fr_Method input /\ hr_Body q = fr_Body input /\
    hr_Header q = otel_inject (request_headers tok a input) /\
    (is_read (fr_Method input) = false -> k <= 1)%nat /\ (false = true -> 1 <= k)%nat) as Hnone.
  { exists 0%nat, (mkHttpRequest (fr_Method input) "" (otel_inject (request_headers tok a input)) (fr_Body input)).
    cbn. rewrite app_nil_r. split_and!; done || lia. }
  destruct (_ =? "")%string; [intros [= <- <-]; exact Hnone|].
  destruct (c_URLs c !! owner) as [base|]; [|intros [= <- <-]; exact Hnone].
  destruct (url_target _ _ _) as [url|]; [|intros [= <- <-]; exact Hnone].
  destruct (slot_free (up_tick u)); [|intros [= <- <-]; exact Hnone].
  intros Ha. apply attempts_sends in Ha as (k & Hs & Hk & Hr1 & Hr2); [|lia].
  eexists k, _. split_and!; [exact Hs | done | done | done | done | done | done].
Qed.
End SentOnce.

(** A request that is no read is sent to the service behind at most once,
    and exactly once when an answer came back: neither the client's retry of
    reads nor the service's retry after a refused token repeats it, whatever
    fails.  What is sent has the method and the body that were asked for. *)
Theorem mutations_are_sent_at_most_once `{GoLib} `{UpstreamEnv} {G : Type} `{!HasUpstream G}
    `{!ServiceTokenProvider G} client owner actor request policy (g g' : G) res :
  (forall g g' r, tp_Token g = (g', r) -> get_up g' = get_up g) ->
  is_read (fr_Method request) = false -> p_RetrySafeRead policy = false ->
  Forward (UpstreamClient0 := upstream_of client) owner actor request policy g = (g', res) ->
  exists sent, up_sent (get_up g') = (up_sent (get_up g) ++ sent)%list /\ (length sent <= 1)%nat /\
    (is_ok res = true -> length sent = 1%nat) /\
    Forall (fun q => hr_Method q = fr_Method request /\ hr_Body q = fr_Body request) sent.
Proof.
  intros Htok Hread Hretry. unfold Forward.
  destruct (tp_Token g) as [g1 [token|e]] eqn:Ht; apply Htok in Ht.
  2:{ intros [= <- <-]. exists []. rewrite Ht, app_nil_r. split_and!; done || (cbn; lia). }
  destruct (forward_checked owner token actor request g1) as [g2 r2] eqn:Hf.
  intros Hres.
  assert (g' = g2 /\ is_ok res = is_ok r2) as [-> Hok].
  { destruct r2; [rewrite Hretry, andb_false_r in Hres|]; by injection Hres as <- <-. }
  rewrite Hok. clear Hres Hok res. unfold forward_checked in Hf. cbn [up_Forward upstream_of] in Hf.
  destruct (Client_Forward client owner token actor request (get_up g1)) as [u r] eqn:Hc.
  apply Client_Forward_sends in Hc as (k & q & Hs & _ & Hm & Hb & _ & Hk1 & Hk2).
  specialize (Hk1 Hread). exists (repeat q k).
  assert (get_up g2 = u /\ (is_ok r2 = true -> is_ok r = true)) as [-> Hok2].
  { destruct r as [[r|]|e]; [destruct (usable_response (Some r))| |]; injection Hf as <- <-;
      split; try done; apply get_set_up. }
  rewrite repeat_length, <- Ht. split_and!; [exact Hs | lia | intros Hr; apply Hok2, Hk2 in Hr; lia |].
  clear Hs Hk1 Hk2. induction k; cbn; constructor; auto.
Qed.
