(* ===== verification/GatewayHTTP.v ===== *)
(** * Gateway: the HTTP interface

    [apps/gateway/internal/adapters/inbound/http/server.go]: routing by policy,
    validation of requests, and what the client gets to see of the services
    behind. *)
From Stdlib Require Import ZArith Lia Ascii String.
From stdpp Require Import base gmap strings list pretty.
From S2P Require Import Prelude GoStrings GoErrors GoTime GoJson GoBase64 GoURL GoHttp GatewayDomain.
From S2P Require Import GatewayService.

Open Scope string_scope.
Open Scope Z_scope.

(** ** Identifiers and paths *)

Definition orderIDPath : re :=
  Cat (Lit "/v1/orders/ord_") (Cat (Rep is_alnum 1 None) (Alt Eps (Lit "/cancel"))).
Definition idempotencyKeyPattern : re := Rep is_key_char 16 (Some 256%nat).
Definition customerIDPattern : re := Cat (Lit "usr_") (Rep is_alnum 1 None).
Definition acceptedID : re := Rep is_key_char 1 (Some 128%nat).
Definition validID (value : string) : bool := MatchString acceptedID value.

Definition routeMatches (pattern path : string) : bool :=
  if (pattern =? path)%string then true
  else if HasSuffix pattern "/{order_id}"
  then MatchString orderIDPath path && negb (HasSuffix path "/cancel")
  else if HasSuffix pattern "/{order_id}/cancel"
  then MatchString orderIDPath path && HasSuffix path "/cancel"
  else false.

(** An empty method asks for any. *)
Definition matchPolicy (policies : list RoutePolicy) (method path : string) : option RoutePolicy :=
  if negb (method =? "")%string
  then List.find (fun p => (p_Method p =? method)%string && routeMatches (p_Pattern p) path) policies
  else List.find (fun p => routeMatches (p_Pattern p) path) policies.

Definition routeOwner (route : string) : string := if HasPrefix route "/v1/orders" then "orders" else "identity".

(** ** Problems *)

Record Problem := mkProblem {
  pb_Type : string; pb_Title : string; pb_Status : Z; pb_Detail : string;
  pb_Instance : string; pb_RequestID : string
}.

(** [mapError]: status, reason, detail. *)
Definition mapError (err : goerr) : Z * string * string :=
  if errors_Is err ErrUnauthorized then (401, "unauthorized", "Authentication is required")
  else if errors_Is err ErrForbidden then (403, "forbidden", "The requested operation is not permitted")
  else if errors_Is err ErrRateLimited then (429, "rate_limited", "Too many requests")
  else if errors_Is err ErrDependency then (503, "dependency_unavailable", "A required dependency is unavailable")
  else if errors_Is err ErrUpstreamTimeout then (504, "upstream_timeout", "The upstream service did not respond in time")
  else if errors_Is err ErrUpstreamUnavailable then (503, "upstream_unavailable", "The upstream service is unavailable")
  else if errors_Is err ErrUpstreamResponse then (502, "upstream_error", "The upstream response was invalid")
  else if errors_Is err ErrPayloadTooLarge then (413, "payload_too_large", "Request body is too large")
  else if errors_Is err ErrUnsupportedMedia then (415, "unsupported_media_type", "Content-Type must be application/json")
  else (400, "bad_request", "The request is invalid").

(** The parts of package net the source of a request is read with. *)
Class NetLib := {
  split_host : string -> option string;   (** [net.SplitHostPort], the host *)
  is_ip : string -> bool                  (** [net.ParseIP] finds an address *)
}.

(** What [observability] puts in the context. *)
Record Ctx := mkCtx { requestID : string; correlationID : string }.

Section WithLib.
Context `{GoLib}.

Definition jproblem (p : Problem) : json :=
  JObj [("type", jstr (pb_Type p)); ("title", jstr (pb_Title p)); ("status", jint (pb_Status p));
        ("detail", jstr (pb_Detail p)); ("instance", jstr (pb_Instance p)); ("request_id", jstr (pb_RequestID p))].

Definition writeProblem (w : Writer) (value : Problem) : Writer :=
  encode_json (WriteHeader (set_header w "Content-Type" "application/problem+json") (pb_Status value))
    (Ok (jproblem value)).
Definition problem (w : Writer) (r : Request) (c : Ctx) (status : Z) (reason detail : string) : Writer :=
  writeProblem w (mkProblem ("https://streamweave.dev/problems/" +:+ reason) (StatusText status) status detail
                    (rq_Path r) (requestID c)).
Definition writeServiceError (w : Writer) (r : Request) (c : Ctx) (err : goerr) : Writer :=
  let '(status, reason, detail) := mapError err in
  let w := if status =? 429 then set_header w "Retry-After" "60" else w in
  problem w r c status reason detail.

(** ** Validation *)

Definition isJSONContentType (value : string) : bool :=
  let value := TrimSpace (ToLower value) in
  (value =? "application/json")%string || HasPrefix value "application/json;".

(** [validateOrderQuery]: the detail of the problem, if any. *)
Definition bad_query (r : Request) : option string :=
  let raw := TrimSpace (rq_Query r "limit") in
  if negb (raw =? "")%string &&
     match Atoi raw with Some limit => (limit <? 1) || (100 <? limit) | None => true end
  then Some "limit must be between 1 and 100"
  else if Nat.ltb 256 (String.length (rq_Query r "cursor")) then Some "cursor is too long"
  else
    let customer := TrimSpace (rq_Query r "customer_id") in
    if negb (customer =? "")%string && negb (MatchString customerIDPattern customer)
    then Some "customer_id is invalid" else None.

(** The problem's status, reason and detail, when the request is refused. *)
Definition validateRequest (r : Request) (policy : RoutePolicy) : option (Z * string * string) :=
  if (0 <? p_MaxBodyBytes policy) && (p_MaxBodyBytes policy <? rq_ContentLength r)
  then Some (413, "payload_too_large", "Request body is too large")
  else if p_RequireJSON policy && negb (isJSONContentType (Get (rq_Header r) "Content-Type"))
  then Some (415, "unsupported_media_type", "Content-Type must be application/json")
  else
    let mutation := (p_Owner policy =? "orders")%string && IsMutation policy in
    let key := TrimSpace (Get (rq_Header r) "Idempotency-Key") in
    if mutation && (key =? "")%string then Some (400, "bad_request", "Idempotency-Key is required")
    else if mutation && negb (MatchString idempotencyKeyPattern key)
    then Some (400, "bad_request", "Idempotency-Key is invalid")
    else if ((p_Pattern policy =? "/v1/orders")%string || (p_Pattern policy =? "/v1/auth/sessions")%string)
            && (rq_Method r =? MethodGet)%string
    then match bad_query r with Some d => Some (400, "bad_request", d) | None => None end
    else None.

(** [None] when the body is too large. *)
Definition readBody (r : Request) (max : Z) : option string :=
  if max <=? 0 then Some ""
  else if max <? Z.of_nat (String.length (rq_Body r)) then None else Some (rq_Body r).

Definition actorPointer (actor : Actor) : option Actor :=
  if (Subject actor =? "")%string then None else Some actor.

Definition requestSource `{NetLib} (r : Request) (trustProxy : bool) : string :=
  match split_host (rq_RemoteAddr r) with
  | Some host =>
      let forwarded := TrimSpace (hd "" (Split (Get (rq_Header r) "X-Forwarded-For") ",")) in
      if trustProxy && is_ip forwarded then forwarded else host
  | None => "unknown"
  end.

(** ** Responses *)

Definition isSafeProblemType (value : string) : bool :=
  (value =? "about:blank")%string ||
  match Parse value with
  | Some parsed => (u_Scheme parsed =? "https")%string && (u_Host parsed =? "streamweave.dev")%string &&
                   HasPrefix (u_Path parsed) "/problems/" && Nat.leb (String.length value) 256
  | None => false
  end.

Definition boundedRetryAfter (value : string) : string :=
  match Atoi (TrimSpace value) with
  | Some seconds => if (seconds <? 1) || (60 <? seconds) then "60" else Itoa seconds
  | None => "60"
  end.

Definition dec_problem (fs : list (string * json)) : option Problem :=
  type ← dec_field dec_string "" "type" fs;
  title ← dec_field dec_string "" "title" fs;
  status ← dec_field dec_int64 0 "status" fs;
  detail ← dec_field dec_string "" "detail" fs;
  inst ← dec_field dec_string "" "instance" fs;
  rid ← dec_field dec_string "" "request_id" fs;
  Some (mkProblem type title status detail inst rid).

(** [strings.Contains] *)
Fixpoint contains_bytes (l sub : list ascii) : bool :=
  String.prefix (of_bytes sub) (of_bytes l) ||
  match l with [] => false | _ :: r => contains_bytes r sub end.
Definition Contains (s sub : string) : bool := contains_bytes (bytes s) (bytes sub).

(** The problem a client sees of one the service behind reported. *)
Definition sanitized (r : Request) (c : Ctx) (status : Z) (upstream : Problem) : Problem :=
  mkProblem
    (if isSafeProblemType (pb_Type upstream) then pb_Type upstream
     else "https://streamweave.dev/problems/upstream_error")
    (if (pb_Title upstream =? "")%string || Nat.ltb 128 (String.length (pb_Title upstream)) ||
        ContainsAnyCRLF (pb_Title upstream)
     then StatusText status else pb_Title upstream)
    status
    (if (TrimSpace (pb_Detail upstream) =? "")%string || Nat.ltb 512 (String.length (pb_Detail upstream))
     then "The requested operation was rejected" else pb_Detail upstream)
    (rq_Path r) (requestID c).

Definition copy_headers (w : Writer) (h : gmap string (list string)) : Writer :=
  foldl (fun w entry => foldl (fun w v => add_header w (fst entry) v) w (snd entry)) w (map_to_list h).

Definition writeResponse (w : Writer) (r : Request) (c : Ctx) (response : Response) : Writer :=
  let status := rs_StatusCode response in
  let w := copy_headers w (rs_Header response) in
  let w := if status =? 429
           then set_header w "Retry-After" (boundedRetryAfter (Get (w_header w) "Retry-After")) else w in
  let rejected := problem w r c status "upstream_error" "The requested operation was rejected" in
  if 400 <=? status then
    if negb (Contains (ToLower (Get (w_header w) "Content-Type")) "application/problem+json") then rejected
    else match unmarshal_struct dec_problem (rs_Body response) with
         | None => rejected
         | Some upstream =>
             if Nat.ltb 512 (String.length (pb_Detail upstream)) || ContainsAnyCRLF (pb_Detail upstream)
             then rejected
             else writeProblem w (sanitized r c status upstream)
         end
  else
    let w := WriteHeader w status in
    if negb (rq_Method r =? MethodHead)%string && negb (status =? 204) then Write w (rs_Body response) else w.
End WithLib.

(** ** The server *)

Record Server := mkServer {
  sv_policies : list RoutePolicy;
  sv_demoRegistration : bool;
  sv_trustProxyHeaders : bool;
  sv_corsOrigins : list string;
  sv_openapi : option string;
  sv_nonce : option string
}.

Section Server.
Context `{GoLib} `{NetLib} {G : Type}.
Context `{!ClaimsVerifier G} `{!RateLimiter G} `{!ServiceTokenProvider G} `{!UpstreamClient G}.
Context (server : Server) (verifier_Check limiter_Check : gcall G unit).

Definition jstatus_only (status : string) : json := JObj [("status", jstr status)].
Definition health (w : Writer) (status : Z) (value : json) : Writer :=
  encode_json (WriteHeader (set_header w "Content-Type" "application/json") status) (Ok value).

Definition ready (w : Writer) (r : Request) (c : Ctx) (g : G) : G * Writer :=
  match verifier_Check g with
  | (g, Err _) => (g, problem w r c 503 "dependency_unavailable" "JWKS dependency is unavailable")
  | (g, Ok _) =>
      match limiter_Check g with
      | (g, Err _) => (g, problem w r c 503 "dependency_unavailable" "Redis dependency is unavailable")
      | (g, Ok _) => (g, health w 200 (jstatus_only "ready"))
      end
  end.

Definition openapi (w : Writer) (r : Request) (c : Ctx) : Writer :=
  match sv_openapi server with
  | None => problem w r c 503 "dependency_unavailable" "OpenAPI document unavailable"
  | Some data => Write (WriteHeader (set_header w "Content-Type" "application/yaml") 200) data
  end.

(** The page with its double quotes, written here as tildes. *)
Definition quoted (s : string) : string :=
  of_bytes (map (fun c => if (c =? "~")%char then "034"%char else c) (bytes s)).
Definition docs (w : Writer) (r : Request) (c : Ctx) : Writer :=
  match sv_nonce server with
  | None => problem w r c 500 "internal_error" "Unable to initialize API documentation"
  | Some bytes_ =>
      let nonce := RawURLEncode bytes_ in
      let w := set_header w "Content-Type" "text/html; charset=utf-8" in
      let w := set_header w "Content-Security-Policy"
        ("default-src 'none'; style-src https://unpkg.com 'unsafe-inline'; script-src https://unpkg.com 'nonce-" +:+ nonce
         +:+ "'; img-src https://unpkg.com data:; connect-src 'self'; base-uri 'none'; frame-ancestors 'none'") in
      let w := set_header w "X-Content-Type-Options" "nosniff" in
      let w := set_header w "Referrer-Policy" "no-referrer" in
      let w := set_header w "Cache-Control" "no-store" in
      Write w (quoted "<!doctype html><html lang=~en~><head><meta charset=~utf-8~><meta name=~viewport~ content=~width=device-width, initial-scale=1~><title>StreamWeave Gateway API</title><link rel=~stylesheet~ href=~https://unpkg.com/swagger-ui-dist@5/swagger-ui.css~></head><body><div id=~swagger-ui~></div><script src=~https://unpkg.com/swagger-ui-dist@5/swagger-ui-bundle.js~></script><script nonce=~"
        +:+ nonce +:+ quoted "~>window.onload=()=>window.ui=SwaggerUIBundle({url:'/v1/openapi.yaml',dom_id:'#swagger-ui',deepLinking:true,displayRequestDuration:true,persistAuthorization:false,filter:true,tryItOutEnabled:true});</script></body></html>")
  end.

Definition not_allowed (w : Writer) (r : Request) (c : Ctx) : Writer :=
  problem w r c 405 "method_not_allowed" "Method not allowed".
Definition get_only (h : G -> G * Writer) (w : Writer) (r : Request) (c : Ctx) (g : G) : G * Writer :=
  if negb (rq_Method r =? MethodGet)%string then (g, not_allowed w r c) else h g.

Definition forward_request (r : Request) (c : Ctx) (policy : RoutePolicy) (body : string) : ForwardRequest :=
  mkForward (rq_Method r) (rq_Path r) (p_Pattern policy) (rq_RawQuery r) body
    (Get (rq_Header r) "Content-Type") (requestID c) (correlationID c) (Get (rq_Header r) "Idempotency-Key").

(** A request whose route is known. *)
Definition proxied (policy : RoutePolicy) (w : Writer) (r : Request) (c : Ctx) (g : G) : G * Writer :=
  match validateRequest r policy with
  | Some (status, reason, detail) => (g, problem w r c status reason detail)
  | None =>
      match Authorize r policy (requestSource r (sv_trustProxyHeaders server)) g with
      | (g, Err err) => (g, writeServiceError w r c err)
      | (g, Ok (actor, _)) =>
          match readBody r (p_MaxBodyBytes policy) with
          | None => (g, problem w r c 413 "payload_too_large" "Request body is too large")
          | Some body =>
              match Forward (p_Owner policy) (actorPointer actor) (forward_request r c policy body) policy g with
              | (g, Err err) => (g, writeServiceError w r c err)
              | (g, Ok response) => (g, writeResponse w r c response)
              end
          end
      end
  end.

Definition route (w : Writer) (r : Request) (c : Ctx) (g : G) : G * Writer :=
  let path := rq_Path r in
  if (path =? "/health/live")%string then get_only (fun g => (g, health w 200 (jstatus_only "ok"))) w r c g
  else if (path =? "/health/ready")%string then get_only (ready w r c) w r c g
  else if (path =? "/v1/docs")%string then get_only (fun g => (g, docs w r c)) w r c g
  else if (path =? "/v1/openapi.yaml")%string then get_only (fun g => (g, openapi w r c)) w r c g
  else match matchPolicy (sv_policies server) (rq_Method r) path with
       | None =>
           match matchPolicy (sv_policies server) "" path with
           | Some _ => (g, not_allowed w r c)
           | None => (g, problem w r c 404 "not_found" "Route not found")
           end
       | Some policy =>
           if (p_Pattern policy =? "/.well-known/register")%string && negb (sv_demoRegistration server)
           then (g, problem w r c 404 "not_found" "Route not found")
           else proxied policy w r c g
       end.

Definition isKnownRoute (path : string) : bool :=
  existsb (String.eqb path) ["/metrics"; "/health/live"; "/health/ready"; "/v1/docs"; "/v1/openapi.yaml"] ||
  bool_decide (is_Some (matchPolicy (sv_policies server) "" path)).

Definition cors (next : Writer -> Request -> Ctx -> G -> G * Writer) (w : Writer) (r : Request) (c : Ctx) (g : G)
  : G * Writer :=
  let origin := TrimSpace (Get (rq_Header r) "Origin") in
  if (origin =? "")%string then next w r c g
  else if bool_decide (origin ∈ sv_corsOrigins server) then
    let w := set_header w "Access-Control-Allow-Origin" origin in
    let w := set_header w "Vary" "Origin" in
    let w := set_header w "Access-Control-Allow-Credentials" "true" in
    if (rq_Method r =? MethodOptions)%string && isKnownRoute (rq_Path r) then
      let w := set_header w "Access-Control-Allow-Methods" "GET,POST,OPTIONS" in
      let w := set_header w "Access-Control-Allow-Headers"
                 "Authorization,Content-Type,Idempotency-Key,X-Request-ID,X-Correlation-ID" in
      (g, WriteHeader w 204)
    else next w r c g
  else if (rq_Method r =? MethodOptions)%string
  then (g, problem w r c 403 "forbidden" "Origin is not allowed")
  else next w r c g.

(** [observability]; [fresh] is what [makeRequestID] would return. *)
Definition request_ctx (r : Request) (fresh : string) : Ctx :=
  let id := Get (rq_Header r) "X-Request-ID" in
  let id := if validID id then id else fresh in
  let correlation := Get (rq_Header r) "X-Correlation-ID" in
  mkCtx id (if validID correlation then correlation else id).
Definition serve (fresh : string) (r : Request) (g : G) : G * Writer :=
  let c := request_ctx r fresh in
  let w := set_header (set_header (new_writer ∅) "X-Request-ID" (requestID c))
             "X-Correlation-ID" (correlationID c) in
  cors route w r c g.
End Server.

(** [NewServer]: the table of policies and the configured origins. *)
Definition NewServer `{GoLib} (demoRegistration trustProxyHeaders : bool) (corsOrigins : list string)
    (openapi_doc nonce : option string) : Server :=
  mkServer DefaultPolicies demoRegistration trustProxyHeaders
    (List.filter (fun o => negb (o =? "")%string) (map TrimSpace corsOrigins)) openapi_doc nonce.
