(* ===== verification/GatewayHTTPFacts.v ===== *)
(** * Gateway: what the HTTP interface guarantees

    Nothing is sent to a service behind that was not routed by a single policy,
    validated and authorized; and an error of a service behind reaches the
    client only in a form the Gateway controls. *)
From Stdlib Require Import ZArith Lia Ascii String.
From stdpp Require Import base gmap strings list pretty.
From S2P Require Import Prelude GoStrings GoErrors GoTime GoJson GoBase64 GoURL GoHttp GatewayDomain.
From S2P Require Import GatewayService GatewayUpstream GatewayHTTP.

Open Scope string_scope.
Open Scope Z_scope.

(** ** Routing *)

Definition order_pattern := "/v1/orders/{order_id}".
Definition cancel_pattern := "/v1/orders/{order_id}/cancel".
Definition literal_pattern (pat : string) : bool :=
  negb (HasSuffix pat "/{order_id}") && negb (HasSuffix pat "/{order_id}/cancel").

Lemma patterns_known p :
  p ∈ DefaultPolicies ->
  literal_pattern (p_Pattern p) = true \/ p_Pattern p = order_pattern \/ p_Pattern p = cancel_pattern.
Proof.
  intros Hp. assert (Forall (fun p => literal_pattern (p_Pattern p) = true \/ p_Pattern p = order_pattern \/
    p_Pattern p = cancel_pattern) DefaultPolicies) as Hall.
  { refine (bool_decide_unpack _ _). vm_compute. exact I. }
  exact (proj1 (Forall_forall _ _) Hall p Hp).
Qed.
Lemma no_pattern_is_an_order p : p ∈ DefaultPolicies -> MatchString orderIDPath (p_Pattern p) = false.
Proof.
  intros Hp. assert (Forall (fun p => MatchString orderIDPath (p_Pattern p) = false) DefaultPolicies) as Hall.
  { refine (bool_decide_unpack _ _). vm_compute. exact I. }
  exact (proj1 (Forall_forall _ _) Hall p Hp).
Qed.

Lemma routeMatches_cases p path :
  p ∈ DefaultPolicies -> routeMatches (p_Pattern p) path = true ->
  path = p_Pattern p \/
  (MatchString orderIDPath path = true /\
   p_Pattern p = if HasSuffix path "/cancel" then cancel_pattern else order_pattern).
Proof.
  intros Hp. unfold routeMatches.
  destruct (String.eqb_spec (p_Pattern p) path) as [Heq|_]; [auto|].
  destruct (patterns_known p Hp) as [Hl|[-> | ->]].
  - unfold literal_pattern in Hl. apply andb_true_iff in Hl as [H1%negb_true_iff H2%negb_true_iff].
    by rewrite H1, H2.
  - change (HasSuffix order_pattern "/{order_id}") with true. cbv iota.
    intros [Hm Hc%negb_true_iff]%andb_true_iff. right. by rewrite Hc.
  - change (HasSuffix cancel_pattern "/{order_id}") with false.
    change (HasSuffix cancel_pattern "/{order_id}/cancel") with true. cbv iota.
    intros [Hm Hc]%andb_true_iff. right. by rewrite Hc.
Qed.

Lemma same_pattern p q path :
  p ∈ DefaultPolicies -> q ∈ DefaultPolicies ->
  routeMatches (p_Pattern p) path = true -> routeMatches (p_Pattern q) path = true ->
  p_Pattern p = p_Pattern q.
Proof.
  intros Hp Hq [Hp1|[Hp1 Hp2]]%routeMatches_cases [Hq1|[Hq1 Hq2]]%routeMatches_cases; try done; try congruence.
  - subst path. by rewrite no_pattern_is_an_order in Hq1.
  - subst path. by rewrite no_pattern_is_an_order in Hp1.
Qed.

Lemma policies_by_method_and_pattern p q :
  p ∈ DefaultPolicies -> q ∈ DefaultPolicies -> p_Method p = p_Method q -> p_Pattern p = p_Pattern q -> p = q.
Proof.
  intros Hp Hq Hm Hpat.
  assert (NoDup (map (fun p => (p_Method p, p_Pattern p)) DefaultPolicies)) as Hnd.
  { refine (bool_decide_unpack _ _). vm_compute. exact I. }
  apply list_elem_of_lookup in Hp as [i Hi]. apply list_elem_of_lookup in Hq as [j Hj].
  assert (i = j) as <-; [|congruence].
  eapply NoDup_lookup; [exact Hnd| |]; rewrite list_lookup_fmap.
  - rewrite Hi. reflexivity.
  - rewrite Hj. cbn. by rewrite Hm, Hpat.
Qed.

Lemma matchPolicy_some policies method path p :
  method <> "" -> matchPolicy policies method path = Some p ->
  p ∈ policies /\ p_Method p = method /\ routeMatches (p_Pattern p) path = true.
Proof.
  intros Hm. unfold matchPolicy. rewrite (proj2 (String.eqb_neq method "")) by done. cbn [negb].
  intros [Hin [He%String.eqb_eq Hr]%andb_true_iff]%find_some.
  split; [by apply list_elem_of_In | done].
Qed.

(** ** What is sent *)

(** The components that are not the client of the services behind leave what
    was sent alone. *)
Class Frames (G : Type) `{!HasUpstream G} `{!ClaimsVerifier G} `{!RateLimiter G} `{!ServiceTokenProvider G} := {
  verify_frame : forall t g g' r, cv_Verify t g = (g', r) -> get_up g' = get_up g;
  allow_frame : forall k c g g' r, rl_Allow k c g = (g', r) -> get_up g' = get_up g
}.

Section Sent.
Context `{GoLib} `{NetLib} `{UpstreamEnv} {G : Type} `{Frames G}.

Lemma limited_by_frame k p (g g' : G) r : limited_by k p g = (g', r) -> get_up g' = get_up g.
Proof.
  unfold limited_by. destruct (rl_Allow k _ g) as [g1 x] eqn:Ha. apply allow_frame in Ha.
  destruct x as [[]|]; by intros [= <- <-].
Qed.
Lemma Authorize_frame r p src (g g' : G) res : Authorize r p src g = (g', res) -> get_up g' = get_up g.
Proof.
  unfold Authorize. destruct (p_Auth p).
  - destruct (limited_by _ _ g) as [g1 x] eqn:Hl. apply limited_by_frame in Hl. destruct x; by intros [= <- <-].
  - destruct (negb _); [by intros [= <- <-]|]. destruct (bearerToken _) as [raw|]; [|by intros [= <- <-]].
    destruct (cv_Verify raw g) as [g1 x] eqn:Hv. apply verify_frame in Hv.
    destruct x; [|by intros [= <- <-]]. destruct (_ || _); [by intros [= <- <-]|].
    destruct (limited_by _ _ g1) as [g2 y] eqn:Hl. apply limited_by_frame in Hl.
    destruct y; intros [= <- <-]; congruence.
Qed.
End Sent.

Lemma readBody_bounded r max body : readBody r max = Some body ->
  (max <= 0 -> body = "") /\ (0 < max -> body = rq_Body r /\ Z.of_nat (String.length body) <= max).
Proof.
  unfold readBody. destruct (Z.leb_spec max 0); [intros [= <-]; split; [done | lia]|].
  destruct (Z.ltb_spec max (Z.of_nat (String.length (rq_Body r)))); [done|]. intros [= <-]. split; [lia | done].
Qed.

(** C19: whatever the client sends, a service behind only sees a request that
    exactly one policy of the table routes, that passed the policy's validation
    and was authorized by it, with the client's own body where the policy takes
    one, no longer than the policy allows, and none otherwise; and with the actor
    that was authorized and nobody else. *)
Theorem nothing_unchecked_is_forwarded `{GoLib} `{NetLib} `{UpstreamEnv} {G : Type} `{Frames G} client
    demo trust origins doc nonce check1 check2 w r c (g g' : G) w' :
  let server := NewServer demo trust origins doc nonce in
  (forall g g' x, check1 g = (g', x) -> get_up g' = get_up g) ->
  (forall g g' x, check2 g = (g', x) -> get_up g' = get_up g) ->
  rq_Method r <> "" ->
  route (UpstreamClient0 := upstream_of client) server check1 check2 w r c g = (g', w') ->
  get_up g' <> get_up g ->
  exists policy actor raw g1 body,
    policy ∈ DefaultPolicies /\ p_Method policy = rq_Method r /\
    routeMatches (p_Pattern policy) (rq_Path r) = true /\
    (forall q, q ∈ DefaultPolicies -> p_Method q = rq_Method r ->
       routeMatches (p_Pattern q) (rq_Path r) = true -> q = policy) /\
    validateRequest r policy = None /\
    Authorize r policy (requestSource r trust) g = (g1, Ok (actor, raw)) /\
    (p_MaxBodyBytes policy <= 0 -> body = "") /\
    (0 < p_MaxBodyBytes policy -> body = rq_Body r /\ Z.of_nat (String.length body) <= p_MaxBodyBytes policy) /\
    get_up g1 = get_up g /\
    g' = fst (Forward (UpstreamClient0 := upstream_of client) (p_Owner policy) (actorPointer actor)
                (forward_request r c policy body) policy g1).
Proof.
  intros server Hc1 Hc2 Hm. unfold route.
  assert (forall h : G -> G * Writer, (forall g g' x, h g = (g', x) -> get_up g' = get_up g) ->
    get_only h w r c g = (g', w') -> get_up g' <> get_up g -> False) as Hpages.
  { intros h Hh. unfold get_only. destruct (negb _); [by intros [= <- <-]|]. intros Hx Hne. by apply Hh in Hx. }
  destruct (_ =? "/health/live")%string.
  { intros Hr Hne. exfalso. revert Hr Hne. apply Hpages. by intros ? ? ? [= <- <-]. }
  destruct (_ =? "/health/ready")%string.
  { intros Hr Hne. exfalso. revert Hr Hne. apply Hpages. intros g0 g0' x. unfold ready.
    destruct (check1 g0) as [g1 x1] eqn:H1'. apply Hc1 in H1'. destruct x1; [|intros [= <- <-]; congruence].
    destruct (check2 g1) as [g2 x2] eqn:H2'. apply Hc2 in H2'. destruct x2; intros [= <- <-]; congruence. }
  destruct (_ =? "/v1/docs")%string.
  { intros Hr Hne. exfalso. revert Hr Hne. apply Hpages. by intros ? ? ? [= <- <-]. }
  destruct (_ =? "/v1/openapi.yaml")%string.
  { intros Hr Hne. exfalso. revert Hr Hne. apply Hpages. by intros ? ? ? [= <- <-]. }
  destruct (matchPolicy _ (rq_Method r) _) as [policy|] eqn:Hp.
  2:{ destruct (matchPolicy _ "" _); by intros [= <- <-]. }
  destruct (_ && _); [by intros [= <- <-]|].
  apply matchPolicy_some in Hp as (Hin & Hpm & Hpr); [|done]. unfold proxied.
  destruct (validateRequest r policy) as [[[st re] de]|] eqn:Hv; [by intros [= <- <-]|].
  destruct (Authorize r policy _ g) as [g1 a] eqn:Ha. pose proof (Authorize_frame _ _ _ _ _ _ Ha) as Hf.
  destruct a as [[actor raw]|e]; [|intros [= <- <-]; congruence].
  destruct (readBody r _) as [body|] eqn:Hb; [|intros [= <- <-]; congruence].
  apply readBody_bounded in Hb as [Hb0 Hb1].
  intros Hx _. exists policy, actor, raw, g1, body. split_and!; try done.
  - intros q Hq Hqm Hqr. apply policies_by_method_and_pattern; [done | done | congruence |].
    by eapply same_pattern.
  - destruct (Forward _ _ _ _ g1) as [g2 []]; by injection Hx as <- <-.
Qed.

(** ** What a client sees of an error behind *)

Section Sanitized.
Context `{GoLib}.

(** A type a client may be shown: the empty one, or a short address of the
    platform's problems. *)
Definition known_type (value : string) : Prop :=
  value = "about:blank" \/
  exists u, Parse value = Some u /\ u_Scheme u = "https" /\ u_Host u = "streamweave.dev" /\
    HasPrefix (u_Path u) "/problems/" = true /\ (String.length value <= 256)%nat.
Lemma isSafeProblemType_known value : isSafeProblemType value = true <-> known_type value.
Proof.
  unfold isSafeProblemType, known_type. rewrite orb_true_iff, String.eqb_eq. apply or_iff_compat_l.
  destruct (Parse value) as [u|]; [|split; [done | by intros (? & [=] & _)]].
  rewrite !andb_true_iff, !String.eqb_eq, Nat.leb_le. split.
  - intros [[[? ?] ?] ?]. by exists u.
  - by intros (u' & [= <-] & ? & ? & ? & ?).
Qed.

(** A text of one line and at most so many bytes. *)
Definition short_line (max : nat) (text : string) : Prop :=
  ContainsAnyCRLF text = false /\ (String.length text <= max)%nat.

(** A problem the Gateway may show for a request. *)
Record safe_problem (r : Request) (c : Ctx) (status : Z) (p : Problem) : Prop := {
  sp_status : pb_Status p = status;
  sp_type : known_type (pb_Type p);
  sp_title : short_line 128 (pb_Title p);
  sp_detail : short_line 512 (pb_Detail p);
  sp_instance : pb_Instance p = rq_Path r;
  sp_request : pb_RequestID p = requestID c
}.

(** The answer is that problem and says so. *)
Definition answers_problem (w : Writer) (p : Problem) : Prop :=
  w_body w = json_text (jproblem p) +:+ String "010" "" /\
  exists h, w_sent w = Some (pb_Status p, h) /\ Get h "Content-Type" = "application/problem+json".

Lemma StatusText_safe code : short_line 128 (StatusText code).
Proof.
  unfold StatusText. destruct (List.find _ status_texts) as [[n t]|] eqn:Hf; [|split; [done | cbn; lia]].
  apply find_some in Hf as [Hin _]. apply list_elem_of_In in Hin.
  assert (Forall (fun p => short_line 128 (snd p)) status_texts) as Hall.
  { unfold short_line. refine (bool_decide_unpack _ _). vm_compute. exact I. }
  exact (proj1 (Forall_forall _ _) Hall _ Hin).
Qed.

Lemma rejected_is_safe r c status :
  safe_problem r c status
    (mkProblem "https://streamweave.dev/problems/upstream_error" (StatusText status) status
       "The requested operation was rejected" (rq_Path r) (requestID c)).
Proof.
  split; try done; [by apply isSafeProblemType_known | apply StatusText_safe|].
  split; [done|]. apply Nat.leb_le. vm_compute. reflexivity.
Qed.

Lemma sanitized_is_safe r c status up :
  Nat.ltb 512 (String.length (pb_Detail up)) = false -> ContainsAnyCRLF (pb_Detail up) = false ->
  safe_problem r c status (sanitized r c status up).
Proof.
  intros Hlen Hcr. pose proof (sp_detail _ _ _ _ (rejected_is_safe r c status)) as Hrej. cbn in Hrej.
  split; try done; unfold sanitized; cbn [pb_Type pb_Title pb_Detail].
  - apply isSafeProblemType_known. by destruct (isSafeProblemType (pb_Type up)) eqn:Ht.
  - destruct (_ || ContainsAnyCRLF (pb_Title up)) eqn:Ht; [apply StatusText_safe|].
    apply orb_false_iff in Ht as [[_ Hn]%orb_false_iff Ht]. split; [done | by apply Nat.ltb_ge].
  - rewrite Hlen, orb_false_r. destruct (_ =? "")%string; [exact Hrej|].
    split; [done|]. by apply Nat.ltb_ge.
Qed.
(** A problem that may be shown as it is. *)
Lemma sanitized_keeps r c status up :
  known_type (pb_Type up) -> pb_Title up <> "" -> short_line 128 (pb_Title up) ->
  TrimSpace (pb_Detail up) <> "" -> short_line 512 (pb_Detail up) ->
  sanitized r c status up = mkProblem (pb_Type up) (pb_Title up) status (pb_Detail up) (rq_Path r) (requestID c).
Proof.
  intros Ht%isSafeProblemType_known Htn%String.eqb_neq [Htc Htl%Nat.ltb_ge] Hdn%String.eqb_neq [_ Hdl%Nat.ltb_ge].
  unfold sanitized. by rewrite Ht, Htn, Htl, Htc, Hdn, Hdl.
Qed.

Lemma writeProblem_answers w p : w_sent w = None -> w_body w = "" -> answers_problem (writeProblem w p) p.
Proof.
  intros Hn Hb. unfold writeProblem, answers_problem, encode_json, Write, WriteHeader. cbn. rewrite Hn. cbn.
  rewrite Hb. split; [done|]. eexists. split; [reflexivity | apply Get_Set].
Qed.

Lemma add_headers_pending name vs w :
  w_sent (foldl (fun w v => add_header w name v) w vs) = w_sent w /\
  w_body (foldl (fun w v => add_header w name v) w vs) = w_body w.
Proof. revert w. induction vs as [|v vs IH]; intros w; cbn; [done|]. by destruct (IH (add_header w name v)). Qed.
Lemma copy_headers_pending w h :
  w_sent (copy_headers w h) = w_sent w /\ w_body (copy_headers w h) = w_body w.
Proof.
  unfold copy_headers. generalize (map_to_list h). intros l. revert w.
  induction l as [|e l IH]; intros w; cbn [foldl]; [done|].
  destruct (IH (foldl (fun w v => add_header w e.1 v) w e.2)) as [-> ->]. apply add_headers_pending.
Qed.

Lemma boundedRetryAfter_range v : exists n, 1 <= n <= 60 /\ boundedRetryAfter v = Itoa n.
Proof.
  unfold boundedRetryAfter. destruct (Atoi _) as [n|]; [|exists 60; split; [lia | done]].
  destruct (Z.ltb_spec n 1), (Z.ltb_spec 60 n); cbn; [exists 60 | exists 60 | exists 60 | exists n]; split; done || lia.
Qed.
(** The headers that go with an error: those of the response, with the wait
    bounded. *)
Definition error_headers (w : Writer) (response : Response) : Writer :=
  let w := copy_headers w (rs_Header response) in
  if rs_StatusCode response =? 429
  then set_header w "Retry-After" (boundedRetryAfter (Get (w_header w) "Retry-After")) else w.

Record pending_error (w2 : Writer) (response : Response) (contentType : string) : Prop := {
  pe_sent : w_sent w2 = None;
  pe_body : w_body w2 = "";
  pe_type : Get (w_header w2) "Content-Type" = contentType;
  pe_wait : rs_StatusCode response = 429 ->
    exists n, 1 <= n <= 60 /\ Get (w_header w2) "Retry-After" = Itoa n
}.
Lemma error_headers_pending w response :
  w_sent w = None -> w_body w = "" ->
  pending_error (error_headers w response) response
    (Get (w_header (copy_headers w (rs_Header response))) "Content-Type").
Proof.
  intros Hn Hb. destruct (copy_headers_pending w (rs_Header response)) as [Hcn Hcb].
  unfold error_headers. set (w1 := copy_headers w (rs_Header response)) in *. rewrite Hn in Hcn. rewrite Hb in Hcb.
  destruct (Z.eqb_spec (rs_StatusCode response) 429) as [He|]; [|by split].
  split; [done | done | |].
  - cbn. rewrite Get_Set_ne; [done|]. vm_compute. discriminate.
  - intros _. destruct (boundedRetryAfter_range (Get (w_header w1) "Retry-After")) as (n & Hr & Hv).
    exists n. split; [done|]. cbn. by rewrite Get_Set.
Qed.

(** Such an error shown as a problem. *)
Lemma shown_problem r c w2 response t p :
  pending_error w2 response t -> safe_problem r c (rs_StatusCode response) p ->
  answers_problem (writeProblem w2 p) p /\
  (rs_StatusCode response = 429 ->
   exists h n, w_sent (writeProblem w2 p) = Some (429, h) /\ 1 <= n <= 60 /\ Get h "Retry-After" = Itoa n).
Proof.
  intros [Hn Hb _ Hw] Hp. split; [by apply writeProblem_answers|].
  intros H429. destruct (Hw H429) as (n & Hr & Hg).
  exists (Set_ (w_header w2) "Content-Type" "application/problem+json"), n. split_and!; [|lia|lia|].
  - unfold writeProblem. apply encode_json_sent. rewrite WriteHeader_sent by done.
    by rewrite (sp_status _ _ _ _ Hp), H429.
  - rewrite Get_Set_ne; [done|]. vm_compute. discriminate.
Qed.
End Sanitized.

(** C24: an error of a service behind is shown in the Gateway's terms: the same
    status, a problem document of a known type (about:blank or a https address of
    at most 256 bytes under streamweave.dev/problems/), a title of one line of at
    most 128 bytes, a detail of one line of at most 512, and the request's own
    path and id; a problem document that is within these bounds keeps its type,
    title and detail; and the wait a client is told after too many requests is
    between 1 and 60 seconds. *)
Theorem upstream_errors_are_sanitized `{GoLib} w r c response :
  w_sent w = None -> w_body w = "" -> 400 <= rs_StatusCode response ->
  let w' := writeResponse w r c response in
  (exists p, safe_problem r c (rs_StatusCode response) p /\ answers_problem w' p) /\
  (forall up,
     Contains (ToLower (Get (w_header (copy_headers w (rs_Header response))) "Content-Type")) "application/problem+json" = true ->
     unmarshal_struct dec_problem (rs_Body response) = Some up ->
     known_type (pb_Type up) -> pb_Title up <> "" -> short_line 128 (pb_Title up) ->
     TrimSpace (pb_Detail up) <> "" -> short_line 512 (pb_Detail up) ->
     answers_problem w' (mkProblem (pb_Type up) (pb_Title up) (rs_StatusCode response) (pb_Detail up)
                           (rq_Path r) (requestID c))) /\
  (rs_StatusCode response = 429 ->
   exists h n, w_sent w' = Some (429, h) /\ 1 <= n <= 60 /\ Get h "Retry-After" = Itoa n).
Proof.
  intros Hn Hb Hst. pose proof (error_headers_pending w response Hn Hb) as Hpe. unfold writeResponse.
  fold (error_headers w response). rewrite (proj2 (Z.leb_le _ _) Hst), (pe_type _ _ _ Hpe). cbv zeta.
  assert (forall p, safe_problem r c (rs_StatusCode response) p -> forall (shown : Problem -> Prop) (as_is : Problem -> Problem),
    (forall up, shown up -> as_is up = p) -> let w' := writeProblem (error_headers w response) p in
    (exists q, safe_problem r c (rs_StatusCode response) q /\ answers_problem w' q) /\
    (forall up, shown up -> answers_problem w' (as_is up)) /\
    (rs_StatusCode response = 429 -> exists h n, w_sent w' = Some (429, h) /\ 1 <= n <= 60 /\
       Get h "Retry-After" = Itoa n)) as Hgo.
  { intros p Hp shown as_is Hshown w'. destruct (shown_problem r c _ _ _ p Hpe Hp) as [Ha Hw].
    split_and!; [by exists p | intros up Hup; by rewrite (Hshown up Hup) | exact Hw]. }
  pose proof (rejected_is_safe r c (rs_StatusCode response)) as Hrej.
  destruct (Contains _ _); cbn [negb].
  2:{ destruct (Hgo _ Hrej (fun _ => False) id) as (? & _ & ?); [done|]. split_and!; [done | by intros ? [=] | done]. }
  destruct (unmarshal_struct _ _) as [up|].
  2:{ destruct (Hgo _ Hrej (fun _ => False) id) as (? & _ & ?); [done|]. split_and!; [done | by intros ? _ [=] | done]. }
  destruct (Nat.ltb 512 _ || _) eqn:Hbad.
  { destruct (Hgo _ Hrej (fun _ => False) id) as (? & _ & ?); [done|]. split_and!; [done | | done].
    intros ? _ [= <-] _ _ _ _ [Hcr Hlen%Nat.ltb_ge]. by rewrite Hcr, Hlen in Hbad. }
  apply orb_false_iff in Hbad as [Hlen Hcr].
  destruct (Hgo _ (sanitized_is_safe r c (rs_StatusCode response) up Hlen Hcr)
    (fun x => x = up /\ sanitized r c (rs_StatusCode response) up = mkProblem (pb_Type up) (pb_Title up)
      (rs_StatusCode response) (pb_Detail up) (rq_Path r) (requestID c))
    (fun x => mkProblem (pb_Type x) (pb_Title x) (rs_StatusCode response) (pb_Detail x) (rq_Path r) (requestID c)))
    as (? & Hkeep & ?); [by intros ? [-> ->]|]. split_and!; [done | | done].
  intros ? _ [= <-] ? ? ? ? ?. apply Hkeep. split; [done|]. by apply sanitized_keeps.
Qed.
