(* ===== verification/GatewayLimiter.v ===== *)
(** * Gateway: the rate limiter

    [apps/gateway/internal/adapters/outbound/redis/limiter.go]: fixed windows
    counted in Redis by a script.  Redis is a parameter: the class [Redis] is
    the commands the adapter uses, [RedisLaws] what they are documented to do.
    The Gateway's clock and the server's are one clock, in whole seconds. *)
From Stdlib Require Import ZArith Lia Ascii String Sorted.
From stdpp Require Import base gmap strings list pretty.
From S2P Require Import Prelude GoStrings GoErrors GoTime GoBase64 GoCrypto GatewayDomain.
From S2P Require Import GatewayService.

Open Scope string_scope.
Open Scope Z_scope.

Record LimitClass := mkClass { Limit : Z; Window : Z; Burst : Z; BurstWindow : Z }.

Definition classes : gmap string LimitClass := {[
  "auth-write" := mkClass 10 60 5 1;
  "demo-registration" := mkClass 5 60 2 1;
  "authenticated-read" := mkClass 120 60 30 1;
  "order-read" := mkClass 120 60 30 1;
  "order-write" := mkClass 30 60 10 1
]}.

(** Commands at a time of the server's clock, in seconds. *)
Class Redis (R : Type) := {
  redis_ping : R -> option goerr;               (** [EVAL "return redis.call('PING')"] *)
  redis_eval : R -> option goerr;               (** what stops [EVAL] of the script *)
  redis_incr : Z -> string -> R -> R * Z;       (** [INCR] *)
  redis_expire : Z -> string -> Z -> R -> R     (** [EXPIRE] *)
}.

Definition rate_prefix : string := "streamweave:gateway:ratelimit:v1".

Section Limiter.
Context `{Crypto} {R : Type} `{!Redis R}.

(** The Lua script: both counters are incremented, then compared. *)
Definition allow_script (now : Z) (windowKey burstKey : string) (c : LimitClass) (r : R) : R * bool :=
  let '(r, first) := redis_incr now windowKey r in
  let r := if first =? 1 then redis_expire now windowKey (Window c) r else r in
  let '(r, second) := redis_incr now burstKey r in
  let r := if second =? 1 then redis_expire now burstKey (BurstWindow c) r else r in
  (r, negb ((Limit c <? first) || (Burst c <? second))).

Definition limiter_Check : gcall R unit := fun r =>
  match redis_ping r with Some e => (r, Err e) | None => (r, Ok tt) end.

Definition digest (value : string) : string := HexEncode (sha256 value).
Definition window_key (key : string) (c : LimitClass) (now : Z) : string :=
  rate_prefix +:+ ":" +:+ digest key +:+ ":" +:+ pretty (Z.quot now (Window c)).
Definition burst_key (key : string) (c : LimitClass) (now : Z) : string :=
  rate_prefix +:+ ":burst:" +:+ digest key +:+ ":" +:+ pretty (Z.quot now (BurstWindow c)).

(** [%q] of a class name, which has no character to escape. *)
Definition quoted (s : string) : string :=
  let q := String (ascii_of_nat 34) EmptyString in q +:+ s +:+ q.

(** [Allow] at the Gateway's clock [now], in seconds. *)
Definition limiter_Allow (now : Z) (key className : string) : gcall R bool := fun r =>
  if (className =? "health")%string || (className =? "metrics")%string then (r, Ok true)
  else match classes !! className with
       | None => (r, Err (NewErr ("unknown gateway rate-limit class " +:+ quoted className)))
       | Some class =>
           match limiter_Check r with
           | (r, Err e) => (r, Err e)
           | (r, Ok _) =>
               match redis_eval r with
               | Some e => (r, Err e)
               | None =>
                   let '(r, ok) := allow_script now (window_key key class now) (burst_key key class now) class r in
                   (r, Ok ok)
               end
           end
       end.
End Limiter.

(** ** What Redis promises *)

(** [live r now k]: the value of [k] at [now], if it has not expired. *)
Class RedisLaws (R : Type) `{!Redis R} := {
  live : R -> Z -> string -> option (Z * option Z);   (** the value and when it expires *)
  incr_self : forall now k r r' n, redis_incr now k r = (r', n) ->
    n = match live r now k with Some (v, _) => v + 1 | None => 1 end /\
    forall t, now <= t -> live r' t k =
      match live r now k with
      | Some (v, Some e) => if t <? e then Some (v + 1, Some e) else None
      | Some (v, None) => Some (v + 1, None)
      | None => Some (1, None)
      end;
  incr_other : forall now k k' r, k' <> k -> forall t, live (fst (redis_incr now k r)) t k' = live r t k';
  expire_self : forall now k s r v e, live r now k = Some (v, e) ->
    forall t, now <= t -> live (redis_expire now k s r) t k = if t <? now + s then Some (v, Some (now + s)) else None;
  expire_other : forall now k k' s r, k' <> k -> forall t, live (redis_expire now k s r) t k' = live r t k';
  live_ages : forall r now t k, now <= t ->
    live r t k = match live r now k with
                 | Some (v, Some e) => if t <? e then Some (v, Some e) else None
                 | Some (v, None) => Some (v, None)
                 | None => None
                 end
}.

(** ** A window admits no more than its limit *)

Record rate_call := mkCall { at_ : Z; call_key : string; call_class : string }.

Section Windows.
Context `{Crypto} {R : Type} `{RedisLaws R}.

(** The verdicts of a sequence of calls. *)
Fixpoint verdicts (calls : list rate_call) (r : R) : list (rate_call * bool) :=
  match calls with
  | [] => []
  | k :: rest =>
      let '(r', v) := limiter_Allow (at_ k) (call_key k) (call_class k) r in
      (k, match v with Ok b => b | Err _ => false end) :: verdicts rest r'
  end.
Definition admitted (key : string) (l : list (rate_call * bool)) : nat :=
  length (List.filter (fun p => (call_key (fst p) =? key)%string && snd p) l).

(** A call that is of another key touches neither of the counters of [K]. *)
Definition apart (K : string) (k : rate_call) : Prop :=
  forall c, classes !! call_class k = Some c ->
    K <> window_key (call_key k) c (at_ k) /\ K <> burst_key (call_key k) c (at_ k).

Lemma expire_if_other now k K s b (r : R) t : K <> k ->
  live (if b : bool then redis_expire now k s r else r) t K = live r t K.
Proof. intros Hne. destruct b; [by apply expire_other | done]. Qed.

Lemma script_apart now wk bk c (r : R) K t :
  K <> wk -> K <> bk -> live (fst (allow_script now wk bk c r)) t K = live r t K.
Proof.
  intros Hw Hb. unfold allow_script.
  pose proof (incr_other now wk K r Hw t) as Hi1. destruct (redis_incr now wk r) as [r1 n1]. cbn in Hi1.
  pose proof (expire_if_other now wk K (Window c) (n1 =? 1) r1 t Hw) as He1.
  set (r2 := if n1 =? 1 then _ else _) in *.
  pose proof (incr_other now bk K r2 Hb t) as Hi2. destruct (redis_incr now bk r2) as [r3 n2]. cbn in Hi2.
  cbn [fst]. rewrite expire_if_other by done. congruence.
Qed.

Lemma Allow_apart k (r r' : R) v K t :
  apart K k -> limiter_Allow (at_ k) (call_key k) (call_class k) r = (r', v) -> live r' t K = live r t K.
Proof.
  intros Hk. unfold limiter_Allow. destruct (_ || _); [by intros [= <- <-]|].
  destruct (classes !! call_class k) as [c|] eqn:Hc; [|by intros [= <- <-]].
  unfold limiter_Check. destruct (redis_ping r); [by intros [= <- <-]|].
  destruct (redis_eval r); [by intros [= <- <-]|].
  destruct (Hk c Hc) as [Hw Hb]. pose proof (script_apart (at_ k) _ _ c r K t Hw Hb) as Hs.
  destruct (allow_script _ _ _ _ _) as [r1 ok]. by intros [= <- <-].
Qed.

(** The script on a counter's own window: it counts, and admits below the limit. *)
Lemma script_counts now wk bk c (r : R) r' ok e t :
  wk <> bk -> now <= t -> t < now + Window c -> t < e ->
  allow_script now wk bk c r = (r', ok) ->
  match live r now wk with
  | None => live r' t wk = Some (1, Some (now + Window c)) /\ (ok = true -> 1 <= Limit c)
  | Some (v, Some e') => e' = e -> 0 < v -> live r' t wk = Some (v + 1, Some e) /\ (ok = true -> v + 1 <= Limit c)
  | Some (_, None) => True
  end.
Proof.
  intros Hne Ht Htw Hte. unfold allow_script.
  destruct (redis_incr now wk r) as [r1 n1] eqn:Hi1. apply incr_self in Hi1 as [Hn1 Hl1].
  set (r2 := if n1 =? 1 then _ else _).
  pose proof (incr_other now bk wk r2 Hne t) as Hi2. destruct (redis_incr now bk r2) as [r3 n2]. cbn in Hi2.
  intros [= <- <-]. rewrite expire_if_other, Hi2 by done. unfold r2.
  destruct (live r now wk) as [[v [e'|]]|] eqn:Hl; [|done|].
  - intros -> Hv. rewrite (proj2 (Z.eqb_neq n1 1)) by lia. rewrite Hl1 by done.
    rewrite (proj2 (Z.ltb_lt t e)) by lia. split; [done|].
    intros Hok%negb_true_iff. apply orb_false_iff in Hok as [Hok%Z.ltb_ge _]. lia.
  - subst n1. cbn [Z.eqb Pos.eqb]. rewrite (expire_self now wk (Window c) r1 1 None) by (rewrite ?Hl1; done || lia).
    rewrite (proj2 (Z.ltb_lt t (now + Window c))) by lia. split; [done|].
    intros Hok%negb_true_iff. apply orb_false_iff in Hok as [Hok%Z.ltb_ge _]. lia.
Qed.

(** The two counters of a key are never the same Redis key. *)
Lemma hex_digit_not_u n : 0 <= n < 16 -> hex_digit n <> "u"%char.
Proof.
  intros Hn. assert (n ∈ [0;1;2;3;4;5;6;7;8;9;10;11;12;13;14;15]) as Hin.
  { rewrite !elem_of_cons. lia. }
  assert (Forall (fun m => hex_digit m <> "u"%char) [0;1;2;3;4;5;6;7;8;9;10;11;12;13;14;15]) as Hall.
  { repeat constructor; vm_compute; discriminate. }
  rewrite Forall_forall in Hall. exact (Hall n Hin).
Qed.
Lemma digest_bytes s : Forall (fun c => c <> "u"%char) (bytes (digest s)).
Proof.
  unfold digest, HexEncode. rewrite bytes_of_bytes. induction (bytes (sha256 s)) as [|c l IH]; [constructor|].
  cbn. pose proof (code_range c). repeat constructor; [| |exact IH]; apply hex_digit_not_u.
  - split; [apply Z.div_pos; lia | apply Z.div_lt_upper_bound; lia].
  - apply Z.mod_pos_bound. lia.
Qed.
Lemma window_not_burst key c t c' t' : window_key key c t <> burst_key key c' t'.
Proof.
  unfold window_key, burst_key. pose proof (digest_bytes key) as Hd. intros Heq.
  apply (f_equal bytes) in Heq. rewrite !bytes_app in Heq. apply app_inv_head in Heq.
  cbn in Heq. injection Heq as Heq.
  destruct (bytes (digest key)) as [|a [|b l]]; cbn in Heq; [done|congruence|].
  injection Heq as _ Hb _. subst b. inversion Hd as [|? ? ? Hd2]; subst. by inversion Hd2.
Qed.

(** A call of the key in the window, or one that touches none of its counters. *)
Definition in_window (key cls : string) (c : LimitClass) (w : Z) (k : rate_call) : Prop :=
  (call_key k = key /\ call_class k = cls /\ 0 <= at_ k /\ Z.quot (at_ k) (Window c) = w) \/
  (call_key k <> key /\ apart (rate_prefix +:+ ":" +:+ digest key +:+ ":" +:+ pretty w) k).

(** What the counter of the window says after [n] admissions. *)
Definition counted (K : string) (c : LimitClass) (w : Z) (n : Z) (r : R) (t : Z) : Prop :=
  (live r t K = None /\ n = 0) \/
  exists v e, live r t K = Some (v, Some e) /\ (w + 1) * Window c <= e /\ 0 < v /\ n <= v /\ n <= Limit c.

Lemma own_call key cls c w k (r r' : R) v n t :
  classes !! cls = Some c -> 0 < Window c -> 0 < Limit c ->
  call_key k = key -> call_class k = cls -> 0 <= at_ k -> Z.quot (at_ k) (Window c) = w -> t <= at_ k ->
  let K := rate_prefix +:+ ":" +:+ digest key +:+ ":" +:+ pretty w in
  counted K c w n r t -> limiter_Allow (at_ k) (call_key k) (call_class k) r = (r', v) ->
  counted K c w (n + match v with Ok true => 1 | _ => 0 end) r' (at_ k).
Proof.
  intros Hcls HW HL Hk Hc Hpos Hq Ht K Hcnt.
  assert (w * Window c <= at_ k < (w + 1) * Window c) as Hrange.
  { pose proof (Z.quot_rem' (at_ k) (Window c)) as Hqr. pose proof (Z.rem_bound_pos (at_ k) (Window c) Hpos HW). lia. }
  assert (counted K c w n r (at_ k)) as Hnow.
  { destruct Hcnt as [[Hl Hn]|(x & e & Hl & He & Hx & Hn & HnL)].
    - left. split; [|done]. by rewrite (live_ages r t (at_ k) K Ht), Hl.
    - right. exists x, e. split_and!; try done. rewrite (live_ages r t (at_ k) K Ht), Hl.
      by rewrite (proj2 (Z.ltb_lt (at_ k) e)) by lia. }
  unfold limiter_Allow. rewrite Hc, Hcls.
  destruct (_ || _) eqn:Hfree.
  { exfalso. apply orb_true_iff in Hfree as [->%String.eqb_eq | ->%String.eqb_eq]; vm_compute in Hcls; discriminate. }
  unfold limiter_Check. destruct (redis_ping r); [intros [= <- <-]; by rewrite Z.add_0_r|].
  destruct (redis_eval r); [intros [= <- <-]; by rewrite Z.add_0_r|].
  assert (window_key (call_key k) c (at_ k) = K) as HK by (unfold window_key; by rewrite Hk, Hq).
  rewrite HK. destruct (allow_script _ _ _ _ _) as [r1 ok] eqn:Hs. intros [= <- <-].
  assert (K <> burst_key (call_key k) c (at_ k)) as Hne by (rewrite <- HK; apply window_not_burst).
  destruct Hnow as [[Hl Hn]|(x & e & Hl & He & Hx & Hn & HnL)].
  - pose proof (script_counts (at_ k) K _ c r r1 ok (at_ k + 1) (at_ k) Hne) as Hsc. rewrite Hl in Hsc.
    destruct Hsc as [Hl1 Hok]; [lia | lia | lia | done|]. right.
    exists 1, (at_ k + Window c). split_and!; [done | lia | lia | |]; destruct ok; subst n; try lia.
  - pose proof (script_counts (at_ k) K _ c r r1 ok e (at_ k) Hne) as Hsc. rewrite Hl in Hsc.
    destruct Hsc as [Hl1 Hok]; [lia | lia | lia | done | done | done|]. right.
    exists (x + 1), e. split_and!; [done | lia | lia | |]; destruct ok; lia.
Qed.

Lemma admitted_bound key cls c w calls : forall (r : R) n t,
  classes !! cls = Some c -> 0 < Window c -> 0 < Limit c ->
  Forall (in_window key cls c w) calls -> Forall (fun k => t <= at_ k) calls ->
  StronglySorted Z.le (map at_ calls) ->
  counted (rate_prefix +:+ ":" +:+ digest key +:+ ":" +:+ pretty w) c w n r t ->
  n + Z.of_nat (admitted key (verdicts calls r)) <= Limit c.
Proof.
  induction calls as [|k calls IH]; intros r n t Hcls HW HL Hin Hts Hsort Hcnt.
  { cbn. destruct Hcnt as [[_ ->]|(v & e & _ & _ & _ & _ & Hn)]; lia. }
  apply Forall_cons in Hin as [Hk Hin]. apply Forall_cons in Hts as [Ht Hts].
  cbn in Hsort. apply StronglySorted_inv in Hsort as [Hsort Hle].
  cbn [verdicts]. destruct (limiter_Allow (at_ k) (call_key k) (call_class k) r) as [r' v] eqn:Ha.
  unfold admitted. cbn [List.filter fst snd].
  destruct Hk as [(Hkey & Hc & Hpos & Hq)|[Hkey Hap]].
  - pose proof (own_call key cls c w k r r' v n t Hcls HW HL Hkey Hc Hpos Hq Ht Hcnt Ha) as Hnext.
    rewrite Hkey, String.eqb_refl. cbn [andb].
    assert (Forall (fun k' => at_ k <= at_ k') calls) as Hts' by exact (proj1 (List.Forall_map _ _ _) Hle).
    pose proof (IH r' _ _ Hcls HW HL Hin Hts' Hsort Hnext) as Hb. unfold admitted in Hb.
    destruct v as [[|]|]; cbn [length]; lia.
  - rewrite (proj2 (String.eqb_neq _ _) Hkey). cbn [andb].
    refine (IH r' n t Hcls HW HL Hin Hts Hsort _).
    unfold counted in *. by rewrite (Allow_apart k r r' v _ t Hap Ha).
Qed.
End Windows.

(** C25: a caller gets at most the limit of its class in one window: in any
    sequence of calls, in the order of time and mixed with the calls of others
    that share none of its counters, the calls under one key within one window
    that are admitted are no more than the class's limit, whatever Redis
    refuses in between. *)
Theorem windows_admit_at_most_their_limit `{Crypto} {R : Type} `{RedisLaws R} key cls c w calls (r : R) t :
  classes !! cls = Some c ->
  Forall (in_window key cls c w) calls -> Forall (fun k => t <= at_ k) calls ->
  StronglySorted Z.le (map at_ calls) ->
  live r t (rate_prefix +:+ ":" +:+ digest key +:+ ":" +:+ pretty w) = None ->
  Z.of_nat (admitted key (verdicts calls r)) <= Limit c.
Proof.
  intros Hcls Hin Hts Hsort Hl.
  assert (0 < Window c /\ 0 < Limit c) as [HW HL].
  { assert (map_Forall (fun _ c => 0 < Window c /\ 0 < Limit c) classes) as Hall.
    { refine (bool_decide_unpack _ _). vm_compute. exact I. }
    exact (Hall _ _ Hcls). }
  pose proof (admitted_bound key cls c w calls r 0 t Hcls HW HL Hin Hts Hsort) as Hb.
  rewrite Z.add_0_l in Hb. apply Hb. by left.
Qed.
