(* ===== verification/GatewayVerifier.v ===== *)
(** * Gateway: the verifier of access tokens

    [apps/gateway/internal/adapters/outbound/jwks/verifier.go].  The verifier
    is shared by the goroutines of the requests; its mutex is released while
    keys are fetched, and one goroutine fetches while others wait on a channel.
    The model is that state machine: a step is one critical section (or one
    event outside the lock) of one goroutine, and a run interleaves the steps of
    any number of them. *)
From Stdlib Require Import ZArith Lia Ascii String.
From stdpp Require Import base gmap strings list.
From S2P Require Import Prelude GoStrings GoErrors GoTime GoJson GoBase64 GoCrypto GoURL GoHttp.
From S2P Require Import Interleave GatewayDomain GatewayService.

Open Scope string_scope.
Open Scope Z_scope.

Definition ErrNotReady : goerr := Sentinel "jwks" "jwks is not ready".

(** [uuid.Parse] accepts the text. *)
Class UuidLib := { uuid_valid : string -> bool }.

(** What the key-set endpoint answered: nothing, or the status, the
    Cache-Control header and the body, [None] when reading it failed. *)
Definition jwks_answer : Type := option (Z * string * option string).

(** ** Fetching the key set *)

Record jwks_key := mkJwksKey { KTY : string; CRV : string; KID : string; Use : string; Alg : string; X_ : string }.
Definition PublicKeys : Type := gmap string string.

Section Fetch.
Context `{GoLib}.

Definition dec_jwks_key (fs : list (string * json)) : option jwks_key :=
  kty ← dec_field dec_string "" "KTY" fs;
  crv ← dec_field dec_string "" "CRV" fs;
  kid ← dec_field dec_string "" "KID" fs;
  use ← dec_field dec_string "" "Use" fs;
  alg ← dec_field dec_string "" "Alg" fs;
  x ← dec_field dec_string "" "X" fs;
  Some (mkJwksKey kty crv kid use alg x).
Definition dec_document (fs : list (string * json)) : option (list jwks_key) :=
  dec_field (fun _ v => dec_slice dec_jwks_key v) [] "keys" fs.

Definition bad_metadata (k : jwks_key) : bool :=
  negb (KTY k =? "OKP")%string || negb (CRV k =? "Ed25519")%string || negb (Alg k =? "EdDSA")%string ||
  negb (Use k =? "sig")%string || (TrimSpace (KID k) =? "")%string.

(** The loop over the document: one bad key refuses the whole set. *)
Fixpoint collect_keys (keys : PublicKeys) (l : list jwks_key) : result goerr PublicKeys :=
  match l with
  | [] => Ok keys
  | k :: rest =>
      if bad_metadata k then Err (NewErr "invalid jwks key metadata")
      else match RawURLDecode (X_ k) with
           | Some decoded => if Nat.eqb (String.length decoded) PublicKeySize
                             then collect_keys (<[KID k := decoded]> keys) rest
                             else Err (NewErr "invalid jwks public key")
           | None => Err (NewErr "invalid jwks public key")
           end
  end.

(** The first usable max-age, at most five minutes. *)
Fixpoint max_age_of (parts : list string) : Z :=
  match parts with
  | [] => 5 * Minute
  | part :: rest =>
      let part := TrimSpace part in
      if HasPrefix part "max-age=" then
        match Atoi (TrimPrefix part "max-age=") with
        | Some seconds =>
            if 0 <? seconds then
              let d := wrap_i64 (seconds * Second) in
              if d <? 5 * Minute then d else 5 * Minute
            else max_age_of rest
        | None => max_age_of rest
        end
      else max_age_of rest
  end.
Definition maxAge (value : string) : Z := max_age_of (Split value ",").

Definition Fetch (answer : jwks_answer) : result goerr (PublicKeys * Z) :=
  match answer with
  | None => Err (NewErr "jwks request failed")
  | Some (status, cache_control, body) =>
      if negb (status =? 200) then Err (NewErr ("jwks status " +:+ Itoa status))
      else match body with
           | None => Err (NewErr "jwks body could not be read")
           | Some b =>
               match unmarshal_struct dec_document (take_string (2 ^ 20) b) with
               | None => Err (NewErr "jwks is not JSON")
               | Some document =>
                   match collect_keys ∅ document with
                   | Err e => Err e
                   | Ok keys => if bool_decide (keys = ∅) then Err (NewErr "jwks contains no keys")
                                else Ok (keys, maxAge cache_control)
                   end
               end
           end
  end.
End Fetch.

(** ** The verifier and its goroutines *)

(** The fields under the mutex.  Channels are numbered in the order they are
    made; [closed] holds the closed ones. *)
Record Verifier := mkVerifier {
  keys : PublicKeys;
  loadedAt : Time;
  cacheAge : Z;
  refreshing : bool;
  refreshDone : nat;
  made : nat;
  closed : gset nat
}.

Record VerifierConfig := mkVerifierConfig { issuer : string; audience : string; refreshAfter : Z; maxStale : Z }.
Definition NewVerifier `{GoLib} (has_fetcher : bool) (issuer audience : string)
  : result goerr (VerifierConfig * Verifier) :=
  if negb has_fetcher || (TrimSpace issuer =? "")%string || (TrimSpace audience =? "")%string
  then Err (NewErr "invalid JWKS verifier configuration")
  else Ok (mkVerifierConfig issuer audience (5 * Minute) (15 * Minute),
           mkVerifier ∅ zeroTime 0 false 0 0 ∅).

(** What a goroutine was called for. *)
Inductive job := JCheck | JVerify (raw : string).

(** Where a goroutine is: before its first critical section; in [refresh],
    before the unlocked test and before the locked one; waiting on a channel;
    woken; fetching; back in [key] after a refresh; with the key the parser
    asked for; or returned. *)
Inductive pc :=
| Called (j : job)
| Refresh (j : job) (force : bool)
| RefreshLock (j : job) (force : bool)
| Waiting (j : job) (done : nat)
| Woken (j : job)
| Fetching (j : job) (done : nat)
| Refreshed (j : job)
| HasKey (raw key : string)
| Returned (j : job) (r : result goerr Actor).

(** What a step may observe: the clock, the endpoint's answer, and whether the
    goroutine's context has ended. *)
Record Ev := mkEv { ev_now : Time; ev_answer : jwks_answer; ev_cancelled : bool }.

Section Steps.
Context `{GoLib} `{JwtLib} `{UuidLib} (c : VerifierConfig).

Definition effectiveRefreshAfterLocked (v : Verifier) : Z :=
  if (0 <? cacheAge v) && (cacheAge v <? refreshAfter c) then cacheAge v else refreshAfter c.
Definition isFreshLocked (v : Verifier) (now : Time) : bool :=
  negb (bool_decide (keys v = ∅)) && (Sub (UTC now) (loadedAt v) <=? effectiveRefreshAfterLocked v).
Definition usableLocked (v : Verifier) (now : Time) : bool :=
  negb (bool_decide (keys v = ∅)) && (Sub (UTC now) (loadedAt v) <=? maxStale c).

Definition options : JwtOptions := mkJwtOptions ["EdDSA"] (issuer c) (audience c) (30 * Second).
Definition invalid_token : goerr := NewErr "invalid access token".

(** The key id the parser asks for, when it asks and the id is not blank. *)
Definition asked_kid (raw : string) : option string :=
  match jwt_kid options raw with
  | Some (Some kid) => if (TrimSpace kid =? "")%string then None else Some kid
  | _ => None
  end.

Definition claims_ok (cl : JwtClaims) : bool :=
  (cl_TokenKind cl =? "human")%string && negb (cl_Subject cl =? "")%string && negb (cl_ID cl =? "")%string &&
  bool_decide (cl_ExpiresAt cl <> None) && bool_decide (cl_IssuedAt cl <> None) &&
  bool_decide (cl_NotBefore cl <> None) && negb (cl_SessionID cl =? "")%string && uuid_valid (cl_SessionID cl).
Definition claims_actor (cl : JwtClaims) : Actor :=
  mkActor (cl_Subject cl) "human" (cl_Roles cl) (cl_Scopes cl) (cl_SessionID cl).

(** The end of [Verify]: the parser with the key, then the claims. *)
Definition finish (raw key : string) (now : Time) : result goerr Actor :=
  match jwt_claims options raw key now with
  | Some cl => if claims_ok cl then Ok (claims_actor cl) else Err invalid_token
  | None => Err invalid_token
  end.

(** How a goroutine goes on when its refresh returned [err]. *)
Definition after_refresh (j : job) (err : option goerr) : pc :=
  match j, err with
  | JCheck, None => Returned j (Ok no_actor)
  | JCheck, Some e => Returned j (Err e)
  | JVerify _, None => Refreshed j
  | JVerify _, Some _ => Returned j (Err invalid_token)
  end.

(** One step of a goroutine; [None] when it is blocked or has returned. *)
Definition step (e : Ev) (p : pc) (v : Verifier) : option (Verifier * pc) :=
  let now := ev_now e in
  match p with
  | Called JCheck => Some (v, Refresh JCheck false)
  | Called (JVerify raw) =>
      if (TrimSpace raw =? "")%string then Some (v, Returned (JVerify raw) (Err (NewErr "empty access token")))
      else match asked_kid raw with
           | None => Some (v, Returned (JVerify raw) (Err invalid_token))
           | Some kid =>
               match keys v !! kid with
               | Some k => if usableLocked v now then Some (v, HasKey raw k)
                           else Some (v, Refresh (JVerify raw) false)
               | None => Some (v, Refresh (JVerify raw) true)
               end
           end
  | Refresh j force =>
      if negb force && isFreshLocked v now then Some (v, after_refresh j None)
      else Some (v, RefreshLock j force)
  | RefreshLock j force =>
      if negb force && isFreshLocked v now then Some (v, after_refresh j None)
      else if refreshing v then Some (v, Waiting j (refreshDone v))
      else Some (mkVerifier (keys v) (loadedAt v) (cacheAge v) true (made v) (S (made v)) (closed v),
                 Fetching j (made v))
  | Waiting j done =>
      if ev_cancelled e then Some (v, after_refresh j (Some (NewErr "context ended")))
      else if bool_decide (done ∈ closed v) then Some (v, Woken j)
      else None
  | Woken j => Some (v, after_refresh j (if isFreshLocked v now then None else Some ErrNotReady))
  | Fetching j done =>
      match Fetch (ev_answer e) with
      | Ok (ks, age) =>
          Some (mkVerifier ks (UTC now) age false (refreshDone v) (made v) ({[done]} ∪ closed v), after_refresh j None)
      | Err err =>
          Some (mkVerifier (keys v) (loadedAt v) (cacheAge v) false (refreshDone v) (made v) ({[done]} ∪ closed v),
                after_refresh j (Some err))
      end
  | Refreshed JCheck => Some (v, Returned JCheck (Ok no_actor))
  | Refreshed (JVerify raw) =>
      match asked_kid raw with
      | Some kid =>
          match keys v !! kid with
          | Some k => if usableLocked v now then Some (v, HasKey raw k)
                      else Some (v, Returned (JVerify raw) (Err invalid_token))
          | None => Some (v, Returned (JVerify raw) (Err invalid_token))
          end
      | None => Some (v, Returned (JVerify raw) (Err invalid_token))
      end
  | HasKey raw k => Some (v, Returned (JVerify raw) (finish raw k now))
  | Returned _ _ => None
  end.

(** ** Runs *)

Definition vlabel := label Ev job.
Definition run_verifier : list vlabel -> Sys Verifier pc -> option (Sys Verifier pc) := run Called step.
Definition step_verifier : vlabel -> Sys Verifier pc -> option (Sys Verifier pc) := sys_step Called step.
End Steps.

(** ** One goroutine fetches at a time *)

Definition is_fetching (p : pc) : bool := match p with Fetching _ _ => true | _ => false end.
Definition is_waiting (p : pc) : bool := match p with Waiting _ _ => true | _ => false end.

Lemma after_refresh_quiet j err : is_fetching (after_refresh j err) = false /\ is_waiting (after_refresh j err) = false.
Proof. by destruct j, err. Qed.

Section Flight.
Context `{GoLib} `{JwtLib} `{UuidLib} (c : VerifierConfig).

(** The three kinds of steps: the verifier stays as it is; a fetch starts; a
    fetch ends and its channel is closed. *)
Inductive step_kind (p : pc) (v v' : Verifier) (p' : pc) : Prop :=
| quiet_step : v' = v -> is_fetching p = false -> is_fetching p' = false ->
    (forall j d, p' = Waiting j d -> refreshing v = true /\ d = refreshDone v) -> step_kind p v v' p'
| fetch_starts j force : p = RefreshLock j force -> refreshing v = false -> p' = Fetching j (made v) ->
    v' = mkVerifier (keys v) (loadedAt v) (cacheAge v) true (made v) (S (made v)) (closed v) -> step_kind p v v' p'
| fetch_ends j d : p = Fetching j d -> refreshing v' = false -> is_fetching p' = false -> is_waiting p' = false ->
    closed v' = {[d]} ∪ closed v -> made v' = made v -> step_kind p v v' p'.

Lemma step_kinds e p v v' p' : step c e p v = Some (v', p') -> step_kind p v v' p'.
Proof.
  assert (forall q, is_fetching p = false -> is_fetching q = false -> is_waiting q = false -> step_kind p v v q) as Hq.
  { intros q Hp Hf Hw. apply quiet_step; try done. intros j d ->. done. }
  destruct p as [[|raw]|j f|j f|j d|j|j d|[|raw]|raw k|j r]; cbn [step].
  - intros [= <- <-]. by apply Hq.
  - destruct (_ =? "")%string; [intros [= <- <-]; by apply Hq|].
    destruct (asked_kid c raw); [|intros [= <- <-]; by apply Hq].
    destruct (keys v !! _); [destruct (usableLocked _ _ _)|]; intros [= <- <-]; by apply Hq.
  - destruct (_ && _); intros [= <- <-]; apply Hq; done || apply after_refresh_quiet.
  - destruct (_ && _); [intros [= <- <-]; apply Hq; done || apply after_refresh_quiet|].
    destruct (refreshing v) eqn:Hr; intros [= <- <-].
    + apply quiet_step; try done. by intros ? ? [= <- <-].
    + by eapply fetch_starts.
  - destruct (ev_cancelled e); [intros [= <- <-]; apply Hq; done || apply after_refresh_quiet|].
    destruct (bool_decide _); [|done]. intros [= <- <-]. by apply Hq.
  - intros [= <- <-]. apply Hq; done || apply after_refresh_quiet.
  - destruct (Fetch _) as [[ks age]|err]; intros [= <- <-]; eapply fetch_ends; done || apply after_refresh_quiet.
  - intros [= <- <-]. by apply Hq.
  - destruct (asked_kid c raw); [|intros [= <- <-]; by apply Hq].
    destruct (keys v !! _); [destruct (usableLocked _ _ _)|]; intros [= <- <-]; by apply Hq.
  - intros [= <- <-]. by apply Hq.
  - done.
Qed.

(** The flight invariant of the lock, the flag and the channels. *)
Record flight (v : Verifier) (ths : list pc) : Prop := {
  fl_one : forall i j d, ths !! i = Some (Fetching j d) ->
    refreshing v = true /\ d = refreshDone v /\ forall i' j' d', ths !! i' = Some (Fetching j' d') -> i' = i;
  fl_some : refreshing v = true -> exists i j, ths !! i = Some (Fetching j (refreshDone v));
  fl_open : refreshing v = true -> refreshDone v ∉ closed v /\ (refreshDone v < made v)%nat;
  fl_closed : forall d, d ∈ closed v -> (d < made v)%nat;
  fl_wait : forall i j d, ths !! i = Some (Waiting j d) -> d ∈ closed v \/ (refreshing v = true /\ d = refreshDone v)
}.

Lemma flight_spawn v ths p :
  is_fetching p = false -> is_waiting p = false -> flight v ths -> flight v (ths ++ [p]).
Proof.
  intros Hf Hw [F1 F2 F3 F4 F5].
  assert (forall i q, (ths ++ [p])%list !! i = Some q -> q <> p -> ths !! i = Some q) as Hold.
  { intros i q Hi Hne. apply lookup_app_Some in Hi as [?|[_ Hi]]; [done|].
    apply list_lookup_singleton_Some in Hi as [_ <-]. done. }
  split; try done.
  - intros i j d Hi. apply Hold in Hi; [|by intros <-]. destruct (F1 _ _ _ Hi) as (? & ? & Hu).
    split_and!; try done. intros i' j' d' Hi'. apply Hold in Hi'; [|by intros <-]. by eapply Hu.
  - intros Hr. destruct (F2 Hr) as (i & j & Hi). exists i, j. by apply lookup_app_l_Some.
  - intros i j d Hi. apply Hold in Hi; [|by intros <-]. by eapply F5.
Qed.

Lemma flight_step v v' ths i p p' :
  ths !! i = Some p -> step_kind p v v' p' -> flight v ths -> flight v' (<[i := p']> ths).
Proof.
  intros Hi Hk [F1 F2 F3 F4 F5].
  assert (forall i' q, <[i := p']> ths !! i' = Some q -> (i' = i /\ q = p') \/ (i' <> i /\ ths !! i' = Some q)) as Hcase.
  { intros i' q Hq. destruct (decide (i' = i)) as [->|Hne].
    - rewrite list_lookup_insert_eq in Hq by (by apply lookup_lt_Some in Hi). left. split; congruence.
    - rewrite list_lookup_insert_ne in Hq by done. by right. }
  assert (<[i := p']> ths !! i = Some p') as Hnew.
  { apply list_lookup_insert_eq. by apply lookup_lt_Some in Hi. }
  assert (forall i' q, i' <> i -> ths !! i' = Some q -> <[i := p']> ths !! i' = Some q) as Hkeep.
  { intros i' q Hne Hq. by rewrite list_lookup_insert_ne. }
  destruct Hk as [-> Hp Hp' Hw | j force -> Hr -> -> | j d -> Hr' Hp' Hw' Hc' Hm'].
  - split; try done.
    + intros i' j d [[-> <-]|[Hne Hq]]%Hcase; [done|]. destruct (F1 _ _ _ Hq) as (? & ? & Hu).
      split_and!; try done. intros i2 j2 d2 [[-> <-]|[_ Hq2]]%Hcase; [done|]. by eapply Hu.
    + intros Hr. destruct (F2 Hr) as (i' & j & Hq). exists i', j. apply Hkeep; [|done].
      intros ->. rewrite Hi in Hq. injection Hq as ->. done.
    + intros i' j d [[-> Hq]|[Hne Hq]]%Hcase; [right; symmetry in Hq; by apply Hw in Hq | by eapply F5].
  - assert (forall i' j' d', ths !! i' <> Some (Fetching j' d')) as Hnone.
    { intros i' j' d' Hq. apply F1 in Hq as [Hq _]. congruence. }
    split; cbn.
    + intros i' j' d' [[-> [= -> ->]]|[_ Hq]]%Hcase; [|by apply Hnone in Hq].
      split_and!; try done. intros i2 j2 d2 [[-> _]|[_ Hq2]]%Hcase; [done|]. by apply Hnone in Hq2.
    + intros _. by exists i, j.
    + intros _. split; [|lia]. intros Hd. apply F4 in Hd. lia.
    + intros d Hd. apply F4 in Hd. lia.
    + intros i' j' d' [[-> ?]|[_ Hq]]%Hcase; [done|]. apply F5 in Hq as [?|[? _]]; [by left | congruence].
  - destruct (F1 _ _ _ Hi) as (Hr & -> & Hu). split; try congruence.
    + intros i' j' d' [[-> <-]|[Hne Hq]]%Hcase; [done|]. by apply Hu in Hq.
    + intros d' Hd. rewrite Hm'. rewrite Hc' in Hd. apply elem_of_union in Hd as [->%elem_of_singleton|Hd];
        [by apply F3 | by apply F4].
    + intros i' j' d' [[-> <-]|[_ Hq]]%Hcase; [done|]. left. rewrite Hc'.
      apply F5 in Hq as [?|[_ ->]]; set_solver.
Qed.

Lemma run_flight v ls s : flight v [] -> run_verifier c ls (start v) = Some s -> flight (shared s) (threads s).
Proof.
  intros Hstart. apply (run_invariant Called (step c) (fun _ s => flight (shared s) (threads s))); [done|].
  intros tr s1 l s2 _ Hf. destruct l as [j|i e]; cbn; [intros [= <-]; by apply flight_spawn|].
  destruct (threads s1 !! i) as [p|] eqn:Hi; [|done]. cbn.
  destruct (step c e p (shared s1)) as [[v' p']|] eqn:Hs; [|done]. cbn. intros [= <-]. cbn.
  eapply flight_step; [done| |done]. by eapply step_kinds.
Qed.
End Flight.

Definition is_returned (p : pc) : bool := match p with Returned _ _ => true | _ => false end.

Lemma fresh_flight v : refreshing v = false -> closed v = ∅ -> flight v [].
Proof. intros Hr Hc. split; try done; [congruence | congruence | rewrite Hc; set_solver]. Qed.

(** A goroutine can always go on, unless it waits on an open channel. *)
Lemma step_progress `{GoLib} `{JwtLib} `{UuidLib} c e p v :
  is_returned p = false -> (forall j d, p = Waiting j d -> d ∈ closed v) -> is_Some (step c e p v).
Proof.
  intros Hr Hw. destruct p as [[|raw]|j f|j f|j d|j|j d|[|raw]|raw k|j r]; cbn [step];
    repeat first [done | case_match]; try by eexists.
  exfalso. eapply bool_decide_eq_false_1; [eassumption|]. by eapply Hw.
Qed.

(** ** Only current keys verify a token *)

Section Keys.
Context `{GoLib} `{JwtLib} `{UuidLib} (c : VerifierConfig) (v0 : Verifier).

(** In the run [tr] a goroutine that was fetching got the key set [ks] at [t]. *)
Definition loaded (tr : list vlabel) (t : Time) (ks : PublicKeys) : Prop :=
  exists l1 l2 i e s j d age, tr = (l1 ++ Run i e :: l2)%list /\ run_verifier c l1 (start v0) = Some s /\
    threads s !! i = Some (Fetching j d) /\ Fetch (ev_answer e) = Ok (ks, age) /\ t = ev_now e.
(** Later in the run goroutine [i] found the key of [raw] in a loaded set that
    was not too old at that time. *)
Definition looked_up (tr : list vlabel) (i : nat) (raw k : string) : Prop :=
  exists l1 l2 e kid t0 ks, tr = (l1 ++ Run i e :: l2)%list /\ loaded l1 t0 ks /\ asked_kid c raw = Some kid /\
    ks !! kid = Some k /\ nanos (ev_now e) - nanos t0 <= maxStale c.
(** Later still it checked the token under that key. *)
Definition verified (tr : list vlabel) (i : nat) (raw : string) (a : Actor) : Prop :=
  exists l1 l2 e k, tr = (l1 ++ Run i e :: l2)%list /\ looked_up l1 i raw k /\ finish c raw k (ev_now e) = Ok a.

Lemma loaded_more tr more t ks : loaded tr t ks -> loaded (tr ++ more) t ks.
Proof.
  intros (l1 & l2 & i & e & s & j & d & age & -> & H'). exists l1, (l2 ++ more)%list, i, e, s, j, d, age.
  by rewrite <- app_assoc.
Qed.
Lemma looked_up_more tr more i raw k : looked_up tr i raw k -> looked_up (tr ++ more) i raw k.
Proof.
  intros (l1 & l2 & e & kid & t0 & ks & -> & H'). exists l1, (l2 ++ more)%list, e, kid, t0, ks.
  by rewrite <- app_assoc.
Qed.
Lemma verified_more tr more i raw a : verified tr i raw a -> verified (tr ++ more) i raw a.
Proof.
  intros (l1 & l2 & e & k & -> & H'). exists l1, (l2 ++ more)%list, e, k. by rewrite <- app_assoc.
Qed.

Definition thread_ok (tr : list vlabel) (i : nat) (p : pc) : Prop :=
  match p with
  | HasKey raw k => looked_up tr i raw k
  | Returned (JVerify raw) (Ok a) => verified tr i raw a
  | _ => True
  end.
Definition set_ok (tr : list vlabel) (v : Verifier) : Prop :=
  keys v = ∅ \/ exists t, loaded tr t (keys v) /\ loadedAt v = UTC t.

Lemma thread_ok_more tr more i p : thread_ok tr i p -> thread_ok (tr ++ more) i p.
Proof.
  destruct p as [| | | | | | |raw k|[|raw] [a|]]; cbn; auto using looked_up_more, verified_more.
Qed.
Lemma thread_ok_after tr i j err : thread_ok tr i (after_refresh j err).
Proof. by destruct j, err. Qed.

(** A lookup that succeeds while the set is usable. *)
Lemma lookup_ok tr v i e raw kid k :
  set_ok tr v -> asked_kid c raw = Some kid -> keys v !! kid = Some k ->
  usableLocked c v (ev_now e) = true -> looked_up (tr ++ [Run i e]) i raw k.
Proof.
  intros [He|(t & Hl & Ht)] Hkid Hk [_ Hage%Z.leb_le]%andb_true_iff; [by rewrite He in Hk|].
  rewrite Ht in Hage. by exists tr, [], e, kid, t, (keys v).
Qed.

Lemma step_keys tr s i e p v' p' :
  run_verifier c tr (start v0) = Some s -> threads s !! i = Some p ->
  step c e p (shared s) = Some (v', p') -> set_ok tr (shared s) -> thread_ok tr i p ->
  set_ok (tr ++ [Run i e]) v' /\ thread_ok (tr ++ [Run i e]) i p'.
Proof.
  intros Hrun Hi Hs Hset Hp.
  assert (forall v, keys v = keys (shared s) -> loadedAt v = loadedAt (shared s) -> set_ok (tr ++ [Run i e]) v) as Hsame.
  { intros v Hk Ht. unfold set_ok. rewrite Hk, Ht. destruct Hset as [?|(t & ? & ?)]; [by left|].
    right. exists t. split; [by apply loaded_more | done]. }
  destruct p as [[|raw]|j f|j f|j d|j|j d|[|raw]|raw k|j r]; cbn [step] in Hs.
  - injection Hs as <- <-. by auto.
  - destruct (_ =? "")%string; [by injection Hs as <- <-; auto|].
    destruct (asked_kid c raw) as [kid|] eqn:Hkid; [|by injection Hs as <- <-; auto].
    destruct (keys (shared s) !! kid) as [k|] eqn:Hk; [|by injection Hs as <- <-; auto].
    destruct (usableLocked c (shared s) (ev_now e)) eqn:Hu; injection Hs as <- <-; [|by auto].
    split; [by auto|]. by eapply lookup_ok.
  - destruct (_ && _); injection Hs as <- <-; split; auto using thread_ok_after; done.
  - destruct (_ && _); [injection Hs as <- <-; split; auto using thread_ok_after|].
    destruct (refreshing (shared s)); injection Hs as <- <-; split; auto; done.
  - destruct (ev_cancelled e); [injection Hs as <- <-; split; auto using thread_ok_after|].
    destruct (bool_decide _); [|done]. injection Hs as <- <-; split; auto; done.
  - injection Hs as <- <-. split; auto using thread_ok_after.
  - destruct (Fetch _) as [[ks age]|err] eqn:Hf; injection Hs as <- <-; (split; [|apply thread_ok_after]).
    + right. exists (ev_now e). split; [|done]. by exists tr, [], i, e, s, j, d, age.
    + by apply Hsame.
  - injection Hs as <- <-. by auto.
  - destruct (asked_kid c raw) as [kid|] eqn:Hkid; [|by injection Hs as <- <-; auto].
    destruct (keys (shared s) !! kid) as [k|] eqn:Hk; [|by injection Hs as <- <-; auto].
    destruct (usableLocked c (shared s) (ev_now e)) eqn:Hu; injection Hs as <- <-; [|by auto].
    split; [by auto|]. by eapply lookup_ok.
  - injection Hs as <- <-. split; [by auto|]. cbn. destruct (finish _ _ _ _) eqn:Hf; [|done].
    by exists tr, [], e, k.
  - done.
Qed.

Lemma run_keys tr s : keys v0 = ∅ -> run_verifier c tr (start v0) = Some s ->
  set_ok tr (shared s) /\ forall i p, threads s !! i = Some p -> thread_ok tr i p.
Proof.
  intros Hv0. apply (run_threads Called (step c) set_ok thread_ok); [by left | | | done |].
  - intros t l w Hw. destruct l; [|done]. destruct Hw as [?|(x & ? & ?)]; [by left | right; eauto using loaded_more].
  - intros t l. apply thread_ok_more.
  - intros t s1 i e p w q. apply step_keys.
Qed.
End Keys.

(** C21: whatever requests run at once and however their steps interleave, a
    token is accepted only as the signed token of a human, checked under the
    key of its key id; the key was found in a key set that an earlier fetch got
    from the endpoint, at most fifteen minutes before it was looked up. *)
Theorem accepted_tokens_have_current_keys `{GoLib} `{JwtLib} `{UuidLib} iss aud c v ls s i raw actor :
  NewVerifier true iss aud = Ok (c, v) -> run_verifier c ls (start v) = Some s ->
  threads s !! i = Some (Returned (JVerify raw) (Ok actor)) ->
  let opts := mkJwtOptions ["EdDSA"] iss aud (30 * Second) in
  exists before fetch l1 looked l2 checked l3 i' kid key set age claims,
    ls = (before ++ Run i' fetch :: l1 ++ Run i looked :: l2 ++ Run i checked :: l3)%list /\
    Fetch (ev_answer fetch) = Ok (set, age) /\ jwt_kid opts raw = Some (Some kid) /\ set !! kid = Some key /\
    nanos (ev_now looked) - nanos (ev_now fetch) <= 15 * Minute /\
    jwt_claims opts raw key (ev_now checked) = Some claims /\
    cl_TokenKind claims = "human" /\ cl_Subject claims <> "" /\ cl_ExpiresAt claims <> None /\
    uuid_valid (cl_SessionID claims) = true /\ actor = claims_actor claims.
Proof.
  intros Hnew Hrun Hi opts. unfold NewVerifier in Hnew. destruct (_ || _); [done|]. injection Hnew as <- <-.
  apply run_keys in Hrun as [_ Hths]; [|done].
  destruct (Hths _ _ Hi) as (a1 & l3 & e3 & k & -> & Hl & Hf).
  destruct Hl as (a2 & l2 & e2 & kid & t0 & ks & -> & Hld & Hkid & Hk & Hage).
  destruct Hld as (a3 & l1 & i' & e1 & s1 & j & d & age & -> & _ & _ & Hfe & ->).
  unfold asked_kid in Hkid. destruct (jwt_kid _ raw) as [[kid'|]|] eqn:Hj; try done.
  destruct (_ =? "")%string; [done|]. injection Hkid as ->.
  unfold finish in Hf. destruct (jwt_claims _ raw k _) as [cl|] eqn:Hcl; [|done].
  destruct (claims_ok cl) eqn:Hok; [|done]. injection Hf as <-. unfold claims_ok in Hok.
  repeat match goal with H : _ && _ = true |- _ => apply andb_true_iff in H as [? ?] end.
  exists a3, e1, l1, e2, l2, e3, l3, i', kid, k, ks, age, cl.
  rewrite negb_true_iff, String.eqb_neq, String.eqb_eq, bool_decide_eq_true in *.
  split_and!; try done. by rewrite <- !app_assoc.
Qed.

(** C22: refreshes are single-flight and nobody is left waiting: at any point
    of any run at most one goroutine is fetching; one that waits has its
    channel closed already or closed by the one that is fetching, which never
    closes a channel twice; and as long as somebody has not returned, some
    goroutine can go on. *)
Theorem refreshes_are_single_flight `{GoLib} `{JwtLib} `{UuidLib} iss aud c v ls s :
  NewVerifier true iss aud = Ok (c, v) -> run_verifier c ls (start v) = Some s ->
  (forall i j d i' j' d', threads s !! i = Some (Fetching j d) -> threads s !! i' = Some (Fetching j' d') -> i = i') /\
  (forall i j d, threads s !! i = Some (Fetching j d) -> d ∉ closed (shared s)) /\
  (forall i j d, threads s !! i = Some (Waiting j d) ->
     d ∈ closed (shared s) \/ exists i' j', threads s !! i' = Some (Fetching j' d)) /\
  (forall i p e, threads s !! i = Some p -> is_returned p = false ->
     exists i' s', step_verifier c (Run i' e) s = Some s').
Proof.
  unfold NewVerifier. destruct (_ || _); [done|]. intros [= _ <-] Hrun.
  apply run_flight in Hrun as [F1 F2 F3 F4 F5]; [|by apply fresh_flight].
  assert (forall i j d, threads s !! i = Some (Waiting j d) ->
     d ∈ closed (shared s) \/ exists i' j', threads s !! i' = Some (Fetching j' d)) as Hwait.
  { intros i j d [?|[Hr ->]]%F5; [by left|]. right. by apply F2. }
  split_and!; [| |done|].
  - intros i j d i' j' d' Hi Hi'. destruct (F1 _ _ _ Hi) as (_ & _ & Hu). symmetry. by eapply Hu.
  - intros i j d (Hr & -> & _)%F1. by apply F3.
  - intros i p e Hi Hret.
    assert (forall i' p', threads s !! i' = Some p' -> is_Some (step c e p' (shared s)) ->
      exists i2 s', step_verifier c (Run i2 e) s = Some s') as Hgo.
    { intros i' p' Hi' [[v' q] Hst]. exists i'. cbn. rewrite Hi'. cbn. rewrite Hst. cbn. eauto. }
    destruct (is_waiting p) eqn:Hw; [|eapply Hgo; [exact Hi|]; apply step_progress; [done|]; by intros ? ? ->].
    destruct p as [| | |j d| | | | |]; try done.
    destruct (Hwait _ _ _ Hi) as [Hc|(i' & j' & Hf)].
    + eapply Hgo; [exact Hi|]. apply step_progress; [done|]. by intros ? ? [= <- <-].
    + eapply Hgo; [exact Hf|]. by apply step_progress.
Qed.

(** A key set past its refresh time goes on serving tokens with known key ids,
    and no fetch is started for it until it is unusable: only readiness checks
    and unknown key ids refresh it earlier. *)
Lemma aged_keys_serve_without_refresh `{GoLib} `{JwtLib} `{UuidLib} c v e raw kid k :
  TrimSpace raw <> "" -> asked_kid c raw = Some kid -> keys v !! kid = Some k ->
  effectiveRefreshAfterLocked c v < nanos (ev_now e) - nanos (loadedAt v) <= maxStale c ->
  isFreshLocked c v (ev_now e) = false /\ step c e (Called (JVerify raw)) v = Some (v, HasKey raw k).
Proof.
  intros Hraw Hkid Hk [Hold Hstale]. unfold isFreshLocked. cbn [step].
  rewrite (proj2 (String.eqb_neq _ _) Hraw), Hkid, Hk. unfold usableLocked, Sub. cbn [UTC nanos].
  rewrite (bool_decide_eq_false_2 (keys v = ∅)) by (intros He; by rewrite He in Hk). cbn [negb andb].
  by rewrite (proj2 (Z.leb_gt _ _) Hold), (proj2 (Z.leb_le _ _) Hstale).
Qed.

(** ** A verifier that starts with no keys *)

Section ColdStart.
Context `{GoLib} `{JwtLib} `{UuidLib}.

(** The six steps of a call that finds no key and fetches alone. *)
Definition cold_call (raw : string) (e1 e2 e3 e4 e5 e6 : Ev) : list vlabel :=
  [Spawn (JVerify raw); Run 0 e1; Run 0 e2; Run 0 e3; Run 0 e4; Run 0 e5; Run 0 e6].

Lemma cold_verify vc v0 iss aud raw kid ks age key cl e1 e2 e3 e4 e5 e6 :
  NewVerifier true iss aud = Ok (vc, v0) ->
  TrimSpace raw <> "" -> asked_kid vc raw = Some kid -> Fetch (ev_answer e4) = Ok (ks, age) -> ks !! kid = Some key ->
  nanos (ev_now e5) <= nanos (ev_now e4) + 15 * Minute ->
  jwt_claims (options vc) raw key (ev_now e6) = Some cl -> claims_ok cl = true ->
  exists st, run_verifier vc (cold_call raw e1 e2 e3 e4 e5 e6) (start v0) = Some st /\
    threads st = [Returned (JVerify raw) (Ok (claims_actor cl))].
Proof.
  intros Hn Hraw Hkid Hf Hkey Ht Hc Hok. unfold NewVerifier in Hn. destruct (_ || _); [done|]. injection Hn as <- <-.
  set (vc := mkVerifierConfig _ _ _ _) in *. set (v0 := mkVerifier _ _ _ _ _ _ _).
  set (v1 := mkVerifier ∅ zeroTime 0 true 0 1 ∅). set (v2 := mkVerifier ks (UTC (ev_now e4)) age false 0 1 {[0%nat]}).
  assert (step vc e1 (Called (JVerify raw)) v0 = Some (v0, Refresh (JVerify raw) true)) as S1.
  { cbn [step]. apply String.eqb_neq in Hraw. by rewrite Hraw, Hkid. }
  assert (step vc e4 (Fetching (JVerify raw) 0) v1 = Some (v2, Refreshed (JVerify raw))) as S4.
  { cbn [step]. rewrite Hf. cbn [after_refresh]. unfold v1, v2. cbn. by rewrite (right_id_L ∅ (∪)). }
  assert (step vc e5 (Refreshed (JVerify raw)) v2 = Some (v2, HasKey raw key)) as S5.
  { cbn [step]. rewrite Hkid. unfold v2 at 1. cbn [keys]. rewrite Hkey.
    assert (usableLocked vc v2 (ev_now e5) = true) as ->; [|done]. unfold usableLocked.
    rewrite bool_decide_eq_false_2 by (intros He; cbn [keys v2] in He; subst ks; done). cbn. apply Z.leb_le.
    unfold Sub. cbn. lia. }
  assert (step vc e6 (HasKey raw key) v2 = Some (v2, Returned (JVerify raw) (Ok (claims_actor cl)))) as S6.
  { cbn [step]. unfold finish. by rewrite Hc, Hok. }
  exists (mkSys v2 [Returned (JVerify raw) (Ok (claims_actor cl))]). split; [|done].
  unfold run_verifier, cold_call.
  change (run Called (step vc) [Run 0 e1; Run 0 e2; Run 0 e3; Run 0 e4; Run 0 e5; Run 0 e6] (mkSys v0 [Called (JVerify raw)])
    = Some (mkSys v2 [Returned (JVerify raw) (Ok (claims_actor cl))])).
  rewrite run_alone, S1. cbn [mbind option_bind fst snd]. rewrite run_alone. cbn [step negb andb mbind option_bind fst snd].
  rewrite run_alone. cbn [step negb andb mbind option_bind fst snd refreshing v0 made keys loadedAt cacheAge closed].
  fold v1. rewrite run_alone, S4. cbn [mbind option_bind fst snd]. rewrite run_alone, S5. cbn [mbind option_bind fst snd].
  by rewrite run_alone, S6.
Qed.
End ColdStart.
