(* ===== verification/GatewayTokens.v ===== *)
(** * Gateway: its own service token

    [apps/gateway/internal/adapters/outbound/identity]: the client that buys the
    Gateway's service token from Identity and keeps it until shortly before it
    expires, and the static token used in development.  The lock is not held
    while Identity is asked, so calls interleave. *)
From Stdlib Require Import ZArith Lia Ascii String.
From stdpp Require Import base gmap strings list.
From S2P Require Import Prelude GoStrings GoErrors GoTime GoJson GoBase64 GoURL GoHttp.
From S2P Require Import Interleave GatewayDomain GatewayService.

Open Scope string_scope.
Open Scope Z_scope.

(** ** The static token *)

Definition StaticToken_Token `{GoLib} (s : string) : result goerr string :=
  if (TrimSpace s =? "")%string then Err (NewErr "static service token is empty") else Ok s.
Definition StaticToken_Refresh `{GoLib} (s : string) : result goerr string := StaticToken_Token s.

(** ** The client *)

Record TokenClient := mkTokenClient { baseURL : string; clientID : string; secret : string; scopes : list string }.
Definition NewTokenClient `{GoLib} (baseURL clientID secret : string) (scopes : list string)
  : result goerr TokenClient :=
  if (TrimSpace baseURL =? "")%string || (TrimSpace clientID =? "")%string || (TrimSpace secret =? "")%string ||
     bool_decide (scopes = [])
  then Err (NewErr "identity service-token configuration is incomplete")
  else Ok (mkTokenClient (trim_right_byte "/" baseURL) clientID secret scopes).

(** The fields under the lock. *)
Record TokenCache := mkTokenCache { token : string; expiresAt : Time }.
Definition no_token : TokenCache := mkTokenCache "" zeroTime.

(** What Identity answered to the request for a token: nothing (also when the
    request could not be made), or the status and the body, [None] when reading
    it failed. *)
Definition token_answer : Type := option (Z * option string).

Section Answers.
Context `{GoLib}.

(** The body that is sent; the keys of a Go map are written in order. *)
Definition token_request (c : TokenClient) : json :=
  jmap [("client_id", jstr (clientID c)); ("client_secret", jstr (secret c)); ("scopes", JArr (map jstr (scopes c)))].
Definition token_url (c : TokenClient) : string := baseURL c +:+ "/v1/auth/service-token".

Record token_result := mkTokenResult { AccessToken : string; ExpiresIn : Z }.
Definition dec_token_result (fs : list (string * json)) : option token_result :=
  t ← dec_field dec_string "" "access_token" fs;
  n ← dec_field dec_int64 0 "expires_in" fs;
  Some (mkTokenResult t n).

Definition token_result_of (answer : token_answer) : result goerr token_result :=
  match answer with
  | None => Err (NewErr "identity service-token request failed")
  | Some (status, body) =>
      if negb (status =? 200) then Err (NewErr ("identity service-token status " +:+ Itoa status))
      else match body with
           | None => Err (NewErr "identity service-token body could not be read")
           | Some b =>
               match unmarshal_struct dec_token_result (take_string (64 * 2 ^ 10) b) with
               | Some r => if (AccessToken r =? "")%string || (ExpiresIn r <=? 0)
                           then Err (NewErr "invalid identity service-token response") else Ok r
               | None => Err (NewErr "invalid identity service-token response")
               end
           end
  end.
End Answers.

(** ** Calls *)

Inductive tcall := TToken | TRefresh.
(** Where a call is: before [Refresh]'s section, before [Token]'s first one,
    waiting for Identity, before the section that stores the answer, returned. *)
Inductive tpc :=
| TClear
| TLook
| TAsk
| TStore (r : token_result)
| TReturned (r : result goerr string).
Definition tcalled (j : tcall) : tpc := match j with TToken => TLook | TRefresh => TClear end.

Record TEv := mkTEv { te_now : Time; te_answer : token_answer }.

Definition expiry (now : Time) (r : token_result) : Time := Add now (wrap_i64 (ExpiresIn r * Second)).

Definition tstep `{GoLib} (e : TEv) (p : tpc) (v : TokenCache) : option (TokenCache * tpc) :=
  match p with
  | TClear => Some (no_token, TLook)
  | TLook =>
      if negb (token v =? "")%string && Before (te_now e) (Add (expiresAt v) (- (30 * Second)))
      then Some (v, TReturned (Ok (token v))) else Some (v, TAsk)
  | TAsk =>
      match token_result_of (te_answer e) with
      | Ok r => Some (v, TStore r)
      | Err err => Some (v, TReturned (Err err))
      end
  | TStore r => Some (mkTokenCache (AccessToken r) (expiry (te_now e) r), TReturned (Ok (AccessToken r)))
  | TReturned _ => None
  end.

Definition tlabel := label TEv tcall.
Definition run_tokens `{GoLib} : list tlabel -> Sys TokenCache tpc -> option (Sys TokenCache tpc) := run tcalled tstep.

(** ** Tokens come from Identity and are not used to their end *)

Section Facts.
Context `{GoLib}.

(** In the run [tr], call [i] was answered [r]. *)
Definition answered (tr : list tlabel) (i : nat) (r : token_result) : Prop :=
  exists l1 l2 e s, tr = (l1 ++ Run i e :: l2)%list /\ run_tokens l1 (start no_token) = Some s /\
    threads s !! i = Some TAsk /\ token_result_of (te_answer e) = Ok r.
(** Later it stored [r], at [t]. *)
Definition stored (tr : list tlabel) (i : nat) (r : token_result) (t : Time) : Prop :=
  exists l1 l2 e s, tr = (l1 ++ Run i e :: l2)%list /\ run_tokens l1 (start no_token) = Some s /\
    threads s !! i = Some (TStore r) /\ answered l1 i r /\ t = te_now e.
(** Call [i] returned the token of [r]: its own, or one another call stored and
    that had more than half a minute left. *)
Definition returned (tr : list tlabel) (i : nat) (t : string) : Prop :=
  (exists r now, stored tr i r now /\ t = AccessToken r) \/
  exists l1 l2 e i' r now, tr = (l1 ++ Run i e :: l2)%list /\ stored l1 i' r now /\ t = AccessToken r /\
    nanos (te_now e) < nanos (expiry now r) - 30 * Second.

Lemma answered_more tr more i r : answered tr i r -> answered (tr ++ more) i r.
Proof.
  intros (l1 & l2 & e & s & -> & H'). exists l1, (l2 ++ more)%list, e, s. by rewrite <- app_assoc.
Qed.
Lemma stored_more tr more i r t : stored tr i r t -> stored (tr ++ more) i r t.
Proof.
  intros (l1 & l2 & e & s & -> & H'). exists l1, (l2 ++ more)%list, e, s. by rewrite <- app_assoc.
Qed.
Lemma returned_more tr more i t : returned tr i t -> returned (tr ++ more) i t.
Proof.
  intros [(r & now & ? & ?)|(l1 & l2 & e & i' & r & now & -> & H')].
  - left. exists r, now. split; [by apply stored_more | done].
  - right. exists l1, (l2 ++ more)%list, e, i', r, now. by rewrite <- app_assoc.
Qed.

Definition cache_ok (tr : list tlabel) (v : TokenCache) : Prop :=
  token v = "" \/ exists i r now, stored tr i r now /\ token v = AccessToken r /\ expiresAt v = expiry now r.
Definition call_ok (tr : list tlabel) (i : nat) (p : tpc) : Prop :=
  match p with
  | TStore r => answered tr i r
  | TReturned (Ok t) => returned tr i t
  | _ => True
  end.

Lemma cache_ok_more tr more v : cache_ok tr v -> cache_ok (tr ++ more) v.
Proof. intros [?|(i & r & now & ? & ?)]; [by left | right; exists i, r, now; split; [by apply stored_more | done]]. Qed.

Lemma tstep_ok tr s i e p w q :
  run_tokens tr (start no_token) = Some s -> threads s !! i = Some p -> tstep e p (shared s) = Some (w, q) ->
  cache_ok tr (shared s) -> call_ok tr i p ->
  cache_ok (tr ++ [Run i e]) w /\ call_ok (tr ++ [Run i e]) i q.
Proof.
  intros Hrun Hi Hs Hc Hp. destruct p as [| | |r|r]; cbn [tstep] in Hs.
  - injection Hs as <- <-. by split; [left|].
  - destruct (_ && _) eqn:Hb; injection Hs as <- <-; (split; [by apply cache_ok_more|]); [|done].
    apply andb_true_iff in Hb as [Hne%negb_true_iff%String.eqb_neq Hlt%Z.ltb_lt].
    destruct Hc as [?|(i' & r & now & Hst & Ht & He)]; [done|]. rewrite He in Hlt. cbn [Add nanos] in Hlt.
    right. exists tr, [], e, i', r, now. split_and!; done || lia.
  - destruct (token_result_of (te_answer e)) as [r|err] eqn:Ha; injection Hs as <- <-;
      (split; [by apply cache_ok_more|]); [|done]. by exists tr, [], e, s.
  - injection Hs as <- <-. cbn in Hp.
    assert (stored (tr ++ [Run i e]) i r (te_now e)) as Hst by (by exists tr, [], e, s).
    split; [right; by exists i, r, (te_now e) | left; by exists r, (te_now e)].
  - done.
Qed.

Lemma run_calls tr s : run_tokens tr (start no_token) = Some s ->
  cache_ok tr (shared s) /\ forall i p, threads s !! i = Some p -> call_ok tr i p.
Proof.
  apply (run_threads tcalled tstep cache_ok call_ok).
  - by left.
  - intros t [j|i e] w Hw; [by apply cache_ok_more | done].
  - intros t l i [| | |r|[x|]]; cbn; auto using answered_more, returned_more.
  - by intros t i [].
  - intros t s1 i e p w q. apply tstep_ok.
Qed.
End Facts.

(** C26: a service token the client returns is one Identity issued: the call
    itself asked for it, or an earlier call did and it still had more than
    thirty seconds to live, by Identity's own count from the moment it was
    stored; whatever the order in which concurrent calls ask, refresh and
    store. *)
Theorem service_tokens_have_time_left `{GoLib} ls s i t :
  run_tokens ls (start no_token) = Some s -> threads s !! i = Some (TReturned (Ok t)) ->
  exists r, t = AccessToken r /\ t <> "" /\ 0 < ExpiresIn r /\
    (answered ls i r \/
     exists before looked after i' now, ls = (before ++ Run i looked :: after)%list /\
       answered before i' r /\ stored before i' r now /\
       nanos (te_now looked) < nanos now + wrap_i64 (ExpiresIn r * Second) - 30 * Second).
Proof.
  intros [_ Hths]%run_calls Hi.
  assert (forall tr i r, answered tr i r -> AccessToken r <> "" /\ 0 < ExpiresIn r) as Hgood.
  { intros tr i0 r (l1 & l2 & e & s0 & _ & _ & _ & Ha). unfold token_result_of in Ha.
    destruct (te_answer e) as [[st [b|]]|]; [| by destruct (negb _) | done].
    destruct (negb _); [done|]. destruct (unmarshal_struct _ _) as [x|]; [|done].
    destruct (_ || _) eqn:Hb; [done|]. injection Ha as ->.
    apply orb_false_iff in Hb as [?%String.eqb_neq ?%Z.leb_gt]. done. }
  assert (forall tr i r now, stored tr i r now -> answered tr i r) as Hsa.
  { intros tr i0 r now (l1 & l2 & e & s0 & -> & _ & _ & Ha & _). by apply answered_more. }
  destruct (Hths _ _ Hi) as [(r & now & Hst & ->)|(l1 & l2 & e & i' & r & now & -> & Hst & -> & Hlt)];
    pose proof (Hsa _ _ _ _ Hst) as Ha; destruct (Hgood _ _ _ Ha) as [Hne Hpos]; exists r; split_and!; try done.
  - by left.
  - right. by exists l1, e, l2, i', now.
Qed.
