(* ===== verification/GatewayConfig.v ===== *)
(** * Gateway: configuration

    [apps/gateway/internal/platform/config/config.go]: reading the environment
    and refusing what is unsafe outside development. *)
From Stdlib Require Import ZArith Lia Ascii String.
From stdpp Require Import base gmap strings list.
From S2P Require Import Prelude GoStrings GoErrors GoTime GoURL GoHttp.

Open Scope string_scope.
Open Scope Z_scope.

(** The environment: [Source.Lookup]. *)
Definition Source : Type := string -> option string.

Record Config := mkConfig {
  HTTPAddr : string; Environment : string; LogLevel : string; MetricsPath : string; OpenAPIPath : string;
  ShutdownTimeout : Z; ReadinessTimeout : Z; IdentityURL : string; OrdersURL : string; JWKSURL : string;
  Issuer : string; HumanAudience : string; RedisURL : string; ServiceClientID : string;
  ServiceClientSecret : string; ServiceScopes : list string; StaticServiceToken : string;
  TrustProxyHeaders : bool; MaxResponseBytes : Z; OTelEndpoint : string; OTelInsecure : bool;
  CORSOrigins : list string
}.

Definition default_scopes : list string :=
  ["orders:read:self"; "orders:read:any"; "orders:write:self"; "orders:write:any"; "orders:cancel:self";
   "orders:cancel:any"; "identity:sessions:read"; "identity:sessions:write"].

Section Config.
Context `{GoLib} `{DurationLib}.

Definition blank (s : string) : bool := (TrimSpace s =? "")%string.

(** A variable that is set to more than white space. *)
Definition lookup (source : Source) (key : string) : option string :=
  match source key with
  | Some v => if blank v then None else Some v
  | None => None
  end.

Definition value (source : Source) (key fallback : string) : string := default fallback (lookup source key).
Definition csv (source : Source) (key : string) (fallback : list string) : list string :=
  match lookup source key with
  | None => fallback
  | Some raw => List.filter (fun v => negb (v =? "")%string) (map TrimSpace (Split raw ","))
  end.
Definition duration (source : Source) (key : string) (fallback : Z) : Z :=
  match lookup source key with None => fallback | Some raw => default (-1) (ParseDuration raw) end.
Definition integer (source : Source) (key : string) (fallback : Z) : Z :=
  match lookup source key with None => fallback | Some raw => default (-1) (Atoi raw) end.
Definition boolean (source : Source) (key : string) (fallback : bool) : bool :=
  match lookup source key with None => fallback | Some raw => default false (ParseBool raw) end.
Definition validateBoolean (source : Source) (key : string) : option goerr :=
  match lookup source key with
  | None => None
  | Some raw => match ParseBool raw with
                | Some _ => None
                | None => Some (NewErr (key +:+ " must be a boolean"))
                end
  end.

Definition validateURL (raw name : string) : option goerr :=
  let bad := Some (NewErr (name +:+ " must be an HTTP or HTTPS URL")) in
  match Parse raw with
  | None => bad
  | Some parsed =>
      if (negb (u_Scheme parsed =? "http")%string && negb (u_Scheme parsed =? "https")%string)
         || (u_Host parsed =? "")%string
      then bad else None
  end.
Definition isHTTPS (raw : string) : bool := HasPrefix (ToLower raw) "https://".
Definition isRediss (raw : string) : bool := HasPrefix (ToLower raw) "rediss://".
Definition contains (values : list string) (wanted : string) : bool :=
  existsb (fun v => (TrimSpace v =? wanted)%string) values.

(** The first error of a list of checks. *)
Fixpoint first_error (checks : list (option goerr)) : option goerr :=
  match checks with
  | [] => None
  | Some e :: _ => Some e
  | None :: rest => first_error rest
  end.
Definition refuse_if (bad : bool) (text : string) : option goerr := if bad then Some (NewErr text) else None.

(** The checks of [Validate], in order. *)
Definition checks (c : Config) : list (option goerr) :=
  let env := Environment c in
  let deployed := negb (env =? "development")%string in
  let https := isHTTPS (IdentityURL c) && isHTTPS (OrdersURL c) && isHTTPS (JWKSURL c) in
    [refuse_if (blank (HTTPAddr c)) "GATEWAY_HTTP_ADDR must not be empty";
     refuse_if (negb (env =? "development")%string && negb (env =? "staging")%string &&
                negb (env =? "production")%string)
       "GATEWAY_ENVIRONMENT must be development, staging, or production";
     refuse_if ((ShutdownTimeout c <=? 0) || (ReadinessTimeout c <=? 0)) "Gateway timeouts must be positive";
     refuse_if (negb (MetricsPath c =? "/metrics")%string) "GATEWAY_METRICS_PATH must be /metrics";
     validateURL (IdentityURL c) "GATEWAY_IDENTITY_URL";
     validateURL (OrdersURL c) "GATEWAY_ORDERS_URL";
     validateURL (JWKSURL c) "GATEWAY_JWKS_URL";
     refuse_if (blank (Issuer c) || blank (HumanAudience c)) "Gateway issuer and human audience are required";
     refuse_if ((MaxResponseBytes c <=? 0) || (16 * 2 ^ 20 <? MaxResponseBytes c))
       "GATEWAY_MAX_RESPONSE_BYTES must be between 1 and 16777216";
     refuse_if (bool_decide (ServiceScopes c = [])) "GATEWAY_SERVICE_SCOPES must not be empty";
     refuse_if (deployed && (blank (ServiceClientID c) || blank (ServiceClientSecret c)))
       "service client credentials are required outside development";
     refuse_if (deployed && negb (StaticServiceToken c =? "")%string)
       "static service token is allowed only in development";
     refuse_if ((env =? "production")%string && negb https)
       "internal HTTP and JWKS URLs must use HTTPS in production";
     refuse_if ((env =? "production")%string && negb (isRediss (RedisURL c)))
       "GATEWAY_REDIS_URL must use rediss:// in production";
     refuse_if ((env =? "staging")%string && (negb https || negb (isRediss (RedisURL c))))
       "staging internal HTTP and Redis URLs must use TLS";
     refuse_if (deployed && blank (OTelEndpoint c)) "GATEWAY_OTEL_ENDPOINT is required outside development";
     refuse_if (deployed && OTelInsecure c) "GATEWAY_OTEL_INSECURE must be false outside development";
     refuse_if (deployed && negb (StaticServiceToken c =? "")%string)
       "static service token is allowed only in development";
     refuse_if (negb (bool_decide (CORSOrigins c = [])) && contains (CORSOrigins c) "*")
       "wildcard CORS origin is not allowed"].
Definition Validate (c : Config) : option goerr := first_error (checks c).

Definition read_config (source : Source) : Config :=
  mkConfig (value source "GATEWAY_HTTP_ADDR" ":8080") (value source "GATEWAY_ENVIRONMENT" "development")
    (value source "GATEWAY_LOG_LEVEL" "info") (value source "GATEWAY_METRICS_PATH" "/metrics")
    (value source "GATEWAY_OPENAPI_PATH" "contracts/openapi/gateway.openapi.yaml")
    (duration source "GATEWAY_SHUTDOWN_TIMEOUT" (10 * Second))
    (duration source "GATEWAY_READINESS_TIMEOUT" (2 * Second))
    (value source "GATEWAY_IDENTITY_URL" "http://localhost:8080")
    (value source "GATEWAY_ORDERS_URL" "http://localhost:8082")
    (value source "GATEWAY_JWKS_URL" "http://localhost:8080/.well-known/jwks.json")
    (value source "GATEWAY_ISSUER" "identity.local") (value source "GATEWAY_HUMAN_AUDIENCE" "platform-api")
    (value source "GATEWAY_REDIS_URL" "redis://localhost:6379/1")
    (value source "GATEWAY_SERVICE_CLIENT_ID" "") (value source "GATEWAY_SERVICE_CLIENT_SECRET" "")
    (csv source "GATEWAY_SERVICE_SCOPES" default_scopes) (value source "GATEWAY_SERVICE_TOKEN" "")
    (boolean source "GATEWAY_TRUST_PROXY_HEADERS" false)
    (integer source "GATEWAY_MAX_RESPONSE_BYTES" (4 * 2 ^ 20))
    (value source "GATEWAY_OTEL_ENDPOINT" "") (boolean source "GATEWAY_OTEL_INSECURE" false)
    (csv source "GATEWAY_CORS_ORIGINS" []).

Definition Load (source : Source) : result goerr Config :=
  let c := read_config source in
  match first_error [validateBoolean source "GATEWAY_TRUST_PROXY_HEADERS";
                     validateBoolean source "GATEWAY_OTEL_INSECURE"; Validate c] with
  | Some e => Err e
  | None => Ok c
  end.

(** ** What a configuration that loads guarantees *)

Record gateway_deployed_safely (c : Config) : Prop := {
  gd_tls : isHTTPS (IdentityURL c) = true /\ isHTTPS (OrdersURL c) = true /\ isHTTPS (JWKSURL c) = true /\
           isRediss (RedisURL c) = true;
  gd_credentials : blank (ServiceClientID c) = false /\ blank (ServiceClientSecret c) = false /\
                   StaticServiceToken c = "";
  gd_otel : OTelInsecure c = false /\ blank (OTelEndpoint c) = false
}.

Lemma first_error_none checks i o : first_error checks = None -> checks !! i = Some o -> o = None.
Proof.
  revert i. induction checks as [|[e|] rest IH]; intros [|i]; cbn; try done; [by intros _ [= <-] | by apply IH].
Qed.
Lemma refuse_if_none b text : refuse_if b text = None <-> b = false.
Proof. by destruct b. Qed.
End Config.

(** A configuration that loads has a bound on what a service behind may
    answer and admits no wildcard origin; and outside development it is safe to
    deploy: the services behind, the key set and Redis are reached over TLS, the
    Gateway buys its service tokens with its own credentials and has no static
    one, and telemetry is secure. *)
Theorem gateway_configuration_is_safe `{GoLib} `{DurationLib} source c :
  Load source = Ok c ->
  0 < MaxResponseBytes c <= 16 * 2 ^ 20 /\ contains (CORSOrigins c) "*" = false /\
  (Environment c <> "development" -> gateway_deployed_safely c).
Proof.
  unfold Load. destruct (first_error _) as [e|] eqn:Hf; [done|]. intros [= <-].
  pose proof (first_error_none _ 2 _ Hf eq_refl) as Hval. clear Hf.
  set (c := read_config source) in *. clearbody c.
  assert (forall i b text, checks c !! i = Some (refuse_if b text) -> b = false) as Hcheck.
  { intros i b text Hi. apply (refuse_if_none b text).
    exact (first_error_none _ i _ Hval Hi). }
  split_and!.
  - pose proof (Hcheck 8%nat _ _ eq_refl) as Hm. apply orb_false_iff in Hm as [Hm%Z.leb_gt _]. lia.
  - pose proof (Hcheck 8%nat _ _ eq_refl) as Hm. apply orb_false_iff in Hm as [_ Hm%Z.ltb_ge]. lia.
  - pose proof (Hcheck 18%nat _ _ eq_refl) as Hm. destruct (CORSOrigins c) as [|o os]; [done|].
    by apply andb_false_iff in Hm as [].
  - intros Hne%String.eqb_neq.
    pose proof (Hcheck 1%nat _ _ eq_refl) as Henv. pose proof (Hcheck 10%nat _ _ eq_refl) as Hcred.
    pose proof (Hcheck 11%nat _ _ eq_refl) as Hstat. pose proof (Hcheck 12%nat _ _ eq_refl) as Hprod.
    pose proof (Hcheck 13%nat _ _ eq_refl) as Hpred. pose proof (Hcheck 14%nat _ _ eq_refl) as Hstag.
    pose proof (Hcheck 15%nat _ _ eq_refl) as Hend. pose proof (Hcheck 16%nat _ _ eq_refl) as Hins.
    rewrite Hne in Henv, Hcred, Hstat, Hend, Hins. cbn [negb andb] in *.
    apply orb_false_iff in Hcred as [? ?]. apply negb_false_iff, String.eqb_eq in Hstat.
    split; [|done|done].
    destruct (Environment c =? "staging")%string, (Environment c =? "production")%string; try done;
      cbn [negb andb] in *; rewrite ?orb_false_iff, !negb_false_iff, !andb_true_iff in *; tauto.
Qed.
