(* ===== verification/GatewayProcess.v ===== *)
(** * Gateway: the process

    [apps/gateway/cmd/api/main.go]: how [run] loads the configuration, opens
    Redis, waits for Identity's keys and puts the Gateway together, and what is
    true of a Gateway that serves. *)
From Stdlib Require Import ZArith Lia Ascii String.
From stdpp Require Import base gmap strings list.
From S2P Require Import Prelude GoStrings GoErrors GoTime GoURL GoHttp GoCrypto Interleave GoProcess.
From S2P Require Import GatewayDomain GatewayService GatewayUpstream GatewayHTTP GatewayVerifier GatewayTokens GatewayConfig.

Open Scope string_scope.
Open Scope Z_scope.
Open Scope go_scope.

(** Where the Gateway's service token comes from. *)
Inductive TokenSource := FixedToken (s : string) | BoughtToken (c : TokenClient).

Record Gateway := mkGateway {
  gw_config : GatewayConfig.Config;
  gw_options : VerifierConfig;
  gw_verifier : Verifier;
  gw_tokens : TokenSource;
  gw_upstream : Client;
  gw_server : Server
}.

(** [gateway.NewService] of the application layer, by which ports are there. *)
Definition GatewayService_New (verifier limiter tokens upstream : bool) : result goerr unit :=
  if negb verifier || negb limiter || negb tokens || negb upstream
  then Err (NewErr "gateway dependencies are required") else Ok tt.
(** [NewServer] with its refusals. *)
Definition GatewayServer_New `{GoLib} (metricsPath : string) (service verifier limiter : bool)
    (demoRegistration trustProxyHeaders : bool) (corsOrigins : list string) (openapi nonce : option string)
  : result goerr Server :=
  if negb service || negb verifier || negb limiter then Err (NewErr "gateway HTTP dependencies are required")
  else if negb (metricsPath =? "/metrics")%string then Err (NewErr "Gateway metrics path must be /metrics")
  else Ok (NewServer demoRegistration trustProxyHeaders corsOrigins openapi nonce).

Section Run.
Context `{GoLib} `{DurationLib} `{JwtLib} `{UuidLib} `{Host}.
(** What the first check of the verifier meets: the clock and the key set. *)
Context (startup : nat -> Ev) (openapi nonce : option string).

(** [verifier.Check] on the new verifier: four steps of one goroutine. *)
Definition first_check (vc : VerifierConfig) (v0 : Verifier) : result goerr Verifier :=
  match run_verifier vc [Spawn JCheck; Run 0 (startup 0%nat); Run 0 (startup 1%nat); Run 0 (startup 2%nat); Run 0 (startup 3%nat)]
          (start v0) with
  | Some st => match threads st with
               | [Returned JCheck (Ok _)] => Ok (shared st)
               | [Returned JCheck (Err e)] => Err e
               | _ => Err ErrNotReady
               end
  | None => Err ErrNotReady
  end.

Definition token_source (cfg : GatewayConfig.Config) : result goerr TokenSource :=
  if negb (StaticServiceToken cfg =? "")%string then Ok (FixedToken (StaticServiceToken cfg))
  else match NewTokenClient (IdentityURL cfg) (ServiceClientID cfg) (ServiceClientSecret cfg) (ServiceScopes cfg) with
       | Ok c => Ok (BoughtToken c)
       | Err e => Err e
       end.
Definition upstream_urls (cfg : GatewayConfig.Config) : gmap string string :=
  {["identity" := IdentityURL cfg; "orders" := OrdersURL cfg]}.

Definition gateway_run (source : Source) : Proc unit :=
  plet cfg := plift (GatewayConfig.Load source) in
  plet _ := acquire "telemetry" in
  plet _ := hold "signals" in
  plet _ := acquire "redis" in
  plet made := plift (NewVerifier true (Issuer cfg) (HumanAudience cfg)) in
  plet _ := hold "startup context" in
  plet verifier := plift (first_check (fst made) (snd made)) in
  plet _ := attempt "redis check" in
  plet tokens := plift (token_source cfg) in
  plet upstream := plift (NewClient (upstream_urls cfg) (MaxResponseBytes cfg)) in
  plet _ := plift (GatewayService_New true true true true) in
  plet server := plift (GatewayServer_New (MetricsPath cfg) true true true (Environment cfg =? "development")%string
                          (TrustProxyHeaders cfg) (CORSOrigins cfg) openapi nonce) in
  serve_until_signal (mkGateway cfg (fst made) verifier tokens upstream server).

#[export] Instance gateway_run_disciplined source : Disciplined (gateway_run source).
Proof. unfold gateway_run. apply _. Qed.

(** The check ends, with the keys that were fetched or the error. *)
Lemma first_check_spec iss aud vc v0 : NewVerifier true iss aud = Ok (vc, v0) ->
  first_check vc v0 =
  match Fetch (ev_answer (startup 3%nat)) with
  | Ok (ks, age) => Ok (mkVerifier ks (UTC (ev_now (startup 3%nat))) age false 0 1 {[0%nat]})
  | Err e => Err e
  end.
Proof.
  intros Hn. unfold NewVerifier in Hn. destruct (_ || _); [done|]. injection Hn as <- <-.
  unfold first_check, run_verifier.
  change (run Called ?st (Spawn JCheck :: ?ls) (start ?v)) with (run Called st ls (mkSys v [Called JCheck])).
  rewrite run_alone. cbn [step mbind option_bind fst snd]. rewrite run_alone. cbn [step negb andb].
  unfold isFreshLocked at 1. cbn [keys bool_decide negb andb]. rewrite bool_decide_eq_true_2 by done. cbn [negb andb mbind option_bind fst snd].
  rewrite run_alone. cbn [step negb andb]. unfold isFreshLocked at 1. cbn [keys]. rewrite bool_decide_eq_true_2 by done.
  cbn [negb andb refreshing mbind option_bind fst snd keys loadedAt cacheAge made closed].
  rewrite run_alone. cbn [step]. destruct (Fetch _) as [[ks age]|e];
    cbn [mbind option_bind fst snd after_refresh run threads shared keys refreshDone made closed]; [|done].
  by rewrite (right_id_L ∅ (∪)).
Qed.
End Run.

(** A Gateway that serves was put together as its configuration says, and
    only after its dependencies answered: the configuration loads; the verifier
    is for the configured issuer and audience and holds keys that were fetched;
    Redis took a command; requests go only to the configured Identity and
    Orders; demo registration is open only in development; and outside
    development the configuration is safe and the service token is bought with
    the Gateway's own credentials.  Whatever happens, everything [run] opened
    is closed in the opposite order, after the last thing it did. *)
Theorem gateway_serves_only_when_ready `{GoLib} `{DurationLib} `{JwtLib} `{UuidLib} `{Host} startup openapi nonce source t r :
  run_process (gateway_run startup openapi nonce source) = (t, r) ->
  (exists body, t = (body ++ map Closed (rev (opened body)))%list /\ existsb is_close body = false) /\
  forall g, serves (gateway_run startup openapi nonce source) (mkPSt [] [] 0) g ->
    servings t = [g] /\
    let cfg := gw_config g in
    GatewayConfig.Load source = Ok cfg /\
    gw_options g = mkVerifierConfig (Issuer cfg) (HumanAudience cfg) (5 * Minute) (15 * Minute) /\
    (exists age, Fetch (ev_answer (startup 3%nat)) = Ok (keys (gw_verifier g), age)) /\
    Did "redis check" ∈ t /\
    c_URLs (gw_upstream g) = {["identity" := IdentityURL cfg; "orders" := OrdersURL cfg]} /\
    0 < c_MaxResponseSize (gw_upstream g) <= 16 * 2 ^ 20 /\
    (sv_demoRegistration (gw_server g) = true <-> Environment cfg = "development") /\
    (Environment cfg <> "development" -> gateway_deployed_safely cfg /\
       exists c, gw_tokens g = BoughtToken c /\ clientID c = ServiceClientID cfg /\ secret c = ServiceClientSecret cfg).
Proof.
  intros Hr. split; [by eapply run_process_closes; [apply gateway_run_disciplined|]|]. intros g Hg.
  split; [by eapply served_once|].
  pose proof (ran_trace _ _ _ Hr) as Hin. unfold gateway_run in Hg, Hin.
  served_step Hg Hin s1 cfg E1.
  served_step Hg Hin s2 u2 E2.
  served_step Hg Hin s3 u3 E3.
  served_step Hg Hin s4 u4 E4.
  served_step Hg Hin s5 made_ E5. destruct made_ as [vc v0].
  served_step Hg Hin s6 u6 E6.
  served_step Hg Hin s7 v E7.
  served_step Hg Hin s8 u8 E8.
  assert (Did "redis check" ∈ t) as Hredis by (eapply Hin, attempt_stays; [apply _ | exact E8]). clear Hin.
  served_step Hg Hin s9 tokens E9.
  served_step Hg Hin s10 up E10.
  served_step Hg Hin s11 u11 E11.
  served_step Hg Hin s12 server E12. apply serves_now in Hg. subst g.
  apply plift_ok in E1 as [_ Hload], E5 as [_ Hnew], E7 as [_ Hcheck], E9 as [_ Htok], E10 as [_ Hup], E12 as [_ Hsrv]. cbn [fst snd gw_config gw_options gw_verifier gw_tokens gw_upstream gw_server].
  destruct (gateway_configuration_is_safe _ _ Hload) as (Hmax & _ & Hsafe).
  split; [done|]. split; [unfold NewVerifier in Hnew; destruct (_ || _) in Hnew; [done|]; by injection Hnew as <- _|].
  split.
  { rewrite (first_check_spec _ _ _ _ _ Hnew) in Hcheck. destruct (Fetch _) as [[ks age]|]; [|done].
    injection Hcheck as <-. by exists age. }
  split; [done|].
  assert (c_URLs up = upstream_urls cfg /\ c_MaxResponseSize up = MaxResponseBytes cfg) as [-> ->].
  { unfold NewClient in Hup. case_bool_decide; [discriminate Hup|]. injection Hup as <-. split; [done|]. cbn.
    destruct (Z.leb_spec (MaxResponseBytes cfg) 0); [lia | done]. }
  split; [done|]. split; [done|]. split.
  { unfold GatewayServer_New in Hsrv. cbn [negb orb] in Hsrv. destruct (negb _) in Hsrv; [done|]. injection Hsrv as <-. cbn.
    apply String.eqb_eq. }
  intros Hdep. pose proof (Hsafe Hdep) as Hs. split; [done|]. destruct (gd_credentials _ Hs) as (_ & _ & Hst).
  unfold token_source in Htok. rewrite Hst in Htok. cbn [negb String.eqb] in Htok. unfold NewTokenClient in Htok.
  destruct (_ || _) in Htok; [done|]. injection Htok as <-. by eexists.
Qed.
