(* ===== verification/OrdersDomain.v ===== *)
(** * Orders: the order aggregate

    [apps/orders/internal/domain/orders]: the order record, its constructor
    [NewOrder], the transitions of its status machine and [ApplyQuote], with
    the aggregate invariant, the status graph and the pricing arithmetic.

    A method with a pointer receiver is a function of the object ([None] is a
    nil receiver) that returns the object after the call and the error, [None]
    for nil. *)
From Stdlib Require Import ZArith Lia Ascii String.
From stdpp Require Import base gmap strings list relations.
From S2P Require Import Prelude GoStrings GoErrors GoTime.

Open Scope string_scope.
Open Scope Z_scope.
Open Scope go_scope.

(** ** Data *)

Definition MaxItems : nat := 100.
Definition MaxQuantity : Z := 1000.
Definition MaxTotalMinor : Z := 1000000000.
Definition InitialVersion : Z := 1.

Definition Status := string.
Definition StatusPending : Status := "PENDING".
Definition StatusConfirmed : Status := "CONFIRMED".
Definition StatusCancelReq : Status := "CANCEL_REQUESTED".
Definition StatusCancelled : Status := "CANCELLED".
Definition StatusCompleted : Status := "COMPLETED".
Definition StatusFailed : Status := "FAILED".

Definition IsTerminal (s : Status) : bool :=
  (s =? StatusCancelled)%string || (s =? StatusCompleted)%string || (s =? StatusFailed)%string.

Record Item := mkItem {
  ProductID : string;
  Quantity : Z;
  UnitPriceMinor : option Z;
  LineTotalMinor : option Z;
  QuoteID : option string;
  QuoteVersion : option Z
}.

Record Order := mkOrder {
  ID : string;
  CustomerID : string;
  Currency : string;
  Items : list Item;
  TotalMinor : option Z;
  ReservationID : option string;
  PaymentID : option string;
  ShipmentID : option string;
  FailureCode : option string;
  InventoryReleased : bool;
  PaymentRefunded : bool;
  OStatus : Status;
  Version : Z;
  CreatedAt : Time;
  UpdatedAt : Time
}.

(** ** Errors *)

Definition domain_error (text : string) : goerr := Sentinel "orders/domain" text.
Definition ErrInvalidOrderID := domain_error "invalid order id".
Definition ErrInvalidCustomerID := domain_error "invalid customer id".
Definition ErrInvalidProductID := domain_error "invalid product id".
Definition ErrInvalidCurrency := domain_error "invalid currency".
Definition ErrEmptyOrder := domain_error "order must contain at least one item".
Definition ErrTooManyItems := domain_error "order contains too many items".
Definition ErrInvalidQuantity := domain_error "item quantity is invalid".
Definition ErrDuplicateProduct := domain_error "order contains a duplicate product".
Definition ErrInvalidTransition := domain_error "invalid order transition".
Definition ErrTerminalOrder := domain_error "terminal order cannot transition".
Definition ErrInvalidTimestamp := domain_error "order timestamp must be UTC".
Definition ErrInvalidMoney := domain_error "money amount is invalid".
Definition ErrMoneyOverflow := domain_error "money amount exceeds order limit".
Definition ErrPricesAlreadySet := domain_error "order prices are already set".
Definition ErrMissingPrereq := domain_error "order confirmation prerequisites are missing".
Definition ErrStaleVersion := domain_error "order aggregate version is stale".

(** ** Identifier patterns *)

Definition id_pattern (pre : string) : re := prefixed pre is_alnum 1 None.
Definition orderIDPattern : re := id_pattern "ord_".
Definition customerIDPattern : re := id_pattern "usr_".
Definition productIDPattern : re := id_pattern "prd_".
Definition quoteIDPattern : re := id_pattern "qte_".
Definition reservationIDPattern : re := id_pattern "res_".
Definition paymentIDPattern : re := id_pattern "pay_".
Definition shipmentIDPattern : re := id_pattern "shp_".
Definition currencyPattern : re := prefixed "" is_upper 3 (Some 3%nat).

Definition ValidOrderID (value : string) : bool := MatchString orderIDPattern value.
Definition ValidCustomerID (value : string) : bool := MatchString customerIDPattern value.
Definition ValidProductID (value : string) : bool := MatchString productIDPattern value.
Definition ValidReservationID (value : string) : bool := MatchString reservationIDPattern value.
Definition ValidPaymentID (value : string) : bool := MatchString paymentIDPattern value.
Definition ValidShipmentID (value : string) : bool := MatchString shipmentIDPattern value.

Lemma ValidOrderID_spec v :
  ValidOrderID v = true <->
  exists t, v = "ord_" +:+ t /\ Forall (fun c => is_alnum c = true) (bytes t) /\
            (1 <= String.length t)%nat /\ True.
Proof. apply (match_prefixed "ord_" is_alnum 1 None v I). Qed.

(** Identifiers are words of ASCII letters and digits after their prefix. *)
Lemma alnum_plain c : is_alnum c = true -> plain_byte c.
Proof. destruct c as [[] [] [] [] [] [] [] []]; vm_compute; done. Qed.
Lemma id_plain pre s : plain pre -> MatchString (id_pattern pre) s = true -> plain s /\ s <> "".
Proof.
  intros Hp. unfold id_pattern. rewrite match_prefixed by done. intros (t & -> & Ht & Hlen & _). split.
  - unfold plain. rewrite bytes_app. apply Forall_app. split; [done|]. eapply Forall_impl; [exact Ht|]. apply alnum_plain.
  - intros Hs. apply (f_equal bytes) in Hs. rewrite bytes_app in Hs. apply app_eq_nil in Hs as [_ Hs].
    destruct t; [cbn in Hlen; lia | done].
Qed.
Lemma customer_plain s : ValidCustomerID s = true -> plain s /\ s <> "".
Proof. apply id_plain. by repeat constructor. Qed.
Lemma order_id_plain s : ValidOrderID s = true -> plain s /\ s <> "".
Proof. apply id_plain. by repeat constructor. Qed.

(** [now.IsZero() || now.Location() != time.UTC] *)
Definition bad_timestamp (now : Time) : bool := IsZero now || negb (isUTC now).

(** ** NewOrder *)

Fixpoint check_items (seen : gset string) (items : list Item) : result goerr unit :=
  match items with
  | [] => Ok tt
  | item :: rest =>
      check MatchString productIDPattern (ProductID item) else ErrInvalidProductID in
      reject (Quantity item <? 1) || (MaxQuantity <? Quantity item) with ErrInvalidQuantity in
      reject bool_decide (ProductID item ∈ seen) with ErrDuplicateProduct in
      check_items ({[ProductID item]} ∪ seen) rest
  end.

Definition copy_item (item : Item) : Item :=
  mkItem (ProductID item) (Quantity item) None None None None.

Section WithGoLib.
Context `{GoLib}.

Definition normalize_currency (currency : string) : string := ToUpper (TrimSpace currency).

Definition NewOrder (id customerID currency : string) (items : list Item) (now : Time)
  : result goerr Order :=
  check MatchString orderIDPattern id else ErrInvalidOrderID in
  check MatchString customerIDPattern customerID else ErrInvalidCustomerID in
  let currency := normalize_currency currency in
  check MatchString currencyPattern currency else ErrInvalidCurrency in
  reject Nat.eqb (length items) 0 with ErrEmptyOrder in
  reject Nat.ltb MaxItems (length items) with ErrTooManyItems in
  let? _ := check_items ∅ items in
  reject bad_timestamp now with ErrInvalidTimestamp in
  Ok (mkOrder id customerID currency (map copy_item items)
        None None None None None false false StatusPending InitialVersion now now).
End WithGoLib.

(** ** Transitions *)

Definition allowedTransition (from to : Status) : bool :=
  if (from =? StatusPending)%string then
    (to =? StatusConfirmed)%string || (to =? StatusCancelReq)%string || (to =? StatusFailed)%string
  else if (from =? StatusConfirmed)%string then
    (to =? StatusCancelReq)%string || (to =? StatusCompleted)%string || (to =? StatusFailed)%string
  else if (from =? StatusCancelReq)%string then
    (to =? StatusCancelled)%string || (to =? StatusFailed)%string
  else false.

Definition set_status (o : Order) (to : Status) (now : Time) : Order :=
  mkOrder (ID o) (CustomerID o) (Currency o) (Items o) (TotalMinor o) (ReservationID o)
    (PaymentID o) (ShipmentID o) (FailureCode o) (InventoryReleased o) (PaymentRefunded o)
    to (wrap_u64 (Version o + 1)) (CreatedAt o) now.

Definition TransitionIfVersion (o : option Order) (expectedVersion : Z) (to : Status) (now : Time)
  : option Order * option goerr :=
  match o with
  | None => (o, Some ErrInvalidTransition)
  | Some ord =>
      if negb (Version ord =? expectedVersion) then (o, Some ErrStaleVersion)
      else if IsTerminal (OStatus ord) then (o, Some ErrTerminalOrder)
      else if bad_timestamp now then (o, Some ErrInvalidTimestamp)
      else if (to =? StatusConfirmed)%string then (o, Some ErrMissingPrereq)
      else if negb (allowedTransition (OStatus ord) to) then (o, Some ErrInvalidTransition)
      else (Some (set_status ord to now), None)
  end.

(** [o.Version] is read before the call: a nil receiver panics here, so the
    receiver is an order. *)
Definition Transition (o : Order) (to : Status) (now : Time) : option Order * option goerr :=
  TransitionIfVersion (Some o) (Version o) to now.

Definition transitionWithoutPrerequisite (o : Order) (to : Status) (now : Time)
  : Order * option goerr :=
  if IsTerminal (OStatus o) then (o, Some ErrTerminalOrder)
  else if bad_timestamp now then (o, Some ErrInvalidTimestamp)
  else if negb (allowedTransition (OStatus o) to) then (o, Some ErrInvalidTransition)
  else (set_status o to now, None).

Definition Confirm (o : option Order) (inventoryReserved paymentAuthorized : bool)
    (expectedVersion : Z) (now : Time) : option Order * option goerr :=
  if negb inventoryReserved || negb paymentAuthorized then (o, Some ErrMissingPrereq)
  else match o with
       | None => (o, Some ErrMissingPrereq)
       | Some ord =>
           match TotalMinor ord with
           | None => (o, Some ErrMissingPrereq)
           | Some _ =>
               if negb (Version ord =? expectedVersion) then (o, Some ErrStaleVersion)
               else let '(ord', err) := transitionWithoutPrerequisite ord StatusConfirmed now in
                    (Some ord', err)
           end
       end.

(** ** ApplyQuote *)

(** The pricing loop: the running total and the price and total of each line,
    on 64-bit integers. *)
Fixpoint quote_lines (prices : gmap string Z) (total : Z) (items : list Item)
  : result goerr (Z * list (Z * Z)) :=
  match items with
  | [] => Ok (total, [])
  | item :: rest =>
      match prices !! ProductID item with
      | None => Err ErrInvalidMoney
      | Some price =>
          reject (price <? 0) || (MaxTotalMinor <? price) with ErrInvalidMoney in
          reject negb (price =? 0) && (Z.quot MaxTotalMinor price <? Quantity item)
            with ErrMoneyOverflow in
          let lineTotal := wrap_i64 (Quantity item * price) in
          reject wrap_i64 (MaxTotalMinor - lineTotal) <? total with ErrMoneyOverflow in
          let? (t, lines) := quote_lines prices (wrap_i64 (total + lineTotal)) rest in
          Ok (t, (price, lineTotal) :: lines)
      end
  end.

Definition price_item (quoteID : string) (quoteVersion : Z) (item : Item) (line : Z * Z) : Item :=
  mkItem (ProductID item) (Quantity item) (Some (fst line)) (Some (snd line))
    (Some quoteID) (Some quoteVersion).

Definition set_quote (o : Order) (quoteID : string) (quoteVersion : Z)
    (total : Z) (lines : list (Z * Z)) (now : Time) : Order :=
  mkOrder (ID o) (CustomerID o) (Currency o)
    (zip_with (price_item quoteID quoteVersion) (Items o) lines)
    (Some total) (ReservationID o) (PaymentID o) (ShipmentID o) (FailureCode o)
    (InventoryReleased o) (PaymentRefunded o) (OStatus o) (wrap_u64 (Version o + 1))
    (CreatedAt o) now.

Definition ApplyQuote (o : option Order) (quoteID : string) (quoteVersion : Z)
    (prices : gmap string Z) (now : Time) : option Order * option goerr :=
  match o with
  | None => (o, Some ErrInvalidTransition)
  | Some ord =>
      if negb (OStatus ord =? StatusPending)%string ||
         match TotalMinor ord with Some _ => true | None => false end
      then (o, Some ErrPricesAlreadySet)
      else if negb (MatchString quoteIDPattern quoteID) || (quoteVersion <? 1)
      then (o, Some ErrInvalidMoney)
      else if bad_timestamp now then (o, Some ErrInvalidTimestamp)
      else match quote_lines prices 0 (Items ord) with
           | Err e => (o, Some e)
           | Ok (total, lines) => (Some (set_quote ord quoteID quoteVersion total lines now), None)
           end
  end.

(** ** Constructing an order *)

(** What a request must satisfy for [NewOrder] to accept it. *)
Definition item_request_ok (item : Item) : Prop :=
  ValidProductID (ProductID item) = true /\ 1 <= Quantity item <= MaxQuantity.

Lemma check_items_ok_iff seen items :
  check_items seen items = Ok tt <->
  Forall item_request_ok items /\ NoDup (map ProductID items) /\
  Forall (fun i => ProductID i ∉ seen) items.
Proof.
  revert seen; induction items as [|i rest IH]; intros seen; cbn -[bool_decide].
  - split; [repeat split; constructor | done].
  - rewrite !Forall_cons, NoDup_cons; unfold item_request_ok, ValidProductID.
    destruct (MatchString productIDPattern (ProductID i)); [|naive_solver].
    destruct (Z.ltb_spec (Quantity i) 1), (Z.ltb_spec MaxQuantity (Quantity i));
      cbn -[bool_decide]; try (split; [done | lia]).
    case_bool_decide as Hs; [split; [done | naive_solver]|].
    rewrite IH. rewrite !Forall_forall. unfold item_request_ok, ValidProductID.
    setoid_rewrite list_elem_of_fmap. setoid_rewrite elem_of_union.
    setoid_rewrite elem_of_singleton. split.
    + intros (H1 & H2 & H3). split_and!; try naive_solver lia.
    + intros ([_ H1] & [H2 H3] & H4 & H5). split_and!; [done | done |].
      intros x Hx [Heq | Hin]; [apply H2; eauto | by apply (H5 x)].
Qed.

Lemma check_items_err seen items e :
  check_items seen items = Err e ->
  e = ErrInvalidProductID \/ e = ErrInvalidQuantity \/ e = ErrDuplicateProduct.
Proof.
  revert seen; induction items as [|i rest IH]; intros seen; cbn -[bool_decide]; [done|].
  repeat case_match; intros; simplify_eq; eauto.
Qed.

Definition request_ok `{GoLib} (id customerID currency : string) (items : list Item) (now : Time)
  : Prop :=
  ValidOrderID id = true /\ ValidCustomerID customerID = true /\
  MatchString currencyPattern (normalize_currency currency) = true /\
  (1 <= length items <= MaxItems)%nat /\
  Forall item_request_ok items /\ NoDup (map ProductID items) /\
  bad_timestamp now = false.

Definition fresh_order `{GoLib} (id customerID currency : string) (items : list Item) (now : Time)
  : Order :=
  mkOrder id customerID (normalize_currency currency) (map copy_item items)
    None None None None None false false StatusPending InitialVersion now now.

Lemma NewOrder_ok_iff `{GoLib} id customerID currency items now o :
  NewOrder id customerID currency items now = Ok o <->
  request_ok id customerID currency items now /\ o = fresh_order id customerID currency items now.
Proof.
  unfold NewOrder, request_ok, fresh_order, ValidOrderID, ValidCustomerID.
  pose proof (check_items_ok_iff ∅ items) as Hc.
  destruct (MatchString orderIDPattern id); [|naive_solver].
  destruct (MatchString customerIDPattern customerID); [|naive_solver].
  destruct (MatchString currencyPattern _); [|naive_solver].
  destruct (Nat.eqb_spec (length items) 0); [split; [done | lia]|].
  destruct (Nat.ltb_spec MaxItems (length items)); [split; [done | lia]|].
  assert (Forall (fun i => ProductID i ∉ (∅ : gset string)) items) as He.
  { apply Forall_forall; set_solver. }
  destruct (check_items ∅ items) as [[]|e]; [|naive_solver].
  destruct (bad_timestamp now); [naive_solver|].
  destruct Hc as [Hc _]; specialize (Hc eq_refl).
  split; [intros; simplify_eq; naive_solver lia | naive_solver].
Qed.

(** ** The aggregate invariant *)

Definition statuses : list Status :=
  [StatusPending; StatusConfirmed; StatusCancelReq; StatusCancelled; StatusCompleted; StatusFailed].

Definition item_unpriced (i : Item) : Prop :=
  UnitPriceMinor i = None /\ LineTotalMinor i = None /\ QuoteID i = None /\ QuoteVersion i = None.

Definition item_priced (qid : string) (qv : Z) (i : Item) : Prop :=
  exists p, UnitPriceMinor i = Some p /\ 0 <= p <= MaxTotalMinor /\
            LineTotalMinor i = Some (Quantity i * p) /\
            QuoteID i = Some qid /\ QuoteVersion i = Some qv.

Fixpoint sumZ (l : list Z) : Z := match l with [] => 0 | x :: r => x + sumZ r end.

Definition lines_total (items : list Item) : Z := sumZ (map (fun i => default 0 (LineTotalMinor i)) items).

(** An order is either wholly unpriced or wholly priced by one quote, whose
    exact total it carries. *)
Definition pricing_ok (o : Order) : Prop :=
  match TotalMinor o with
  | None => Forall item_unpriced (Items o)
  | Some t =>
      (exists qid qv, MatchString quoteIDPattern qid = true /\ 1 <= qv /\
                      Forall (item_priced qid qv) (Items o)) /\
      t = lines_total (Items o) /\ 0 <= t <= MaxTotalMinor
  end.

Record order_wf (o : Order) : Prop := {
  wf_id : ValidOrderID (ID o) = true;
  wf_customer : ValidCustomerID (CustomerID o) = true;
  wf_currency : MatchString currencyPattern (Currency o) = true;
  wf_length : (1 <= length (Items o) <= MaxItems)%nat;
  wf_items : Forall item_request_ok (Items o);
  wf_nodup : NoDup (map ProductID (Items o));
  wf_pricing : pricing_ok o;
  wf_status : OStatus o ∈ statuses;
  wf_paid : OStatus o = StatusConfirmed \/ OStatus o = StatusCompleted -> is_Some (TotalMinor o);
  wf_version : in_u64 (Version o);
  wf_updated : bad_timestamp (UpdatedAt o) = false
}.

Lemma allowedTransition_spec from to :
  allowedTransition from to = true <->
  (from, to) ∈ [(StatusPending, StatusConfirmed); (StatusPending, StatusCancelReq);
                (StatusPending, StatusFailed); (StatusConfirmed, StatusCancelReq);
                (StatusConfirmed, StatusCompleted); (StatusConfirmed, StatusFailed);
                (StatusCancelReq, StatusCancelled); (StatusCancelReq, StatusFailed)].
Proof.
  unfold allowedTransition.
  rewrite !elem_of_cons, elem_of_nil, !pair_equal_spec.
  destruct (String.eqb_spec from StatusPending) as [->|]; [|
  destruct (String.eqb_spec from StatusConfirmed) as [->|]; [|
  destruct (String.eqb_spec from StatusCancelReq) as [->|]]];
  rewrite ?orb_true_iff, ?String.eqb_eq;
  split; intros ?; destruct_or?; destruct_and?; first [tauto | discriminate].
Qed.

(** Case analysis on an edge of the status graph. *)
Ltac edge_cases H :=
  rewrite allowedTransition_spec, !elem_of_cons, elem_of_nil, !pair_equal_spec in H;
  destruct_or? H; try contradiction; destruct H; subst.

Lemma allowed_target from to : allowedTransition from to = true -> to ∈ statuses.
Proof. intros He; edge_cases He; unfold statuses; rewrite !elem_of_cons; tauto. Qed.

Lemma allowed_not_terminal from to : allowedTransition from to = true -> IsTerminal from = false.
Proof. intros He; edge_cases He; done. Qed.

Lemma fresh_order_wf `{GoLib} id customerID currency items now :
  request_ok id customerID currency items now -> order_wf (fresh_order id customerID currency items now).
Proof.
  intros (Hid & Hc & Hcur & Hlen & Hit & Hnd & Ht). unfold fresh_order.
  constructor; cbn [ID CustomerID Currency Items TotalMinor OStatus Version UpdatedAt]; try done.
  - by rewrite length_map.
  - apply Forall_map. eapply Forall_impl; [exact Hit | done].
  - by rewrite map_map.
  - unfold pricing_ok; cbn. apply Forall_map, Forall_true. done.
  - unfold statuses; set_solver.
  - naive_solver.
Qed.

(** ** What a successful call does *)

Lemma TransitionIfVersion_ok o ev to now o' :
  TransitionIfVersion (Some o) ev to now = (Some o', None) ->
  Version o = ev /\ bad_timestamp now = false /\ to <> StatusConfirmed /\
  allowedTransition (OStatus o) to = true /\ o' = set_status o to now.
Proof.
  unfold TransitionIfVersion; intros Hr.
  destruct (Z.eqb_spec (Version o) ev); cbn in Hr; [|done].
  destruct (IsTerminal (OStatus o)); [done|].
  destruct (bad_timestamp now); [done|].
  destruct (String.eqb_spec to StatusConfirmed); [done|].
  destruct (allowedTransition (OStatus o) to); [|done].
  cbn in Hr; by simplify_eq.
Qed.

Lemma Confirm_ok o inv pay ev now o' :
  Confirm (Some o) inv pay ev now = (Some o', None) ->
  inv = true /\ pay = true /\ is_Some (TotalMinor o) /\ Version o = ev /\
  bad_timestamp now = false /\ allowedTransition (OStatus o) StatusConfirmed = true /\
  o' = set_status o StatusConfirmed now.
Proof.
  unfold Confirm, transitionWithoutPrerequisite; intros Hr.
  destruct inv, pay; cbn in Hr; try done.
  destruct (TotalMinor o) as [t|]; [|done].
  destruct (Z.eqb_spec (Version o) ev); cbn in Hr; [|done].
  destruct (IsTerminal (OStatus o)); [done|].
  destruct (bad_timestamp now); [done|].
  destruct (allowedTransition (OStatus o) StatusConfirmed); cbn in Hr; [|done].
  simplify_eq; eauto 10.
Qed.

Lemma ApplyQuote_ok o qid qv prices now o' :
  ApplyQuote (Some o) qid qv prices now = (Some o', None) ->
  OStatus o = StatusPending /\ TotalMinor o = None /\
  MatchString quoteIDPattern qid = true /\ 1 <= qv /\ bad_timestamp now = false /\
  exists total lines, quote_lines prices 0 (Items o) = Ok (total, lines) /\
                      o' = set_quote o qid qv total lines now.
Proof.
  unfold ApplyQuote; intros Hr.
  destruct (String.eqb_spec (OStatus o) StatusPending); cbn in Hr; [|done].
  destruct (TotalMinor o); [done|].
  destruct (MatchString quoteIDPattern qid); cbn in Hr; [|done].
  destruct (Z.ltb_spec qv 1); [done|].
  destruct (bad_timestamp now); [done|].
  destruct (quote_lines prices 0 (Items o)) as [[total lines]|]; [|done].
  simplify_eq; eauto 12.
Qed.

(** ** Pricing arithmetic *)

(** One line priced without any machine arithmetic. *)
Definition exact_line (prices : gmap string Z) (i : Item) (line : Z * Z) : Prop :=
  prices !! ProductID i = Some line.1 /\ 0 <= line.1 <= MaxTotalMinor /\
  line.2 = Quantity i * line.1.

Lemma sumZ_nonneg l : Forall (fun x => 0 <= x) l -> 0 <= sumZ l.
Proof. induction 1; cbn; lia. Qed.

Lemma exact_lines_nonneg prices items lines :
  Forall item_request_ok items -> Forall2 (exact_line prices) items lines ->
  0 <= sumZ (map snd lines).
Proof.
  intros Hi Hl; apply sumZ_nonneg, Forall_map. revert Hi.
  induction Hl as [|i l its ls [_ [Hp Hs]] _ IH]; intros Hi; [constructor|].
  apply Forall_cons in Hi as [[_ Hq] Hi].
  constructor; [cbn; rewrite Hs; nia | by apply IH].
Qed.

(** The division guard of the loop rejects exactly the lines whose product
    exceeds the limit, so the 64-bit product never wraps. *)
Lemma quot_guard price q :
  0 <= price <= MaxTotalMinor -> 1 <= q <= MaxQuantity ->
  negb (price =? 0) && (Z.quot MaxTotalMinor price <? q) = false <-> q * price <= MaxTotalMinor.
Proof.
  unfold MaxQuantity; intros Hp Hq.
  destruct (Z.eqb_spec price 0) as [->|Hne]; cbn [negb andb].
  - split; [unfold MaxTotalMinor; lia | done].
  - rewrite Z.quot_div_nonneg by (unfold MaxTotalMinor; lia).
    rewrite Z.ltb_ge. split; intros Hd.
    + pose proof (Z.mul_div_le MaxTotalMinor price ltac:(lia)). nia.
    + apply Z.div_le_lower_bound; nia.
Qed.

(** Enough head-room for [i64] wherever the guards have passed. *)
Lemma small_i64 z : - MaxTotalMinor <= z <= 2 * MaxTotalMinor -> wrap_i64 z = z.
Proof. unfold MaxTotalMinor; intros; apply wrap_i64_id; unfold in_i64; lia. Qed.

Lemma quote_lines_sound prices items : forall total t lines,
  Forall item_request_ok items -> 0 <= total <= MaxTotalMinor ->
  quote_lines prices total items = Ok (t, lines) ->
  Forall2 (exact_line prices) items lines /\
  t = total + sumZ (map snd lines) /\ t <= MaxTotalMinor.
Proof.
  induction items as [|i rest IH]; intros total t lines Hi Ht; cbn [quote_lines].
  - intros [= <- <-]; cbn; split_and!; [constructor | lia | lia].
  - apply Forall_cons in Hi as [[Hid Hq] Hi].
    destruct (prices !! ProductID i) as [p|] eqn:Hp; [|done].
    destruct (Z.ltb_spec p 0), (Z.ltb_spec MaxTotalMinor p); try done; cbn [orb].
    destruct (negb _ && _) eqn:Hg; [done|].
    apply quot_guard in Hg; [|lia|lia].
    rewrite (small_i64 (Quantity i * p)) by (unfold MaxTotalMinor in *; nia).
    rewrite (small_i64 (MaxTotalMinor - _)) by (unfold MaxTotalMinor in *; nia).
    destruct (Z.ltb_spec (MaxTotalMinor - Quantity i * p) total); [done|].
    rewrite (small_i64 (total + _)) by (unfold MaxTotalMinor in *; nia).
    destruct (quote_lines _ _ rest) as [[t' ls]|] eqn:Hr; [|done].
    intros [= <- <-]. apply IH in Hr as (Hl & -> & Hle); [|done|nia].
    split_and!; [|cbn; lia | done].
    constructor; [split_and!; cbn; first [done | lia] | done].
Qed.

Lemma quote_lines_complete prices items lines :
  Forall2 (exact_line prices) items lines -> forall total,
  Forall item_request_ok items -> 0 <= total <= MaxTotalMinor ->
  total + sumZ (map snd lines) <= MaxTotalMinor ->
  quote_lines prices total items = Ok (total + sumZ (map snd lines), lines).
Proof.
  induction 1 as [|i [p lt] rest ls (Hp & Hb & Hlt) Hl IH]; intros total Hi Ht Hle; cbn in *.
  - do 2 f_equal; lia.
  - apply Forall_cons in Hi as [[Hid Hq] Hi]. subst lt.
    pose proof (exact_lines_nonneg _ _ _ Hi Hl).
    rewrite Hp.
    destruct (Z.ltb_spec p 0), (Z.ltb_spec MaxTotalMinor p); try lia; cbn [orb].
    rewrite (proj2 (quot_guard p (Quantity i) Hb Hq)) by nia.
    rewrite (small_i64 (Quantity i * p)) by (unfold MaxTotalMinor in *; nia).
    rewrite (small_i64 (MaxTotalMinor - _)) by (unfold MaxTotalMinor in *; nia).
    destruct (Z.ltb_spec (MaxTotalMinor - Quantity i * p) total); [lia|].
    rewrite (small_i64 (total + _)) by (unfold MaxTotalMinor in *; nia).
    rewrite (IH (total + Quantity i * p)); [|done|nia|nia].
    do 2 f_equal; lia.
Qed.

(** A price list prices an order when every product has an admissible price
    and the exact total stays within the order limit. *)
Definition priceable (prices : gmap string Z) (items : list Item) : Prop :=
  exists lines, Forall2 (exact_line prices) items lines /\
                sumZ (map snd lines) <= MaxTotalMinor.

Lemma exact_lines_functional prices items l1 l2 :
  Forall2 (exact_line prices) items l1 -> Forall2 (exact_line prices) items l2 -> l1 = l2.
Proof.
  intros H1; revert l2; induction H1 as [|i [p a] its ls (Hp & _ & Ha) _ IH]; intros l2 H2.
  - by apply Forall2_nil_inv_l in H2.
  - apply Forall2_cons_inv_l in H2 as ([q b] & ls' & (Hq & _ & Hb) & H2 & ->).
    cbn in *; rewrite Hp in Hq; simplify_eq. f_equal. by apply IH.
Qed.

(** The first line the loop stops at, after lines that came to [total]: its
    product has no price in range, or its price takes the exact total over the
    limit. *)
Inductive bad_line (prices : gmap string Z) (total : Z) (i : Item) : goerr -> Prop :=
| no_price : (forall p, prices !! ProductID i = Some p -> ~ 0 <= p <= MaxTotalMinor) ->
    bad_line prices total i ErrInvalidMoney
| too_much p : prices !! ProductID i = Some p -> 0 <= p <= MaxTotalMinor ->
    MaxTotalMinor < total + Quantity i * p -> bad_line prices total i ErrMoneyOverflow.

Lemma quote_line_stops prices i rest total e :
  item_request_ok i -> 0 <= total <= MaxTotalMinor -> bad_line prices total i e ->
  quote_lines prices total (i :: rest) = Err e.
Proof.
  intros [_ Hq] Ht [Hno|p Hp Hb Hover]; cbn [quote_lines].
  - destruct (prices !! ProductID i) as [p|] eqn:Hp; [|done]. specialize (Hno p eq_refl).
    destruct (Z.ltb_spec p 0), (Z.ltb_spec MaxTotalMinor p); cbn [orb]; try done. lia.
  - rewrite Hp. rewrite (proj2 (Z.ltb_ge p 0)), (proj2 (Z.ltb_ge MaxTotalMinor p)) by lia. cbn [orb].
    destruct (negb _ && _) eqn:Hg; [done|]. apply quot_guard in Hg; [|lia|lia].
    rewrite (wrap_i64_id (Quantity i * p)) by (unfold in_i64, MaxTotalMinor in *; nia).
    rewrite wrap_i64_id by (unfold in_i64, MaxTotalMinor in *; nia).
    by rewrite (proj2 (Z.ltb_lt _ _)) by lia.
Qed.

(** The loop runs over the lines it prices, from the total they come to. *)
Lemma quote_lines_pass prices pre lines : Forall2 (exact_line prices) pre lines -> forall total rest e,
  Forall item_request_ok pre -> 0 <= total -> total + sumZ (map snd lines) <= MaxTotalMinor ->
  quote_lines prices (total + sumZ (map snd lines)) rest = Err e ->
  quote_lines prices total (pre ++ rest)%list = Err e.
Proof.
  induction 1 as [|i [p lt] pre ls (Hp & Hb & Hlt) Hl IH]; intros total rest e Hi Ht Hle He; cbn in *.
  - by rewrite Z.add_0_r in He.
  - apply Forall_cons in Hi as [[Hid Hq] Hi]. subst lt. pose proof (exact_lines_nonneg _ _ _ Hi Hl).
    rewrite Hp. rewrite (proj2 (Z.ltb_ge p 0)), (proj2 (Z.ltb_ge MaxTotalMinor p)) by lia. cbn [orb].
    rewrite (proj2 (quot_guard p (Quantity i) Hb Hq)) by nia.
    rewrite (wrap_i64_id (Quantity i * p)) by (unfold in_i64, MaxTotalMinor in *; nia).
    rewrite (wrap_i64_id (MaxTotalMinor - _)) by (unfold in_i64, MaxTotalMinor in *; nia).
    rewrite (proj2 (Z.ltb_ge _ total)) by lia.
    rewrite (wrap_i64_id (total + _)) by (unfold in_i64, MaxTotalMinor in *; nia).
    rewrite (IH _ rest e); [done | done | nia | lia |]. by rewrite <- Z.add_assoc.
Qed.

(** Lines that cannot be priced have a first bad one. *)
Lemma first_bad_line prices items : forall total,
  Forall item_request_ok items -> 0 <= total <= MaxTotalMinor ->
  (exists lines, Forall2 (exact_line prices) items lines /\ total + sumZ (map snd lines) <= MaxTotalMinor) \/
  exists pre i post lines e, items = (pre ++ i :: post)%list /\ Forall2 (exact_line prices) pre lines /\
    total + sumZ (map snd lines) <= MaxTotalMinor /\ bad_line prices (total + sumZ (map snd lines)) i e.
Proof.
  induction items as [|i rest IH]; intros total Hi Ht.
  { left. exists []. cbn. split; [constructor | lia]. }
  apply Forall_cons in Hi as [[Hid Hq] Hi].
  assert ((forall p, prices !! ProductID i = Some p -> ~ 0 <= p <= MaxTotalMinor) \/
          exists p, prices !! ProductID i = Some p /\ 0 <= p <= MaxTotalMinor) as [Hno|(p & Hp & Hb)].
  { destruct (prices !! ProductID i) as [p|]; [|by left].
    destruct (decide (0 <= p <= MaxTotalMinor)); [right; eauto | left; by intros ? [= <-]]. }
  { right. exists [], i, rest, [], ErrInvalidMoney. cbn. split_and!; [done | constructor | lia | by constructor]. }
  destruct (Z.le_gt_cases (total + Quantity i * p) MaxTotalMinor) as [Hle|Hgt].
  2:{ right. exists [], i, rest, [], ErrMoneyOverflow. cbn.
      split_and!; [done | constructor | lia | apply (too_much _ _ _ p); [done | done | lia]]. }
  destruct (IH (total + Quantity i * p)) as [(lines & Hl & Hs)|(pre & j & post & lines & e & -> & Hl & Hs & Hbad)]; [done | nia | |].
  - left. exists ((p, Quantity i * p) :: lines). cbn. split; [by constructor | lia].
  - right. exists (i :: pre), j, post, ((p, Quantity i * p) :: lines), e. cbn.
    split_and!; [done | by constructor | lia|]. by rewrite Z.add_assoc.
Qed.

(** Pricing every line keeps products and quantities. *)
Lemma priced_items qid qv prices items lines :
  Forall2 (exact_line prices) items lines ->
  Forall (item_priced qid qv) (zip_with (price_item qid qv) items lines) /\
  map ProductID (zip_with (price_item qid qv) items lines) = map ProductID items /\
  map Quantity (zip_with (price_item qid qv) items lines) = map Quantity items /\
  lines_total (zip_with (price_item qid qv) items lines) = sumZ (map snd lines).
Proof.
  induction 1 as [|i [p l] its ls (Hp & Hb & Hl) _ (IH1 & IH2 & IH3 & IH4)]; cbn in *.
  - split_and!; try done; constructor.
  - unfold lines_total in *; cbn. rewrite IH2, IH3, IH4. split_and!; try done.
    constructor; [|done]. exists p; cbn; split_and!; try done; lia || congruence.
Qed.

Lemma items_ok_by_fields l1 l2 :
  map ProductID l1 = map ProductID l2 -> map Quantity l1 = map Quantity l2 ->
  Forall item_request_ok l2 -> Forall item_request_ok l1.
Proof.
  revert l2; induction l1 as [|a l1 IH]; intros [|b l2]; cbn; try done.
  intros [= E1 E2] [= F1 F2] [[G1 G2] G]%Forall_cons.
  constructor; [|by eapply IH]. unfold item_request_ok; rewrite E1, F1; done.
Qed.

(** ** The life of an order *)

(** One successful call of a method of the aggregate. *)
Inductive order_step : relation Order :=
| step_transition o ev to now o' :
    TransitionIfVersion (Some o) ev to now = (Some o', None) -> order_step o o'
| step_confirm o inv pay ev now o' :
    Confirm (Some o) inv pay ev now = (Some o', None) -> order_step o o'
| step_quote o qid qv prices now o' :
    ApplyQuote (Some o) qid qv prices now = (Some o', None) -> order_step o o'.

(** The two shapes of a step: an edge of the status graph, or pricing. *)
Lemma order_step_inv o o' :
  order_step o o' ->
  (exists to now, allowedTransition (OStatus o) to = true /\ bad_timestamp now = false /\
                  (to = StatusConfirmed -> is_Some (TotalMinor o)) /\ o' = set_status o to now) \/
  (exists qid qv prices now total lines,
      OStatus o = StatusPending /\ TotalMinor o = None /\
      MatchString quoteIDPattern qid = true /\ 1 <= qv /\ bad_timestamp now = false /\
      quote_lines prices 0 (Items o) = Ok (total, lines) /\
      o' = set_quote o qid qv total lines now).
Proof.
  destruct 1 as [o ev to now o' (_ & Hn & Hc & Ha & ->)%TransitionIfVersion_ok
                |o inv pay ev now o' (_ & _ & Ht & _ & Hn & Ha & ->)%Confirm_ok
                |o qid qv prices now o' (H1 & H2 & H3 & H4 & H5 & t & l & H6 & ->)%ApplyQuote_ok].
  - left; naive_solver.
  - left; naive_solver.
  - right; naive_solver.
Qed.

Lemma set_status_wf o to now :
  order_wf o -> allowedTransition (OStatus o) to = true -> bad_timestamp now = false ->
  (to = StatusConfirmed -> is_Some (TotalMinor o)) -> order_wf (set_status o to now).
Proof.
  intros [] Ha Hn Hc; constructor; cbn; eauto using wrap_u64_range, allowed_target.
  intros [->| ->]; [by apply Hc|]. apply wf_paid0. edge_cases Ha; try discriminate; auto.
Qed.

Lemma set_quote_wf o qid qv prices now total lines :
  order_wf o -> OStatus o = StatusPending -> MatchString quoteIDPattern qid = true -> 1 <= qv ->
  bad_timestamp now = false -> quote_lines prices 0 (Items o) = Ok (total, lines) ->
  order_wf (set_quote o qid qv total lines now).
Proof.
  intros [] Hs Hq Hv Hn Hl.
  apply quote_lines_sound in Hl as (Hl & -> & Hm); [|done|unfold MaxTotalMinor; lia].
  pose proof (exact_lines_nonneg _ _ _ wf_items0 Hl) as Hpos.
  destruct (priced_items qid qv _ _ _ Hl) as (P1 & P2 & P3 & P4).
  constructor; cbn -[lines_total pricing_ok]; eauto using wrap_u64_range, items_ok_by_fields;
    try rewrite P2; try done.
  - by rewrite <- (length_map ProductID), P2, length_map.
  - unfold pricing_ok, set_quote; cbn [TotalMinor Items]. rewrite P4. split_and!; eauto 8; lia.
Qed.

Lemma order_step_wf o o' : order_wf o -> order_step o o' -> order_wf o'.
Proof.
  intros Hwf [(to & now & Ha & Hn & Hc & ->)
             |(qid & qv & prices & now & t & l & Hs & _ & Hq & Hv & Hn & Hl & ->)]%order_step_inv;
    eauto using set_status_wf, set_quote_wf.
Qed.

Lemma order_step_version o o' : order_step o o' -> Version o' = wrap_u64 (Version o + 1).
Proof. intros [(?&?&?&?&?&->)|(?&?&?&?&?&?&?&?&?&?&?&?&->)]%order_step_inv; done. Qed.

Lemma order_step_not_terminal o o' : order_step o o' -> IsTerminal (OStatus o) = false.
Proof.
  intros [(?&?&Ha&?)|(?&?&?&?&?&?&->&_)]%order_step_inv; [|done].
  by eapply allowed_not_terminal.
Qed.

(** An order once priced keeps its lines and total. *)
Lemma order_step_frozen o o' t :
  order_step o o' -> TotalMinor o = Some t -> TotalMinor o' = Some t /\ Items o' = Items o.
Proof.
  intros [(?&?&?&?&?&->)|(?&?&?&?&?&?&?&Hn&_)]%order_step_inv Ht; [done|congruence].
Qed.

(** ** A concrete order *)

Definition sample_now : Time := mkTime (days_from_civil 2026 7 24 * 86400 * Second) None.
Definition sample_items : list Item :=
  [mkItem "prd_a1" 2 None None None None; mkItem "prd_b2" 3 None None None None].
Definition sample_order : Order :=
  @fresh_order ascii_lib "ord_1" "usr_1" " eur " sample_items sample_now.
Definition sample_prices : gmap string Z := {["prd_a1" := 100; "prd_b2" := 40]}.
Definition sample_lines : list (Z * Z) := [(100, 200); (40, 120)].
Definition sample_priced : Order := set_quote sample_order "qte_1" 7 320 sample_lines sample_now.

Lemma sample_new : @NewOrder ascii_lib "ord_1" "usr_1" " eur " sample_items sample_now = Ok sample_order.
Proof. vm_compute. reflexivity. Qed.
Lemma sample_quote :
  ApplyQuote (Some sample_order) "qte_1" 7 sample_prices sample_now = (Some sample_priced, None).
Proof. vm_compute. reflexivity. Qed.
Lemma sample_wf : order_wf sample_order.
Proof.
  apply (@fresh_order_wf ascii_lib).
  exact (proj1 (proj1 (@NewOrder_ok_iff ascii_lib _ _ _ _ _ _) sample_new)).
Qed.

(** ** Properties *)

(** [NewOrder] accepts exactly the well-formed requests (valid order and
    customer ids, an ISO currency after trimming and upper-casing, 1 to 100
    lines with valid product ids and quantities 1 to 1000, no product twice, a
    non-zero UTC clock) and builds the unpriced PENDING order of version 1. *)
Theorem NewOrder_spec `{GoLib} id customerID currency items now :
  (forall o, NewOrder id customerID currency items now = Ok o <->
     request_ok id customerID currency items now /\ o = fresh_order id customerID currency items now) /\
  (forall o, NewOrder id customerID currency items now = Ok o -> order_wf o).
Proof.
  split; intros o; [apply NewOrder_ok_iff|].
  intros [Hr ->]%NewOrder_ok_iff. by apply fresh_order_wf.
Qed.

(** C16: every order reachable from [NewOrder] by successful calls of
    [TransitionIfVersion], [Transition], [Confirm] and [ApplyQuote] satisfies
    the aggregate invariant: distinct valid lines, wholly unpriced or priced by
    one quote with the exact total within the limit, a status of the six, and
    CONFIRMED or COMPLETED only with a total. *)
Theorem order_invariant `{GoLib} id customerID currency items now o o' :
  NewOrder id customerID currency items now = Ok o -> rtc order_step o o' -> order_wf o'.
Proof.
  intros [Hr ->]%NewOrder_ok_iff Hrtc.
  assert (order_wf (fresh_order id customerID currency items now)) as Hwf
    by by apply fresh_order_wf.
  revert Hwf; induction Hrtc; eauto using order_step_wf.
Qed.

(** [n] successful calls move the version forward by [n] modulo 2^64, so
    an expected version read before any other successful call is refused; a
    terminal order accepts no call; and prices once set never change. *)
Theorem order_history o o' n :
  nsteps order_step n o o' ->
  (in_u64 (Version o) -> Version o' = wrap_u64 (Version o + Z.of_nat n)) /\
  (IsTerminal (OStatus o) = true -> o' = o) /\
  (forall t, TotalMinor o = Some t -> TotalMinor o' = Some t /\ Items o' = Items o).
Proof.
  induction 1 as [o|n o1 o2 o3 Hs _ (IHv & IHt & IHf)]; split_and!.
  - intros Hv. by rewrite Z.add_0_r, wrap_u64_id.
  - done.
  - done.
  - intros Hv. rewrite IHv by (rewrite (order_step_version _ _ Hs); apply wrap_u64_range).
    rewrite (order_step_version _ _ Hs). unfold wrap_u64.
    rewrite Zplus_mod_idemp_l. f_equal; lia.
  - intros Ht. apply order_step_not_terminal in Hs; congruence.
  - intros t Ht. destruct (order_step_frozen _ _ _ Hs Ht) as [Ht' Hi].
    rewrite <- Hi; auto.
Qed.

(** C15: on a well-formed unpriced PENDING order, with a valid quote id and
    version and a UTC clock, [ApplyQuote] succeeds exactly when every product
    has a price in range and the exact (unbounded) total is within the limit;
    it then stores the exact prices, line totals and total.  Otherwise there is a
    first bad line, the order is unchanged and the error is that line's:
    ErrInvalidMoney when its product has no price in range, ErrMoneyOverflow when
    it takes the exact total of the lines up to it over the limit.  No 64-bit
    operation of the loop wraps. *)
Theorem ApplyQuote_exact o qid qv prices now :
  order_wf o -> OStatus o = StatusPending -> TotalMinor o = None ->
  MatchString quoteIDPattern qid = true -> 1 <= qv -> bad_timestamp now = false ->
  (forall lines, Forall2 (exact_line prices) (Items o) lines ->
     sumZ (map snd lines) <= MaxTotalMinor ->
     ApplyQuote (Some o) qid qv prices now =
     (Some (set_quote o qid qv (sumZ (map snd lines)) lines now), None)) /\
  (forall pre i post lines e, Items o = (pre ++ i :: post)%list -> Forall2 (exact_line prices) pre lines ->
     sumZ (map snd lines) <= MaxTotalMinor -> bad_line prices (sumZ (map snd lines)) i e ->
     ApplyQuote (Some o) qid qv prices now = (Some o, Some e)) /\
  (~ priceable prices (Items o) ->
     exists pre i post lines e, Items o = (pre ++ i :: post)%list /\ Forall2 (exact_line prices) pre lines /\
       sumZ (map snd lines) <= MaxTotalMinor /\ bad_line prices (sumZ (map snd lines)) i e).
Proof.
  intros Hwf Hs Ht Hq Hv Hn. unfold ApplyQuote. rewrite Hs, Ht, Hq, Hn; cbn [negb orb String.eqb].
  rewrite (proj2 (Z.ltb_ge qv 1) Hv).
  assert (0 <= 0 <= MaxTotalMinor) as H0 by (unfold MaxTotalMinor; lia).
  pose proof (wf_items _ Hwf) as Hi. split_and!.
  - intros lines Hl Hle. by rewrite (quote_lines_complete _ _ _ Hl 0 Hi H0 Hle).
  - intros pre i post lines e Hitems Hl Hle Hbad. rewrite Hitems in Hi |- *.
    apply Forall_app in Hi as [Hpre [Hok _]%Forall_cons]. pose proof (exact_lines_nonneg _ _ _ Hpre Hl).
    rewrite (quote_lines_pass _ _ _ Hl 0 (i :: post) e Hpre); [done | lia | lia|]. by apply quote_line_stops.
  - intros Hnp. destruct (first_bad_line prices (Items o) 0 Hi H0) as [(lines & Hl & Hle)|Hbad]; [|exact Hbad].
    destruct Hnp. by exists lines.
Qed.

(** A failing call of any method leaves the order as it was, and a nil
    receiver is refused. *)
Theorem failed_calls_change_nothing o ev to now inv pay qid qv prices o' e :
  TransitionIfVersion o ev to now = (o', Some e) \/
  Confirm o inv pay ev now = (o', Some e) \/
  ApplyQuote o qid qv prices now = (o', Some e) -> o' = o.
Proof.
  unfold TransitionIfVersion, Confirm, transitionWithoutPrerequisite, ApplyQuote.
  intros [Hr|[Hr|Hr]]; repeat (case_match; simplify_eq; try done).
Qed.

(** ** Witnesses *)

Lemma NewOrder_spec_witness : order_wf sample_order.
Proof.
  apply (proj2 (@NewOrder_spec ascii_lib "ord_1" "usr_1" " eur " sample_items sample_now)), sample_new.
Defined.

Lemma order_invariant_witness : rtc order_step sample_order sample_priced /\ order_wf sample_priced.
Proof.
  assert (rtc order_step sample_order sample_priced) as Hs.
  { apply rtc_once. eapply step_quote, sample_quote. }
  split; [exact Hs|]. exact (@order_invariant ascii_lib _ _ _ _ _ _ _ sample_new Hs).
Defined.

Lemma order_history_witness : Version sample_priced = wrap_u64 (Version sample_order + 1).
Proof.
  apply (order_history sample_order sample_priced 1).
  - apply nsteps_once. eapply step_quote, sample_quote.
  - vm_compute. split; [discriminate | reflexivity].
Defined.

(** Prices for all products, and for the first only beyond the limit. *)
Lemma ApplyQuote_exact_witness :
  ApplyQuote (Some sample_order) "qte_1" 7 sample_prices sample_now = (Some sample_priced, None) /\
  ApplyQuote (Some sample_order) "qte_1" 7 {["prd_a1" := MaxTotalMinor]} sample_now =
    (Some sample_order, Some ErrMoneyOverflow).
Proof.
  split.
  - apply (ApplyQuote_exact sample_order "qte_1" 7 sample_prices sample_now sample_wf
             eq_refl eq_refl eq_refl ltac:(lia) eq_refl) with (lines := sample_lines).
    + repeat constructor; vm_compute; try discriminate; reflexivity.
    + vm_compute. discriminate.
  - apply (ApplyQuote_exact sample_order "qte_1" 7 {["prd_a1" := MaxTotalMinor]} sample_now sample_wf
             eq_refl eq_refl eq_refl ltac:(lia) eq_refl)
      with (pre := []) (i := mkItem "prd_a1" 2 None None None None) (post := tail (Items sample_order)) (lines := []).
    + vm_compute. reflexivity.
    + constructor.
    + vm_compute. discriminate.
    + apply (too_much _ _ _ MaxTotalMinor); vm_compute; [reflexivity | split; discriminate | reflexivity].
Defined.

Lemma failed_calls_witness :
  exists o' e, TransitionIfVersion (Some sample_order) 9 StatusFailed sample_now = (o', Some e) /\
               o' = Some sample_order.
Proof.
  do 2 eexists. split; [reflexivity|].
  apply (failed_calls_change_nothing (Some sample_order) 9 StatusFailed sample_now true true
           "qte_1" 7 sample_prices _ ErrStaleVersion).
  left. reflexivity.
Defined.
