(* ===== verification/Tx.v ===== *)
(** * The PostgreSQL server and programs that use it

    What both services with a database rely on of the server: what it does to
    values it stores, and the errors it answers with.  Then the state-and-error
    monad of the adapters.  A state holds the rows a
    statement sees ([db]: the committed rows outside a transaction, the
    transaction's own view inside one), what the process keeps across
    transactions ([loc]), and a counter of the events of the outside world.
    The class [Env] says what each event brought: a random identifier, a clock
    reading, and what became of a round trip to the server.  [in_tx] is
    [BeginTx], the body, [Commit] where the body asks for it, and the deferred
    [Rollback]. *)
From Stdlib Require Import ZArith Lia Ascii String.
From stdpp Require Import base strings list relations pretty countable.
From S2P Require Import Prelude GoStrings GoErrors GoTime GoJson.

Open Scope string_scope.
Open Scope Z_scope.
Open Scope go_scope.

(** ** The server *)

(** What is known of the server: the instant a [timestamptz] column keeps of a
    Go time, in the location the driver reads it back with, the order of its
    text collation, and the text it gives for a [jsonb] value. *)
Class Pg := {
  pg_time : Time -> Time;
  text_ltb : string -> string -> bool;
  jsonb_out : json -> string
}.

(** A server for concrete runs that keeps times as they are and orders text by
    some total order. *)
Definition exact_pg : Pg :=
  {| pg_time := fun t => t; text_ltb := fun a b => Pos.ltb (encode a) (encode b);
     jsonb_out := json_text |}.

(** ** Errors and limits *)

Definition unique_violation (what : string) : goerr := PgError "23505" what.
Definition check_violation (what : string) : goerr := PgError "23514" what.
Definition fk_violation (what : string) : goerr := PgError "23503" what.
Definition out_of_range (what : string) : goerr := PgError "22003" what.
Definition bad_json : goerr := PgError "22P02" "invalid input syntax for type json".

Definition null_or {A} (p : A -> bool) (o : option A) : bool :=
  match o with None => true | Some a => p a end.

(** [aggregate_version + 1] on a bigint, [attempts + 1] on an integer. *)
Definition next_bigint (v : Z) : result goerr Z :=
  check v + 1 <? 2 ^ 63 else out_of_range "bigint out of range" in Ok (v + 1).
Definition next_integer (v : Z) : result goerr Z :=
  check v + 1 <? 2 ^ 31 else out_of_range "integer out of range" in Ok (v + 1).

(** [LIMIT n] *)
Definition limited {A} (n : Z) (l : list A) : result goerr (list A) :=
  reject n <? 0 with PgError "2201W" "LIMIT must not be negative" in Ok (take (Z.to_nat n) l).

(** ** Events and states *)

(** A round trip succeeds, fails before the server has acted, or fails after
    it has: the reply is lost. *)
Inductive trip :=
| TripOk
| TripFailed (e : goerr)
| TripLost (e : goerr).

Class Env := {
  uuid_at : nat -> string;   (** [uuid.NewString()] *)
  clock_at : nat -> Time;    (** [time.Now()] *)
  db_now_at : nat -> Time;   (** [now()] on the server *)
  trip_at : nat -> trip
}.

(** A world for concrete runs where nothing fails: identifiers are counted and
    the clocks stand still. *)
Definition calm_env (now : Time) : Env :=
  {| uuid_at := fun n => pretty (N.of_nat n); clock_at := fun _ => now; db_now_at := fun _ => now;
     trip_at := fun _ => TripOk |}.

Record St (DB L : Type) := mkSt { db : DB; loc : L; tick : nat }.
Arguments mkSt {DB L} db loc tick.
Arguments db {DB L} s.
Arguments loc {DB L} s.
Arguments tick {DB L} s.

Definition M (DB L A : Type) : Type := St DB L -> St DB L * result goerr A.

(** What a transaction body asks for: commit and then return, or return with
    the transaction left to the deferred rollback. *)
Inductive outcome (A : Type) :=
| CommitThen (a : A)
| Return (a : A).
Arguments CommitThen {A} a.
Arguments Return {A} a.

Section Monad.
Context {DB L : Type}.

Definition ret {A} (a : A) : M DB L A := fun s => (s, Ok a).
Definition fail {A} (e : goerr) : M DB L A := fun s => (s, Err e).
Definition bind {A B} (m : M DB L A) (k : A -> M DB L B) : M DB L B := fun s =>
  match m s with
  | (s', Ok a) => k a s'
  | (s', Err e) => (s', Err e)
  end.
Definition lift {A} (r : result goerr A) : M DB L A := fun s => (s, r).
(** [if err := m; err != nil { return f(err) }] *)
Definition mapE {A} (f : goerr -> goerr) (m : M DB L A) : M DB L A := fun s =>
  match m s with
  | (s', Ok a) => (s', Ok a)
  | (s', Err e) => (s', Err (f e))
  end.
(** The error itself as a value: [if err := m; err != nil { ... }] *)
Definition try_ {A} (m : M DB L A) : M DB L (result goerr A) := fun s =>
  let '(s', r) := m s in (s', Ok r).

Definition advance (s : St DB L) : St DB L := mkSt (db s) (loc s) (S (tick s)).
Definition set_db (s : St DB L) (d : DB) : St DB L := mkSt d (loc s) (tick s).
Definition get_loc : M DB L L := fun s => (s, Ok (loc s)).
Definition put_loc (l : L) : M DB L unit := fun s => (mkSt (db s) l (tick s), Ok tt).

Context `{Env}.

Definition newUUID : M DB L string := fun s => (advance s, Ok (uuid_at (tick s))).
Definition timeNow : M DB L Time := fun s => (advance s, Ok (clock_at (tick s))).

(** One statement: a function of the rows, refused or run by the server. *)
Definition stmt {A} (q : Time -> DB -> result goerr (DB * A)) : M DB L A := fun s =>
  match trip_at (tick s) with
  | TripFailed e => (advance s, Err e)
  | TripOk =>
      match q (db_now_at (tick s)) (db s) with
      | Ok (d, a) => (set_db (advance s) d, Ok a)
      | Err e => (advance s, Err e)
      end
  | TripLost e =>
      match q (db_now_at (tick s)) (db s) with
      | Ok (d, _) => (set_db (advance s) d, Err e)
      | Err _ => (advance s, Err e)
      end
  end.
Definition exec {A} (q : DB -> result goerr (DB * A)) : M DB L A := stmt (fun _ => q).

(** [BeginTx]; body; [Commit] or the deferred [Rollback].  Errors of begin and
    commit pass through [f]. *)
Definition in_tx {A} (f : goerr -> goerr) (body : M DB L (outcome A)) : M DB L A := fun s =>
  match trip_at (tick s) with
  | TripFailed e | TripLost e => (advance s, Err (f e))
  | TripOk =>
      match body (advance s) with
      | (s1, Err e) => (set_db s1 (db s), Err e)
      | (s1, Ok (Return a)) => (set_db s1 (db s), Ok a)
      | (s1, Ok (CommitThen a)) =>
          match trip_at (tick s1) with
          | TripOk => (advance s1, Ok a)
          | TripFailed e => (set_db (advance s1) (db s), Err (f e))
          | TripLost e => (advance s1, Err (f e))
          end
      end
  end.

(** [for _, x := range l { if err := body(x); err != nil { return err } }] *)
Fixpoint for_each {A} (body : A -> M DB L unit) (l : list A) : M DB L unit :=
  match l with
  | [] => ret tt
  | x :: r => bind (body x) (fun _ => for_each body r)
  end.

(** ** Running a program to a success *)

Lemma bind_ok {A B} (m : M DB L A) (k : A -> M DB L B) s s' b :
  bind m k s = (s', Ok b) <-> exists s1 a, m s = (s1, Ok a) /\ k a s1 = (s', Ok b).
Proof.
  unfold bind. destruct (m s) as [s1 [a|e]] eqn:Hm; split.
  - intros Hk. exists s1, a. auto.
  - intros (s2 & a2 & [= -> ->] & Hk). exact Hk.
  - intros Hk; discriminate Hk.
  - intros (s2 & a2 & Hd & Hk). discriminate Hd.
Qed.

Lemma ret_ok {A} (a b : A) (s s' : St DB L) : ret a s = (s', Ok b) <-> s' = s /\ b = a.
Proof. unfold ret; split; [intros [= -> ->]; auto | intros [-> ->]; reflexivity]. Qed.

Lemma lift_ok {A} (r : result goerr A) (s s' : St DB L) a :
  lift r s = (s', Ok a) <-> s' = s /\ r = Ok a.
Proof. unfold lift; split; [intros [= -> ->]; auto | intros [-> ->]; reflexivity]. Qed.

Lemma fail_ok {A} e (s s' : St DB L) (a : A) : fail e s = (s', Ok a) <-> False.
Proof. split; [discriminate | contradiction]. Qed.

Lemma mapE_ok {A} f (m : M DB L A) s s' a : mapE f m s = (s', Ok a) <-> m s = (s', Ok a).
Proof. unfold mapE. destruct (m s) as [s1 [b|e]]; split; intros E; inversion E; auto. Qed.

Lemma newUUID_ok s s' u : newUUID s = (s', Ok u) <-> s' = advance s /\ u = uuid_at (tick s).
Proof. unfold newUUID; split; [intros [= -> ->]; auto | intros [-> ->]; reflexivity]. Qed.

Lemma timeNow_ok s s' t : timeNow s = (s', Ok t) <-> s' = advance s /\ t = clock_at (tick s).
Proof. unfold timeNow; split; [intros [= -> ->]; auto | intros [-> ->]; reflexivity]. Qed.

Lemma stmt_ok {A} (q : Time -> DB -> result goerr (DB * A)) s s' a :
  stmt q s = (s', Ok a) <->
  trip_at (tick s) = TripOk /\
  exists d, q (db_now_at (tick s)) (db s) = Ok (d, a) /\ s' = set_db (advance s) d.
Proof.
  unfold stmt. destruct (trip_at (tick s)); destruct (q _ _) as [[d b]|e'] eqn:Hq;
    split; try discriminate; intros Hs.
  - injection Hs as <- <-. eauto.
  - destruct Hs as (_ & d' & [= <- <-] & ->). reflexivity.
  - destruct Hs as (_ & d' & Hd & _). discriminate Hd.
  - destruct Hs as [Hs _]; discriminate Hs.
  - destruct Hs as [Hs _]; discriminate Hs.
  - destruct Hs as [Hs _]; discriminate Hs.
  - destruct Hs as [Hs _]; discriminate Hs.
Qed.

Lemma exec_ok {A} (q : DB -> result goerr (DB * A)) s s' a :
  exec q s = (s', Ok a) <->
  trip_at (tick s) = TripOk /\ exists d, q (db s) = Ok (d, a) /\ s' = set_db (advance s) d.
Proof. apply stmt_ok. Qed.

(** ** Atomicity *)

(** Whatever happens, the committed rows are those of before or those of a
    body that ran to its commit. *)
Lemma in_tx_atomic {A} f (body : M DB L (outcome A)) s s' r :
  in_tx f body s = (s', r) ->
  db s' = db s \/
  exists s1 a, trip_at (tick s) = TripOk /\ body (advance s) = (s1, Ok (CommitThen a)) /\
               db s' = db s1.
Proof.
  unfold in_tx.
  destruct (trip_at (tick s)); [|intros [= <- <-]; auto|intros [= <- <-]; auto].
  destruct (body (advance s)) as [s1 [[a|a]|e]] eqn:Hb.
  - destruct (trip_at (tick s1)); intros [= <- <-]; cbn; eauto 10.
  - intros [= <- <-]; auto.
  - intros [= <- <-]; auto.
Qed.

(** A success means the commit was acknowledged, or that the body chose not
    to commit. *)
Lemma in_tx_ok {A} f (body : M DB L (outcome A)) s s' a :
  in_tx f body s = (s', Ok a) ->
  trip_at (tick s) = TripOk /\
  exists s1, (body (advance s) = (s1, Ok (CommitThen a)) /\ db s' = db s1) \/
             (body (advance s) = (s1, Ok (Return a)) /\ db s' = db s).
Proof.
  unfold in_tx.
  destruct (trip_at (tick s)); [|discriminate|discriminate].
  destruct (body (advance s)) as [s1 [[b|b]|e]] eqn:Hb; [| |discriminate].
  - destruct (trip_at (tick s1)); intros [= <- <-]; split; [done|]; eexists; left; eauto.
  - intros [= <- <-]. split; [done|]; eexists; right; eauto.
Qed.

Lemma in_tx_ok_later {A} f (body : M DB L (outcome A)) s s' a s1 r :
  in_tx f body s = (s', Ok a) -> body (advance s) = (s1, r) -> (tick s1 <= tick s')%nat.
Proof.
  unfold in_tx. destruct (trip_at (tick s)); [|discriminate|discriminate]. intros Htx Hb. rewrite Hb in Htx.
  destruct r as [[b|b]|err]; [|by injection Htx as <- _|discriminate Htx].
  destruct (trip_at (tick s1)); [|discriminate Htx..]. injection Htx as <- _. cbn. lia.
Qed.

(** When every round trip succeeds, a body that runs to its commit is
    committed. *)
Lemma in_tx_commits {A} f (body : M DB L (outcome A)) s s1 a :
  (forall n, trip_at n = TripOk) -> body (advance s) = (s1, Ok (CommitThen a)) ->
  in_tx f body s = (advance s1, Ok a).
Proof. intros Ht Hb. unfold in_tx. by rewrite Ht, Hb, Ht. Qed.

Lemma in_tx_err {A} f (body : M DB L (outcome A)) s s1 e :
  (forall n, trip_at n = TripOk) -> body (advance s) = (s1, Err e) ->
  in_tx f body s = (set_db s1 (db s), Err e).
Proof. intros Ht Hb. unfold in_tx. by rewrite Ht, Hb. Qed.

(** Forward execution when the server answers. *)
Lemma exec_run {A} (q : DB -> result goerr (DB * A)) s d a :
  trip_at (tick s) = TripOk -> q (db s) = Ok (d, a) -> exec q s = (set_db (advance s) d, Ok a).
Proof. intros Ht Hq. unfold exec, stmt. by rewrite Ht, Hq. Qed.
Lemma bind_run {A B} (m : M DB L A) (k : A -> M DB L B) s s1 a :
  m s = (s1, Ok a) -> bind m k s = k a s1.
Proof. intros Hm. unfold bind. by rewrite Hm. Qed.
Lemma mapE_run {A} f (m : M DB L A) s s1 a : m s = (s1, Ok a) -> mapE f m s = (s1, Ok a).
Proof. intros Hm. unfold mapE. by rewrite Hm. Qed.

(** ** Relations between the rows before and after *)

(** [m] relates the rows before a success to the rows after it by [R]. *)
Definition evolves (R : relation DB) {A} (m : M DB L A) : Prop :=
  forall s s' a, m s = (s', Ok a) -> R (db s) (db s').

Section Evolves.
Context (R : relation DB) `{!Reflexive R} `{!Transitive R}.

Lemma evolves_ret {A} (a : A) : evolves R (ret a).
Proof. intros s s' b [-> _]%ret_ok. reflexivity. Qed.
Lemma evolves_fail {A} e : evolves R (@fail A e).
Proof. intros s s' b []%fail_ok. Qed.
Lemma evolves_lift {A} (r : result goerr A) : evolves R (lift r).
Proof. intros s s' b [-> _]%lift_ok. reflexivity. Qed.
Lemma evolves_uuid : evolves R newUUID.
Proof. intros s s' b [-> _]%newUUID_ok. reflexivity. Qed.
Lemma evolves_now : evolves R timeNow.
Proof. intros s s' b [-> _]%timeNow_ok. reflexivity. Qed.
Lemma evolves_get_loc : evolves R get_loc.
Proof. intros s s' b [= <- _]. reflexivity. Qed.
Lemma evolves_put_loc l : evolves R (put_loc l).
Proof. intros s s' b [= <- _]. reflexivity. Qed.
Lemma evolves_bind {A B} (m : M DB L A) (k : A -> M DB L B) :
  evolves R m -> (forall a, evolves R (k a)) -> evolves R (bind m k).
Proof.
  intros Hm Hk s s' b (s1 & a & H1 & H2)%bind_ok. etransitivity; [by eapply Hm | by eapply Hk].
Qed.
Lemma evolves_mapE {A} f (m : M DB L A) : evolves R m -> evolves R (mapE f m).
Proof. intros Hm s s' a Hs%mapE_ok. by eapply Hm. Qed.
Lemma evolves_stmt {A} (q : Time -> DB -> result goerr (DB * A)) :
  (forall now d d' a, q now d = Ok (d', a) -> R d d') -> evolves R (stmt q).
Proof. intros Hq s s' a (_ & d & Hd & ->)%stmt_ok. by eapply Hq. Qed.
Lemma evolves_exec {A} (q : DB -> result goerr (DB * A)) :
  (forall d d' a, q d = Ok (d', a) -> R d d') -> evolves R (exec q).
Proof. intros Hq; apply evolves_stmt; eauto. Qed.
Lemma evolves_for_each {A} (body : A -> M DB L unit) l :
  (forall x, evolves R (body x)) -> evolves R (for_each body l).
Proof. intros Hb; induction l; [apply evolves_ret | by apply evolves_bind]. Qed.

(** A whole transaction relates the rows on every outcome, failures and lost
    replies included. *)
Lemma in_tx_evolves {A} f (body : M DB L (outcome A)) s s' r :
  evolves R body -> in_tx f body s = (s', r) -> R (db s) (db s').
Proof.
  intros Hb [->|(s1 & a & _ & H1 & ->)]%in_tx_atomic; [reflexivity|].
  by apply Hb in H1.
Qed.

(** A single statement outside a transaction. *)
Lemma stmt_evolves {A} (q : Time -> DB -> result goerr (DB * A)) s s' r :
  (forall now d d' a, q now d = Ok (d', a) -> R d d') ->
  stmt q s = (s', r) -> R (db s) (db s').
Proof.
  intros Hq. unfold stmt.
  destruct (q (db_now_at (tick s)) (db s)) as [[d b]|] eqn:Hd; destruct (trip_at (tick s));
    intros [= <- <-]; cbn; try reflexivity; by eapply Hq.
Qed.
End Evolves.

(** ** Programs that only read *)

Definition reads {A} (m : M DB L A) : Prop := forall s, db (fst (m s)) = db s.

Lemma reads_ret {A} (a : A) : reads (ret a).
Proof. done. Qed.
Lemma reads_fail {A} e : reads (@fail A e).
Proof. done. Qed.
Lemma reads_lift {A} (r : result goerr A) : reads (lift r).
Proof. done. Qed.
Lemma reads_bind {A B} (m : M DB L A) (k : A -> M DB L B) :
  reads m -> (forall a, reads (k a)) -> reads (bind m k).
Proof.
  intros Hm Hk s. unfold bind. specialize (Hm s). destruct (m s) as [s1 [a|e]]; cbn in *; [|done].
  by rewrite Hk.
Qed.
Lemma reads_mapE {A} f (m : M DB L A) : reads m -> reads (mapE f m).
Proof. intros Hm s. unfold mapE. specialize (Hm s). by destruct (m s) as [s1 [a|e]]. Qed.
Lemma reads_exec {A} (q : DB -> result goerr (DB * A)) :
  (forall d d' a, q d = Ok (d', a) -> d' = d) -> reads (exec q).
Proof.
  intros Hq s. unfold exec, stmt. destruct (q (db s)) as [[d a]|e] eqn:Hd;
    destruct (trip_at (tick s)); cbn; try done; by rewrite (Hq _ _ _ Hd).
Qed.
(** ** Programs that go forward in events *)

Definition forward {A} (m : M DB L A) : Prop := forall s, (tick s <= tick (fst (m s)))%nat.

Lemma forward_run {A} (m : M DB L A) s s' r : forward m -> m s = (s', r) -> (tick s <= tick s')%nat.
Proof. intros Hm E. specialize (Hm s). by rewrite E in Hm. Qed.
Lemma forward_ret {A} (a : A) : forward (ret a).
Proof. intros s. cbn. lia. Qed.
Lemma forward_fail {A} err : forward (@fail A err).
Proof. intros s. cbn. lia. Qed.
Lemma forward_lift {A} (r : result goerr A) : forward (lift r).
Proof. intros s. cbn. lia. Qed.
Lemma forward_uuid : forward newUUID.
Proof. intros s. cbn. lia. Qed.
Lemma forward_now : forward timeNow.
Proof. intros s. cbn. lia. Qed.
Lemma forward_get_loc : forward get_loc.
Proof. intros s. cbn. lia. Qed.
Lemma forward_put_loc l : forward (put_loc l).
Proof. intros s. cbn. lia. Qed.
Lemma forward_bind {A B} (m : M DB L A) (k : A -> M DB L B) :
  forward m -> (forall a, forward (k a)) -> forward (bind m k).
Proof.
  intros Hm Hk s. unfold bind. specialize (Hm s). destruct (m s) as [s1 [a|e]]; cbn in *; [|done].
  specialize (Hk a s1). lia.
Qed.
Lemma forward_mapE {A} f (m : M DB L A) : forward m -> forward (mapE f m).
Proof. intros Hm s. unfold mapE. specialize (Hm s). by destruct (m s) as [s1 [a|e]]. Qed.
Lemma forward_try {A} (m : M DB L A) : forward m -> forward (try_ m).
Proof. intros Hm s. unfold try_. specialize (Hm s). by destruct (m s). Qed.
Lemma forward_if {A} (b : bool) (m1 m2 : M DB L A) : forward m1 -> forward m2 -> forward (if b then m1 else m2).
Proof. by destruct b. Qed.
Lemma forward_exec {A} (q : DB -> result goerr (DB * A)) : forward (exec q).
Proof.
  intros s. unfold exec, stmt. destruct (trip_at (tick s)), (q (db s)) as [[d a]|]; cbn; lia.
Qed.
Lemma forward_for_each {A} (body : A -> M DB L unit) l : (forall x, forward (body x)) -> forward (for_each body l).
Proof. intros Hb. induction l; [apply forward_ret | by apply forward_bind]. Qed.
Lemma forward_in_tx {A} f (body : M DB L (outcome A)) : forward body -> forward (in_tx f body).
Proof.
  intros Hm s. unfold in_tx. destruct (trip_at (tick s)); cbn; try lia.
  specialize (Hm (advance s)). cbn in Hm. destruct (body (advance s)) as [s1 [[a|a]|err]]; cbn in *; [|lia..].
  destruct (trip_at (tick s1)); cbn; lia.
Qed.

(** The clock's reading, in UTC, at an event of a call from [s] to [s']. *)
Definition read_during (s s' : St DB L) (now : Time) : Prop :=
  exists n, (tick s <= n < tick s')%nat /\ now = UTC (clock_at n).
End Monad.

Notation "'let!' x ':=' m 'in' k" := (bind m (fun x => k))
  (at level 10, x pattern, m at level 100, k at level 200) : go_scope.
Notation "'guard' b 'else' e 'in' k" := (if b then k else fail e)
  (at level 10, b at level 100, e at level 100, k at level 200) : go_scope.
Notation "'deny' b 'with' e 'in' k" := (if b then fail e else k)
  (at level 10, b at level 100, e at level 100, k at level 200) : go_scope.

(** [run_inv H] takes an execution that ended in success apart. *)
Ltac run_inv H :=
  match type of H with
  | bind _ _ _ = (_, Ok _) =>
      let s1 := fresh "s" in let a := fresh "a" in
      let H1 := fresh "Hr" in let H2 := fresh "Hr" in
      apply bind_ok in H as (s1 & a & H1 & H2); run_inv H1; run_inv H2
  | mapE _ _ _ = (_, Ok _) => apply mapE_ok in H; run_inv H
  | ret _ _ = (_, Ok _) => apply ret_ok in H as [? ?]; subst
  | lift _ _ = (_, Ok _) => let H1 := fresh "Hl" in apply lift_ok in H as [? H1]; subst
  | fail _ _ = (_, Ok _) => apply fail_ok in H; contradiction
  | newUUID _ = (_, Ok _) => apply newUUID_ok in H as [? ?]; subst
  | timeNow _ = (_, Ok _) => apply timeNow_ok in H as [? ?]; subst
  | exec _ _ = (_, Ok _) =>
      let d := fresh "d" in let H1 := fresh "Hq" in
      apply exec_ok in H as (_ & d & H1 & ?); subst
  | stmt _ _ = (_, Ok _) =>
      let d := fresh "d" in let H1 := fresh "Hq" in
      apply stmt_ok in H as (_ & d & H1 & ?); subst
  | (if ?b then _ else _) _ = (_, Ok _) => destruct b eqn:?; run_inv H
  | _ => idtac
  end.

#[export] Hint Resolve evolves_ret evolves_fail evolves_lift evolves_uuid evolves_now
  evolves_get_loc evolves_put_loc : streamweave.
#[export] Hint Resolve forward_ret forward_fail forward_lift forward_uuid forward_now forward_get_loc
  forward_put_loc forward_exec : streamweave.

(** [goes_forward] follows the shape of a program whose parts are known to go
    forward in events. *)
Ltac goes_forward :=
  repeat first
    [ progress intros
    | solve [auto with streamweave]
    | lazymatch goal with
      | |- forward (bind _ _) => apply forward_bind
      | |- forward (mapE _ _) => apply forward_mapE
      | |- forward (try_ _) => apply forward_try
      | |- forward (for_each _ _) => apply forward_for_each
      | |- forward (in_tx _ _) => apply forward_in_tx
      | |- forward (if _ then _ else _) => apply forward_if
      end
    | match goal with |- forward (match ?x with _ => _ end) => destruct x end ].
