(* ===== verification/ReadCommitted.v ===== *)
(** * Transactions that overlap

    PostgreSQL at READ COMMITTED, the level both services begin their
    transactions at.  A program of [Tx] is taken apart into its statements
    ([Steps]); any number of transactions then run their statements in any
    order.  A statement sees the committed rows and the rows its own transaction
    wrote; it waits while a row it would write is written by another transaction
    that has not ended; committing publishes a transaction's rows, and every
    other end forgets them.

    [keeps] is what a proof about one transaction may rely on and has to
    guarantee, and [run_history] puts the transactions together. *)
From Stdlib Require Import ZArith Lia Ascii String.
From stdpp Require Import base gmap strings list relations.
From S2P Require Import Prelude GoErrors GoTime Tx Interleave.

Open Scope Z_scope.
Open Scope go_scope.

(** ** Databases of rows *)

(** The rows of a database by their keys.  [overlay l mine theirs] takes the
    rows with a key in [l] from [mine] and the others from [theirs]. *)
Class RowDB (DB : Type) := {
  Key : Type;
  Row : Type;
  key_eq :: EqDecision Key;
  key_countable :: Countable Key;
  row_eq :: EqDecision Row;
  row_at : DB -> Key -> option Row;
  keys : DB -> gset Key;
  lasting : Key -> Prop;   (** rows that are never deleted *)
  overlay : gset Key -> DB -> DB -> DB
}.
Arguments Key DB {_}.
Arguments Row DB {_}.

(** The keys of the rows that differ. *)
Definition changed `{RowDB DB} (d d' : DB) : gset (Key DB) :=
  filter (fun k => row_at d k <> row_at d' k) (keys d ∪ keys d').

(** What a database's rows promise, over the states that satisfy [tidy]. *)
Class RowLaws (DB : Type) `{RowDB DB} (tidy : DB -> Prop) : Prop := {
  keys_spec : forall d k, is_Some (row_at d k) -> k ∈ keys d;
  overlay_row : forall l mine theirs k, tidy mine -> tidy theirs ->
    (lasting k -> k ∈ l -> is_Some (row_at theirs k) -> is_Some (row_at mine k)) ->
    row_at (overlay l mine theirs) k = if decide (k ∈ l) then row_at mine k else row_at theirs k;
  overlay_tidy : forall l mine theirs, tidy mine -> tidy theirs -> tidy (overlay l mine theirs)
}.

Lemma changed_spec `{RowLaws DB tidy} d d' k : k ∈ changed d d' <-> row_at d k <> row_at d' k.
Proof.
  unfold changed. rewrite elem_of_filter. split; [by intros [? _]|]. intros Hne. split; [done|].
  apply elem_of_union. destruct (row_at d k) as [r|] eqn:Hr.
  - left. by apply keys_spec; rewrite Hr.
  - right. apply keys_spec. destruct (row_at d' k); [eauto | done].
Qed.

(** ** Tables that are lists or maps *)

Section Listed.
Context {R K : Type} `{EqDecision K} (key : R -> K).

Definition find_row (k : K) (l : list R) : option R := head (filter (fun r => key r = k) l).

(** The rows with a key in [p] are those of [mine], in place or at the end. *)
Definition overlay_list (p : K -> Prop) `{!forall k, Decision (p k)} (mine theirs : list R) : list R :=
  (map (fun r => if decide (p (key r)) then default r (find_row (key r) mine) else r) theirs ++
   filter (fun r => p (key r) /\ find_row (key r) theirs = None) mine)%list.

Lemma find_row_cons k r l : find_row k (r :: l) = if decide (key r = k) then Some r else find_row k l.
Proof. unfold find_row. rewrite filter_cons. by destruct (decide _). Qed.
Lemma find_row_app k l1 l2 :
  find_row k (l1 ++ l2)%list = match find_row k l1 with Some r => Some r | None => find_row k l2 end.
Proof. unfold find_row. rewrite filter_app. by destruct (filter _ l1). Qed.
Lemma find_row_key k l r : find_row k l = Some r -> key r = k /\ r ∈ l.
Proof.
  unfold find_row. intros Hh. apply head_Some_elem_of in Hh. by apply list_elem_of_filter in Hh.
Qed.
Lemma find_row_none k l : find_row k l = None <-> k ∉ map key l.
Proof.
  induction l as [|r l IH]; [split; [intros _; set_solver | done]|]. rewrite find_row_cons. cbn.
  destruct (decide _) as [->|]; [set_solver|]. rewrite IH. set_solver.
Qed.
Lemma find_row_some k l : k ∈ map key l -> exists r, find_row k l = Some r.
Proof.
  intros Hk. destruct (find_row k l) eqn:Hf; [eauto|]. by apply find_row_none in Hf.
Qed.
Lemma find_row_nodup l r : NoDup (map key l) -> r ∈ l -> find_row (key r) l = Some r.
Proof.
  induction l as [|x l IH]; [by intros _ ?%not_elem_of_nil|]. cbn. intros [Hx Hnd]%NoDup_cons.
  intros [->|Hr]%elem_of_cons; rewrite find_row_cons; [by rewrite decide_True|].
  destruct (decide _) as [He|]; [|by apply IH]. rewrite He in Hx.
  destruct Hx. apply list_elem_of_fmap. eauto.
Qed.

Section Overlay.
Context (p : K -> Prop) `{!forall k, Decision (p k)} (mine theirs : list R).

Lemma overlay_list_keys :
  map key (overlay_list p mine theirs) =
  (map key theirs ++ filter (fun k => p k /\ find_row k theirs = None) (map key mine))%list.
Proof.
  unfold overlay_list. rewrite map_app, map_map. f_equal.
  - apply map_ext. intros r. destruct (decide _); [|done].
    destruct (find_row (key r) mine) as [r'|] eqn:Hf; [|done]. by apply find_row_key in Hf as [? _].
  - induction mine as [|r l IH]; [done|]. cbn [map]. rewrite !filter_cons. destruct (decide _); cbn [map]; by rewrite IH.
Qed.
Lemma overlay_list_nodup :
  NoDup (map key mine) -> NoDup (map key theirs) -> NoDup (map key (overlay_list p mine theirs)).
Proof.
  intros Hm Ht. rewrite overlay_list_keys. apply NoDup_app. split_and!; [done | |by apply NoDup_filter].
  intros k Hk [[_ Hn] _]%list_elem_of_filter. by apply find_row_none in Hn.
Qed.
Lemma overlay_list_elem r : r ∈ overlay_list p mine theirs -> r ∈ mine \/ r ∈ theirs.
Proof.
  unfold overlay_list. intros [Hr|Hr]%elem_of_app.
  - apply list_elem_of_fmap in Hr as (x & -> & Hx). destruct (decide _); [|by right].
    destruct (find_row (key x) mine) eqn:Hf; [|by right]. left. by apply find_row_key in Hf as [_ ?].
  - left. by apply list_elem_of_filter in Hr as [_ ?].
Qed.
Lemma find_overlay_theirs k :
  find_row k (map (fun r => if decide (p (key r)) then default r (find_row (key r) mine) else r) theirs) =
  match find_row k theirs with
  | Some r => Some (if decide (p k) then default r (find_row k mine) else r)
  | None => None
  end.
Proof.
  induction theirs as [|x l IH]; [done|]. cbn [map]. rewrite !find_row_cons.
  assert (key (if decide (p (key x)) then default x (find_row (key x) mine) else x) = key x) as ->.
  { destruct (decide (p (key x))); [|done]. destruct (find_row (key x) mine) eqn:Hf; [|done]. by apply find_row_key in Hf as [? _]. }
  destruct (decide (key x = k)) as [->|]; [done | apply IH].
Qed.
Lemma find_filter_mine k :
  find_row k (filter (fun r => p (key r) /\ find_row (key r) theirs = None) mine) =
  if decide (p k /\ find_row k theirs = None) then find_row k mine else None.
Proof.
  induction mine as [|x l IH]; [by destruct (decide _)|]. rewrite filter_cons, find_row_cons.
  destruct (decide (p (key x) /\ _)) as [Hx|Hx]; rewrite ?find_row_cons, ?IH;
    destruct (decide (key x = k)) as [<-|]; try done; [by rewrite decide_True | by rewrite !decide_False].
Qed.
Lemma overlay_list_find k :
  (p k -> is_Some (find_row k theirs) -> is_Some (find_row k mine)) ->
  find_row k (overlay_list p mine theirs) = if decide (p k) then find_row k mine else find_row k theirs.
Proof.
  intros Hp. unfold overlay_list. rewrite find_row_app, find_overlay_theirs, find_filter_mine.
  destruct (find_row k theirs) as [r|] eqn:Ht.
  - destruct (decide (p k)) as [Hk|]; [|done]. destruct (Hp Hk) as [r' ->]; eauto.
  - destruct (decide (p k)) as [Hk|Hk]; [by rewrite decide_True | by rewrite decide_False by tauto].
Qed.
End Overlay.

(** Lists that evolve in place and grow at the end evolve row by row. *)
Lemma list_evolves_find (E : relation R) l l' k r :
  (forall a b, E a b -> key b = key a) -> list_evolves E l l' -> find_row k l = Some r ->
  exists r', find_row k l' = Some r' /\ E r r'.
Proof.
  intros HE (old & new & -> & Ho). rewrite find_row_app. induction Ho as [|a b la lb Hab Ho IH]; [done|].
  rewrite !find_row_cons, (HE _ _ Hab). destruct (decide _); [by intros [= <-]; eauto | apply IH].
Qed.
End Listed.

(** A table that is a map. *)
Definition overlay_map {K V} `{Countable K} (p : K -> Prop) `{!forall k, Decision (p k)} (mine theirs : gmap K V)
  : gmap K V :=
  filter (fun kv => p kv.1) mine ∪ filter (fun kv => ~ p kv.1) theirs.
Lemma overlay_map_lookup {K V} `{Countable K} (p : K -> Prop) `{!forall k, Decision (p k)} (mine theirs : gmap K V) k :
  overlay_map p mine theirs !! k = if decide (p k) then mine !! k else theirs !! k.
Proof.
  unfold overlay_map. rewrite lookup_union, !map_lookup_filter.
  destruct (decide (p k)) as [Hp|Hp]; destruct (mine !! k) as [a|], (theirs !! k) as [b|];
    by simplify_option_eq.
Qed.

(** The keys of both. *)
Lemma map_has_key {K V Q} `{Countable K} (f : K -> Q) (m : gmap K V) k :
  is_Some (m !! k) -> f k ∈ map f (elements (dom m)).
Proof. intros Hk. apply list_elem_of_fmap. exists k. split; [done|]. by apply elem_of_elements, elem_of_dom. Qed.
Lemma list_has_key {R K Q} `{EqDecision K} (key : R -> K) (f : K -> Q) l k :
  is_Some (find_row key k l) -> f k ∈ map (fun r => f (key r)) l.
Proof. intros [r [<- Hr]%find_row_key]. apply list_elem_of_fmap. eauto. Qed.
(** Lists whose rows stay in their places. *)
Section InPlace.
Context {R K : Type} `{EqDecision K} (key : R -> K).

Lemma map_forall2 (E : relation R) (f : R -> R) l l' :
  Forall2 E l l' -> (forall a b, E a b -> a ∈ l -> b ∈ l' -> f a = b) -> map f l = l'.
Proof.
  induction 1 as [|a b l l' Hab Ho IH]; intros Hf; [done|]. cbn. f_equal; [by apply Hf; [|left|left]|].
  apply IH. intros x y Hxy Hx Hy. by apply Hf; [|right|right].
Qed.

(** Over the rows it came from, such a list is itself. *)
Lemma overlay_list_in_place (E : relation R) (p : K -> Prop) `{!forall k, Decision (p k)} mine theirs :
  (forall a b, E a b -> key b = key a) -> list_evolves E theirs mine -> NoDup (map key theirs) -> NoDup (map key mine) ->
  (forall k, ~ p k -> find_row key k mine = find_row key k theirs) -> overlay_list key p mine theirs = mine.
Proof.
  intros HE (old & new & -> & Ho) Ht Hm Heq. unfold overlay_list. f_equal.
  - apply (map_forall2 E); [done|]. intros a b Hab Ha Hb.
    assert (find_row key (key a) (old ++ new)%list = Some b) as Hf.
    { rewrite <- (HE a b Hab). apply find_row_nodup; [done|]. apply elem_of_app. by left. }
    destruct (decide (p (key a))) as [Hp|Hp]; [by rewrite Hf|].
    rewrite (Heq _ Hp), (find_row_nodup key theirs a Ht Ha) in Hf. by injection Hf.
  - rewrite filter_app. replace new with ([] ++ new)%list at 2 by done.
    rewrite map_app in Hm. apply NoDup_app in Hm as (_ & Hdis & _).
    assert (map key old = map key theirs) as Hkeys.
    { clear -HE Ho. induction Ho as [|a b la lb Hab Ho IH]; cbn; [done|]. by rewrite (HE _ _ Hab), IH. }
    assert (forall r, r ∈ new -> find_row key (key r) theirs = None) as Hnew.
    { intros r Hr. apply find_row_none. rewrite <- Hkeys. intros Hk. apply (Hdis _ Hk). apply list_elem_of_fmap. eauto. }
    f_equal.
    + apply filter_none. intros r Hr [_ Hn]. apply find_row_none in Hn. apply Hn.
      rewrite <- Hkeys. apply list_elem_of_fmap. eauto.
    + apply filter_all. intros r Hr. split; [|by apply Hnew].
      destruct (decide (p (key r))) as [|Hp]; [done|]. exfalso. specialize (Heq _ Hp). rewrite (Hnew r Hr) in Heq.
      apply find_row_none in Heq. apply Heq. rewrite map_app. apply elem_of_app. right. apply list_elem_of_fmap. eauto.
Qed.
Lemma overlay_map_same {V} `{Countable K} (p : K -> Prop) `{!forall k, Decision (p k)} (mine theirs : gmap K V) :
  (forall k, ~ p k -> mine !! k = theirs !! k) -> overlay_map p mine theirs = mine.
Proof. intros Heq. apply map_eq. intros k. rewrite overlay_map_lookup. destruct (decide (p k)); [done | by rewrite Heq]. Qed.
End InPlace.

(** A row that is there stays there. *)
Definition still {R} (E : relation R) (o o' : option R) : Prop := forall r, o = Some r -> exists r', o' = Some r' /\ E r r'.
#[export] Instance still_preorder {R} (E : relation R) : PreOrder E -> PreOrder (still E).
Proof.
  intros HE. split; [intros o r ->; by exists r|].
  intros o1 o2 o3 H12 H23 r Hr. destruct (H12 r Hr) as (r2 & Hr2 & ?). destruct (H23 r2 Hr2) as (r3 & ? & ?).
  exists r3. split; [done | by etransitivity].
Qed.
(** ** Programs by their statements *)

Section Steps.
Context {DB L : Type} `{RowDB DB} `{Env}.

(** The end; something that touches no row; a statement, a function of the keys
    other transactions have locked (for SKIP LOCKED), the server's clock and the
    rows it sees.  A statement that may write many rows picks them from its
    snapshot first: by the time it has their locks others may have committed, and
    it then looks again at the rows it picked, but not for new ones. *)
Inductive steps (A : Type) : Type :=
| Done (r : result goerr A)
| Aside {B : Type} (f : L -> nat -> L * nat * B) (k : B -> steps A)
| Snap (k : DB -> steps A)
| Query {B : Type} (q : gset (Key DB) -> Time -> DB -> result goerr (DB * B)) (k : result goerr B -> steps A).
Arguments Done {A} r.
Arguments Aside {A B} f k.
Arguments Query {A B} q k.
Arguments Snap {A} k.

Fixpoint then_ {A B} (p : steps A) (k : result goerr A -> steps B) : steps B :=
  match p with
  | Done r => k r
  | Aside f k' => Aside f (fun b => then_ (k' b) k)
  | Snap k' => Snap (fun d => then_ (k' d) k)
  | Query q k' => Query q (fun r => then_ (k' r) k)
  end.
Definition on_ok {A B} (k : A -> steps B) (r : result goerr A) : steps B :=
  match r with Ok a => k a | Err e => Done (Err e) end.

(** Run on its own, without other transactions. *)
Fixpoint alone {A} (p : steps A) : M DB L A := fun s =>
  match p with
  | Done r => (s, r)
  | Aside f k => let '(l, t, b) := f (loc s) (tick s) in alone (k b) (mkSt (db s) l t)
  | Snap k => alone (k (db s)) s
  | Query q k => let '(s', r) := stmt (q ∅) s in alone (k r) s'
  end.

Lemma alone_then {A B} (p : steps A) (k : result goerr A -> steps B) s :
  alone (then_ p k) s = let '(s', r) := alone p s in alone (k r) s'.
Proof.
  revert s. induction p as [r|C f k' IH|k' IH|C q k' IH]; intros s; cbn; [done| | |].
  - destruct (f (loc s) (tick s)) as [[l t] b]. apply IH.
  - apply IH.
  - destruct (stmt (q ∅) s) as [s' r]. apply IH.
Qed.

(** [m] is a program whose statements are known. *)
Class Steps {A} (m : M DB L A) := { steps_of : steps A; steps_alone : forall s, alone steps_of s = m s }.
Arguments steps_of {A} m {_}.

#[global, refine] Instance Steps_lift {A} (r : result goerr A) : Steps (lift r) := {| steps_of := Done r; steps_alone := _ |}.
Proof. done. Defined.
#[global, refine] Instance Steps_ret {A} (a : A) : Steps (ret a) := {| steps_of := Done (Ok a); steps_alone := _ |}.
Proof. done. Defined.
#[global, refine] Instance Steps_fail {A} e : Steps (@fail DB L A e) := {| steps_of := Done (Err e); steps_alone := _ |}.
Proof. done. Defined.
#[global, refine] Instance Steps_newUUID : Steps newUUID := {| steps_of := Aside (fun l t => (l, S t, uuid_at t)) (fun u => Done (Ok u)); steps_alone := _ |}.
Proof. done. Defined.
#[global, refine] Instance Steps_timeNow : Steps timeNow := {| steps_of := Aside (fun l t => (l, S t, clock_at t)) (fun u => Done (Ok u)); steps_alone := _ |}.
Proof. done. Defined.
#[global, refine] Instance Steps_get_loc : Steps get_loc := {| steps_of := Aside (fun l t => (l, t, l)) (fun l => Done (Ok l)); steps_alone := _ |}.
Proof. by intros []. Defined.
#[global, refine] Instance Steps_put_loc l : Steps (put_loc l) := {| steps_of := Aside (fun _ t => (l, t, tt)) (fun u => Done (Ok u)); steps_alone := _ |}.
Proof. done. Defined.
#[global, refine] Instance Steps_stmt {A} (q : Time -> DB -> result goerr (DB * A)) :
  Steps (stmt q) := {| steps_of := Query (fun _ => q) Done; steps_alone := _ |}.
Proof. intros s. cbn. by destruct (stmt q s). Defined.
#[global] Instance Steps_exec {A} (q : DB -> result goerr (DB * A)) : Steps (exec q) := Steps_stmt (fun _ => q).
#[global, refine] Instance Steps_bind {A B} (m : M DB L A) (k : A -> M DB L B) :
  Steps m -> (forall a, Steps (k a)) -> Steps (bind m k) :=
  fun Hm Hk => {| steps_of := then_ (steps_of m) (on_ok (fun a => steps_of (k a))); steps_alone := _ |}.
Proof.
  intros s. rewrite alone_then, steps_alone. unfold bind. destruct (m s) as [s' [a|e]]; cbn; [|done].
  apply steps_alone.
Defined.
#[global, refine] Instance Steps_mapE {A} f (m : M DB L A) : Steps m -> Steps (mapE f m) :=
  fun Hm => {| steps_of := then_ (steps_of m)
                 (fun r => Done (match r with Ok a => Ok a | Err e => Err (f e) end)); steps_alone := _ |}.
Proof. intros s. rewrite alone_then, steps_alone. unfold mapE. by destruct (m s) as [s' [a|e]]. Defined.
#[global, refine] Instance Steps_try {A} (m : M DB L A) : Steps m -> Steps (try_ m) :=
  fun Hm => {| steps_of := then_ (steps_of m) (fun r => Done (Ok r)); steps_alone := _ |}.
Proof. intros s. rewrite alone_then, steps_alone. unfold try_. by destruct (m s) as [s' r]. Defined.
#[global, refine] Instance Steps_if {A} (b : bool) (m1 m2 : M DB L A) : Steps m1 -> Steps m2 -> Steps (if b then m1 else m2) :=
  fun H1 H2 => {| steps_of := if b then steps_of m1 else steps_of m2; steps_alone := _ |}.
Proof. intros s. destruct b; apply steps_alone. Defined.
#[global, refine] Instance Steps_option {A B} (o : option B) (m1 : B -> M DB L A) (m2 : M DB L A) :
  (forall b, Steps (m1 b)) -> Steps m2 -> Steps (match o with Some b => m1 b | None => m2 end) :=
  fun H1 H2 => {| steps_of := match o with Some b => steps_of (m1 b) | None => steps_of m2 end; steps_alone := _ |}.
Proof. intros s. destruct o; apply steps_alone. Defined.
Fixpoint each_steps {A} (body : A -> M DB L unit) (Hb : forall x, Steps (body x)) (l : list A) : steps unit :=
  match l with
  | [] => Done (Ok tt)
  | x :: r => then_ (steps_of (body x)) (on_ok (fun _ => each_steps body Hb r))
  end.
#[global, refine] Instance Steps_for_each {A} (body : A -> M DB L unit) l :
  (forall x, Steps (body x)) -> Steps (for_each body l) :=
  fun Hb => {| steps_of := each_steps body Hb l; steps_alone := _ |}.
Proof.
  intros s. revert s. induction l as [|x l IH]; intros s; [done|]. cbn [each_steps for_each].
  rewrite alone_then, steps_alone. unfold bind. destruct (body x s) as [s' [a|e]]; cbn; [apply IH | done].
Defined.
End Steps.
Arguments steps DB L {_} A.
Arguments Done {DB L _ A} r.
Arguments Aside {DB L _ A B} f k.
Arguments Snap {DB L _ A} k.
Arguments Query {DB L _ A B} q k.
Arguments steps_of {DB L _ _ A} m {_}.
Arguments Steps {DB L _ _ A} m.

(** ** The server with its transactions *)

Section System.
Context {DB L : Type} `{RowDB DB} `{Env}.

(** The transactions there are, what they answer, what maps the errors of their
    begin and commit, and their statements. *)
Context {J : Type} (answer : J -> Type) (on_error : goerr -> goerr)
  (body : forall j, steps DB L (outcome (answer j))).

(** The committed rows, the keys written by transactions under way, and the
    number of events so far. *)
Record Server := mkServer { committed : DB; locked : gset (Key DB); events : nat }.

(** A transaction: not begun; under way, with the rows it sees and what was
    committed of the rows it has written; ended, with its commit or without. *)
Inductive place : Type :=
| Waits (j : J)
| Active (j : J) (p : steps DB L (outcome (answer j))) (view : DB) (before : gmap (Key DB) (option (Row DB)))
| Ended (j : J) (commits : bool) (r : result goerr (answer j)).

Definition locks (before : gmap (Key DB) (option (Row DB))) : gset (Key DB) := dom before.
Lemma in_locks before k : k ∈ locks before <-> is_Some (before !! k).
Proof. apply elem_of_dom. Qed.
Lemma not_in_locks before k : k ∉ locks before <-> before !! k = None.
Proof. apply not_elem_of_dom. Qed.
(** The rows a statement has changed join those of its transaction. *)
Definition writes (before : gmap (Key DB) (option (Row DB))) (d d' : DB) : gmap (Key DB) (option (Row DB)) :=
  before ∪ set_to_map (fun k => (k, row_at d k)) (changed d d').
Definition happened (v : Server) : Server := mkServer (committed v) (locked v) (S (events v)).
(** A transaction ends: its locks are gone.  A rollback is no event of the outside world. *)
Definition release (v : Server) (n : nat) (d : DB) (before : gmap (Key DB) (option (Row DB))) : Server :=
  mkServer d (locked v ∖ locks before) n.

(** One step, with what the process keeps at the time.  A statement that would
    write a row locked by another transaction makes none. *)
Definition tx_step (l : L) (p : place) (v : Server) : option (Server * place) :=
  match p with
  | Waits j =>
      Some (happened v,
            match trip_at (events v) with
            | TripOk => Active j (body j) (committed v) ∅
            | TripFailed e | TripLost e => Ended j false (Err (on_error e))
            end)
  | Active j (Done (Err e)) view before => Some (release v (events v) (committed v) before, Ended j false (Err e))
  | Active j (Done (Ok (Return a))) view before => Some (release v (events v) (committed v) before, Ended j false (Ok a))
  | Active j (Done (Ok (CommitThen a))) view before =>
      let d := overlay (locks before) view (committed v) in
      Some (match trip_at (events v) with
            | TripOk => (release v (S (events v)) d before, Ended j true (Ok a))
            | TripFailed e => (release v (S (events v)) (committed v) before, Ended j false (Err (on_error e)))
            | TripLost e => (release v (S (events v)) d before, Ended j true (Err (on_error e)))
            end)
  | Active j (Aside f k) view before =>
      let '(_, t, b) := f l (events v) in
      Some (mkServer (committed v) (locked v) t, Active j (k b) view before)
  | Active j (Snap k) view before =>
      let d := overlay (locks before) view (committed v) in Some (v, Active j (k d) d before)
  | Active j (Query q k) view before =>
      let d := overlay (locks before) view (committed v) in
      let others := locked v ∖ locks before in
      match trip_at (events v), q others (db_now_at (events v)) d with
      | TripFailed e, _ | TripLost e, Err _ | TripOk, Err e => Some (happened v, Active j (k (Err e)) d before)
      | trip, Ok (d', b) =>
          if decide (changed d d' ## others) then
            Some (mkServer (committed v) (locked v ∪ changed d d') (S (events v)),
                  Active j (k (match trip with TripLost e => Err e | _ => Ok b end)) d' (writes before d d'))
          else None
      end
  | Ended _ _ _ => None
  end.

(** ** Relying on the others *)

Section Proofs.
(** How one row may come to differ, the states all transactions keep to, and
    what a committed row always satisfies. *)
Context (ev : Key DB -> relation (option (Row DB))) `{!forall k, PreOrder (ev k)}
  (tidy : DB -> Prop) `{!RowLaws DB tidy} (com : Key DB -> option (Row DB) -> Prop).
Context (ev_present : forall k r o, lasting k -> ev k (Some r) o -> is_Some o).

Definition evolved (d d' : DB) : Prop := forall k, ev k (row_at d k) (row_at d' k).
#[global] Instance evolved_preorder : PreOrder evolved.
Proof. split; [by intros d k|]. intros d1 d2 d3 He1 He2 k. etransitivity; [apply He1 | apply He2]. Qed.

(** Between two statements the rows evolve, but for those the transaction has
    written; each statement makes them evolve. *)
Fixpoint keeps {A} (p : steps DB L A) (d : DB) (before : gmap (Key DB) (option (Row DB)))
    (Q : result goerr A -> DB -> gmap (Key DB) (option (Row DB)) -> Prop) : Prop :=
  match p with
  | Done r => Q r d before
  | Aside f k => forall l t, keeps (k (snd (f l t))) d before Q
  | Snap k => forall d1,
      evolved d d1 -> (forall o, before !! o <> None -> row_at d1 o = row_at d o) -> tidy d1 ->
      (forall o, before !! o = None -> com o (row_at d1 o)) -> keeps (k d1) d1 before Q
  | Query q k => forall d1 busy now,
      evolved d d1 -> (forall o, before !! o <> None -> row_at d1 o = row_at d o) -> tidy d1 ->
      (forall o, before !! o = None -> com o (row_at d1 o)) ->
      (forall e, keeps (k (Err e)) d1 before Q) /\
      (forall d2 b, q busy now d1 = Ok (d2, b) ->
         evolved d1 d2 /\ tidy d2 /\ keeps (k (Ok b)) d2 (writes before d1 d2) Q /\
         forall e, keeps (k (Err e)) d2 (writes before d1 d2) Q)
  end.

Lemma keeps_mono {A} (p : steps DB L A) d before (Q Q' : _ -> _ -> _ -> Prop) :
  (forall r d' b', Q r d' b' -> Q' r d' b') -> keeps p d before Q -> keeps p d before Q'.
Proof.
  intros HQ. revert d before. induction p as [r|C f k IH|k IH|C q k IH]; intros d before; cbn; [apply HQ| | |].
  - intros Hk l t. by apply IH.
  - intros Hk d1 He Hl Ht Hcm. by apply IH, Hk.
  - intros Hk d1 busy now He Hl Ht Hcm. destruct (Hk d1 busy now He Hl Ht Hcm) as [Hf Hs].
    split; [intros e; by apply IH|]. intros d2 b Hq. destruct (Hs d2 b Hq) as (? & ? & ? & ?). eauto 6.
Qed.

Lemma keeps_and {A} (p : steps DB L A) d before (Q Q' : _ -> _ -> _ -> Prop) :
  keeps p d before Q -> keeps p d before Q' -> keeps p d before (fun r d' b' => Q r d' b' /\ Q' r d' b').
Proof.
  revert d before. induction p as [r|C f k IH|k IH|C q k IH]; intros d before; cbn; [done| | |].
  - intros Hk Hk' l t. by apply IH.
  - intros Hk Hk' d1 He Hl Ht Hcm. by apply IH; [apply Hk | apply Hk'].
  - intros Hk Hk' d1 busy now He Hl Ht Hcm. destruct (Hk d1 busy now He Hl Ht Hcm) as [Hf Hs].
    destruct (Hk' d1 busy now He Hl Ht Hcm) as [Hf' Hs'].
    split; [intros e; by apply IH|]. intros d2 b Hq. destruct (Hs d2 b Hq) as (? & ? & ? & ?).
    destruct (Hs' d2 b Hq) as (_ & _ & ? & ?). split_and!; auto.
Qed.

Lemma keeps_then {A B} (p : steps DB L A) (k : result goerr A -> steps DB L B) d before Q :
  keeps p d before (fun r d' b' => keeps (k r) d' b' Q) -> keeps (then_ p k) d before Q.
Proof.
  revert d before. induction p as [r|C f k' IH|k' IH|C q k' IH]; intros d before; cbn; [done| | |].
  - intros Hk l t. by apply IH.
  - intros Hk d1 He Hl Ht Hcm. by apply IH, Hk.
  - intros Hk d1 busy now He Hl Ht Hcm. destruct (Hk d1 busy now He Hl Ht Hcm) as [Hf Hs].
    split; [intros e; by apply IH|]. intros d2 b Hq. destruct (Hs d2 b Hq) as (? & ? & ? & ?). eauto 6.
Qed.

(** What a program that keeps to the rules leaves: evolved rows, in order. *)
Lemma keeps_evolved {A} (p : steps DB L A) d before Q : tidy d ->
  keeps p d before Q -> keeps p d before (fun r d' b' => Q r d' b' /\ evolved d d' /\ tidy d').
Proof.
  revert d before. induction p as [r|C f k IH|k IH|C q k IH]; intros d before Hd; cbn.
  { intros HQ. split_and!; [done | reflexivity | done]. }
  { intros Hk l t. by apply IH. }
  { intros Hk d1 He Hl Ht Hcm. eapply keeps_mono; [|by apply IH, Hk].
    intros r1 d'' b'' (? & ? & ?). split_and!; [done | by etransitivity | done]. }
  intros Hk d1 busy now He Hl Ht Hcm. destruct (Hk d1 busy now He Hl Ht Hcm) as [Hf Hs].
  assert (forall d' r b', evolved d d' -> tidy d' -> keeps (k r) d' b' Q ->
    keeps (k r) d' b' (fun r d'' b'' => Q r d'' b'' /\ evolved d d'' /\ tidy d'')) as Hgo.
  { intros d' r b' Hev Hti Hkk. eapply keeps_mono; [|by apply IH].
    intros r1 d'' b'' (? & ? & ?). split_and!; [done | by etransitivity | done]. }
  split; [intros e; by apply Hgo|].
  intros d2 b Hq. destruct (Hs d2 b Hq) as (He2 & Ht2 & Hk2 & Hk3).
  assert (evolved d d2) by by etransitivity.
  split_and!; auto.
Qed.

(** ** All together *)

(** What each transaction is shown to have done when it asks for its commit. *)
Context (commit_post : forall j, result goerr (outcome (answer j)) -> DB -> gmap (Key DB) (option (Row DB)) -> Prop)
  (commit_com : forall j a view before, commit_post j (Ok (CommitThen a)) view before ->
     forall k, before !! k <> None -> com k (row_at view k)).
(** The transactions that are considered. *)
Context (allowed : J -> Prop) (body_keeps : forall j d, allowed j -> tidy d -> keeps (body j) d ∅ (commit_post j)).

Definition held (p : place) : gset (Key DB) :=
  match p with Active _ _ _ before => locks before | _ => ∅ end.
Definition place_ok (c : DB) (p : place) : Prop :=
  match p with
  | Active j p view before =>
      tidy view /\ keeps p view before (commit_post j) /\
      (forall k o, before !! k = Some o -> row_at c k = o /\ ev k o (row_at view k)) /\
      (forall k, before !! k = None -> ev k (row_at view k) (row_at c k))
  | Waits j => allowed j
  | Ended _ _ _ => True
  end.
Record sys_ok (s : Sys Server place) : Prop := {
  ok_tidy : tidy (committed (shared s));
  ok_com : forall k, com k (row_at (committed (shared s)) k);
  ok_places : forall i p, threads s !! i = Some p -> place_ok (committed (shared s)) p;
  ok_locked : forall i p, threads s !! i = Some p -> held p ⊆ locked (shared s);
  ok_apart : forall i i' p p', threads s !! i = Some p -> threads s !! i' = Some p' -> i <> i' -> held p ## held p'
}.

(** The rows a transaction has written become the committed ones. *)
Definition published (c c' view : DB) (before : gmap (Key DB) (option (Row DB))) : Prop :=
  forall k, match before !! k with
            | Some o => row_at c k = o /\ row_at c' k = row_at view k /\ ev k o (row_at view k)
            | None => row_at c' k = row_at c k
            end.
Lemma published_row c c' view before k o : published c c' view before -> before !! k = Some o ->
  row_at c k = o /\ row_at c' k = row_at view k.
Proof. intros Hp Ho. specialize (Hp k). rewrite Ho in Hp. by destruct Hp as (? & ? & _). Qed.
Lemma published_other c c' view before k : published c c' view before -> before !! k = None -> row_at c' k = row_at c k.
Proof. intros Hp Ho. specialize (Hp k). by rewrite Ho in Hp. Qed.
(** What a step does to the committed rows: nothing, or it publishes the rows
    of a transaction that ends. *)
Definition publishes (c c' : DB) (q : place) : Prop :=
  (c' = c /\ forall j r, q <> Ended j true r) \/
  exists j a r view before, q = Ended j true r /\ (forall x, r = Ok x -> x = a) /\
    commit_post j (Ok (CommitThen a)) view before /\ published c c' view before.

Lemma publishes_evolved c c' q : publishes c c' q -> evolved c c'.
Proof.
  intros [[-> _]|(j & a & r & view & before & _ & _ & _ & Hk)]; [reflexivity|]. intros k. specialize (Hk k).
  destruct (before !! k); [by destruct Hk as (-> & -> & ?) | by rewrite Hk].
Qed.

Lemma writes_lookup before d d' k :
  writes before d d' !! k = match before !! k with
                            | Some o => Some o
                            | None => if decide (row_at d k = row_at d' k) then None else Some (row_at d k)
                            end.
Proof.
  unfold writes. rewrite lookup_union.
  assert (set_to_map (fun k => (k, row_at d k)) (changed d d') !! k =
          if decide (row_at d k = row_at d' k) then None else Some (row_at d k)) as ->.
  { destruct (decide _) as [He|Hne].
    - apply not_elem_of_dom. intros [o Ho]%elem_of_dom.
      apply lookup_set_to_map in Ho as (k' & Hk' & [= -> _]); [|by intros ? ? _ _ [= ->]].
      by apply changed_spec in Hk'.
    - apply lookup_set_to_map; [by intros ? ? _ _ [= ->]|]. exists k. by rewrite changed_spec. }
  by destruct (before !! k), (decide _).
Qed.
Lemma writes_locks before d d' : locks (writes before d d') = locks before ∪ changed d d'.
Proof.
  apply set_eq. intros k. rewrite elem_of_union, !in_locks, writes_lookup, changed_spec.
  destruct (before !! k); [naive_solver|]. destruct (decide _); naive_solver.
Qed.

(** The rows a statement of a transaction sees, and a commit publishes. *)
Lemma seen_row c j p view before k : tidy c -> place_ok c (Active j p view before) ->
  row_at (overlay (locks before) view c) k = if decide (k ∈ locks before) then row_at view k else row_at c k.
Proof.
  intros Hc (Hv & _ & Hmine & _). apply overlay_row; [done | done|].
  intros Hlast [o Ho]%in_locks [r Hr]. destruct (Hmine _ _ Ho) as [Heq He]. rewrite <- Heq, Hr in He.
  by eapply ev_present.
Qed.
Lemma seen_ok c j p view before : tidy c -> place_ok c (Active j p view before) ->
  let d := overlay (locks before) view c in
  tidy d /\ evolved view d /\ (forall k, before !! k <> None -> row_at d k = row_at view k) /\
  (forall k o, before !! k = Some o -> row_at c k = o /\ ev k o (row_at d k)) /\
  (forall k, before !! k = None -> row_at d k = row_at c k).
Proof.
  intros Hc Hp d. pose proof (fun k => seen_row c j p view before k Hc Hp) as Hd. fold d in Hd.
  destruct Hp as (Hv & _ & Hmine & Hrest). split_and!.
  - by apply overlay_tidy.
  - intros k. rewrite Hd. destruct (decide _) as [|Hn]; [reflexivity|].
    by apply Hrest, not_in_locks.
  - intros k Hk. rewrite Hd, decide_True; [done|]. apply in_locks. by destruct (before !! k).
  - intros k o Ho. rewrite Hd, decide_True by (apply in_locks; eauto). by apply Hmine.
  - intros k Hn. rewrite Hd, decide_False; [done|]. by apply not_in_locks.
Qed.

(** A transaction that goes on with the rows [d] it sees. *)
Lemma still_ok c j p d before : tidy d -> keeps p d before (commit_post j) ->
  (forall k o, before !! k = Some o -> row_at c k = o /\ ev k o (row_at d k)) ->
  (forall k, before !! k = None -> row_at d k = row_at c k) -> place_ok c (Active j p d before).
Proof. intros Ht Hk Hm Hr. split_and!; [done | done | done|]. intros k Hn. by rewrite Hr. Qed.
(** After a statement of its own. *)
Lemma wrote_ok c j p d d' before : tidy d' -> evolved d d' -> keeps p d' (writes before d d') (commit_post j) ->
  (forall k o, before !! k = Some o -> row_at c k = o /\ ev k o (row_at d k)) ->
  (forall k, before !! k = None -> row_at d k = row_at c k) -> place_ok c (Active j p d' (writes before d d')).
Proof.
  intros Ht He Hk Hm Hr. apply still_ok; [done | done | |]; intros k; [intros o|]; rewrite writes_lookup;
    destruct (before !! k) as [o'|] eqn:Hb.
  - intros [= <-]. destruct (Hm _ _ Hb) as [? ?]. split; [done | by etransitivity].
  - destruct (decide _); [done|]. intros [= <-]. split; [by rewrite Hr | apply He].
  - done.
  - destruct (decide _) as [<-|]; [auto | done].
Qed.

(** What one step of a transaction promises the others. *)
Record step_ok (v v' : Server) (p q : place) : Prop := {
  so_rows : publishes (committed v) (committed v') q;
  so_tidy : tidy (committed v');
  so_com : forall k, com k (row_at (committed v') k);
  so_place : place_ok (committed v') q;
  so_locked : held q ⊆ locked v';
  so_others : locked v ∖ held p ⊆ locked v';
  so_apart : held q ## locked v ∖ held p;
  so_written : forall k, row_at (committed v') k <> row_at (committed v) k -> k ∈ held p
}.

(** Steps that publish nothing. *)
Lemma quiet v v' p q :
  committed v' = committed v -> tidy (committed v) -> (forall k, com k (row_at (committed v) k)) -> (forall j r, q <> Ended j true r) ->
  place_ok (committed v) q -> held q ⊆ locked v' -> locked v ∖ held p ⊆ locked v' ->
  held q ## locked v ∖ held p -> step_ok v v' p q.
Proof. intros Heq Ht Hcm Hq Hp Hs1 Hs2 Hs3. constructor; rewrite ?Heq; try done. by left. Qed.

Lemma rolls_back v n before j p view r :
  tidy (committed v) -> (forall k, com k (row_at (committed v) k)) ->
  step_ok v (release v n (committed v) before) (Active j p view before) (Ended j false r).
Proof. intros Hc Hcm. apply quiet; cbn; [done | done | done | by intros ? ? [=] | done | set_solver..]. Qed.

Lemma commits v n before j a view r : (forall x, r = Ok x -> x = a) ->
  tidy (committed v) -> (forall k, com k (row_at (committed v) k)) -> place_ok (committed v) (Active j (Done (Ok (CommitThen a))) view before) ->
  step_ok v (release v n (overlay (locks before) view (committed v)) before)
    (Active j (Done (Ok (CommitThen a))) view before) (Ended j true r).
Proof.
  intros Hx Hc Hcm Hp. destruct (seen_ok _ _ _ _ _ Hc Hp) as (Ht & _ & Hsame & Hm & Hr).
  constructor; cbn; [|done| |done|set_solver|set_solver|set_solver|].
  - right. exists j, a, r, view, before. split_and!; [done | done | apply Hp|]. intros k.
    destruct (before !! k) as [o|] eqn:Ho; [|by apply Hr].
    destruct (Hm _ _ Ho) as [? He]. rewrite (Hsame k) in * by congruence. done.
  - intros k. destruct (before !! k) as [o|] eqn:Ho; [|by rewrite Hr].
    rewrite (Hsame k) by congruence. eapply commit_com; [apply Hp | congruence].
  - intros k Hne. apply in_locks. destruct (before !! k) eqn:Hb; [eauto|]. by rewrite Hr in Hne.
Qed.

Lemma tx_step_ok l p v v' q :
  tidy (committed v) -> (forall k, com k (row_at (committed v) k)) -> place_ok (committed v) p -> held p ⊆ locked v ->
  tx_step l p v = Some (v', q) -> step_ok v v' p q.
Proof.
  intros Hc Hcm Hp Hl. destruct p as [j|j [[[a|a]|e]|C f k|k|C qu k] view before|j cm r]; cbn [tx_step].
  - intros [= <- <-]. destruct (trip_at (events v)).
    { apply quiet; [done | done | done | done | | cbn; set_solver..].
      split_and!; [done | by apply body_keeps | by intros k o Ho%lookup_empty_Some | by intros k _]. }
    all: apply quiet; [done | done | done | by intros ? ? [=] | done | cbn; set_solver..].
  - destruct (trip_at (events v)); intros [= <- <-];
      [apply commits; [by intros x [= ->] | done..] | by apply rolls_back | by apply commits].
  - intros [= <- <-]. by apply rolls_back.
  - intros [= <- <-]. by apply rolls_back.
  - destruct (f l (events v)) as [[l' t] b] eqn:Hf. intros [= <- <-].
    apply quiet; [done | done | done | done | | cbn; set_solver..].
    destruct Hp as (Hv & Hk & Hrest). split; [done|]. split; [|done].
    specialize (Hk l (events v)). by rewrite Hf in Hk.
  - destruct (seen_ok _ _ _ _ _ Hc Hp) as (Ht & He & Hsame & Hm & Hr). destruct Hp as (Hv & Hk & _). cbn [keeps] in Hk.
    intros [= <- <-]. apply quiet; [done | done | done | done | | cbn; set_solver..].
    apply still_ok; [done | | done | done]. apply Hk; [done | done | done|]. intros k' Hn. by rewrite Hr.
  - destruct (seen_ok _ _ _ _ _ Hc Hp) as (Ht & He & Hsame & Hm & Hr).
    destruct Hp as (Hv & Hk & _). cbn [keeps] in Hk.
    set (d := overlay (locks before) view (committed v)) in *.
    set (others := locked v ∖ locks before) in *.
    assert (forall k, before !! k = None -> com k (row_at d k)) as Hcd.
    { intros k' Hn. by rewrite Hr. }
    destruct (Hk d others (db_now_at (events v)) He Hsame Ht Hcd) as [Hf Hs].
    assert (forall e, step_ok v (happened v) (Active j (Query qu k) view before) (Active j (k (Err e)) d before)) as Hstay.
    { intros e. apply quiet; [done | done | done | done | by apply still_ok | cbn; set_solver..]. }
    destruct (qu others (db_now_at (events v)) d) as [[d' b]|e'].
    2:{ destruct (trip_at (events v)); intros [= <- <-]; apply Hstay. }
    assert (forall r, keeps (k r) d' (writes before d d') (commit_post j) -> changed d d' ## others ->
      step_ok v (mkServer (committed v) (locked v ∪ changed d d') (S (events v)))
        (Active j (Query qu k) view before) (Active j (k r) d' (writes before d d'))) as Hgo.
    { destruct (Hs d' b eq_refl) as (He' & Ht' & _ & _). intros r Hkr Hdisj.
      apply quiet; [done | done | done | done | by apply wrote_ok|..]; cbn [held locked]; rewrite ?writes_locks; set_solver. }
    destruct (Hs d' b eq_refl) as (_ & _ & Hko & Hke).
    destruct (trip_at (events v)) as [|e|e]; [|intros [= <- <-]; apply Hstay|];
      (destruct (decide _) as [Hdisj|]; [|done]); intros [= <- <-]; by apply Hgo.
  - done.
Qed.

Definition admitted (lb : label L J) : Prop := match lb with Spawn j => allowed j | Run _ _ => True end.
Lemma server_step_ok lb (s s' : Sys Server place) :
  admitted lb -> sys_ok s -> sys_step Waits tx_step lb s = Some s' ->
  sys_ok s' /\
  match lb with
  | Spawn _ => committed (shared s') = committed (shared s)
  | Run i _ => exists q, threads s' !! i = Some q /\ publishes (committed (shared s)) (committed (shared s')) q
  end.
Proof.
  intros Had [Hc Hcm Hp Hl Ha]. destruct lb as [j|i l]; cbn.
  { intros [= <-]. split; [|done]. constructor; cbn; [done|done| | |].
    - intros i p [Hi|[_ Hi]]%lookup_app_Some; [by eapply Hp|]. by apply list_lookup_singleton_Some in Hi as [_ <-].
    - intros i p [Hi|[_ Hi]]%lookup_app_Some; [by eapply Hl|]. apply list_lookup_singleton_Some in Hi as [_ <-]. set_solver.
    - intros i i' p p' Hi Hi' Hne.
      apply lookup_app_Some in Hi as [Hi|[? Hi]]; [|apply list_lookup_singleton_Some in Hi as [? <-]; set_solver].
      apply lookup_app_Some in Hi' as [Hi'|[? Hi']]; [by eapply Ha|].
      apply list_lookup_singleton_Some in Hi' as [? <-]; set_solver. }
  destruct (threads s !! i) as [p|] eqn:Hi; [|done]. cbn.
  destruct (tx_step l p (shared s)) as [[v' q]|] eqn:Hst; [|done]. intros [= <-].
  destruct (tx_step_ok _ _ _ _ _ Hc Hcm (Hp _ _ Hi) (Hl _ _ Hi) Hst) as [Hpub Ht Hcm' Hq Hlq Hlo Hap Hwr]. cbn.
  split.
  2:{ exists q. split; [|done]. apply list_lookup_insert_eq. by apply lookup_lt_Some in Hi. }
  assert (forall i' p', threads s !! i' = Some p' -> i' <> i ->
    held p' ⊆ locked (shared s) ∖ held p /\ place_ok (committed v') p') as Hother.
  { intros i' p' Hi' Hne. pose proof (Ha _ _ _ _ Hi' Hi Hne) as Hd. pose proof (Hl _ _ Hi') as Hsub.
    split; [set_solver|]. pose proof (Hp _ _ Hi') as Hok.
    destruct p' as [|j' p' view' before'|]; [done| |done]. destruct Hok as (Hv' & Hk' & Hm' & Hr').
    split_and!; [done | done | |].
    - intros k o Ho. destruct (Hm' _ _ Ho) as [<- ?]. split; [|done].
      destruct (decide (row_at (committed v') k = row_at (committed (shared s)) k)) as [|Hn]; [done|].
      apply Hwr in Hn. exfalso. apply (Hd k); [|done]. apply in_locks; eauto.
    - intros k Hn. etransitivity; [by apply Hr'|]. by eapply publishes_evolved. }
  constructor; cbn; [done|done| | |].
  - intros i' p' [(<- & <- & _)|[Hne Hi']]%list_lookup_insert_Some; [done | by eapply Hother].
  - intros i' p' [(<- & <- & _)|[Hne Hi']]%list_lookup_insert_Some; [done|].
    destruct (Hother _ _ Hi') as [? _]; [done | set_solver].
  - intros i1 i2 p1 p2 Hi1 Hi2 Hne.
    apply list_lookup_insert_Some in Hi1 as [(<- & <- & _)|[Hne1 Hi1]];
      apply list_lookup_insert_Some in Hi2 as [(<- & <- & _)|[Hne2 Hi2]]; [done| | |by eapply Ha].
    + destruct (Hother _ _ Hi2) as [? _]; [done | set_solver].
    + destruct (Hother _ _ Hi1) as [? _]; [done | set_solver].
Qed.

(** From any reachable state on, the committed rows evolve. *)
Lemma run_history ls : forall s s' : Sys Server place,
  Forall admitted ls -> sys_ok s -> run Waits tx_step ls s = Some s' ->
  sys_ok s' /\ evolved (committed (shared s)) (committed (shared s')).
Proof.
  induction ls as [|lb ls IH]; intros s s' Had Hs; cbn; [by intros [= <-]|]. inversion_clear Had as [|? ? Ha Had'].
  destruct (sys_step Waits tx_step lb s) as [s1|] eqn:Hst; [|done]. cbn. intros Hrun.
  destruct (server_step_ok _ _ _ Ha Hs Hst) as [Hs1 Hpub]. destruct (IH _ _ Had' Hs1 Hrun) as [Hs' He]. split; [done|].
  etransitivity; [|exact He]. destruct lb; [by rewrite Hpub|].
  destruct Hpub as (q & _ & Hq). by eapply publishes_evolved.
Qed.

(** ** What happens at most once *)

(** The ends in [P] are commits that find something not [taken] and leave it so
    for good. *)
Section Once.
Context (taken : DB -> Prop) (taken_evolved : forall c c', evolved c c' -> taken c -> taken c')
  (P : place -> Prop) (P_ended : forall q, P q -> exists j r, q = Ended j true r)
  (P_first : forall c c' q, publishes c c' q -> P q -> ~ taken c /\ taken c').

Definition at_most_one (already : Prop) (s : Sys Server place) : Prop :=
  (already -> taken (committed (shared s))) /\
  (forall i q, threads s !! i = Some q -> P q -> ~ already /\ taken (committed (shared s))) /\
  (forall i i' q q', threads s !! i = Some q -> threads s !! i' = Some q' -> P q -> P q' -> i = i').

Lemma once_step already lb s s' :
  admitted lb -> sys_ok s -> at_most_one already s -> sys_step Waits tx_step lb s = Some s' -> at_most_one already s'.
Proof.
  intros Had Hs (Htk & Hrow & Hone) Hst. destruct (server_step_ok _ _ _ Had Hs Hst) as [_ Hpub].
  destruct lb as [j|i l]; cbn in Hst.
  { injection Hst as <-. cbn in *.
    assert (forall i q, (threads s ++ [Waits j])%list !! i = Some q -> P q -> threads s !! i = Some q) as Hold.
    { intros i q [Hi|[_ Hi]]%lookup_app_Some HP; [done|]. apply list_lookup_singleton_Some in Hi as [_ <-].
      by apply P_ended in HP as (? & ? & [=]). }
    split_and!; eauto. }
  destruct Hpub as (q & Hq & Hpub). pose proof (publishes_evolved _ _ _ Hpub) as He.
  destruct (threads s !! i) as [p|] eqn:Hi; [|done]. cbn in Hst.
  destruct (tx_step l p (shared s)) as [[v' q0]|] eqn:Hp; [|done]. cbn in Hst. injection Hst as <-.
  cbn in Hq. rewrite list_lookup_insert_eq in Hq by (by apply lookup_lt_Some in Hi). injection Hq as ->.
  assert (forall i' q', i' <> i -> threads s !! i' = Some q' -> P q' -> P q -> False) as Hnew.
  { intros i' q' Hne Hi' HP' HP. destruct (P_first _ _ _ Hpub HP) as [Hnone _]. by destruct (Hrow _ _ Hi' HP') as [_ ?]. }
  split_and!.
  - intros Ht. by apply (taken_evolved _ _ He), Htk.
  - intros i' q' Hi' HP'. cbn in Hi'. apply list_lookup_insert_Some in Hi' as [(<- & <- & _)|[Hne Hi']].
    + destruct (P_first _ _ _ Hpub HP') as [Hnone Hsome]. split; [|done]. by intros ?%Htk.
    + destruct (Hrow _ _ Hi' HP') as [? ?]. split; [done|]. by apply (taken_evolved _ _ He).
  - intros i1 i2 q1 q2 H1' H2' HP1 HP2. cbn in H1', H2'.
    apply list_lookup_insert_Some in H1' as [(<- & <- & _)|[Hne1 H1']];
      apply list_lookup_insert_Some in H2' as [(<- & <- & _)|[Hne2 H2']]; [done| | |by eapply Hone].
    + destruct (Hnew i2 q2); auto.
    + destruct (Hnew i1 q1); auto.
Qed.
Lemma once_run already ls : forall s s',
  Forall admitted ls -> sys_ok s -> at_most_one already s -> run Waits tx_step ls s = Some s' -> at_most_one already s'.
Proof.
  induction ls as [|lb ls IH]; intros s s' Had Hs Ho; [by intros [= <-]|]. inversion_clear Had as [|? ? Ha Had'].
  cbn. destruct (sys_step _ _ lb s) as [s1|] eqn:Hst; [|done]. cbn. intros Hrun.
  eapply IH; [done | by eapply server_step_ok | by eapply once_step | exact Hrun].
Qed.
Lemma once_started already ls d n s' : tidy d -> (forall k, com k (row_at d k)) -> (already -> taken d) ->
  Forall admitted ls -> run Waits tx_step ls (start (mkServer d ∅ n)) = Some s' -> at_most_one already s'.
Proof.
  intros Hd Hcm Htk Had. apply once_run; [done | by constructor|].
  split_and!; [done | intros i q Hi; discriminate Hi | intros i i' q q' Hi; discriminate Hi].
Qed.
End Once.

Lemma start_ok d n : tidy d -> (forall k, com k (row_at d k)) -> sys_ok (start (mkServer d ∅ n)).
Proof. intros Hd Hcm. by constructor. Qed.
End Proofs.
End System.

(** ** Rules for programs *)

Section Rules.
Context {DB L : Type} `{RowDB DB} `{Env}.
Context (ev : Key DB -> relation (option (Row DB))) `{!forall k, PreOrder (ev k)} (tidy : DB -> Prop)
  (com : Key DB -> option (Row DB) -> Prop).
Notation marks := (gmap (Key DB) (option (Row DB))).

(** The statements of [m] keep to the rules and a success leaves [Q]. *)
Definition safe {A} (m : M DB L A) `{!Steps m} (d : DB) (b : marks) (Q : A -> DB -> marks -> Prop) : Prop :=
  keeps ev tidy com (steps_of m) d b (fun r d' b' => forall a, r = Ok a -> Q a d' b').

Lemma safe_mono {A} (m : M DB L A) `{!Steps m} d b (Q Q' : A -> DB -> marks -> Prop) :
  (forall a d' b', Q a d' b' -> Q' a d' b') -> safe m d b Q -> safe m d b Q'.
Proof. intros HQ. apply keeps_mono. eauto. Qed.
Lemma safe_ret {A} (a : A) d b (Q : A -> DB -> marks -> Prop) : Q a d b -> safe (ret a) d b Q.
Proof. by intros HQ a' [= ->]. Qed.
Lemma safe_fail {A} e d b (Q : A -> DB -> marks -> Prop) : safe (fail e) d b Q.
Proof. by intros a. Qed.
Lemma safe_lift {A} (r : result goerr A) d b (Q : A -> DB -> marks -> Prop) :
  (forall a, r = Ok a -> Q a d b) -> safe (lift r) d b Q.
Proof. done. Qed.
Lemma safe_uuid d b (Q : string -> DB -> marks -> Prop) : (forall u, Q u d b) -> safe newUUID d b Q.
Proof. intros HQ l t a [= <-]. apply HQ. Qed.
Lemma safe_now d b (Q : Time -> DB -> marks -> Prop) : (forall t, Q t d b) -> safe timeNow d b Q.
Proof. intros HQ l t a [= <-]. apply HQ. Qed.
Lemma safe_get_loc d b (Q : L -> DB -> marks -> Prop) : (forall l, Q l d b) -> safe get_loc d b Q.
Proof. intros HQ l t a [= <-]. apply HQ. Qed.
Lemma safe_put_loc l d b (Q : unit -> DB -> marks -> Prop) : Q tt d b -> safe (put_loc l) d b Q.
Proof. by intros HQ l' t [] _. Qed.
Lemma safe_bind {A B} (m : M DB L A) (k : A -> M DB L B) `{Hm : !Steps m} `{Hk : !forall a, Steps (k a)} d b Q :
  safe m d b (fun a d' b' => safe (k a) d' b' Q) -> safe (bind m k) d b Q.
Proof.
  intros Hs. apply (keeps_then ev tidy com (steps_of m)). eapply keeps_mono; [|exact Hs].
  intros [a|e] d' b' Hr; cbn; [by apply Hr | done].
Qed.
Lemma safe_mapE {A} f (m : M DB L A) `{!Steps m} d b Q : safe m d b Q -> safe (mapE f m) d b Q.
Proof.
  intros Hs. apply (keeps_then ev tidy com (steps_of m)). eapply keeps_mono; [|exact Hs].
  intros [a|e] d' b' Hr a'; cbn; [intros [= <-]; by apply Hr | done].
Qed.
Lemma safe_try {A} (m : M DB L A) `{!Steps m} d b (Q : result goerr A -> DB -> marks -> Prop) :
  keeps ev tidy com (steps_of m) d b Q -> safe (try_ m) d b Q.
Proof.
  intros Hs. apply (keeps_then ev tidy com (steps_of m)). eapply keeps_mono; [|exact Hs]. by intros r d' b' HQ r' [= ->].
Qed.
Lemma safe_if {A} (c : bool) (m1 m2 : M DB L A) `{!Steps m1} `{!Steps m2} d b Q :
  (c = true -> safe m1 d b Q) -> (c = false -> safe m2 d b Q) -> safe (if c then m1 else m2) d b Q.
Proof. intros Hs1 Hs2. destruct c; [by apply Hs1 | by apply Hs2]. Qed.
Lemma safe_option {A B} (o : option B) (m1 : B -> M DB L A) (m2 : M DB L A) `{!forall x, Steps (m1 x)} `{!Steps m2} d b Q :
  (forall x, o = Some x -> safe (m1 x) d b Q) -> (o = None -> safe m2 d b Q) ->
  safe (match o with Some x => m1 x | None => m2 end) d b Q.
Proof. intros Hs1 Hs2. destruct o; [by apply Hs1 | by apply Hs2]. Qed.

(** What a statement finds: rows that evolved, but for those already written. *)
Definition finds (d : DB) (b : marks) (d1 : DB) : Prop :=
  evolved ev d d1 /\ (forall k, b !! k <> None -> row_at d1 k = row_at d k) /\ tidy d1 /\
  (forall k, b !! k = None -> com k (row_at d1 k)).
Lemma safe_stmt {A} (q : Time -> DB -> result goerr (DB * A)) d b (Q : A -> DB -> marks -> Prop) :
  (forall now d1 d2 a, finds d b d1 -> q now d1 = Ok (d2, a) ->
     evolved ev d1 d2 /\ tidy d2 /\ Q a d2 (writes b d1 d2)) ->
  safe (stmt q) d b Q.
Proof.
  intros Hq d1 busy now He Hl Ht Hcm. split; [by intros e a|]. intros d2 a Ha.
  destruct (Hq now d1 d2 a) as (? & ? & ?); [done | done|]. split_and!; [done | done | by intros a' [= <-] | by intros e a'].
Qed.
Lemma safe_exec {A} (q : DB -> result goerr (DB * A)) d b (Q : A -> DB -> marks -> Prop) :
  (forall d1 d2 a, finds d b d1 -> q d1 = Ok (d2, a) -> evolved ev d1 d2 /\ tidy d2 /\ Q a d2 (writes b d1 d2)) ->
  safe (exec q) d b Q.
Proof. intros Hq. apply safe_stmt. intros _. exact Hq. Qed.

(** A program that only has to make the rows evolve. *)
Definition sound {A} (m : M DB L A) `{!Steps m} : Prop := forall d b, tidy d -> safe m d b (fun _ _ _ => True).

Lemma safe_then {A B} (m : M DB L A) (k : A -> M DB L B) `{Hm : !Steps m} `{Hk : !forall a, Steps (k a)} d b R Q :
  tidy d -> safe m d b R ->
  (forall a d' b', evolved ev d d' -> tidy d' -> R a d' b' -> safe (k a) d' b' Q) -> safe (bind m k) d b Q.
Proof.
  intros Ht Hs Hk'. apply safe_bind. unfold safe in *. eapply keeps_mono; [|by apply keeps_evolved].
  intros r d' b' (Hr & He & Ht') a ->. by apply Hk'; [| |apply Hr].
Qed.
Lemma sound_then {A B} (m : M DB L A) (k : A -> M DB L B) `{Hm : !Steps m} `{Hk : !forall a, Steps (k a)} d b Q :
  tidy d -> sound m ->
  (forall a d' b', evolved ev d d' -> tidy d' -> safe (k a) d' b' Q) -> safe (bind m k) d b Q.
Proof. intros Ht Hs Hk'. eapply safe_then; [done | by apply Hs|]. intros a d' b' He Ht' _. by apply Hk'. Qed.

Lemma sound_ret {A} (a : A) : sound (ret a).
Proof. intros d b _. by apply safe_ret. Qed.
Lemma sound_fail {A} e : sound (@fail DB L A e).
Proof. intros d b _. apply safe_fail. Qed.
Lemma sound_lift {A} (r : result goerr A) : sound (lift r).
Proof. intros d b _. by apply safe_lift. Qed.
Lemma sound_uuid : sound newUUID.
Proof. intros d b _. by apply safe_uuid. Qed.
Lemma sound_now : sound timeNow.
Proof. intros d b _. by apply safe_now. Qed.
Lemma sound_get_loc : sound get_loc.
Proof. intros d b _. by apply safe_get_loc. Qed.
Lemma sound_put_loc l : sound (put_loc l).
Proof. intros d b _. by apply safe_put_loc. Qed.
Lemma sound_bind {A B} (m : M DB L A) (k : A -> M DB L B) `{Hm : !Steps m} `{Hk : !forall a, Steps (k a)} :
  sound m -> (forall a, sound (k a)) -> sound (bind m k).
Proof. intros Hs Hk' d b Ht. apply sound_then; [done | done|]. intros a d' b' _ Ht'. by apply Hk'. Qed.
Lemma sound_mapE {A} f (m : M DB L A) `{!Steps m} : sound m -> sound (mapE f m).
Proof. intros Hs d b Ht. by apply safe_mapE, Hs. Qed.
Lemma sound_if {A} (c : bool) (m1 m2 : M DB L A) `{!Steps m1} `{!Steps m2} :
  sound m1 -> sound m2 -> sound (if c then m1 else m2).
Proof. intros Hs1 Hs2 d b Ht. apply safe_if; intros _; [by apply Hs1 | by apply Hs2]. Qed.
Lemma sound_option {A B} (o : option B) (m1 : B -> M DB L A) (m2 : M DB L A) `{!forall x, Steps (m1 x)} `{!Steps m2} :
  (forall x, sound (m1 x)) -> sound m2 -> sound (match o with Some x => m1 x | None => m2 end).
Proof. intros Hs1 Hs2 d b Ht. apply safe_option; [intros x _; by apply Hs1 | intros _; by apply Hs2]. Qed.
Lemma sound_exec {A} (q : DB -> result goerr (DB * A)) :
  (forall d1 d2 a, tidy d1 -> q d1 = Ok (d2, a) -> evolved ev d1 d2 /\ tidy d2) -> sound (exec q).
Proof.
  intros Hq d b _. apply safe_exec. intros d1 d2 a (_ & _ & Ht & _) Ha. by destruct (Hq d1 d2 a Ht Ha).
Qed.
Lemma sound_for_each {A} (body : A -> M DB L unit) `{Hb : !forall x, Steps (body x)} l :
  (forall x, sound (body x)) -> sound (for_each body l).
Proof.
  intros Hs. induction l as [|x l IH]; intros d b Ht; [by apply (safe_ret tt)|].
  apply (sound_then (body x) (fun _ => for_each body l) (Hk := fun _ => Steps_for_each body l Hb)); [done | apply Hs|].
  intros a d' b' _ Ht'. by apply IH.
Qed.
End Rules.

(** ** What every statement of a program does to the rows *)

Section Every.
Context {DB L : Type} `{RowDB DB} `{Env} (R : relation DB).

Fixpoint every {A} (p : steps DB L A) : Prop :=
  match p with
  | Done _ => True
  | Aside f k => forall b, every (k b)
  | Snap k => forall d, every (k d)
  | Query q k => (forall busy now d d' b, q busy now d = Ok (d', b) -> R d d') /\ forall r, every (k r)
  end.
Lemma every_then {A B} (p : steps DB L A) (k : result goerr A -> steps DB L B) :
  every p -> (forall r, every (k r)) -> every (then_ p k).
Proof. intros Hp Hk. induction p; cbn in *; [done | auto | auto | destruct Hp; auto]. Qed.

Definition relates {A} (m : M DB L A) `{!Steps m} : Prop := every (steps_of m).
Lemma relates_lift {A} (r : result goerr A) : relates (lift r).
Proof. done. Qed.
Lemma relates_ret {A} (a : A) : relates (ret a).
Proof. done. Qed.
Lemma relates_fail {A} e : relates (@fail DB L A e).
Proof. done. Qed.
Lemma relates_uuid : relates newUUID.
Proof. done. Qed.
Lemma relates_now : relates timeNow.
Proof. done. Qed.
Lemma relates_get_loc : relates get_loc.
Proof. done. Qed.
Lemma relates_put_loc l : relates (put_loc l).
Proof. done. Qed.
Lemma relates_bind {A B} (m : M DB L A) (k : A -> M DB L B) `{Hm : !Steps m} `{Hk : !forall a, Steps (k a)} :
  relates m -> (forall a, relates (k a)) -> relates (bind m k).
Proof. intros Hs Hk'. apply every_then; [done|]. intros [a|e]; [apply Hk' | done]. Qed.
Lemma relates_mapE {A} f (m : M DB L A) `{!Steps m} : relates m -> relates (mapE f m).
Proof. intros Hs. apply every_then; [done|]. by intros []. Qed.
Lemma relates_try {A} (m : M DB L A) `{!Steps m} : relates m -> relates (try_ m).
Proof. intros Hs. by apply every_then. Qed.
Lemma relates_if {A} (c : bool) (m1 m2 : M DB L A) `{!Steps m1} `{!Steps m2} :
  relates m1 -> relates m2 -> relates (if c then m1 else m2).
Proof. intros Hs1 Hs2. by destruct c. Qed.
Lemma relates_option {A B} (o : option B) (m1 : B -> M DB L A) (m2 : M DB L A) `{!forall x, Steps (m1 x)} `{!Steps m2} :
  (forall x, relates (m1 x)) -> relates m2 -> relates (match o with Some x => m1 x | None => m2 end).
Proof. intros Hs1 Hs2. destruct o; [apply Hs1 | apply Hs2]. Qed.
Lemma relates_exec {A} (q : DB -> result goerr (DB * A)) :
  (forall d d' a, q d = Ok (d', a) -> R d d') -> relates (exec q).
Proof. intros Hq. split; [|by intros []]. intros _ _. exact Hq. Qed.
Lemma relates_stmt {A} (q : Time -> DB -> result goerr (DB * A)) :
  (forall now d d' a, q now d = Ok (d', a) -> R d d') -> relates (stmt q).
Proof. intros Hq. split; [|by intros []]. intros _. exact Hq. Qed.
Lemma relates_for_each {A} (body : A -> M DB L unit) `{Hb : !forall x, Steps (body x)} l :
  (forall x, relates (body x)) -> relates (for_each body l).
Proof.
  intros Hs. induction l as [|x l IH]; [done|]. apply every_then; [apply Hs|]. intros [a|e]; [apply IH | done].
Qed.
End Every.

Lemma every_mono {DB L : Type} `{RowDB DB} (R R' : relation DB) {A} (p : steps DB L A) :
  (forall d d', R d d' -> R' d d') -> every R p -> every R' p.
Proof. intros HR. induction p; cbn; [done | eauto | eauto | intros [? ?]; split; eauto]. Qed.
Lemma every_any {DB L : Type} `{RowDB DB} {A} (p : steps DB L A) : every (fun _ _ => True) p.
Proof. induction p; cbn; eauto. Qed.

(** Statements that make the rows evolve, whatever they find. *)
Lemma keeps_every {DB L : Type} `{RowDB DB} `{Env} (ev : Key DB -> relation (option (Row DB))) (tidy : DB -> Prop) com
  {A} (p : steps DB L A) d b :
  (forall d, tidy d) -> every (evolved ev) p -> keeps ev tidy com p d b (fun _ _ _ => True).
Proof.
  intros Ht. revert d b. induction p as [r|C f k IH|k IH|C q k IH]; intros d b Hp; cbn in *; [done | auto | auto|].
  destruct Hp as [Hq Hp]. intros d1 busy now _ _ _ _. split; [auto|]. intros d2 x Hx. split_and!; eauto.
Qed.

(** What every statement keeps of the rows written so far holds at the end. *)
Lemma keeps_invariant {DB L : Type} `{RowDB DB} `{Env} ev (tidy : DB -> Prop) com (R : relation DB)
    (I : gmap (Key DB) (option (Row DB)) -> Prop) {A} (p : steps DB L A) d b Q :
  every R p -> (forall b d1 d2, I b -> R d1 d2 -> I (writes b d1 d2)) -> I b -> keeps ev tidy com p d b Q ->
  keeps ev tidy com p d b (fun r d' b' => Q r d' b' /\ I b').
Proof.
  intros Hp HI. revert d b Hp. induction p as [r|C f k IH|k IH|C q k IH]; intros d b Hp Hb; cbn; [done| | |].
  - intros Hk l t. by apply IH.
  - intros Hk d1 He Hl Ht Hcm. by apply IH; [| |apply Hk].
  - destruct Hp as [Hq Hp]. intros Hk d1 busy now He Hl Ht Hcm. destruct (Hk d1 busy now He Hl Ht Hcm) as [Hf Hs].
    split; [intros e; by apply IH|]. intros d2 x Hx. destruct (Hs d2 x Hx) as (? & ? & ? & ?).
    assert (I (writes b d1 d2)) by eauto. split_and!; auto.
Qed.

(** ** One transaction at a time *)

(** Without overlap the server does what [in_tx] says. *)
Section Serial.
Context {DB L : Type} `{RowDB DB} `{Env} {J : Type} (answer : J -> Type) (on_error : goerr -> goerr)
  (body : forall j, steps DB L (outcome (answer j))).
Context (tidy : DB -> Prop) `{!RowLaws DB tidy} (G : relation DB) `{!PreOrder G}
  (overlay_own : forall l c d, tidy c -> G c d -> (forall k, k ∉ l -> row_at d k = row_at c k) -> overlay l d c = d)
  (body_own : forall j, every G (body j)).
Notation tx_run := (run (Waits answer) (tx_step answer on_error body)).

(** The rows written hold every row that differs from the committed one. *)
Definition own (c view : DB) (before : gmap (Key DB) (option (Row DB))) : Prop :=
  G c view /\ forall k, before !! k = None -> row_at view k = row_at c k.
Lemma own_overlay c view before : tidy c -> own c view before -> overlay (locks before) view c = view.
Proof. intros Hc [Hg Hk]. apply overlay_own; [done | done|]. intros k Hn. by apply Hk, not_in_locks. Qed.
Lemma own_writes c view before d : own c view before -> G view d -> own c d (writes before view d).
Proof.
  intros [Hg Hk] Hd. split; [by etransitivity|]. intros k. rewrite (writes_lookup tidy).
  destruct (before !! k) eqn:Hb; [done|]. destruct (decide _) as [He|]; [|done]. intros _. rewrite <- He. auto.
Qed.

Lemma statements_alone j c i (p : steps DB L (outcome (answer j))) : tidy c ->
  forall view before l t ts s' r, every G p -> own c view before -> ts !! i = Some (Active answer j p view before) ->
  alone p (mkSt view l t) = (s', r) ->
  exists ls before', own c (db s') before' /\
    tx_run ls (mkSys (mkServer c (locks before) t) ts) =
    Some (mkSys (mkServer c (locks before') (tick s')) (<[i := Active answer j (Done r) (db s') before']> ts)).
Proof.
  intros Hc. induction p as [r0|C f k IH|k IH|C q k IH]; intros view before l t ts s' r Hp Ho Hi; cbn [alone].
  - intros [= <- <-]. exists [], before. split; [done|]. cbn. by rewrite list_insert_id.
  - cbn [loc tick db]. destruct (f l t) as [[l' t'] b] eqn:Hf. intros Ha.
    destruct (IH b view before l' t' (<[i := Active answer j (k b) view before]> ts) s' r) as (ls & before' & Ho' & Hrun);
      [apply Hp | done | by eapply list_lookup_insert_eq, lookup_lt_Some | done|].
    exists (Run i l :: ls), before'. split; [done|]. cbn. rewrite Hi. cbn. rewrite Hf. cbn.
    by rewrite Hrun, list_insert_insert_eq.
  - cbn [db]. intros Ha.
    destruct (IH view view before l t (<[i := Active answer j (k view) view before]> ts) s' r) as (ls & before' & Ho' & Hrun);
      [apply Hp | done | by eapply list_lookup_insert_eq, lookup_lt_Some | done|].
    exists (Run i l :: ls), before'. split; [done|]. cbn. rewrite Hi. cbn. rewrite (own_overlay _ _ _ Hc Ho).
    by rewrite Hrun, list_insert_insert_eq.
  - destruct Hp as [Hq Hk]. destruct (stmt (q ∅) (mkSt view l t)) as [s1 r1] eqn:Hs. intros Ha.
    assert (exists before1, own c (db s1) before1 /\ loc s1 = l /\
      tx_step answer on_error body l (Active answer j (Query q k) view before) (mkServer c (locks before) t) =
      Some (mkServer c (locks before1) (tick s1), Active answer j (k r1) (db s1) before1)) as (before1 & Ho1 & Hl1 & Hstep).
    { cbn [tx_step committed locked events]. rewrite (own_overlay _ _ _ Hc Ho), difference_diag_L.
      unfold stmt in Hs. cbn [tick db] in Hs.
      destruct (trip_at t), (q ∅ (db_now_at t) view) as [[d b]|e'] eqn:Hqd; injection Hs as <- <-;
        try (exists before; split; [done | by split]);
        rewrite decide_True by set_solver; exists (writes before view d); rewrite (writes_locks tidy);
        (split; [by eapply own_writes, Hq | by split]). }
    destruct s1 as [d1 l1 t1]. cbn in Hl1. subst l1. cbn [db tick] in *.
    destruct (IH r1 d1 before1 l t1 (<[i := Active answer j (k r1) d1 before1]> ts) s' r) as (ls & before' & Ho' & Hrun);
      [apply Hk | done | by eapply list_lookup_insert_eq, lookup_lt_Some | done|].
    exists (Run i l :: ls), before'. split; [done|]. cbn [run sys_step threads shared]. rewrite Hi. cbn [mbind option_bind].
    rewrite Hstep. cbn. by rewrite Hrun, list_insert_insert_eq.
Qed.

Lemma last_step l p v v' q ts : tx_step answer on_error body l p v = Some (v', q) ->
  tx_run [Run (length ts) l] (mkSys v (ts ++ [p])%list) = Some (mkSys v' (ts ++ [q])%list).
Proof.
  intros Hs. cbn. rewrite list_lookup_middle by done. cbn. rewrite Hs. cbn.
  rewrite insert_app_r_alt by lia. by rewrite Nat.sub_diag.
Qed.
Lemma then_run ls ls' s s1 s2 : tx_run ls s = Some s1 -> tx_run ls' s1 = Some s2 -> tx_run (ls ++ ls')%list s = Some s2.
Proof. intros Hr Hr'. by rewrite run_app, Hr. Qed.

(** A transaction on its own is [in_tx]. *)
Lemma transaction_alone j s s' r ts : tidy (db s) -> in_tx on_error (alone (body j)) s = (s', r) ->
  exists ls commits, tx_run ls (mkSys (mkServer (db s) ∅ (tick s)) ts) =
    Some (mkSys (mkServer (db s') ∅ (tick s')) (ts ++ [Ended answer j commits r])%list).
Proof.
  destruct s as [c l t]. cbn [db tick]. intros Hc Htx.
  cut (exists ls commits, tx_run ls (mkSys (mkServer c ∅ t) (ts ++ [Waits answer j])%list) =
    Some (mkSys (mkServer (db s') ∅ (tick s')) (ts ++ [Ended answer j commits r])%list)).
  { intros (ls & cm & Hls). by exists (Spawn j :: ls), cm. }
  unfold in_tx in Htx. cbn [tick db] in Htx. destruct (trip_at t) eqn:Ht.
  2-3: injection Htx as <- <-; exists [Run (length ts) l], false; apply last_step; cbn; by rewrite Ht.
  unfold advance in Htx. cbn [db loc tick] in Htx.
  destruct (alone (body j) (mkSt c l (S t))) as [[d l1 t1] r1] eqn:Ha.
  destruct (statements_alone j c (length ts) (body j) Hc c ∅ l (S t) (ts ++ [Active answer j (body j) c ∅])%list
    (mkSt d l1 t1) r1) as (ls & before & Ho & Hrun);
    [apply body_own | by split | by apply list_lookup_middle | done|]. cbn [db tick] in *. rewrite insert_app_r_alt, Nat.sub_diag in Hrun by lia. cbn [insert list_insert] in Hrun.
  exists (([Run (length ts) l] ++ ls) ++ [Run (length ts) l])%list.
  assert (tx_run ([Run (length ts) l] ++ ls)%list (mkSys (mkServer c ∅ t) (ts ++ [Waits answer j])%list) =
    Some (mkSys (mkServer c (locks before) t1) (ts ++ [Active answer j (Done r1) d before])%list)) as Hgo.
  { eapply then_run; [apply last_step; cbn; by rewrite Ht|]. cbn [happened committed locked events].
    unfold locks in Hrun. by rewrite dom_empty_L in Hrun. }
  pose proof (own_overlay _ _ _ Hc Ho) as Hov.
  destruct r1 as [[a|a]|e]; [destruct (trip_at t1) eqn:Ht1|..]; injection Htx as <- <-;
    [exists true | exists false | exists true | exists false..]; (eapply then_run; [exact Hgo|]); apply last_step;
    cbn [tx_step]; unfold release; cbn [committed locked events db tick]; rewrite ?Ht1, ?Hov, difference_diag_L.
  all: done.
Qed.
End Serial.

(** ** Rows a program does not write *)

Section Spares.
Context {DB L : Type} `{RowDB DB} `{Env} (K : Key DB -> Prop).

Definition untouched (d d' : DB) : Prop := forall o, K o -> row_at d' o = row_at d o.
(** Such rows are as they were, and not locked unless they were. *)
Lemma keeps_spares ev tidy com `{!RowLaws DB tidy} {A} (p : steps DB L A) d b Q :
  every untouched p -> keeps ev tidy com p d b Q ->
  keeps ev tidy com p d b (fun r d' b' => Q r d' b' /\ forall k, K k ->
    b' !! k = b !! k /\ (b !! k <> None -> row_at d' k = row_at d k)).
Proof.
  revert d b. induction p as [r|C f k IH|k IH|C q k IH]; intros d b; cbn; [done| | |].
  { intros Hp Hk l t. by apply IH. }
  { intros Hp Hk d1 He Hl Ht Hcm. eapply keeps_mono; [|apply IH; [apply Hp | by apply Hk]].
    intros r d' b' [HQ Hfr]. split; [done|]. intros o Ho. destruct (Hfr o Ho) as [? Hr]. split; [done|].
    intros Hn. by rewrite Hr, Hl. }
  intros [Hq Hp] Hk d1 busy now He Hl Ht Hcm. destruct (Hk d1 busy now He Hl Ht Hcm) as [Hf Hs].
  assert (forall r d2, (forall o, K o -> row_at d2 o = row_at d1 o) -> forall b2,
    (forall o, K o -> b2 !! o = b !! o) -> keeps ev tidy com (k r) d2 b2 Q ->
    keeps ev tidy com (k r) d2 b2 (fun r d' b' => Q r d' b' /\ forall o, K o ->
      b' !! o = b !! o /\ (b !! o <> None -> row_at d' o = row_at d o))) as Hgo.
  { intros r d2 Hd b2 Hb Hk2. eapply keeps_mono; [|by apply IH]. intros r' d' b' [HQ Hfr]. split; [done|].
    intros o Ho. destruct (Hfr o Ho) as [Hb' Hr']. rewrite Hb', (Hb o Ho). split; [done|]. intros Hn.
    rewrite Hr', (Hd o Ho) by (by rewrite (Hb o Ho)). by apply Hl. }
  split; [intros e; by apply Hgo|]. intros d2 x Hx. destruct (Hs d2 x Hx) as (? & ? & ? & ?).
  assert (untouched d1 d2) as Hd by (by eapply Hq).
  assert (forall o, K o -> writes b d1 d2 !! o = b !! o) as Hb.
  { intros o Ho. rewrite (writes_lookup tidy). destruct (b !! o); [done|]. by rewrite decide_True by (by rewrite Hd). }
  split_and!; auto.
Qed.

Lemma safe_spared ev tidy com `{!RowLaws DB tidy} {A} (m : M DB L A) `{!Steps m} d b (Q : A -> DB -> _ -> Prop) :
  relates untouched m -> safe ev tidy com m d b Q ->
  safe ev tidy com m d b (fun a d' b' => Q a d' b' /\ forall k, K k -> b' !! k = b !! k).
Proof.
  intros Hm Hs. unfold safe in *. eapply keeps_mono; [|by apply keeps_spares]. intros r d' b' [HQ Hk] a Ha.
  split; [by apply HQ|]. intros k Hkk. by apply Hk.
Qed.
End Spares.

(** Steps of a program that looks into a value. *)
#[export] Hint Extern 9 (Steps (match ?x with _ => _ end)) => destruct x : typeclass_instances.
