(* ===== verification/GoSmtp.v ===== *)
(** * net/smtp

    The SMTP client of the standard library as the mailer uses it: the greeting,
    EHLO with its fallback, STARTTLS, PLAIN authentication, the envelope, the
    message through the dot writer of net/textproto, and QUIT.  A conversation
    is a program of the monad of [Tx] without rows; what the process keeps is
    the connection, with everything that was written on it and the codes that
    came back.  The class [SmtpPeer] says what the network and the relay did. *)
From Stdlib Require Import ZArith Lia Ascii String.
From stdpp Require Import base gmap strings list pretty.
From S2P Require Import Prelude GoStrings GoErrors GoBase64 GoURL GoHttp Tx.

Open Scope string_scope.
Open Scope Z_scope.
Open Scope go_scope.

(** ** The dot writer of net/textproto *)

Inductive wstate := wstateBegin | wstateBeginLine | wstateCR | wstateData.

Definition CR : ascii := "013".
Definition LF : ascii := "010".
Definition CRLF : string := String CR (String LF "").

(** [dotWriter.Write], one byte: a dot that begins a line is doubled, and a bare
    line feed gets its carriage return. *)
Definition dot_byte (st : wstate) (c : ascii) : list ascii * wstate :=
  let data (before : list ascii) :=
    if (c =? CR)%char then (before ++ [c], wstateCR)%list
    else if (c =? LF)%char then (before ++ [CR; c], wstateBeginLine)%list
    else (before ++ [c], wstateData)%list in
  match st with
  | wstateBegin | wstateBeginLine => data (if (c =? ".")%char then [c] else [])
  | wstateData => data []
  | wstateCR => ([c], if (c =? LF)%char then wstateBeginLine else wstateData)
  end.
Fixpoint dot_bytes (st : wstate) (l : list ascii) : list ascii :=
  match l with
  (* [dotWriter.Close] *)
  | [] => match st with
          | wstateCR => [LF; "."%char; CR; LF]
          | wstateBeginLine => ["."%char; CR; LF]
          | _ => [CR; LF; "."%char; CR; LF]
          end
  | c :: r => let '(out, st') := dot_byte st c in (out ++ dot_bytes st' r)%list
  end.
Definition dot_encode (body : string) : string := of_bytes (dot_bytes wstateBegin (bytes body)).

(** [base64.StdEncoding.DecodeString]: padded groups of four characters, line
    breaks skipped. *)
Definition std_value (c : ascii) : option Z :=
  if (c =? "+")%char then Some 62 else if (c =? "/")%char then Some 63
  else if one_of "-_" c then None else url_value c.
Fixpoint std_groups (l : list ascii) : option (list ascii) :=
  match l with
  | [] => Some []
  | [a; b; "="%char; "="%char] => vs ← mapM std_value [a; b]; unsextets vs
  | [a; b; c; "="%char] => vs ← mapM std_value [a; b; c]; unsextets vs
  | a :: b :: c :: d :: r =>
      vs ← mapM std_value [a; b; c; d];
      first ← unsextets vs;
      rest ← std_groups r;
      Some (first ++ rest)%list
  | _ => None
  end.
Definition StdDecode (s : string) : option string :=
  of_bytes <$> std_groups (List.filter not_break (bytes s)).
Example std_decode_example : StdDecode "YW55IGNhcm5hbA==" = Some "any carnal" /\ StdDecode "YW5" = None.
Proof. split; vm_compute; reflexivity. Qed.

(** ** The connection *)

Inductive wire :=
| Line (tls : bool) (text : string)    (** a command *)
| Data (tls : bool) (text : string)    (** a message, as the dot writer wrote it *)
| Broken (tls : bool)                  (** a message cut off by a failed write *)
| Code (code : Z).                     (** a reply *)

Record Client := mkClient {
  c_serverName : string;
  c_tls : bool;
  c_ext : option (gmap string string);
  c_auth : list string;
  c_didHello : bool;
  c_helloError : option goerr;
  c_log : list wire
}.

Class SmtpPeer := {
  smtp_dial : nat -> string -> result goerr unit;
  smtp_write : nat -> result goerr unit;
  smtp_reply : nat -> result goerr (Z * string);
  smtp_close : nat -> result goerr unit
}.

Definition local_hosts : list string := ["localhost"; "127.0.0.1"; "::1"].
Definition isLocalhost (name : string) : bool := existsb (String.eqb name) local_hosts.

(** [textproto.Error]: the code and the text of a reply. *)
Definition reply_error (code : Z) (msg : string) : goerr := NewErr (Itoa code +:+ " " +:+ msg).
(** The codes a caller of [ReadResponse] accepts: a code, its first digits, or
    any. *)
Definition expected (expect code : Z) : bool :=
  if expect <? 1 then true
  else if expect <? 10 then code / 100 =? expect
  else if expect <? 100 then code / 10 =? expect
  else code =? expect.

Definition validateLine (line : string) : result goerr unit :=
  if ContainsAnyCRLF line then Err (NewErr "smtp: A line must not contain CR or LF") else Ok tt.

Section Smtp.
Context `{SmtpPeer}.
Local Notation Prog := (M unit Client).

Definition modify (f : Client -> Client) : Prog unit := let! c := get_loc in put_loc (f c).
Definition logged (w : bool -> wire) (c : Client) : Client :=
  mkClient (c_serverName c) (c_tls c) (c_ext c) (c_auth c) (c_didHello c) (c_helloError c)
    (c_log c ++ [w (c_tls c)]).
Definition note (w : bool -> wire) : Prog unit := modify (logged w).
Definition event {A} (f : nat -> result goerr A) : Prog A := fun s => (advance s, f (tick s)).

Definition ReadResponse (expect : Z) : Prog (Z * string) :=
  let! answer := event smtp_reply in
  let! _ := note (fun _ => Code (fst answer)) in
  if expected expect (fst answer) then ret answer else fail (reply_error (fst answer) (snd answer)).
Definition cmd (expect : Z) (text : string) : Prog (Z * string) :=
  let! _ := note (fun tls => Line tls text) in
  let! _ := event smtp_write in
  ReadResponse expect.

(** [NewClient]: the greeting. *)
Definition newClient (host : string) : Client := mkClient host false None [] false None [].
Definition NewClient : Prog unit := let! _ := ReadResponse 220 in ret tt.

Definition set_ext (ext : option (gmap string string)) (auth : list string) (c : Client) : Client :=
  mkClient (c_serverName c) (c_tls c) ext auth (c_didHello c) (c_helloError c) (c_log c).
Definition set_tls (c : Client) : Client :=
  mkClient (c_serverName c) true (c_ext c) (c_auth c) (c_didHello c) (c_helloError c) (c_log c).
Definition set_hello (did : bool) (e : option goerr) (c : Client) : Client :=
  mkClient (c_serverName c) (c_tls c) (c_ext c) (c_auth c) did e (c_log c).

Definition helo : Prog unit :=
  let! _ := modify (fun c => set_ext None (c_auth c) c) in
  let! _ := cmd 250 "HELO localhost" in ret tt.
(** The extensions named in the lines of a reply after the first. *)
Definition ext_lines (msg : string) : gmap string string :=
  foldl (fun m line => let '(k, v) := Cut line " " in <[k := default "" v]> m) ∅ (tail (Split msg LF)).
Definition ehlo : Prog unit :=
  let! answer := cmd 250 "EHLO localhost" in
  let ext := ext_lines (snd answer) in
  modify (fun c => set_ext (Some ext) (match ext !! "AUTH" with Some m => Split m " " | None => c_auth c end) c).
Definition hello : Prog unit :=
  let! c := get_loc in
  if c_didHello c then lift (match c_helloError c with Some e => Err e | None => Ok tt end)
  else
    let! _ := modify (set_hello true (c_helloError c)) in
    let! r := try_ ehlo in
    match r with
    | Ok _ => lift (match c_helloError c with Some e => Err e | None => Ok tt end)
    | Err _ =>
        let! r := try_ helo in
        let! _ := modify (set_hello true (match r with Err e => Some e | Ok _ => None end)) in
        lift r
    end.

Definition Extension (name : string) : Prog bool :=
  let! r := try_ hello in
  let! c := get_loc in
  ret (match r, c_ext c with
       | Ok _, Some ext => bool_decide (is_Some (ext !! name))
       | _, _ => false
       end).
Definition StartTLS : Prog unit :=
  let! _ := hello in
  let! _ := cmd 220 "STARTTLS" in
  let! _ := modify set_tls in
  ehlo.
Definition Quit : Prog unit :=
  let! _ := hello in
  let! _ := cmd 221 "QUIT" in
  event smtp_close.

(** [plainAuth.Start] *)
Definition plain_start (c : Client) (host : string) : result goerr unit :=
  if negb (c_tls c) && negb (isLocalhost (c_serverName c)) then Err (NewErr "unencrypted connection")
  else if negb (c_serverName c =? host)%string then Err (NewErr "wrong host name")
  else Ok tt.
Definition credentials (username password : string) : string :=
  String "000" (username +:+ String "000" password).
Definition auth_line (username password : string) : string :=
  "AUTH PLAIN " +:+ StdEncode (credentials username password).

(** [Client.Auth] with [plainAuth], whose answer to a challenge is an error and
    whose answer to an acceptance is nothing, so that there is one exchange. *)
Definition abort_auth (e : goerr) : Prog unit :=
  let! _ := try_ (cmd 501 "*") in
  let! _ := try_ Quit in
  fail e.
Definition Auth (username password host : string) : Prog unit :=
  let! _ := hello in
  let! c := get_loc in
  match plain_start c host with
  | Err e => let! _ := try_ Quit in fail e
  | Ok _ =>
      let! answer := cmd 0 (auth_line username password) in
      if fst answer =? 334 then
        abort_auth (match StdDecode (snd answer) with
                    | Some _ => NewErr "unexpected server challenge"
                    | None => NewErr "illegal base64 data"
                    end)
      else if fst answer =? 235 then ret tt
      else abort_auth (reply_error (fst answer) (snd answer))
  end.

Definition has_ext (c : Client) (name : string) : bool :=
  match c_ext c with Some ext => bool_decide (is_Some (ext !! name)) | None => false end.
Definition Mail_ (from : string) : Prog unit :=
  let! _ := lift (validateLine from) in
  let! _ := hello in
  let! c := get_loc in
  let! _ := cmd 250 ("MAIL FROM:<" +:+ from +:+ ">" +:+ (if has_ext c "8BITMIME" then " BODY=8BITMIME" else "")
                     +:+ (if has_ext c "SMTPUTF8" then " SMTPUTF8" else "")) in
  ret tt.
Definition Rcpt (to_ : string) : Prog unit :=
  let! _ := lift (validateLine to_) in
  let! _ := cmd 25 ("RCPT TO:<" +:+ to_ +:+ ">") in
  ret tt.
Definition Data_ : Prog unit := let! _ := cmd 354 "DATA" in ret tt.
(** Writing the message into the dot writer and closing it.  After a failed
    write nothing more reaches the connection. *)
Definition write_message (body : string) : Prog unit :=
  let! r := try_ (event smtp_write) in
  match r with
  | Ok _ => note (fun tls => Data tls (dot_encode body))
  | Err e => let! _ := note Broken in fail e
  end.
Definition close_message : Prog unit := let! _ := ReadResponse 250 in ret tt.
End Smtp.

(** ** What a server reads from the dot writer *)

(** The receiving side: up to the line with a single dot, a dot that begins a
    line dropped; with what follows the message. *)
Inductive rstate := AtStart | AfterCR | Within.
Definition read_next (st : rstate) (c : ascii) : rstate :=
  if (c =? CR)%char then AfterCR
  else match st with AfterCR => if (c =? LF)%char then AtStart else Within | _ => Within end.
Fixpoint dot_read (st : rstate) (l : list ascii) : option (list ascii * list ascii) :=
  match l with
  | [] => None
  | c :: r =>
      match st, (c =? ".")%char with
      | AtStart, true =>
          match r with
          | "013"%char :: "010"%char :: k => Some ([], k)
          | _ => dot_read Within r
          end
      | _, _ => match dot_read (read_next st c) r with Some (text, k) => Some (c :: text, k) | None => None end
      end
  end.

(** The text with its line ends written out: what is to arrive. *)
Fixpoint crlf_bytes (st : wstate) (l : list ascii) : list ascii :=
  match l with
  | [] => match st with wstateCR => [LF] | wstateBeginLine => [] | _ => [CR; LF] end
  | c :: r =>
      match st with
      | wstateCR => c :: crlf_bytes (if (c =? LF)%char then wstateBeginLine else wstateData) r
      | _ => if (c =? CR)%char then c :: crlf_bytes wstateCR r
             else if (c =? LF)%char then CR :: c :: crlf_bytes wstateBeginLine r
             else c :: crlf_bytes wstateData r
      end
  end.

Definition in_step (w : wstate) (r : rstate) : Prop :=
  match w, r with
  | (wstateBegin | wstateBeginLine), AtStart | wstateCR, AfterCR | wstateData, (Within | AfterCR) => True
  | _, _ => False
  end.

(** The server finds the end of the message where the writer put it, whatever
    the text, and reads that text. *)
Lemma dot_read_bytes l w r k : in_step w r ->
  dot_read r (dot_bytes w l ++ k) = Some (crlf_bytes w l, k).
Proof.
  revert w r. induction l as [|c l IH]; intros w r Hr.
  - by destruct w, r.
  - cbn [dot_bytes crlf_bytes]. unfold dot_byte.
    destruct (Ascii.eqb_spec c CR) as [->|Hcr]; [|destruct (Ascii.eqb_spec c LF) as [->|Hlf];
      [|destruct (Ascii.eqb_spec c ".") as [->|Hdot]]].
    + destruct w, r; try done; cbn; by rewrite IH.
    + destruct w, r; try done; cbn; by rewrite IH.
    + destruct w, r; try done; cbn; by rewrite IH.
    + apply Ascii.eqb_neq in Hcr, Hlf, Hdot.
      destruct w, r; try done; cbn -[CR LF]; rewrite ?Hcr, ?Hlf, ?Hdot; cbn -[CR LF];
        rewrite ?Hcr, ?Hlf, ?Hdot; unfold read_next; rewrite ?Hcr, ?Hlf; cbn -[CR LF]; by rewrite IH.
Qed.
Lemma dot_round_trip body rest :
  dot_read AtStart (bytes (dot_encode body) ++ rest) = Some (crlf_bytes wstateBegin (bytes body), rest).
Proof. unfold dot_encode. rewrite bytes_of_bytes. by apply dot_read_bytes. Qed.

(** ** Conversations *)

Section Conversations.
Context `{SmtpPeer}.
Local Notation Prog := (M unit Client).

(** What is kept by every step, however it ends. *)
Definition keeps (P : Client -> Prop) {A} (m : Prog A) : Prop := forall s, P (loc s) -> P (loc (fst (m s))).

Lemma client_keeps_ret P {A} (a : A) : keeps P (ret a).
Proof. by intros s. Qed.
Lemma keeps_lift P {A} (r : result goerr A) : keeps P (lift r).
Proof. by intros s. Qed.
Lemma keeps_fail P {A} e : keeps P (fail (A := A) e).
Proof. by intros s. Qed.
Lemma keeps_event P {A} (f : nat -> result goerr A) : keeps P (event f).
Proof. by intros s. Qed.
Lemma client_keeps_bind P {A B} (m : Prog A) (k : A -> Prog B) : keeps P m -> (forall a, keeps P (k a)) -> keeps P (bind m k).
Proof.
  intros Hm Hk s Hs. unfold bind. specialize (Hm s Hs). destruct (m s) as [s1 [a|e]]; [by apply Hk | done].
Qed.
Lemma bind_assoc {A B C} (m : Prog A) (k : A -> Prog B) (h : B -> Prog C) s :
  bind (bind m k) h s = bind m (fun a => bind (k a) h) s.
Proof. unfold bind. by destruct (m s) as [s1 [a|e]]. Qed.
Lemma bind_note {A} w (k : unit -> Prog A) s : bind (note w) k s = k tt (fst (note w s)).
Proof. done. Qed.
Lemma keeps_try P {A} (m : Prog A) : keeps P m -> keeps P (try_ m).
Proof. intros Hm s Hs. specialize (Hm s Hs). unfold try_. by destruct (m s). Qed.
Lemma keeps_mapE P f {A} (m : Prog A) : keeps P m -> keeps P (mapE f m).
Proof. intros Hm s Hs. specialize (Hm s Hs). unfold mapE. by destruct (m s) as [s1 [a|e]]. Qed.
Lemma keeps_modify P f : (forall c, P c -> P (f c)) -> keeps P (modify f).
Proof. intros Hf s Hs. by apply Hf. Qed.
Lemma keeps_get P {A} (k : Client -> Prog A) :
  (forall s, P (loc s) -> P (loc (fst (k (loc s) s)))) -> keeps P (bind get_loc k).
Proof. intros Hk s Hs. by apply Hk. Qed.

(** Properties of a connection that no command of the client's own and no reply
    can break; [ok] says which commands may be written. *)
Class Stable (P : Client -> Prop) (ok : string -> Prop) := {
  stable_line : forall c t, ok t -> P c -> P (logged (fun tls => Line tls t) c);
  stable_code : forall c n, P c -> P (logged (fun _ => Code n) c);
  stable_ext : forall c e a, P c -> P (set_ext e a c);
  stable_tls : forall c, P c -> P (set_tls c);
  stable_hello : forall c e, P c -> P (set_hello true e c)
}.

Section Steps.
Context (P : Client -> Prop) (ok : string -> Prop) `{!Stable P ok}.

Lemma keeps_ReadResponse n : keeps P (ReadResponse n).
Proof.
  apply client_keeps_bind; [apply keeps_event|]. intros a. apply client_keeps_bind; [apply keeps_modify; intros; by apply stable_code|].
  intros _. destruct (expected n (fst a)); [apply client_keeps_ret | apply keeps_fail].
Qed.
Lemma keeps_cmd n t : ok t -> keeps P (cmd n t).
Proof.
  intros Ht. apply client_keeps_bind; [apply keeps_modify; intros; by apply stable_line|]. intros _.
  apply client_keeps_bind; [apply keeps_event | intros _; apply keeps_ReadResponse].
Qed.
Lemma keeps_helo : ok "HELO localhost" -> keeps P helo.
Proof.
  intros Ht. apply client_keeps_bind; [apply keeps_modify; intros; by apply stable_ext|]. intros _.
  apply client_keeps_bind; [by apply keeps_cmd | intros; apply client_keeps_ret].
Qed.
Lemma keeps_ehlo : ok "EHLO localhost" -> keeps P ehlo.
Proof.
  intros Ht. apply client_keeps_bind; [by apply keeps_cmd|]. intros a. apply keeps_modify. intros; by apply stable_ext.
Qed.

Hypotheses (ok_helo : ok "HELO localhost") (ok_ehlo : ok "EHLO localhost").
Lemma keeps_hello : keeps P hello.
Proof.
  apply keeps_get. intros s Hs. destruct (c_didHello (loc s)); [done|].
  apply (client_keeps_bind P _ _ (keeps_modify P _ (fun c => stable_hello c (c_helloError (loc s))))); [|done]. intros _.
  apply client_keeps_bind; [by apply keeps_try, keeps_ehlo|]. intros [|]; [apply keeps_lift|].
  apply client_keeps_bind; [by apply keeps_try, keeps_helo|]. intros r.
  apply client_keeps_bind; [apply keeps_modify; intros; by apply stable_hello | intros; apply keeps_lift].
Qed.
Lemma keeps_Extension name : keeps P (Extension name).
Proof. apply client_keeps_bind; [apply keeps_try, keeps_hello|]. intros a. by apply keeps_get. Qed.
Lemma keeps_StartTLS : ok "STARTTLS" -> keeps P StartTLS.
Proof.
  intros Ht. apply client_keeps_bind; [apply keeps_hello|]. intros _. apply client_keeps_bind; [by apply keeps_cmd|]. intros _.
  apply client_keeps_bind; [apply keeps_modify; intros; by apply stable_tls | intros _; by apply keeps_ehlo].
Qed.
Lemma keeps_Quit : ok "QUIT" -> keeps P Quit.
Proof.
  intros Ht. apply client_keeps_bind; [apply keeps_hello|]. intros _. apply client_keeps_bind; [by apply keeps_cmd|].
  intros _. apply keeps_event.
Qed.
Lemma keeps_abort e : ok "*" -> ok "QUIT" -> keeps P (abort_auth e).
Proof.
  intros Ha Hq. apply client_keeps_bind; [by apply keeps_try, keeps_cmd|]. intros _.
  apply client_keeps_bind; [by apply keeps_try, keeps_Quit | intros; apply keeps_fail].
Qed.
(** The credentials are written only on a connection that protects them, to the
    host they are for. *)
Lemma keeps_Auth username password host : ok "*" -> ok "QUIT" ->
  (forall c, P c -> c_tls c = true \/ isLocalhost (c_serverName c) = true -> c_serverName c = host ->
     P (logged (fun tls => Line tls (auth_line username password)) c)) ->
  keeps P (Auth username password host).
Proof.
  intros Ha Hq Hl. apply client_keeps_bind; [apply keeps_hello|]. intros _. apply keeps_get. intros s Hs.
  unfold plain_start. destruct (negb (c_tls (loc s)) && negb (isLocalhost (c_serverName (loc s)))) eqn:Hp.
  { apply (client_keeps_bind P (try_ Quit)); [by apply keeps_try, keeps_Quit | intros; apply keeps_fail | done]. }
  destruct (c_serverName (loc s) =? host)%string eqn:Hh; cbn [negb].
  2:{ apply (client_keeps_bind P (try_ Quit)); [by apply keeps_try, keeps_Quit | intros; apply keeps_fail | done]. }
  assert (keeps P (let! _ := event smtp_write in
    let! answer := ReadResponse 0 in
    if fst answer =? 334 then
      abort_auth (match StdDecode (snd answer) with
                  | Some _ => NewErr "unexpected server challenge" | None => NewErr "illegal base64 data" end)
    else if fst answer =? 235 then ret tt else abort_auth (reply_error (fst answer) (snd answer)))) as Hk.
  { apply client_keeps_bind; [apply keeps_event|]. intros _. apply client_keeps_bind; [apply keeps_ReadResponse|]. intros a.
    destruct (_ =? 334); [by apply keeps_abort|]. destruct (_ =? 235); [apply client_keeps_ret | by apply keeps_abort]. }
  rewrite andb_false_iff, !negb_false_iff in Hp. apply String.eqb_eq in Hh.
  assert (P (loc (fst (note (fun tls => Line tls (auth_line username password)) s)))) as Hw by (by apply Hl).
  specialize (Hk _ Hw). unfold cmd. rewrite bind_assoc, bind_note, bind_assoc. exact Hk.
Qed.
Lemma keeps_Mail from : (forall suffix, ok ("MAIL FROM:<" +:+ from +:+ ">" +:+ suffix)) -> keeps P (Mail_ from).
Proof.
  intros Ht. apply client_keeps_bind; [apply keeps_lift|]. intros _. apply client_keeps_bind; [apply keeps_hello|]. intros _.
  apply keeps_get. intros s. apply client_keeps_bind; [by apply keeps_cmd | intros; apply client_keeps_ret].
Qed.
End Steps.
Lemma keeps_Rcpt P ok `{!Stable P ok} to_ : ok ("RCPT TO:<" +:+ to_ +:+ ">") -> keeps P (Rcpt to_).
Proof.
  intros Ht. apply client_keeps_bind; [apply keeps_lift|]. intros _.
  apply client_keeps_bind; [by eapply keeps_cmd | intros; apply client_keeps_ret].
Qed.
Lemma keeps_Data P ok `{!Stable P ok} : ok "DATA" -> keeps P Data_.
Proof. intros Ht. apply client_keeps_bind; [by eapply keeps_cmd | intros; apply client_keeps_ret]. Qed.
End Conversations.

(** ** Steps that succeed *)

Section Successes.
Context `{SmtpPeer}.
Local Notation Prog := (M unit Client).

Lemma bind_ends {A B} (m : Prog A) (k : A -> Prog B) s s' r : bind m k s = (s', r) ->
  (exists e, m s = (s', Err e) /\ r = Err e) \/ exists s1 a, m s = (s1, Ok a) /\ k a s1 = (s', r).
Proof. unfold bind. destruct (m s) as [s1 [a|e]]; [by eauto|]. intros [= <- <-]. eauto. Qed.
Lemma mapE_ends {A} f (m : Prog A) s s' r : mapE f m s = (s', r) ->
  (exists e, m s = (s', Err e) /\ r = Err (f e)) \/ exists a, m s = (s', Ok a) /\ r = Ok a.
Proof. unfold mapE. destruct (m s) as [s1 [a|e]]; intros [= <- <-]; eauto. Qed.
Lemma keeps_run P {A} (m : Prog A) s s' r : keeps P m -> m s = (s', r) -> P (loc s) -> P (loc s').
Proof. intros Hk Hm Hs. specialize (Hk s Hs). by rewrite Hm in Hk. Qed.

Lemma ReadResponse_ok n s s' a : ReadResponse n s = (s', Ok a) ->
  loc s' = logged (fun _ => Code (fst a)) (loc s) /\ expected n (fst a) = true.
Proof.
  unfold ReadResponse, bind, event, note, modify, get_loc, put_loc. destruct (smtp_reply (tick s)) as [x|]; [|done].
  cbn. destruct (expected n x.1) eqn:He; [|done]. by intros [= <- <-].
Qed.
Lemma cmd_ok n t s s' a : cmd n t s = (s', Ok a) ->
  loc s' = logged (fun _ => Code (fst a)) (logged (fun tls => Line tls t) (loc s)) /\ expected n (fst a) = true.
Proof.
  unfold cmd. rewrite bind_note. intros Hc. apply bind_ends in Hc as [(e & _ & [=])|(s1 & w & Hw & Hr)].
  injection Hw as <- _. by apply ReadResponse_ok in Hr.
Qed.
Lemma hello_again s : c_didHello (loc s) = true ->
  hello s = (s, match c_helloError (loc s) with Some e => Err e | None => Ok tt end).
Proof. intros Hd. unfold hello, bind, get_loc, lift. by rewrite Hd. Qed.

#[export] Instance didHello_Stable : Stable (fun c => c_didHello c = true) (fun _ => True).
Proof. by constructor. Qed.
Lemma hello_did s : c_didHello (loc (fst (hello s))) = true.
Proof.
  unfold hello at 1, bind at 1, get_loc. destruct (c_didHello (loc s)) eqn:Hd; [done|].
  assert (keeps (fun c => c_didHello c = true) (
    let! r := try_ ehlo in
    match r with
    | Ok _ => lift (match c_helloError (loc s) with Some e => Err e | None => Ok tt end)
    | Err _ =>
        let! r := try_ helo in
        let! _ := modify (set_hello true (match r with Err e => Some e | Ok _ => None end)) in
        lift r
    end)) as Hk.
  { apply client_keeps_bind; [apply keeps_try, (keeps_ehlo _ (fun _ => True)), I|]. intros [|]; [apply keeps_lift|].
    apply client_keeps_bind; [apply keeps_try, (keeps_helo _ (fun _ => True)), I|]. intros r.
    apply client_keeps_bind; [by apply keeps_modify | intros; apply keeps_lift]. }
  unfold bind at 1. cbn. by apply Hk.
Qed.
Lemma Extension_did name s s' r : Extension name s = (s', r) -> c_didHello (loc s') = true.
Proof.
  unfold Extension, bind, try_, get_loc. pose proof (hello_did s) as Hd. destruct (hello s) as [s1 x]. by intros [= <- <-].
Qed.

(** The log of an accepted envelope. *)
Definition sender_line (from suffix : string) : string := "MAIL FROM:<" +:+ from +:+ ">" +:+ suffix.
Definition recipient_line (to_ : string) : string := "RCPT TO:<" +:+ to_ +:+ ">".
Lemma validateLine_ok s : validateLine s = Ok tt -> ContainsAnyCRLF s = false.
Proof. unfold validateLine. by destruct (ContainsAnyCRLF s). Qed.

Lemma Mail_ok from s s' a : Mail_ from s = (s', Ok a) -> c_didHello (loc s) = true ->
  ContainsAnyCRLF from = false /\ exists suffix,
    loc s' = logged (fun _ => Code 250) (logged (fun tls => Line tls (sender_line from suffix)) (loc s)).
Proof.
  intros Hm Hd. unfold Mail_ in Hm.
  apply bind_ends in Hm as [(e & _ & [=])|(s1 & [] & Hl & Hm)]. injection Hl as <- Hv. split; [by apply validateLine_ok|].
  apply bind_ends in Hm as [(e & _ & [=])|(s2 & [] & Hh & Hm)]. rewrite hello_again in Hh by done. injection Hh as <- _.
  apply bind_ends in Hm as [(e & _ & [=])|(s3 & c & Hg & Hm)]. injection Hg as <- <-.
  apply bind_ends in Hm as [(e & _ & [=])|(s4 & x & Hc & Hm)]. injection Hm as <- _.
  apply cmd_ok in Hc as [Hc He]. apply Z.eqb_eq in He. rewrite He in Hc. by eexists.
Qed.
Lemma Rcpt_ok to_ s s' a : Rcpt to_ s = (s', Ok a) ->
  ContainsAnyCRLF to_ = false /\ exists code, code / 10 = 25 /\
    loc s' = logged (fun _ => Code code) (logged (fun tls => Line tls (recipient_line to_)) (loc s)).
Proof.
  intros Hm. unfold Rcpt in Hm.
  apply bind_ends in Hm as [(e & _ & [=])|(s1 & [] & Hl & Hm)]. injection Hl as <- Hv. split; [by apply validateLine_ok|].
  apply bind_ends in Hm as [(e & _ & [=])|(s4 & x & Hc & Hm)]. injection Hm as <- _.
  apply cmd_ok in Hc as [Hc He]. apply Z.eqb_eq in He. eauto.
Qed.
Lemma Data_ok s s' a : Data_ s = (s', Ok a) ->
  loc s' = logged (fun _ => Code 354) (logged (fun tls => Line tls "DATA") (loc s)).
Proof.
  intros Hm. apply bind_ends in Hm as [(e & _ & [=])|(s4 & x & Hc & Hm)]. injection Hm as <- _.
  apply cmd_ok in Hc as [Hc He]. apply Z.eqb_eq in He. by rewrite He in Hc.
Qed.
Lemma close_ok s s' a : close_message s = (s', Ok a) -> loc s' = logged (fun _ => Code 250) (loc s).
Proof.
  intros Hm. apply bind_ends in Hm as [(e & _ & [=])|(s4 & x & Hc & Hm)]. injection Hm as <- _.
  apply ReadResponse_ok in Hc as [Hc He]. apply Z.eqb_eq in He. by rewrite He in Hc.
Qed.
Lemma Quit_ok s s' a : Quit s = (s', Ok a) -> c_didHello (loc s) = true ->
  loc s' = logged (fun _ => Code 221) (logged (fun tls => Line tls "QUIT") (loc s)).
Proof.
  intros Hm Hd. unfold Quit in Hm.
  apply bind_ends in Hm as [(e & _ & [=])|(s2 & [] & Hh & Hm)]. rewrite hello_again in Hh by done. injection Hh as <- _.
  apply bind_ends in Hm as [(e & _ & [=])|(s4 & x & Hc & Hm)]. injection Hm as <- _.
  apply cmd_ok in Hc as [Hc He]. apply Z.eqb_eq in He. by rewrite He in Hc.
Qed.
Lemma Auth_ok u p host s s' a : Auth u p host s = (s', Ok a) -> c_didHello (loc s) = true ->
  loc s' = logged (fun _ => Code 235) (logged (fun tls => Line tls (auth_line u p)) (loc s)).
Proof.
  intros Hm Hd. unfold Auth in Hm.
  apply bind_ends in Hm as [(e & _ & [=])|(s2 & [] & Hh & Hm)]. rewrite hello_again in Hh by done. injection Hh as <- _.
  apply bind_ends in Hm as [(e & _ & [=])|(s3 & c & Hg & Hm)]. injection Hg as <- <-.
  destruct (plain_start (loc s) host).
  2:{ apply bind_ends in Hm as [(e' & _ & [=])|(s4 & x & _ & Hm)]. done. }
  apply bind_ends in Hm as [(e' & _ & [=])|(s4 & x & Hc & Hm)]. apply cmd_ok in Hc as [Hc _].
  assert (forall e sx sy, abort_auth e sx <> (sy, Ok a)) as Hab.
  { intros e sx sy Hx. apply bind_ends in Hx as [(e' & _ & [=])|(s5 & y & _ & Hx)].
    apply bind_ends in Hx as [(e' & _ & [=])|(s6 & z & _ & Hx)]. done. }
  destruct (x.1 =? 334); [by apply Hab in Hm|]. destruct (Z.eqb_spec x.1 235) as [He|]; [|by apply Hab in Hm].
  injection Hm as <- _. by rewrite He in Hc.
Qed.
Lemma write_message_run body s s' r : write_message body s = (s', r) ->
  (r = Ok tt /\ loc s' = logged (fun tls => Data tls (dot_encode body)) (loc s)) \/
  (exists e, r = Err e) /\ loc s' = logged Broken (loc s).
Proof.
  unfold write_message, bind, try_, event, note, modify, get_loc, put_loc, fail.
  destruct (smtp_write (tick s)) as [[]|e]; intros [= <- <-]; eauto.
Qed.
End Successes.
