(* ===== verification/OrdersTables.v ===== *)
(** * Orders: tables and queries

    The rows of [generated/models.go] and every query of
    [generated/orders.sql.go] as a function of the tables, with the key, check,
    unique and foreign-key constraints of [database/orders/migrations].  A
    table with a primary key the queries look up is a finite map from that key;
    the line table and the outbox are lists in insertion order. *)
From Stdlib Require Import ZArith Lia Ascii String.
From stdpp Require Import base gmap strings list.
From S2P Require Import Prelude GoStrings GoErrors GoTime GoJson Tx OrdersDomain.

Open Scope string_scope.
Open Scope Z_scope.
Open Scope go_scope.

(** ** Rows *)

Record OrderRow := mkOrderRow {
  o_id : string;
  o_customer_id : string;
  o_currency : string;
  o_total_minor : option Z;
  o_status : string;
  o_failure_code : option string;
  o_reservation_id : option string;
  o_payment_id : option string;
  o_shipment_id : option string;
  o_version : Z;
  o_created_at : Time;
  o_updated_at : Time;
  o_inventory_released : bool;
  o_payment_refunded : bool
}.

Record ItemRow := mkItemRow {
  i_order_id : string;
  i_line_number : Z;
  i_product_id : string;
  i_quantity : Z;
  i_unit_price_minor : option Z;
  i_line_total_minor : option Z;
  i_quote_id : option string;
  i_quote_version : option Z
}.

Record SagaRow := mkSagaRow {
  g_id : string;
  g_order_id : string;
  g_phase : string;
  g_version : Z;
  g_failure_class : option string;
  g_created_at : Time;
  g_updated_at : Time
}.

Record InboxRow := mkInboxRow {
  n_message_type : string;
  n_payload_hash : string;
  n_received_at : Time;
  n_processed_at : option Time;
  n_status : string;
  n_attempts : Z;
  n_next_attempt_at : option Time;
  n_last_error : option string;
  n_correlation_id : string;
  n_causation_id : option string
}.

Record OutboxRow := mkOutboxRow {
  x_id : string;
  x_topic : string;
  x_partition_key : string;
  x_message_type : string;
  x_aggregate_type : string;
  x_aggregate_id : string;
  x_payload : json;
  x_headers : json;
  x_created_at : Time;
  x_published_at : option Time;
  x_attempts : Z;
  x_next_attempt_at : Time;
  x_lease_owner : option string;
  x_lease_until : option Time;
  x_last_error : option string
}.

Record IdemRow := mkIdemRow {
  d_request_hash : string;
  d_status : string;
  d_resource_id : option string;
  d_response_status : option Z;
  d_response_body : option json;
  d_created_at : Time;
  d_expires_at : Time
}.

Record DB := mkDB {
  orders : gmap string OrderRow;
  order_items : list ItemRow;
  saga_instances : gmap string SagaRow;
  inbox_messages : gmap (string * string) InboxRow;
  outbox_events : list OutboxRow;
  idempotency_records : gmap (string * string * string) IdemRow
}.

Definition empty_db : DB := mkDB ∅ [] ∅ ∅ [] ∅.

Definition set_orders (d : DB) v : DB :=
  mkDB v (order_items d) (saga_instances d) (inbox_messages d) (outbox_events d) (idempotency_records d).
Definition set_order_items (d : DB) v : DB :=
  mkDB (orders d) v (saga_instances d) (inbox_messages d) (outbox_events d) (idempotency_records d).
Definition set_sagas (d : DB) v : DB :=
  mkDB (orders d) (order_items d) v (inbox_messages d) (outbox_events d) (idempotency_records d).
Definition set_inbox (d : DB) v : DB :=
  mkDB (orders d) (order_items d) (saga_instances d) v (outbox_events d) (idempotency_records d).
Definition set_outbox (d : DB) v : DB :=
  mkDB (orders d) (order_items d) (saga_instances d) (inbox_messages d) v (idempotency_records d).
Definition set_idem (d : DB) v : DB :=
  mkDB (orders d) (order_items d) (saga_instances d) (inbox_messages d) (outbox_events d) v.

(** ** Constraints *)

Definition money_in_range (z : Z) : bool := (0 <=? z) && (z <=? 1000000000).
Definition failureCodePattern : re := Cat (Rep is_upper 1 (Some 1%nat)) (Rep is_reason_char 1 (Some 63%nat)).

(** The CHECK constraints of table orders. *)
Definition order_row_ok (r : OrderRow) : bool :=
  MatchString orderIDPattern (o_id r) && MatchString customerIDPattern (o_customer_id r) &&
  MatchString currencyPattern (o_currency r) && null_or money_in_range (o_total_minor r) &&
  bool_decide (o_status r ∈ statuses) &&
  null_or (MatchString failureCodePattern) (o_failure_code r) && (0 <? o_version r).

(** The CHECK constraints of table order_items. *)
Definition item_row_ok (r : ItemRow) : bool :=
  (0 <? i_line_number r) && (i_line_number r <=? 100) &&
  MatchString productIDPattern (i_product_id r) &&
  (1 <=? i_quantity r) && (i_quantity r <=? 1000) &&
  null_or money_in_range (i_unit_price_minor r) && null_or money_in_range (i_line_total_minor r) &&
  null_or (MatchString quoteIDPattern) (i_quote_id r) &&
  null_or (fun v => 0 <? v) (i_quote_version r).

(** The row under key [id] becomes [r]. *)
Definition put_order (d : DB) (id : string) (r : OrderRow) : result goerr DB :=
  check order_row_ok r else check_violation "orders" in
  Ok (set_orders d (<[id := r]> (orders d))).

Module Queries.
Section Queries.
Context `{Pg} `{GoLib}.

(** ** Orders and lines *)

Definition GetOrder (id : string) (d : DB) : result goerr (DB * OrderRow) :=
  match orders d !! id with Some r => Ok (d, r) | None => Err ErrNoRows end.

Definition GetOrderItems (orderID : string) (d : DB) : result goerr (DB * list ItemRow) :=
  Ok (d, order_by (fun a b => i_line_number a <=? i_line_number b)
           (filter (fun r => i_order_id r = orderID) (order_items d))).

Definition InsertOrder (id customerID currency : string) (total : option Z) (status : string)
    (version : Z) (createdAt : Time) (d : DB) : result goerr (DB * unit) :=
  match orders d !! id with
  | Some _ => Err (unique_violation "orders_pkey")
  | None =>
      let? d' := put_order d id (mkOrderRow id customerID currency total status None None None None
                                version (pg_time createdAt) (pg_time createdAt) false false) in
      Ok (d', tt)
  end.

Definition InsertOrderItem (orderID : string) (line : Z) (productID : string) (quantity : Z)
    (d : DB) : result goerr (DB * unit) :=
  let row := mkItemRow orderID line productID quantity None None None None in
  check item_row_ok row else check_violation "order_items" in
  reject existsb (fun r => (i_order_id r =? orderID)%string &&
                           ((i_line_number r =? line) || (i_product_id r =? productID)%string))
           (order_items d)
    with unique_violation "order_items" in
  match orders d !! orderID with
  | None => Err (fk_violation "order_items_order_id_fkey")
  | Some _ => Ok (set_order_items d (order_items d ++ [row]), tt)
  end.

Definition UpdateOrderItemQuote (orderID productID : string) (unitPrice lineTotal : option Z)
    (quoteID : option string) (quoteVersion : option Z) (d : DB) : result goerr (DB * unit) :=
  let hit r := (i_order_id r =? orderID)%string && (i_product_id r =? productID)%string in
  let upd r := mkItemRow (i_order_id r) (i_line_number r) (i_product_id r) (i_quantity r)
                 unitPrice lineTotal quoteID quoteVersion in
  check forallb (fun r => negb (hit r) || item_row_ok (upd r)) (order_items d)
    else check_violation "order_items" in
  Ok (set_order_items d (map (fun r => if hit r then upd r else r) (order_items d)), tt).

Definition UpdateOrderCancellation (id : string) (version : Z) (updatedAt : Time) (d : DB)
  : result goerr (DB * OrderRow) :=
  match orders d !! id with
  | Some r =>
      if (o_version r =? version) &&
         ((o_status r =? StatusPending)%string || (o_status r =? StatusConfirmed)%string)
      then
        let? v := next_bigint (o_version r) in
        let r' := mkOrderRow (o_id r) (o_customer_id r) (o_currency r) (o_total_minor r)
                    StatusCancelReq (o_failure_code r) (o_reservation_id r) (o_payment_id r)
                    (o_shipment_id r) v (o_created_at r) (pg_time updatedAt)
                    (o_inventory_released r) (o_payment_refunded r) in
        let? d' := put_order d id r' in
        Ok (d', r')
      else Err ErrNoRows
  | None => Err ErrNoRows
  end.

Definition coalesce {A} (a b : option A) : option A := match a with Some _ => a | None => b end.

Definition UpdateOrderWorkflowState (id status : string)
    (failure reservation payment shipment : option string) (total : option Z)
    (updatedAt : Time) (version : Z) (d : DB) : result goerr (DB * Z) :=
  match orders d !! id with
  | Some r =>
      if o_version r =? version then
        let? v := next_bigint (o_version r) in
        let? d' := put_order d id
          (mkOrderRow (o_id r) (o_customer_id r) (o_currency r) (coalesce total (o_total_minor r))
             status (coalesce failure (o_failure_code r)) (coalesce reservation (o_reservation_id r))
             (coalesce payment (o_payment_id r)) (coalesce shipment (o_shipment_id r))
             v (o_created_at r) (pg_time updatedAt) (o_inventory_released r) (o_payment_refunded r)) in
        Ok (d', 1)
      else Ok (d, 0)
  | None => Ok (d, 0)
  end.

Definition MarkInventoryReleased (id : string) (updatedAt : Time) (version : Z) (d : DB)
  : result goerr (DB * Z) :=
  match orders d !! id with
  | Some r =>
      if (o_version r =? version) && negb (o_inventory_released r) then
        let? v := next_bigint (o_version r) in
        let? d' := put_order d id
          (mkOrderRow (o_id r) (o_customer_id r) (o_currency r) (o_total_minor r) (o_status r)
             (o_failure_code r) (o_reservation_id r) (o_payment_id r) (o_shipment_id r)
             v (o_created_at r) (pg_time updatedAt) true (o_payment_refunded r)) in
        Ok (d', 1)
      else Ok (d, 0)
  | None => Ok (d, 0)
  end.

Definition MarkPaymentRefunded (id : string) (updatedAt : Time) (version : Z) (d : DB)
  : result goerr (DB * Z) :=
  match orders d !! id with
  | Some r =>
      if (o_version r =? version) && negb (o_payment_refunded r) then
        let? v := next_bigint (o_version r) in
        let? d' := put_order d id
          (mkOrderRow (o_id r) (o_customer_id r) (o_currency r) (o_total_minor r) (o_status r)
             (o_failure_code r) (o_reservation_id r) (o_payment_id r) (o_shipment_id r)
             v (o_created_at r) (pg_time updatedAt) (o_inventory_released r) true) in
        Ok (d', 1)
      else Ok (d, 0)
  | None => Ok (d, 0)
  end.

(** The row comparison [(created_at, id) < (c, i)]; NULL counts as false. *)
Definition before_cursor (r : OrderRow) (createdAt : option Time) (id : option string) : bool :=
  match createdAt with
  | None => true
  | Some c =>
      Before (o_created_at r) c ||
      ((nanos (o_created_at r) =? nanos c) &&
       match id with Some i => text_ltb (o_id r) i | None => false end)
  end.

(** ORDER BY created_at DESC, id DESC *)
Definition newer (a b : OrderRow) : bool :=
  Before (o_created_at b) (o_created_at a) ||
  ((nanos (o_created_at a) =? nanos (o_created_at b)) && negb (text_ltb (o_id a) (o_id b))).

Definition ListOrders (customerID status : string) (createdAt : option Time) (id : option string)
    (pageSize : Z) (d : DB) : result goerr (DB * list OrderRow) :=
  let rows := filter (fun r => o_customer_id r = customerID /\
                               (status = "" \/ o_status r = status) /\
                               before_cursor r createdAt id = true)
                (map snd (map_to_list (orders d))) in
  let? page := limited pageSize (order_by newer rows) in
  Ok (d, page).

(** ** Sagas *)

Definition GetSagaByOrderID (orderID : string) (d : DB) : result goerr (DB * SagaRow) :=
  match filter (fun r => g_order_id r = orderID) (map snd (map_to_list (saga_instances d))) with
  | r :: _ => Ok (d, r)
  | [] => Err ErrNoRows
  end.

Definition InsertSaga (id orderID phase : string) (createdAt : Time) (d : DB)
  : result goerr (DB * unit) :=
  reject bool_decide (is_Some (saga_instances d !! id)) ||
         existsb (fun r => (g_order_id r =? orderID)%string) (map snd (map_to_list (saga_instances d)))
    with unique_violation "saga_instances" in
  match orders d !! orderID with
  | None => Err (fk_violation "saga_instances_order_id_fkey")
  | Some _ =>
      Ok (set_sagas d (<[id := mkSagaRow id orderID phase 1 None (pg_time createdAt) (pg_time createdAt)]>
                         (saga_instances d)), tt)
  end.

Definition UpdateSagaPhase (id phase : string) (updatedAt : Time) (d : DB)
  : result goerr (DB * unit) :=
  match saga_instances d !! id with
  | Some r =>
      let? v := next_bigint (g_version r) in
      Ok (set_sagas d (<[id := mkSagaRow (g_id r) (g_order_id r) phase v (g_failure_class r)
                                 (g_created_at r) (pg_time updatedAt)]> (saga_instances d)), tt)
  | None => Ok (d, tt)
  end.

(** ** Idempotency records *)

Definition InsertIdempotency (actorID operation key requestHash : string)
    (resourceID : option string) (responseStatus : option Z) (responseBody : option json)
    (createdAt expiresAt : Time) (d : DB) : result goerr (DB * Z) :=
  match idempotency_records d !! (actorID, operation, key) with
  | Some _ => Ok (d, 0)
  | None =>
      Ok (set_idem d (<[(actorID, operation, key) :=
            mkIdemRow requestHash "COMPLETED" resourceID responseStatus responseBody
              (pg_time createdAt) (pg_time expiresAt)]> (idempotency_records d)), 1)
  end.

Definition GetIdempotency (actorID operation key : string) (d : DB) : result goerr (DB * IdemRow) :=
  match idempotency_records d !! (actorID, operation, key) with
  | Some r => Ok (d, r)
  | None => Err ErrNoRows
  end.

Definition UpdateIdempotencyResponse (actorID operation key : string) (resourceID : option string)
    (responseBody : option json) (d : DB) : result goerr (DB * unit) :=
  match idempotency_records d !! (actorID, operation, key) with
  | Some r =>
      Ok (set_idem d (<[(actorID, operation, key) :=
            mkIdemRow (d_request_hash r) (d_status r) resourceID (d_response_status r) responseBody
              (d_created_at r) (d_expires_at r)]> (idempotency_records d)), tt)
  | None => Ok (d, tt)
  end.

(** ** Inbox *)

Definition InsertInbox (group messageID messageType payloadHash : string) (receivedAt : Time)
    (correlationID : string) (causationID : option string) (d : DB) : result goerr (DB * Z) :=
  match inbox_messages d !! (group, messageID) with
  | Some _ => Ok (d, 0)
  | None =>
      Ok (set_inbox d (<[(group, messageID) :=
            mkInboxRow messageType payloadHash (pg_time receivedAt) None "RECEIVED" 1 None None
              correlationID causationID]> (inbox_messages d)), 1)
  end.

Definition GetInbox (group messageID : string) (d : DB) : result goerr (DB * InboxRow) :=
  match inbox_messages d !! (group, messageID) with
  | Some r => Ok (d, r)
  | None => Err ErrNoRows
  end.

Definition MarkInboxProcessed (group messageID : string) (processedAt : option Time) (d : DB)
  : result goerr (DB * unit) :=
  match inbox_messages d !! (group, messageID) with
  | Some r =>
      Ok (set_inbox d (<[(group, messageID) :=
            mkInboxRow (n_message_type r) (n_payload_hash r) (n_received_at r)
              (pg_time <$> processedAt) "PROCESSED" (n_attempts r) (n_next_attempt_at r) None
              (n_correlation_id r) (n_causation_id r)]> (inbox_messages d)), tt)
  | None => Ok (d, tt)
  end.

Definition MarkInboxDeadLetter (group messageID : string) (lastError : option string) (d : DB)
  : result goerr (DB * unit) :=
  match inbox_messages d !! (group, messageID) with
  | Some r =>
      Ok (set_inbox d (<[(group, messageID) :=
            mkInboxRow (n_message_type r) (n_payload_hash r) (n_received_at r) (n_processed_at r)
              "DLQ" (n_attempts r) None lastError (n_correlation_id r) (n_causation_id r)]>
              (inbox_messages d)), tt)
  | None => Ok (d, tt)
  end.

Definition RecordInboxFailure (group messageID messageType payloadHash : string)
    (receivedAt : Time) (correlationID : string) (causationID lastError : option string)
    (nextAttemptAt : option Time) (d : DB) : result goerr (DB * (Z * string)) :=
  match inbox_messages d !! (group, messageID) with
  | None =>
      Ok (set_inbox d (<[(group, messageID) :=
            mkInboxRow messageType payloadHash (pg_time receivedAt) None "RETRY" 1
              (pg_time <$> nextAttemptAt) lastError correlationID causationID]>
              (inbox_messages d)), (1, "RETRY"))
  | Some r =>
      let? n := next_integer (n_attempts r) in
      Ok (set_inbox d (<[(group, messageID) :=
            mkInboxRow (n_message_type r) (n_payload_hash r) (n_received_at r) (n_processed_at r)
              "RETRY" n (pg_time <$> nextAttemptAt) lastError
              (n_correlation_id r) (n_causation_id r)]> (inbox_messages d)), (n, "RETRY"))
  end.

Definition CountPendingInbox (d : DB) : result goerr (DB * Z) :=
  Ok (d, Z.of_nat (length (filter (fun r => n_status r = "RECEIVED" \/ n_status r = "RETRY")
                             (map snd (map_to_list (inbox_messages d)))))).

(** ** Outbox *)

Definition InsertOutbox (id topic partitionKey messageType aggregateType aggregateID : string)
    (payload : json) (headers : string) (createdAt : Time) (d : DB) : result goerr (DB * unit) :=
  match json_parse headers with
  | None => Err bad_json
  | Some h =>
      reject existsb (fun r => (x_id r =? id)%string) (outbox_events d)
        with unique_violation "outbox_events_pkey" in
      Ok (set_outbox d (outbox_events d ++
            [mkOutboxRow id topic partitionKey messageType aggregateType aggregateID payload h
               (pg_time createdAt) None 0 (pg_time createdAt) None None None]), tt)
  end.

Definition oldest (a b : OutboxRow) : bool := negb (Before (x_created_at b) (x_created_at a)).

(** [published_at IS NULL AND next_attempt_at <= now()] *)
Definition due (now : Time) (r : OutboxRow) : Prop :=
  x_published_at r = None /\ After (x_next_attempt_at r) now = false.
(** [lease_until IS NULL OR lease_until < now()] *)
Definition unleased (now : Time) (r : OutboxRow) : Prop :=
  match x_lease_until r with None => True | Some u => Before u now = true end.
#[global] Instance due_dec now r : Decision (due now r).
Proof. unfold due. apply _. Defined.
#[global] Instance unleased_dec now r : Decision (unleased now r).
Proof. unfold unleased. destruct (x_lease_until r); apply _. Defined.

Definition ListPendingOutbox (limit : Z) (now : Time) (d : DB)
  : result goerr (DB * list OutboxRow) :=
  let? rows := limited limit (order_by oldest (filter (due now) (outbox_events d))) in
  Ok (d, rows).

Definition lease (owner : option string) (until : option Time) (r : OutboxRow) : OutboxRow :=
  mkOutboxRow (x_id r) (x_topic r) (x_partition_key r) (x_message_type r) (x_aggregate_type r)
    (x_aggregate_id r) (x_payload r) (x_headers r) (x_created_at r) (x_published_at r)
    (x_attempts r) (x_next_attempt_at r) owner (pg_time <$> until) (x_last_error r).

Definition ClaimPendingOutbox (owner : option string) (until : option Time) (limit : Z)
    (now : Time) (d : DB) : result goerr (DB * list OutboxRow) :=
  let? rows := limited limit
    (order_by oldest (filter (fun r => due now r /\ unleased now r) (outbox_events d))) in
  let ids := map x_id rows in
  Ok (set_outbox d (map (fun r => if decide (x_id r ∈ ids) then lease owner until r else r)
                      (outbox_events d)),
      map (lease owner until) (filter (fun r => x_id r ∈ ids) (outbox_events d))).

Definition publish_row (at_ : option Time) (r : OutboxRow) : result goerr OutboxRow :=
  let? n := next_integer (x_attempts r) in
  Ok (mkOutboxRow (x_id r) (x_topic r) (x_partition_key r) (x_message_type r) (x_aggregate_type r)
        (x_aggregate_id r) (x_payload r) (x_headers r) (x_created_at r) (pg_time <$> at_)
        n (x_next_attempt_at r) None None None).
Definition fail_row (lastError : option string) (nextAttemptAt : Time) (r : OutboxRow)
  : result goerr OutboxRow :=
  let? n := next_integer (x_attempts r) in
  Ok (mkOutboxRow (x_id r) (x_topic r) (x_partition_key r) (x_message_type r) (x_aggregate_type r)
        (x_aggregate_id r) (x_payload r) (x_headers r) (x_created_at r) (x_published_at r)
        n (pg_time nextAttemptAt) None None lastError).

(** UPDATE ... WHERE id = $1 AND published_at IS NULL *)
Fixpoint update_pending (id : string) (f : OutboxRow -> result goerr OutboxRow)
    (l : list OutboxRow) : result goerr (list OutboxRow) :=
  match l with
  | [] => Ok []
  | r :: rest =>
      let? r' := (if (x_id r =? id)%string && bool_decide (x_published_at r = None)
                  then f r else Ok r) in
      let? rest' := update_pending id f rest in
      Ok (r' :: rest')
  end.

Definition MarkOutboxPublished (id : string) (publishedAt : option Time) (d : DB)
  : result goerr (DB * unit) :=
  let? rows := update_pending id (publish_row publishedAt) (outbox_events d) in
  Ok (set_outbox d rows, tt).

Definition MarkOutboxFailed (id : string) (lastError : option string) (nextAttemptAt : Time)
    (d : DB) : result goerr (DB * unit) :=
  let? rows := update_pending id (fail_row lastError nextAttemptAt) (outbox_events d) in
  Ok (set_outbox d rows, tt).

Definition CountPendingOutbox (d : DB) : result goerr (DB * Z) :=
  Ok (d, Z.of_nat (length (filter (fun r => x_published_at r = None) (outbox_events d)))).
End Queries.
End Queries.
