(* ===== verification/OrdersPorts.v ===== *)
(** * Orders: the ports of the application

    [apps/orders/internal/application/orders]: the sentinel errors, the actor
    of a request and the results that pass between the HTTP layer, the service
    and the store. *)
From Stdlib Require Import ZArith Lia Ascii String.
From stdpp Require Import base strings list.
From S2P Require Import Prelude GoErrors GoTime OrdersDomain.

Open Scope string_scope.
Open Scope Z_scope.

Definition app_error (text : string) : goerr := Sentinel "orders/application" text.
Definition ErrInvalidDependency := app_error "orders application dependencies are required".
Definition ErrUnauthorized := app_error "orders authentication is required".
Definition ErrForbidden := app_error "orders operation is forbidden".
Definition ErrNotFound := app_error "order was not found".
Definition ErrInvalidInput := app_error "order input is invalid".
Definition ErrInvalidCursor := app_error "order cursor is invalid".
Definition ErrIdempotencyConflict := app_error "idempotency key was reused with different input".
Definition ErrConflict := app_error "order operation conflicts with current state".
Definition ErrDependency := app_error "orders dependency is unavailable".

Record Actor := mkActor { Subject : string; ActorType : string; Scopes : list string }.

Fixpoint has_scope (scopes : list string) (scope : string) : bool :=
  match scopes with
  | [] => false
  | candidate :: rest => if (candidate =? scope)%string then true else has_scope rest scope
  end.
Definition HasScope (a : Actor) (scope : string) : bool := has_scope (Scopes a) scope.

Lemma HasScope_spec a scope : HasScope a scope = true <-> scope ∈ Scopes a.
Proof.
  unfold HasScope; induction (Scopes a) as [|c rest IH]; cbn.
  - split; [done | by intros ?%not_elem_of_nil].
  - rewrite elem_of_cons. destruct (String.eqb_spec c scope) as [->|]; [naive_solver|].
    rewrite IH. naive_solver.
Qed.

Record CreateResult := mkCreateResult {
  ROrder : Order;
  Replayed : bool;
  ResponseStatus : string;
  ResponseAt : Time
}.
