(* ===== verification/OrdersQuote.v ===== *)
(** * Orders: verification of inventory quotes

    [apps/orders/internal/adapters/outbound/postgres/quote.go]: the detached
    EdDSA signature of a quote, its expiry, and the verifier's key set, fetched
    over HTTP and kept for five minutes. *)
From Stdlib Require Import ZArith Lia Ascii String.
From stdpp Require Import base gmap strings list.
From S2P Require Import Prelude GoStrings GoErrors GoTime GoJson GoBase64 GoCrypto OrdersDomain.
From S2P Require Import Tx OrdersTables OrdersPorts.

Open Scope string_scope.
Open Scope Z_scope.
Open Scope go_scope.

Record quoteItem := mkQuoteItem {
  qi_ProductID : string;
  qi_Quantity : Z;
  qi_UnitPriceMinor : Z;
  qi_LineTotalMinor : Z
}.

Record signedQuote := mkSignedQuote {
  q_OrderID : string;
  q_ReservationID : string;
  q_QuoteID : string;
  q_QuoteVersion : Z;
  q_Currency : string;
  q_Items : list quoteItem;
  q_ExpiresAt : string
}.

(** The mutable part of a [QuoteVerifier]: the keys and when they were loaded. *)
Record QuoteCache := mkQuoteCache { keys : gmap string string; loaded : Time }.
Definition empty_cache : QuoteCache := mkQuoteCache ∅ zeroTime.

(** What the key-set endpoint answers: [None] when no response came, else the
    status and the body, [None] when reading it failed. *)
Class KeySetHTTP := { key_set_reply : string -> nat -> option (Z * option string) }.

Definition no_key_set : KeySetHTTP := {| key_set_reply := fun _ _ => None |}.

Definition StatusOK : Z := 200.

(** [io.ReadAll(io.LimitReader(body, 1<<20))] *)
Definition limited_body (body : string) : string := take_string (2 ^ 20) body.

Definition conflict (text : string) : goerr := Errorf_w ErrConflict text.

Section Verifier.
Context `{GoLib} `{Crypto} `{Env} `{KeySetHTTP} {D : Type}.

Definition jquoteItem (i : quoteItem) : json :=
  JObj [("product_id", jstr (qi_ProductID i)); ("quantity", jint (qi_Quantity i));
        ("unit_price_minor", jint (qi_UnitPriceMinor i));
        ("line_total_minor", jint (qi_LineTotalMinor i))].
Definition jsignedQuote (q : signedQuote) : json :=
  JObj [("order_id", jstr (q_OrderID q)); ("reservation_id", jstr (q_ReservationID q));
        ("quote_id", jstr (q_QuoteID q)); ("quote_version", jint (q_QuoteVersion q));
        ("currency", jstr (q_Currency q)); ("items", JArr (map jquoteItem (q_Items q)));
        ("quote_expires_at", jstr (q_ExpiresAt q))].

(** One entry of the key set: kty, crv, kid, use, alg, x. *)
Record jwk := mkJwk {
  jwk_kty : string; jwk_crv : string; jwk_kid : string;
  jwk_use : string; jwk_alg : string; jwk_x : string
}.
Definition dec_jwk (fs : list (string * json)) : option jwk :=
  kty ← dec_field dec_string "" "kty" fs;
  crv ← dec_field dec_string "" "crv" fs;
  kid ← dec_field dec_string "" "kid" fs;
  use ← dec_field dec_string "" "use" fs;
  alg ← dec_field dec_string "" "alg" fs;
  x ← dec_field dec_string "" "x" fs;
  Some (mkJwk kty crv kid use alg x).
Definition dec_jwks (fs : list (string * json)) : option (list jwk) :=
  dec_field (fun _ v => dec_slice dec_jwk v) [] "keys" fs.

Definition usable (k : jwk) : bool :=
  (jwk_kty k =? "OKP")%string && (jwk_crv k =? "Ed25519")%string &&
  (jwk_use k =? "sig")%string && (jwk_alg k =? "EdDSA")%string.

Definition add_key (m : gmap string string) (k : jwk) : gmap string string :=
  if usable k then
    match RawURLDecode (jwk_x k) with
    | Some decoded => if Nat.eqb (String.length decoded) PublicKeySize
                      then <[jwk_kid k := decoded]> m else m
    | None => m
    end
  else m.

Definition http_get (url : string) : M D QuoteCache (option (Z * option string)) := fun s =>
  (advance s, Ok (key_set_reply url (tick s))).

(** The part of [key] after a miss of the cache. *)
Definition refresh_keys (url keyID : string) : M D QuoteCache (option string) :=
  let! response := http_get url in
  match response with
  | Some (status, Some body) =>
      if negb (status =? StatusOK) then ret None
      else match unmarshal_struct dec_jwks (limited_body body) with
           | None => ret None
           | Some document =>
               let ks := foldl add_key ∅ document in
               let! now := timeNow in
               let! _ := put_loc (mkQuoteCache ks now) in
               ret (ks !! keyID)
           end
  | _ => ret None
  end.

Definition key (url keyID : string) : M D QuoteCache (option string) :=
  let! v := get_loc in
  match keys v !! keyID with
  | Some k =>
      let! now := timeNow in
      if Sub now (loaded v) <? 5 * Minute then ret (Some k) else refresh_keys url keyID
  | None => refresh_keys url keyID
  end.

Definition dec_header (fs : list (string * json)) : option (string * string) :=
  alg ← dec_field dec_string "" "alg" fs;
  kid ← dec_field dec_string "" "kid" fs;
  Some (alg, kid).

(** The header of the detached signature: well-formed, EdDSA, the key asked for. *)
Definition header_ok (part keyID : string) : bool :=
  match RawURLDecode part with
  | Some headerBytes =>
      match unmarshal_struct dec_header headerBytes with
      | Some (alg, kid) => (alg =? "EdDSA")%string && (kid =? keyID)%string
      | None => false
      end
  | None => false
  end.

(** [v] is the verifier's URL, [None] for a nil verifier. *)
Definition Verify (v : option string) (quote : signedQuote) (keyID detachedJWS : string) (now : Time)
  : M D QuoteCache unit :=
  match v with
  | None => fail (conflict "quote verification is not configured")
  | Some url =>
      deny (TrimSpace url =? "")%string || (keyID =? "")%string
        with conflict "quote verification is not configured" in
      deny match parse_rfc3339nano (q_ExpiresAt quote) with
           | Some expiresAt => negb (After expiresAt (UTC now))
           | None => true
           end
        with conflict "quote expired or invalid" in
      match Split detachedJWS "." with
      | [header; middle; sig] =>
          deny negb (middle =? "")%string with conflict "quote signature is not detached JWS" in
          guard header_ok header keyID else conflict "quote signature header is invalid" in
          match RawURLDecode sig with
          | None => fail (conflict "quote signature is invalid")
          | Some signature =>
              guard Nat.eqb (String.length signature) SignatureSize
                else conflict "quote signature is invalid" in
              let encodedPayload := RawURLEncode (json_text (jsignedQuote quote)) in
              let! publicKey := key url keyID in
              match publicKey with
              | Some pk =>
                  guard ed25519_verify pk (header +:+ "." +:+ encodedPayload) signature
                    else conflict "quote signature verification failed" in
                  ret tt
              | None => fail (conflict "quote signature verification failed")
              end
          end
      | _ => fail (conflict "quote signature is not detached JWS")
      end
  end.
End Verifier.
