(* ===== verification/OrdersStore.v ===== *)
(** * Orders: the PostgreSQL store

    [apps/orders/internal/adapters/outbound/postgres/store.go] up to the
    processing of facts: messages and their envelopes, list cursors, loading an
    order, [Create], [List], [RequestCancellation], the outbox operations of
    the relay and the inbox failure record. *)
From Stdlib Require Import ZArith Lia Ascii String.
From stdpp Require Import base gmap strings list pretty.
From S2P Require Import Prelude GoStrings GoErrors GoTime GoJson GoBase64 GoCrypto OrdersDomain.
From S2P Require Import Tx OrdersTables OrdersPorts OrdersQuote.

Open Scope string_scope.
Open Scope Z_scope.
Open Scope go_scope.

Notation Prog A := (M DB QuoteCache A).

Record Store := mkStore { quoteVerifier : option string; cursorSecret : string }.

(** The relay's view of an outbox row. *)
Record OutboxEvent := mkOutboxEvent {
  ev_ID : string;
  ev_Topic : string;
  ev_PartitionKey : string;
  ev_MessageType : string;
  ev_AggregateType : string;
  ev_AggregateID : string;
  ev_Payload : json;
  ev_Headers : json;
  ev_Attempts : Z
}.

Definition outbox_event (row : OutboxRow) : OutboxEvent :=
  mkOutboxEvent (x_id row) (x_topic row) (x_partition_key row) (x_message_type row)
    (x_aggregate_type row) (x_aggregate_id row) (x_payload row) (x_headers row) (x_attempts row).

(** ** Errors *)

Definition mapError (err : goerr) : goerr :=
  if errors_Is err ErrNoRows then ErrNotFound
  else match errors_AsPg err with
       | Some code => if (code =? "23505")%string then ErrConflict else Errorf_wv ErrDependency err
       | None => Errorf_wv ErrDependency err
       end.

(** ** Conversions *)

(** [nullString], [nullTime]: the zero value is NULL. *)
Definition nullString (value : string) : option string :=
  if (value =? "")%string then None else Some value.
Definition nullTime (value : Time) : option Time := if IsZero value then None else Some value.

Definition orderFromFields (row : OrderRow) (items : list Item) : Order :=
  mkOrder (o_id row) (o_customer_id row) (o_currency row) items (o_total_minor row)
    (o_reservation_id row) (o_payment_id row) (o_shipment_id row) (o_failure_code row)
    (o_inventory_released row) (o_payment_refunded row) (o_status row)
    (wrap_u64 (o_version row)) (o_created_at row) (o_updated_at row).
Definition item_of_row (item : ItemRow) : Item :=
  mkItem (i_product_id item) (i_quantity item) (i_unit_price_minor item) (i_line_total_minor item)
    (i_quote_id item) (i_quote_version item).
Definition getOrderRowToOrder (row : OrderRow) : Order := orderFromFields row [].
Definition cancellationRowToOrder (row : OrderRow) : Order := orderFromFields row [].

(** Assignments to fields of an order. *)
Definition with_items (o : Order) (items : list Item) : Order :=
  mkOrder (ID o) (CustomerID o) (Currency o) items (TotalMinor o) (ReservationID o) (PaymentID o)
    (ShipmentID o) (FailureCode o) (InventoryReleased o) (PaymentRefunded o) (OStatus o)
    (Version o) (CreatedAt o) (UpdatedAt o).
Definition with_version (o : Order) (v : Z) : Order :=
  mkOrder (ID o) (CustomerID o) (Currency o) (Items o) (TotalMinor o) (ReservationID o)
    (PaymentID o) (ShipmentID o) (FailureCode o) (InventoryReleased o) (PaymentRefunded o)
    (OStatus o) v (CreatedAt o) (UpdatedAt o).
(** [order.Version++] *)
Definition bump (o : Order) : Order := with_version o (wrap_u64 (Version o + 1)).
Definition with_reservation (o : Order) (r : string) : Order :=
  mkOrder (ID o) (CustomerID o) (Currency o) (Items o) (TotalMinor o) (Some r) (PaymentID o)
    (ShipmentID o) (FailureCode o) (InventoryReleased o) (PaymentRefunded o) (OStatus o)
    (Version o) (CreatedAt o) (UpdatedAt o).
Definition with_payment (o : Order) (p : string) : Order :=
  mkOrder (ID o) (CustomerID o) (Currency o) (Items o) (TotalMinor o) (ReservationID o) (Some p)
    (ShipmentID o) (FailureCode o) (InventoryReleased o) (PaymentRefunded o) (OStatus o)
    (Version o) (CreatedAt o) (UpdatedAt o).
Definition with_flags (o : Order) (released refunded : bool) (now : Time) : Order :=
  mkOrder (ID o) (CustomerID o) (Currency o) (Items o) (TotalMinor o) (ReservationID o)
    (PaymentID o) (ShipmentID o) (FailureCode o) released refunded (OStatus o)
    (Version o) (CreatedAt o) now.

(** ** Topics and operations *)

Definition topicFor (messageType : string) : string :=
  if HasPrefix messageType "commerce.order." then "commerce.order.events.v1"
  else if HasPrefix messageType "commerce.inventory." then "commerce.inventory.commands.v1"
  else if HasPrefix messageType "commerce.payment." then "commerce.payment.commands.v1"
  else "commerce.fulfillment.commands.v1".

Definition operationSuffix (value : string) : string := after_last ":" value.

Definition aggregateTypeFor (commandType : string) : string :=
  if (commandType =? "commerce.inventory.release.v1")%string then "inventory"
  else if (commandType =? "commerce.payment.authorize.v1")%string ||
          (commandType =? "commerce.payment.refund.v1")%string then "payment"
  else if (commandType =? "commerce.fulfillment.create.v1")%string then "fulfillment"
  else "order".

Definition content_type_header : string :=
  json_text (JObj [("content-type", JStr "application/json")]).
(** The cancellation event's header is put together from its reason. *)
Definition reason_header (reason : string) : string :=
  "{" +:+ dquote +:+ "reason_code" +:+ dquote +:+ ":" +:+ dquote +:+ reason +:+ dquote +:+ "}".

Section Store.
Context `{GoLib} `{Crypto} `{Env} `{Pg}.

(** ** JSON of messages *)

Definition jaccepted (orderID status : string) (createdAt : Time) : result goerr json :=
  let? at_ := jtime createdAt in
  Ok (JObj [("order_id", jstr orderID); ("status", jstr status); ("created_at", at_)]).

Definition jevent (eventID eventType : string) (order : Order) (sagaID causation : string)
    (occurredAt : Time) (operation : string) (data : json) : result goerr json :=
  let? at_ := jtime occurredAt in
  Ok (JObj [("event_id", jstr eventID); ("event_type", jstr eventType);
            ("aggregate_type", jstr "order"); ("aggregate_id", jstr (ID order));
            ("aggregate_version", jint (Version order)); ("saga_id", jstr sagaID);
            ("correlation_id", jstr (ID order)); ("causation_id", jstr causation);
            ("occurred_at", at_); ("producer", jstr "orders"); ("schema_version", jint 1);
            ("operation_id", jstr operation); ("data", data)]).

Definition orderItemsPayload (order : Order) : json :=
  JArr (map (fun item => jmap [("product_id", jstr (ProductID item));
                               ("quantity", jint (Quantity item))]) (Items order)).

Definition eventPayloadWithID (eventID eventType : string) (order : Order)
    (sagaID causation operation reason : string) : result goerr json :=
  let data :=
    if (eventType =? "commerce.order.cancellation_requested.v1")%string
    then jmap [("order_id", jstr (ID order)); ("reason_code", jstr reason)]
    else jmap [("order_id", jstr (ID order)); ("customer_id", jstr (CustomerID order));
               ("currency", jstr (Currency order)); ("items", orderItemsPayload order)] in
  jevent eventID eventType order sagaID causation (UpdatedAt order) operation data.

Definition eventPayloadFor (eventType : string) (order : Order) (sagaID causation operation : string)
    (data : list (string * json)) : Prog json :=
  let! u := newUUID in
  let! now := timeNow in
  lift (jevent ("evt_" +:+ u) eventType order sagaID causation (UTC now) operation (jmap data)).

Definition commandPayload (commandType : string) (order : Order) (sagaID causation operation : string)
    (data : list (string * json)) : Prog json :=
  let! u := newUUID in
  let! now := timeNow in
  let! at_ := lift (jtime (UTC now)) in
  ret (jmap [("command_id", jstr ("cmd_" +:+ u)); ("command_type", jstr commandType);
             ("aggregate_type", jstr (aggregateTypeFor commandType));
             ("aggregate_id", jstr (ID order)); ("aggregate_version", jint (Version order));
             ("saga_id", jstr sagaID); ("correlation_id", jstr (ID order));
             ("causation_id", jstr causation); ("issued_at", at_); ("producer", jstr "orders");
             ("schema_version", jint 1);
             ("operation_id", jstr ("ord_" +:+ TrimPrefix (ID order) "ord_" +:+ ":" +:+
                                    operationSuffix operation));
             ("data", jmap data)]).

Definition insertOutbox (messageType orderID : string) (payload : json) (at_ : Time) : Prog unit :=
  let! u := newUUID in
  mapE mapError (exec (Queries.InsertOutbox u (topicFor messageType) orderID messageType "order"
                         orderID payload content_type_header at_)).

(** ** Cursors *)

Record cursorValue := mkCursor {
  c_CustomerID : string;
  c_Status : string;
  c_CreatedAt : Time;
  c_ID : string
}.
Definition zero_cursor : cursorValue := mkCursor "" "" zeroTime "".

Definition encodeCursor (value : cursorValue) : result goerr string :=
  let? at_ := jtime (c_CreatedAt value) in
  Ok (RawURLEncode (json_text
        (JObj [("customer_id", jstr (c_CustomerID value)); ("status", jstr (c_Status value));
               ("created_at", at_); ("id", jstr (c_ID value))]))).

Definition encodeSignedCursor (value : cursorValue) (secret : string) : result goerr string :=
  let? encoded := encodeCursor value in
  if (secret =? "")%string then Ok encoded
  else Ok (encoded +:+ "." +:+ RawURLEncode (hmac_sha256 secret encoded)).

Definition dec_cursor (fs : list (string * json)) : option cursorValue :=
  customer ← dec_field dec_string "" "customer_id" fs;
  status ← dec_field dec_string "" "status" fs;
  created ← dec_field dec_time zeroTime "created_at" fs;
  id ← dec_field dec_string "" "id" fs;
  Some (mkCursor customer status created id).

Definition decodeCursor (value : string) : result goerr cursorValue :=
  match RawURLDecode value with
  | None => Err ErrInvalidCursor
  | Some data =>
      reject 1024 <? Z.of_nat (String.length data) with ErrInvalidCursor in
      match unmarshal_struct dec_cursor data with
      | None => Err ErrInvalidCursor
      | Some r =>
          reject (c_CustomerID r =? "")%string || (c_ID r =? "")%string || IsZero (c_CreatedAt r)
            with ErrInvalidCursor in
          Ok r
      end
  end.

Definition decodeSignedCursor (value secret : string) : result goerr cursorValue :=
  if (secret =? "")%string then decodeCursor value
  else match Split value "." with
       | [encoded; mac] =>
           reject 128 <? Z.of_nat (String.length mac) with ErrInvalidCursor in
           match RawURLDecode mac with
           | None => Err ErrInvalidCursor
           | Some supplied =>
               check (supplied =? hmac_sha256 secret encoded)%string else ErrInvalidCursor in
               decodeCursor encoded
           end
       | _ => Err ErrInvalidCursor
       end.

(** ** Reading *)

Definition loadOrder (id : string) : Prog Order :=
  let! row := mapE mapError (exec (Queries.GetOrder id)) in
  let! items := mapE mapError (exec (Queries.GetOrderItems id)) in
  ret (with_items (getOrderRowToOrder row) (map item_of_row items)).

Definition FindByID (orderID : string) : Prog Order := loadOrder orderID.

Fixpoint load_all (rows : list OrderRow) : Prog (list Order) :=
  match rows with
  | [] => ret []
  | row :: rest =>
      let! order := loadOrder (o_id row) in
      let! others := load_all rest in
      ret (order :: others)
  end.

(** The cursor of a list request: none, or one signed for the same filter. *)
Definition request_cursor (s : Store) (customerID status cursor : string) : result goerr cursorValue :=
  if (cursor =? "")%string then Ok zero_cursor
  else match decodeSignedCursor cursor (cursorSecret s) with
       | Ok decoded =>
           check (c_CustomerID decoded =? customerID)%string && (c_Status decoded =? status)%string
             else ErrInvalidCursor in
           Ok decoded
       | Err _ => Err ErrInvalidCursor
       end.

Definition List (s : Store) (customerID status cursor : string) (limit : Z)
  : Prog (list Order * string) :=
  let! c := lift (request_cursor s customerID status cursor) in
  let! rows := mapE mapError (exec (Queries.ListOrders customerID status (nullTime (c_CreatedAt c))
                                      (nullString (c_ID c)) (wrap_i32 (limit + 1)))) in
  let hasMore := limit <? Z.of_nat (length rows) in
  let rows := if hasMore then take (Z.to_nat limit) rows else rows in
  let! result := load_all rows in
  match hasMore, last result with
  | true, Some last_order =>
      let! next := lift (encodeSignedCursor
        (mkCursor customerID status (CreatedAt last_order) (ID last_order)) (cursorSecret s)) in
      ret (result, next)
  | _, _ => ret (result, "")
  end.

(** ** Create *)

(** [_ = json.Unmarshal(body, &accepted)] over the values already there: a
    field of the wrong type keeps them. *)
Definition merge_accepted (body : option json) (status : string) (createdAt : Time) : string * Time :=
  match body with
  | Some (JObj fs) =>
      (default status (dec_field dec_string status "status" fs),
       default createdAt (dec_field dec_time createdAt "created_at" fs))
  | _ => (status, createdAt)
  end.

Fixpoint insert_items (orderID : string) (index : Z) (items : list Item) : Prog unit :=
  match items with
  | [] => ret tt
  | item :: rest =>
      let! _ := mapE mapError (exec (Queries.InsertOrderItem orderID (wrap_i32 (index + 1))
                                       (ProductID item) (Quantity item))) in
      insert_items orderID (index + 1) rest
  end.

(** The key was used before: the stored response, or a conflict. *)
Definition create_replay (actorID operation key requestHash : string) : Prog (outcome CreateResult) :=
  let! record := mapE mapError (exec (Queries.GetIdempotency actorID operation key)) in
  deny negb (d_request_hash record =? requestHash)%string with ErrIdempotencyConflict in
  let! replayed := mapE mapError (loadOrder (default "" (d_resource_id record))) in
  let '(status, at_) := merge_accepted (d_response_body record) (OStatus replayed) (CreatedAt replayed) in
  ret (CommitThen (mkCreateResult replayed true status at_)).

(** The key is new: the order, its lines, the saga and the two messages. *)
Definition create_new (order : Order) : Prog (outcome CreateResult) :=
  let! _ := mapE mapError (exec (Queries.InsertOrder (ID order) (CustomerID order) (Currency order)
              None (OStatus order) (wrap_i64 (Version order)) (CreatedAt order))) in
  let! _ := insert_items (ID order) 0 (Items order) in
  let! u1 := newUUID in
  let sagaID := "sag_" +:+ u1 in
  let! _ := mapE mapError (exec (Queries.InsertSaga sagaID (ID order)
              "INVENTORY_RESERVATION_PENDING" (CreatedAt order))) in
  let! u2 := newUUID in
  let createdEventID := "evt_" +:+ u2 in
  let! u3 := newUUID in
  let! payload := lift (eventPayloadWithID createdEventID "commerce.order.created.v1" order sagaID
              ("cmd_" +:+ u3) ("ord_" +:+ TrimPrefix (ID order) "ord_" +:+ ":create") "") in
  let! u4 := newUUID in
  let! _ := mapE mapError (exec (Queries.InsertOutbox u4 "commerce.order.events.v1" (ID order)
              "commerce.order.created.v1" "order" (ID order) payload content_type_header
              (CreatedAt order))) in
  let! reserve := commandPayload "commerce.inventory.reserve.v1" order sagaID createdEventID
              (ID order +:+ ":reserve")
              [("order_id", jstr (ID order)); ("customer_id", jstr (CustomerID order));
               ("currency", jstr (Currency order)); ("items", orderItemsPayload order)] in
  let! _ := insertOutbox "commerce.inventory.reserve.v1" (ID order) reserve (CreatedAt order) in
  ret (CommitThen (mkCreateResult order false (OStatus order) (CreatedAt order))).

Definition Create (actorID : string) (order : Order) (operation key requestHash : string)
  : Prog CreateResult :=
  in_tx mapError (
    let! body := lift (jaccepted (ID order) (OStatus order) (CreatedAt order)) in
    let! inserted := mapE mapError (exec (Queries.InsertIdempotency actorID operation key requestHash
                       (Some (ID order)) (Some 202) (Some body) (CreatedAt order)
                       (Add (CreatedAt order) (48 * Hour)))) in
    if inserted =? 0 then create_replay actorID operation key requestHash
    else create_new order).

(** ** Compensation and cancellation *)

Definition insertCompensationCommands (order : Order) (sagaID causation failedEvent : string)
    (at_ : Time) : Prog unit :=
  let! _ :=
    match ReservationID order with
    | Some r =>
        if ((failedEvent =? "commerce.payment.failed.v1")%string ||
            (failedEvent =? "commerce.fulfillment.failed.v1")%string ||
            (failedEvent =? "commerce.order.cancellation_requested.v1")%string) &&
           ValidReservationID r
        then
          let! release := commandPayload "commerce.inventory.release.v1" order sagaID causation
                            (ID order +:+ ":release-inventory")
                            [("order_id", jstr (ID order)); ("reservation_id", jstr r)] in
          insertOutbox "commerce.inventory.release.v1" (ID order) release at_
        else ret tt
    | None => ret tt
    end in
  match PaymentID order, TotalMinor order with
  | Some p, Some total =>
      if ((failedEvent =? "commerce.fulfillment.failed.v1")%string ||
          (failedEvent =? "commerce.order.cancellation_requested.v1")%string) &&
         ValidPaymentID p
      then
        let! refund := commandPayload "commerce.payment.refund.v1" order sagaID causation
                         (ID order +:+ ":refund-payment")
                         [("order_id", jstr (ID order)); ("payment_id", jstr p);
                          ("amount_minor", jint total); ("currency", jstr (Currency order))] in
        insertOutbox "commerce.payment.refund.v1" (ID order) refund at_
      else ret tt
  | _, _ => ret tt
  end.

Definition cancel_replay (actorID operation key requestHash : string) : Prog (outcome Order) :=
  let! record := mapE mapError (exec (Queries.GetIdempotency actorID operation key)) in
  deny negb (d_request_hash record =? requestHash)%string with ErrIdempotencyConflict in
  let! order := loadOrder (default "" (d_resource_id record)) in
  ret (CommitThen order).

(** [body, _ := json.Marshal(...)]: a failed encoding is a NULL column. *)
Definition json_or_empty (r : result goerr json) : option json :=
  match r with Ok j => Some j | Err _ => None end.

Definition cancel_new (actorID orderID operation key reason : string) (expectedVersion : Z) (at_ : Time)
  : Prog (outcome Order) :=
  let! row := mapE mapError (exec (Queries.UpdateOrderCancellation orderID (wrap_i64 expectedVersion) at_)) in
  let! saga := mapE mapError (exec (Queries.GetSagaByOrderID orderID)) in
  let sagaID := g_id saga in
  let! u1 := newUUID in
  let eventID := "evt_" +:+ u1 in
  let body := json_or_empty (jaccepted (o_id row) (o_status row) (o_updated_at row)) in
  let! _ := mapE mapError (exec (Queries.UpdateIdempotencyResponse actorID operation key
              (Some (o_id row)) body)) in
  let! u2 := newUUID in
  let! payload := lift (eventPayloadWithID eventID "commerce.order.cancellation_requested.v1"
              (cancellationRowToOrder row) sagaID ("cmd_" +:+ u2)
              ("ord_" +:+ TrimPrefix orderID "ord_" +:+ ":cancel") reason) in
  let! u3 := newUUID in
  let! _ := mapE mapError (exec (Queries.InsertOutbox u3 "commerce.order.events.v1" orderID
              "commerce.order.cancellation_requested.v1" "order" orderID payload
              (reason_header reason) at_)) in
  let! _ := mapE mapError (exec (Queries.UpdateSagaPhase sagaID "CANCELLATION_REQUESTED" at_)) in
  let! _ := insertCompensationCommands (cancellationRowToOrder row) sagaID eventID
              "commerce.order.cancellation_requested.v1" at_ in
  ret (CommitThen (cancellationRowToOrder row)).

Definition RequestCancellation (actorID orderID operation key requestHash reason : string)
    (expectedVersion : Z) (at_ : Time) : Prog Order :=
  in_tx mapError (
    let! inserted := mapE mapError (exec (Queries.InsertIdempotency actorID operation key requestHash
                       None (Some 202) None at_ (Add at_ (48 * Hour)))) in
    if inserted =? 0 then cancel_replay actorID operation key requestHash
    else cancel_new actorID orderID operation key reason expectedVersion at_).

(** ** Outbox *)

Definition PendingOutbox (limit : Z) : Prog (list OutboxEvent) :=
  let! rows := mapE mapError (stmt (Queries.ListPendingOutbox (wrap_i32 limit))) in
  ret (map outbox_event rows).

Definition ClaimPendingOutbox (owner : string) (limit : Z) (until : Time) : Prog (list OutboxEvent) :=
  let! rows := mapE mapError (stmt (Queries.ClaimPendingOutbox (Some owner) (Some until) (wrap_i32 limit))) in
  ret (map outbox_event rows).

Definition MarkOutboxPublished (id : string) (at_ : Time) : Prog unit :=
  mapE mapError (exec (Queries.MarkOutboxPublished id (Some at_))).
Definition MarkOutboxFailed (id reason : string) (retryAt : Time) : Prog unit :=
  mapE mapError (exec (Queries.MarkOutboxFailed id (Some reason) retryAt)).
Definition PendingOutboxCount : Prog Z := mapE mapError (exec Queries.CountPendingOutbox).

(** ** Inbox failures *)

Record factEnvelope := mkFact {
  f_EventID : string;
  f_EventType : string;
  f_AggregateID : string;
  f_AggregateType : string;
  f_AggregateVersion : Z;
  f_SagaID : string;
  f_CorrelationID : string;
  f_CausationID : string;
  f_OperationID : string;
  f_Producer : string;
  f_SchemaVersion : Z;
  f_OccurredAt : Time;
  f_Data : gmap string json
}.

Definition dec_fact (fs : list (string * json)) : option factEnvelope :=
  eventID ← dec_field dec_string "" "event_id" fs;
  eventType ← dec_field dec_string "" "event_type" fs;
  aggregateID ← dec_field dec_string "" "aggregate_id" fs;
  aggregateType ← dec_field dec_string "" "aggregate_type" fs;
  aggregateVersion ← dec_field dec_uint64 0 "aggregate_version" fs;
  sagaID ← dec_field dec_string "" "saga_id" fs;
  correlationID ← dec_field dec_string "" "correlation_id" fs;
  causationID ← dec_field dec_string "" "causation_id" fs;
  operationID ← dec_field dec_string "" "operation_id" fs;
  producer ← dec_field dec_string "" "producer" fs;
  schemaVersion ← dec_field dec_int64 0 "schema_version" fs;
  occurredAt ← dec_field dec_time zeroTime "occurred_at" fs;
  data ← dec_field dec_rawmap ∅ "data" fs;
  Some (mkFact eventID eventType aggregateID aggregateType aggregateVersion sagaID correlationID
          causationID operationID producer schemaVersion occurredAt data).

Definition parse_fact (payload : string) : option factEnvelope := unmarshal_struct dec_fact payload.

Definition RecordFactFailure (consumerGroup payload reason : string) (retryAt : Time)
  : Prog (bool * Z) :=
  match parse_fact payload with
  | None => ret (true, 0)
  | Some envelope =>
      if (f_EventID envelope =? "")%string || (f_EventType envelope =? "")%string ||
         (f_CorrelationID envelope =? "")%string
      then ret (true, 0)
      else
        in_tx mapError (
          let! now := timeNow in
          let! row := mapE mapError (exec (Queries.RecordInboxFailure consumerGroup
                        (f_EventID envelope) (f_EventType envelope) (HexEncode (sha256 payload))
                        (UTC now) (f_CorrelationID envelope) (nullString (f_CausationID envelope))
                        (Some (take_string 512 reason)) (Some retryAt))) in
          ret (CommitThen (8 <=? fst row, fst row)))
  end.

Definition MarkFactDeadLetter (consumerGroup messageID reason : string) : Prog unit :=
  mapE mapError (exec (Queries.MarkInboxDeadLetter consumerGroup messageID (Some reason))).
End Store.
