(* ===== verification/OrdersSaga.v ===== *)
(** * Orders: processing the facts of the saga

    [Store.ProcessFact] and the handlers it dispatches to, in
    [apps/orders/internal/adapters/outbound/postgres/store.go]. *)
From Stdlib Require Import ZArith Lia Ascii String.
From stdpp Require Import base gmap strings list pretty.
From S2P Require Import Prelude GoStrings GoErrors GoTime GoJson GoBase64 GoCrypto OrdersDomain.
From S2P Require Import Tx OrdersTables OrdersPorts OrdersQuote OrdersStore.

Open Scope string_scope.
Open Scope Z_scope.
Open Scope go_scope.

Definition InventoryReserved := "commerce.inventory.reserved.v1".
Definition InventoryRejected := "commerce.inventory.rejected.v1".
Definition InventoryReleasedFact := "commerce.inventory.released.v1".
Definition PaymentAuthorized := "commerce.payment.authorized.v1".
Definition PaymentFailed := "commerce.payment.failed.v1".
Definition PaymentRefundedFact := "commerce.payment.refunded.v1".
Definition FulfillmentCompleted := "commerce.fulfillment.completed.v1".
Definition FulfillmentFailed := "commerce.fulfillment.failed.v1".
Definition CancellationRequested := "commerce.order.cancellation_requested.v1".

Definition validFactIdentity (e : factEnvelope) : bool :=
  let t := f_EventType e in
  if (t =? InventoryReserved)%string || (t =? InventoryRejected)%string ||
     (t =? InventoryReleasedFact)%string
  then (f_AggregateType e =? "inventory")%string && (f_Producer e =? "inventory")%string
  else if (t =? PaymentAuthorized)%string || (t =? PaymentFailed)%string ||
          (t =? PaymentRefundedFact)%string
  then (f_AggregateType e =? "payment")%string && (f_Producer e =? "payments")%string
  else if (t =? FulfillmentCompleted)%string || (t =? FulfillmentFailed)%string
  then (f_AggregateType e =? "fulfillment")%string && (f_Producer e =? "fulfillment")%string
  else false.

Section Saga.
Context `{GoLib} `{Crypto} `{Env} `{Pg} `{KeySetHTTP}.

Definition rawString (value : option json) : string :=
  match value with Some v => default "" (dec_string "" v) | None => "" end.
Definition rawInt64 (value : option json) : result goerr Z :=
  match v ← value; dec_int64 0 v with
  | Some z => Ok z
  | None => Err (conflict "invalid number")
  end.

(** ** Writes guarded by the version *)

Definition updateWorkflowAtVersion (order : Order) (status : Status)
    (failure reservation payment shipment : string) (total : option Z) (expectedVersion : Z)
    (now : Time) : Prog unit :=
  if negb (status =? OStatus order)%string && IsTerminal (OStatus order) then ret tt
  else
    let! rows := mapE mapError (exec (Queries.UpdateOrderWorkflowState (ID order) status
                   (nullString failure) (nullString reservation) (nullString payment)
                   (nullString shipment) total now (wrap_i64 expectedVersion))) in
    guard rows =? 1 else ErrConflict in ret tt.

Definition updateWorkflow (order : Order) (status : Status)
    (failure reservation payment shipment : string) (total : option Z) (now : Time) : Prog unit :=
  updateWorkflowAtVersion order status failure reservation payment shipment total (Version order) now.

Definition markInventoryReleased (order : Order) (now : Time) : Prog Order :=
  if InventoryReleased order then ret order
  else
    let! rows := mapE mapError (exec (Queries.MarkInventoryReleased (ID order) now
                   (wrap_i64 (Version order)))) in
    guard rows =? 1 else ErrConflict in
    ret (bump (with_flags order true (PaymentRefunded order) now)).

Definition markPaymentRefunded (order : Order) (now : Time) : Prog Order :=
  if PaymentRefunded order then ret order
  else
    let! rows := mapE mapError (exec (Queries.MarkPaymentRefunded (ID order) now
                   (wrap_i64 (Version order)))) in
    guard rows =? 1 else ErrConflict in
    ret (bump (with_flags order (InventoryReleased order) true now)).

(** Both compensations are done, or were never needed. *)
Definition compensated (order : Order) : bool :=
  match ReservationID order with Some _ => InventoryReleased order | None => true end &&
  match PaymentID order with Some _ => PaymentRefunded order | None => true end.

Definition maybeCompleteCancellation (order : Order) (sagaID causation : string) (now : Time)
  : Prog unit :=
  if negb (OStatus order =? StatusCancelReq)%string then ret tt
  else if negb (compensated order) then ret tt
  else
    let! _ := updateWorkflow order StatusCancelled "" "" "" "" (TotalMinor order) now in
    let order := bump order in
    let! payload := eventPayloadFor "commerce.order.cancelled.v1" order sagaID causation
                      (ID order +:+ ":cancelled")
                      [("order_id", jstr (ID order)); ("reason_code", jstr "CUSTOMER_REQUESTED")] in
    let! _ := insertOutbox "commerce.order.cancelled.v1" (ID order) payload now in
    mapE mapError (exec (Queries.UpdateSagaPhase sagaID "CANCELLED" now)).

(** ** Inventory reserved *)

Definition dec_quoteItem (fs : list (string * json)) : option quoteItem :=
  productID ← dec_field dec_string "" "product_id" fs;
  quantity ← dec_field dec_int32 0 "quantity" fs;
  unitPrice ← dec_field dec_int64 0 "unit_price_minor" fs;
  lineTotal ← dec_field dec_int64 0 "line_total_minor" fs;
  Some (mkQuoteItem productID quantity unitPrice lineTotal).

(** The loop over the quote's lines: the price and the quantity of each product. *)
Fixpoint quote_prices (prices quantities : gmap string Z) (lines : list quoteItem)
  : result goerr (gmap string Z * gmap string Z) :=
  match lines with
  | [] => Ok (prices, quantities)
  | line :: rest =>
      reject negb (ValidProductID (qi_ProductID line)) || (qi_Quantity line <? 1) ||
             (qi_UnitPriceMinor line <? 0) || (qi_LineTotalMinor line <? 0)
        with conflict "invalid quote line" in
      reject bool_decide (is_Some (prices !! qi_ProductID line))
        with conflict "duplicate quote product" in
      reject negb (qi_UnitPriceMinor line =? 0) &&
             (Z.quot (2 ^ 63 - 1) (qi_UnitPriceMinor line) <? qi_Quantity line)
        with conflict "quote line overflow" in
      reject negb (qi_LineTotalMinor line =? wrap_i64 (qi_UnitPriceMinor line * qi_Quantity line))
        with conflict "quote line total mismatch" in
      quote_prices (<[qi_ProductID line := qi_UnitPriceMinor line]> prices)
        (<[qi_ProductID line := qi_Quantity line]> quantities) rest
  end.

Definition quantities_match (quantities : gmap string Z) (items : list Item) : bool :=
  forallb (fun item => default 0 (quantities !! ProductID item) =? Quantity item) items.

Definition update_item_quote (orderID : string) (item : Item) : Prog unit :=
  mapE mapError (exec (Queries.UpdateOrderItemQuote orderID (ProductID item) (UnitPriceMinor item)
                         (LineTotalMinor item) (QuoteID item) (QuoteVersion item))).

(** [order.ApplyQuote]: the priced order or the error. *)
Definition apply_quote (order : Order) (quoteID : string) (quoteVersion : Z) (prices : gmap string Z)
    (now : Time) : result goerr Order :=
  match ApplyQuote (Some order) quoteID quoteVersion prices now with
  | (Some order', None) => Ok order'
  | (_, Some e) => Err e
  | (None, None) => Err ErrInvalidTransition
  end.

(** The quote of a PENDING order: checked against the order, verified, applied
    and stored, and the payment requested. *)
Definition reserve_pending (s : Store) (order : Order) (envelope : factEnvelope)
    (reservationID : string) (now : Time) : Prog unit :=
  let data k := f_Data envelope !! k in
  let expectedVersion := Version order in
  let currency := rawString (data "currency") in
  deny negb (currency =? Currency order)%string with conflict "quote currency mismatch" in
  let quoteID := rawString (data "quote_id") in
  let! quoteVersion := lift (rawInt64 (data "quote_version")) in
  deny negb (f_OperationID envelope =? (ID order +:+ ":reserve"))%string
    with conflict "reservation operation mismatch" in
  let quoteExpiresAt := rawString (data "quote_expires_at") in
  let! lines := lift (match v ← data "items"; dec_slice dec_quoteItem v with
                      | Some lines => if Nat.eqb (length lines) (length (Items order)) then Ok lines
                                      else Err (conflict "quote items mismatch")
                      | None => Err (conflict "quote items mismatch")
                      end) in
  let quote := mkSignedQuote (ID order) reservationID quoteID quoteVersion currency lines quoteExpiresAt in
  let! _ := Verify (quoteVerifier s) quote (rawString (data "quote_key_id"))
              (rawString (data "quote_signature")) now in
  let! maps := lift (quote_prices ∅ ∅ lines) in
  let '(prices, quantities) := maps in
  guard quantities_match quantities (Items order) else conflict "quote quantity mismatch" in
  let! order := lift (apply_quote order quoteID quoteVersion prices now) in
  let! _ := for_each (update_item_quote (ID order)) (Items order) in
  let order := with_version order expectedVersion in
  let! _ := updateWorkflow order StatusPending "" reservationID "" "" (TotalMinor order) now in
  let order := with_reservation (bump order) reservationID in
  let! command := commandPayload "commerce.payment.authorize.v1" order (f_SagaID envelope)
                    (f_EventID envelope) (ID order +:+ ":authorize-payment")
                    [("order_id", jstr (ID order)); ("amount_minor", jint (default 0 (TotalMinor order)));
                     ("currency", jstr (Currency order))] in
  insertOutbox "commerce.payment.authorize.v1" (ID order) command now.

Definition applyInventoryReserved (s : Store) (order : Order) (envelope : factEnvelope) (now : Time)
  : Prog unit :=
  if IsTerminal (OStatus order) then ret tt
  else
    let reservationID := rawString (f_Data envelope !! "reservation_id") in
    guard ValidReservationID reservationID else conflict "reservation reference is invalid" in
    deny negb (f_OperationID envelope =? (ID order +:+ ":reserve"))%string
      with conflict "reservation operation mismatch" in
    if (OStatus order =? StatusCancelReq)%string then
      let order := with_reservation order reservationID in
      let! _ := updateWorkflow order StatusCancelReq "" reservationID "" "" (TotalMinor order) now in
      insertCompensationCommands (bump order) (f_SagaID envelope) (f_EventID envelope)
        CancellationRequested now
    else if negb (OStatus order =? StatusPending)%string then ret tt
    else reserve_pending s order envelope reservationID now.

(** ** Payment authorized *)

Definition amount_matches (order : Order) (envelope : factEnvelope) : bool :=
  match rawInt64 (f_Data envelope !! "amount_minor"), TotalMinor order with
  | Ok amount, Some total =>
      (amount =? total) && (rawString (f_Data envelope !! "currency") =? Currency order)%string
  | _, _ => false
  end.

(** The order is confirmed and its shipment requested. *)
Definition confirm_paid (order : Order) (envelope : factEnvelope) (paymentID : string) (now : Time)
  : Prog unit :=
  let! _ := updateWorkflow order StatusConfirmed "" "" paymentID "" (TotalMinor order) now in
  let order := with_payment (bump order) paymentID in
  let reservation := default "" (ReservationID order) in
  deny (reservation =? "")%string with conflict "reservation reference missing" in
  let! confirmed := eventPayloadFor "commerce.order.confirmed.v1" order (f_SagaID envelope)
                      (f_EventID envelope) (ID order +:+ ":confirm")
                      [("order_id", jstr (ID order)); ("payment_id", jstr paymentID);
                       ("reservation_id", jstr reservation)] in
  let! _ := insertOutbox "commerce.order.confirmed.v1" (ID order) confirmed now in
  let! command := commandPayload "commerce.fulfillment.create.v1" order (f_SagaID envelope)
                    (f_EventID envelope) (ID order +:+ ":create-fulfillment")
                    [("order_id", jstr (ID order)); ("customer_id", jstr (CustomerID order));
                     ("reservation_id", jstr reservation); ("currency", jstr (Currency order));
                     ("items", orderItemsPayload order)] in
  insertOutbox "commerce.fulfillment.create.v1" (ID order) command now.

Definition applyPaymentAuthorized (order : Order) (envelope : factEnvelope) (now : Time) : Prog unit :=
  if IsTerminal (OStatus order) || (OStatus order =? StatusConfirmed)%string then ret tt
  else
    guard amount_matches order envelope else conflict "payment amount mismatch" in
    let paymentID := rawString (f_Data envelope !! "payment_id") in
    guard ValidPaymentID paymentID else conflict "payment reference missing" in
    if (OStatus order =? StatusCancelReq)%string then
      let order := with_payment order paymentID in
      let! _ := updateWorkflow order StatusCancelReq "" "" paymentID "" (TotalMinor order) now in
      insertCompensationCommands (bump order) (f_SagaID envelope) (f_EventID envelope)
        CancellationRequested now
    else confirm_paid order envelope paymentID now.

(** ** Compensations done *)

Definition applyInventoryReleased (order : Order) (envelope : factEnvelope) (now : Time) : Prog unit :=
  deny match ReservationID order with
       | Some r => negb (rawString (f_Data envelope !! "reservation_id") =? r)%string
       | None => true
       end
    with conflict "reservation reference mismatch" in
  if IsTerminal (OStatus order) && InventoryReleased order then ret tt
  else
    let! order := markInventoryReleased order now in
    maybeCompleteCancellation order (f_SagaID envelope) (f_EventID envelope) now.

Definition applyPaymentRefunded (order : Order) (envelope : factEnvelope) (now : Time) : Prog unit :=
  deny match PaymentID order with
       | Some p => negb (rawString (f_Data envelope !! "payment_id") =? p)%string
       | None => true
       end
    with conflict "payment reference mismatch" in
  if IsTerminal (OStatus order) && PaymentRefunded order then ret tt
  else
    let! order := markPaymentRefunded order now in
    maybeCompleteCancellation order (f_SagaID envelope) (f_EventID envelope) now.

(** ** Failures and completion *)

Definition applyFailure (order : Order) (envelope : factEnvelope) (now : Time) : Prog unit :=
  if (OStatus order =? StatusCancelReq)%string then
    let! order :=
      (if (f_EventType envelope =? InventoryRejected)%string then markInventoryReleased order now
       else if (f_EventType envelope =? PaymentFailed)%string then markPaymentRefunded order now
       else ret order) in
    let! _ := insertCompensationCommands order (f_SagaID envelope) (f_EventID envelope)
                (f_EventType envelope) now in
    maybeCompleteCancellation order (f_SagaID envelope) (f_EventID envelope) now
  else if IsTerminal (OStatus order) then ret tt
  else
    let reason0 := rawString (f_Data envelope !! "reason_code") in
    let reason := if (reason0 =? "")%string then "DOWNSTREAM_REJECTED" else reason0 in
    let! _ := updateWorkflow order StatusFailed reason "" "" "" (TotalMinor order) now in
    let order := bump order in
    let! failed := eventPayloadFor "commerce.order.failed.v1" order (f_SagaID envelope)
                     (f_EventID envelope) (ID order +:+ ":failed")
                     [("order_id", jstr (ID order)); ("reason_code", jstr reason);
                      ("failure_class", jstr "dependency")] in
    let! _ := insertOutbox "commerce.order.failed.v1" (ID order) failed now in
    insertCompensationCommands order (f_SagaID envelope) (f_EventID envelope) (f_EventType envelope) now.

Definition applyCompleted (order : Order) (envelope : factEnvelope) (now : Time) : Prog unit :=
  if IsTerminal (OStatus order) then ret tt
  else
    let shipmentID := rawString (f_Data envelope !! "shipment_id") in
    guard ValidShipmentID shipmentID else conflict "shipment reference missing" in
    let! _ := updateWorkflow order StatusCompleted "" "" "" shipmentID (TotalMinor order) now in
    let order := bump order in
    let! payload := eventPayloadFor "commerce.order.completed.v1" order (f_SagaID envelope)
                      (f_EventID envelope) (ID order +:+ ":complete")
                      [("order_id", jstr (ID order)); ("shipment_id", jstr shipmentID)] in
    insertOutbox "commerce.order.completed.v1" (ID order) payload now.

(** ** ProcessFact *)

Definition dispatch (s : Store) (order : Order) (envelope : factEnvelope) (now : Time) : Prog unit :=
  let t := f_EventType envelope in
  if (t =? InventoryReserved)%string then applyInventoryReserved s order envelope now
  else if (t =? InventoryReleasedFact)%string then applyInventoryReleased order envelope now
  else if (t =? PaymentRefundedFact)%string then applyPaymentRefunded order envelope now
  else if (t =? InventoryRejected)%string || (t =? PaymentFailed)%string ||
          (t =? FulfillmentFailed)%string then applyFailure order envelope now
  else if (t =? PaymentAuthorized)%string then applyPaymentAuthorized order envelope now
  else if (t =? FulfillmentCompleted)%string then applyCompleted order envelope now
  else fail (conflict ("unsupported event " +:+ t)).

Definition valid_envelope (e : factEnvelope) : bool :=
  negb ((f_EventID e =? "")%string || (f_AggregateID e =? "")%string ||
        (f_EventType e =? "")%string || (f_AggregateType e =? "")%string ||
        (f_Producer e =? "")%string || negb (f_SchemaVersion e =? 1)).

Definition fact_order (e : factEnvelope) : string := rawString (f_Data e !! "order_id").

Definition settled (status : string) : bool := (status =? "PROCESSED")%string || (status =? "DLQ")%string.

(** The transaction of one accepted fact. *)
Definition process_tx (s : Store) (consumerGroup payload : string) (envelope : factEnvelope)
  : Prog (outcome unit) :=
  let! received := timeNow in
  let! inserted := mapE mapError (exec (Queries.InsertInbox consumerGroup (f_EventID envelope)
                     (f_EventType envelope) (HexEncode (sha256 payload)) (UTC received)
                     (f_CorrelationID envelope) (nullString (f_CausationID envelope)))) in
  let! done :=
    (if inserted =? 0 then
       let! record := mapE mapError (exec (Queries.GetInbox consumerGroup (f_EventID envelope))) in
       ret (settled (n_status record))
     else ret false) in
  if done then ret (Return tt)
  else
    let! order := loadOrder (fact_order envelope) in
    let! now := timeNow in
    let now := UTC now in
    let! _ := dispatch s order envelope now in
    let! _ := mapE mapError (exec (Queries.MarkInboxProcessed consumerGroup (f_EventID envelope)
                (Some now))) in
    ret (CommitThen tt).

Definition ProcessFact (s : Store) (consumerGroup payload : string) : Prog unit :=
  match parse_fact payload with
  | None => fail (conflict "invalid event envelope")
  | Some envelope =>
      guard valid_envelope envelope else conflict "invalid event envelope" in
      let orderID := fact_order envelope in
      guard ValidOrderID orderID && (f_CorrelationID envelope =? orderID)%string &&
            validFactIdentity envelope
        else conflict "invalid fact identity" in
      in_tx mapError (process_tx s consumerGroup payload envelope)
  end.
End Saga.
