(* ===== verification/OrdersHistory.v ===== *)
(** * Orders: the tables over time

    What every operation of the store does to the rows it finds, on success,
    on failure and when a reply is lost: orders move along the status graph
    with growing versions, totals and compensation flags never go back, the
    outbox and the idempotency records are append-only. *)
From Stdlib Require Import ZArith Lia Ascii String.
From stdpp Require Import base gmap strings list relations.
From S2P Require Import Prelude GoStrings GoErrors GoTime GoJson GoBase64 GoCrypto OrdersDomain.
From S2P Require Import Tx OrdersTables OrdersPorts OrdersQuote OrdersStore OrdersSaga.

Open Scope string_scope.
Open Scope Z_scope.
Open Scope go_scope.

(** ** How rows may change *)

(** The edges of the stored status: those of the aggregate, and the completion
    of an order that is not confirmed, which [ProcessFact] lets through. *)
Definition store_edge (from to : Status) : Prop :=
  allowedTransition from to = true \/
  (to = StatusCompleted /\ IsTerminal from = false).

Record order_evolves (r r' : OrderRow) : Prop := {
  oe_id : o_id r' = o_id r;
  oe_customer : o_customer_id r' = o_customer_id r;
  oe_currency : o_currency r' = o_currency r;
  oe_created : o_created_at r' = o_created_at r;
  oe_status : rtc store_edge (o_status r) (o_status r');
  oe_version : r' = r \/ o_version r < o_version r';
  oe_total : forall t, o_total_minor r = Some t -> o_total_minor r' = Some t;
  oe_released : o_inventory_released r = true -> o_inventory_released r' = true;
  oe_refunded : o_payment_refunded r = true -> o_payment_refunded r' = true
}.

Definition line_evolves (r r' : ItemRow) : Prop :=
  i_order_id r' = i_order_id r /\ i_line_number r' = i_line_number r /\
  i_product_id r' = i_product_id r /\ i_quantity r' = i_quantity r.

(** A message is never altered, and a published one is final. *)
Record outbox_evolves (r r' : OutboxRow) : Prop := {
  xe_id : x_id r' = x_id r;
  xe_topic : x_topic r' = x_topic r;
  xe_key : x_partition_key r' = x_partition_key r;
  xe_type : x_message_type r' = x_message_type r;
  xe_aggregate_type : x_aggregate_type r' = x_aggregate_type r;
  xe_aggregate_id : x_aggregate_id r' = x_aggregate_id r;
  xe_payload : x_payload r' = x_payload r;
  xe_headers : x_headers r' = x_headers r;
  xe_created : x_created_at r' = x_created_at r;
  xe_attempts : x_attempts r <= x_attempts r';
  xe_published : x_published_at r <> None -> r' = r
}.

Definition idem_evolves (r r' : IdemRow) : Prop :=
  d_request_hash r' = d_request_hash r /\ d_created_at r' = d_created_at r /\
  d_expires_at r' = d_expires_at r.

Definition inbox_evolves (r r' : InboxRow) : Prop :=
  n_payload_hash r' = n_payload_hash r /\ n_received_at r' = n_received_at r /\
  n_attempts r <= n_attempts r'.

Definition saga_evolves (r r' : SagaRow) : Prop :=
  g_id r' = g_id r /\ g_order_id r' = g_order_id r /\ g_version r <= g_version r'.

(** A cancelled order holds no reservation that was not released and no
    payment that was not refunded. *)
Definition row_compensated (r : OrderRow) : Prop :=
  (o_reservation_id r <> None -> o_inventory_released r = true) /\
  (o_payment_id r <> None -> o_payment_refunded r = true).

(** Rows are stored under their own id, satisfy the CHECK constraints, and are
    compensated when cancelled. *)
Definition rows_ok (d : DB) : Prop :=
  forall id r, orders d !! id = Some r ->
    o_id r = id /\ order_row_ok r = true /\ (o_status r = StatusCancelled -> row_compensated r).

(** Lines satisfy the CHECK constraints, and an order has no product twice. *)
Definition lines_ok (items : list ItemRow) : Prop :=
  Forall (fun r => item_row_ok r = true) items /\
  NoDup (map (fun r => (i_order_id r, i_product_id r)) items).

Record db_evolves (d d' : DB) : Prop := {
  de_rows_ok : rows_ok d -> rows_ok d';
  de_lines_ok : lines_ok (order_items d) -> lines_ok (order_items d');
  de_orders : map_evolves order_evolves (orders d) (orders d');
  de_lines : list_evolves line_evolves (order_items d) (order_items d');
  de_sagas : map_evolves saga_evolves (saga_instances d) (saga_instances d');
  de_inbox : map_evolves inbox_evolves (inbox_messages d) (inbox_messages d');
  de_outbox : NoDup (map x_id (outbox_events d)) ->
    NoDup (map x_id (outbox_events d')) /\
    list_evolves outbox_evolves (outbox_events d) (outbox_events d');
  de_idem : map_evolves idem_evolves (idempotency_records d) (idempotency_records d')
}.

#[export] Instance order_evolves_refl : Reflexive order_evolves.
Proof. intros r; constructor; auto using rtc_refl. Qed.
#[export] Instance order_evolves_trans : Transitive order_evolves.
Proof.
  intros r1 r2 r3 [] []; constructor; try congruence; eauto.
  { etransitivity; eauto. }
  destruct oe_version0 as [->|]; [auto|]. destruct oe_version1 as [->|]; [auto|right; lia].
Qed.
#[export] Instance line_evolves_refl : Reflexive line_evolves.
Proof. intros r; unfold line_evolves; auto. Qed.
#[export] Instance line_evolves_trans : Transitive line_evolves.
Proof. intros r1 r2 r3; unfold line_evolves; naive_solver congruence. Qed.
#[export] Instance outbox_evolves_refl : Reflexive outbox_evolves.
Proof. intros r; constructor; auto; lia. Qed.
#[export] Instance outbox_evolves_trans : Transitive outbox_evolves.
Proof.
  intros r1 r2 r3 [] []; constructor; try congruence; try lia.
  intros Hp. specialize (xe_published0 Hp) as ->. auto.
Qed.
#[export] Instance idem_evolves_refl : Reflexive idem_evolves.
Proof. intros r; unfold idem_evolves; auto. Qed.
#[export] Instance idem_evolves_trans : Transitive idem_evolves.
Proof. intros r1 r2 r3; unfold idem_evolves; naive_solver congruence. Qed.
#[export] Instance inbox_evolves_refl : Reflexive inbox_evolves.
Proof. intros r; unfold inbox_evolves; split_and!; auto; lia. Qed.
#[export] Instance inbox_evolves_trans : Transitive inbox_evolves.
Proof. intros r1 r2 r3 (?&?&?) (?&?&?); unfold inbox_evolves; split_and!; try congruence; lia. Qed.
#[export] Instance saga_evolves_refl : Reflexive saga_evolves.
Proof. intros r; unfold saga_evolves; split_and!; auto; lia. Qed.
#[export] Instance saga_evolves_trans : Transitive saga_evolves.
Proof. intros r1 r2 r3 (?&?&?) (?&?&?); unfold saga_evolves; split_and!; try congruence; lia. Qed.
#[export] Instance db_evolves_refl : Reflexive db_evolves.
Proof. intros d; constructor; try reflexivity; auto. intros Hnd; split; [done | reflexivity]. Qed.
#[export] Instance db_evolves_trans : Transitive db_evolves.
Proof.
  intros d1 d2 d3 [] []; constructor; try (etransitivity; eauto; fail); auto.
  intros Hnd. destruct (de_outbox0 Hnd) as [Hnd2 He]. destruct (de_outbox1 Hnd2) as [Hnd3 He'].
  split; [done | etransitivity; eauto].
Qed.

(** The tables but the orders. *)
Definition same_orders (d d' : DB) : Prop := orders d' = orders d.
#[export] Instance same_orders_refl : Reflexive same_orders.
Proof. intros d; reflexivity. Qed.
#[export] Instance same_orders_trans : Transitive same_orders.
Proof. intros d1 d2 d3; unfold same_orders; congruence. Qed.

(** Both: the tables evolve and the orders stay. *)
Definition side_evolves (d d' : DB) : Prop := db_evolves d d' /\ same_orders d d'.
#[export] Instance side_evolves_refl : Reflexive side_evolves.
Proof. intros d; split; reflexivity. Qed.
#[export] Instance side_evolves_trans : Transitive side_evolves.
Proof. intros d1 d2 d3 [] []; split; etransitivity; eauto. Qed.

(** ** What each query does *)

Lemma next_bigint_ok v w : next_bigint v = Ok w -> w = v + 1 /\ v + 1 < 2 ^ 63.
Proof. unfold next_bigint. destruct (Z.ltb_spec (v + 1) (2 ^ 63)); intros [=]; auto. Qed.
Lemma next_integer_ok v w : next_integer v = Ok w -> w = v + 1.
Proof. unfold next_integer. case_match; intros [=]; auto. Qed.
Lemma put_order_ok d id r d' :
  put_order d id r = Ok d' -> d' = set_orders d (<[id := r]> (orders d)) /\ order_row_ok r = true.
Proof. unfold put_order. destruct (order_row_ok r) eqn:?; intros [=]; auto. Qed.

Section Queries_evolve.
Context `{GoLib} `{Pg}.

Ltac side_set :=
  split; [constructor; cbn; try reflexivity; auto; intros; split; auto; reflexivity | reflexivity].
Lemma side_set_idem d m :
  map_evolves idem_evolves (idempotency_records d) m -> side_evolves d (set_idem d m).
Proof. side_set. Qed.
Lemma side_set_inbox d m :
  map_evolves inbox_evolves (inbox_messages d) m -> side_evolves d (set_inbox d m).
Proof. side_set. Qed.
Lemma side_set_sagas d m :
  map_evolves saga_evolves (saga_instances d) m -> side_evolves d (set_sagas d m).
Proof. side_set. Qed.
Lemma side_set_outbox d m :
  (NoDup (map x_id (outbox_events d)) ->
   NoDup (map x_id m) /\ list_evolves outbox_evolves (outbox_events d) m) ->
  side_evolves d (set_outbox d m).
Proof. side_set. Qed.
Lemma side_set_lines d m :
  list_evolves line_evolves (order_items d) m -> (lines_ok (order_items d) -> lines_ok m) ->
  side_evolves d (set_order_items d m).
Proof. side_set. Qed.

(** A new row has nothing to be compared with. *)
Lemma insert_fresh {K V} `{Countable K} (R : relation V) `{!Reflexive R} (m : gmap K V) k v :
  m !! k = None -> map_evolves R m (<[k := v]> m).
Proof. intros Hn. apply map_evolves_insert; [done|]. intros v0; congruence. Qed.

Lemma GetOrder_ok id d d' r :
  Queries.GetOrder id d = Ok (d', r) -> d' = d /\ orders d !! id = Some r.
Proof. unfold Queries.GetOrder. case_match; intros [= -> ->]; auto. Qed.
Lemma GetOrderItems_ok id d d' l : Queries.GetOrderItems id d = Ok (d', l) -> d' = d.
Proof. by intros [= ->]. Qed.

Lemma InsertIdempotency_side a o k h ri rs rb c e d d' n :
  Queries.InsertIdempotency a o k h ri rs rb c e d = Ok (d', n) -> side_evolves d d'.
Proof.
  unfold Queries.InsertIdempotency. case_match; intros [= <- <-]; [reflexivity|].
  apply side_set_idem, insert_fresh; [apply _ | done].
Qed.
Lemma GetIdempotency_side a o k d d' r : Queries.GetIdempotency a o k d = Ok (d', r) -> side_evolves d d'.
Proof. unfold Queries.GetIdempotency. case_match; intros [= <- <-]; reflexivity. Qed.
Lemma UpdateIdempotencyResponse_side a o k ri rb d d' u :
  Queries.UpdateIdempotencyResponse a o k ri rb d = Ok (d', u) -> side_evolves d d'.
Proof.
  unfold Queries.UpdateIdempotencyResponse. case_match eqn:Hl; intros [= <- <-]; [|reflexivity].
  apply side_set_idem, map_evolves_insert; [apply _|].
  intros v0 ?; simplify_eq. unfold idem_evolves; auto.
Qed.
Lemma GetOrder_side id d d' r : Queries.GetOrder id d = Ok (d', r) -> side_evolves d d'.
Proof. intros [-> _]%GetOrder_ok. reflexivity. Qed.
Lemma GetOrderItems_side id d d' l : Queries.GetOrderItems id d = Ok (d', l) -> side_evolves d d'.
Proof. intros ->%GetOrderItems_ok. reflexivity. Qed.
Lemma InsertOrderItem_side o n p q d d' u :
  Queries.InsertOrderItem o n p q d = Ok (d', u) -> side_evolves d d'.
Proof.
  unfold Queries.InsertOrderItem. intros Hq; go_inv Hq.
  apply side_set_lines; [apply list_evolves_app, _|].
  intros [Hok Hnd]. split; [by apply Forall_app; repeat constructor|].
  rewrite map_app. apply NoDup_app. split_and!; [done| |repeat constructor; set_solver].
  intros x Hx [= ->]%list_elem_of_singleton.
  apply list_elem_of_fmap in Hx as (r & [= Ho Hp] & Hr).
  assert (existsb (fun r => (i_order_id r =? o)%string &&
            ((i_line_number r =? n) || (i_product_id r =? p)%string)) (order_items d) = true) as Ht;
    [|congruence].
  apply existsb_exists. exists r. split; [by apply list_elem_of_In|].
  by rewrite <- Ho, <- Hp, !String.eqb_refl, orb_true_r.
Qed.
Lemma UpdateOrderItemQuote_side o p a b c e d d' u :
  Queries.UpdateOrderItemQuote o p a b c e d = Ok (d', u) -> side_evolves d d'.
Proof.
  unfold Queries.UpdateOrderItemQuote. intros Hq; go_inv Hq.
  rename Heqb0 into Hall. rewrite forallb_forall in Hall.
  apply side_set_lines.
  - apply list_evolves_map. intros x _. case_match; [|reflexivity]. unfold line_evolves; auto.
  - intros [Hok Hnd]. split.
    + apply Forall_map, Forall_forall. intros x Hx. pose proof (Hall x) as Hax.
      rewrite Forall_forall in Hok. case_match eqn:Hc; [|by apply Hok].
      by apply Hax, list_elem_of_In.
    + rewrite map_map. erewrite map_ext; [exact Hnd|]. intros x. by case_match.
Qed.
Lemma GetSagaByOrderID_side o d d' r : Queries.GetSagaByOrderID o d = Ok (d', r) -> side_evolves d d'.
Proof. unfold Queries.GetSagaByOrderID. case_match; intros [= <- <-]; reflexivity. Qed.
Lemma InsertSaga_side i o p c d d' u : Queries.InsertSaga i o p c d = Ok (d', u) -> side_evolves d d'.
Proof.
  unfold Queries.InsertSaga. case_bool_decide as Hn; [done|].
  intros Hq; go_inv Hq. apply side_set_sagas, insert_fresh; [apply _|]. by apply eq_None_not_Some.
Qed.
Lemma UpdateSagaPhase_side i p c d d' u :
  Queries.UpdateSagaPhase i p c d = Ok (d', u) -> side_evolves d d'.
Proof.
  unfold Queries.UpdateSagaPhase. destruct (saga_instances d !! i) as [r|] eqn:Hr; [|by intros [= <- _]].
  destruct (next_bigint _) as [v|] eqn:Hv; intros [= <- _]. apply next_bigint_ok in Hv as [-> _].
  apply side_set_sagas, map_evolves_insert; [apply _|].
  intros v0 ?; simplify_eq. unfold saga_evolves; cbn; split_and!; auto; lia.
Qed.
Lemma InsertInbox_side g m t h ra c ca d d' n :
  Queries.InsertInbox g m t h ra c ca d = Ok (d', n) -> side_evolves d d'.
Proof.
  unfold Queries.InsertInbox. case_match; intros [= <- <-]; [reflexivity|].
  apply side_set_inbox, insert_fresh; [apply _ | done].
Qed.
Lemma GetInbox_side g m d d' r : Queries.GetInbox g m d = Ok (d', r) -> side_evolves d d'.
Proof. unfold Queries.GetInbox. case_match; intros [= <- <-]; reflexivity. Qed.
Lemma MarkInboxProcessed_side g m t d d' u :
  Queries.MarkInboxProcessed g m t d = Ok (d', u) -> side_evolves d d'.
Proof.
  unfold Queries.MarkInboxProcessed. case_match eqn:Hl; intros [= <- <-]; [|reflexivity].
  apply side_set_inbox, map_evolves_insert; [apply _|].
  intros v0 ?; simplify_eq. unfold inbox_evolves; cbn; split_and!; auto; lia.
Qed.
Lemma MarkInboxDeadLetter_side g m t d d' u :
  Queries.MarkInboxDeadLetter g m t d = Ok (d', u) -> side_evolves d d'.
Proof.
  unfold Queries.MarkInboxDeadLetter. case_match eqn:Hl; intros [= <- <-]; [|reflexivity].
  apply side_set_inbox, map_evolves_insert; [apply _|].
  intros v0 ?; simplify_eq. unfold inbox_evolves; cbn; split_and!; auto; lia.
Qed.
Lemma RecordInboxFailure_side g m t h ra c ca le na d d' r :
  Queries.RecordInboxFailure g m t h ra c ca le na d = Ok (d', r) -> side_evolves d d'.
Proof.
  unfold Queries.RecordInboxFailure. destruct (inbox_messages d !! (g, m)) as [row|] eqn:Hl.
  - destruct (next_integer _) as [v|] eqn:Hv; intros [= <- _]. apply next_integer_ok in Hv as ->.
    apply side_set_inbox, map_evolves_insert; [apply _|].
    intros v0 ?; simplify_eq. unfold inbox_evolves; cbn; split_and!; auto; lia.
  - intros [= <- _]. apply side_set_inbox, insert_fresh; [apply _ | done].
Qed.
Lemma existsb_not_in (l : list OutboxRow) id :
  existsb (fun r => (x_id r =? id)%string) l = false -> id ∉ map x_id l.
Proof.
  intros He Hin. apply list_elem_of_fmap in Hin as (r & -> & Hr).
  assert (existsb (fun r0 => (x_id r0 =? x_id r)%string) l = true) as Ht; [|congruence].
  apply existsb_exists. exists r. split; [by apply list_elem_of_In | apply String.eqb_refl].
Qed.
Lemma InsertOutbox_side i t k m at_ ai p h c d d' u :
  Queries.InsertOutbox i t k m at_ ai p h c d = Ok (d', u) -> side_evolves d d'.
Proof.
  unfold Queries.InsertOutbox. intros Hq; go_inv Hq.
  apply side_set_outbox. intros Hnd. split; [|apply list_evolves_app, _].
  rewrite map_app. apply NoDup_app. split_and!; [done| |repeat constructor; set_solver].
  intros x Hx. apply existsb_not_in in Heqb. set_solver.
Qed.
Lemma ListPendingOutbox_side n now d d' l :
  Queries.ListPendingOutbox n now d = Ok (d', l) -> side_evolves d d'.
Proof. unfold Queries.ListPendingOutbox. intros Hq; go_inv Hq. reflexivity. Qed.

(** ORDER BY and LIMIT keep rows of the table. *)
Lemma insert_by_elem {A} (le : A -> A -> bool) x l y : y ∈ insert_by le x l <-> y = x \/ y ∈ l.
Proof. induction l as [|z l IH]; cbn; [set_solver|]. case_match; set_solver. Qed.
Lemma order_by_elem {A} (le : A -> A -> bool) l y : y ∈ order_by le l <-> y ∈ l.
Proof. induction l as [|z l IH]; cbn; [done|]. rewrite insert_by_elem. set_solver. Qed.
Lemma limited_ok {A} n (l l' : list A) : limited n l = Ok l' -> l' = take (Z.to_nat n) l /\ 0 <= n.
Proof. unfold limited. destruct (Z.ltb_spec n 0); intros [=]; auto. Qed.

(** Under unique ids, a row whose id was picked from a list of rows is one of
    them. *)
Lemma same_row_by_id (l : list OutboxRow) r r' :
  NoDup (map x_id l) -> r ∈ l -> r' ∈ l -> x_id r = x_id r' -> r = r'.
Proof.
  intros Hnd Hr Hr' Hid. apply list_elem_of_lookup in Hr as [i Hi].
  apply list_elem_of_lookup in Hr' as [j Hj].
  assert (i = j) as <-; [|congruence].
  eapply NoDup_lookup; [exact Hnd| |].
  - rewrite list_lookup_fmap, Hi. cbn. reflexivity.
  - rewrite list_lookup_fmap, Hj. cbn. by rewrite Hid.
Qed.

Lemma claimed_row n now d rows r :
  NoDup (map x_id (outbox_events d)) ->
  limited n (order_by Queries.oldest
    (filter (fun r => Queries.due now r /\ Queries.unleased now r) (outbox_events d))) = Ok rows ->
  r ∈ outbox_events d -> x_id r ∈ map x_id rows -> Queries.due now r /\ Queries.unleased now r.
Proof.
  intros Hnd [-> _]%limited_ok Hr Hid.
  apply list_elem_of_fmap in Hid as (r' & Hid & Hr'%elem_of_take).
  destruct Hr' as (i & Hi & _).
  apply list_elem_of_lookup_2, order_by_elem, list_elem_of_filter in Hi as [Hdue Hin].
  by rewrite (same_row_by_id _ _ _ Hnd Hr Hin Hid).
Qed.

Lemma ClaimPendingOutbox_side o u n now d d' l :
  Queries.ClaimPendingOutbox o u n now d = Ok (d', l) -> side_evolves d d'.
Proof.
  unfold Queries.ClaimPendingOutbox. destruct (limited _ _) as [rows|] eqn:Hl; intros [= <- _].
  apply side_set_outbox. intros Hnd. split.
  - rewrite map_map. erewrite map_ext; [exact Hnd|]. intros r. by case_decide.
  - apply list_evolves_map. intros r Hr. case_decide as Hid; [|reflexivity].
    destruct (claimed_row _ _ _ _ _ Hnd Hl Hr Hid) as [[Hp _] _].
    constructor; cbn; auto; [lia | congruence].
Qed.

Lemma update_pending_evolves id f l l' :
  (forall r r', f r = Ok r' -> x_published_at r = None -> outbox_evolves r r') ->
  Queries.update_pending id f l = Ok l' -> Forall2 outbox_evolves l l'.
Proof.
  intros Hf. revert l'; induction l as [|r l IH]; intros l'; cbn; [by intros [= <-]|].
  destruct (_ && _) eqn:Hc.
  - apply andb_true_iff in Hc as [_ Hp%bool_decide_eq_true].
    destruct (f r) as [r'|] eqn:Hr; [|done].
    destruct (Queries.update_pending id f l) as [rest|]; intros [= <-]. constructor; eauto.
  - destruct (Queries.update_pending id f l) as [rest|]; intros [= <-].
    constructor; [reflexivity | eauto].
Qed.
Lemma set_outbox_forall2 d l :
  Forall2 outbox_evolves (outbox_events d) l -> side_evolves d (set_outbox d l).
Proof.
  intros HF. apply side_set_outbox. intros Hnd. split.
  - assert (map x_id l = map x_id (outbox_events d)) as ->; [|done].
    induction HF as [|r r' l1 l2 [] _ IH]; cbn; [done|]. cbn in Hnd.
    f_equal; [done|]. apply IH. by apply NoDup_cons in Hnd as [_ ?].
  - exists l, []. by rewrite app_nil_r.
Qed.
Lemma MarkOutboxPublished_side i t d d' u :
  Queries.MarkOutboxPublished i t d = Ok (d', u) -> side_evolves d d'.
Proof.
  unfold Queries.MarkOutboxPublished. intros Hq; go_inv Hq. apply set_outbox_forall2.
  eapply update_pending_evolves; [|eassumption]. intros r r'. unfold Queries.publish_row.
  intros Hr Hp; go_inv Hr. apply next_integer_ok in Heqr0 as ->. constructor; cbn; auto; [lia|congruence].
Qed.
Lemma MarkOutboxFailed_side i e t d d' u :
  Queries.MarkOutboxFailed i e t d = Ok (d', u) -> side_evolves d d'.
Proof.
  unfold Queries.MarkOutboxFailed. intros Hq; go_inv Hq. apply set_outbox_forall2.
  eapply update_pending_evolves; [|eassumption]. intros r r'. unfold Queries.fail_row.
  intros Hr Hp; go_inv Hr. apply next_integer_ok in Heqr0 as ->. constructor; cbn; auto; [lia|congruence].
Qed.

(** ** The queries that write orders *)

Lemma set_orders_evolves d id r :
  (forall r0, orders d !! id = Some r0 -> order_evolves r0 r) ->
  (orders d !! id = None -> o_id r = id) -> order_row_ok r = true ->
  (rows_ok d -> o_status r = StatusCancelled -> row_compensated r) ->
  db_evolves d (set_orders d (<[id := r]> (orders d))).
Proof.
  intros Hr Hn Hok Hcomp. constructor; cbn; try reflexivity; [|done| |intros; split; [done | reflexivity]].
  - intros Hk id' r'; cbn. destruct (decide (id' = id)) as [->|Hne].
    + rewrite lookup_insert_eq. intros [= <-]. split; [|split; [done | by apply Hcomp]].
      destruct (orders d !! id) as [r0|] eqn:Hr0; [|auto].
      rewrite (oe_id _ _ (Hr _ eq_refl)). by apply Hk.
    + rewrite lookup_insert_ne by done. apply Hk.
  - apply map_evolves_insert; [apply _ | done].
Qed.

(** Only the status, the version, the flags and the update time differ, and
    the version is larger. *)
Lemma order_evolves_intro r r' :
  o_id r' = o_id r -> o_customer_id r' = o_customer_id r -> o_currency r' = o_currency r ->
  o_created_at r' = o_created_at r -> rtc store_edge (o_status r) (o_status r') ->
  o_version r < o_version r' -> (forall t, o_total_minor r = Some t -> o_total_minor r' = Some t) ->
  (o_inventory_released r = true -> o_inventory_released r' = true) ->
  (o_payment_refunded r = true -> o_payment_refunded r' = true) -> order_evolves r r'.
Proof. constructor; auto. Qed.

Lemma InsertOrder_evolves i c cu t st v at_ d d' u :
  Queries.InsertOrder i c cu t st v at_ d = Ok (d', u) -> db_evolves d d'.
Proof.
  unfold Queries.InsertOrder. destruct (orders d !! i) eqn:Hi; [done|].
  intros Hq; go_inv Hq. apply put_order_ok in Heqr as [-> ?].
  apply set_orders_evolves; [congruence | done | done |].
  intros _ _. split; cbn; done.
Qed.

Lemma UpdateOrderCancellation_ok id v at_ d d' r' :
  Queries.UpdateOrderCancellation id v at_ d = Ok (d', r') ->
  exists r, orders d !! id = Some r /\ o_version r = v /\
            (o_status r = StatusPending \/ o_status r = StatusConfirmed) /\
            v + 1 < 2 ^ 63 /\
            r' = mkOrderRow (o_id r) (o_customer_id r) (o_currency r) (o_total_minor r)
                   StatusCancelReq (o_failure_code r) (o_reservation_id r) (o_payment_id r)
                   (o_shipment_id r) (v + 1) (o_created_at r) (pg_time at_)
                   (o_inventory_released r) (o_payment_refunded r) /\
            d' = set_orders d (<[id := r']> (orders d)) /\ order_row_ok r' = true.
Proof.
  unfold Queries.UpdateOrderCancellation. destruct (orders d !! id) as [r|] eqn:Hr; [|done].
  destruct (_ && _) eqn:Hc; [|done]. apply andb_true_iff in Hc as [Hv Hs].
  apply Z.eqb_eq in Hv as <-. rewrite orb_true_iff, !String.eqb_eq in Hs.
  destruct (next_bigint _) as [w|] eqn:Hw; [|done]. apply next_bigint_ok in Hw as [-> Hw].
  destruct (put_order _ _ _) as [d2|] eqn:Hp; [|done]. apply put_order_ok in Hp as [-> Hok].
  intros [= <- <-]. exists r. naive_solver.
Qed.

Lemma UpdateOrderCancellation_evolves id v at_ d d' r' :
  Queries.UpdateOrderCancellation id v at_ d = Ok (d', r') -> db_evolves d d'.
Proof.
  intros (r & Hr & <- & Hs & _ & -> & -> & Hok)%UpdateOrderCancellation_ok.
  apply set_orders_evolves; [|congruence|done|done]. intros r0 ?; simplify_eq.
  apply order_evolves_intro; cbn; auto; [|lia].
  apply rtc_once. left. by destruct Hs as [-> | ->].
Qed.

Lemma MarkInventoryReleased_ok id at_ v d d' n :
  Queries.MarkInventoryReleased id at_ v d = Ok (d', n) -> n = 1 ->
  exists r, orders d !! id = Some r /\ o_version r = v /\ o_inventory_released r = false /\
            let r' := mkOrderRow (o_id r) (o_customer_id r) (o_currency r)
                   (o_total_minor r) (o_status r) (o_failure_code r) (o_reservation_id r)
                   (o_payment_id r) (o_shipment_id r) (v + 1) (o_created_at r) (pg_time at_)
                   true (o_payment_refunded r) in
            d' = set_orders d (<[id := r']> (orders d)) /\ order_row_ok r' = true.
Proof.
  unfold Queries.MarkInventoryReleased. destruct (orders d !! id) as [r|] eqn:Hr; [|by intros [= <- <-]].
  destruct (_ && _) eqn:Hc; [|by intros [= <- <-]]. apply andb_true_iff in Hc as [Hv Hs%negb_true_iff].
  apply Z.eqb_eq in Hv as <-.
  destruct (next_bigint _) as [w|] eqn:Hw; [|done]. apply next_bigint_ok in Hw as [-> Hw].
  destruct (put_order _ _ _) as [d2|] eqn:Hp; [|done]. apply put_order_ok in Hp as [-> Hok].
  intros [= <- <-] _. exists r. cbn zeta. split_and!; auto.
Qed.

Lemma MarkPaymentRefunded_ok id at_ v d d' n :
  Queries.MarkPaymentRefunded id at_ v d = Ok (d', n) -> n = 1 ->
  exists r, orders d !! id = Some r /\ o_version r = v /\ o_payment_refunded r = false /\
            let r' := mkOrderRow (o_id r) (o_customer_id r) (o_currency r)
                   (o_total_minor r) (o_status r) (o_failure_code r) (o_reservation_id r)
                   (o_payment_id r) (o_shipment_id r) (v + 1) (o_created_at r) (pg_time at_)
                   (o_inventory_released r) true in
            d' = set_orders d (<[id := r']> (orders d)) /\ order_row_ok r' = true.
Proof.
  unfold Queries.MarkPaymentRefunded. destruct (orders d !! id) as [r|] eqn:Hr; [|by intros [= <- <-]].
  destruct (_ && _) eqn:Hc; [|by intros [= <- <-]]. apply andb_true_iff in Hc as [Hv Hs%negb_true_iff].
  apply Z.eqb_eq in Hv as <-.
  destruct (next_bigint _) as [w|] eqn:Hw; [|done]. apply next_bigint_ok in Hw as [-> Hw].
  destruct (put_order _ _ _) as [d2|] eqn:Hp; [|done]. apply put_order_ok in Hp as [-> Hok].
  intros [= <- <-] _. exists r. cbn zeta. split_and!; auto.
Qed.

Lemma UpdateOrderWorkflowState_ok id st f re pa sh tot at_ v d d' n :
  Queries.UpdateOrderWorkflowState id st f re pa sh tot at_ v d = Ok (d', n) -> n = 1 ->
  exists r, orders d !! id = Some r /\ o_version r = v /\ v + 1 < 2 ^ 63 /\
            let r' := mkOrderRow (o_id r) (o_customer_id r) (o_currency r)
                   (Queries.coalesce tot (o_total_minor r)) st
                   (Queries.coalesce f (o_failure_code r)) (Queries.coalesce re (o_reservation_id r))
                   (Queries.coalesce pa (o_payment_id r)) (Queries.coalesce sh (o_shipment_id r))
                   (v + 1) (o_created_at r) (pg_time at_) (o_inventory_released r)
                   (o_payment_refunded r) in
            d' = set_orders d (<[id := r']> (orders d)) /\ order_row_ok r' = true.
Proof.
  unfold Queries.UpdateOrderWorkflowState. destruct (orders d !! id) as [r|] eqn:Hr; [|by intros [= <- <-]].
  destruct (Z.eqb_spec (o_version r) v) as [<-|]; [|by intros [= <- <-]].
  destruct (next_bigint _) as [w|] eqn:Hw; [|done]. apply next_bigint_ok in Hw as [-> Hw].
  destruct (put_order _ _ _) as [d2|] eqn:Hp; [|done]. apply put_order_ok in Hp as [-> Hok].
  intros [= <- <-] _. exists r. cbn zeta. split_and!; auto.
Qed.
End Queries_evolve.

(** ** Programs that leave the orders alone *)

#[export] Hint Resolve InsertIdempotency_side GetIdempotency_side UpdateIdempotencyResponse_side
  GetOrder_side GetOrderItems_side InsertOrderItem_side UpdateOrderItemQuote_side
  GetSagaByOrderID_side InsertSaga_side UpdateSagaPhase_side InsertInbox_side GetInbox_side
  MarkInboxProcessed_side MarkInboxDeadLetter_side RecordInboxFailure_side InsertOutbox_side
  ListPendingOutbox_side ClaimPendingOutbox_side MarkOutboxPublished_side MarkOutboxFailed_side
  InsertOrder_evolves UpdateOrderCancellation_evolves : streamweave.

(** Goes through a program statement by statement. *)
Ltac evolve :=
  repeat first
    [ progress intros
    | apply evolves_bind; [apply _|..]
    | apply evolves_mapE
    | solve [eauto with streamweave typeclass_instances]
    | apply evolves_exec
    | apply evolves_stmt
    | apply evolves_for_each; [apply _|apply _|]
    | match goal with |- evolves _ (match ?x with _ => _ end) => destruct x eqn:? end
    | match goal with |- evolves _ (let '(_, _) := ?x in _) => destruct x eqn:? end ].

Section Programs_evolve.
Context `{GoLib} `{Crypto} `{Env} `{Pg} `{KeySetHTTP}.

Lemma insertOutbox_side m o p at_ : evolves side_evolves (insertOutbox m o p at_).
Proof. unfold insertOutbox. evolve. Qed.
Lemma commandPayload_side c o sg ca op data : evolves side_evolves (commandPayload c o sg ca op data).
Proof. unfold commandPayload. evolve. Qed.
Lemma eventPayloadFor_side t o sg ca op data : evolves side_evolves (eventPayloadFor t o sg ca op data).
Proof. unfold eventPayloadFor. evolve. Qed.
Hint Resolve insertOutbox_side commandPayload_side eventPayloadFor_side : streamweave.

Lemma insertCompensationCommands_side o sg ca fe at_ :
  evolves side_evolves (insertCompensationCommands o sg ca fe at_).
Proof. unfold insertCompensationCommands. evolve. Qed.
Lemma loadOrder_side id : evolves side_evolves (loadOrder id).
Proof. unfold loadOrder. evolve. Qed.
Lemma insert_items_side o n l : evolves side_evolves (insert_items o n l).
Proof. revert n; induction l; intros n; cbn [insert_items]; evolve. Qed.
Lemma http_get_side url : evolves side_evolves (http_get url).
Proof. intros s s' a [= <- _]. reflexivity. Qed.
Hint Resolve insertCompensationCommands_side loadOrder_side insert_items_side http_get_side : streamweave.
Lemma refresh_keys_side url k : evolves side_evolves (refresh_keys url k).
Proof. unfold refresh_keys. evolve. Qed.
Hint Resolve refresh_keys_side : streamweave.
Lemma key_side url k : evolves side_evolves (key url k).
Proof. unfold key. evolve. Qed.
Hint Resolve key_side : streamweave.
Lemma Verify_side v q k j now : evolves side_evolves (Verify v q k j now).
Proof. unfold Verify. evolve. Qed.

(** ** Create and cancellation *)

Lemma side_db d d' : side_evolves d d' -> db_evolves d d'.
Proof. by intros []. Qed.
Lemma evolves_side {A} (m : Prog A) : evolves side_evolves m -> evolves db_evolves m.
Proof. intros Hm s s' a Hs. by eapply side_db, Hm. Qed.
Hint Resolve side_db evolves_side : streamweave.

Lemma create_new_evolves o : evolves db_evolves (create_new o).
Proof. unfold create_new. evolve. Qed.
Lemma create_replay_evolves a op k h : evolves db_evolves (create_replay a op k h).
Proof. unfold create_replay. evolve. Qed.
Lemma cancel_new_evolves a o op k r v at_ : evolves db_evolves (cancel_new a o op k r v at_).
Proof. unfold cancel_new. evolve. Qed.
Lemma cancel_replay_evolves a op k h : evolves db_evolves (cancel_replay a op k h).
Proof. unfold cancel_replay. evolve. Qed.
Hint Resolve create_new_evolves create_replay_evolves cancel_new_evolves cancel_replay_evolves
  : streamweave.

Lemma Create_evolves a o op k h s s' r :
  Create a o op k h s = (s', r) -> db_evolves (db s) (db s').
Proof. apply in_tx_evolves; [apply _|]. evolve. Qed.
Lemma RequestCancellation_evolves a o op k h re v at_ s s' r :
  RequestCancellation a o op k h re v at_ s = (s', r) -> db_evolves (db s) (db s').
Proof. apply in_tx_evolves; [apply _|]. evolve. Qed.
End Programs_evolve.

(** ** The handlers of facts *)

(** The order in hand is the row of the table, as far as writes depend on it. *)
Definition tracks (o : Order) (d : DB) : Prop :=
  exists r, orders d !! ID o = Some r /\ OStatus o = o_status r /\
            TotalMinor o = o_total_minor r /\ order_row_ok r = true /\
            ReservationID o = o_reservation_id r /\ PaymentID o = o_payment_id r /\
            InventoryReleased o = o_inventory_released r /\
            PaymentRefunded o = o_payment_refunded r.

Lemma order_row_status r : order_row_ok r = true -> o_status r ∈ statuses.
Proof.
  unfold order_row_ok. rewrite !andb_true_iff, bool_decide_eq_true. tauto.
Qed.
(** Every status that is neither terminal nor CANCEL_REQUESTED may fail. *)
Lemma may_fail st :
  st ∈ statuses -> IsTerminal st = false -> st <> StatusCancelReq ->
  allowedTransition st StatusFailed = true.
Proof.
  unfold statuses. rewrite !elem_of_cons, elem_of_nil.
  intros Hs Ht Hc. destruct_or? Hs; subst; done.
Qed.

(** Every status that is not terminal, CONFIRMED or CANCEL_REQUESTED is PENDING. *)
Lemma may_confirm st :
  st ∈ statuses -> IsTerminal st = false -> st <> StatusConfirmed -> st <> StatusCancelReq ->
  allowedTransition st StatusConfirmed = true.
Proof.
  unfold statuses. rewrite !elem_of_cons, elem_of_nil.
  intros Hs Ht Hc Hr. destruct_or? Hs; subst; done.
Qed.

Lemma tracks_same o d d' : tracks o d -> same_orders d d' -> tracks o d'.
Proof. intros (r & ?) Hs. exists r. by rewrite Hs. Qed.

(** Takes the success of a program that only evolves the tables off the front
    of a goal about the rows before and after. *)
Ltac side_step :=
  match goal with
  | H : ?m ?s = (?s', Ok _) |- db_evolves (db ?s) _ =>
      let X := fresh in
      assert (X : evolves db_evolves m) by evolve;
      transitivity (db s'); [exact (X _ _ _ H) | clear X H]
  end.

(** Replaces the success of a program by what it did to the tables. *)
Ltac side_fact H :=
  match type of H with
  | ?m ?s = (?s', Ok _) =>
      let X := fresh in
      assert (X : evolves side_evolves m) by evolve; apply X in H; clear X
  end.

Section Handlers_evolve.
Context `{GoLib} `{Crypto} `{Env} `{Pg} `{KeySetHTTP}.

Hint Resolve insertOutbox_side commandPayload_side eventPayloadFor_side Verify_side
  insertCompensationCommands_side loadOrder_side side_db evolves_side : streamweave.

Lemma updateWorkflow_ok o st f re pa sh tot now s s' u :
  IsTerminal (OStatus o) = false ->
  updateWorkflow o st f re pa sh tot now s = (s', Ok u) ->
  exists r, orders (db s) !! ID o = Some r /\ o_version r = wrap_i64 (Version o) /\
    o_version r + 1 < 2 ^ 63 /\
    let r' := mkOrderRow (o_id r) (o_customer_id r) (o_currency r)
              (Queries.coalesce tot (o_total_minor r)) st
              (Queries.coalesce (nullString f) (o_failure_code r))
              (Queries.coalesce (nullString re) (o_reservation_id r))
              (Queries.coalesce (nullString pa) (o_payment_id r))
              (Queries.coalesce (nullString sh) (o_shipment_id r))
              (o_version r + 1) (o_created_at r) (pg_time now) (o_inventory_released r)
              (o_payment_refunded r) in
    db s' = set_orders (db s) (<[ID o := r']> (orders (db s))) /\ order_row_ok r' = true.
Proof.
  unfold updateWorkflow, updateWorkflowAtVersion. intros Ht. rewrite Ht, andb_false_r.
  intros Hr. run_inv Hr. apply Z.eqb_eq in Heqb as ->.
  apply UpdateOrderWorkflowState_ok in Hq as (r & Hr & Hv & Hb & -> & Hok); [|done].
  exists r. rewrite Hv. auto.
Qed.

Lemma updateWorkflow_evolves o st f re pa sh tot now s s' u r :
  IsTerminal (OStatus o) = false -> orders (db s) !! ID o = Some r -> OStatus o = o_status r ->
  (st = OStatus o \/ store_edge (OStatus o) st) ->
  (forall t, o_total_minor r = Some t -> tot = Some t) ->
  (st = StatusCancelled -> re = "" /\ pa = "" /\ row_compensated r) ->
  updateWorkflow o st f re pa sh tot now s = (s', Ok u) -> db_evolves (db s) (db s').
Proof.
  intros Ht Hr Hs He Htot Hcan (r' & Hr' & _ & _ & -> & Hok)%updateWorkflow_ok; [|done].
  simplify_eq. apply set_orders_evolves; [|congruence|done|cbn; intros _ Hc;
    by destruct (Hcan Hc) as (-> & -> & ?)]. intros r0 ?; simplify_eq.
  apply order_evolves_intro; cbn; auto; [| lia |].
  - destruct He as [-> | He]; rewrite <- Hs; [done | by apply rtc_once].
  - intros t Hx. by rewrite (Htot t Hx).
Qed.

(** The flags: the row moves on with the order in hand. *)
Lemma markInventoryReleased_evolves o now s s' o' :
  tracks o (db s) -> markInventoryReleased o now s = (s', Ok o') ->
  db_evolves (db s) (db s') /\ tracks o' (db s') /\ OStatus o' = OStatus o.
Proof.
  intros Htr. pose proof Htr as (r & Hr & Hs & Ht & Hok & Hres & Hpay & Hrel & Href).
  unfold markInventoryReleased.
  destruct (InventoryReleased o); intros Hm; run_inv Hm.
  - split; [reflexivity|]. split; [exact Htr | done].
  - apply Z.eqb_eq in Heqb as ->.
    apply MarkInventoryReleased_ok in Hq as (r' & Hr' & Hv & Hf & -> & Hok2); [|done]. simplify_eq.
    split_and!; [|by eexists; cbn; rewrite lookup_insert_eq; split_and!|done].
    apply set_orders_evolves; [|congruence|done|]; cycle 1.
    { intros Hrows Hc. destruct (Hrows _ _ Hr) as (_ & _ & Hcomp).
      destruct (Hcomp Hc) as [? ?]. split; cbn; auto. }
    intros r0 ?; simplify_eq.
    apply order_evolves_intro; cbn; auto; [done|lia].
Qed.
Lemma markPaymentRefunded_evolves o now s s' o' :
  tracks o (db s) -> markPaymentRefunded o now s = (s', Ok o') ->
  db_evolves (db s) (db s') /\ tracks o' (db s') /\ OStatus o' = OStatus o.
Proof.
  intros Htr. pose proof Htr as (r & Hr & Hs & Ht & Hok & Hres & Hpay & Hrel & Href).
  unfold markPaymentRefunded.
  destruct (PaymentRefunded o); intros Hm; run_inv Hm.
  - split; [reflexivity|]. split; [exact Htr | done].
  - apply Z.eqb_eq in Heqb as ->.
    apply MarkPaymentRefunded_ok in Hq as (r' & Hr' & Hv & Hf & -> & Hok2); [|done]. simplify_eq.
    split_and!; [|by eexists; cbn; rewrite lookup_insert_eq; split_and!|done].
    apply set_orders_evolves; [|congruence|done|]; cycle 1.
    { intros Hrows Hc. destruct (Hrows _ _ Hr) as (_ & _ & Hcomp).
      destruct (Hcomp Hc) as [? ?]. split; cbn; auto. }
    intros r0 ?; simplify_eq.
    apply order_evolves_intro; cbn; auto; [done|lia].
Qed.

Lemma maybeCompleteCancellation_evolves o sg ca now s s' u :
  tracks o (db s) -> maybeCompleteCancellation o sg ca now s = (s', Ok u) ->
  db_evolves (db s) (db s').
Proof.
  intros (r & Hr & Hs & Ht & Hok & Hres & Hpay & Hrel & Href). unfold maybeCompleteCancellation.
  destruct (String.eqb_spec (OStatus o) StatusCancelReq) as [He|]; cbn [negb];
    [|by intros [-> _]%ret_ok].
  destruct (compensated o) eqn:Hcomp; cbn [negb]; [|by intros [-> _]%ret_ok].
  intros Hm. apply bind_ok in Hm as (s1 & a & Hu & Hm).
  transitivity (db s1).
  - eapply updateWorkflow_evolves; try exact Hu; eauto.
    + by rewrite He.
    + right; left. by rewrite He.
    + intros t; congruence.
    + intros _. split_and!; [done | done|]. unfold compensated in Hcomp.
      rewrite Hres, Hpay, Hrel, Href in Hcomp. apply andb_true_iff in Hcomp as [Hc1 Hc2].
      split; intros Hn; [by destruct (o_reservation_id r) | by destruct (o_payment_id r)].
  - side_step. reflexivity.
Qed.

Lemma applyInventoryReleased_evolves o e now s s' u :
  tracks o (db s) -> applyInventoryReleased o e now s = (s', Ok u) -> db_evolves (db s) (db s').
Proof.
  intros Ht. unfold applyInventoryReleased. intros Hm.
  destruct (match ReservationID o with Some _ => _ | None => _ end); [by apply fail_ok in Hm|].
  destruct (_ && _); [by apply ret_ok in Hm as [-> _]|].
  apply bind_ok in Hm as (s1 & o1 & Hk1 & Hk2).
  apply markInventoryReleased_evolves in Hk1 as (He & Ht1 & _); [|done].
  etransitivity; [exact He | by eapply maybeCompleteCancellation_evolves].
Qed.
Lemma applyPaymentRefunded_evolves o e now s s' u :
  tracks o (db s) -> applyPaymentRefunded o e now s = (s', Ok u) -> db_evolves (db s) (db s').
Proof.
  intros Ht. unfold applyPaymentRefunded. intros Hm.
  destruct (match PaymentID o with Some _ => _ | None => _ end); [by apply fail_ok in Hm|].
  destruct (_ && _); [by apply ret_ok in Hm as [-> _]|].
  apply bind_ok in Hm as (s1 & o1 & Hk1 & Hk2).
  apply markPaymentRefunded_evolves in Hk1 as (He & Ht1 & _); [|done].
  etransitivity; [exact He | by eapply maybeCompleteCancellation_evolves].
Qed.

Lemma applyCompleted_evolves o e now s s' u :
  tracks o (db s) -> applyCompleted o e now s = (s', Ok u) -> db_evolves (db s) (db s').
Proof.
  intros (r & Hr & Hs & Ht & Hok & Hres & Hpay & Hrel & Href). unfold applyCompleted. intros Hm.
  destruct (IsTerminal (OStatus o)) eqn:Hterm; [by apply ret_ok in Hm as [-> _]|].
  destruct (ValidShipmentID _); [|by apply fail_ok in Hm].
  apply bind_ok in Hm as (s1 & a & Hu & Hm).
  transitivity (db s1).
  - eapply updateWorkflow_evolves; try exact Hu; eauto.
    + right; right; auto.
    + intros t; congruence.
    + discriminate.
  - side_step. reflexivity.
Qed.

Lemma applyFailure_evolves o e now s s' u :
  tracks o (db s) -> applyFailure o e now s = (s', Ok u) -> db_evolves (db s) (db s').
Proof.
  intros Htr. unfold applyFailure. intros Hm.
  destruct (String.eqb_spec (OStatus o) StatusCancelReq) as [Hc|Hc].
  - apply bind_ok in Hm as (s1 & o1 & Hk1 & Hm).
    assert (db_evolves (db s) (db s1) /\ tracks o1 (db s1)) as [He Ht1].
    { destruct (_ =? InventoryRejected)%string;
        [by apply markInventoryReleased_evolves in Hk1 as (? & ? & _)|].
      destruct (_ =? PaymentFailed)%string;
        [by apply markPaymentRefunded_evolves in Hk1 as (? & ? & _)|].
      apply ret_ok in Hk1 as [-> ->]. split; [reflexivity | done]. }
    apply bind_ok in Hm as (s2 & a & Hk2 & Hm).
    apply insertCompensationCommands_side in Hk2 as [He2 Hsame].
    etransitivity; [exact He|]. etransitivity; [exact He2|].
    eapply maybeCompleteCancellation_evolves; [|exact Hm]. by eapply tracks_same.
  - destruct Htr as (r & Hr & Hs & Ht & Hok & Hres & Hpay & Hrel & Href).
    destruct (IsTerminal (OStatus o)) eqn:Hterm; [by apply ret_ok in Hm as [-> _]|].
    apply bind_ok in Hm as (s1 & a & Hu & Hm).
    transitivity (db s1).
    + eapply updateWorkflow_evolves; try exact Hu; eauto; [|intros t; congruence|discriminate].
      right; left. apply order_row_status in Hok. rewrite <- Hs in Hok.
      by apply may_fail.
    + side_step. reflexivity.
Qed.

Lemma applyPaymentAuthorized_evolves o e now s s' u :
  tracks o (db s) -> applyPaymentAuthorized o e now s = (s', Ok u) -> db_evolves (db s) (db s').
Proof.
  intros (r & Hr & Hs & Ht & Hok & Hres & Hpay & Hrel & Href). unfold applyPaymentAuthorized. intros Hm.
  destruct (IsTerminal (OStatus o)) eqn:Hterm; [by apply ret_ok in Hm as [-> _]|].
  destruct (String.eqb_spec (OStatus o) StatusConfirmed); [by apply ret_ok in Hm as [-> _]|].
  cbn [orb] in Hm.
  destruct (amount_matches o e); [|by apply fail_ok in Hm].
  destruct (ValidPaymentID _); [|by apply fail_ok in Hm].
  destruct (String.eqb_spec (OStatus o) StatusCancelReq) as [Hc|Hc].
  - apply bind_ok in Hm as (s1 & a & Hu & Hm). transitivity (db s1).
    + eapply (updateWorkflow_evolves (with_payment o _)); try exact Hu; eauto;
        [intros t; cbn; congruence | discriminate].
    + side_step. reflexivity.
  - unfold confirm_paid in Hm. apply bind_ok in Hm as (s1 & a & Hu & Hm).
    transitivity (db s1).
    + eapply updateWorkflow_evolves; try exact Hu; eauto; [|intros t; congruence|discriminate].
      right; left. apply order_row_status in Hok. rewrite <- Hs in Hok.
      by apply may_confirm.
    + side_step. reflexivity.
Qed.

Lemma apply_quote_ok o qid qv prices now o' :
  apply_quote o qid qv prices now = Ok o' ->
  OStatus o = StatusPending /\ TotalMinor o = None /\
  exists total lines, quote_lines prices 0 (Items o) = Ok (total, lines) /\
                      o' = set_quote o qid qv total lines now.
Proof.
  unfold apply_quote. destruct (ApplyQuote _ _ _ _ _) as [[o1|] [e|]] eqn:Ha; intros [= <-].
  apply ApplyQuote_ok in Ha as (? & ? & _ & _ & _ & ?). auto.
Qed.

Lemma reserve_pending_evolves st o e rid now s s' u :
  tracks o (db s) -> reserve_pending st o e rid now s = (s', Ok u) -> db_evolves (db s) (db s').
Proof.
  intros (r & Hr & Hs & Ht & Hok & Hres & Hpay & Hrel & Href). unfold reserve_pending. intros Hm.
  destruct (_ =? Currency o)%string; cbn [negb] in Hm; [|by apply fail_ok in Hm].
  apply bind_ok in Hm as (s1 & qv & Hk1 & Hm). apply lift_ok in Hk1 as [-> _].
  destruct (f_OperationID e =? _)%string; cbn [negb] in Hm; [|by apply fail_ok in Hm].
  apply bind_ok in Hm as (s1 & lines & Hk2 & Hm). apply lift_ok in Hk2 as [-> _].
  apply bind_ok in Hm as (s1 & v & Hv & Hm). apply Verify_side in Hv as [Hv Hsame].
  apply bind_ok in Hm as (s2 & [prices quantities] & Hk3 & Hm). apply lift_ok in Hk3 as [-> _].
  destruct (quantities_match _ _); [|by apply fail_ok in Hm].
  apply bind_ok in Hm as (s2 & o' & Hk4 & Hm). apply lift_ok in Hk4 as [-> Ha].
  apply apply_quote_ok in Ha as (Hst & Hnone & total & ls & _ & ->).
  apply bind_ok in Hm as (s2 & x & Hf & Hm).
  assert (side_evolves (db s1) (db s2)) as [He2 Hsame2].
  { revert Hf. apply (evolves_for_each side_evolves). intros i. unfold update_item_quote. evolve. }
  apply bind_ok in Hm as (s3 & y & Hu & Hm).
  etransitivity; [exact Hv|]. etransitivity; [exact He2|]. transitivity (db s3).
  - eapply updateWorkflow_evolves; try exact Hu; cbn; rewrite ?Hst; eauto.
    + by rewrite Hsame2, Hsame.
    + congruence.
    + intros t; congruence.
    + discriminate.
  - side_step. reflexivity.
Qed.

Lemma applyInventoryReserved_evolves st o e now s s' u :
  tracks o (db s) -> applyInventoryReserved st o e now s = (s', Ok u) -> db_evolves (db s) (db s').
Proof.
  intros Htr. unfold applyInventoryReserved. intros Hm.
  destruct (IsTerminal (OStatus o)) eqn:Hterm; [by apply ret_ok in Hm as [-> _]|].
  destruct (ValidReservationID _); [|by apply fail_ok in Hm].
  destruct (f_OperationID e =? _)%string; cbn [negb] in Hm; [|by apply fail_ok in Hm].
  destruct (String.eqb_spec (OStatus o) StatusCancelReq) as [Hc|Hc].
  - destruct Htr as (r & Hr & Hs & Ht & Hok & Hres & Hpay & Hrel & Href).
    apply bind_ok in Hm as (s1 & a & Hu & Hm). transitivity (db s1).
    + eapply (updateWorkflow_evolves (with_reservation o _)); try exact Hu; eauto;
        [intros t; cbn; congruence | discriminate].
    + side_step. reflexivity.
  - destruct (negb _); [by apply ret_ok in Hm as [-> _]|]. by eapply reserve_pending_evolves.
Qed.

Lemma dispatch_evolves st o e now s s' u :
  tracks o (db s) -> dispatch st o e now s = (s', Ok u) -> db_evolves (db s) (db s').
Proof.
  unfold dispatch. intros Ht.
  repeat match goal with |- (if ?b then _ else _) _ = _ -> _ => destruct b end;
    eauto using applyInventoryReserved_evolves, applyInventoryReleased_evolves,
      applyPaymentRefunded_evolves, applyFailure_evolves, applyPaymentAuthorized_evolves,
      applyCompleted_evolves.
  by intros []%fail_ok.
Qed.

Lemma loadOrder_ok id s s' o :
  loadOrder id s = (s', Ok o) ->
  db s' = db s /\ exists r, orders (db s) !! id = Some r /\
    o = with_items (getOrderRowToOrder r)
          (map item_of_row (order_by (fun a b => i_line_number a <=? i_line_number b)
             (filter (fun x => i_order_id x = id) (order_items (db s))))).
Proof.
  unfold loadOrder. intros Hm. run_inv Hm.
  apply GetOrder_ok in Hq as [-> Hr]. injection Hq0 as <- <-. cbn. eauto.
Qed.

Lemma loadOrder_tracks id s s' o :
  rows_ok (db s) -> loadOrder id s = (s', Ok o) -> db s' = db s /\ tracks o (db s').
Proof.
  intros Hk (-> & r & Hr & ->)%loadOrder_ok. split; [done|].
  destruct (Hk _ _ Hr) as (Hid & Hok & _). exists r. cbn. rewrite Hid. by split_and!.
Qed.

Lemma process_tx_evolves st g p e s s' a :
  rows_ok (db s) -> process_tx st g p e s = (s', Ok a) -> db_evolves (db s) (db s').
Proof.
  intros Hk. unfold process_tx. intros Hm.
  apply bind_ok in Hm as (s1 & t1 & Hk1 & Hm). apply timeNow_ok in Hk1 as [-> _].
  apply bind_ok in Hm as (s2 & n & Hk2 & Hm).
  side_fact Hk2.
  apply bind_ok in Hm as (s3 & done_ & Hk3 & Hm). side_fact Hk3.
  destruct Hk2 as [He1 Hs1], Hk3 as [He2 Hs2].
  etransitivity; [exact He1|]. etransitivity; [exact He2|].
  destruct done_; [by apply ret_ok in Hm as [-> _]|].
  apply bind_ok in Hm as (s4 & o & Hl & Hm). apply loadOrder_tracks in Hl as [Hd Htr].
  2:{ apply (de_rows_ok _ _ He2), (de_rows_ok _ _ He1), Hk. }
  rewrite <- Hd.
  apply bind_ok in Hm as (s5 & t2 & Hk4 & Hm). apply timeNow_ok in Hk4 as [-> _].
  apply bind_ok in Hm as (s6 & x & Hdisp & Hm).
  transitivity (db s6); [by eapply dispatch_evolves in Hdisp|].
  side_step. reflexivity.
Qed.

Lemma ProcessFact_evolves st g p s s' r :
  rows_ok (db s) -> ProcessFact st g p s = (s', r) -> db_evolves (db s) (db s').
Proof.
  intros Hk. unfold ProcessFact.
  destruct (parse_fact p) as [e|]; [|intros [= <- _]; reflexivity].
  destruct (valid_envelope e); [|intros [= <- _]; reflexivity].
  destruct (_ && _); [|intros [= <- _]; reflexivity].
  intros [->|(s1 & a & _ & Hb & ->)]%in_tx_atomic; [reflexivity|].
  by apply process_tx_evolves in Hb.
Qed.

(** ** The other operations *)

Lemma RecordFactFailure_evolves g p re at_ s s' r :
  RecordFactFailure g p re at_ s = (s', r) -> db_evolves (db s) (db s').
Proof.
  unfold RecordFactFailure. destruct (parse_fact p); [|intros [= <- _]; reflexivity].
  destruct (_ || _); [intros [= <- _]; reflexivity|].
  apply in_tx_evolves; [apply _|]. evolve.
Qed.

(** A single statement, its error mapped. *)
Lemma auto_evolves {A} (q : Time -> DB -> result goerr (DB * A)) (s s' : St DB QuoteCache) r :
  (forall now d d' a, q now d = Ok (d', a) -> side_evolves d d') ->
  mapE mapError (stmt q) s = (s', r) -> db_evolves (db s) (db s').
Proof.
  intros Hq Hm. unfold mapE in Hm. destruct (stmt q s) as [s1 r1] eqn:Hs.
  assert (s1 = s') as -> by (destruct r1; congruence).
  eapply side_db, stmt_evolves; [apply _ | exact Hq | exact Hs].
Qed.
End Handlers_evolve.

(** ** Every history of the store *)

(** One call of an operation that writes, with whatever result. *)
Inductive store_step `{GoLib} `{Crypto} `{Env} `{Pg} `{KeySetHTTP} (st : Store)
  : relation (St DB QuoteCache) :=
| op_create a o op k h s s' r : Create a o op k h s = (s', r) -> store_step st s s'
| op_cancel a o op k h re v t s s' r :
    RequestCancellation a o op k h re v t s = (s', r) -> store_step st s s'
| op_process g p s s' r : ProcessFact st g p s = (s', r) -> store_step st s s'
| op_failure g p re t s s' r : RecordFactFailure g p re t s = (s', r) -> store_step st s s'
| op_dead g m re s s' r : MarkFactDeadLetter g m re s = (s', r) -> store_step st s s'
| op_claim o n u s s' r : ClaimPendingOutbox o n u s = (s', r) -> store_step st s s'
| op_published i t s s' r : MarkOutboxPublished i t s = (s', r) -> store_step st s s'
| op_failed i re t s s' r : MarkOutboxFailed i re t s = (s', r) -> store_step st s s'.

Definition db_ok (d : DB) : Prop :=
  rows_ok d /\ NoDup (map x_id (outbox_events d)) /\ lines_ok (order_items d).

Lemma db_ok_empty : db_ok empty_db.
Proof. split_and!; [intros id r Hr; discriminate Hr | constructor | split; constructor]. Qed.

Lemma db_evolves_ok d d' : db_ok d -> db_evolves d d' -> db_ok d'.
Proof.
  intros (Hk & Hn & Hl) He.
  split_and!; [by apply (de_rows_ok _ _ He) | by apply (de_outbox _ _ He) | by apply (de_lines_ok _ _ He)].
Qed.

Section Histories.
Context `{GoLib} `{Crypto} `{Env} `{Pg} `{KeySetHTTP} (st : Store).

Lemma bind_ret_state {A B} (m : Prog A) (f : A -> B) s s' r :
  (let! x := m in ret (f x)) s = (s', r) -> exists r1, m s = (s', r1).
Proof. unfold bind, ret. destruct (m s) as [s1 [a|e]]; intros [= <- <-]; eauto. Qed.

Lemma store_step_evolves s s' : db_ok (db s) -> store_step st s s' -> db_evolves (db s) (db s').
Proof.
  intros [Hk _]. destruct 1;
    eauto using Create_evolves, RequestCancellation_evolves, ProcessFact_evolves,
      RecordFactFailure_evolves.
  - eapply auto_evolves; [|eassumption]. intros now d d' a Hq.
    exact (MarkInboxDeadLetter_side _ _ _ _ _ _ Hq).
  - match goal with Hc : ClaimPendingOutbox _ _ _ _ = _ |- _ => apply bind_ret_state in Hc as [r1 Hc] end.
    eapply auto_evolves; [|eassumption]. intros now d d' a Hq.
    exact (ClaimPendingOutbox_side _ _ _ _ _ _ _ Hq).
  - eapply auto_evolves; [|eassumption]. intros now d d' a Hq.
    exact (MarkOutboxPublished_side _ _ _ _ _ Hq).
  - eapply auto_evolves; [|eassumption]. intros now d d' a Hq.
    exact (MarkOutboxFailed_side _ _ _ _ _ _ Hq).
Qed.

Lemma history_evolves s s' :
  db_ok (db s) -> rtc (store_step st) s s' -> db_evolves (db s) (db s') /\ db_ok (db s').
Proof.
  intros Hok. induction 1 as [|s1 s2 s3 Hs _ IH]; [split; [reflexivity | done]|].
  pose proof (store_step_evolves _ _ Hok Hs) as He.
  destruct (IH (db_evolves_ok _ _ Hok He)) as [He2 Hok3]. split; [by etransitivity | done].
Qed.

Lemma terminal_edges from to : rtc store_edge from to -> IsTerminal from = true -> to = from.
Proof.
  intros Hr Ht. apply rtc_inv in Hr as [->|(y & [He|[_ He]] & _)]; [done| |congruence].
  apply allowed_not_terminal in He. congruence.
Qed.
End Histories.

(** ** Properties *)

(** Over any sequence of store operations, whatever round trips fail and
    whatever replies are lost, no order disappears, its owner, currency and
    creation time never change, its version only grows when the row changes,
    a total once set is final, the compensation flags are never cleared, and
    its status moves along the aggregate's transitions, completion of a
    non-terminal order apart; a terminal status is final. *)
Theorem orders_history `{GoLib} `{Crypto} `{Env} `{Pg} `{KeySetHTTP} st s s' id r :
  db_ok (db s) -> rtc (store_step st) s s' -> orders (db s) !! id = Some r ->
  exists r', orders (db s') !! id = Some r' /\ order_evolves r r' /\ order_row_ok r' = true /\
             (IsTerminal (o_status r) = true -> o_status r' = o_status r).
Proof.
  intros Hok Hs Hr. destruct (history_evolves _ _ _ Hok Hs) as [He [Hok' _]].
  destruct (de_orders _ _ He _ _ Hr) as (r' & Hr' & Hev).
  exists r'. split_and!; [done | done | by eapply Hok' |].
  apply terminal_edges, Hev.
Qed.

(** Over any sequence of store operations the outbox is append-only: every
    message keeps its place, identity, topic, payload and headers, its attempts
    never go down, a published message never changes again, and message ids
    stay unique. *)
Theorem outbox_history `{GoLib} `{Crypto} `{Env} `{Pg} `{KeySetHTTP} st s s' :
  db_ok (db s) -> rtc (store_step st) s s' ->
  NoDup (map x_id (outbox_events (db s'))) /\
  exists old new, outbox_events (db s') = (old ++ new)%list /\ Forall2 outbox_evolves (outbox_events (db s)) old.
Proof.
  intros Hok Hs. destruct (history_evolves _ _ _ Hok Hs) as [He _].
  apply (de_outbox _ _ He), Hok.
Qed.

(** From tables in which it holds (the empty ones for a start), no sequence
    of store operations leaves a CANCELLED order holding an inventory
    reservation that was not released or a payment that was not refunded. *)
Theorem cancelled_orders_are_compensated `{GoLib} `{Crypto} `{Env} `{Pg} `{KeySetHTTP} st s s' id r :
  db_ok (db s) -> rtc (store_step st) s s' ->
  orders (db s') !! id = Some r -> o_status r = StatusCancelled ->
  (o_reservation_id r <> None -> o_inventory_released r = true) /\
  (o_payment_id r <> None -> o_payment_refunded r = true).
Proof.
  intros Hok Hs Hr Hc. destruct (history_evolves _ _ _ Hok Hs) as [_ [Hok' _]].
  by apply (Hok' _ _ Hr).
Qed.
