(* ===== verification/OrdersRows.v ===== *)
(** * Orders: the tables row by row

    The rows of [OrdersTables] under their keys, as transactions that overlap
    see and lock them ([ReadCommitted]), and how each may evolve. *)
From Stdlib Require Import ZArith Lia Ascii String.
From stdpp Require Import base gmap strings list relations.
From S2P Require Import Prelude GoStrings GoErrors GoTime GoJson OrdersDomain.
From S2P Require Import Tx Interleave ReadCommitted OrdersTables OrdersHistory.

Open Scope string_scope.
Open Scope Z_scope.

(** ** Keys and rows *)

(** A line is known by its order and product; that no order has a line number
    twice follows from the lock of the order that is created with its lines. *)
Inductive OrdersKey :=
| KOrder (id : string)
| KLine (line : string * string)
| KSaga (id : string)
| KInbox (message : string * string)
| KOutbox (id : string)
| KIdem (record : string * string * string).
Inductive OrdersRow :=
| AnOrder (r : OrderRow)
| ALine (r : ItemRow)
| ASaga (r : SagaRow)
| AnInbox (r : InboxRow)
| AnOutbox (r : OutboxRow)
| AnIdem (r : IdemRow).

#[export] Instance OrdersKey_eq : EqDecision OrdersKey.
Proof. solve_decision. Defined.
#[export, refine] Instance OrdersKey_countable : Countable OrdersKey := inj_countable'
  (fun k => match k with
            | KOrder i => inl (inl (inl i)) | KLine l => inl (inl (inr l)) | KSaga i => inl (inr (inl i))
            | KInbox m => inl (inr (inr m)) | KOutbox i => inr (inl i) | KIdem r => inr (inr r)
            end)
  (fun c => match c with
            | inl (inl (inl i)) => KOrder i | inl (inl (inr l)) => KLine l | inl (inr (inl i)) => KSaga i
            | inl (inr (inr m)) => KInbox m | inr (inl i) => KOutbox i | inr (inr r) => KIdem r
            end) _.
Proof. by intros []. Defined.

#[export] Instance OrderRow_eq : EqDecision OrderRow.
Proof. solve_decision. Defined.
#[export] Instance ItemRow_eq : EqDecision ItemRow.
Proof. solve_decision. Defined.
#[export] Instance SagaRow_eq : EqDecision SagaRow.
Proof. solve_decision. Defined.
#[export] Instance InboxRow_eq : EqDecision InboxRow.
Proof. solve_decision. Defined.
#[export] Instance OutboxRow_eq : EqDecision OutboxRow.
Proof. solve_decision. Defined.
#[export] Instance IdemRow_eq : EqDecision IdemRow.
Proof. solve_decision. Defined.
#[export] Instance OrdersRow_eq : EqDecision OrdersRow.
Proof. solve_decision. Defined.

(** ** The database *)

Definition line_key (r : ItemRow) : string * string := (i_order_id r, i_product_id r).

Definition orders_row (d : DB) (k : OrdersKey) : option OrdersRow :=
  match k with
  | KOrder id => AnOrder <$> orders d !! id
  | KLine l => ALine <$> find_row line_key l (order_items d)
  | KSaga id => ASaga <$> saga_instances d !! id
  | KInbox m => AnInbox <$> inbox_messages d !! m
  | KOutbox id => AnOutbox <$> find_row x_id id (outbox_events d)
  | KIdem r => AnIdem <$> idempotency_records d !! r
  end.
Definition orders_keys (d : DB) : gset OrdersKey :=
  list_to_set (map KOrder (elements (dom (orders d))) ++ map (fun r => KLine (line_key r)) (order_items d) ++
    map KSaga (elements (dom (saga_instances d))) ++ map KInbox (elements (dom (inbox_messages d))) ++
    map (fun r => KOutbox (x_id r)) (outbox_events d) ++ map KIdem (elements (dom (idempotency_records d)))).

Definition orders_overlay (l : gset OrdersKey) (mine theirs : DB) : DB :=
  mkDB (overlay_map (fun id => KOrder id ∈ l) (orders mine) (orders theirs))
    (overlay_list line_key (fun k => KLine k ∈ l) (order_items mine) (order_items theirs))
    (overlay_map (fun id => KSaga id ∈ l) (saga_instances mine) (saga_instances theirs))
    (overlay_map (fun m => KInbox m ∈ l) (inbox_messages mine) (inbox_messages theirs))
    (overlay_list x_id (fun id => KOutbox id ∈ l) (outbox_events mine) (outbox_events theirs))
    (overlay_map (fun r => KIdem r ∈ l) (idempotency_records mine) (idempotency_records theirs)).

#[export] Instance OrdersRowDB : RowDB DB :=
  {| Key := OrdersKey; Row := OrdersRow; row_at := orders_row; keys := orders_keys; lasting := fun _ => True;
     overlay := orders_overlay |}.

Section Laws.
Context `{GoLib}.

#[export] Instance OrdersRowLaws : RowLaws DB db_ok.
Proof.
  split.
  - intros d k Hk. cbn in *. unfold orders_keys. rewrite elem_of_list_to_set, !elem_of_app.
    destruct k; cbn in Hk; apply fmap_is_Some in Hk;
      [left; by apply map_has_key | right; left; by apply (list_has_key line_key KLine) |
       do 2 right; left; by apply map_has_key | do 3 right; left; by apply map_has_key |
       do 4 right; left; by apply (list_has_key x_id KOutbox) | do 5 right; by apply map_has_key].
  - intros l mine theirs k _ _ Hk. destruct k; cbn in *; rewrite ?overlay_map_lookup; try by destruct (decide _).
    all: rewrite overlay_list_find by (intros Hl Hs; eapply fmap_is_Some, Hk; [done | done | by apply fmap_is_Some]);
      by destruct (decide _).
  - intros l mine theirs (Hr1 & Hx1 & Hf1 & Hl1) (Hr2 & Hx2 & Hf2 & Hl2). split_and!; cbn.
    + intros id r. cbn. rewrite overlay_map_lookup. destruct (decide _); [apply Hr1 | apply Hr2].
    + by apply overlay_list_nodup.
    + split; [|by apply (overlay_list_nodup line_key)]. apply Forall_forall. intros r [Hr|Hr]%overlay_list_elem;
        [by eapply Forall_forall in Hf1 | by eapply Forall_forall in Hf2].
Qed.
End Laws.

(** ** How a row may evolve *)

Definition row_evolves (a b : OrdersRow) : Prop :=
  match a, b with
  | AnOrder r, AnOrder r' => order_evolves r r'
  | ALine r, ALine r' => line_evolves r r'
  | ASaga r, ASaga r' => saga_evolves r r'
  | AnInbox r, AnInbox r' => inbox_evolves r r'
  | AnOutbox r, AnOutbox r' => outbox_evolves r r'
  | AnIdem r, AnIdem r' => idem_evolves r r'
  | _, _ => False
  end.
#[export] Instance row_evolves_preorder : PreOrder row_evolves.
Proof.
  split; [intros []; cbn; reflexivity|]. intros [] [] []; cbn; try done; apply transitivity.
Qed.
Definition orders_ev (_ : OrdersKey) : relation (option OrdersRow) := still row_evolves.

Lemma orders_ev_present k r o : lasting k -> orders_ev k (Some r) o -> is_Some o.
Proof. intros _ Hs. destruct (Hs r eq_refl) as (r' & -> & _). eauto. Qed.

Definition rows_evolve : relation DB := evolved orders_ev.

Lemma still_fmap {R} (E : relation R) (f : R -> OrdersRow) o o' :
  (forall a b, E a b -> row_evolves (f a) (f b)) -> still E o o' -> still row_evolves (f <$> o) (f <$> o').
Proof.
  intros Hf Hs r. destruct o as [a|]; [|done]. intros [= <-]. destruct (Hs a eq_refl) as (b & -> & Hb).
  exists (f b). auto.
Qed.

(** What the serial lemmas show of two states holds row by row. *)
Lemma db_evolves_rows `{GoLib} d d' : db_ok d -> db_evolves d d' -> rows_evolve d d' /\ db_ok d'.
Proof.
  intros Hok He. pose proof (db_evolves_ok _ _ Hok He) as Hok'. split; [|done].
  intros k. unfold orders_ev. destruct k; cbn.
  - apply (still_fmap order_evolves); [done|]. intros r. apply (de_orders _ _ He).
  - apply (still_fmap line_evolves); [done|]. intros r Hr.
    eapply list_evolves_find; [| apply (de_lines _ _ He) | done].
    intros a b (Ho & _ & Hp & _). unfold line_key. congruence.
  - apply (still_fmap saga_evolves); [done|]. intros r. apply (de_sagas _ _ He).
  - apply (still_fmap inbox_evolves); [done|]. intros r. apply (de_inbox _ _ He).
  - apply (still_fmap outbox_evolves); [done|]. intros r Hr.
    eapply list_evolves_find; [| apply (de_outbox _ _ He), Hok | done]. intros a b Hab. apply Hab.
  - apply (still_fmap idem_evolves); [done|]. intros r. apply (de_idem _ _ He).
Qed.

Lemma rows_evolve_present d d' k : rows_evolve d d' -> is_Some (orders_row d k) -> is_Some (orders_row d' k).
Proof. intros He [r Hr]. pose proof (He k) as Hk. cbn in Hk. rewrite Hr in Hk. by eapply (orders_ev_present k). Qed.
Lemma rows_evolve_order d d' id r : rows_evolve d d' -> orders d !! id = Some r ->
  exists r', orders d' !! id = Some r' /\ order_evolves r r'.
Proof.
  intros He Hr. destruct (He (KOrder id) (AnOrder r)) as ([r'|r'|r'|r'|r'|r'] & Hr' & Ho); cbn in *;
    [by rewrite Hr| |done..]. apply fmap_Some in Hr' as (x & Hx & [= ->]). eauto.
Qed.

(** ** Rows that stay in their places *)

(** The tables that are lists: their rows are changed in place, and new rows are
    added at the end. *)
Record in_place `{GoLib} (d d' : DB) : Prop := {
  ip_lines_ok : lines_ok (order_items d) -> lines_ok (order_items d');
  ip_lines : list_evolves line_evolves (order_items d) (order_items d');
  ip_outbox : NoDup (map x_id (outbox_events d)) ->
    NoDup (map x_id (outbox_events d')) /\ list_evolves outbox_evolves (outbox_events d) (outbox_events d')
}.
#[export] Instance in_place_preorder `{GoLib} : PreOrder in_place.
Proof.
  split; [intros d; split; [done | reflexivity | by split]|].
  intros d1 d2 d3 [] []; split; [auto | by etransitivity|]. intros Hnd. destruct ip_outbox0 as [Hnd2 He]; [done|].
  destruct (ip_outbox1 Hnd2). split; [done | by etransitivity].
Qed.
Lemma in_place_same `{GoLib} d d' :
  order_items d' = order_items d -> outbox_events d' = outbox_events d -> in_place d d'.
Proof. intros Hi Ho. split; rewrite ?Hi, ?Ho; [done | reflexivity | by split]. Qed.
Lemma db_evolves_in_place `{GoLib} d d' : db_evolves d d' -> in_place d d'.
Proof. intros []. by split. Qed.

Lemma overlay_in_place `{GoLib} l c d : db_ok c -> in_place c d ->
  (forall k, k ∉ l -> row_at d k = row_at c k) -> overlay l d c = d.
Proof.
  intros (_ & Hnd & Hl) [Hlok Hlines Hout] Heq. cbn in Heq. destruct d as [os items sagas inbox out idem]. cbn in *.
  destruct (Hout Hnd) as [Hnd' Hout']. destruct (Hlok Hl) as [_ Hl']. destruct Hl as [_ Hl].
  assert (forall {A} (f : A -> OrdersRow) (o o' : option A), Inj (=) (=) f -> f <$> o = f <$> o' -> o = o') as Hinj.
  { intros A f [] [] Hf; cbn; [|done..]. intros [= Ha]. by apply Hf in Ha as ->. }
  unfold orders_overlay. cbn. f_equal.
  - apply overlay_map_same. intros k Hk. by apply (Hinj _ AnOrder); [by intros ? ? [= ->]|apply (Heq (KOrder k))].
  - eapply (overlay_list_in_place line_key line_evolves); [|done..|].
    + intros a b (Ho & _ & Hp & _). unfold line_key. congruence.
    + intros k Hk. by apply (Hinj _ ALine); [by intros ? ? [= ->]|apply (Heq (KLine k))].
  - apply overlay_map_same. intros k Hk. by apply (Hinj _ ASaga); [by intros ? ? [= ->]|apply (Heq (KSaga k))].
  - apply overlay_map_same. intros k Hk. by apply (Hinj _ AnInbox); [by intros ? ? [= ->]|apply (Heq (KInbox k))].
  - eapply (overlay_list_in_place x_id outbox_evolves); [|done..|].
    + intros a b Hab. apply Hab.
    + intros k Hk. by apply (Hinj _ AnOutbox); [by intros ? ? [= ->]|apply (Heq (KOutbox k))].
  - apply overlay_map_same. intros k Hk. by apply (Hinj _ AnIdem); [by intros ? ? [= ->]|apply (Heq (KIdem k))].
Qed.
