(* ===== verification/OrdersInterleaved.v ===== *)
(** * Orders: transactions that overlap

    Every operation of the store that writes, as a transaction of
    [ReadCommitted]: any number of API processes and relays run them at once,
    statement by statement.  The version checks of the updates make the
    histories of [OrdersHistory] hold for every interleaving. *)
From Stdlib Require Import ZArith Lia Ascii String.
From stdpp Require Import base gmap strings list relations.
From S2P Require Import Prelude GoStrings GoErrors GoTime GoJson GoBase64 GoCrypto OrdersDomain.
From S2P Require Import Tx Interleave ReadCommitted OrdersTables OrdersPorts OrdersQuote OrdersStore OrdersSaga.
From S2P Require Import OrdersHistory OrdersRows.

Open Scope string_scope.
Open Scope Z_scope.
Open Scope go_scope.

(** ** The statements of the store's programs *)

Section Statements.
Context `{GoLib} `{Crypto} `{Env} `{Pg} `{KeySetHTTP}.

#[export, refine] Instance Steps_http_get url : Steps (http_get (D := DB) url) :=
  {| steps_of := Aside (fun l t => (l, S t, key_set_reply url t)) (fun r => Done (Ok r)); steps_alone := _ |}.
Proof. done. Defined.

Ltac steps_in := apply _.
#[export] Instance Steps_key url id : Steps (key (D := DB) url id).
Proof. unfold key, refresh_keys. steps_in. Defined.
#[export] Instance Steps_Verify v quote id jws now : Steps (Verify (D := DB) v quote id jws now).
Proof. unfold Verify. steps_in. Defined.
#[export] Instance Steps_loadOrder id : Steps (loadOrder id).
Proof. unfold loadOrder. steps_in. Defined.
#[export] Instance Steps_eventPayloadFor t o s c op data : Steps (eventPayloadFor t o s c op data).
Proof. unfold eventPayloadFor. steps_in. Defined.
#[export] Instance Steps_commandPayload t o s c op data : Steps (commandPayload t o s c op data).
Proof. unfold commandPayload. steps_in. Defined.
#[export] Instance Steps_insertOutbox t o p at_ : Steps (insertOutbox t o p at_).
Proof. unfold insertOutbox. steps_in. Defined.
#[export] Instance Steps_insert_items o i l : Steps (insert_items o i l).
Proof. revert i. induction l as [|x l IH]; intros i; cbn [insert_items]; steps_in. Defined.
#[export] Instance Steps_create_replay a op k h : Steps (create_replay a op k h).
Proof. unfold create_replay. steps_in. Defined.
#[export] Instance Steps_create_new o : Steps (create_new o).
Proof. unfold create_new. steps_in. Defined.
#[export] Instance Steps_insertCompensationCommands o s c f at_ : Steps (insertCompensationCommands o s c f at_).
Proof. unfold insertCompensationCommands. steps_in. Defined.
#[export] Instance Steps_cancel_replay a op k h : Steps (cancel_replay a op k h).
Proof. unfold cancel_replay. steps_in. Defined.
#[export] Instance Steps_cancel_new a o op k re v at_ : Steps (cancel_new a o op k re v at_).
Proof. unfold cancel_new. steps_in. Defined.
#[export] Instance Steps_updateWorkflow o st f r p s t now : Steps (updateWorkflow o st f r p s t now).
Proof. unfold updateWorkflow, updateWorkflowAtVersion. steps_in. Defined.
#[export] Instance Steps_markInventoryReleased o now : Steps (markInventoryReleased o now).
Proof. unfold markInventoryReleased. steps_in. Defined.
#[export] Instance Steps_markPaymentRefunded o now : Steps (markPaymentRefunded o now).
Proof. unfold markPaymentRefunded. steps_in. Defined.
#[export] Instance Steps_maybeCompleteCancellation o s c now : Steps (maybeCompleteCancellation o s c now).
Proof. unfold maybeCompleteCancellation. steps_in. Defined.
#[export] Instance Steps_update_item_quote o i : Steps (update_item_quote o i).
Proof. unfold update_item_quote. steps_in. Defined.
#[export] Instance Steps_reserve_pending st o e r now : Steps (reserve_pending st o e r now).
Proof. unfold reserve_pending. steps_in. Defined.
#[export] Instance Steps_applyInventoryReserved st o e now : Steps (applyInventoryReserved st o e now).
Proof. unfold applyInventoryReserved. steps_in. Defined.
#[export] Instance Steps_confirm_paid o e p now : Steps (confirm_paid o e p now).
Proof. unfold confirm_paid. steps_in. Defined.
#[export] Instance Steps_applyPaymentAuthorized o e now : Steps (applyPaymentAuthorized o e now).
Proof. unfold applyPaymentAuthorized. steps_in. Defined.
#[export] Instance Steps_applyInventoryReleased o e now : Steps (applyInventoryReleased o e now).
Proof. unfold applyInventoryReleased. steps_in. Defined.
#[export] Instance Steps_applyPaymentRefunded o e now : Steps (applyPaymentRefunded o e now).
Proof. unfold applyPaymentRefunded. steps_in. Defined.
#[export] Instance Steps_applyFailure o e now : Steps (applyFailure o e now).
Proof. unfold applyFailure. steps_in. Defined.
#[export] Instance Steps_applyCompleted o e now : Steps (applyCompleted o e now).
Proof. unfold applyCompleted. steps_in. Defined.
#[export] Instance Steps_dispatch st o e now : Steps (dispatch st o e now).
Proof. unfold dispatch. steps_in. Defined.
#[export] Instance Steps_process_tx st g p e : Steps (process_tx st g p e).
Proof. unfold process_tx. steps_in. Defined.
End Statements.

(** ** The transactions of the store *)

(** SELECT ... FOR UPDATE SKIP LOCKED: rows others have locked are not there. *)
Definition claim_skipping `{Pg} (busy : gset OrdersKey) (owner : option string) (until : option Time) (limit : Z)
    (now : Time) (d : DB) : result goerr (DB * list OutboxRow) :=
  let? rows := limited limit (order_by Queries.oldest
    (filter (fun r => (Queries.due now r /\ Queries.unleased now r) /\ KOutbox (x_id r) ∉ busy) (outbox_events d))) in
  let ids := map x_id rows in
  Ok (set_outbox d (map (fun r => if decide (x_id r ∈ ids) then Queries.lease owner until r else r) (outbox_events d)),
      map (Queries.lease owner until) (filter (fun r => x_id r ∈ ids) (outbox_events d))).

Lemma claim_skipping_none `{Pg} owner until limit now d :
  claim_skipping ∅ owner until limit now d = Queries.ClaimPendingOutbox owner until limit now d.
Proof.
  unfold claim_skipping, Queries.ClaimPendingOutbox.
  replace (filter (fun r => (Queries.due now r /\ Queries.unleased now r) /\ KOutbox (x_id r) ∉ (∅ : gset OrdersKey)) (outbox_events d))
    with (filter (fun r => Queries.due now r /\ Queries.unleased now r) (outbox_events d)); [done|].
  apply list_filter_iff. intros r. set_solver.
Qed.

Inductive store_job :=
| CreateJob (actorID : string) (order : Order) (operation key requestHash : string)
| CancelJob (actorID orderID operation key requestHash reason : string) (expectedVersion : Z) (at_ : Time)
| ProcessJob (consumerGroup payload : string) (envelope : factEnvelope)
| FailureJob (consumerGroup payload reason : string) (retryAt : Time) (envelope : factEnvelope)
| DeadLetterJob (consumerGroup messageID reason : string)
| ClaimJob (owner : string) (limit : Z) (until : Time)
| PublishedJob (id : string) (at_ : Time)
| FailedJob (id reason : string) (retryAt : Time).
Definition job_answer (j : store_job) : Type :=
  match j with
  | CreateJob _ _ _ _ _ => CreateResult
  | CancelJob _ _ _ _ _ _ _ _ => Order
  | FailureJob _ _ _ _ _ => bool * Z
  | ClaimJob _ _ _ => list OutboxEvent
  | _ => unit
  end.

Section Jobs.
Context `{GoLib} `{Crypto} `{Env} `{Pg} `{KeySetHTTP} (st : Store).

#[export, refine] Instance Steps_claim owner until limit :
  Steps (DB := DB) (L := QuoteCache) (stmt (Queries.ClaimPendingOutbox owner until limit)) | 0 :=
  {| steps_of := Query (fun busy => claim_skipping busy owner until limit) Done; steps_alone := _ |}.
Proof.
  intros s. cbn [alone]. unfold stmt. rewrite claim_skipping_none.
  by destruct (trip_at (tick s)); try destruct (Queries.ClaimPendingOutbox _ _ _ _ _) as [[? ?]|].
Defined.

(** The bodies between begin and commit. *)
Definition create_tx actorID order operation key requestHash : Prog (outcome CreateResult) :=
  let! body := lift (jaccepted (ID order) (OStatus order) (CreatedAt order)) in
  let! inserted := mapE mapError (exec (Queries.InsertIdempotency actorID operation key requestHash
                     (Some (ID order)) (Some 202) (Some body) (CreatedAt order)
                     (Add (CreatedAt order) (48 * Hour)))) in
  if inserted =? 0 then create_replay actorID operation key requestHash
  else create_new order.
Definition cancel_tx actorID orderID operation key requestHash reason expectedVersion at_ : Prog (outcome Order) :=
  let! inserted := mapE mapError (exec (Queries.InsertIdempotency actorID operation key requestHash
                     None (Some 202) None at_ (Add at_ (48 * Hour)))) in
  if inserted =? 0 then cancel_replay actorID operation key requestHash
  else cancel_new actorID orderID operation key reason expectedVersion at_.
Definition failure_tx consumerGroup payload reason retryAt envelope : Prog (outcome (bool * Z)) :=
  let! now := timeNow in
  let! row := mapE mapError (exec (Queries.RecordInboxFailure consumerGroup
                (f_EventID envelope) (f_EventType envelope) (HexEncode (sha256 payload))
                (UTC now) (f_CorrelationID envelope) (nullString (f_CausationID envelope))
                (Some (take_string 512 reason)) (Some retryAt))) in
  ret (CommitThen (8 <=? fst row, fst row)).
(** A statement outside a transaction is one of its own. *)
Definition single {A} (m : Prog A) : Prog (outcome A) := let! a := m in ret (CommitThen a).

Definition job_tx (j : store_job) : Prog (outcome (job_answer j)) :=
  match j with
  | CreateJob a o op k h => create_tx a o op k h
  | CancelJob a o op k h re v at_ => cancel_tx a o op k h re v at_
  | ProcessJob g p e => process_tx st g p e
  | FailureJob g p re at_ e => failure_tx g p re at_ e
  | DeadLetterJob g m re => single (MarkFactDeadLetter g m re)
  | ClaimJob owner limit until => single (ClaimPendingOutbox owner limit until)
  | PublishedJob id at_ => single (MarkOutboxPublished id at_)
  | FailedJob id re at_ => single (MarkOutboxFailed id re at_)
  end.

(** They are the store's operations. *)
Lemma create_is_job a o op k h : Create a o op k h = in_tx mapError (job_tx (CreateJob a o op k h)).
Proof. done. Qed.
Lemma cancel_is_job a o op k h re v at_ :
  RequestCancellation a o op k h re v at_ = in_tx mapError (job_tx (CancelJob a o op k h re v at_)).
Proof. done. Qed.
Lemma process_is_job g p e : parse_fact p = Some e -> valid_envelope e = true ->
  ValidOrderID (fact_order e) && (f_CorrelationID e =? fact_order e)%string && validFactIdentity e = true ->
  ProcessFact st g p = in_tx mapError (job_tx (ProcessJob g p e)).
Proof. intros Hp Hv Hi. unfold ProcessFact. by rewrite Hp, Hv, Hi. Qed.
Lemma failure_is_job g p re at_ e : parse_fact p = Some e ->
  (f_EventID e =? "")%string || (f_EventType e =? "")%string || (f_CorrelationID e =? "")%string = false ->
  RecordFactFailure g p re at_ = in_tx mapError (job_tx (FailureJob g p re at_ e)).
Proof. intros Hp Hv. unfold RecordFactFailure. by rewrite Hp, Hv. Qed.

#[export] Instance Steps_create_tx a o op k h : Steps (create_tx a o op k h).
Proof. unfold create_tx. apply _. Defined.
#[export] Instance Steps_cancel_tx a o op k h re v at_ : Steps (cancel_tx a o op k h re v at_).
Proof. unfold cancel_tx. apply _. Defined.
#[export] Instance Steps_failure_tx g p re at_ e : Steps (failure_tx g p re at_ e).
Proof. unfold failure_tx. apply _. Defined.
#[export] Instance Steps_single {A} (m : Prog A) : Steps m -> Steps (single m).
Proof. intros Hm. unfold single. apply _. Defined.
#[export] Instance Steps_MarkFactDeadLetter g m re : Steps (MarkFactDeadLetter g m re).
Proof. unfold MarkFactDeadLetter. apply _. Defined.
#[export] Instance Steps_ClaimPendingOutbox owner limit until : Steps (ClaimPendingOutbox owner limit until).
Proof. unfold ClaimPendingOutbox. apply _. Defined.
#[export] Instance Steps_MarkOutboxPublished id at_ : Steps (MarkOutboxPublished id at_).
Proof. unfold MarkOutboxPublished. apply _. Defined.
#[export] Instance Steps_MarkOutboxFailed id re at_ : Steps (MarkOutboxFailed id re at_).
Proof. unfold MarkOutboxFailed. apply _. Defined.
#[export] Instance Steps_job_tx j : Steps (job_tx j) :=
  match j with
  | CreateJob a o op k h => Steps_create_tx a o op k h
  | CancelJob a o op k h re v at_ => Steps_cancel_tx a o op k h re v at_
  | ProcessJob g p e => Steps_process_tx st g p e
  | FailureJob g p re at_ e => Steps_failure_tx g p re at_ e
  | DeadLetterJob g m re => Steps_single (MarkFactDeadLetter g m re) _
  | ClaimJob owner limit until => Steps_single (ClaimPendingOutbox owner limit until) _
  | PublishedJob id at_ => Steps_single (MarkOutboxPublished id at_) _
  | FailedJob id re at_ => Steps_single (MarkOutboxFailed id re at_) _
  end.

Definition job_steps (j : store_job) : steps DB QuoteCache (outcome (job_answer j)) := steps_of (job_tx j).
Definition store_step_at := tx_step job_answer mapError job_steps.
(** Any number of clients of one database: their transactions begin, go on and
    end in any order. *)
Definition store_run := run (J := store_job) (Waits job_answer) store_step_at.
End Jobs.

(** ** Orders in hand *)

(** The order in hand is this row, as far as writes depend on it. *)
Record matches (o : Order) (r : OrderRow) : Prop := {
  mt_id : ID o = o_id r;
  mt_status : OStatus o = o_status r;
  mt_total : TotalMinor o = o_total_minor r;
  mt_reservation : ReservationID o = o_reservation_id r;
  mt_payment : PaymentID o = o_payment_id r;
  mt_released : InventoryReleased o = o_inventory_released r;
  mt_refunded : PaymentRefunded o = o_payment_refunded r;
  mt_version : Version o = wrap_u64 (o_version r)
}.
(** It was that row; others may have changed it since. *)
Definition follows `{GoLib} (o : Order) (d : DB) : Prop :=
  exists r0 r, matches o r0 /\ order_row_ok r0 = true /\ orders d !! ID o = Some r /\ order_evolves r0 r.

Lemma follows_evolve `{GoLib} o d d' : rows_evolve d d' -> follows o d -> follows o d'.
Proof.
  intros He (r0 & r & Hm & Hk & Hr & Hev). destruct (rows_evolve_order _ _ _ _ He Hr) as (r' & Hr' & Hev').
  exists r0, r'. split_and!; [done | done | done | by etransitivity].
Qed.

Lemma wrap_i64_u64 z : 0 < z -> wrap_i64 (wrap_u64 z) <= z.
Proof.
  intros Hz. unfold wrap_i64, wrap_u64. rewrite Z.add_mod_idemp_l by lia.
  pose proof (Z.mod_le (z + 2 ^ 63) (2 ^ 64)). lia.
Qed.
(** With its version unchanged it still is that row. *)
Lemma follows_current `{GoLib} o d r : follows o d -> orders d !! ID o = Some r ->
  o_version r = wrap_i64 (Version o) -> matches o r /\ order_row_ok r = true.
Proof.
  intros (r0 & r' & Hm & Hk & Hr' & Hev) Hr Hv. simplify_eq.
  destruct (oe_version _ _ Hev) as [->|Hlt]; [done|]. exfalso.
  rewrite (mt_version _ _ Hm) in Hv. unfold order_row_ok in Hk.
  apply andb_true_iff in Hk as [_ Hpos%Z.ltb_lt]. pose proof (wrap_i64_u64 _ Hpos). lia.
Qed.
Lemma matches_follows `{GoLib} o d r : matches o r -> order_row_ok r = true -> orders d !! ID o = Some r -> follows o d.
Proof. intros Hm Hk Hr. exists r, r. by split_and!. Qed.
Lemma bump_version v : 0 < v -> v + 1 < 2 ^ 63 -> wrap_u64 (wrap_u64 v + 1) = wrap_u64 (v + 1).
Proof. intros. rewrite (wrap_u64_id v) by (unfold in_u64; lia). done. Qed.

(** ** What the statements leave alone *)

(** The tables kept as lists change in place and grow at the end; only these
    idempotency records are written and only these orders added. *)
Record steady `{GoLib} (new : string -> Prop) (mine : string * string * string -> Prop) (d d' : DB) : Prop := {
  sd_place : in_place d d';
  sd_idem : forall m, ~ mine m -> idempotency_records d' !! m = idempotency_records d !! m;
  sd_orders : forall id, ~ new id -> orders d !! id = None -> orders d' !! id = None
}.

Definition inbox_key (k : OrdersKey) : Prop := match k with KInbox _ => True | _ => False end.
Definition ledger_key (k : OrdersKey) : Prop := match k with KInbox _ | KIdem _ => True | _ => False end.

Section Ledgers.
Context `{GoLib} `{Crypto} `{Env} `{Pg} `{KeySetHTTP}.

Lemma claimed_row_skipping busy limit now (l rows : list OutboxRow) r :
  NoDup (map x_id l) ->
  limited limit (order_by Queries.oldest
    (filter (fun r => (Queries.due now r /\ Queries.unleased now r) /\ KOutbox (x_id r) ∉ (busy : gset OrdersKey)) l)) = Ok rows ->
  r ∈ l -> x_id r ∈ map x_id rows -> Queries.due now r.
Proof.
  intros Hnd Hl Hr Hid. unfold limited in Hl. destruct (_ <? _); [done|]. injection Hl as <-.
  apply list_elem_of_fmap in Hid as (r2 & Hid & Hin). apply list_elem_of_lookup in Hin as [i Hi].
  apply lookup_take_Some in Hi as [Hi _].
  apply list_elem_of_lookup_2, order_by_elem, list_elem_of_filter in Hi as [[[Hdue _] _] Hin2].
  by rewrite (same_row_by_id _ _ _ Hnd Hr Hin2 Hid).
Qed.
Lemma claim_side busy owner until limit now d d' l :
  claim_skipping busy owner until limit now d = Ok (d', l) -> side_evolves d d' /\ inbox_messages d' = inbox_messages d.
Proof.
  unfold claim_skipping. destruct (limited _ _) as [rows|] eqn:Hl; intros [= <- _]. split; [|done].
  apply side_set_outbox. intros Hnd. split.
  - rewrite map_map. erewrite map_ext; [exact Hnd|]. intros r. by case_decide.
  - apply list_evolves_map. intros r Hr. case_decide as Hid; [|reflexivity].
    destruct (claimed_row_skipping _ _ _ _ _ _ Hnd Hl Hr Hid) as [Hp _].
    constructor; cbn; auto; [lia | congruence].
Qed.

(** A row of the table that is not the one written. *)
Ltac other_row :=
  intros; cbn [orders idempotency_records set_orders set_idem]; rewrite lookup_insert_ne;
  [done | intros ?; subst; first [congruence | contradiction]].
(** Unfolds a query and reads off which tables it sets. *)
Ltac other_table :=
  let d := fresh "d" in let d' := fresh "d" in let a := fresh "a" in let Hq := fresh "Hq" in
  intros d d' a Hq;
  first [refine (conj _ _); [constructor|] | constructor];
  try (solve [eapply db_evolves_in_place; eauto with streamweave]);
  unfold Queries.GetOrder, Queries.GetOrderItems, Queries.InsertOrder, Queries.InsertOrderItem,
    Queries.UpdateOrderItemQuote, Queries.UpdateOrderCancellation, Queries.UpdateOrderWorkflowState,
    Queries.MarkInventoryReleased, Queries.MarkPaymentRefunded, Queries.GetSagaByOrderID, Queries.InsertSaga,
    Queries.UpdateSagaPhase, Queries.InsertIdempotency, Queries.GetIdempotency, Queries.UpdateIdempotencyResponse,
    Queries.GetInbox, Queries.InsertInbox, Queries.MarkInboxProcessed, Queries.RecordInboxFailure,
    Queries.MarkInboxDeadLetter, Queries.InsertOutbox, Queries.MarkOutboxPublished, Queries.MarkOutboxFailed in Hq;
  go_inv Hq; repeat match goal with Hp : put_order _ _ _ = Ok _ |- _ => apply put_order_ok in Hp as [-> _] end;
  first [reflexivity | by apply in_place_same | by intros | other_row].
Ltac leaves_by lemma :=
  repeat first
    [ progress intros
    | done
    | solve [eauto with streamweave]
    | apply relates_bind
    | apply relates_mapE
    | apply lemma; other_table
    | apply relates_if
    | apply relates_option
    | apply relates_for_each
    | match goal with |- relates _ (match ?x with _ => _ end) => destruct x eqn:? end ].
Hint Resolve side_db : streamweave.

Section Leaves.
Context (R : relation DB) (new : string -> Prop) (mine : string * string * string -> Prop)
  (HR : forall d d', steady new mine d d' -> inbox_messages d' = inbox_messages d -> R d d').
Notation leaves_ m := (relates (L := QuoteCache) R m).

Lemma steady_query {A} (q : DB -> result goerr (DB * A)) :
  (forall d d' a, q d = Ok (d', a) -> steady new mine d d' /\ inbox_messages d' = inbox_messages d) -> leaves_ (exec q).
Proof. intros Hq. apply relates_exec. intros d d' a Ha. destruct (Hq d d' a Ha) as [? ?]. by apply HR. Qed.

Ltac leaves := leaves_by steady_query.

Lemma insertOutbox_leaves t o p at_ : leaves_ (insertOutbox t o p at_).
Proof. unfold insertOutbox, Steps_insertOutbox. leaves. Qed.
Lemma commandPayload_leaves t o s c op data : leaves_ (commandPayload t o s c op data).
Proof. unfold commandPayload, Steps_commandPayload. leaves. Qed.
Lemma eventPayloadFor_leaves t o s c op data : leaves_ (eventPayloadFor t o s c op data).
Proof. unfold eventPayloadFor, Steps_eventPayloadFor. leaves. Qed.
Hint Resolve insertOutbox_leaves commandPayload_leaves eventPayloadFor_leaves : streamweave.
Lemma key_leaves url id : leaves_ (key url id).
Proof. unfold key, refresh_keys, Steps_key. leaves. Qed.
Hint Resolve key_leaves : streamweave.
Lemma Verify_leaves v quote id jws now : leaves_ (Verify v quote id jws now).
Proof. unfold Verify, Steps_Verify. leaves. Qed.
Lemma insertCompensationCommands_leaves o s c f at_ : leaves_ (insertCompensationCommands o s c f at_).
Proof. unfold insertCompensationCommands, Steps_insertCompensationCommands. leaves. Qed.
Lemma loadOrder_leaves id : leaves_ (loadOrder id).
Proof. unfold loadOrder, Steps_loadOrder. leaves. Qed.
Lemma insert_items_leaves o i l : leaves_ (insert_items o i l).
Proof. revert i. induction l as [|x l IH]; intros i; [done|]. cbn [insert_items]. leaves. Qed.
Lemma updateWorkflow_leaves o to f re pa sh tot now : leaves_ (updateWorkflow o to f re pa sh tot now).
Proof. unfold updateWorkflow, updateWorkflowAtVersion, Steps_updateWorkflow. leaves. Qed.
Lemma markInventoryReleased_leaves o now : leaves_ (markInventoryReleased o now).
Proof. unfold markInventoryReleased, Steps_markInventoryReleased. leaves. Qed.
Lemma markPaymentRefunded_leaves o now : leaves_ (markPaymentRefunded o now).
Proof. unfold markPaymentRefunded, Steps_markPaymentRefunded. leaves. Qed.
Hint Resolve Verify_leaves insertCompensationCommands_leaves loadOrder_leaves insert_items_leaves
  updateWorkflow_leaves markInventoryReleased_leaves markPaymentRefunded_leaves : streamweave.
Lemma maybeCompleteCancellation_leaves o s c now : leaves_ (maybeCompleteCancellation o s c now).
Proof. unfold maybeCompleteCancellation, Steps_maybeCompleteCancellation. leaves. Qed.
Hint Resolve maybeCompleteCancellation_leaves : streamweave.

Lemma dispatch_leaves st o e now : leaves_ (dispatch st o e now).
Proof.
  unfold dispatch, Steps_dispatch, applyInventoryReserved, Steps_applyInventoryReserved, reserve_pending,
    Steps_reserve_pending, update_item_quote, Steps_update_item_quote, applyInventoryReleased,
    Steps_applyInventoryReleased, applyPaymentRefunded, Steps_applyPaymentRefunded, applyFailure, Steps_applyFailure,
    applyPaymentAuthorized, Steps_applyPaymentAuthorized, confirm_paid, Steps_confirm_paid, applyCompleted,
    Steps_applyCompleted.
  leaves.
Qed.
Lemma create_new_leaves o : new (ID o) -> leaves_ (create_new o).
Proof. intros Hnew. unfold create_new, Steps_create_new. leaves. Qed.
Hint Resolve create_new_leaves : streamweave.
Lemma create_leaves a o op k h : new (ID o) -> mine (a, op, k) -> leaves_ (create_tx a o op k h).
Proof.
  intros Hnew Hmine. unfold create_tx, Steps_create_tx, create_replay, Steps_create_replay. leaves.
Qed.
Lemma cancel_leaves a o op k h re v at_ : mine (a, op, k) -> leaves_ (cancel_tx a o op k h re v at_).
Proof.
  intros Hmine. unfold cancel_tx, Steps_cancel_tx, cancel_replay, Steps_cancel_replay, cancel_new, Steps_cancel_new. leaves.
Qed.
Lemma published_leaves id at_ : leaves_ (single (MarkOutboxPublished id at_)).
Proof. unfold single, Steps_single, MarkOutboxPublished, Steps_MarkOutboxPublished. leaves. Qed.
Lemma failed_leaves id re at_ : leaves_ (single (MarkOutboxFailed id re at_)).
Proof. unfold single, Steps_single, MarkOutboxFailed, Steps_MarkOutboxFailed. leaves. Qed.
Lemma claim_leaves owner limit until : leaves_ (single (ClaimPendingOutbox owner limit until)).
Proof.
  unfold single, Steps_single, ClaimPendingOutbox, Steps_ClaimPendingOutbox. apply relates_bind; [|done]. apply relates_bind; [|done]. apply relates_mapE.
  split; [|done]. intros busy now d d' l Hq. pose proof (claim_side _ _ _ _ _ _ _ _ Hq) as [Hs Hi].
  apply HR; [|done]. constructor; [by apply db_evolves_in_place, side_db|..];
    unfold claim_skipping in Hq; go_inv Hq; by intros.
Qed.
End Leaves.

Definition none {A} (_ : A) : Prop := False.
Lemma untouched_steady K new d d' : (forall k, K k -> ledger_key k) -> steady new none d d' ->
  inbox_messages d' = inbox_messages d -> untouched K d d'.
Proof. intros HK [_ Hd _] Hi k Hk%HK. destruct k; try done; cbn; [by rewrite Hi | by rewrite Hd by intros []]. Qed.
Lemma untouched_inbox d d' : inbox_messages d' = inbox_messages d -> untouched inbox_key d d'.
Proof. intros Hi [] Hk; try done. cbn. by rewrite Hi. Qed.
Lemma inbox_untouched new mine d d' :
  steady new mine d d' -> inbox_messages d' = inbox_messages d -> untouched inbox_key d d'.
Proof. intros _. apply untouched_inbox. Qed.
Lemma create_new_ledgers o : relates (L := QuoteCache) (untouched ledger_key) (create_new o).
Proof. apply (create_new_leaves _ (eq (ID o)) none); [|done]. intros d d'. by apply untouched_steady. Qed.

(** The orders and the idempotency record a transaction may add. *)
Definition job_order (j : store_job) (id : string) : Prop :=
  match j with CreateJob _ o _ _ _ => id = ID o | _ => False end.
Definition job_key (j : store_job) (m : string * string * string) : Prop :=
  match j with CreateJob a _ op k _ | CancelJob a _ op k _ _ _ _ => m = (a, op, k) | _ => False end.

Lemma inbox_query {A} new mine (q : DB -> result goerr (DB * A)) :
  (forall d d' a, q d = Ok (d', a) -> steady new mine d d') -> relates (L := QuoteCache) (steady new mine) (exec q).
Proof. apply relates_exec. Qed.
Lemma steady_steady new mine d d' :
  steady new mine d d' -> inbox_messages d' = inbox_messages d -> steady new mine d d'.
Proof. done. Qed.
Hint Resolve steady_steady loadOrder_leaves dispatch_leaves : streamweave.
Lemma job_steady st j : every (steady (job_order j) (job_key j)) (job_steps st j).
Proof.
  change (relates (steady (job_order j) (job_key j)) (job_tx st j)). destruct j; cbn [job_tx Steps_job_tx].
  - by eapply create_leaves; eauto using steady_steady.
  - by eapply cancel_leaves; eauto using steady_steady.
  - unfold process_tx, Steps_process_tx. leaves_by (@inbox_query).
  - unfold failure_tx, Steps_failure_tx. leaves_by (@inbox_query).
  - unfold single, Steps_single, MarkFactDeadLetter, Steps_MarkFactDeadLetter. leaves_by (@inbox_query).
  - by eapply claim_leaves; eauto using steady_steady.
  - by eapply published_leaves; eauto using steady_steady.
  - by eapply failed_leaves; eauto using steady_steady.
Qed.
(** No statement of any transaction moves a row of a list. *)
Lemma job_in_place st j : every in_place (job_steps st j).
Proof. eapply every_mono; [|apply job_steady]. by intros d d' []. Qed.
End Ledgers.

(** ** What each transaction guarantees *)

Section Guarantees.
Context `{GoLib} `{Crypto} `{Env} `{Pg} `{KeySetHTTP}.
(** Messages whose failures are not recorded: their committed inbox rows are
    settled. *)
Context (quiet : string * string -> Prop).

Definition settled_com (k : OrdersKey) (o : option OrdersRow) : Prop :=
  match k, o with
  | KInbox m, Some (AnInbox row) => quiet m -> settled (n_status row) = true
  | _, _ => True
  end.

Notation safe_ m d b Q := (safe (L := QuoteCache) orders_ev db_ok settled_com m d b Q).
Notation sound_ m := (sound (L := QuoteCache) orders_ev db_ok settled_com m).

Lemma sound_query {A} (q : DB -> result goerr (DB * A)) :
  (forall d d' a, q d = Ok (d', a) -> db_evolves d d') -> sound_ (exec q).
Proof. intros Hq. apply sound_exec. intros d1 d2 a Ht Ha. apply db_evolves_rows; [done | by eapply Hq]. Qed.

Hint Resolve side_db sound_ret sound_fail sound_lift sound_uuid sound_now sound_get_loc sound_put_loc : streamweave.

(** Goes through a program statement by statement. *)
Ltac sounds :=
  repeat first
    [ progress intros
    | solve [eauto with streamweave]
    | apply sound_bind; [apply _|..]
    | apply sound_mapE
    | apply sound_query
    | apply sound_if
    | apply sound_option
    | apply sound_for_each; [apply _|]
    | match goal with |- sound _ _ _ (match ?x with _ => _ end) => destruct x eqn:? end ].

Lemma insertOutbox_sound t o p at_ : sound_ (insertOutbox t o p at_).
Proof. unfold insertOutbox, Steps_insertOutbox. sounds. Qed.
Lemma commandPayload_sound t o s c op data : sound_ (commandPayload t o s c op data).
Proof. unfold commandPayload, Steps_commandPayload. sounds. Qed.
Lemma eventPayloadFor_sound t o s c op data : sound_ (eventPayloadFor t o s c op data).
Proof. unfold eventPayloadFor, Steps_eventPayloadFor. sounds. Qed.
Lemma http_get_sound url : sound_ (http_get url).
Proof. by intros d b _ l t a _. Qed.
Hint Resolve insertOutbox_sound commandPayload_sound eventPayloadFor_sound http_get_sound : streamweave.
Lemma key_sound url id : sound_ (key url id).
Proof. unfold key, refresh_keys, Steps_key. sounds. Qed.
Hint Resolve key_sound : streamweave.
Lemma Verify_sound v quote id jws now : sound_ (Verify v quote id jws now).
Proof. unfold Verify, Steps_Verify. sounds. Qed.
Lemma insertCompensationCommands_sound o s c f at_ : sound_ (insertCompensationCommands o s c f at_).
Proof. unfold insertCompensationCommands, Steps_insertCompensationCommands. sounds. Qed.
Lemma loadOrder_sound id : sound_ (loadOrder id).
Proof. unfold loadOrder, Steps_loadOrder. sounds. Qed.
Lemma insert_items_sound o i l : sound_ (insert_items o i l).
Proof. revert i. induction l as [|x l IH]; intros i; [apply (sound_ret _ _ _ tt)|]. cbn [insert_items]. sounds. Qed.
Hint Resolve Verify_sound insertCompensationCommands_sound loadOrder_sound insert_items_sound : streamweave.
Lemma create_new_sound o : sound_ (create_new o).
Proof. unfold create_new, Steps_create_new. sounds. Qed.
Lemma create_replay_sound a op k h : sound_ (create_replay a op k h).
Proof. unfold create_replay, Steps_create_replay. sounds. Qed.
Lemma cancel_new_sound a o op k re v at_ : sound_ (cancel_new a o op k re v at_).
Proof. unfold cancel_new, Steps_cancel_new. sounds. Qed.
Lemma cancel_replay_sound a op k h : sound_ (cancel_replay a op k h).
Proof. unfold cancel_replay, Steps_cancel_replay. sounds. Qed.

(** ** The handlers of facts *)

Lemma loadOrder_safe id d b : db_ok d -> safe_ (loadOrder id) d b (fun o d' _ => follows o d').
Proof.
  intros Hd. apply safe_then with (R := fun r d' _ => o_id r = id /\ order_row_ok r = true /\ orders d' !! id = Some r);
    [apply _ | done | |].
  - apply safe_mapE, safe_exec. intros d1 d2 r (_ & _ & Ht & _) [-> Hr]%GetOrder_ok.
    split_and!; [reflexivity | done | | | done]; by apply Ht in Hr as (? & ? & _).
  - intros r d1 b1 _ Ht (Hid & Hk & Hr). apply safe_then with (R := fun _ _ _ => True); [apply _ | done | |].
    { apply safe_mapE. apply (sound_query); [|done]. intros d2 d3 a Hq. by eapply side_db, GetOrderItems_side. }
    intros items d2 b2 He _ _. apply safe_ret.
    apply (follows_evolve _ _ _ He). by apply matches_follows with r; [constructor| |cbn; rewrite Hid].
Qed.

(** The statement that moves an order along, against the version in hand. *)
Lemma updateWorkflow_sound o0 o to f re pa sh tot now d b :
  db_ok d -> follows o0 d -> ID o = ID o0 -> Version o = Version o0 -> OStatus o = OStatus o0 ->
  IsTerminal (OStatus o) = false -> (to = OStatus o \/ store_edge (OStatus o) to) ->
  (forall t, TotalMinor o0 = Some t -> tot = Some t) ->
  (to = StatusCancelled -> re = "" /\ pa = "" /\ compensated o0 = true) ->
  safe_ (updateWorkflow o to f re pa sh tot now) d b (fun _ _ _ => True).
Proof.
  intros Hd Hf Hid Hv Hs Hterm He Htot Hcan. apply safe_if; [rewrite Hterm, andb_false_r; done|]. intros _.
  apply safe_then with (R := fun _ _ _ => True); [apply _ | done | |].
  2:{ intros n d1 b1 _ Ht _. apply safe_if; intros _; [by apply safe_ret | apply safe_fail]. }
  apply safe_mapE, safe_exec. intros d1 d2 n (He1 & _ & Ht & _) Hq.
  assert (db_evolves d1 d2); [|by destruct (db_evolves_rows d1 d2)].
  destruct (decide (n = 1)) as [Hn|Hn].
  2:{ unfold Queries.UpdateOrderWorkflowState in Hq.
      destruct (orders d1 !! ID o); [destruct (_ =? _); [go_inv Hq; congruence|]|]; by injection Hq as <- _. }
  destruct (UpdateOrderWorkflowState_ok _ _ _ _ _ _ _ _ _ _ _ _ Hq Hn) as (r & Hr & Hver & _ & -> & Hok).
  rewrite Hid in Hr. rewrite Hv in Hver.
  destruct (follows_current _ _ _ (follows_evolve _ _ _ He1 Hf) Hr Hver) as [Hm Hrow]. rewrite Hid.
  apply set_orders_evolves; [|congruence|done|].
  - intros r0 ?; simplify_eq. apply order_evolves_intro; cbn; auto; [|rewrite Hv; lia|].
    + rewrite <- (mt_status _ _ Hm), <- Hs. destruct He as [-> | He]; [done | by apply rtc_once].
    + intros t Hx. rewrite <- (mt_total _ _ Hm) in Hx. by rewrite (Htot t Hx).
  - cbn. intros _ Hc. destruct (Hcan Hc) as (-> & -> & Hcomp). unfold compensated in Hcomp.
    rewrite (mt_reservation _ _ Hm), (mt_payment _ _ Hm), (mt_released _ _ Hm), (mt_refunded _ _ Hm) in Hcomp.
    apply andb_true_iff in Hcomp as [Hc1 Hc2].
    split; cbn; intros Hn'; [by destruct (o_reservation_id r) | by destruct (o_payment_id r)].
Qed.

(** A flag is set once: what the update leaves is the order in hand again. *)
Lemma flag_query o d d1 d2 b n released refunded now (q : DB -> result goerr (DB * Z)) :
  follows o d -> finds orders_ev db_ok settled_com d b d1 -> q d1 = Ok (d2, n) ->
  (n <> 1 -> d2 = d1) ->
  (n = 1 -> exists r, orders d1 !! ID o = Some r /\ o_version r = wrap_i64 (Version o) /\
     o_version r + 1 < 2 ^ 63 /\
     let r' := mkOrderRow (o_id r) (o_customer_id r) (o_currency r) (o_total_minor r) (o_status r)
       (o_failure_code r) (o_reservation_id r) (o_payment_id r) (o_shipment_id r) (o_version r + 1)
       (o_created_at r) (pg_time now) (o_inventory_released r || released) (o_payment_refunded r || refunded) in
     d2 = set_orders d1 (<[ID o := r']> (orders d1)) /\ order_row_ok r' = true) ->
  rows_evolve d1 d2 /\ db_ok d2 /\
  (n = 1 -> follows (bump (with_flags o (InventoryReleased o || released) (PaymentRefunded o || refunded) now)) d2).
Proof.
  intros Hf (He & _ & Ht & _) Hq Hno Hyes. destruct (decide (n = 1)) as [Hn|Hn].
  2:{ rewrite (Hno Hn). split_and!; [reflexivity | done | done]. }
  destruct (Hyes Hn) as (r & Hr & Hver & Hmax & Heq & Hok).
  destruct (follows_current _ _ _ (follows_evolve _ _ _ He Hf) Hr Hver) as [Hm Hrow].
  assert (db_evolves d1 d2) as Hev.
  { rewrite Heq. apply set_orders_evolves; [|congruence|done|].
    - intros r0 ?; simplify_eq. apply order_evolves_intro; cbn; auto; [done | lia | by intros -> | by intros ->].
    - intros Hrows Hc. destruct (Hrows _ _ Hr) as (_ & _ & Hcomp). destruct (Hcomp Hc) as [Hc1 Hc2].
      split; cbn; intros Hx; [by rewrite Hc1 | by rewrite Hc2]. }
  destruct (db_evolves_rows d1 d2 Ht Hev) as [Hrev Hok2]. split_and!; [done | done|]. intros _.
  eapply matches_follows; [|exact Hok|by rewrite Heq; cbn; apply lookup_insert_eq].
  unfold order_row_ok in Hrow. apply andb_true_iff in Hrow as [_ Hpos%Z.ltb_lt].
  constructor; cbn; try apply Hm; [by rewrite (mt_released _ _ Hm) | by rewrite (mt_refunded _ _ Hm)|].
  rewrite (mt_version _ _ Hm). by apply bump_version.
Qed.

(** A flag's UPDATE finds no row, or the row at the version asked for. *)
Lemma MarkInventoryReleased_row id now v d d' n :
  Queries.MarkInventoryReleased id now v d = Ok (d', n) ->
  (n <> 1 -> d' = d) /\
  (n = 1 -> exists r, orders d !! id = Some r /\ o_version r = v /\ o_version r + 1 < 2 ^ 63 /\
     let r' := mkOrderRow (o_id r) (o_customer_id r) (o_currency r) (o_total_minor r) (o_status r)
       (o_failure_code r) (o_reservation_id r) (o_payment_id r) (o_shipment_id r) (o_version r + 1)
       (o_created_at r) (pg_time now) (o_inventory_released r || true) (o_payment_refunded r || false) in
     d' = set_orders d (<[id := r']> (orders d)) /\ order_row_ok r' = true).
Proof.
  unfold Queries.MarkInventoryReleased. destruct (orders d !! id) as [r|] eqn:Hr; [|by intros [= <- <-]].
  destruct (_ && _) eqn:Hc; [|by intros [= <- <-]]. apply andb_true_iff in Hc as [Hv%Z.eqb_eq _].
  destruct (next_bigint _) as [w|] eqn:Hw; [|done]. apply next_bigint_ok in Hw as [-> Hw].
  destruct (put_order _ _ _) as [x|] eqn:Hp; [|done]. apply put_order_ok in Hp as [-> Hok]. intros [= <- <-].
  split; [done|]. intros _. exists r. by rewrite orb_true_r, orb_false_r.
Qed.
Lemma MarkPaymentRefunded_row id now v d d' n :
  Queries.MarkPaymentRefunded id now v d = Ok (d', n) ->
  (n <> 1 -> d' = d) /\
  (n = 1 -> exists r, orders d !! id = Some r /\ o_version r = v /\ o_version r + 1 < 2 ^ 63 /\
     let r' := mkOrderRow (o_id r) (o_customer_id r) (o_currency r) (o_total_minor r) (o_status r)
       (o_failure_code r) (o_reservation_id r) (o_payment_id r) (o_shipment_id r) (o_version r + 1)
       (o_created_at r) (pg_time now) (o_inventory_released r || false) (o_payment_refunded r || true) in
     d' = set_orders d (<[id := r']> (orders d)) /\ order_row_ok r' = true).
Proof.
  unfold Queries.MarkPaymentRefunded. destruct (orders d !! id) as [r|] eqn:Hr; [|by intros [= <- <-]].
  destruct (_ && _) eqn:Hc; [|by intros [= <- <-]]. apply andb_true_iff in Hc as [Hv%Z.eqb_eq _].
  destruct (next_bigint _) as [w|] eqn:Hw; [|done]. apply next_bigint_ok in Hw as [-> Hw].
  destruct (put_order _ _ _) as [x|] eqn:Hp; [|done]. apply put_order_ok in Hp as [-> Hok]. intros [= <- <-].
  split; [done|]. intros _. exists r. by rewrite orb_true_r, orb_false_r.
Qed.

(** Both handlers: the update, and the refusal when it found no row. *)
Lemma flag_safe o released refunded now (q : DB -> result goerr (DB * Z)) d b :
  db_ok d -> follows o d ->
  (forall d1 d2 n, finds orders_ev db_ok settled_com d b d1 -> q d1 = Ok (d2, n) ->
     rows_evolve d1 d2 /\ db_ok d2 /\ (n = 1 -> follows (bump (with_flags o released refunded now)) d2)) ->
  safe_ (let! rows := mapE mapError (exec q) in
         guard rows =? 1 else ErrConflict in ret (bump (with_flags o released refunded now))) d b
    (fun o' d' _ => follows o' d' /\ OStatus o' = OStatus o).
Proof.
  intros Hd Hf Hq.
  apply safe_then with (R := fun n d' _ => n = 1 -> follows (bump (with_flags o released refunded now)) d');
    [apply _ | done | apply safe_mapE, safe_exec; by apply Hq |].
  intros n d1 b1 _ Ht Hfol. apply safe_if; intros Hn; [|apply safe_fail]. apply Z.eqb_eq in Hn.
  apply safe_ret. auto.
Qed.
Lemma markInventoryReleased_safe o now d b :
  db_ok d -> follows o d ->
  safe_ (markInventoryReleased o now) d b (fun o' d' _ => follows o' d' /\ OStatus o' = OStatus o).
Proof.
  intros Hd Hf. apply safe_if; intros Hrel; [by apply safe_ret|]. apply flag_safe; [done | done|].
  intros d1 d2 n Hfi Hq. pose proof (MarkInventoryReleased_row _ _ _ _ _ _ Hq) as [Hno Hyes].
  pose proof (flag_query o d d1 d2 b n true false now _ Hf Hfi Hq Hno Hyes) as Hr. by rewrite orb_true_r, orb_false_r in Hr.
Qed.
Lemma markPaymentRefunded_safe o now d b :
  db_ok d -> follows o d ->
  safe_ (markPaymentRefunded o now) d b (fun o' d' _ => follows o' d' /\ OStatus o' = OStatus o).
Proof.
  intros Hd Hf. apply safe_if; intros Hrel; [by apply safe_ret|]. apply flag_safe; [done | done|].
  intros d1 d2 n Hfi Hq. pose proof (MarkPaymentRefunded_row _ _ _ _ _ _ Hq) as [Hno Hyes].
  pose proof (flag_query o d d1 d2 b n false true now _ Hf Hfi Hq Hno Hyes) as Hr. by rewrite orb_true_r, orb_false_r in Hr.
Qed.

Lemma sound_safe {A} (m : Prog A) `{!Steps m} d b : sound_ m -> db_ok d -> safe_ m d b (fun _ _ _ => True).
Proof. intros Hm Hd. by apply Hm. Qed.
(** What is left of a handler only has to be sound. *)
Ltac rest := intros; apply sound_safe; [sounds | done].
(** An update of the order in hand, then the rest. *)
Ltac moves o := eapply safe_then; [apply _ | done | apply (updateWorkflow_sound o); try done | rest].

Lemma maybeCompleteCancellation_safe o sg ca now d b :
  db_ok d -> follows o d -> safe_ (maybeCompleteCancellation o sg ca now) d b (fun _ _ _ => True).
Proof.
  intros Hd Hf. apply safe_if; intros Hc; [by apply safe_ret|]. apply negb_false_iff, String.eqb_eq in Hc.
  apply safe_if; intros Hcomp; [by apply safe_ret|]. apply negb_false_iff in Hcomp.
  moves o; [by rewrite Hc | right; left; by rewrite Hc].
Qed.

Lemma applyInventoryReleased_safe o e now d b :
  db_ok d -> follows o d -> safe_ (applyInventoryReleased o e now) d b (fun _ _ _ => True).
Proof.
  intros Hd Hf. apply safe_if; intros _; [apply safe_fail|]. apply safe_if; intros _; [by apply safe_ret|].
  eapply safe_then; [apply _ | done | by apply markInventoryReleased_safe|].
  intros o' d' b' _ Hd' [Hf' _]. by apply maybeCompleteCancellation_safe.
Qed.
Lemma applyPaymentRefunded_safe o e now d b :
  db_ok d -> follows o d -> safe_ (applyPaymentRefunded o e now) d b (fun _ _ _ => True).
Proof.
  intros Hd Hf. apply safe_if; intros _; [apply safe_fail|]. apply safe_if; intros _; [by apply safe_ret|].
  eapply safe_then; [apply _ | done | by apply markPaymentRefunded_safe|].
  intros o' d' b' _ Hd' [Hf' _]. by apply maybeCompleteCancellation_safe.
Qed.
Lemma applyCompleted_safe o e now d b :
  db_ok d -> follows o d -> safe_ (applyCompleted o e now) d b (fun _ _ _ => True).
Proof.
  intros Hd Hf. apply safe_if; intros Ht; [by apply safe_ret|]. apply safe_if; intros _; [|apply safe_fail].
  moves o. right; right; auto.
Qed.

Lemma follows_status o d : follows o d -> OStatus o ∈ statuses.
Proof. intros (r0 & r & Hm & Hk & _). rewrite (mt_status _ _ Hm). by apply order_row_status. Qed.

Lemma applyFailure_safe o e now d b :
  db_ok d -> follows o d -> safe_ (applyFailure o e now) d b (fun _ _ _ => True).
Proof.
  intros Hd Hf. apply safe_if; intros Hc.
  - eapply safe_then with (R := fun o' d' _ => follows o' d'); [apply _ | done | |].
    { apply safe_if; intros _; [eapply safe_mono; [|by apply markInventoryReleased_safe]; by intros ? ? ? []|].
      apply safe_if; intros _; [eapply safe_mono; [|by apply markPaymentRefunded_safe]; by intros ? ? ? []|].
      by apply safe_ret. }
    intros o' d' b' _ Hd' Hf'. apply sound_then; [apply _ | done | sounds|].
    intros _ d2 b2 He2 Hd2. apply maybeCompleteCancellation_safe; [done | by eapply follows_evolve].
  - apply String.eqb_neq in Hc. apply safe_if; intros Ht; [by apply safe_ret|].
    moves o. right; left. by apply may_fail; [apply (follows_status o d)| |].
Qed.

Lemma applyPaymentAuthorized_safe o e now d b :
  db_ok d -> follows o d -> safe_ (applyPaymentAuthorized o e now) d b (fun _ _ _ => True).
Proof.
  intros Hd Hf. apply safe_if; intros Ht; [by apply safe_ret|]. apply orb_false_iff in Ht as [Ht Hcf%String.eqb_neq].
  apply safe_if; intros _; [|apply safe_fail]. apply safe_if; intros _; [|apply safe_fail].
  apply safe_if; intros Hc.
  - apply String.eqb_eq in Hc. moves o. by left.
  - apply String.eqb_neq in Hc. moves o. right; left. by apply may_confirm; [apply (follows_status o d)| | |].
Qed.

Lemma reserve_pending_safe st o e rid now d b :
  db_ok d -> follows o d -> safe_ (reserve_pending st o e rid now) d b (fun _ _ _ => True).
Proof.
  intros Hd Hf. apply safe_if; intros _; [apply safe_fail|].
  apply safe_bind, safe_lift. intros qv _. apply safe_if; intros _; [apply safe_fail|].
  apply safe_bind, safe_lift. intros lines _. apply sound_then; [apply _ | done | sounds|].
  intros _ d1 b1 He1 Hd1. apply safe_bind, safe_lift. intros [prices quantities] _.
  apply safe_if; intros _; [|apply safe_fail]. apply safe_bind, safe_lift. intros o' Ha.
  apply apply_quote_ok in Ha as (Hst & Hnone & total & ls & _ & ->).
  apply sound_then; [apply _ | done | unfold update_item_quote; sounds|]. intros _ d2 b2 He2 Hd2.
  assert (follows o d2) as Hf2 by (eapply follows_evolve, follows_evolve; eassumption).
  moves o; cbn; [by rewrite Hst | by left | by rewrite Hnone].
Qed.

Lemma applyInventoryReserved_safe st o e now d b :
  db_ok d -> follows o d -> safe_ (applyInventoryReserved st o e now) d b (fun _ _ _ => True).
Proof.
  intros Hd Hf. apply safe_if; intros Ht; [by apply safe_ret|]. apply safe_if; intros _; [|apply safe_fail].
  apply safe_if; intros _; [apply safe_fail|]. apply safe_if; intros Hc.
  - apply String.eqb_eq in Hc. moves o. by left.
  - apply safe_if; intros _; [by apply safe_ret | by apply reserve_pending_safe].
Qed.

Lemma dispatch_safe st o e now d b :
  db_ok d -> follows o d -> safe_ (dispatch st o e now) d b (fun _ _ _ => True).
Proof.
  intros Hd Hf. unfold dispatch.
  repeat (apply safe_if; intros _;
    [by auto using applyInventoryReserved_safe, applyInventoryReleased_safe, applyPaymentRefunded_safe,
       applyFailure_safe, applyPaymentAuthorized_safe, applyCompleted_safe|]).
  apply safe_fail.
Qed.

(** ** Transactions up to their commit *)

Notation marks := (gmap (Key DB) (option (Row DB))).

(** Of the inbox at most this row was written. *)
Definition only_inbox (m : string * string) (b : marks) : Prop := forall m', m' <> m -> b !! KInbox m' = None.
(** The delivery is the one that recorded the message. *)
Definition recorded (m : string * string) (b : marks) : Prop := quiet m -> b !! KInbox m = Some None.
Definition settled_row (m : string * string) (d : DB) : Prop :=
  exists row, inbox_messages d !! m = Some row /\ settled (n_status row) = true.
Definition marks_settled (d : DB) (b : marks) : Prop := forall k, b !! k <> None -> settled_com k (orders_row d k).

Lemma writes_row (b : marks) (d d' : DB) (k : OrdersKey) (o : option (option OrdersRow)) : b !! k = o ->
  writes b d d' !! k = match o with
                       | Some r => Some r
                       | None => if decide (orders_row d k = orders_row d' k) then None else Some (orders_row d k)
                       end.
Proof. intros <-. exact (writes_lookup db_ok b d d' k). Qed.
Lemma writes_old (b : marks) (d d' : DB) (k : OrdersKey) o : b !! k = Some o -> writes b d d' !! k = Some o.
Proof. apply writes_row. Qed.
Lemma writes_same (b : marks) (d d' : DB) (k : OrdersKey) :
  b !! k = None -> orders_row d k = orders_row d' k -> writes b d d' !! k = None.
Proof. intros Hb Hr. rewrite (writes_row _ _ _ _ _ Hb). by apply decide_True. Qed.
Lemma writes_new (b : marks) (d d' : DB) (k : OrdersKey) :
  b !! k = None -> orders_row d k <> orders_row d' k -> writes b d d' !! k = Some (orders_row d k).
Proof. intros Hb Hr. rewrite (writes_row _ _ _ _ _ Hb). by apply decide_False. Qed.

Lemma marked (b : marks) (k : OrdersKey) o : b !! k = Some o -> b !! k <> None.
Proof. congruence. Qed.

Lemma set_inbox_marks d b m row : only_inbox m b ->
  only_inbox m (writes b d (set_inbox d (<[m := row]> (inbox_messages d)))).
Proof.
  intros Hb m' Hne. apply writes_same; [by apply Hb|]. cbn. by rewrite lookup_insert_ne.
Qed.
Lemma settled_marks d b m row : only_inbox m b -> inbox_messages d !! m = Some row -> settled (n_status row) = true ->
  marks_settled d b.
Proof.
  intros Hb Hrow Hset [] Hk; try done. cbn. destruct (decide (message = m)) as [->|Hne]; [rewrite Hrow; by intros _|].
  by destruct Hk; apply Hb.
Qed.

Lemma InsertInbox_row g m t h at_ c ca d d' n :
  Queries.InsertInbox g m t h at_ c ca d = Ok (d', n) ->
  (n = 0 /\ d' = d /\ is_Some (inbox_messages d !! (g, m))) \/
  (n = 1 /\ inbox_messages d !! (g, m) = None /\ exists row, d' = set_inbox d (<[(g, m) := row]> (inbox_messages d))).
Proof. unfold Queries.InsertInbox. destruct (inbox_messages d !! (g, m)); intros [= <- <-]; eauto 8. Qed.

(** Recording the message: the delivery does it, or finds it recorded. *)
Lemma insert_safe g m t h at_ c ca d :
  db_ok d ->
  safe_ (mapE mapError (exec (Queries.InsertInbox g m t h at_ c ca))) d ∅
    (fun n d' b' => is_Some (inbox_messages d' !! (g, m)) /\ only_inbox (g, m) b' /\
       b' !! KInbox (g, m) = if n =? 0 then None else Some None).
Proof.
  intros Hd. apply safe_mapE, safe_exec. intros d1 d2 n (_ & _ & Ht & _) Hq.
  destruct (db_evolves_rows d1 d2 Ht) as [He Ht2]; [by eapply side_db, InsertInbox_side|].
  split; [done|]. split; [done|].
  apply InsertInbox_row in Hq as [(-> & -> & Hsome)|(-> & Hnone & row & ->)].
  - split; [done|]. split; [intros m' _|]; by apply writes_same.
  - split; [cbn; rewrite lookup_insert_eq; eauto|]. split; [by apply set_inbox_marks|]. rewrite writes_new; [cbn; by rewrite Hnone | done|].
    cbn. by rewrite Hnone, lookup_insert_eq.
Qed.
Lemma lookup_safe g m n d b :
  db_ok d -> only_inbox (g, m) b -> b !! KInbox (g, m) = (if n =? 0 then None else Some None) ->
  safe_ (if n =? 0 then
           let! record := mapE mapError (exec (Queries.GetInbox g m)) in ret (settled (n_status record))
         else ret false) d b
    (fun fin _ b' => only_inbox (g, m) b' /\ (fin = false -> recorded (g, m) b')).
Proof.
  intros Hd Ho Hn. destruct (n =? 0) eqn:Hz; [|apply safe_ret; split; [done | by intros _ _]].
  apply safe_then with (R := fun r _ b' => only_inbox (g, m) b' /\ (quiet (g, m) -> settled (n_status r) = true));
    [apply _ | done | |].
  - apply safe_mapE, safe_exec. intros d2 d3 r (_ & _ & Ht & Hcm) Hq. unfold Queries.GetInbox in Hq.
    destruct (inbox_messages d2 !! (g, m)) as [row|] eqn:Hrow; [|done]. injection Hq as <- <-.
    split; [reflexivity|]. split; [done|]. split.
    + intros m' Hne. apply writes_same; [by apply Ho | done].
    + specialize (Hcm _ Hn). cbn in Hcm. by rewrite Hrow in Hcm.
  - intros r d2 b2 _ _ [Ho2 Hset]. apply safe_ret. split; [done|]. intros Hf Hq. by rewrite (Hset Hq) in Hf.
Qed.

Lemma MarkInboxProcessed_row g m t d d' u :
  Queries.MarkInboxProcessed g m t d = Ok (d', u) ->
  (inbox_messages d !! (g, m) = None /\ d' = d) \/
  exists row, settled (n_status row) = true /\ d' = set_inbox d (<[(g, m) := row]> (inbox_messages d)).
Proof.
  unfold Queries.MarkInboxProcessed. destruct (inbox_messages d !! (g, m)); intros [= <- <-]; [right|by left].
  by eexists; split; [|reflexivity].
Qed.
Lemma inbox_evolve d d' m : rows_evolve d d' -> is_Some (inbox_messages d !! m) -> is_Some (inbox_messages d' !! m).
Proof.
  intros He Hs. eapply fmap_is_Some, (rows_evolve_present _ _ (KInbox m) He). by apply fmap_is_Some.
Qed.
Lemma mark_safe g m t d b :
  is_Some (inbox_messages d !! (g, m)) -> only_inbox (g, m) b -> recorded (g, m) b ->
  safe_ (mapE mapError (exec (Queries.MarkInboxProcessed g m t))) d b
    (fun _ d' b' => marks_settled d' b' /\ recorded (g, m) b' /\ settled_row (g, m) d').
Proof.
  intros Hsome Ho Hr. apply safe_mapE, safe_exec. intros d1 d2 u (He1 & _ & Ht & _) Hq.
  destruct (db_evolves_rows d1 d2 Ht) as [He Ht2]; [by eapply side_db, MarkInboxProcessed_side|].
  apply (inbox_evolve _ _ _ He1) in Hsome as [row0 Hrow0].
  apply MarkInboxProcessed_row in Hq as [[Hn _]|(row & Hrow & ->)]; [congruence|].
  split; [done|]. split; [done|]. split_and!.
  - apply (settled_marks _ _ (g, m) row); [by apply set_inbox_marks | cbn; apply lookup_insert_eq | done].
  - intros Hquiet. apply writes_old, Hr, Hquiet.
  - exists row. cbn. by rewrite lookup_insert_eq.
Qed.

Lemma process_safe st g p e d :
  db_ok d -> safe_ (process_tx st g p e) d ∅
    (fun out d' b' => forall x, out = CommitThen x ->
       marks_settled d' b' /\ recorded (g, f_EventID e) b' /\ settled_row (g, f_EventID e) d').
Proof.
  intros Hd. apply safe_bind, safe_now. intros received.
  eapply safe_then; [apply _ | done | by apply insert_safe|]. intros n d1 b1 _ Hd1 (Hs1 & Ho1 & Hn1).
  eapply safe_then; [apply _ | done | by apply lookup_safe|]. intros fin d2 b2 He2 Hd2 [Ho2 Hr2].
  apply safe_if; intros Hfin; [by apply safe_ret|]. specialize (Hr2 Hfin).
  eapply safe_then; [apply _ | done | apply safe_spared; [apply _ | apply (loadOrder_leaves _ none none), inbox_untouched | by apply loadOrder_safe]|].
  intros o d3 b3 He3 Hd3 [Hf3 Hb3]. apply safe_bind, safe_now. intros now.
  eapply safe_then; [apply _ | done | apply safe_spared; [apply _ | apply (dispatch_leaves _ none none), inbox_untouched | by apply dispatch_safe]|].
  intros _ d4 b4 He4 Hd4 [_ Hb4].
  eapply safe_then; [apply _ | done | apply mark_safe|].
  - by eapply inbox_evolve, inbox_evolve, inbox_evolve.
  - intros m' Hne. rewrite Hb4, Hb3 by done. by apply Ho2.
  - intros Hq. rewrite Hb4, Hb3 by done. by apply Hr2.
  - intros u d5 b5 _ _ Hpost. apply safe_ret. intros x _. exact Hpost.
Qed.

(** Orders and idempotency records that are not the transaction's own to add. *)
Definition job_adds (j : store_job) (b : marks) : Prop :=
  (forall id, ~ job_order j id -> b !! KOrder id <> Some None) /\ (forall m, ~ job_key j m -> b !! KIdem m = None).
(** The creation inserted the record, which names its order, or nothing. *)
Definition creation_mark (o : Order) (m : string * string * string) (d : DB) (b : marks) : Prop :=
  (b !! KIdem m = Some None /\ exists row, idempotency_records d !! m = Some row /\ d_resource_id row = Some (ID o)) \/
  (b !! KIdem m = None /\ b !! KOrder (ID o) = None).
(** What a delivery, a creation and a cancellation have locked when they commit. *)
Definition job_mark (j : store_job) (d : DB) (b : marks) : Prop :=
  match j with
  | ProcessJob g _ e => recorded (g, f_EventID e) b /\ settled_row (g, f_EventID e) d
  | CreateJob a o op k _ => creation_mark o (a, op, k) d b
  | CancelJob a _ op k _ _ _ _ => b !! KIdem (a, op, k) = Some None \/ b !! KIdem (a, op, k) = None
  | _ => True
  end.
(** What every transaction has shown when it commits. *)
Definition job_post (j : store_job) (r : result goerr (outcome (job_answer j))) (d : DB) (b : marks) : Prop :=
  forall a, r = Ok (CommitThen a) -> marks_settled d b /\ job_mark j d b /\ job_adds j b.
Definition unrecorded (j : store_job) : Prop :=
  match j with FailureJob g _ _ _ e => ~ quiet (g, f_EventID e) | _ => True end.

(** A transaction that does not touch the inbox. *)
Lemma outside_safe {A} (m : Prog (outcome A)) `{!Steps m} d (Q : DB -> marks -> Prop) :
  relates (untouched inbox_key) m -> safe_ m d ∅ (fun _ => Q) ->
  safe_ m d ∅ (fun out d' b' => forall x, out = CommitThen x -> marks_settled d' b' /\ Q d' b').
Proof.
  intros Hs Hm. eapply safe_mono; [|by apply safe_spared; [apply _ | exact Hs | exact Hm]].
  intros a d' b' [HQ Hb] x _. split; [|done]. intros [] Hk; try done. by destruct Hk; rewrite Hb.
Qed.
(** A transaction of one statement that writes one inbox row. *)
Lemma inbox_statement {A} (q : DB -> result goerr (DB * A)) m d :
  (forall d1 d2 a, q d1 = Ok (d2, a) -> side_evolves d1 d2 /\
     (d2 = d1 \/ exists row, d2 = set_inbox d1 (<[m := row]> (inbox_messages d1)) /\
                             (quiet m -> settled (n_status row) = true))) ->
  safe_ (mapE mapError (exec q)) d ∅ (fun _ d' b' => marks_settled d' b').
Proof.
  intros Hq. apply safe_mapE, safe_exec. intros d1 d2 a (_ & _ & Ht & _) Ha.
  destruct (Hq d1 d2 a Ha) as [Hside Hrow].
  destruct (db_evolves_rows d1 d2 Ht (side_db _ _ Hside)) as [He Ht2]. split; [done|]. split; [done|].
  destruct Hrow as [->|(row & -> & Hset)]; intros [] Hk; try done.
  - destruct Hk. by apply writes_same.
  - cbn. destruct (decide (message = m)) as [->|Hne]; [by rewrite lookup_insert_eq|].
    destruct Hk. by apply (set_inbox_marks _ ∅ m).
Qed.

Lemma claim_keeps owner until limit d b :
  keeps (L := QuoteCache) orders_ev db_ok settled_com
    (steps_of (stmt (Queries.ClaimPendingOutbox owner until limit))) d b (fun _ _ _ => True).
Proof.
  intros d1 busy now _ _ Ht _. split; [done|]. intros d2 l Hq. apply claim_side in Hq as [Hs _].
  destruct (db_evolves_rows d1 d2 Ht (side_db _ _ Hs)). by split_and!.
Qed.

Lemma published_sound id at_ : sound_ (single (MarkOutboxPublished id at_)).
Proof. unfold single, Steps_single, MarkOutboxPublished, Steps_MarkOutboxPublished. sounds. Qed.
Lemma failed_sound id re at_ : sound_ (single (MarkOutboxFailed id re at_)).
Proof. unfold single, Steps_single, MarkOutboxFailed, Steps_MarkOutboxFailed. sounds. Qed.
Lemma claim_safe owner limit until d : safe_ (single (ClaimPendingOutbox owner limit until)) d ∅ (fun _ _ _ => True).
Proof.
  apply safe_bind, safe_bind, safe_mapE. unfold safe. eapply keeps_mono; [|apply claim_keeps].
  intros r d' b' _ rows _. apply safe_ret. by apply safe_ret.
Qed.
Lemma RecordInboxFailure_row g m t h ra c ca le na d d' r :
  Queries.RecordInboxFailure g m t h ra c ca le na d = Ok (d', r) ->
  exists row, d' = set_inbox d (<[(g, m) := row]> (inbox_messages d)).
Proof.
  unfold Queries.RecordInboxFailure. destruct (inbox_messages d !! (g, m)) as [row|]; [|intros [= <- _]; eauto].
  destruct (next_integer _); intros [= <- _]; eauto.
Qed.
Lemma MarkInboxDeadLetter_row g m t d d' u :
  Queries.MarkInboxDeadLetter g m t d = Ok (d', u) ->
  d' = d \/ exists row, settled (n_status row) = true /\ d' = set_inbox d (<[(g, m) := row]> (inbox_messages d)).
Proof.
  unfold Queries.MarkInboxDeadLetter. destruct (inbox_messages d !! (g, m)); intros [= <- _]; [right|by left].
  by eexists; split; [|reflexivity].
Qed.

(** A program that only reads leaves no mark. *)
Ltac reads :=
  repeat first [ progress intros | done | apply relates_bind | apply relates_mapE | apply relates_if
               | apply relates_exec | case_match ];
  match goal with Hq : _ = Ok _ |- _ =>
    unfold Queries.GetIdempotency, Queries.GetOrder, Queries.GetOrderItems in Hq; by go_inv Hq end.
Lemma create_replay_reads a op k h : relates (L := QuoteCache) (untouched (fun _ => True)) (create_replay a op k h).
Proof. unfold create_replay, Steps_create_replay, loadOrder, Steps_loadOrder. reads. Qed.
Lemma cancel_replay_reads a op k h : relates (L := QuoteCache) (untouched (fun _ => True)) (cancel_replay a op k h).
Proof. unfold cancel_replay, Steps_cancel_replay, loadOrder, Steps_loadOrder. reads. Qed.

(** Claiming the key: its record is inserted, or nothing is written. *)
Lemma claim_key_safe a op k h ri rs rb c ex d : db_ok d ->
  safe_ (mapE mapError (exec (Queries.InsertIdempotency a op k h ri rs rb c ex))) d ∅ (fun n d' b' =>
    if n =? 0 then forall i, b' !! i = None
    else b' !! KIdem (a, op, k) = Some None /\
         exists row, idempotency_records d' !! (a, op, k) = Some row /\ d_resource_id row = ri).
Proof.
  intros Hd. apply safe_mapE, safe_exec. intros d1 d2 n (_ & _ & Ht & _) Hq.
  destruct (db_evolves_rows d1 d2 Ht) as [He Ht2]; [by eapply side_db, InsertIdempotency_side|].
  split; [done|]. split; [done|]. revert Hq. unfold Queries.InsertIdempotency.
  destruct (idempotency_records d1 !! (a, op, k)) eqn:Hrow; intros [= <- <-]; cbn [Z.eqb].
  - intros ?. by apply writes_same.
  - split; [|cbn; rewrite lookup_insert_eq; eauto].
    rewrite writes_new; cbn; rewrite ?lookup_insert_eq, ?Hrow; done.
Qed.

Lemma create_safe a o op k h d : db_ok d ->
  safe_ (create_tx a o op k h) d ∅ (fun _ d' b' => creation_mark o (a, op, k) d' b').
Proof.
  intros Hd. apply safe_bind, safe_lift. intros body _.
  eapply safe_then; [apply _ | done | by apply claim_key_safe|].
  intros n d1 b1 _ Hd1 Hn. apply safe_if; intros Hz; cbv beta in Hn; rewrite Hz in Hn.
  - eapply safe_mono; [|apply safe_spared; [apply _ | apply create_replay_reads | by apply create_replay_sound]].
    intros out d' b' [_ Hb]. right. by rewrite !Hb, !Hn.
  - destruct Hn as [Hmark (row & Hrow & Hres)]. unfold safe.
    eapply keeps_mono; [|apply keeps_spares; [apply _ | apply create_new_ledgers | by apply create_new_sound]].
    intros r d' b' [_ Hb] out _. left. destruct (Hb (KIdem (a, op, k)) I) as [Hb' Hr].
    split; [exact (eq_trans Hb' Hmark)|]. exists row. split; [|done].
    specialize (Hr (marked _ _ _ Hmark)).
    cbn in Hr. rewrite Hrow in Hr. by destruct (idempotency_records d' !! (a, op, k)); [injection Hr as ->|].
Qed.
Lemma cancel_safe a o op k h re v at_ d : db_ok d ->
  safe_ (cancel_tx a o op k h re v at_) d ∅ (fun _ d' b' =>
    b' !! KIdem (a, op, k) = Some None \/ b' !! KIdem (a, op, k) = None).
Proof.
  intros Hd. eapply safe_then; [apply _ | done | by apply claim_key_safe|].
  intros n d1 b1 _ Hd1 Hn. apply safe_if; intros Hz; cbv beta in Hn; rewrite Hz in Hn.
  - eapply safe_mono; [|apply safe_spared; [apply _ | apply cancel_replay_reads | by apply cancel_replay_sound]].
    intros out d' b' [_ Hb]. right. by rewrite Hb, Hn.
  - destruct Hn as [Hmark _]. unfold safe.
    eapply keeps_mono; [|apply (keeps_invariant _ _ _ (fun _ _ => True) (fun b => b !! KIdem (a, op, k) = Some None));
      [apply every_any | intros b d2 d3 Hb _; by apply writes_old | done | by apply cancel_new_sound]].
    intros r d' b' [_ Hb] out _. by left.
Qed.
Lemma failure_safe g p re at_ e d : db_ok d -> ~ quiet (g, f_EventID e) ->
  safe_ (failure_tx g p re at_ e) d ∅ (fun out d' b' => forall x, out = CommitThen x -> marks_settled d' b' /\ True).
Proof.
  intros Hd Hj. apply safe_bind, safe_now. intros now.
  eapply safe_then; [apply _ | done | apply (inbox_statement _ (g, f_EventID e))|].
  { intros d1 d2 a Hq. split; [by eapply RecordInboxFailure_side|]. right.
    apply RecordInboxFailure_row in Hq as [row ->]. exists row. split; [done|]. intros Hquiet. by destruct Hj. }
  intros a d' b' _ _ Hm. apply safe_ret. by intros x _.
Qed.
Lemma dead_letter_safe g m re d : db_ok d ->
  safe_ (single (MarkFactDeadLetter g m re)) d ∅ (fun out d' b' => forall x, out = CommitThen x -> marks_settled d' b' /\ True).
Proof.
  intros Hd. eapply safe_then; [apply _ | done | apply (inbox_statement _ (g, m))|].
  { intros d1 d2 a Hq. split; [by eapply MarkInboxDeadLetter_side|].
    apply MarkInboxDeadLetter_row in Hq as [->|(row & Hs & ->)]; [by left | right; eauto]. }
  intros a d' b' _ _ Hm. apply safe_ret. by intros x _.
Qed.

(** What the statements of a transaction add. *)
Lemma adds_writes j b d1 d2 : job_adds j b -> steady (job_order j) (job_key j) d1 d2 -> job_adds j (writes b d1 d2).
Proof.
  intros [Ho Hi] [_ Hidem Hord]. split.
  - intros id Hn Hw. rewrite (writes_row _ _ _ _ _ eq_refl) in Hw. specialize (Ho id Hn).
    destruct (b !! KOrder id) as [r|]; [done|]. destruct (decide _) as [|Hne]; [done|]. injection Hw as Hw. apply Hne.
    cbn in Hw |- *. destruct (orders d1 !! id) eqn:Hr; [done|]. by rewrite (Hord id Hn Hr).
  - intros m Hn. apply writes_same; [by apply Hi|]. cbn. by rewrite Hidem.
Qed.

Lemma job_keeps st j d : unrecorded j -> db_ok d ->
  keeps orders_ev db_ok settled_com (job_steps st j) d ∅ (job_post j).
Proof.
  intros Hj Hd.
  assert (safe_ (job_tx st j) d ∅ (fun out d' b' => forall x, out = CommitThen x -> marks_settled d' b' /\ job_mark j d' b')) as Hs.
  2:{ unfold safe in Hs. eapply keeps_mono; [|apply (keeps_invariant _ _ _ (steady (job_order j) (job_key j)) (job_adds j));
        [apply job_steady | apply adds_writes | by split | exact Hs]].
      intros r d' b' [Hr Ha] a ->. destruct (Hr _ eq_refl a eq_refl). by split_and!. }
  destruct j; cbn [job_tx Steps_job_tx job_answer job_mark].
  - apply (outside_safe (create_tx actorID order operation key requestHash)); [|by apply create_safe].
    by apply (create_leaves _ (eq (ID order)) (eq (actorID, operation, key))); [apply inbox_untouched|..].
  - apply (outside_safe (cancel_tx actorID orderID operation key requestHash reason expectedVersion at_)); [|by apply cancel_safe].
    by apply (cancel_leaves _ none (eq (actorID, operation, key))); [apply inbox_untouched|..].
  - by apply process_safe.
  - by apply failure_safe.
  - by apply dead_letter_safe.
  - apply (outside_safe (single (ClaimPendingOutbox owner limit until))); [apply (claim_leaves _ none none), inbox_untouched | by apply claim_safe].
  - apply (outside_safe (single (MarkOutboxPublished id at_))); [apply (published_leaves _ none none), inbox_untouched | by apply published_sound].
  - apply (outside_safe (single (MarkOutboxFailed id reason retryAt))); [apply (failed_leaves _ none none), inbox_untouched | by apply failed_sound].
Qed.
End Guarantees.
