(* ===== verification/OrdersStoreFacts.v ===== *)
(** * Orders: what Create and RequestCancellation commit

    The transactional outbox and the idempotency keys of the store: an order is
    stored with its lines, its saga and its two messages or not at all, a key
    replays its order or conflicts, a cancellation moves the version it was
    asked for. *)
From Stdlib Require Import ZArith Lia Ascii String.
From stdpp Require Import base gmap strings list relations pretty.
From S2P Require Import Prelude GoStrings GoErrors GoTime GoJson GoBase64 GoCrypto OrdersDomain.
From S2P Require Import Tx OrdersTables OrdersPorts OrdersQuote OrdersStore OrdersSaga.
From S2P Require Import OrdersHistory.

Open Scope string_scope.
Open Scope Z_scope.
Open Scope go_scope.

(** The first member of an object under a key. *)
Fixpoint first_field (fs : list (string * json)) (k : string) : option json :=
  match fs with
  | [] => None
  | (k', v) :: r => if (k' =? k)%string then Some v else first_field r k
  end.
Definition field (j : json) (k : string) : option json :=
  match j with JObj fs => first_field fs k | _ => None end.

(** An unpublished message of an order. *)
Definition pending_message (o : Order) (topic messageType : string) (m : OutboxRow) : Prop :=
  x_topic m = topic /\ x_message_type m = messageType /\ x_partition_key m = ID o /\
  x_aggregate_id m = ID o /\ x_published_at m = None /\ x_attempts m = 0.

Section Create.
Context `{GoLib} `{Crypto} `{Env} `{Pg}.

(** The rows a new order becomes. *)
Definition order_row_of (o : Order) : OrderRow :=
  mkOrderRow (ID o) (CustomerID o) (Currency o) None (OStatus o) None None None None
    (wrap_i64 (Version o)) (pg_time (CreatedAt o)) (pg_time (CreatedAt o)) false false.
Fixpoint item_rows (orderID : string) (index : Z) (items : list Item) : list ItemRow :=
  match items with
  | [] => []
  | item :: rest =>
      mkItemRow orderID (wrap_i32 (index + 1)) (ProductID item) (Quantity item) None None None None
        :: item_rows orderID (index + 1) rest
  end.

(** The two messages of a new order: the event and the command that starts the
    saga, both carrying the order and its lines. *)
Definition created_event (o : Order) (m : OutboxRow) : Prop :=
  pending_message o "commerce.order.events.v1" "commerce.order.created.v1" m /\
  exists data, field (x_payload m) "data" = Some data /\
    field data "order_id" = Some (jstr (ID o)) /\ field data "items" = Some (orderItemsPayload o).
Definition reserve_command (o : Order) (m : OutboxRow) : Prop :=
  pending_message o "commerce.inventory.commands.v1" "commerce.inventory.reserve.v1" m /\
  exists data, field (x_payload m) "data" = Some data /\
    field data "order_id" = Some (jstr (ID o)) /\ field data "items" = Some (orderItemsPayload o).

Record order_created (actorID operation key requestHash : string) (o : Order) (d d' : DB) : Prop := {
  oc_new_key : idempotency_records d !! (actorID, operation, key) = None;
  oc_new_id : orders d !! ID o = None;
  oc_order : orders d' = <[ID o := order_row_of o]> (orders d);
  oc_lines : order_items d' = (order_items d ++ item_rows (ID o) 0 (Items o))%list;
  oc_saga : exists u, saga_instances d !! ("sag_" +:+ u) = None /\
    saga_instances d' = <["sag_" +:+ u := mkSagaRow ("sag_" +:+ u) (ID o)
      "INVENTORY_RESERVATION_PENDING" 1 None (pg_time (CreatedAt o)) (pg_time (CreatedAt o))]>
      (saga_instances d);
  oc_outbox : exists m1 m2, outbox_events d' = (outbox_events d ++ [m1; m2])%list /\
    created_event o m1 /\ reserve_command o m2;
  oc_idem : exists body, jaccepted (ID o) (OStatus o) (CreatedAt o) = Ok body /\
    idempotency_records d' = <[(actorID, operation, key) :=
      mkIdemRow requestHash "COMPLETED" (Some (ID o)) (Some 202) (Some body)
        (pg_time (CreatedAt o)) (pg_time (Add (CreatedAt o) (48 * Hour)))]> (idempotency_records d);
  oc_inbox : inbox_messages d' = inbox_messages d
}.

Lemma InsertOrderItem_ok o n p q d d' u :
  Queries.InsertOrderItem o n p q d = Ok (d', u) ->
  d' = set_order_items d (order_items d ++ [mkItemRow o n p q None None None None])%list.
Proof. unfold Queries.InsertOrderItem. intros Hq; go_inv Hq. done. Qed.

Lemma insert_items_ok oid items : forall n s s' u,
  insert_items oid n items s = (s', Ok u) ->
  db s' = set_order_items (db s) (order_items (db s) ++ item_rows oid n items)%list.
Proof.
  induction items as [|i rest IH]; intros n s s' u Hm; cbn [insert_items item_rows] in *.
  - run_inv Hm. rewrite app_nil_r. by destruct (db s).
  - apply bind_ok in Hm as (s1 & a & Hk1 & Hm). run_inv Hk1.
    apply InsertOrderItem_ok in Hq as ->. apply IH in Hm as ->. cbn.
    rewrite <- app_assoc. reflexivity.
Qed.

Lemma InsertOrder_ok i c cu t st v at_ d d' u :
  Queries.InsertOrder i c cu t st v at_ d = Ok (d', u) ->
  orders d !! i = None /\
  d' = set_orders d (<[i := mkOrderRow i c cu t st None None None None v (pg_time at_) (pg_time at_)
                             false false]> (orders d)).
Proof.
  unfold Queries.InsertOrder. destruct (orders d !! i) eqn:Hi; [done|].
  intros Hq; go_inv Hq. by apply put_order_ok in Heqr as [-> _].
Qed.
Lemma InsertSaga_ok i o p c d d' u :
  Queries.InsertSaga i o p c d = Ok (d', u) ->
  saga_instances d !! i = None /\
  d' = set_sagas d (<[i := mkSagaRow i o p 1 None (pg_time c) (pg_time c)]> (saga_instances d)).
Proof.
  unfold Queries.InsertSaga. case_bool_decide as Hn; [done|].
  intros Hq; go_inv Hq. split; [by apply eq_None_not_Some | done].
Qed.
Lemma InsertOutbox_ok i t k m at_ ai p h c d d' u :
  Queries.InsertOutbox i t k m at_ ai p h c d = Ok (d', u) ->
  exists hj, json_parse h = Some hj /\
  d' = set_outbox d (outbox_events d ++ [mkOutboxRow i t k m at_ ai p hj (pg_time c) None 0
                                           (pg_time c) None None None])%list.
Proof. unfold Queries.InsertOutbox. intros Hq; go_inv Hq. eauto. Qed.

(** A message appended by [insertOutbox]. *)
Lemma insertOutbox_ok o mt p at_ s s' u :
  insertOutbox mt (ID o) p at_ s = (s', Ok u) ->
  exists m, db s' = set_outbox (db s) (outbox_events (db s) ++ [m])%list /\
            pending_message o (topicFor mt) mt m /\ x_payload m = p.
Proof.
  unfold insertOutbox. intros Hm. run_inv Hm.
  apply InsertOutbox_ok in Hq as (hj & _ & ->). eexists. split; [reflexivity|].
  unfold pending_message; auto 10.
Qed.

(** The data of a command and of an event. *)
Lemma commandPayload_ok c o sg ca op data s s' j :
  commandPayload c o sg ca op data s = (s', Ok j) ->
  db s' = db s /\ field j "data" = Some (jmap data) /\
  field j "command_type" = Some (jstr c) /\ field j "aggregate_id" = Some (jstr (ID o)) /\
  field j "aggregate_version" = Some (jint (Version o)).
Proof. unfold commandPayload. intros Hm. run_inv Hm. auto 10. Qed.
Lemma jevent_ok i t o sg ca at_ op data j :
  jevent i t o sg ca at_ op data = Ok j ->
  field j "data" = Some data /\ field j "event_type" = Some (jstr t) /\
  field j "aggregate_version" = Some (jint (Version o)).
Proof. unfold jevent. intros Hj; go_inv Hj. auto. Qed.
Lemma eventPayloadFor_ok t o sg ca op data s s' j :
  eventPayloadFor t o sg ca op data s = (s', Ok j) ->
  db s' = db s /\ field j "data" = Some (jmap data) /\ field j "event_type" = Some (jstr t) /\
  field j "aggregate_version" = Some (jint (Version o)).
Proof. unfold eventPayloadFor. intros Hm. run_inv Hm. by apply jevent_ok in Hl as (? & ? & ?). Qed.

Lemma create_new_ok o s s' a :
  create_new o s = (s', Ok a) ->
  a = CommitThen (mkCreateResult o false (OStatus o) (CreatedAt o)) /\
  orders (db s) !! ID o = None /\
  orders (db s') = <[ID o := order_row_of o]> (orders (db s)) /\
  order_items (db s') = (order_items (db s) ++ item_rows (ID o) 0 (Items o))%list /\
  (exists u, saga_instances (db s) !! ("sag_" +:+ u) = None /\
     saga_instances (db s') = <["sag_" +:+ u := mkSagaRow ("sag_" +:+ u) (ID o)
       "INVENTORY_RESERVATION_PENDING" 1 None (pg_time (CreatedAt o)) (pg_time (CreatedAt o))]>
       (saga_instances (db s))) /\
  (exists m1 m2, outbox_events (db s') = (outbox_events (db s) ++ [m1; m2])%list /\
     created_event o m1 /\ reserve_command o m2) /\
  idempotency_records (db s') = idempotency_records (db s) /\
  inbox_messages (db s') = inbox_messages (db s).
Proof.
  unfold create_new. intros Hm.
  apply bind_ok in Hm as (s1 & u & Hk & Hm). run_inv Hk.
  apply InsertOrder_ok in Hq as [Hnone ->].
  apply bind_ok in Hm as (s2 & u2 & Hk & Hm). apply insert_items_ok in Hk. cbn in Hk.
  apply bind_ok in Hm as (s3 & u3 & Hu3 & Hm). apply newUUID_ok in Hu3 as [-> ->].
  apply bind_ok in Hm as (s4 & u4 & Hk4 & Hm). run_inv Hk4. cbn in Hq.
  apply InsertSaga_ok in Hq as [Hsg ->]. cbn in Hsg.
  apply bind_ok in Hm as (s5 & u5 & Hu5 & Hm). apply newUUID_ok in Hu5 as [-> ->].
  apply bind_ok in Hm as (s6 & u6 & Hu6 & Hm). apply newUUID_ok in Hu6 as [-> ->].
  apply bind_ok in Hm as (s7 & payload & Hp & Hm). apply lift_ok in Hp as [-> Hp].
  apply bind_ok in Hm as (s8 & u8 & Hu8 & Hm). apply newUUID_ok in Hu8 as [-> ->].
  apply bind_ok in Hm as (s9 & u9 & Hk9 & Hm). run_inv Hk9. cbn in Hq.
  apply InsertOutbox_ok in Hq as (hj & _ & ->).
  apply bind_ok in Hm as (s10 & reserve & Hres & Hm).
  apply commandPayload_ok in Hres as (Hd10 & Hdata & _).
  apply bind_ok in Hm as (s11 & u11 & Hk11 & Hm).
  apply insertOutbox_ok in Hk11 as (m2 & Hd11 & Hm2 & Hpm2).
  apply ret_ok in Hm as [-> ->].
  rewrite Hd11, Hd10, Hk; cbn. rewrite Hk in Hsg; cbn in Hsg.
  split_and!; try done; eauto.
  do 2 eexists. rewrite <- app_assoc. split; [reflexivity|]. split.
  - split; [unfold pending_message; auto 10|]. cbn.
    apply jevent_ok in Hp as (Hpd & _). eexists. split; [exact Hpd|]. split; reflexivity.
  - split; [exact Hm2|]. rewrite Hpm2. eexists. split; [exact Hdata|]. split; reflexivity.
Qed.

Lemma InsertIdempotency_ok a op k h ri rs rb c e d d' n :
  Queries.InsertIdempotency a op k h ri rs rb c e d = Ok (d', n) ->
  (n = 0 /\ d' = d /\ is_Some (idempotency_records d !! (a, op, k))) \/
  (n = 1 /\ idempotency_records d !! (a, op, k) = None /\
   d' = set_idem d (<[(a, op, k) := mkIdemRow h "COMPLETED" ri rs rb (pg_time c) (pg_time e)]>
                      (idempotency_records d))).
Proof.
  unfold Queries.InsertIdempotency. destruct (idempotency_records d !! (a, op, k)) eqn:Hi;
    intros [= <- <-]; [left; eauto | right; auto].
Qed.

Lemma loadOrder_same id s s' o : loadOrder id s = (s', Ok o) -> db s' = db s.
Proof. by intros (-> & _)%loadOrder_ok. Qed.

Lemma create_replay_ok a op k h s s' res :
  create_replay a op k h s = (s', Ok res) ->
  db s' = db s /\
  exists rec o st at_, idempotency_records (db s) !! (a, op, k) = Some rec /\
    d_request_hash rec = h /\ res = CommitThen (mkCreateResult o true st at_) /\
    exists r, orders (db s) !! default "" (d_resource_id rec) = Some r /\ ID o = o_id r /\
              OStatus o = o_status r /\
              (st, at_) = merge_accepted (d_response_body rec) (OStatus o) (CreatedAt o).
Proof.
  unfold create_replay. intros Hm.
  apply bind_ok in Hm as (s1 & rec & Hk & Hm). run_inv Hk.
  unfold Queries.GetIdempotency in Hq.
  destruct (idempotency_records (db s) !! (a, op, k)) as [rec'|] eqn:Hrec; [|done].
  injection Hq as <- <-.
  destruct (String.eqb_spec (d_request_hash rec') h) as [Hh|]; cbn [negb] in Hm; [|by apply fail_ok in Hm].
  apply bind_ok in Hm as (s2 & o & Hk & Hm). run_inv Hk. apply loadOrder_ok in Hk as (Hd & r & Hr & ->).
  cbn in Hd, Hr.
  destruct (merge_accepted _ _ _) as [st at_] eqn:Hma. apply ret_ok in Hm as [-> ->].
  split; [done|]. do 4 eexists. split_and!; eauto 10.
Qed.

Lemma load_run id s r :
  (forall n, trip_at n = TripOk) -> orders (db s) !! id = Some r ->
  exists s' o, db s' = db s /\ ID o = o_id r /\ loadOrder id s = (s', Ok o).
Proof.
  intros Ht Hr. unfold loadOrder. do 2 eexists. split; [|split].
  3:{ erewrite bind_run; [|apply mapE_run, exec_run; [apply Ht|]; unfold Queries.GetOrder;
        rewrite Hr; reflexivity].
      erewrite bind_run; [|apply mapE_run, exec_run; [apply Ht|reflexivity]]. reflexivity. }
  - done.
  - done.
Qed.

(** Forward execution of the replay, when the server answers. *)
Lemma replay_run a op k h s rec r :
  (forall n, trip_at n = TripOk) -> idempotency_records (db s) !! (a, op, k) = Some rec ->
  orders (db s) !! default "" (d_resource_id rec) = Some r ->
  exists s', db s' = db s /\
    if (d_request_hash rec =? h)%string
    then exists o st at_, create_replay a op k h s = (s', Ok (CommitThen (mkCreateResult o true st at_))) /\
           ID o = o_id r /\ (st, at_) = merge_accepted (d_response_body rec) (OStatus o) (CreatedAt o)
    else create_replay a op k h s = (s', Err ErrIdempotencyConflict).
Proof.
  intros Ht Hrec Hr. unfold create_replay.
  erewrite bind_run; [|apply mapE_run, exec_run; [apply Ht|]; unfold Queries.GetIdempotency;
    rewrite Hrec; reflexivity].
  destruct (d_request_hash rec =? h)%string; cbn [negb].
  - destruct (load_run (default "" (d_resource_id rec)) (set_db (advance s) (db s)) r Ht Hr)
      as (s2 & o & Hd2 & Hid & Hload).
    rewrite (bind_run _ _ _ s2 o) by (by apply mapE_run).
    destruct (merge_accepted _ _ _) as [st at_] eqn:Hma. exists s2. split; [done|].
    exists o, st, at_. auto.
  - eexists; split; [|reflexivity]. done.
Qed.

Lemma Create_cases a o op k h s s1 res :
  (let! body := lift (jaccepted (ID o) (OStatus o) (CreatedAt o)) in
   let! inserted := mapE mapError (exec (Queries.InsertIdempotency a op k h
                       (Some (ID o)) (Some 202) (Some body) (CreatedAt o)
                       (Add (CreatedAt o) (48 * Hour)))) in
   if inserted =? 0 then create_replay a op k h else create_new o) s = (s1, Ok res) ->
  (order_created a op k h o (db s) (db s1) /\
   res = CommitThen (mkCreateResult o false (OStatus o) (CreatedAt o))) \/
  (is_Some (idempotency_records (db s) !! (a, op, k)) /\
   exists s0, db s0 = db s /\ create_replay a op k h s0 = (s1, Ok res)).
Proof.
  intros Hm. apply bind_ok in Hm as (s2 & body & Hk & Hm). apply lift_ok in Hk as [-> Hbody].
  apply bind_ok in Hm as (s2 & n & Hk & Hm). run_inv Hk.
  apply InsertIdempotency_ok in Hq as [(-> & -> & Hsome)|(-> & Hnone & ->)]; cbn [Z.eqb] in Hm.
  - right. split; [done|]. eexists. split; [|exact Hm]. done.
  - left. apply create_new_ok in Hm as (-> & Ho & Hor & Hl & Hsg & Hout & Hid & Hin).
    split; [|done]. cbn in *. constructor; auto. eauto.
Qed.

Lemma Create_created a o op k h s s' res :
  Create a o op k h s = (s', Ok res) -> Replayed res = false ->
  order_created a op k h o (db s) (db s') /\
  res = mkCreateResult o false (OStatus o) (CreatedAt o).
Proof.
  intros Hc Hrep. apply in_tx_ok in Hc as (_ & s1 & [[Hb Hd]|[Hb Hd]]);
    apply Create_cases in Hb as [[Hoc Hres]|(_ & s0 & Hd0 & Hb)]; rewrite Hd; try done.
  - by injection Hres as ->.
  - apply create_replay_ok in Hb as (_ & rec & o' & st & at_ & _ & _ & [= ->] & _). done.
  - apply create_replay_ok in Hb as (_ & rec & o' & st & at_ & _ & _ & Hx & _). done.
Qed.
End Create.

(** ** Compensation and cancellation *)

Definition InventoryRelease := "commerce.inventory.release.v1".
Definition PaymentRefund := "commerce.payment.refund.v1".

(** The commands that undo what an order holds: its valid reservation, its
    valid payment of a known total. *)
Definition undo_commands (o : Order) : list string :=
  ((match ReservationID o with
    | Some r => if ValidReservationID r then [InventoryRelease] else []
    | None => []
    end) ++
   (match PaymentID o, TotalMinor o with
    | Some p, Some _ => if ValidPaymentID p then [PaymentRefund] else []
    | _, _ => []
    end))%list.

(** A refund is of the order's total and payment, a release of its reservation. *)
Definition undo_message `{GoLib} (o : Order) (m : OutboxRow) : Prop :=
  pending_message o (topicFor (x_message_type m)) (x_message_type m) m /\
  exists data, field (x_payload m) "data" = Some data /\
    (x_message_type m = PaymentRefund ->
       field data "amount_minor" = jint <$> TotalMinor o /\ field data "payment_id" = jstr <$> PaymentID o) /\
    (x_message_type m = InventoryRelease -> field data "reservation_id" = jstr <$> ReservationID o).

Section Cancel.
Context `{GoLib} `{Crypto} `{Env} `{Pg}.

(** A command or an event built and put in the outbox. *)
Lemma command_sent ct o sg ca op data at_ s s' u :
  (let! c := commandPayload ct o sg ca op data in insertOutbox ct (ID o) c at_) s = (s', Ok u) ->
  exists m, db s' = set_outbox (db s) (outbox_events (db s) ++ [m])%list /\
            pending_message o (topicFor ct) ct m /\ field (x_payload m) "data" = Some (jmap data).
Proof.
  intros Hm. apply bind_ok in Hm as (s1 & c & Hc & Hm).
  apply commandPayload_ok in Hc as (Hd & Hdata & _).
  apply insertOutbox_ok in Hm as (m & Hm & Hp & <-). rewrite Hd in Hm. eauto.
Qed.
Lemma event_sent {A} et o sg ca op data at_ (k : Prog A) s s' a :
  (let! p := eventPayloadFor et o sg ca op data in
   let! _ := insertOutbox et (ID o) p at_ in k) s = (s', Ok a) ->
  exists m s1, db s1 = set_outbox (db s) (outbox_events (db s) ++ [m])%list /\
    pending_message o (topicFor et) et m /\ field (x_payload m) "data" = Some (jmap data) /\
    k s1 = (s', Ok a).
Proof.
  intros Hm. apply bind_ok in Hm as (s1 & c & Hc & Hm).
  apply eventPayloadFor_ok in Hc as (Hd & Hdata & _).
  apply bind_ok in Hm as (s2 & u & Hm & Hk).
  apply insertOutbox_ok in Hm as (m & Hm & Hp & <-). rewrite Hd in Hm. eauto 10.
Qed.

Definition sends (o : Order) (types : list string) (s s' : St DB QuoteCache) : Prop :=
  exists ms, db s' = set_outbox (db s) (outbox_events (db s) ++ ms)%list /\
             map x_message_type ms = types /\ Forall (undo_message o) ms.

Lemma sends_nothing o s : sends o [] s s.
Proof. exists []. rewrite app_nil_r. split_and!; [by destruct (db s) | done | constructor]. Qed.
Lemma sends_app o t1 t2 s s1 s' : sends o t1 s s1 -> sends o t2 s1 s' -> sends o (t1 ++ t2)%list s s'.
Proof.
  intros (m1 & E1 & <- & F1) (m2 & E2 & <- & F2). exists (m1 ++ m2)%list.
  rewrite E2, E1, map_app, app_assoc. split_and!; [done | done | by apply Forall_app].
Qed.

Lemma insertCompensationCommands_ok o sg ca at_ s s' u :
  insertCompensationCommands o sg ca "commerce.order.cancellation_requested.v1" at_ s = (s', Ok u) ->
  sends o (undo_commands o) s s'.
Proof.
  unfold insertCompensationCommands, undo_commands. intros Hm.
  apply bind_ok in Hm as (s1 & u1 & Hk1 & Hk2). apply (sends_app _ _ _ _ s1).
  - destruct (ReservationID o) as [r|] eqn:Hres; [|apply ret_ok in Hk1 as [-> _]; apply sends_nothing].
    cbn [String.eqb Ascii.eqb Bool.eqb orb andb] in Hk1.
    destruct (ValidReservationID r); [|apply ret_ok in Hk1 as [-> _]; apply sends_nothing].
    apply command_sent in Hk1 as (m & Hd & Hp & Hf). exists [m]. pose proof Hp as (Ht & Hty & _).
    split_and!; [done | cbn; by rewrite Hty|]. apply Forall_singleton. split; [by rewrite Hty|].
    eexists. split; [exact Hf|]. rewrite Hty, Hres. split; [discriminate | reflexivity].
  - destruct (PaymentID o) as [p|] eqn:Hpay; [|apply ret_ok in Hk2 as [-> _]; apply sends_nothing].
    destruct (TotalMinor o) as [t|] eqn:Htot; [|apply ret_ok in Hk2 as [-> _]; apply sends_nothing].
    cbn [String.eqb Ascii.eqb Bool.eqb orb andb] in Hk2.
    destruct (ValidPaymentID p); [|apply ret_ok in Hk2 as [-> _]; apply sends_nothing].
    apply command_sent in Hk2 as (m & Hd & Hp & Hf). exists [m]. pose proof Hp as (Ht & Hty & _).
    split_and!; [done | cbn; by rewrite Hty|]. apply Forall_singleton. split; [by rewrite Hty|].
    eexists. split; [exact Hf|]. rewrite Hty, Hpay, Htot. split; [done | discriminate].
Qed.

Definition cancel_row (r : OrderRow) (at_ : Time) : OrderRow :=
  mkOrderRow (o_id r) (o_customer_id r) (o_currency r) (o_total_minor r) StatusCancelReq
    (o_failure_code r) (o_reservation_id r) (o_payment_id r) (o_shipment_id r) (o_version r + 1)
    (o_created_at r) (pg_time at_) (o_inventory_released r) (o_payment_refunded r).

(** The order was PENDING or CONFIRMED at the version asked for; it is now
    CANCEL_REQUESTED one version later, with the event and the commands that
    undo what it holds appended to the outbox. *)
Record order_cancelled (a oid op k h : string) (v : Z) (at_ : Time) (d d' : DB) (row : OrderRow)
  : Prop := {
  rc_new_key : idempotency_records d !! (a, op, k) = None;
  rc_found : orders d !! oid = Some row;
  rc_version : o_version row = wrap_i64 v;
  rc_status : o_status row = StatusPending \/ o_status row = StatusConfirmed;
  rc_order : orders d' = <[oid := cancel_row row at_]> (orders d);
  rc_outbox : exists m ms, outbox_events d' = (outbox_events d ++ m :: ms)%list /\
    x_message_type m = "commerce.order.cancellation_requested.v1" /\ x_partition_key m = oid /\
    x_published_at m = None /\
    map x_message_type ms = undo_commands (cancellationRowToOrder (cancel_row row at_)) /\
    Forall (undo_message (cancellationRowToOrder (cancel_row row at_))) ms;
  rc_lines : order_items d' = order_items d;
  rc_inbox : inbox_messages d' = inbox_messages d
}.

Lemma UpdateIdempotencyResponse_frame a op k ri rb d d' u :
  Queries.UpdateIdempotencyResponse a op k ri rb d = Ok (d', u) ->
  exists m, d' = set_idem d m.
Proof.
  unfold Queries.UpdateIdempotencyResponse. case_match; intros [= <- _]; [eauto|].
  exists (idempotency_records d). by destruct d.
Qed.
Lemma UpdateSagaPhase_frame i ph c d d' u :
  Queries.UpdateSagaPhase i ph c d = Ok (d', u) -> exists m, d' = set_sagas d m.
Proof.
  unfold Queries.UpdateSagaPhase. destruct (saga_instances d !! i) as [r|].
  - intros Hq; go_inv Hq. eauto.
  - intros [= <- _]. exists (saga_instances d). by destruct d.
Qed.

Lemma cancel_new_ok a oid op k reason v at_ s s' res :
  cancel_new a oid op k reason v at_ s = (s', Ok res) ->
  exists row, orders (db s) !! oid = Some row /\ o_version row = wrap_i64 v /\
    (o_status row = StatusPending \/ o_status row = StatusConfirmed) /\
    res = CommitThen (cancellationRowToOrder (cancel_row row at_)) /\
    orders (db s') = <[oid := cancel_row row at_]> (orders (db s)) /\
    (exists m ms, outbox_events (db s') = (outbox_events (db s) ++ m :: ms)%list /\
       x_message_type m = "commerce.order.cancellation_requested.v1" /\ x_partition_key m = oid /\
       x_published_at m = None /\
       map x_message_type ms = undo_commands (cancellationRowToOrder (cancel_row row at_)) /\
       Forall (undo_message (cancellationRowToOrder (cancel_row row at_))) ms) /\
    order_items (db s') = order_items (db s) /\ inbox_messages (db s') = inbox_messages (db s).
Proof.
  unfold cancel_new. intros Hm.
  apply bind_ok in Hm as (s1 & row' & Hk & Hm). run_inv Hk.
  apply UpdateOrderCancellation_ok in Hq as (row & Hrow & Hv & Hst & _ & -> & -> & _).
  exists row. rewrite <- Hv in Hm |- *. fold (cancel_row row at_) in Hm |- *.
  apply bind_ok in Hm as (s2 & saga & Hk & Hm). run_inv Hk.
  unfold Queries.GetSagaByOrderID in Hq. destruct (filter _ _) as [|sg ?]; [done|]. injection Hq as <- <-.
  apply bind_ok in Hm as (s3 & u1 & Hu & Hm). apply newUUID_ok in Hu as [-> ->].
  apply bind_ok in Hm as (s4 & u2 & Hk & Hm). run_inv Hk.
  apply UpdateIdempotencyResponse_frame in Hq as [im ->].
  apply bind_ok in Hm as (s5 & u3 & Hu & Hm). apply newUUID_ok in Hu as [-> ->].
  apply bind_ok in Hm as (s6 & payload & Hu & Hm). apply lift_ok in Hu as [-> _].
  apply bind_ok in Hm as (s7 & u4 & Hu & Hm). apply newUUID_ok in Hu as [-> ->].
  apply bind_ok in Hm as (s8 & u5 & Hk & Hm). run_inv Hk. apply InsertOutbox_ok in Hq as (hj & _ & ->).
  apply bind_ok in Hm as (s9 & u6 & Hk & Hm). run_inv Hk. apply UpdateSagaPhase_frame in Hq as [sm ->].
  apply bind_ok in Hm as (s10 & u7 & Hk & Hm).
  apply insertCompensationCommands_ok in Hk as (ms & Hd & Hty & Hf).
  apply ret_ok in Hm as [-> ->]. rewrite Hd; cbn.
  split_and!; try done. do 2 eexists. rewrite <- app_assoc. split; [reflexivity|]. done.
Qed.

Lemma cancel_replay_ok a op k h s s' res :
  cancel_replay a op k h s = (s', Ok res) -> db s' = db s.
Proof.
  unfold cancel_replay. intros Hm.
  apply bind_ok in Hm as (s1 & rec & Hk & Hm). run_inv Hk.
  unfold Queries.GetIdempotency in Hq. destruct (idempotency_records _ !! _); [|done].
  injection Hq as <- <-. destruct (negb _); [by apply fail_ok in Hm|].
  apply bind_ok in Hm as (s2 & o & Hk & Hm). apply loadOrder_same in Hk.
  by apply ret_ok in Hm as [-> _].
Qed.

Lemma RequestCancellation_cases a oid op k h reason v at_ s s1 res :
  (let! inserted := mapE mapError (exec (Queries.InsertIdempotency a op k h
                       None (Some 202) None at_ (Add at_ (48 * Hour)))) in
   if inserted =? 0 then cancel_replay a op k h
   else cancel_new a oid op k reason v at_) s = (s1, Ok res) ->
  (db s1 = db s /\ is_Some (idempotency_records (db s) !! (a, op, k))) \/
  exists row, order_cancelled a oid op k h v at_ (db s) (db s1) row /\
              res = CommitThen (cancellationRowToOrder (cancel_row row at_)).
Proof.
  intros Hm. apply bind_ok in Hm as (s2 & n & Hk & Hm). run_inv Hk.
  apply InsertIdempotency_ok in Hq as [(-> & -> & Hsome)|(-> & Hnone & ->)]; cbn [Z.eqb] in Hm.
  - left. by apply cancel_replay_ok in Hm.
  - right. apply cancel_new_ok in Hm as (row & H3 & H4 & H5 & -> & H6 & H7 & H8 & H9).
    exists row. split; [|done]. by constructor.
Qed.
End Cancel.

(** ** Properties *)

(** C6: an order is created whole or not at all.  Whatever fails, the tables
    are unchanged or hold the order row, one row per line, the saga, exactly
    two new unpublished messages (the order.created event and the
    inventory.reserve command, each carrying the order and its lines) and the
    idempotency record; a success that is not a replay committed exactly that,
    and a key recorded before leaves the tables unchanged. *)
Theorem create_all_or_nothing `{GoLib} `{Crypto} `{Env} `{Pg} a o op k h s s' r :
  Create a o op k h s = (s', r) ->
  (db s' = db s \/ order_created a op k h o (db s) (db s')) /\
  (forall res, r = Ok res -> Replayed res = false ->
     order_created a op k h o (db s) (db s') /\
     res = mkCreateResult o false (OStatus o) (CreatedAt o)) /\
  (is_Some (idempotency_records (db s) !! (a, op, k)) -> db s' = db s).
Proof.
  intros Hc. split_and!.
  - apply in_tx_atomic in Hc as [Hd|(s1 & res & _ & Hb & Hd)]; [auto|].
    apply Create_cases in Hb as [[Hoc _]|(_ & s0 & Hd0 & Hb)]; rewrite Hd; [auto|].
    apply create_replay_ok in Hb as [-> _]. rewrite Hd0. auto.
  - intros res ->. by apply Create_created.
  - intros Hsome. apply in_tx_atomic in Hc as [Hd|(s1 & res & _ & Hb & Hd)]; [auto|].
    apply Create_cases in Hb as [[Hoc _]|(_ & s0 & Hd0 & Hb)]; rewrite Hd.
    + pose proof (oc_new_key _ _ _ _ _ _ _ Hoc) as Hnk. cbn in Hnk. rewrite Hnk in Hsome. by destruct Hsome.
    + apply create_replay_ok in Hb as [-> _]. by rewrite Hd0.
Qed.

(** C7: retrying a creation is safe.  In any later state of the tables, when
    the round trips succeed, the same actor, operation, key and request hash
    get the stored order back, marked as a replay with the status of the first
    response, and another request under the key is refused as a conflict;
    neither changes anything. *)
Theorem create_is_idempotent `{GoLib} `{Crypto} `{Env} `{Pg} a o op k h s s1 res0 o' h' s2 :
  OStatus o = StatusPending -> (forall n, trip_at n = TripOk) -> rows_ok (db s2) ->
  Create a o op k h s = (s1, Ok res0) -> Replayed res0 = false -> db_evolves (db s1) (db s2) ->
  idempotency_records (db s2) !! (a, op, k) = idempotency_records (db s1) !! (a, op, k) ->
  is_ok (jaccepted (ID o') (OStatus o') (CreatedAt o')) = true ->
  exists s3, db s3 = db s2 /\
    if (h' =? h)%string
    then exists res, Create a o' op k h' s2 = (s3, Ok res) /\ Replayed res = true /\
                     ID (ROrder res) = ID o /\ ResponseStatus res = StatusPending
    else Create a o' op k h' s2 = (s3, Err ErrIdempotencyConflict).
Proof.
  intros Hst Htrip Hrows Hc Hrep Hev Hrec Hj.
  destruct (Create_created _ _ _ _ _ _ _ _ Hc Hrep) as [Hoc _].
  destruct (oc_idem _ _ _ _ _ _ _ Hoc) as (body & Hbody & Hidem).
  rewrite Hidem, lookup_insert_eq in Hrec.
  assert (exists r', orders (db s2) !! ID o = Some r') as [r' Hr'].
  { destruct (de_orders _ _ Hev (ID o) (order_row_of o)) as (r' & Hr' & _); [|eauto].
    rewrite (oc_order _ _ _ _ _ _ _ Hoc). apply lookup_insert_eq. }
  destruct (jaccepted (ID o') (OStatus o') (CreatedAt o')) as [body'|] eqn:Hj'; [|done].
  unfold Create. set (tx := bind (lift _) _).
  assert (exists s3, db s3 = db s2 /\ tx (advance s2) = create_replay a op k h' s3) as (s3 & Hs3 & Htx).
  { exists (set_db (advance (advance s2)) (db s2)). split; [done|]. unfold tx.
    rewrite (bind_run _ _ _ (advance s2) body') by (unfold lift; by rewrite Hj').
    erewrite bind_run; [|apply mapE_run, exec_run; [apply Htrip|]; unfold Queries.InsertIdempotency;
      cbn; rewrite Hrec; reflexivity]. done. }
  destruct (replay_run a op k h' s3 _ r' Htrip ltac:(rewrite Hs3; exact Hrec) ltac:(rewrite Hs3; exact Hr'))
    as (s4 & Hs4 & Hrun). cbn [d_request_hash] in Hrun.
  destruct (String.eqb_spec h' h) as [->|Hne].
  - rewrite String.eqb_refl in Hrun. destruct Hrun as (o2 & st & at_ & Hrun & Hid & Hm).
    exists (advance s4). split; [cbn; congruence|].
    eexists. split; [apply in_tx_commits; [done|]; rewrite Htx; exact Hrun|].
    split; [done|]. split; [cbn; rewrite Hid; by destruct (Hrows _ _ Hr')|].
    cbn [d_response_body] in Hm. revert Hm. rewrite Hst in Hbody.
    unfold jaccepted in Hbody. destruct (jtime (CreatedAt o)) as [at2|]; [|done].
    injection Hbody as <-. by intros [= -> _].
  - exists (set_db s4 (db s2)). split; [done|].
    destruct (String.eqb_spec h h') as [->|]; [done|]. apply in_tx_err; [done|]. by rewrite Htx.
Qed.

(** C9: a cancellation request moves exactly the version it was asked for.
    Whatever fails, the tables are unchanged or the order, PENDING or CONFIRMED
    at the expected version, is CANCEL_REQUESTED one version later, with the
    cancellation event and the commands that release its reservation and
    refund its payment of its total in the outbox; a success under a new key
    committed exactly that; a stale version, an ineligible status and a used
    key leave everything unchanged. *)
Theorem cancellation_is_optimistic `{GoLib} `{Crypto} `{Env} `{Pg} a oid op k h reason v at_ s s' r :
  RequestCancellation a oid op k h reason v at_ s = (s', r) ->
  (db s' = db s \/ exists row, order_cancelled a oid op k h v at_ (db s) (db s') row) /\
  (forall o, r = Ok o -> idempotency_records (db s) !! (a, op, k) = None ->
     exists row, order_cancelled a oid op k h v at_ (db s) (db s') row /\
                 o = cancellationRowToOrder (cancel_row row at_)) /\
  (forall row, orders (db s) !! oid = Some row ->
     o_version row <> wrap_i64 v \/ (o_status row <> StatusPending /\ o_status row <> StatusConfirmed) ->
     db s' = db s) /\
  (is_Some (idempotency_records (db s) !! (a, op, k)) -> db s' = db s).
Proof.
  intros Hc.
  assert (db s' = db s \/ exists row, order_cancelled a oid op k h v at_ (db s) (db s') row) as Hcases.
  { apply in_tx_atomic in Hc as [Hd|(s1 & res & _ & Hb & Hd)]; [auto|].
    apply RequestCancellation_cases in Hb as [[Hb _]|(row & Hb & _)]; rewrite Hd; [by left | eauto]. }
  split_and!; [done| | |].
  - intros o -> Hn. apply in_tx_ok in Hc as (_ & s1 & [[Hb Hd]|[Hb Hd]]);
      apply RequestCancellation_cases in Hb as [[Hb [rec Hrec]]|(row & Hb & Hres)]; cbn in *;
      try congruence. injection Hres as ->. rewrite Hd. eauto.
  - intros row Hrow Hbad. destruct Hcases as [|(row' & [])]; [done|].
    simplify_eq. destruct rc_status0, Hbad as [|[]]; congruence.
  - intros [rec Hrec]. destruct Hcases as [|(row' & [])]; [done|]. congruence.
Qed.
