(* ===== verification/OrdersSagaFacts.v ===== *)
(** * Orders: what the facts of the saga commit

    A delivered fact is recorded with its effects, at most once whatever fails.
    The quote a reservation is priced by is signed and unexpired; the payment
    asked for is the exact total of the lines at the signed prices; an order is
    confirmed only for that amount; a cancelled order's late reservation and
    payment are undone. *)
From Stdlib Require Import ZArith Lia Ascii String.
From stdpp Require Import base gmap strings list relations pretty.
From S2P Require Import Prelude GoStrings GoErrors GoTime GoJson GoBase64 GoCrypto OrdersDomain.
From S2P Require Import Tx OrdersTables OrdersPorts OrdersQuote OrdersStore OrdersSaga.
From S2P Require Import OrdersHistory OrdersStoreFacts.

Open Scope string_scope.
Open Scope Z_scope.
Open Scope go_scope.

(** ** Each fact takes effect once *)

(** The fact is recorded as processed or quarantined. *)
Definition settled_fact (g id : string) (d : DB) : Prop :=
  exists row, inbox_messages d !! (g, id) = Some row /\ settled (n_status row) = true.

Section Facts.
Context `{GoLib} `{Crypto} `{Env} `{Pg} `{KeySetHTTP}.

Lemma InsertInbox_ok g m t h at_ c ca d d' n :
  Queries.InsertInbox g m t h at_ c ca d = Ok (d', n) ->
  (n = 0 /\ d' = d /\ is_Some (inbox_messages d !! (g, m))) \/
  (n = 1 /\ inbox_messages d !! (g, m) = None /\ is_Some (inbox_messages d' !! (g, m))).
Proof.
  unfold Queries.InsertInbox. destruct (inbox_messages d !! (g, m)) eqn:Hi; intros [= <- <-].
  - left; eauto.
  - right. split_and!; auto. cbn. rewrite lookup_insert_eq. eauto.
Qed.

Lemma MarkInboxProcessed_ok g m t d d' u :
  is_Some (inbox_messages d !! (g, m)) ->
  Queries.MarkInboxProcessed g m t d = Ok (d', u) -> settled_fact g m d'.
Proof.
  intros [r Hr]. unfold Queries.MarkInboxProcessed. rewrite Hr. intros [= <- _].
  eexists; cbn. rewrite lookup_insert_eq. split; reflexivity.
Qed.

Lemma inbox_kept d d' k :
  db_evolves d d' -> is_Some (inbox_messages d !! k) -> is_Some (inbox_messages d' !! k).
Proof. intros He [r Hr]. destruct (de_inbox _ _ He _ _ Hr) as (r' & Hr' & _). eauto. Qed.

(** The transaction of a fact that is settled already asks for no commit, and
    one that asks for it has settled the fact. *)
Lemma process_tx_once st g p e s s' a :
  rows_ok (db s) -> process_tx st g p e s = (s', Ok a) ->
  (a = Return tt /\ settled_fact g (f_EventID e) (db s)) \/
  (a = CommitThen tt /\ ~ settled_fact g (f_EventID e) (db s) /\
   settled_fact g (f_EventID e) (db s')).
Proof.
  intros Hrows. unfold process_tx. intros Hm.
  apply bind_ok in Hm as (s1 & t1 & Hk1 & Hm). apply timeNow_ok in Hk1 as [-> _].
  apply bind_ok in Hm as (s2 & n & Hk2 & Hm).
  run_inv Hk2. rename Hq into Hins. pose proof (InsertInbox_side _ _ _ _ _ _ _ _ _ _ Hins) as [He1 _].
  apply bind_ok in Hm as (s3 & fin & Hk3 & Hm).
  assert (db s3 = d /\ (fin = true -> settled_fact g (f_EventID e) (db s)) /\
          (fin = false -> ~ settled_fact g (f_EventID e) (db s)) /\
          is_Some (inbox_messages d !! (g, f_EventID e))) as (Hd3 & Hfin & Hnfin & Hpres).
  { apply InsertInbox_ok in Hins as [(-> & -> & Hp)|(-> & Hnone & Hp)]; cbn [Z.eqb] in Hk3.
    - run_inv Hk3. unfold Queries.GetInbox in Hq. destruct Hp as [row Hrow]. cbn in Hrow, Hq.
      rewrite Hrow in Hq. injection Hq as <- <-. split_and!; [done| | |eauto].
      + intros Hset. exists row. auto.
      + intros Hset (row' & Hrow' & Hs'). cbn in Hrow. simplify_eq. congruence.
    - run_inv Hk3. split_and!; [done|done| |done].
      intros _ (row & Hrow & _). cbn in Hnone. congruence. }
  destruct fin; [apply ret_ok in Hm as [-> ->]; left; auto|]. right.
  apply bind_ok in Hm as (s4 & o & Hl & Hm). apply loadOrder_tracks in Hl as [Hd4 Htr].
  2:{ rewrite Hd3. by apply (de_rows_ok _ _ He1). }
  apply bind_ok in Hm as (s5 & t2 & Hk4 & Hm). apply timeNow_ok in Hk4 as [-> _].
  apply bind_ok in Hm as (s6 & x & Hdisp & Hm). apply dispatch_evolves in Hdisp; [|done].
  cbn in Hdisp. rewrite Hd4, Hd3 in Hdisp.
  run_inv Hm. split_and!; [done | by apply Hnfin |].
  eapply MarkInboxProcessed_ok; [|exact Hq]. by eapply inbox_kept.
Qed.

Lemma ProcessFact_tx st g p s s' r e :
  parse_fact p = Some e -> ProcessFact st g p s = (s', r) ->
  (db s' = db s /\ exists err, r = Err err) \/
  in_tx mapError (process_tx st g p e) s = (s', r).
Proof.
  intros Hp. unfold ProcessFact. rewrite Hp.
  destruct (valid_envelope e); [|intros [= <- <-]; left; eauto].
  destruct (_ && _); [auto | intros [= <- <-]; left; eauto].
Qed.

Lemma ProcessFact_settles st g p s s' :
  rows_ok (db s) -> ProcessFact st g p s = (s', Ok tt) ->
  exists e, parse_fact p = Some e /\ settled_fact g (f_EventID e) (db s').
Proof.
  intros Hrows Hr. destruct (parse_fact p) as [e|] eqn:Hp.
  2:{ unfold ProcessFact in Hr. rewrite Hp in Hr. discriminate Hr. }
  exists e. split; [done|].
  destruct (ProcessFact_tx _ _ _ _ _ _ _ Hp Hr) as [[_ [err Herr]]|Htx]; [discriminate Herr|].
  apply in_tx_ok in Htx as (_ & s1 & [[Hb Hd]|[Hb Hd]]); rewrite Hd;
    apply process_tx_once in Hb as [[Hc Hset]|(Hc & _ & Hset)]; done.
Qed.
End Facts.

(** A delivery of a fact leaves the tables as they were, or commits with
    the fact recorded as processed, whatever fails and even when the reply to
    the commit is lost; a success always leaves it recorded; and a delivery of
    a fact already recorded, under any payload carrying its event id, changes
    nothing.  Redelivering a fact until it succeeds therefore applies it once. *)
Theorem fact_takes_effect_once `{GoLib} `{Crypto} `{Env} `{Pg} `{KeySetHTTP} st g p e s s' r :
  rows_ok (db s) -> parse_fact p = Some e -> ProcessFact st g p s = (s', r) ->
  (db s' = db s \/ settled_fact g (f_EventID e) (db s')) /\
  (r = Ok tt -> settled_fact g (f_EventID e) (db s')) /\
  (settled_fact g (f_EventID e) (db s) -> db s' = db s).
Proof.
  intros Hrows Hp Hr.
  destruct (ProcessFact_tx _ _ _ _ _ _ _ Hp Hr) as [[Hd [err ->]]|Htx]; [split_and!; auto; done|].
  split_and!.
  - apply in_tx_atomic in Htx as [Hd|(s1 & a & _ & Hb & Hd)]; [auto|].
    apply process_tx_once in Hb as [[Hb _]|(_ & _ & Hset)]; [done| |done]. right. by rewrite Hd.
  - intros ->. destruct (ProcessFact_settles _ _ _ _ _ Hrows Hr) as (e' & He' & Hset). congruence.
  - intros Hset. apply in_tx_atomic in Htx as [Hd|(s1 & a & _ & Hb & Hd)]; [auto|].
    apply process_tx_once in Hb as [[Hb _]|(_ & Hns & _)]; [done| |done]. by destruct Hns.
Qed.

(** ** Quotes *)

Section Quotes.
Context `{GoLib} `{Crypto} `{Env} `{Pg} `{KeySetHTTP}.

(** Looking a key up touches no table. *)
Lemma key_frame url kid (s s' : St DB QuoteCache) r :
  key url kid s = (s', r) -> db s' = db s.
Proof.
  unfold key, refresh_keys, bind, get_loc, timeNow, http_get, put_loc, ret.
  intros Hk. repeat (case_match; simplify_eq; cbn in *); auto.
Qed.

(** The bytes a detached quote signature covers. *)
Definition quote_message (header : string) (q : signedQuote) : string :=
  header +:+ "." +:+ RawURLEncode (json_text (jsignedQuote q)).

(** An entry of a key set gives [pk] for the key id. *)
Definition publishes_key (kid pk : string) (k : jwk) : Prop :=
  jwk_kid k = kid /\ jwk_kty k = "OKP" /\ jwk_crv k = "Ed25519" /\ jwk_use k = "sig" /\ jwk_alg k = "EdDSA" /\
  RawURLDecode (jwk_x k) = Some pk /\ String.length pk = PublicKeySize.
(** The key of a key id during a call from [s] to [s']: one kept from before and
    loaded less than five minutes before a reading of the clock, or one of the key
    set the endpoint answers with. *)
Definition key_during (url kid pk : string) (s s' : St DB QuoteCache) : Prop :=
  (keys (loc s) !! kid = Some pk /\
   exists n, (tick s <= n < tick s')%nat /\ Sub (clock_at n) (loaded (loc s)) < 5 * Minute) \/
  exists n body document k, (tick s <= n < tick s')%nat /\ key_set_reply url n = Some (200, Some body) /\
    unmarshal_struct dec_jwks (limited_body body) = Some document /\ k ∈ document /\ publishes_key kid pk k.

(** The detached signature is one of the quote under the key of the key id, and
    the quote expires after [now]. *)
Record authentic (url kid jws : string) (q : signedQuote) (now : Time) (s s' : St DB QuoteCache) : Prop := {
  au_expires : exists expires, parse_rfc3339nano (q_ExpiresAt q) = Some expires /\ nanos now < nanos expires;
  au_signature : exists header sig signature pk,
    Split jws "." = [header; ""; sig] /\
    (exists text, RawURLDecode header = Some text /\ unmarshal_struct dec_header text = Some ("EdDSA", kid)) /\
    RawURLDecode sig = Some signature /\ String.length signature = SignatureSize /\
    kid <> "" /\ key_during url kid pk s s' /\
    ed25519_verify pk (quote_message header q) signature = true
}.

Lemma add_keys_published document kid pk : forall m,
  foldl add_key m document !! kid = Some pk -> m !! kid = Some pk \/ exists k, k ∈ document /\ publishes_key kid pk k.
Proof.
  induction document as [|k l IH]; intros m; cbn [foldl]; [by left|].
  intros [Hm|(k' & Hk' & Hp)]%IH; [|right; exists k'; set_solver].
  unfold add_key, usable in Hm. destruct (_ && _) eqn:Hu; [|by left].
  destruct (RawURLDecode (jwk_x k)) as [x|] eqn:Hx; [|by left].
  destruct (Nat.eqb_spec (String.length x) PublicKeySize) as [Hl|]; [|by left].
  destruct (decide (jwk_kid k = kid)) as [Hk|Hk]; [|rewrite lookup_insert_ne in Hm by done; by left].
  rewrite Hk, lookup_insert_eq in Hm. injection Hm as <-. right. exists k.
  rewrite !andb_true_iff, !String.eqb_eq in Hu. destruct Hu as [[[? ?] ?] ?]. split; [set_solver | by repeat split].
Qed.

Lemma key_found url kid pk (s s' : St DB QuoteCache) :
  key url kid s = (s', Ok (Some pk)) -> key_during url kid pk s s'.
Proof.
  assert (forall s0, loc s0 = loc s -> (tick s <= tick s0)%nat -> refresh_keys url kid s0 = (s', Ok (Some pk)) ->
          key_during url kid pk s s') as Hrefresh.
  { intros s0 Hl Ht. unfold refresh_keys, bind, http_get, timeNow, put_loc, ret. cbn -[unmarshal_struct].
    destruct (key_set_reply url (tick s0)) as [[status [body|]]|] eqn:Hr; [|done..].
    destruct (Z.eqb_spec status StatusOK) as [->|]; cbn [negb]; [|done].
    destruct (unmarshal_struct dec_jwks (limited_body body)) as [document|] eqn:Hdoc; [|done].
    intros [= <- Hk]. apply add_keys_published in Hk as [Hk|(k & Hk & Hp)]; [by rewrite lookup_empty in Hk|].
    right. exists (tick s0), body, document, k. cbn. split_and!; try done; lia. }
  unfold key, bind at 1, get_loc. destruct (keys (loc s) !! kid) as [k|] eqn:Hk; [|by apply Hrefresh].
  unfold bind at 1, timeNow. destruct (Z.ltb_spec (Sub (clock_at (tick s)) (loaded (loc s))) (5 * Minute)) as [Hlt|].
  - intros [= <- ->]. left. split; [done|]. exists (tick s). cbn. split; [lia | done].
  - apply Hrefresh; [done | cbn; lia].
Qed.

Lemma Verify_ok v q kid jws now (s s' : St DB QuoteCache) u :
  Verify v q kid jws now s = (s', Ok u) ->
  db s' = db s /\ exists url, v = Some url /\ authentic url kid jws q now s s'.
Proof.
  unfold Verify. destruct v as [url|]; [|by intros []%fail_ok].
  destruct (_ || _) eqn:Hcfg; [by intros []%fail_ok|]. apply orb_false_iff in Hcfg as [_ Hkid%String.eqb_neq].
  destruct (parse_rfc3339nano (q_ExpiresAt q)) as [ex|] eqn:Hex; [|by intros []%fail_ok].
  destruct (After ex (UTC now)) eqn:Haf; cbn [negb]; [|by intros []%fail_ok].
  destruct (Split jws ".") as [|header [|middle [|sig [|? ?]]]] eqn:Hjws; try by intros []%fail_ok.
  destruct (String.eqb_spec middle "") as [->|]; cbn [negb]; [|by intros []%fail_ok].
  destruct (header_ok header kid) eqn:Hhead; [|by intros []%fail_ok].
  destruct (RawURLDecode sig) as [signature|] eqn:Hsig; [|by intros []%fail_ok].
  destruct (Nat.eqb_spec (String.length signature) SignatureSize) as [Hlen|]; [|by intros []%fail_ok].
  intros Hm. apply bind_ok in Hm as (s1 & [pk|] & Hkey & Hm); [|by apply fail_ok in Hm].
  destruct (ed25519_verify pk _ signature) eqn:Hv; [|by apply fail_ok in Hm].
  apply ret_ok in Hm as [-> _]. split; [by apply key_frame in Hkey|]. exists url. split; [done|]. split.
  - exists ex. split; [done|]. by apply Z.ltb_lt in Haf.
  - exists header, sig, signature, pk. split_and!; try done; [|by apply key_found].
    unfold header_ok in Hhead. destruct (RawURLDecode header) as [text|]; [|done].
    destruct (unmarshal_struct dec_header text) as [[alg k]|] eqn:Hh; [|done].
    apply andb_true_iff in Hhead as [->%String.eqb_eq ->%String.eqb_eq]. by exists text.
Qed.

(** ** Prices from the quote's lines *)

Lemma quote_prices_ok lines : forall p0 q0 p q,
  quote_prices p0 q0 lines = Ok (p, q) ->
  (forall k v, p0 !! k = Some v -> p !! k = Some v) /\
  (forall k v, p !! k = Some v -> p0 !! k = Some v \/
     exists line, line ∈ lines /\ qi_ProductID line = k /\ qi_UnitPriceMinor line = v) /\
  (forall line, line ∈ lines ->
     p !! qi_ProductID line = Some (qi_UnitPriceMinor line) /\
     qi_LineTotalMinor line = wrap_i64 (qi_UnitPriceMinor line * qi_Quantity line) /\
     1 <= qi_Quantity line /\ 0 <= qi_UnitPriceMinor line).
Proof.
  induction lines as [|line rest IH]; intros p0 q0 p q; cbn -[bool_decide].
  - intros [= <- <-]. split_and!; [done | auto |]. by intros line ?%not_elem_of_nil.
  - destruct (negb (ValidProductID _)); cbn [orb]; [done|].
    destruct (Z.ltb_spec (qi_Quantity line) 1); cbn [orb]; [done|].
    destruct (Z.ltb_spec (qi_UnitPriceMinor line) 0); cbn [orb]; [done|].
    destruct (qi_LineTotalMinor line <? 0); [done|].
    case_bool_decide as Hdup; [done|].
    destruct (negb _ && _); [done|].
    destruct (Z.eqb_spec (qi_LineTotalMinor line) (wrap_i64 (qi_UnitPriceMinor line * qi_Quantity line)));
      cbn [negb]; [|done].
    intros Hq. apply IH in Hq as (Hold & Hnew & Hlines). split_and!.
    + intros k v Hk. apply Hold. rewrite lookup_insert_ne; [done|]. intros Heq. apply Hdup. rewrite Heq. eauto.
    + intros k v Hk. apply Hnew in Hk as [Hk|(line' & ? & ? & ?)]; [|set_solver].
      destruct (decide (qi_ProductID line = k)) as [Heq|Hne].
      * rewrite Heq, lookup_insert_eq in Hk. injection Hk as <-. right. exists line. set_solver.
      * rewrite lookup_insert_ne in Hk by done. auto.
    + intros line' [-> | Hin]%elem_of_cons; [|by apply Hlines].
      split_and!; [apply Hold, lookup_insert_eq | done | lia | lia].
Qed.

(** ** Pricing the stored lines *)

Definition reprice (oid : string) (items : list Item) (r : ItemRow) : ItemRow :=
  if (i_order_id r =? oid)%string then
    match find (fun i => (i_product_id r =? ProductID i)%string) items with
    | Some i => mkItemRow (i_order_id r) (i_line_number r) (i_product_id r) (i_quantity r)
                  (UnitPriceMinor i) (LineTotalMinor i) (QuoteID i) (QuoteVersion i)
    | None => r
    end
  else r.

Lemma find_absent (l : list Item) p :
  p ∉ map ProductID l -> find (fun i => (p =? ProductID i)%string) l = None.
Proof.
  induction l as [|i l IH]; cbn; [done|]. intros Hn.
  destruct (String.eqb_spec p (ProductID i)) as [->|]; [set_solver|]. apply IH. set_solver.
Qed.

Lemma update_items_ok oid items : forall s s' u,
  NoDup (map ProductID items) -> for_each (update_item_quote oid) items s = (s', Ok u) ->
  db s' = set_order_items (db s) (map (reprice oid items) (order_items (db s))).
Proof.
  induction items as [|i rest IH]; intros s s' u Hnd Hm; cbn [for_each] in Hm.
  - apply ret_ok in Hm as [-> _]. rewrite (map_ext _ (fun r => r)), map_id; [by destruct (db s)|].
    intros r. unfold reprice. cbn. by destruct (_ =? _)%string.
  - cbn in Hnd. apply NoDup_cons in Hnd as [Hni Hnd].
    apply bind_ok in Hm as (s1 & u1 & Hk & Hm). unfold update_item_quote in Hk. run_inv Hk.
    unfold Queries.UpdateOrderItemQuote in Hq. go_inv Hq.
    apply IH in Hm as ->; [|done]. cbn. unfold set_order_items; cbn. f_equal.
    rewrite map_map. apply map_ext. intros r. unfold reprice; cbn.
    destruct (String.eqb_spec (i_order_id r) oid) as [Ho|Ho]; cbn [andb];
      [|by rewrite (proj2 (String.eqb_neq _ _))].
    destruct (String.eqb_spec (i_product_id r) (ProductID i)) as [Heq|]; cbn;
      rewrite Ho, String.eqb_refl; [|done].
    by rewrite Heq, (find_absent rest (ProductID i)).
Qed.

(** ** A reservation of a pending order *)

(** One line of the order at the price of a line of the signed quote. *)
Definition signed_line (q : signedQuote) (i : Item) (line : Z * Z) : Prop :=
  (exists ql, ql ∈ q_Items q /\ qi_ProductID ql = ProductID i /\ qi_UnitPriceMinor ql = line.1) /\
  0 <= line.1 /\ line.2 = Quantity i * line.1.

(** The quote a fact carries for the order. *)
Record fact_quote (o : Order) (e : factEnvelope) (q : signedQuote) : Prop := {
  fq_order : q_OrderID q = ID o;
  fq_reservation : q_ReservationID q = rawString (f_Data e !! "reservation_id");
  fq_id : q_QuoteID q = rawString (f_Data e !! "quote_id");
  fq_version : rawInt64 (f_Data e !! "quote_version") = Ok (q_QuoteVersion q);
  fq_currency : q_Currency q = rawString (f_Data e !! "currency") /\ q_Currency q = Currency o;
  fq_items : (v ← f_Data e !! "items"; dec_slice dec_quoteItem v) = Some (q_Items q);
  fq_expires : q_ExpiresAt q = rawString (f_Data e !! "quote_expires_at")
}.
Definition quote_authentic (st : Store) (e : factEnvelope) (q : signedQuote) (now : Time) (s s' : St DB QuoteCache) : Prop :=
  exists url, quoteVerifier st = Some url /\
    authentic url (rawString (f_Data e !! "quote_key_id")) (rawString (f_Data e !! "quote_signature")) q now s s'.

(** What a reservation of [o] at [now] commits. *)
Record reservation_priced (o : Order) (q : signedQuote) (now : Time) (lines : list (Z * Z))
    (d d' : DB) : Prop := {
  rp_lines : Forall2 (signed_line q) (Items o) lines;
  rp_limit : sumZ (map snd lines) <= MaxTotalMinor;
  rp_row : exists r r', orders d !! ID o = Some r /\ orders d' = <[ID o := r']> (orders d) /\
    o_status r' = StatusPending /\ o_total_minor r' = Some (sumZ (map snd lines)) /\
    o_reservation_id r' = Some (q_ReservationID q) /\ o_version r' = o_version r + 1 /\
    o_updated_at r' = pg_time now;
  rp_items : order_items d' =
    map (reprice (ID o) (zip_with (price_item (q_QuoteID q) (q_QuoteVersion q)) (Items o) lines))
      (order_items d);
  rp_payment : exists m data, outbox_events d' = (outbox_events d ++ [m])%list /\
    pending_message o "commerce.payment.commands.v1" "commerce.payment.authorize.v1" m /\
    field (x_payload m) "data" = Some data /\
    field data "amount_minor" = Some (jint (sumZ (map snd lines)))
}.

Lemma reserve_pending_ok st o e now s s' u :
  let rid := rawString (f_Data e !! "reservation_id") in
  Forall item_request_ok (Items o) -> NoDup (map ProductID (Items o)) -> rid <> "" ->
  reserve_pending st o e rid now s = (s', Ok u) ->
  exists q lines s1, fact_quote o e q /\ quote_authentic st e q now s s1 /\ (tick s1 <= tick s')%nat /\
    reservation_priced o q now lines (db s) (db s').
Proof.
  intros rid Hitems Hnd Hrid. unfold reserve_pending. intros Hm.
  destruct (String.eqb_spec (rawString (f_Data e !! "currency")) (Currency o)) as [Hcur|];
    cbn [negb] in Hm; [|by apply fail_ok in Hm].
  apply bind_ok in Hm as (s1 & qv & Hk1 & Hm). apply lift_ok in Hk1 as [-> Hqv].
  destruct (f_OperationID e =? _)%string; cbn [negb] in Hm; [|by apply fail_ok in Hm].
  apply bind_ok in Hm as (s1 & qlines & Hk2 & Hm). apply lift_ok in Hk2 as [-> Hql].
  apply bind_ok in Hm as (s1 & v & Hv & Hm). apply Verify_ok in Hv as (Hd1 & url & Hurl & Hauth).
  assert (tick s1 <= tick s')%nat as Hlater.
  { refine (forward_run _ _ _ _ _ Hm). unfold update_item_quote, updateWorkflow, updateWorkflowAtVersion, commandPayload, insertOutbox.
    goes_forward. }
  apply bind_ok in Hm as (s2 & [prices quantities] & Hk3 & Hm). apply lift_ok in Hk3 as [-> Hprices].
  destruct (quantities_match _ _); [|by apply fail_ok in Hm].
  apply bind_ok in Hm as (s2 & o' & Hk4 & Hm). apply lift_ok in Hk4 as [-> Ha].
  apply apply_quote_ok in Ha as (Hst & Hnone & total & ls & Hls & ->).
  apply quote_lines_sound in Hls as (Hls & -> & Hle); [|done|unfold MaxTotalMinor; lia].
  destruct (priced_items (rawString (f_Data e !! "quote_id")) qv _ _ _ Hls) as (_ & Hpid & _ & _).
  apply bind_ok in Hm as (s2 & x & Hf & Hm). apply update_items_ok in Hf; [|by cbn; rewrite Hpid].
  apply bind_ok in Hm as (s3 & y & Hu & Hm).
  apply updateWorkflow_ok in Hu as (r & Hr & Hver & Hb & Hd3 & _); [|cbn; by rewrite Hst].
  apply command_sent in Hm as (m & Hd4 & Hp & Hdata).
  rewrite Hd3, Hf in Hd4. rewrite Hf in Hr. cbn in Hd4, Hr, Hp.
  set (q := mkSignedQuote _ _ _ _ _ _ _) in Hauth.
  exists q, ls, s1. split; [|split; [by exists url|]].
  { split; try done. cbn [q q_Items]. clear -Hql. repeat case_match; by simplify_eq. }
  split; [done|]. rewrite <- Hd1, Hd4. constructor; try done; cbn [orders set_outbox set_orders].
  - eapply Forall2_impl; [exact Hls|]. intros i line (Hp1 & Hp2 & Hp3).
    apply quote_prices_ok in Hprices as (_ & Hnew & _).
    apply Hnew in Hp1 as [Hx|(ql & ? & ? & ?)]; [done|]. split_and!; [by exists ql | lia | done].
  - do 2 eexists. split; [exact Hr|]. split; [reflexivity|]. cbn.
    split_and!; try done. unfold nullString. by rewrite (proj2 (String.eqb_neq _ "") Hrid).
  - exists m. eexists. split_and!; [done | exact Hp | exact Hdata | done].
Qed.

Lemma valid_id_nonempty pre v :
  MatchString (id_pattern pre) v = true -> pre <> "" -> v <> "".
Proof.
  intros Hm Hpre ->. apply (match_prefixed pre is_alnum 1 None "" I) in Hm as (t & Ht & _ & Hl & _).
  destruct pre; [done | discriminate Ht].
Qed.

Lemma applyInventoryReserved_pending st o e now s s' u :
  OStatus o = StatusPending -> Forall item_request_ok (Items o) -> NoDup (map ProductID (Items o)) ->
  applyInventoryReserved st o e now s = (s', Ok u) ->
  exists q lines s1, fact_quote o e q /\ quote_authentic st e q now s s1 /\ (tick s1 <= tick s')%nat /\
    reservation_priced o q now lines (db s) (db s').
Proof.
  intros Hst Hi Hnd. unfold applyInventoryReserved. rewrite Hst. cbn [IsTerminal String.eqb].
  destruct (ValidReservationID _) eqn:Hv; [|by intros []%fail_ok].
  destruct (f_OperationID e =? _)%string; cbn [negb]; [|by intros []%fail_ok].
  intros Hm. apply reserve_pending_ok in Hm; [done..|]. by eapply valid_id_nonempty.
Qed.

(** ** A payment *)

Definition payment_of (e : factEnvelope) : string := rawString (f_Data e !! "payment_id").

(** The paid amount and currency are those of the order. *)
Definition paid_exactly (o : Order) (e : factEnvelope) (total : Z) : Prop :=
  TotalMinor o = Some total /\ rawInt64 (f_Data e !! "amount_minor") = Ok total /\
  rawString (f_Data e !! "currency") = Currency o.

Lemma amount_matches_ok o e : amount_matches o e = true -> exists total, paid_exactly o e total.
Proof.
  unfold amount_matches, paid_exactly. destruct (rawInt64 _) as [a|]; [|done].
  destruct (TotalMinor o) as [t|]; [|done].
  rewrite andb_true_iff, Z.eqb_eq, String.eqb_eq. intros [-> ->]. eauto.
Qed.

Record order_confirmed (o : Order) (e : factEnvelope) (d d' : DB) : Prop := {
  cf_paid : exists total, paid_exactly o e total;
  cf_payment : ValidPaymentID (payment_of e) = true;
  cf_reserved : exists r, ReservationID o = Some r /\ r <> "";
  cf_row : exists r r', orders d !! ID o = Some r /\ orders d' = <[ID o := r']> (orders d) /\
    o_status r' = StatusConfirmed /\ o_payment_id r' = Some (payment_of e) /\
    o_version r' = o_version r + 1;
  cf_outbox : exists m1 m2 data, outbox_events d' = (outbox_events d ++ [m1; m2])%list /\
    pending_message o "commerce.order.events.v1" "commerce.order.confirmed.v1" m1 /\
    pending_message o "commerce.fulfillment.commands.v1" "commerce.fulfillment.create.v1" m2 /\
    field (x_payload m2) "data" = Some data /\ field data "items" = Some (orderItemsPayload o) /\
    field data "reservation_id" = jstr <$> ReservationID o
}.

Lemma confirm_paid_ok o e now s s' u :
  OStatus o = StatusPending -> amount_matches o e = true -> ValidPaymentID (payment_of e) = true ->
  confirm_paid o e (payment_of e) now s = (s', Ok u) -> order_confirmed o e (db s) (db s').
Proof.
  intros Hst Ham Hpay. unfold confirm_paid. intros Hm.
  apply bind_ok in Hm as (s1 & a & Hu & Hm).
  apply updateWorkflow_ok in Hu as (r & Hr & _ & _ & Hd1 & _); [|by rewrite Hst].
  cbn [ReservationID with_payment bump with_version] in Hm.
  destruct (String.eqb_spec (default "" (ReservationID o)) "") as [|Hres]; [by apply fail_ok in Hm|].
  apply event_sent in Hm as (m1 & s2 & Hd2 & Hm1 & _ & Hm).
  apply command_sent in Hm as (m2 & Hd3 & Hm2 & Hdata).
  rewrite Hd3, Hd2, Hd1. cbn [ID with_payment bump with_version] in *.
  destruct (ReservationID o) as [rs|] eqn:Hrs; [|done]. cbn in Hres.
  constructor; cbn [orders outbox_events set_outbox set_orders].
  - by apply amount_matches_ok.
  - done.
  - eauto.
  - do 2 eexists. split; [exact Hr|]. split; [reflexivity|]. cbn. split_and!; try done.
    unfold nullString. rewrite (proj2 (String.eqb_neq _ _)); [done|].
    by eapply (valid_id_nonempty "pay_").
  - rewrite <- app_assoc. exists m1, m2. eexists. split; [reflexivity|]. rewrite Hrs.
    split_and!; [exact Hm1 | exact Hm2 | exact Hdata | done | done].
Qed.

(** A payment that arrives after a cancellation request is recorded and
    refunded, together with whatever else the order holds. *)
Record late_payment (o : Order) (e : factEnvelope) (d d' : DB) : Prop := {
  lp_paid : exists total, paid_exactly o e total;
  lp_row : exists r r', orders d !! ID o = Some r /\ orders d' = <[ID o := r']> (orders d) /\
    o_status r' = StatusCancelReq /\ o_payment_id r' = Some (payment_of e);
  lp_outbox : exists ms, outbox_events d' = (outbox_events d ++ ms)%list /\
    PaymentRefund ∈ map x_message_type ms /\ Forall (undo_message (with_payment o (payment_of e))) ms
}.

Lemma undo_message_ext o o' m :
  ID o = ID o' -> ReservationID o = ReservationID o' -> PaymentID o = PaymentID o' ->
  TotalMinor o = TotalMinor o' -> undo_message o m -> undo_message o' m.
Proof.
  unfold undo_message, pending_message. intros -> Hr Hp Ht. by rewrite Hr, Hp, Ht.
Qed.

Lemma applyPaymentAuthorized_ok o e now s s' u :
  applyPaymentAuthorized o e now s = (s', Ok u) ->
  (OStatus o = StatusPending -> order_confirmed o e (db s) (db s')) /\
  (OStatus o = StatusCancelReq -> late_payment o e (db s) (db s')).
Proof.
  unfold applyPaymentAuthorized. intros Hm. split; intros Hst; rewrite Hst in Hm;
    cbn [IsTerminal String.eqb orb StatusCancelReq] in Hm.
  - destruct (amount_matches o e) eqn:Ham; [|by apply fail_ok in Hm].
    destruct (ValidPaymentID _) eqn:Hp; [|by apply fail_ok in Hm].
    by apply confirm_paid_ok in Hm.
  - destruct (amount_matches o e) eqn:Ham; [|by apply fail_ok in Hm].
    destruct (ValidPaymentID _) eqn:Hp; [|by apply fail_ok in Hm].
    apply bind_ok in Hm as (s1 & a & Hu & Hm).
    apply updateWorkflow_ok in Hu as (r & Hr & _ & _ & Hd1 & _); [|cbn; by rewrite Hst].
    apply insertCompensationCommands_ok in Hm as (ms & Hd2 & Hty & Hms).
    rewrite Hd2, Hd1. apply amount_matches_ok in Ham as [total Hpaid].
    constructor; cbn [orders outbox_events set_outbox set_orders].
    + eauto.
    + do 2 eexists. split; [exact Hr|]. split; [reflexivity|]. cbn. split; [done|].
      unfold nullString. rewrite (proj2 (String.eqb_neq _ _)); [done|].
      by eapply (valid_id_nonempty "pay_").
    + exists ms. split_and!; [done| |].
      * rewrite Hty. unfold undo_commands. cbn. destruct Hpaid as (-> & _).
        unfold payment_of in *. rewrite Hp. set_solver.
      * eapply Forall_impl; [exact Hms|]. intros m. by apply undo_message_ext.
Qed.
End Quotes.

(** ** From a handler to a delivery *)

Definition same_but_inbox (d d' : DB) : Prop :=
  orders d' = orders d /\ order_items d' = order_items d /\ outbox_events d' = outbox_events d /\
  saga_instances d' = saga_instances d /\ idempotency_records d' = idempotency_records d.

(** The order a fact is applied to: the stored row with its lines. *)
Definition stored_order (d : DB) (id : string) (r : OrderRow) : Order :=
  with_items (getOrderRowToOrder r)
    (map item_of_row (order_by (fun a b => i_line_number a <=? i_line_number b)
       (filter (fun x => i_order_id x = id) (order_items d)))).

Section Deliveries.
Context `{GoLib} `{Crypto} `{Env} `{Pg} `{KeySetHTTP}.

Lemma InsertInbox_frame g m t h at_ c ca d d' n :
  Queries.InsertInbox g m t h at_ c ca d = Ok (d', n) -> same_but_inbox d d'.
Proof. unfold Queries.InsertInbox. case_match; intros [= <- <-]; done. Qed.
Lemma MarkInboxProcessed_frame g m t d d' u :
  Queries.MarkInboxProcessed g m t d = Ok (d', u) -> same_but_inbox d d'.
Proof. unfold Queries.MarkInboxProcessed. case_match; intros [= <- <-]; done. Qed.
Lemma GetInbox_same g m d d' r : Queries.GetInbox g m d = Ok (d', r) -> d' = d.
Proof. unfold Queries.GetInbox. case_match; by intros [= <- <-]. Qed.

Lemma loadOrder_next id (s s' : St DB QuoteCache) o :
  loadOrder id s = (s', Ok o) -> loc s' = loc s /\ (tick s <= tick s')%nat.
Proof. unfold loadOrder. intros Hm. run_inv Hm. cbn. split; [done | lia]. Qed.

Lemma process_tx_inv st g p e s s' :
  process_tx st g p e s = (s', Ok (CommitThen tt)) ->
  exists d1 r s2 s3 now, same_but_inbox (db s) d1 /\ db s2 = d1 /\
    orders d1 !! fact_order e = Some r /\
    dispatch st (stored_order d1 (fact_order e) r) e now s2 = (s3, Ok tt) /\
    same_but_inbox (db s3) (db s') /\
    read_during s s2 now /\ loc s2 = loc s /\ (tick s3 <= tick s')%nat.
Proof.
  unfold process_tx. intros Hm.
  apply bind_ok in Hm as (s1 & t1 & Hk & Hm). apply timeNow_ok in Hk as [-> _].
  apply bind_ok in Hm as (s2 & n & Hk & Hm). run_inv Hk. apply InsertInbox_frame in Hq.
  apply bind_ok in Hm as (s3 & fin & Hk & Hm).
  assert (db s3 = d /\ loc s3 = loc s /\ (tick s <= tick s3)%nat) as (Hd3 & Hl3 & Ht3).
  { destruct (n =? 0); run_inv Hk; cbn; [split_and!; [by apply GetInbox_same in Hq0 | done | lia] | split_and!; done || lia]. }
  subst d. destruct fin; [by apply ret_ok in Hm as [_ [=]]|].
  apply bind_ok in Hm as (s4 & o & Hl & Hm). pose proof (loadOrder_next _ _ _ _ Hl) as [Hl4 Ht4].
  apply loadOrder_ok in Hl as (Hd4 & r & Hr & ->).
  apply bind_ok in Hm as (s5 & t2 & Hk5 & Hm). apply timeNow_ok in Hk5 as [-> ->].
  apply bind_ok in Hm as (s6 & [] & Hdisp & Hm). run_inv Hm. apply MarkInboxProcessed_frame in Hq0.
  exists (db s3), r. do 3 eexists. split; [exact Hq|]. split; [|split; [exact Hr|split; [exact Hdisp|split; [exact Hq0|]]]].
  - exact Hd4.
  - split; [|split; [cbn; congruence | cbn; lia]]. exists (tick s4). cbn. split; [lia | done].
Qed.

(** A first successful delivery applied the fact's handler to the stored order. *)
Lemma ProcessFact_inv st g p e s s' :
  rows_ok (db s) -> parse_fact p = Some e -> ~ settled_fact g (f_EventID e) (db s) ->
  ProcessFact st g p s = (s', Ok tt) ->
  exists d1 r s2 s3 now, same_but_inbox (db s) d1 /\ db s2 = d1 /\
    orders (db s) !! fact_order e = Some r /\
    dispatch st (stored_order (db s) (fact_order e) r) e now s2 = (s3, Ok tt) /\
    same_but_inbox (db s3) (db s') /\
    read_during s s2 now /\ loc s2 = loc s /\ (tick s3 <= tick s')%nat.
Proof.
  intros Hrows Hp Hns Hr.
  destruct (ProcessFact_tx _ _ _ _ _ _ _ Hp Hr) as [[_ [? [=]]]|Htx].
  pose proof Htx as (_ & s1 & [[Hb Hd]|[Hb Hd]])%in_tx_ok; cycle 1.
  { apply process_tx_once in Hb as [[_ Hset]|[[=] _]]; done. }
  pose proof (in_tx_ok_later _ _ _ _ _ _ _ Htx Hb) as Hlater.
  apply process_tx_inv in Hb as (d1 & r & s2 & s3 & now & Hsame & Hs2 & Hr1 & Hdisp & Hsame' & (n & Hn & Hnow) & Hloc & Ht).
  exists d1, r, s2, s3, now. rewrite Hd. pose proof Hsame as (Ho & Hi & _). cbn in Ho, Hi, Hn, Hloc.
  unfold stored_order in *. rewrite <- Ho, <- Hi. split_and!; try done; [|lia]. exists n. split; [lia | done].
Qed.

(** A signature verified by a part of a call is verified by the call. *)
Lemma authentic_later url kid jws q now (s s' : St DB QuoteCache) :
  authentic url kid jws q now s s' -> (tick s <= tick s')%nat.
Proof.
  intros [_ (? & ? & ? & ? & _ & _ & _ & _ & _ & [[_ (n & Hn & _)]|(n & ? & ? & ? & Hn & _)] & _)]; lia.
Qed.
Lemma authentic_within url kid jws q now (s s2 s3 s' : St DB QuoteCache) :
  loc s2 = loc s -> (tick s <= tick s2)%nat -> (tick s3 <= tick s')%nat ->
  authentic url kid jws q now s2 s3 -> authentic url kid jws q now s s'.
Proof.
  intros Hl Hfrom Hto [Hex (header & sig & signature & pk & ? & ? & ? & ? & ? & Hkey & ?)]. split; [done|].
  exists header, sig, signature, pk. split_and!; try done.
  destruct Hkey as [[Hk (n & Hn & Hage)]|(n & body & document & k & Hn & Hrest)]; rewrite ?Hl in *.
  - left. split; [done|]. exists n. split; [lia | done].
  - right. exists n, body, document, k. split; [lia | done].
Qed.

(** The lines of a stored order are valid and distinct. *)
Lemma filter_map_NoDup {A B} (f : A -> B) (P : A -> Prop) `{forall x, Decision (P x)} l :
  NoDup (map f l) -> NoDup (map f (filter P l)).
Proof.
  induction l as [|x l IH]; cbn; [done|]. rewrite NoDup_cons. intros [Hx Hnd].
  case_decide; cbn; [|auto]. apply NoDup_cons. split; [|auto].
  intros Hin. apply Hx. apply list_elem_of_fmap in Hin as (y & -> & Hy).
  apply list_elem_of_filter in Hy as [_ Hy]. apply list_elem_of_fmap. eauto.
Qed.

Lemma item_row_request r : item_row_ok r = true -> item_request_ok (item_of_row r).
Proof.
  unfold item_row_ok, item_request_ok, ValidProductID, MaxQuantity. cbn.
  rewrite !andb_true_iff. intros Hr. destruct_and? Hr. split; [done|]. split; by apply Z.leb_le.
Qed.

Lemma stored_order_lines d id r :
  lines_ok (order_items d) ->
  Forall item_request_ok (Items (stored_order d id r)) /\
  NoDup (map ProductID (Items (stored_order d id r))).
Proof.
  intros [Hok Hnd]. cbn. split.
  - apply Forall_map. rewrite order_by_Permutation. apply Forall_forall.
    intros x [_ Hx]%list_elem_of_filter. rewrite Forall_forall in Hok. by apply item_row_request, Hok.
  - rewrite map_map. rewrite order_by_Permutation. cbn.
    apply (filter_map_NoDup _ (fun x => i_order_id x = id)) in Hnd.
    apply (NoDup_fmap_1 (pair id)). rewrite <- list_fmap_compose.
    erewrite list_fmap_ext; [exact Hnd|]. intros i x Hx. cbn.
    apply list_elem_of_lookup_2, list_elem_of_filter in Hx as [-> _]. done.
Qed.

(** What a handler committed is what the delivery committed. *)
Lemma reservation_priced_frame o q now l d d1 d2 d' :
  same_but_inbox d d1 -> reservation_priced o q now l d1 d2 -> same_but_inbox d2 d' ->
  reservation_priced o q now l d d'.
Proof.
  intros (E1 & E2 & E3 & _) [] (F1 & F2 & F3 & _).
  constructor; rewrite ?F1, ?F2, ?F3, <- ?E1, <- ?E2, <- ?E3; auto.
Qed.
Lemma order_confirmed_frame o e d d1 d2 d' :
  same_but_inbox d d1 -> order_confirmed o e d1 d2 -> same_but_inbox d2 d' -> order_confirmed o e d d'.
Proof.
  intros (E1 & E2 & E3 & _) [] (F1 & F2 & F3 & _).
  constructor; rewrite ?F1, ?F2, ?F3, <- ?E1, <- ?E2, <- ?E3; auto.
Qed.
Lemma late_payment_frame o e d d1 d2 d' :
  same_but_inbox d d1 -> late_payment o e d1 d2 -> same_but_inbox d2 d' -> late_payment o e d d'.
Proof.
  intros (E1 & E2 & E3 & _) [] (F1 & F2 & F3 & _).
  constructor; rewrite ?F1, ?F2, ?F3, <- ?E1, <- ?E2, <- ?E3; auto.
Qed.
End Deliveries.

(** ** Properties *)

(** C4: the first successful delivery of an inventory.reserved fact for a
    PENDING order is priced by the quote the fact carries, for that order and in
    its currency: its detached signature verifies under the verifier's key of the
    fact's key id (kept for less than five minutes, or from the key set its
    endpoint answered during the call), and it had not expired at the time the call
    read from the clock and wrote to the row; the lines, the total (the exact sum
    of quantity times signed price, within the limit) and the reservation are
    stored one version later, and exactly one message is added: the
    payment.authorize command for that very amount. *)
Theorem payment_is_asked_for_the_signed_total `{GoLib} `{Crypto} `{Env} `{Pg} `{KeySetHTTP}
    st g p e s s' r :
  db_ok (db s) -> parse_fact p = Some e -> ~ settled_fact g (f_EventID e) (db s) ->
  f_EventType e = InventoryReserved ->
  orders (db s) !! fact_order e = Some r -> o_status r = StatusPending ->
  ProcessFact st g p s = (s', Ok tt) ->
  let o := stored_order (db s) (fact_order e) r in
  exists q now lines,
    fact_quote o e q /\ read_during s s' now /\ quote_authentic st e q now s s' /\
    reservation_priced o q now lines (db s) (db s').
Proof.
  intros (Hrows & _ & Hlines) Hp Hns Hty Hr Hst Hok o.
  destruct (ProcessFact_inv _ _ _ _ _ _ Hrows Hp Hns Hok)
    as (d1 & r1 & s2 & s3 & now & Hs1 & Hd2 & Hr1 & Hdisp & Hs3 & (n & Hn & Hnow) & Hloc & Ht). simplify_eq.
  unfold dispatch in Hdisp. rewrite Hty in Hdisp. cbn [String.eqb Ascii.eqb Bool.eqb] in Hdisp.
  destruct (stored_order_lines (db s) (fact_order e) r Hlines) as [Hi Hnd].
  apply applyInventoryReserved_pending in Hdisp as (q & lines & s4 & Hq & (url & Hurl & Hauth) & Ht4 & Hpr); [|done|done|done].
  assert (tick s2 <= tick s4)%nat as Ht2 by (by eapply authentic_later).
  exists q, (UTC (clock_at n)), lines. split_and!; [done | exists n; split; [lia | done] | | by eapply reservation_priced_frame].
  exists url. split; [done|]. eapply (authentic_within _ _ _ _ _ _ s2 s4); [done | lia | lia | done].
Qed.

(** C5: the first successful delivery of a payment.authorized fact confirms a
    PENDING order only for the exact total and currency of the order, with a
    valid payment and a recorded reservation, and sends the confirmation and
    the fulfillment command for the order's lines; for an order whose
    cancellation was requested the payment is recorded and refunded in full. *)
Theorem payment_confirms_or_is_refunded `{GoLib} `{Crypto} `{Env} `{Pg} `{KeySetHTTP}
    st g p e s s' r :
  db_ok (db s) -> parse_fact p = Some e -> ~ settled_fact g (f_EventID e) (db s) ->
  f_EventType e = PaymentAuthorized ->
  orders (db s) !! fact_order e = Some r -> ProcessFact st g p s = (s', Ok tt) ->
  (o_status r = StatusPending ->
     order_confirmed (stored_order (db s) (fact_order e) r) e (db s) (db s')) /\
  (o_status r = StatusCancelReq ->
     late_payment (stored_order (db s) (fact_order e) r) e (db s) (db s')).
Proof.
  intros (Hrows & _ & Hlines) Hp Hns Hty Hr Hok.
  destruct (ProcessFact_inv _ _ _ _ _ _ Hrows Hp Hns Hok)
    as (d1 & r1 & s2 & s3 & now & Hs1 & Hd2 & Hr1 & Hdisp & Hs3 & _). simplify_eq.
  unfold dispatch in Hdisp. rewrite Hty in Hdisp. cbn [String.eqb Ascii.eqb Bool.eqb orb] in Hdisp.
  apply applyPaymentAuthorized_ok in Hdisp as [Hc Hl].
  split; intros Hst; [eapply order_confirmed_frame | eapply late_payment_frame]; eauto.
Qed.
