(* ===== verification/OrdersSamples.v ===== *)
(** * Orders: concrete runs

    A small world in which nothing fails (identifiers are counted, the clock
    stands still, signatures are toys), the runs of the store in it, and the
    behaviours of [ProcessFact] that the documents of the service do not
    foresee, each shown by a run. *)
From Stdlib Require Import ZArith Lia Ascii String.
From stdpp Require Import base gmap strings list relations pretty.
From S2P Require Import Prelude GoStrings GoErrors GoTime GoJson GoBase64 GoCrypto OrdersDomain.
From S2P Require Import Tx OrdersTables OrdersPorts OrdersQuote OrdersStore OrdersSaga.
From S2P Require Import OrdersHistory OrdersStoreFacts OrdersSagaFacts.

Open Scope string_scope.
Open Scope Z_scope.
Open Scope go_scope.

(** ** The world *)

Definition toy_key : string := repeat_byte 32 "p"%char.
Definition toy_key_set : KeySetHTTP := {| key_set_reply := fun _ _ => Some (200, Some (json_text
  (JObj [("keys", JArr [JObj [("kty", JStr "OKP"); ("crv", JStr "Ed25519"); ("kid", JStr "k1");
                              ("use", JStr "sig"); ("alg", JStr "EdDSA");
                              ("x", JStr (RawURLEncode toy_key))]])]))) |}.

#[local] Instance w_lib : GoLib := ascii_lib.
#[local] Instance w_crypto : Crypto := toy_crypto.
#[local] Instance w_env : Env := calm_env sample_now.
#[local] Instance w_pg : Pg := exact_pg.
#[local] Instance w_keys : KeySetHTTP := toy_key_set.

Definition w_store : Store := mkStore (Some "http://inventory/keys") "secret".
Definition w0 : St DB QuoteCache := mkSt empty_db empty_cache 0.

(** ** Facts as their producers write them *)

Definition fact (id type aggregate producer operation : string) (data : list (string * json)) : string :=
  json_text (JObj [("event_id", JStr id); ("event_type", JStr type); ("aggregate_id", JStr "agg_1");
    ("aggregate_type", JStr aggregate); ("aggregate_version", jint 1); ("saga_id", JStr "sag_x");
    ("correlation_id", JStr "ord_1"); ("causation_id", JStr "cmd_1");
    ("operation_id", JStr operation); ("producer", JStr producer); ("schema_version", jint 1);
    ("data", JObj (("order_id", JStr "ord_1") :: data))]).

Definition toy_header : string :=
  RawURLEncode (json_text (JObj [("alg", JStr "EdDSA"); ("kid", JStr "k1")])).
Definition reserved_fact : string :=
  fact "evt_r" InventoryReserved "inventory" "inventory" "ord_1:reserve"
    [("reservation_id", JStr "res_1"); ("currency", JStr "EUR"); ("quote_id", JStr "qte_1");
     ("quote_version", jint 7); ("quote_expires_at", JStr "2026-07-25T00:00:00Z");
     ("items", JArr [JObj [("product_id", JStr "prd_a1"); ("quantity", jint 2);
                           ("unit_price_minor", jint 100); ("line_total_minor", jint 200)];
                     JObj [("product_id", JStr "prd_b2"); ("quantity", jint 3);
                           ("unit_price_minor", jint 40); ("line_total_minor", jint 120)]]);
     ("quote_key_id", JStr "k1");
     ("quote_signature", JStr (toy_header +:+ ".." +:+ RawURLEncode (toy_key +:+ toy_key)))].
Definition authorized_fact : string :=
  fact "evt_p" PaymentAuthorized "payment" "payments" "ord_1:authorize-payment"
    [("payment_id", JStr "pay_1"); ("amount_minor", jint 320); ("currency", JStr "EUR")].
Definition completed_fact : string :=
  fact "evt_f" FulfillmentCompleted "fulfillment" "fulfillment" "ord_1:create-fulfillment"
    [("shipment_id", JStr "shp_1")].
Definition released_fact : string :=
  fact "evt_l" InventoryReleasedFact "inventory" "inventory" "ord_1:release-inventory"
    [("reservation_id", JStr "res_1")].

Definition group : string := "orders-saga-v1".
Definition status_of (s : St DB QuoteCache) : option string := o_status <$> orders (db s) !! "ord_1".
Definition deliver (p : string) (s : St DB QuoteCache) : St DB QuoteCache * result goerr unit :=
  ProcessFact w_store group p s.

Definition run_create := Create "usr_1" sample_order "orders.create" "key-0123456789abcdef" "h1" w0.
Definition w1 : St DB QuoteCache := fst run_create.
Definition w2 : St DB QuoteCache := fst (deliver reserved_fact w1).
Definition w3 : St DB QuoteCache := fst (deliver authorized_fact w2).
Definition w4 : St DB QuoteCache := fst (deliver completed_fact w3).

Example happy_path :
  map status_of [w0; w1; w2; w3; w4]
  = [None; Some StatusPending; Some StatusPending; Some StatusConfirmed; Some StatusCompleted].
Proof. vm_compute. reflexivity. Qed.
Example happy_path_messages :
  map x_message_type (outbox_events (db w4))
  = ["commerce.order.created.v1"; "commerce.inventory.reserve.v1"; "commerce.payment.authorize.v1";
     "commerce.order.confirmed.v1"; "commerce.fulfillment.create.v1"; "commerce.order.completed.v1"].
Proof. vm_compute. reflexivity. Qed.

(** ** Runs the documents do not foresee *)

Definition cancel (s : St DB QuoteCache) (v : Z) : St DB QuoteCache :=
  fst (RequestCancellation "usr_1" "ord_1" "orders.cancel" "key-0123456789abcdef" "h2"
         "CUSTOMER_REQUESTED" v sample_now s).

(** A fulfillment.completed fact completes an order that was never paid
    for, and one whose cancellation is under way, although the aggregate allows
    completion from CONFIRMED only. *)
Theorem completion_skips_confirmation :
  status_of w1 = Some StatusPending /\
  snd (deliver completed_fact w1) = Ok tt /\
  status_of (fst (deliver completed_fact w1)) = Some StatusCompleted /\
  status_of (cancel w1 1) = Some StatusCancelReq /\
  status_of (fst (deliver completed_fact (cancel w1 1))) = Some StatusCompleted /\
  allowedTransition StatusPending StatusCompleted = false /\
  allowedTransition StatusCancelReq StatusCompleted = false.
Proof. vm_compute. repeat split. Qed.

(** The reservation is released before the payment is authorized: the order is
    CANCELLED, and the authorization that follows is acknowledged without a
    refund. *)
Definition w_cancelled : St DB QuoteCache := fst (deliver released_fact (cancel w2 2)).

(** A payment authorized after the cancellation completed is acknowledged
    and dropped: the order is CANCELLED, no payment is recorded and no refund
    command is ever sent for it. *)
Theorem late_authorization_is_not_refunded :
  status_of w_cancelled = Some StatusCancelled /\
  snd (deliver authorized_fact w_cancelled) = Ok tt /\
  (o_payment_id <$> orders (db (fst (deliver authorized_fact w_cancelled))) !! "ord_1") = Some None /\
  outbox_events (db (fst (deliver authorized_fact w_cancelled))) = outbox_events (db w_cancelled) /\
  PaymentRefund ∉ map x_message_type (outbox_events (db w_cancelled)).
Proof.
  split_and!; try (vm_compute; reflexivity).
  refine (bool_decide_unpack _ _). vm_compute. exact I.
Qed.

(** The same world, but the reply to one commit is lost. *)
Definition lossy_env (n : nat) : Env :=
  {| uuid_at := @uuid_at w_env; clock_at := @clock_at w_env; db_now_at := @db_now_at w_env;
     trip_at := fun k => if Nat.eqb k n then TripLost (NewErr "connection reset") else TripOk |}.
Definition commit_tick : nat := pred (tick w2).
Definition lost : St DB QuoteCache * result goerr unit :=
  @ProcessFact w_lib w_crypto (lossy_env commit_tick) w_pg w_keys w_store group reserved_fact w1.
Definition recorded : St DB QuoteCache * result goerr (bool * Z) :=
  RecordFactFailure group reserved_fact "connection reset" sample_now (fst lost).

(** Recording a failure reopens a fact that was applied.  When the reply
    to the commit of a reservation is lost, its effects are stored and the fact
    is PROCESSED; the relay's failure record turns it back into RETRY, and
    every later delivery then fails on the prices already set, up to the
    quarantine. *)
Theorem failure_record_reopens_a_processed_fact :
  is_ok (snd lost) = false /\ settled_fact group "evt_r" (db (fst lost)) /\
  (o_total_minor <$> orders (db (fst lost)) !! "ord_1") = Some (Some 320) /\
  snd recorded = Ok (false, 2) /\
  (n_status <$> inbox_messages (db (fst recorded)) !! (group, "evt_r")) = Some "RETRY" /\
  snd (deliver reserved_fact (fst recorded)) = Err ErrPricesAlreadySet.
Proof.
  split_and!; try (vm_compute; reflexivity).
  eexists. split; vm_compute; reflexivity.
Qed.

(** ** Witnesses *)

Lemma w0_ok : db_ok (db w0).
Proof. apply db_ok_empty. Qed.
Lemma delivered p s : ProcessFact w_store group p s = (fst (deliver p s), snd (deliver p s)).
Proof. unfold deliver. by destruct (ProcessFact w_store group p s). Qed.
Lemma w_run1 :
  Create "usr_1" sample_order "orders.create" "key-0123456789abcdef" "h1" w0 = (w1, snd run_create).
Proof. unfold w1, run_create. by destruct (Create _ _ _ _ _ _). Qed.
Lemma cancel_run s v :
  exists r, RequestCancellation "usr_1" "ord_1" "orders.cancel" "key-0123456789abcdef" "h2"
              "CUSTOMER_REQUESTED" v sample_now s = (cancel s v, r).
Proof. unfold cancel. destruct (RequestCancellation _ _ _ _ _ _ _ _ _) as [s' r]. by exists r. Qed.

Lemma w_step1 : store_step w_store w0 w1.
Proof. exact (op_create _ _ _ _ _ _ _ _ _ w_run1). Qed.
Lemma w_step2 : store_step w_store w1 w2.
Proof. exact (op_process _ _ _ _ _ _ (delivered reserved_fact w1)). Qed.
Lemma w_step3 : store_step w_store w2 w3.
Proof. exact (op_process _ _ _ _ _ _ (delivered authorized_fact w2)). Qed.
Lemma w1_ok : db_ok (db w1).
Proof. exact (proj2 (history_evolves w_store _ _ w0_ok (rtc_once _ _ w_step1))). Qed.
Lemma w2_ok : db_ok (db w2).
Proof. exact (proj2 (history_evolves w_store _ _ w1_ok (rtc_once _ _ w_step2))). Qed.

Lemma orders_history_witness :
  exists r r', orders (db w2) !! "ord_1" = Some r /\ orders (db w3) !! "ord_1" = Some r' /\
               order_evolves r r'.
Proof.
  destruct (orders (db w2) !! "ord_1") as [r|] eqn:Hr; [|exfalso; vm_compute in Hr; discriminate Hr].
  destruct (orders_history w_store w2 w3 "ord_1" r w2_ok (rtc_once _ _ w_step3) Hr)
    as (r' & Hr' & He & _).
  exists r, r'. auto.
Defined.

Lemma outbox_history_witness :
  NoDup (map x_id (outbox_events (db w3))) /\
  exists old new, outbox_events (db w3) = (old ++ new)%list /\
                  Forall2 outbox_evolves (outbox_events (db w2)) old.
Proof. exact (outbox_history w_store w2 w3 w2_ok (rtc_once _ _ w_step3)). Defined.

Lemma w_cancel_steps : rtc (store_step w_store) w2 w_cancelled.
Proof.
  destruct (cancel_run w2 2) as [r Hc].
  exact (rtc_l _ _ _ _ (op_cancel _ _ _ _ _ _ _ _ _ _ _ _ Hc)
           (rtc_once _ _ (op_process _ _ _ _ _ _ (delivered released_fact (cancel w2 2))))).
Qed.

Lemma cancelled_orders_are_compensated_witness :
  exists r, orders (db w_cancelled) !! "ord_1" = Some r /\ o_reservation_id r = Some "res_1" /\
            o_inventory_released r = true.
Proof.
  destruct (orders (db w_cancelled) !! "ord_1") as [r|] eqn:Hr;
    [|exfalso; vm_compute in Hr; discriminate Hr].
  exists r. split; [reflexivity|].
  assert (o_status r = StatusCancelled /\ o_reservation_id r = Some "res_1") as [Hs Hres].
  { vm_compute in Hr. injection Hr as <-. split; reflexivity. }
  split; [exact Hres|].
  apply (cancelled_orders_are_compensated w_store w2 w_cancelled "ord_1" r w2_ok w_cancel_steps Hr Hs).
  rewrite Hres. discriminate.
Defined.

Definition parsed (p : string) : factEnvelope :=
  match parse_fact p with
  | Some e => e
  | None => mkFact "" "" "" "" 0 "" "" "" "" "" 0 zeroTime ∅
  end.
Lemma reserved_parsed : parse_fact reserved_fact = Some (parsed reserved_fact).
Proof. vm_compute. reflexivity. Qed.
Lemma authorized_parsed : parse_fact authorized_fact = Some (parsed authorized_fact).
Proof. vm_compute. reflexivity. Qed.

(** A fact not in the inbox is not settled. *)
Lemma absent_not_settled g id d : inbox_messages d !! (g, id) = None -> ~ settled_fact g id d.
Proof. intros Hn (row & Hrow & _). congruence. Qed.

Lemma fact_takes_effect_once_witness :
  db (fst (deliver reserved_fact w2)) = db w2 /\
  settled_fact group (f_EventID (parsed reserved_fact)) (db w2).
Proof.
  assert (settled_fact group (f_EventID (parsed reserved_fact)) (db w2)) as Hset.
  { apply (fact_takes_effect_once w_store group reserved_fact (parsed reserved_fact) w1 w2 (Ok tt));
      [apply w1_ok | apply reserved_parsed | vm_compute; reflexivity | reflexivity]. }
  split; [|exact Hset].
  apply (fact_takes_effect_once w_store group reserved_fact (parsed reserved_fact) w2 _ (snd (deliver reserved_fact w2)));
    [apply w2_ok | apply reserved_parsed | apply delivered | exact Hset].
Defined.

Lemma create_all_or_nothing_witness :
  order_created "usr_1" "orders.create" "key-0123456789abcdef" "h1" sample_order (db w0) (db w1).
Proof.
  destruct (snd run_create) as [res|err] eqn:Hr; [|exfalso; vm_compute in Hr; discriminate Hr].
  apply (create_all_or_nothing "usr_1" sample_order "orders.create" "key-0123456789abcdef" "h1" w0 w1
           (Ok res)) with (res := res).
  - rewrite <- Hr. exact w_run1.
  - reflexivity.
  - vm_compute in Hr. injection Hr as <-. reflexivity.
Defined.

Lemma create_is_idempotent_witness :
  exists s3 res, Create "usr_1" sample_order "orders.create" "key-0123456789abcdef" "h1" w2 = (s3, Ok res) /\
    db s3 = db w2 /\ Replayed res = true /\ ID (ROrder res) = "ord_1".
Proof.
  destruct (snd run_create) as [res|err] eqn:Hr; [|exfalso; vm_compute in Hr; discriminate Hr].
  destruct (create_is_idempotent "usr_1" sample_order "orders.create" "key-0123456789abcdef" "h1"
              w0 w1 res sample_order "h1" w2) as (s3 & Hd & res' & Hc & H1 & H2 & H3).
  - reflexivity.
  - reflexivity.
  - apply w2_ok.
  - rewrite <- Hr. exact w_run1.
  - vm_compute in Hr. injection Hr as <-. reflexivity.
  - exact (store_step_evolves w_store _ _ w1_ok w_step2).
  - vm_compute. reflexivity.
  - vm_compute. reflexivity.
  - exists s3, res'. split; [exact Hc|]. split; [exact Hd|]. split; [exact H1 | exact H2].
Defined.

Lemma cancellation_is_optimistic_witness :
  db (cancel w2 1) = db w2 /\ exists r, orders (db w2) !! "ord_1" = Some r /\ o_version r = 2.
Proof.
  destruct (orders (db w2) !! "ord_1") as [r|] eqn:Hr; [|exfalso; vm_compute in Hr; discriminate Hr].
  assert (o_version r = 2) as Hv by (vm_compute in Hr; injection Hr as <-; reflexivity).
  split; [|exists r; auto]. destruct (cancel_run w2 1) as [res Hc].
  apply (cancellation_is_optimistic "usr_1" "ord_1" "orders.cancel" "key-0123456789abcdef" "h2"
           "CUSTOMER_REQUESTED" 1 sample_now w2 _ _ Hc) with (row := r).
  - exact Hr.
  - left. rewrite Hv. vm_compute. discriminate.
Defined.

Lemma payment_is_asked_for_the_signed_total_witness :
  exists r q now lines, orders (db w1) !! "ord_1" = Some r /\
    fact_quote (stored_order (db w1) "ord_1" r) (parsed reserved_fact) q /\
    quote_authentic w_store (parsed reserved_fact) q now w1 w2 /\
    reservation_priced (stored_order (db w1) "ord_1" r) q now lines (db w1) (db w2).
Proof.
  destruct (orders (db w1) !! "ord_1") as [r|] eqn:Hr; [|exfalso; vm_compute in Hr; discriminate Hr].
  destruct (payment_is_asked_for_the_signed_total w_store group reserved_fact (parsed reserved_fact)
              w1 w2 r) as (q & now & lines & Hq & _ & Ha & Hp).
  - apply w1_ok.
  - apply reserved_parsed.
  - apply absent_not_settled. vm_compute. reflexivity.
  - vm_compute. reflexivity.
  - exact Hr.
  - vm_compute in Hr. injection Hr as <-. reflexivity.
  - vm_compute. reflexivity.
  - exists r, q, now, lines. split; [reflexivity|]. split; [exact Hq|]. split; [exact Ha | exact Hp].
Defined.

Lemma payment_confirms_or_is_refunded_witness :
  exists r, orders (db w2) !! "ord_1" = Some r /\
    order_confirmed (stored_order (db w2) "ord_1" r) (parsed authorized_fact) (db w2) (db w3).
Proof.
  destruct (orders (db w2) !! "ord_1") as [r|] eqn:Hr; [|exfalso; vm_compute in Hr; discriminate Hr].
  exists r. split; [reflexivity|].
  apply (payment_confirms_or_is_refunded w_store group authorized_fact (parsed authorized_fact) w2 w3 r).
  - apply w2_ok.
  - apply authorized_parsed.
  - apply absent_not_settled. vm_compute. reflexivity.
  - vm_compute. reflexivity.
  - exact Hr.
  - vm_compute. reflexivity.
  - vm_compute in Hr. injection Hr as <-. reflexivity.
Defined.
