(* ===== verification/OrdersOverlap.v ===== *)
(** * Orders: what overlapping transactions cannot do

    Any number of processes run the store's operations at once, statement by
    statement at READ COMMITTED ([OrdersInterleaved]).  Orders, messages and
    compensations have the histories they have one operation at a time; a fact
    takes effect once and an idempotency key creates one order, however the
    deliveries and requests overlap; and one thing the code allows: a fact that
    is being retried can take effect twice. *)
From Stdlib Require Import ZArith Lia Ascii String.
From stdpp Require Import base gmap strings list relations.
From S2P Require Import Prelude GoStrings GoErrors GoTime GoJson GoBase64 GoCrypto OrdersDomain.
From S2P Require Import Tx Interleave ReadCommitted OrdersTables OrdersPorts OrdersQuote OrdersStore OrdersSaga.
From S2P Require Import OrdersHistory OrdersSagaFacts OrdersRows OrdersInterleaved OrdersSamples.

Open Scope string_scope.
Open Scope Z_scope.

Section Overlap.
Context `{GoLib} `{Crypto} `{Env} `{Pg} `{KeySetHTTP} (st : Store).

Definition Clients : Type := Sys (Server (DB := DB)) (place (DB := DB) (L := QuoteCache) job_answer).
Definition rows_of (s : Clients) : DB := committed (shared s).

Section Quiet.
Context (quiet : string * string -> Prop).

Definition clients_ok : Clients -> Prop :=
  sys_ok job_answer orders_ev db_ok (settled_com quiet) (job_post quiet) (unrecorded quiet).
Notation admits := (Forall (admitted (L := QuoteCache) (unrecorded quiet))).

Lemma post_com j a view before :
  job_post quiet j (Ok (CommitThen a)) view before -> forall k, before !! k <> None -> settled_com quiet k (row_at view k).
Proof. intros Hp. exact (proj1 (Hp a eq_refl)). Qed.

Lemma overlap_step lb s s' :
  admitted (unrecorded quiet) lb -> clients_ok s -> sys_step (Waits job_answer) (store_step_at st) lb s = Some s' ->
  clients_ok s' /\
  match lb with
  | Spawn _ => rows_of s' = rows_of s
  | Run i _ => exists q, threads s' !! i = Some q /\ publishes job_answer orders_ev (job_post quiet) (rows_of s) (rows_of s') q
  end.
Proof.
  apply (server_step_ok job_answer mapError (job_steps st) orders_ev db_ok (settled_com quiet) orders_ev_present
    (job_post quiet) post_com (unrecorded quiet)). intros j d. apply job_keeps.
Qed.
Lemma overlap_history ls s s' :
  admits ls -> clients_ok s -> store_run st ls s = Some s' -> clients_ok s' /\ rows_evolve (rows_of s) (rows_of s').
Proof.
  apply (run_history job_answer mapError (job_steps st) orders_ev db_ok (settled_com quiet) orders_ev_present
    (job_post quiet) post_com (unrecorded quiet)). intros j d. apply job_keeps.
Qed.


(** What can happen once: the row it leaves is the sign of it. *)
Lemma once k (P : place (DB := DB) (L := QuoteCache) job_answer -> Prop) d n ls s :
  (forall q, P q -> exists j r, q = Ended job_answer j true r) ->
  (forall c c' q, publishes job_answer orders_ev (job_post quiet) c c' q -> P q ->
     orders_row c k = None /\ is_Some (orders_row c' k)) ->
  db_ok d -> (forall k, settled_com quiet k (orders_row d k)) -> admits ls ->
  store_run st ls (start (mkServer d ∅ n)) = Some s ->
  at_most_one job_answer (fun c => is_Some (orders_row c k)) P (is_Some (orders_row d k)) s.
Proof.
  intros Hend Hfirst Hd Hcm Had.
  apply (once_started job_answer mapError (job_steps st) orders_ev db_ok (settled_com quiet) orders_ev_present
    (job_post quiet) post_com (unrecorded quiet)); try done.
  - intros j d'. apply job_keeps.
  - intros c c' He. by apply rows_evolve_present.
  - intros c c' q Hpub HP. destruct (Hfirst c c' q Hpub HP) as [Hn Hs]. split; [|done]. rewrite Hn. by intros [? [=]].
Qed.
End Quiet.

(** ** One operation after the other *)

(** Operations run to their ends one at a time, and what they answered. *)
Fixpoint serially (js : list store_job) (s : St DB QuoteCache)
  : St DB QuoteCache * list {j & result goerr (job_answer j)} :=
  match js with
  | [] => (s, [])
  | j :: rest =>
      let '(s1, r) := in_tx mapError (job_tx st j) s in
      let '(s2, rs) := serially rest s1 in (s2, existT j r :: rs)
  end.
Definition answered (q : place (DB := DB) (L := QuoteCache) job_answer) : option {j & result goerr (job_answer j)} :=
  match q with Ended _ j _ r => Some (existT j r) | _ => None end.

Lemma operation_alone j s s' r ts : db_ok (db s) -> in_tx mapError (job_tx st j) s = (s', r) ->
  exists ls commits, store_run st ls (mkSys (mkServer (db s) ∅ (tick s)) ts) =
    Some (mkSys (mkServer (db s') ∅ (tick s')) (ts ++ [Ended job_answer j commits r])%list).
Proof.
  intros Hd Htx. apply (transaction_alone job_answer mapError (job_steps st) db_ok in_place overlay_in_place);
    [apply job_in_place | done|].
  rewrite <- Htx. unfold in_tx, job_steps. by rewrite (steps_alone (m := job_tx st j)).
Qed.

(** No assumption on the inbox. *)
Definition nobody (_ : string * string) : Prop := False.
Lemma admits_all ls : Forall (admitted (L := QuoteCache) (unrecorded nobody)) ls.
Proof. apply Forall_forall. intros [[]|] _; try done. intros []. Qed.
Lemma started_ok d n : db_ok d -> clients_ok nobody (start (mkServer d ∅ n)).
Proof.
  intros Hd. apply start_ok; [done|]. intros k. cbn [row_at OrdersRowDB shared start committed]. generalize (orders_row d k).
  intros [[]|]; destruct k; try done; intros [].
Qed.
Lemma operation_ok j s s' r : db_ok (db s) -> in_tx mapError (job_tx st j) s = (s', r) -> db_ok (db s').
Proof.
  intros Hd Htx. destruct (operation_alone j s s' r [] Hd Htx) as (ls & cm & Hrun).
  by destruct (overlap_history nobody _ _ _ (admits_all _) (started_ok (db s) (tick s) Hd) Hrun) as [[Hok _ _ _ _] _].
Qed.
Lemma serially_runs js : forall s s' rs ts, db_ok (db s) -> serially js s = (s', rs) ->
  exists ls qs, map answered qs = map Some rs /\
    store_run st ls (mkSys (mkServer (db s) ∅ (tick s)) ts) = Some (mkSys (mkServer (db s') ∅ (tick s')) (ts ++ qs)%list).
Proof.
  induction js as [|j js IH]; intros s s' rs ts Hd; cbn.
  { intros [= <- <-]. exists [], []. by rewrite app_nil_r. }
  destruct (in_tx mapError (job_tx st j) s) as [s1 r] eqn:Htx. destruct (serially js s1) as [s2 rs2] eqn:Hser.
  intros [= <- <-]. destruct (operation_alone j s s1 r ts Hd Htx) as (ls & cm & Hrun).
  destruct (IH s1 s2 rs2 (ts ++ [Ended job_answer j cm r])%list (operation_ok _ _ _ _ Hd Htx) Hser) as (ls2 & qs & Hqs & Hrun2).
  exists (ls ++ ls2)%list, (Ended job_answer j cm r :: qs). split; [cbn; by rewrite Hqs|].
  eapply then_run; [exact Hrun|]. rewrite <- app_assoc in Hrun2. exact Hrun2.
Qed.
Lemma overlapping d n ls s ls' s' :
  db_ok d -> store_run st ls (start (mkServer d ∅ n)) = Some s -> store_run st ls' s = Some s' ->
  db_ok (rows_of s) /\ db_ok (rows_of s') /\ rows_evolve (rows_of s) (rows_of s').
Proof.
  intros Hd Hr Hr'. destruct (overlap_history nobody _ _ _ (admits_all _) (started_ok d n Hd) Hr) as [Hs _].
  destruct (overlap_history nobody _ _ _ (admits_all _) Hs Hr') as [Hs' He].
  split_and!; [apply Hs | apply Hs' | done].
Qed.
End Overlap.

(** ** Properties *)

(** C1: however the statements of any number of the store's transactions
    interleave at READ COMMITTED, whatever round trips fail and whatever replies
    are lost: from any moment to any later one no committed order disappears, its
    owner, currency and creation time never change, its version grows whenever
    the row changes, a total once set is final, the compensation flags are never
    cleared, its status moves along the aggregate's transitions, completion of a
    non-terminal order apart, and a terminal status is final. *)
Theorem overlapping_orders_history `{GoLib} `{Crypto} `{Env} `{Pg} `{KeySetHTTP} st d n ls s ls' s' id r :
  db_ok d -> store_run st ls (start (mkServer d ∅ n)) = Some s -> store_run st ls' s = Some s' ->
  orders (committed (shared s)) !! id = Some r ->
  exists r', orders (committed (shared s')) !! id = Some r' /\ order_evolves r r' /\ order_row_ok r' = true /\
             (IsTerminal (o_status r) = true -> o_status r' = o_status r).
Proof.
  intros Hd Hs Hs' Hr. destruct (overlapping st d n ls s ls' s' Hd Hs Hs') as (_ & [Hok _] & He).
  destruct (rows_evolve_order _ _ _ _ He Hr) as (r' & Hr' & Hev). exists r'.
  split_and!; [done | done | by eapply Hok | apply terminal_edges, Hev].
Qed.

(** C3: however the store's transactions interleave, from tables in which it
    holds (the empty ones for a start) no CANCELLED order is ever committed that
    holds an inventory reservation that was not released or a payment that was
    not refunded. *)
Theorem overlapping_cancellations_are_compensated `{GoLib} `{Crypto} `{Env} `{Pg} `{KeySetHTTP} st d n ls s id r :
  db_ok d -> store_run st ls (start (mkServer d ∅ n)) = Some s ->
  orders (committed (shared s)) !! id = Some r -> o_status r = StatusCancelled ->
  (o_reservation_id r <> None -> o_inventory_released r = true) /\
  (o_payment_id r <> None -> o_payment_refunded r = true).
Proof.
  intros Hd Hs Hr Hc. destruct (overlapping st d n ls s [] s Hd Hs eq_refl) as ([Hok _] & _ & _).
  by apply (Hok _ _ Hr).
Qed.

(** C10: however the store's transactions interleave, the ids of the committed
    outbox are unique, and from any moment to any later one every message is
    still there under its id with its topic, key, payload and headers, its
    attempts never go down, and a published one never changes again. *)
Theorem overlapping_outbox_history `{GoLib} `{Crypto} `{Env} `{Pg} `{KeySetHTTP} st d n ls s ls' s' :
  db_ok d -> store_run st ls (start (mkServer d ∅ n)) = Some s -> store_run st ls' s = Some s' ->
  NoDup (map x_id (outbox_events (committed (shared s')))) /\
  forall m, m ∈ outbox_events (committed (shared s)) ->
    exists m', m' ∈ outbox_events (committed (shared s')) /\ outbox_evolves m m'.
Proof.
  intros Hd Hs Hs'. destruct (overlapping st d n ls s ls' s' Hd Hs Hs') as ((_ & Hnd & _) & (_ & Hnd' & _) & He).
  split; [done|]. intros m Hm. pose proof (find_row_nodup x_id _ _ Hnd Hm) as Hf.
  destruct (He (KOutbox (x_id m)) (AnOutbox m)) as (row & Hrow & Hev); [unfold rows_of in *; cbn; by rewrite Hf|].
  cbn in Hrow. apply fmap_Some in Hrow as (m' & Hf' & ->). exists m'. split; [|exact Hev].
  by apply find_row_key in Hf' as [_ ?].
Qed.

(** The serial account of the store is one of its interleavings.  For operations
    run one after the other as [in_tx] has it there is a schedule of
    the interleaved server that ends in the same tables with no row locked and
    gives the same answers. *)
Theorem serial_histories_are_schedules `{GoLib} `{Crypto} `{Env} `{Pg} `{KeySetHTTP} st js s s' rs :
  db_ok (db s) -> serially st js s = (s', rs) ->
  exists ls v, store_run st ls (start (mkServer (db s) ∅ (tick s))) = Some v /\
    shared v = mkServer (db s') ∅ (tick s') /\ map answered (threads v) = map Some rs.
Proof.
  intros Hd Hser. destruct (serially_runs st js s s' rs [] Hd Hser) as (ls & qs & Hqs & Hrun).
  exists ls, (mkSys (mkServer (db s') ∅ (tick s')) qs). by split_and!.
Qed.

Lemma is_Some_row {A} (f : A -> OrdersRow) (o : option A) : is_Some o -> is_Some (f <$> o).
Proof. intros [a ->]. by exists (f a). Qed.

(** The deliveries of a message that committed. *)
Definition committed_delivery (m : string * string) (q : place (DB := DB) (L := QuoteCache) job_answer) : bool :=
  match q with Ended _ (ProcessJob g _ e) true _ => bool_decide ((g, f_EventID e) = m) | _ => false end.
Lemma committed_delivery_true m q : committed_delivery m q = true ->
  exists g p e r, q = Ended job_answer (ProcessJob g p e) true r /\ (g, f_EventID e) = m.
Proof. destruct q as [| |[] [] r]; try done. cbn. intros ?%bool_decide_eq_true. by eauto 6. Qed.

(** C2: overlapping deliveries of one fact, by any number of relays, take
    effect once: when no failure of it is recorded, at most one of them commits,
    whatever their payloads, and none when the fact was recorded before; then the
    fact is recorded as processed or quarantined; the others change nothing. *)
Theorem overlapping_deliveries_take_effect_once `{GoLib} `{Crypto} `{Env} `{Pg} `{KeySetHTTP} st d n ls s m :
  db_ok d -> (forall row, inbox_messages d !! m = Some row -> settled (n_status row) = true) ->
  Forall (fun lb => match lb with Spawn (FailureJob g _ _ _ e) => (g, f_EventID e) <> m | _ => True end) ls ->
  store_run st ls (start (mkServer d ∅ n)) = Some s ->
  (forall i i' q q', threads s !! i = Some q -> threads s !! i' = Some q' -> committed_delivery m q = true ->
     committed_delivery m q' = true -> i = i') /\
  (forall i q, threads s !! i = Some q -> committed_delivery m q = true ->
     inbox_messages d !! m = None /\ exists row, inbox_messages (committed (shared s)) !! m = Some row /\ settled (n_status row) = true).
Proof.
  intros Hd Hset Hls Hrun. set (quiet := fun m' => m' = m).
  assert (Forall (admitted (L := QuoteCache) (unrecorded quiet)) ls) as Had.
  { eapply Forall_impl; [exact Hls|]. by intros [[]|]. }
  assert (clients_ok quiet (start (mkServer d ∅ n))) as Hok.
  { apply start_ok; [done|]. intros k. destruct k as [| | |m'| |]; try done. cbn.
    destruct (inbox_messages d !! m') eqn:Hrow; [|done]. intros ->. by apply Hset. }
  destruct (overlap_history st quiet _ _ _ Had Hok Hrun) as [Hs _].
  destruct (once st quiet (KInbox m) (fun q => committed_delivery m q = true) d n ls s) as (_ & Hrow & Hone);
    [| |done | apply Hok | done | done|].
  { intros q (g & p & e & r & -> & _)%committed_delivery_true. eauto. }
  { intros c c' q Hpub (g & p & e & r & -> & Hm)%committed_delivery_true.
    destruct Hpub as [[_ Hn]|(j & a & r' & view & before & [= Hj] & _ & Hpost & Hk)]; [by destruct (Hn _ _ eq_refl)|].
    subst j. destruct (Hpost a eq_refl) as (_ & [Hrec Hsr] & _). rewrite Hm in Hrec, Hsr. specialize (Hrec eq_refl).
    destruct (published_row _ _ _ _ _ _ _ Hk Hrec) as [Hnone Hview]. split; [exact Hnone|].
    destruct Hsr as (row & Hrow & _). change (is_Some (row_at c' (KInbox m))). rewrite Hview. cbn. rewrite Hrow. eauto. }
  split; [exact Hone|]. intros i q Hi Hdel. destruct (Hrow i q Hi Hdel) as [Hnew [row Hr]].
  split; [by apply eq_None_not_Some; intros ?; apply Hnew, is_Some_row|].
  pose proof (ok_com _ _ _ _ _ _ _ Hs (KInbox m)) as Hcm. cbn in Hr, Hcm. unfold rows_of in Hr.
  destruct (inbox_messages (committed (shared s)) !! m) as [row'|]; [|done]. exists row'. split; [done|]. by apply Hcm.
Qed.

(** An order of the tables [c] that was not in [d]: the transaction that made it
    committed, under a key not recorded in [d], and the key's record names it. *)
Definition created_under (d c : DB) (ts : list (place (DB := DB) (L := QuoteCache) job_answer))
    (key : string * string * string) (id : string) : Prop :=
  idempotency_records d !! key = None /\
  (exists row, idempotency_records c !! key = Some row /\ d_resource_id row = Some id) /\
  exists i a o op k h r, ts !! i = Some (Ended job_answer (CreateJob a o op k h) true r) /\ (a, op, k) = key /\ ID o = id.

Section Creations.
Context `{GoLib} `{Crypto} `{Env} `{Pg} `{KeySetHTTP} (st : Store) (d : DB).

(** Records stay as they were committed; new orders are made under new keys. *)
Record accounted (c : DB) (ts : list (place (DB := DB) (L := QuoteCache) job_answer)) : Prop := {
  ac_records : forall key row, idempotency_records d !! key = Some row -> idempotency_records c !! key = Some row;
  ac_orders : forall id, is_Some (orders c !! id) -> orders d !! id = None -> exists key, created_under d c ts key id
}.

Lemma accounted_threads c ts ts' : 
  (forall i j r, ts !! i = Some (Ended job_answer j true r) -> ts' !! i = Some (Ended job_answer j true r)) ->
  accounted c ts -> accounted c ts'.
Proof.
  intros Hts [Hr Ho]. split; [done|]. intros id Hid Hn.
  destruct (Ho id Hid Hn) as (key & Hnew & Hrec & i & a & o & op & k & h & r & Hi & Hk & Ho').
  exists key. split_and!; [done | done|]. exists i, a, o, op, k, h, r. eauto.
Qed.

(** Transactions insert idempotency records and change none. *)
Lemma published_records j a view before c c' key row :
  job_post nobody j (Ok (CommitThen a)) view before -> published orders_ev c c' view before ->
  idempotency_records c !! key = Some row -> idempotency_records c' !! key = Some row.
Proof.
  intros Hpost Hpub Hrow. destruct (Hpost a eq_refl) as (_ & Hmark & _ & Hadd).
  assert (before !! KIdem key = None \/ before !! KIdem key = Some None) as [Hb|Hb].
  { destruct (decide (before !! KIdem key = None)) as [|Hne]; [by left | right].
    destruct j; try (destruct Hne; apply Hadd; by intros []).
    - destruct (decide (key = (actorID, operation, key0))) as [->|Hk]; [|by destruct Hne; apply Hadd].
      by destruct Hmark as [[? _]|[? _]].
    - destruct (decide (key = (actorID, operation, key0))) as [->|Hk]; [|by destruct Hne; apply Hadd].
      by destruct Hmark. }
  - pose proof (published_other _ _ _ _ _ _ Hpub Hb) as Hsame. cbn in Hsame. rewrite Hrow in Hsame.
    by destruct (idempotency_records c' !! key); [injection Hsame as ->|].
  - pose proof (published_row _ _ _ _ _ _ _ Hpub Hb) as [Hsame _]. cbn in Hsame. by rewrite Hrow in Hsame.
Qed.
(** An order appears when its creation commits. *)
Lemma published_order j a view before c c' id :
  job_post nobody j (Ok (CommitThen a)) view before -> published orders_ev c c' view before ->
  orders c !! id = None -> is_Some (orders c' !! id) ->
  exists ac o op k h row, j = CreateJob ac o op k h /\ ID o = id /\ idempotency_records c !! (ac, op, k) = None /\
    idempotency_records c' !! (ac, op, k) = Some row /\ d_resource_id row = Some id.
Proof.
  intros Hpost Hpub Hn [r Hr]. destruct (Hpost a eq_refl) as (_ & Hmark & Hadd & _).
  assert (before !! KOrder id = Some None) as Hb.
  { destruct (before !! KOrder id) as [o|] eqn:Hb.
    - pose proof (published_row _ _ _ _ _ _ _ Hpub Hb) as [<- _]. cbn. by rewrite Hn.
    - pose proof (published_other _ _ _ _ _ _ Hpub Hb) as Hsame. cbn in Hsame. by rewrite Hn, Hr in Hsame. }
  destruct j as [ac o op k h| | | | | | |]; try (by destruct (Hadd id); [intros []|]).
  destruct (decide (id = ID o)) as [->|Hne]; [|by destruct (Hadd id)].
  destruct Hmark as [[Hm (row & Hrow & Hres)]|[_ Hm]]; [|by rewrite Hb in Hm].
  destruct (published_row _ _ _ _ _ _ _ Hpub Hm) as [Hnone Hview]. cbn in Hnone, Hview. rewrite Hrow in Hview.
  exists ac, o, op, k, h, row. split_and!; try done.
  - by destruct (idempotency_records c !! (ac, op, k)).
  - by destruct (idempotency_records c' !! (ac, op, k)); [injection Hview as ->|].
Qed.

Lemma accounted_published j a view before c c' ts i r :
  job_post nobody j (Ok (CommitThen a)) view before -> published orders_ev c c' view before ->
  ts !! i = Some (Ended job_answer j true r) -> accounted c ts -> accounted c' ts.
Proof.
  intros Hpost Hpub Hi [Hrec Hord]. pose proof (fun key row => published_records _ _ _ _ _ _ key row Hpost Hpub) as Hkeep.
  split; [by eauto|]. intros id Hid Hn. destruct (orders c !! id) as [x|] eqn:Hc.
  - destruct (Hord id) as (key & Hnew & (row & Hrow & Hres) & Hth); [eauto | done|].
    exists key. split_and!; eauto.
  - destruct (published_order _ _ _ _ _ _ _ Hpost Hpub Hc Hid) as (ac & o & op & k & h & row & -> & Hoid & Hnone & Hrow & Hres).
    exists (ac, op, k). split_and!; [|eauto|by exists i, ac, o, op, k, h, r].
    destruct (idempotency_records d !! (ac, op, k)) eqn:Hd; [|done]. apply Hrec in Hd. congruence.
Qed.

Lemma accounted_step lb s s' : clients_ok nobody s -> sys_step (Waits job_answer) (store_step_at st) lb s = Some s' ->
  accounted (rows_of s) (threads s) -> accounted (rows_of s') (threads s').
Proof.
  intros Hok Hst Hac. assert (admitted (L := QuoteCache) (unrecorded nobody) lb) as Had by (apply (Forall_inv (admits_all [lb]))).
  pose proof (overlap_step st nobody lb s s' Had Hok Hst) as [_ Hpub]. destruct lb as [j|i l]; cbn in Hst.
  { injection Hst as <-. eapply accounted_threads; [|exact Hac]. intros i j' r Hi. by apply lookup_app_l_Some. }
  destruct Hpub as (q & Hq & Hpub).
  assert (accounted (rows_of s) (threads s')) as Hth.
  { eapply accounted_threads; [|exact Hac]. destruct (threads s !! i) as [p|] eqn:Hi; [|done]. cbn in Hst.
    destruct (store_step_at st l p (shared s)) as [[v' q']|] eqn:Hp; [|done]. cbn in Hst. injection Hst as <-.
    intros i' j r Hi'. cbn. destruct (decide (i = i')) as [<-|Hne]; [|by rewrite list_lookup_insert_ne].
    rewrite Hi in Hi'. injection Hi' as ->. discriminate Hp. }
  destruct Hpub as [[Heq _]|(j & a & r & view & before & -> & _ & Hpost & Hk)]; [by rewrite Heq|].
  by eapply accounted_published.
Qed.
Lemma accounted_run ls : forall s s', clients_ok nobody s -> store_run st ls s = Some s' ->
  accounted (rows_of s) (threads s) -> accounted (rows_of s') (threads s').
Proof.
  induction ls as [|lb ls IH]; intros s s' Hok; cbn; [by intros [= <-]|].
  destruct (sys_step _ _ lb s) as [s1|] eqn:Hst; [|done]. cbn. intros Hrun Hac.
  assert (admitted (L := QuoteCache) (unrecorded nobody) lb) as Had by (apply (Forall_inv (admits_all [lb]))).
  eapply IH; [by eapply overlap_step | done | by eapply accounted_step].
Qed.
End Creations.

(** C8: however requests overlap, whatever round trips fail and whatever replies
    are lost, an idempotency key makes at most one order.  Every committed order
    that was not there at the start was made by a creation that committed, under
    a key that was not recorded at the start and whose committed record names
    this order; so one key makes one order only; and a record once committed
    never changes. *)
Theorem overlapping_creations_create_once `{GoLib} `{Crypto} `{Env} `{Pg} `{KeySetHTTP} st d n ls s :
  db_ok d -> store_run st ls (start (mkServer d ∅ n)) = Some s ->
  let c := committed (shared s) in
  (forall id, is_Some (orders c !! id) -> orders d !! id = None -> exists key, created_under d c (threads s) key id) /\
  (forall key id id', created_under d c (threads s) key id -> created_under d c (threads s) key id' -> id = id') /\
  (forall key row, idempotency_records d !! key = Some row -> idempotency_records c !! key = Some row).
Proof.
  intros Hd Hrun c. pose proof (started_ok d n Hd) as Hok.
  assert (accounted d c (threads s)) as [Hrec Hord].
  { eapply accounted_run; [exact Hok | exact Hrun|]. split; [done|]. intros id Hs Hn. cbn in Hs. rewrite Hn in Hs. by destruct Hs. }
  split; [exact Hord|]. split; [|exact Hrec].
  intros key id id' (_ & (row & Hr & Hid) & _) (_ & (row' & Hr' & Hid') & _). congruence.
Qed.

(** ** Overlapping runs *)

#[local] Existing Instance w_lib.
#[local] Existing Instance w_crypto.
#[local] Existing Instance w_env.
#[local] Existing Instance w_pg.
#[local] Existing Instance w_keys.

(** The server over the tables of a state of the small world, two transactions
    begun there, and so many steps of one of them. *)
Definition serve (s : St DB QuoteCache) : Clients := start (mkServer (db s) ∅ (tick s)).
Notation schedule := (list (label QuoteCache store_job)).
Definition go (i n : nat) : schedule := repeat (Run i empty_cache) n.
Definition after (ls : schedule) (s : Clients) : Clients := default s (store_run w_store ls s).
Lemma schedule_ran ls s : bool_decide (is_Some (store_run w_store ls s)) = true -> store_run w_store ls s = Some (after ls s).
Proof. unfold after. by destruct (store_run w_store ls s). Qed.

Definition deliver_job (p : string) : store_job := ProcessJob group p (parsed p).
Definition cancel_job : store_job :=
  CancelJob "usr_1" "ord_1" "orders.cancel" "key-0123456789abcdef" "h2" "CUSTOMER_REQUESTED" 2 sample_now.
Definition create_job : store_job := CreateJob "usr_1" sample_order "orders.create" "key-0123456789abcdef" "h1".

(** Whether each transaction ended with its commit. *)
Definition outcomes (s : Clients) : list (option bool) :=
  map (fun q => match q with Ended _ _ commits _ => Some commits | _ => None end) (threads s).

Definition at_thread (f : place (DB := DB) (L := QuoteCache) job_answer -> bool) (s : Clients) (i : nat) : bool :=
  match threads s !! i with Some q => f q | None => false end.
Lemma at_thread_true f s i : at_thread f s i = true -> exists q, threads s !! i = Some q /\ f q = true.
Proof. unfold at_thread. destruct (threads s !! i) as [q|]; [by exists q | done]. Qed.

(** A payment's authorization and a cancellation of version 2: the cancellation
    waits for the order's lock, then finds its version stale. *)
Definition racing : schedule :=
  [Spawn (deliver_job authorized_fact); Spawn cancel_job] ++ go 0 7 ++ go 1 2 ++ go 0 10 ++ go 1 2.
(** One fact twice: the second delivery waits for the inbox row, then finds the
    fact processed. *)
Definition twice (p : string) (a b c : nat) : schedule :=
  [Spawn (deliver_job p); Spawn (deliver_job p)] ++ go 0 a ++ go 1 2 ++ go 0 b ++ go 1 c.
(** One request twice: the second waits for the key's row, then replays. *)
Definition creating : schedule := [Spawn create_job; Spawn create_job] ++ go 0 3 ++ go 1 1 ++ go 0 13 ++ go 1 5.

Example overlapping_runs :
  outcomes (after racing (serve w2)) = [Some true; Some false] /\
  outcomes (after (twice reserved_fact 3 16 3) (serve w1)) = [Some true; Some false] /\
  outcomes (after (twice released_fact 3 12 3) (serve (cancel w2 2))) = [Some true; Some false] /\
  outcomes (after creating (serve w0)) = [Some true; Some true] /\
  length (map_to_list (orders (rows_of (after creating (serve w0))))) = 1%nat.
Proof. vm_compute. repeat split. Qed.

(** The transactions of a fulfillment failure whose recording failed before. *)
Definition failed_fact : string :=
  fact "evt_x" FulfillmentFailed "fulfillment" "fulfillment" "ord_1:create-fulfillment" [].
Definition retrying : St DB QuoteCache :=
  fst (RecordFactFailure group failed_fact "connection reset" sample_now (cancel w2 2)).
Definition retries : schedule :=
  [Spawn (deliver_job failed_fact); Spawn (deliver_job failed_fact)] ++ go 0 7 ++ go 1 7 ++ go 0 6 ++ go 1 6.
Definition new_messages (old : DB) (s : Clients) : list string :=
  map x_message_type (drop (length (outbox_events old)) (outbox_events (rows_of s))).

(** A fact whose failure was recorded can take effect twice.  The inbox row
    exists, so inserting it again locks nothing, and it is read without a lock:
    two deliveries of a failure fact for an order in cancellation both find it in
    RETRY, both insert the compensation command and both commit.  One after the
    other, the second changes nothing. *)
Theorem a_retried_fact_can_take_effect_twice :
  (n_status <$> inbox_messages (db retrying) !! (group, "evt_x")) = Some "RETRY" /\
  outcomes (after retries (serve retrying)) = [Some true; Some true] /\
  new_messages (db retrying) (after retries (serve retrying)) = ["commerce.inventory.release.v1"; "commerce.inventory.release.v1"] /\
  (let once := fst (deliver failed_fact retrying) in
   length (outbox_events (db once)) = S (length (outbox_events (db retrying))) /\
   outbox_events (db (fst (deliver failed_fact once))) = outbox_events (db once)).
Proof. vm_compute. repeat split. Qed.

(** ** Witnesses *)

Lemma w_requested_ok : db_ok (db (cancel w2 2)).
Proof.
  destruct (cancel_run w2 2) as [r Hc].
  exact (proj2 (history_evolves w_store _ _ w2_ok (rtc_once _ _ (op_cancel _ _ _ _ _ _ _ _ _ _ _ _ Hc)))).
Qed.

Definition raced : Clients := after racing (serve w2).
Definition released_twice : Clients := after (twice released_fact 3 12 3) (serve (cancel w2 2)).
Definition reserved_twice : Clients := after (twice reserved_fact 3 16 3) (serve w1).
Definition created_twice : Clients := after creating (serve w0).
Lemma racing_run : store_run w_store racing (serve w2) = Some raced.
Proof. apply schedule_ran. vm_compute. reflexivity. Qed.
Lemma released_run : store_run w_store (twice released_fact 3 12 3) (serve (cancel w2 2)) = Some released_twice.
Proof. apply schedule_ran. vm_compute. reflexivity. Qed.
Lemma reserved_run : store_run w_store (twice reserved_fact 3 16 3) (serve w1) = Some reserved_twice.
Proof. apply schedule_ran. vm_compute. reflexivity. Qed.
Lemma created_run : store_run w_store creating (serve w0) = Some created_twice.
Proof. apply schedule_ran. vm_compute. reflexivity. Qed.

Lemma overlapping_orders_history_witness :
  exists r r', orders (db w2) !! "ord_1" = Some r /\
    orders (committed (shared raced)) !! "ord_1" = Some r' /\ order_evolves r r'.
Proof.
  destruct (orders (db w2) !! "ord_1") as [r|] eqn:Hr; [|exfalso; vm_compute in Hr; discriminate Hr].
  destruct (overlapping_orders_history w_store (db w2) (tick w2) [] (serve w2) racing raced
    "ord_1" r w2_ok eq_refl racing_run Hr) as (r' & Hr' & He & _).
  exists r, r'. split; [reflexivity|]. split; [exact Hr' | exact He].
Defined.

Lemma overlapping_outbox_history_witness :
  NoDup (map x_id (outbox_events (committed (shared raced)))) /\
  forall m, m ∈ outbox_events (committed (shared (serve w2))) ->
    exists m', m' ∈ outbox_events (committed (shared raced)) /\ outbox_evolves m m'.
Proof.
  exact (overlapping_outbox_history w_store (db w2) (tick w2) [] (serve w2) racing raced w2_ok eq_refl racing_run).
Defined.

Lemma overlapping_cancellations_are_compensated_witness :
  exists r, orders (committed (shared released_twice)) !! "ord_1" = Some r /\ o_reservation_id r = Some "res_1" /\
            o_inventory_released r = true.
Proof.
  destruct (orders (committed (shared released_twice)) !! "ord_1") as [r|] eqn:Hr;
    [|exfalso; vm_compute in Hr; discriminate Hr].
  assert (o_status r = StatusCancelled /\ o_reservation_id r = Some "res_1") as [Hs Hres].
  { vm_compute in Hr. injection Hr as <-. split; reflexivity. }
  destruct (overlapping_cancellations_are_compensated w_store (db (cancel w2 2)) (tick (cancel w2 2))
    (twice released_fact 3 12 3) released_twice "ord_1" r w_requested_ok released_run Hr Hs) as [Hrel _].
  exists r. split; [reflexivity|]. split; [exact Hres|]. apply Hrel. rewrite Hres. discriminate.
Defined.

Lemma overlapping_deliveries_take_effect_once_witness :
  exists row, inbox_messages (committed (shared reserved_twice)) !! (group, "evt_r") = Some row /\
              settled (n_status row) = true.
Proof.
  destruct (at_thread_true (committed_delivery (group, "evt_r")) reserved_twice 0) as (q & Hq & Hd); [vm_compute; reflexivity|].
  destruct (overlapping_deliveries_take_effect_once w_store (db w1) (tick w1) (twice reserved_fact 3 16 3)
    reserved_twice (group, "evt_r") w1_ok) as [_ Hset].
  - intros row Hrow. vm_compute in Hrow. discriminate Hrow.
  - repeat constructor.
  - exact reserved_run.
  - exact (proj2 (Hset _ _ Hq Hd)).
Defined.

Lemma overlapping_creations_create_once_witness :
  outcomes created_twice = [Some true; Some true] /\
  (forall id, is_Some (orders (committed (shared created_twice)) !! id) -> id = "ord_1") /\
  created_under (db w0) (committed (shared created_twice)) (threads created_twice)
    ("usr_1", "orders.create", "key-0123456789abcdef") "ord_1".
Proof.
  destruct (overlapping_creations_create_once w_store (db w0) (tick w0) creating created_twice w0_ok created_run)
    as (Hnew & Hone & _).
  assert (forall key, is_Some (idempotency_records (committed (shared created_twice)) !! key) ->
    key = ("usr_1", "orders.create", "key-0123456789abcdef")) as Hkey.
  { intros key Hs. apply (elem_of_dom (D := gset _)) in Hs.
    assert (dom (idempotency_records (committed (shared created_twice))) =
      ({[("usr_1", "orders.create", "key-0123456789abcdef")]} : gset _)) as Hdom by (vm_compute; reflexivity).
    rewrite Hdom in Hs. apply elem_of_singleton in Hs. exact Hs. }
  assert (exists key, created_under (db w0) (committed (shared created_twice)) (threads created_twice) key "ord_1") as [key Hc].
  { apply Hnew; [|reflexivity]. vm_compute. eexists. reflexivity. }
  assert (key = ("usr_1", "orders.create", "key-0123456789abcdef")) as ->.
  { apply Hkey. destruct Hc as (_ & (row & Hr & _) & _). exists row. exact Hr. }
  split; [vm_compute; reflexivity|]. split; [|exact Hc].
  intros id Hid. destruct (Hnew id Hid eq_refl) as [key' Hc'].
  assert (key' = ("usr_1", "orders.create", "key-0123456789abcdef")) as ->.
  { apply Hkey. destruct Hc' as (_ & (row & Hr & _) & _). exists row. exact Hr. }
  exact (Hone _ _ _ Hc' Hc).
Defined.
