(* ===== verification/OrdersService.v ===== *)
(** * Orders: the application service

    [apps/orders/internal/application/orders/service.go], written against the
    [OrderStore], [IDGenerator] and [Clock] interfaces it takes.  The class
    [OrderStoreLaws] is what it relies on of a store; the PostgreSQL store
    satisfies it. *)
From Stdlib Require Import ZArith Lia Ascii String.
From stdpp Require Import base gmap strings list relations pretty.
From S2P Require Import Prelude GoStrings GoErrors GoTime GoJson GoBase64 GoCrypto OrdersDomain.
From S2P Require Import Tx OrdersTables OrdersPorts OrdersQuote OrdersStore OrdersSaga.
From S2P Require Import OrdersHistory.

Open Scope string_scope.
Open Scope Z_scope.
Open Scope go_scope.

Definition CreateOperation : string := "orders.create".
Definition CancelOperation : string := "orders.cancel".
Definition MaxPageSize : Z := 100.

Definition idempotencyKeyPattern : re := Rep is_key_char 16 (Some 256%nat).
Definition reasonPattern : re := Cat (Rep is_upper 1 (Some 1%nat)) (Rep is_reason_char 1 (Some 31%nat)).
Definition actorPattern : re := id_pattern "usr_".

(** A call on a component with state [S]. *)
Definition call (S A : Type) : Type := S -> S * result goerr A.

(** ** Ports *)

Class OrderStore (S : Type) := {
  os_Create : string -> Order -> string -> string -> string -> call S CreateResult;
  os_FindByID : string -> call S Order;
  os_List : string -> string -> string -> Z -> call S (list Order * string);
  os_RequestCancellation :
    string -> string -> string -> string -> string -> string -> Z -> Time -> call S Order
}.

Class ServiceRuntime (S : Type) := {
  rt_NewOrderID : S -> S * string;
  rt_Now : S -> S * Time
}.

Record CreateInput := mkCreateInput {
  ci_Actor : Actor;
  ci_CustomerID : string;
  ci_Currency : string;
  ci_Items : list Item;
  ci_IdempotencyKey : string
}.
Record CancelInput := mkCancelInput {
  ca_Actor : Actor;
  ca_OrderID : string;
  ca_Reason : string;
  ca_IdempotencyKey : string
}.
Record ListInput := mkListInput {
  li_Actor : Actor;
  li_CustomerID : string;
  li_Status : string;
  li_Cursor : string;
  li_Limit : Z
}.

Definition authorizeActor (actor : Actor) : bool :=
  (ActorType actor =? "human")%string && MatchString actorPattern (Subject actor).

Definition validStatus (value : string) : bool := existsb (String.eqb value) statuses.

Section Service.
Context `{GoLib} `{Crypto} {S : Type} `{!OrderStore S} `{!ServiceRuntime S}.

(** [json.Marshal] of a [domain.Item]: the field names, nil pointers as null. *)
Definition jitem (i : Item) : json :=
  JObj [("ProductID", jstr (ProductID i)); ("Quantity", jint (Quantity i));
        ("UnitPriceMinor", jopt jint (UnitPriceMinor i)); ("LineTotalMinor", jopt jint (LineTotalMinor i));
        ("QuoteID", jopt jstr (QuoteID i)); ("QuoteVersion", jopt jint (QuoteVersion i))].

Definition requestHash (value : json) : string := HexEncode (sha256 (json_text value)).
Definition create_hash (customerID currency : string) (items : list Item) : string :=
  requestHash (JObj [("CustomerID", jstr customerID); ("Currency", jstr (normalize_currency currency));
                     ("Items", JArr (map jitem items))]).
Definition cancel_hash (orderID reason : string) : string :=
  requestHash (JObj [("OrderID", jstr orderID); ("Reason", jstr reason)]).

Definition refuse {A} (e : goerr) : call S A := fun s => (s, Err e).

Definition Service_Create (input : CreateInput) : call S CreateResult := fun s =>
  let actor := ci_Actor input in
  let own := (ci_CustomerID input =? Subject actor)%string in
  if negb (authorizeActor actor) then refuse ErrUnauthorized s
  else if negb (MatchString idempotencyKeyPattern (ci_IdempotencyKey input)) then refuse ErrInvalidInput s
  else if negb own && negb (HasScope actor "orders:write:any") then refuse ErrForbidden s
  else if own && negb (HasScope actor "orders:write:self") && negb (HasScope actor "orders:write:any")
  then refuse ErrForbidden s
  else
    let '(s, now) := rt_Now s in
    let '(s, id) := rt_NewOrderID s in
    match NewOrder id (ci_CustomerID input) (ci_Currency input) (ci_Items input) (UTC now) with
    | Err err => refuse (Join2 ErrInvalidInput err) s
    | Ok order =>
        os_Create (Subject actor) order CreateOperation (ci_IdempotencyKey input)
          (create_hash (ci_CustomerID input) (ci_Currency input) (Items order)) s
    end.

Definition Service_Get (actor : Actor) (orderID : string) : call S Order := fun s =>
  if negb (authorizeActor actor) then refuse ErrUnauthorized s
  else if negb (ValidOrderID orderID) then refuse ErrInvalidInput s
  else match os_FindByID orderID s with
       | (s, Err e) => (s, Err e)
       | (s, Ok order) =>
           let own := (CustomerID order =? Subject actor)%string in
           if negb own && negb (HasScope actor "orders:read:any") then refuse ErrNotFound s
           else if own && negb (HasScope actor "orders:read:self") && negb (HasScope actor "orders:read:any")
           then refuse ErrForbidden s
           else (s, Ok order)
       end.

Definition Service_List (input : ListInput) : call S (list Order * string) := fun s =>
  let actor := li_Actor input in
  if negb (authorizeActor actor) then refuse ErrUnauthorized s
  else if (li_Limit input <? 1) || (MaxPageSize <? li_Limit input) then refuse ErrInvalidInput s
  else if Nat.ltb 256 (String.length (li_Cursor input)) then refuse ErrInvalidCursor s
  else if negb (li_Status input =? "")%string && negb (validStatus (li_Status input))
  then refuse ErrInvalidInput s
  else
    let target := if (li_CustomerID input =? "")%string then Subject actor else li_CustomerID input in
    let own := (target =? Subject actor)%string in
    if negb own && negb (HasScope actor "orders:read:any") then refuse ErrForbidden s
    else if own && negb (HasScope actor "orders:read:self") && negb (HasScope actor "orders:read:any")
    then refuse ErrForbidden s
    else if negb (ValidCustomerID target) then refuse ErrInvalidInput s
    else os_List target (li_Status input) (li_Cursor input) (li_Limit input) s.

Definition Service_Cancel (input : CancelInput) : call S Order := fun s =>
  let actor := ca_Actor input in
  if negb (authorizeActor actor) then refuse ErrUnauthorized s
  else if negb (MatchString idempotencyKeyPattern (ca_IdempotencyKey input)) then refuse ErrInvalidInput s
  else if negb (ValidOrderID (ca_OrderID input)) then refuse ErrInvalidInput s
  else match os_FindByID (ca_OrderID input) s with
       | (s, Err e) => (s, Err e)
       | (s, Ok order) =>
           let own := (CustomerID order =? Subject actor)%string in
           if negb own && negb (HasScope actor "orders:cancel:any") then refuse ErrNotFound s
           else if own && negb (HasScope actor "orders:cancel:self") &&
                   negb (HasScope actor "orders:cancel:any")
           then refuse ErrForbidden s
           else
             let trimmed := TrimSpace (ca_Reason input) in
             let reason := if (trimmed =? "")%string then "CUSTOMER_REQUESTED" else trimmed in
             if negb (MatchString reasonPattern reason) then refuse ErrInvalidInput s
             else
               let '(s, now) := rt_Now s in
               os_RequestCancellation (Subject actor) (ID order) CancelOperation
                 (ca_IdempotencyKey input) (cancel_hash (ca_OrderID input) reason) reason
                 (Version order) (UTC now) s
       end.
End Service.

(** ** What the service needs of a store *)

(** [view] is what a store keeps; reading changes nothing of it, and finds the
    order asked for. *)
Class OrderStoreLaws (S : Type) `{!OrderStore S} `{!ServiceRuntime S} := {
  os_view : Type;
  view : S -> os_view;
  os_inv : S -> Prop;
  find_pure : forall id s s' r, os_FindByID id s = (s', r) -> view s' = view s;
  find_id : forall id s s' o, os_inv s -> os_FindByID id s = (s', Ok o) -> ID o = id;
  list_pure : forall c st cu n s s' r, os_List c st cu n s = (s', r) -> view s' = view s;
  now_pure : forall s, view (fst (rt_Now s)) = view s;
  id_pure : forall s, view (fst (rt_NewOrderID s)) = view s
}.

(** ** The PostgreSQL store as the service's store *)

Section PgStore.
Context `{GoLib} `{Crypto} `{Env} `{Pg} (st : Store).

Definition pg_store : OrderStore (St DB QuoteCache) := {|
  os_Create := OrdersStore.Create;
  os_FindByID := OrdersStore.FindByID;
  os_List := OrdersStore.List st;
  os_RequestCancellation := OrdersStore.RequestCancellation
|}.

(** [orderIDs] and [systemClock] of cmd/api. *)
Definition api_runtime : ServiceRuntime (St DB QuoteCache) := {|
  rt_NewOrderID := fun s => (advance s, "ord_" +:+ ReplaceAllDash (uuid_at (tick s)));
  rt_Now := fun s => (advance s, UTC (clock_at (tick s)))
|}.

Lemma loadOrder_reads id : reads (loadOrder id).
Proof.
  unfold loadOrder. apply reads_bind; [apply reads_mapE, reads_exec|intros row].
  { intros d d' a Hq. by apply GetOrder_ok in Hq as [-> _]. }
  apply reads_bind; [apply reads_mapE, reads_exec|intros; apply reads_ret].
  intros d d' a Hq. by apply GetOrderItems_ok in Hq.
Qed.
Lemma load_all_reads rows : reads (load_all rows).
Proof.
  induction rows as [|r rows IH]; cbn [load_all]; [apply reads_ret|].
  apply reads_bind; [apply loadOrder_reads|intros o]. by apply reads_bind; [|intros; apply reads_ret].
Qed.
Lemma List_reads c stt cu n : reads (OrdersStore.List st c stt cu n).
Proof.
  unfold OrdersStore.List. apply reads_bind; [apply reads_lift|intros cv].
  apply reads_bind; [apply reads_mapE, reads_exec|intros rows].
  { intros d d' a. unfold Queries.ListOrders. intros Hq; go_inv Hq. done. }
  apply reads_bind; [apply load_all_reads|intros res].
  destruct (_ <? _); [|apply reads_ret]. destruct (last res); [|apply reads_ret].
  apply reads_bind; [apply reads_lift | intros; apply reads_ret].
Qed.

Definition pg_store_laws : @OrderStoreLaws (St DB QuoteCache) pg_store api_runtime.
Proof.
  refine (@Build_OrderStoreLaws _ pg_store api_runtime DB db (fun s => rows_ok (db s)) _ _ _ _ _).
  - intros id s s' r Hr. pose proof (loadOrder_reads id s) as Hl.
    change (loadOrder id s = (s', r)) in Hr. by rewrite Hr in Hl.
  - intros id s s' o Hinv Hr. change (loadOrder id s = (s', Ok o)) in Hr.
    apply loadOrder_ok in Hr as (_ & r & Hr & ->). by destruct (Hinv _ _ Hr) as [? _].
  - intros c stt cu n s s' r Hr. pose proof (List_reads c stt cu n s) as Hl.
    change (OrdersStore.List st c stt cu n s = (s', r)) in Hr. by rewrite Hr in Hl.
  - done.
  - done.
Defined.
End PgStore.

(** ** Who may do what *)

(** A human actor with the scope for orders of its own, or for any order. *)
Definition permitted (actor : Actor) (owner self any : string) : bool :=
  authorizeActor actor &&
  (HasScope actor any || ((owner =? Subject actor)%string && HasScope actor self)).

Lemma scope_guards actor owner self any :
  authorizeActor actor = true ->
  (negb (owner =? Subject actor)%string && negb (HasScope actor any)) = false ->
  ((owner =? Subject actor)%string && negb (HasScope actor self) && negb (HasScope actor any)) = false ->
  permitted actor owner self any = true.
Proof.
  unfold permitted. intros ->. destruct (owner =? Subject actor)%string, (HasScope actor self),
    (HasScope actor any); done.
Qed.

Section Authorization.
Context `{GoLib} `{Crypto} {S : Type} `{OrderStoreLaws S}.

Lemma Service_Create_refused input s :
  permitted (ci_Actor input) (ci_CustomerID input) "orders:write:self" "orders:write:any" = false ->
  exists e, Service_Create input s = (s, Err e).
Proof.
  intros Hp. unfold Service_Create, refuse.
  destruct (authorizeActor (ci_Actor input)) eqn:Ha; cbn [negb]; [|eauto].
  destruct (MatchString idempotencyKeyPattern _); cbn [negb]; [|eauto].
  destruct (negb _ && negb _) eqn:H1'; [eauto|].
  destruct (_ && _ && _) eqn:H2'; [eauto|].
  by rewrite (scope_guards _ _ _ _ Ha H1' H2') in Hp.
Qed.

Lemma Service_List_refused input s :
  permitted (li_Actor input)
    (if (li_CustomerID input =? "")%string then Subject (li_Actor input) else li_CustomerID input)
    "orders:read:self" "orders:read:any" = false ->
  exists e, Service_List input s = (s, Err e).
Proof.
  intros Hp. unfold Service_List, refuse.
  destruct (authorizeActor (li_Actor input)) eqn:Ha; cbn [negb]; [|eauto].
  destruct (_ || _); [eauto|]. destruct (Nat.ltb _ _); [eauto|].
  destruct (negb (li_Status input =? "")%string && _); [eauto|].
  destruct (negb _ && negb _) eqn:H1'; [eauto|].
  destruct (_ && _ && _) eqn:H2'; [eauto|].
  by rewrite (scope_guards _ _ _ _ Ha H1' H2') in Hp.
Qed.

Lemma Service_Get_ok actor id s s' o :
  Service_Get actor id s = (s', Ok o) ->
  permitted actor (CustomerID o) "orders:read:self" "orders:read:any" = true /\
  exists s1, os_FindByID id s = (s1, Ok o).
Proof.
  unfold Service_Get, refuse. destruct (authorizeActor actor) eqn:Ha; cbn [negb]; [|done].
  destruct (ValidOrderID id); cbn [negb]; [|done].
  destruct (os_FindByID id s) as [s1 [o1|e]]; [|done].
  destruct (negb _ && negb _) eqn:H1'; [done|].
  destruct (_ && _ && _) eqn:H2'; [done|]. intros [= <- <-].
  split; [by eapply scope_guards | eauto].
Qed.

Lemma Service_Get_pure actor id s s' r : Service_Get actor id s = (s', r) -> view s' = view s.
Proof.
  unfold Service_Get, refuse. destruct (negb (authorizeActor actor)); [by intros [= <- <-]|].
  destruct (negb (ValidOrderID id)); [by intros [= <- <-]|].
  destruct (os_FindByID id s) as [s1 r1] eqn:Hf. pose proof (find_pure _ _ _ _ Hf) as Hv.
  destruct r1; [|by intros [= <- <-]].
  destruct (negb _ && negb _); [by intros [= <- <-]|].
  destruct (_ && _ && _); by intros [= <- <-].
Qed.

(** A cancellation that changes anything was of an order the actor may cancel. *)
Lemma Service_Cancel_effect input s s' r :
  Service_Cancel input s = (s', r) ->
  (view s' = view s /\ is_ok r = false) \/
  exists o s1, os_FindByID (ca_OrderID input) s = (s1, Ok o) /\
    permitted (ca_Actor input) (CustomerID o) "orders:cancel:self" "orders:cancel:any" = true.
Proof.
  unfold Service_Cancel, refuse.
  destruct (authorizeActor (ca_Actor input)) eqn:Ha; cbn [negb]; [|intros [= <- <-]; auto].
  destruct (MatchString idempotencyKeyPattern _); cbn [negb]; [|intros [= <- <-]; auto].
  destruct (ValidOrderID _); cbn [negb]; [|intros [= <- <-]; auto].
  destruct (os_FindByID (ca_OrderID input) s) as [s1 r1] eqn:Hf.
  pose proof (find_pure _ _ _ _ Hf) as Hv.
  destruct r1 as [o|e]; [|intros [= <- <-]; auto].
  destruct (negb _ && negb _) eqn:H1'; [intros [= <- <-]; auto|].
  destruct (_ && _ && _) eqn:H2'; [intros [= <- <-]; auto|].
  intros _. right. exists o, s1. split; [done | by eapply scope_guards].
Qed.
End Authorization.

(** ** Properties *)

(** C17: the service enforces ownership.  Against any store that keeps the
    interface's laws: creating or listing for a customer without the scope for
    it is refused before the store is called; an order is only returned to its
    owner with the self scope or to an actor with the any scope; and a
    cancellation that changes anything, or succeeds, was of an order the actor
    may cancel. *)
Theorem service_enforces_ownership `{GoLib} `{Crypto} {S : Type} `{OrderStoreLaws S} (s : S) :
  (forall input,
     permitted (ci_Actor input) (ci_CustomerID input) "orders:write:self" "orders:write:any" = false ->
     exists e, Service_Create input s = (s, Err e)) /\
  (forall input,
     permitted (li_Actor input)
       (if (li_CustomerID input =? "")%string then Subject (li_Actor input) else li_CustomerID input)
       "orders:read:self" "orders:read:any" = false ->
     exists e, Service_List input s = (s, Err e)) /\
  (forall actor id s' o, os_inv s -> Service_Get actor id s = (s', Ok o) ->
     ID o = id /\ view s' = view s /\
     permitted actor (CustomerID o) "orders:read:self" "orders:read:any" = true) /\
  (forall input s' r, os_inv s -> Service_Cancel input s = (s', r) ->
     is_ok r = true \/ view s' <> view s ->
     exists o s1, os_FindByID (ca_OrderID input) s = (s1, Ok o) /\ ID o = ca_OrderID input /\
       permitted (ca_Actor input) (CustomerID o) "orders:cancel:self" "orders:cancel:any" = true).
Proof.
  split_and!; eauto using Service_Create_refused, Service_List_refused.
  - intros actor id s' o Hinv Hg. destruct (Service_Get_ok _ _ _ _ _ Hg) as [Hp [s1 Hf]].
    split_and!; [by eapply find_id | by eapply Service_Get_pure | done].
  - intros input s' r Hinv Hc Heff.
    destruct (Service_Cancel_effect _ _ _ _ Hc) as [[Hv Hno]|(o & s1 & Hf & Hp)].
    + destruct Heff; congruence.
    + exists o, s1. split_and!; [done | by eapply find_id | done].
Qed.
