(* ===== verification/OrdersPaging.v ===== *)
(** * Orders: pages of a listing

    A cursor [List] hands out reads back as the row it was made for, and with a
    cursor [ListOrders] returns exactly the rows after the cursor's row in the
    order of the listing; so a client that asks the service for page after page
    is shown every matching order once, as long as the service takes its cursors
    back: the signed cursor of a filtered listing is too long for it. *)
From Stdlib Require Import ZArith Lia Ascii String.
From stdpp Require Import base gmap strings list relations sorting pretty.
From S2P Require Import Prelude GoStrings GoErrors GoTime GoJson GoJsonFacts GoBase64 GoCrypto OrdersDomain.
From S2P Require Import Tx OrdersTables OrdersPorts OrdersQuote OrdersStore OrdersHistory OrdersSagaFacts.
From S2P Require Import OrdersService.

Open Scope string_scope.
Open Scope Z_scope.
Open Scope go_scope.

(** The collation of the id column is a strict total order. *)
Class TextOrder `{Pg} : Prop := {
  text_irrefl : forall a, text_ltb a a = false;
  text_trans : forall a b c, text_ltb a b = true -> text_ltb b c = true -> text_ltb a c = true;
  text_total : forall a b, text_ltb a b = true \/ a = b \/ text_ltb b a = true
}.

Section Paging.
Context `{TextOrder}.

Definition newer_rel (a b : OrderRow) : Prop := Queries.newer a b = true.

Lemma newer_spec a b :
  newer_rel a b <->
  nanos (o_created_at b) < nanos (o_created_at a) \/
  (nanos (o_created_at a) = nanos (o_created_at b) /\ text_ltb (o_id a) (o_id b) = false).
Proof.
  unfold newer_rel, Queries.newer, Before.
  rewrite orb_true_iff, andb_true_iff, Z.ltb_lt, Z.eqb_eq, negb_true_iff. done.
Qed.

Lemma newer_total a b : newer_rel a b \/ newer_rel b a.
Proof.
  rewrite !newer_spec. destruct (text_total (o_id a) (o_id b)) as [Hl|[He|Hl]].
  - assert (text_ltb (o_id b) (o_id a) = false).
    { destruct (text_ltb (o_id b) (o_id a)) eqn:Hb; [|done].
      pose proof (text_trans _ _ _ Hl Hb). by rewrite text_irrefl in *. }
    destruct (Z.lt_trichotomy (nanos (o_created_at a)) (nanos (o_created_at b))); naive_solver lia.
  - rewrite He, text_irrefl.
    destruct (Z.lt_trichotomy (nanos (o_created_at a)) (nanos (o_created_at b))); naive_solver lia.
  - assert (text_ltb (o_id a) (o_id b) = false).
    { destruct (text_ltb (o_id a) (o_id b)) eqn:Hb; [|done].
      pose proof (text_trans _ _ _ Hl Hb). by rewrite text_irrefl in *. }
    destruct (Z.lt_trichotomy (nanos (o_created_at a)) (nanos (o_created_at b))); naive_solver lia.
Qed.

Lemma text_not_lt a b c : text_ltb a b = false -> text_ltb b c = false -> text_ltb a c = false.
Proof.
  intros Hab Hbc. destruct (text_ltb a c) eqn:Hac; [|done].
  destruct (text_total b a) as [Hl|[->|Hl]]; [|congruence|congruence].
  rewrite (text_trans _ _ _ Hl Hac) in Hbc. done.
Qed.

Lemma newer_trans a b c : newer_rel a b -> newer_rel b c -> newer_rel a c.
Proof.
  rewrite !newer_spec. intros [?|[? Hx]] [?|[? Hy]]; try (left; lia).
  right. split; [congruence|]. by eapply text_not_lt.
Qed.

Lemma newer_antisym a b : newer_rel a b -> newer_rel b a -> o_id a = o_id b.
Proof.
  rewrite !newer_spec. intros [?|[? Hx]] [?|[? Hy]]; try lia.
  destruct (text_total (o_id a) (o_id b)) as [Hl|[He|Hl]]; congruence.
Qed.

(** The row comparison of the cursor is the strict order of the listing. *)
Definition before (c r : OrderRow) : bool :=
  Queries.before_cursor r (Some (o_created_at c)) (Some (o_id c)).

Lemma before_self c : before c c = false.
Proof.
  unfold before, Queries.before_cursor, Before. by rewrite Z.ltb_irrefl, text_irrefl, andb_false_r.
Qed.
Lemma before_newer c r : o_id r <> o_id c -> before c r = true <-> newer_rel c r.
Proof.
  intros Hne. rewrite newer_spec. unfold before, Queries.before_cursor, Before.
  rewrite orb_true_iff, andb_true_iff, Z.ltb_lt, Z.eqb_eq.
  split; (intros [?|[? Hl]]; [by left | right]); (split; [done|]).
  - destruct (text_ltb (o_id c) (o_id r)) eqn:Hc; [|done].
    pose proof (text_trans _ _ _ Hl Hc). by rewrite text_irrefl in *.
  - destruct (text_total (o_id r) (o_id c)) as [?|[?|?]]; congruence.
Qed.

(** Sorting. *)
Lemma insert_by_sorted x l :
  StronglySorted newer_rel l -> StronglySorted newer_rel (insert_by Queries.newer x l).
Proof.
  induction 1 as [|y l Hs IH Hall]; cbn; [repeat constructor|].
  destruct (Queries.newer x y) eqn:Hxy.
  - constructor; [by constructor|]. constructor; [done|].
    eapply Forall_impl; [exact Hall|]. intros z Hz. by eapply newer_trans.
  - constructor; [done|]. rewrite insert_by_Permutation. constructor; [|done].
    destruct (newer_total x y) as [Hc|]; [|done]. unfold newer_rel in Hc. congruence.
Qed.
Lemma order_by_sorted l : StronglySorted newer_rel (order_by Queries.newer l).
Proof. induction l; cbn; [constructor | by apply insert_by_sorted]. Qed.

Lemma filter_sorted (P : OrderRow -> Prop) `{forall x, Decision (P x)} l :
  StronglySorted newer_rel l -> StronglySorted newer_rel (filter P l).
Proof.
  induction 1 as [|y l Hs IH Hall]; cbn; [constructor|].
  case_decide; [|done]. constructor; [done|]. rewrite Forall_forall in *.
  intros x Hx. apply list_elem_of_filter in Hx as [_ Hx]. auto.
Qed.

(** Filtering and ordering commute when ids are unique. *)
Lemma order_filter (P : OrderRow -> Prop) `{forall x, Decision (P x)} l :
  NoDup (map o_id l) ->
  order_by Queries.newer (filter P l) = filter P (order_by Queries.newer l).
Proof.
  intros Hnd. apply (StronglySorted_unique_strong newer_rel).
  - intros a b Ha Hb Hab Hba. pose proof (newer_antisym _ _ Hab Hba) as Hid.
    rewrite order_by_Permutation in Ha. apply list_elem_of_filter in Ha as [_ Ha].
    apply list_elem_of_filter in Hb as [_ Hb]. rewrite order_by_Permutation in Hb.
    apply list_elem_of_lookup in Ha as [i Hi]. apply list_elem_of_lookup in Hb as [j Hj].
    assert (i = j) as <-; [|congruence].
    eapply NoDup_lookup; [exact Hnd| |]; rewrite list_lookup_fmap.
    + rewrite Hi. reflexivity.
    + rewrite Hj. cbn. by rewrite Hid.
  - apply order_by_sorted.
  - apply filter_sorted, order_by_sorted.
  - by rewrite !order_by_Permutation.
Qed.

(** In a listing without repeated ids, the rows before the cursor's row are
    those after it in the listing. *)
Lemma filter_before pre c post :
  StronglySorted newer_rel (pre ++ c :: post)%list -> NoDup (map o_id (pre ++ c :: post)%list) ->
  filter (fun r => before c r = true) (pre ++ c :: post)%list = post.
Proof.
  intros Hs Hnd. rewrite map_app in Hnd. cbn in Hnd. apply NoDup_app in Hnd as (_ & Hpre & Hc).
  apply NoDup_cons in Hc as [Hc _].
  rewrite filter_app, filter_cons_False by (by rewrite before_self).
  pose proof (StronglySorted_app_1_r _ _ _ Hs) as Hsc. inversion Hsc as [|? ? _ Hpost]. subst.
  rewrite (filter_none _ pre), (filter_all _ post); [done| |].
  - intros r Hr. rewrite Forall_forall in Hpost. apply before_newer; [|by apply Hpost].
    intros Heq. apply Hc. rewrite <- Heq. apply list_elem_of_fmap. eauto.
  - intros r Hr. rewrite not_true_iff_false.
    assert (o_id r <> o_id c) as Hne.
    { intros Heq. apply (Hpre (o_id r)); [apply list_elem_of_fmap; eauto | rewrite Heq; set_solver]. }
    destruct (before c r) eqn:Hb; [|done]. apply before_newer in Hb; [|done].
    assert (newer_rel r c) as Hrc.
    { eapply StronglySorted_app_1_elem_of; [exact Hs | done | set_solver]. }
    by destruct Hne; apply newer_antisym.
Qed.

(** The whole listing of a customer, newest first. *)
Definition listing (customerID status : string) (d : DB) : list OrderRow :=
  order_by Queries.newer
    (filter (fun r => o_customer_id r = customerID /\ (status = "" \/ o_status r = status))
       (map snd (map_to_list (orders d)))).

Lemma rows_unique d : rows_ok d -> NoDup (map o_id (map snd (map_to_list (orders d)))).
Proof.
  intros Hk. pose proof (NoDup_fst_map_to_list (orders d)) as Hnd.
  erewrite map_map, map_ext_in; [exact Hnd|]. intros [k r] Hin. cbn.
  apply list_elem_of_In, elem_of_map_to_list in Hin. by destruct (Hk _ _ Hin).
Qed.

Lemma NoDup_map_filter (P : OrderRow -> Prop) `{forall x, Decision (P x)} l :
  NoDup (map o_id l) -> NoDup (map o_id (filter P l)).
Proof.
  intros Hnd. eapply sublist_NoDup; [exact Hnd|]. apply (fmap_sublist o_id), sublist_filter.
Qed.

Lemma listing_unique c stt d : rows_ok d -> NoDup (map o_id (listing c stt d)).
Proof.
  intros Hk. unfold listing. rewrite order_by_Permutation. by apply NoDup_map_filter, rows_unique.
Qed.

(** Only the instant of the cursor's time matters. *)
Lemma ListOrders_from c stt d pre r post t n :
  rows_ok d -> listing c stt d = (pre ++ r :: post)%list -> nanos t = nanos (o_created_at r) -> 0 <= n ->
  Queries.ListOrders c stt (Some t) (Some (o_id r)) n d = Ok (d, take (Z.to_nat n) post).
Proof.
  intros Hk Hl Ht Hn. unfold Queries.ListOrders.
  assert (order_by Queries.newer (filter (fun x => o_customer_id x = c /\ (stt = "" \/ o_status x = stt) /\
            Queries.before_cursor x (Some t) (Some (o_id r)) = true)
            (map snd (map_to_list (orders d)))) = post) as ->.
  { rewrite <- (filter_before pre r post), <- Hl.
    - unfold listing.
      rewrite <- (order_filter (fun x => before r x = true)) by (by apply NoDup_map_filter, rows_unique).
      f_equal. rewrite list_filter_filter. apply list_filter_iff. intros x. unfold before.
      unfold Queries.before_cursor, Before. rewrite Ht. tauto.
    - rewrite <- Hl. apply order_by_sorted.
    - rewrite <- Hl. by apply listing_unique. }
  unfold limited. by rewrite (proj2 (Z.ltb_ge n 0)).
Qed.

Lemma ListOrders_first c stt d n :
  0 <= n -> Queries.ListOrders c stt None None n d = Ok (d, take (Z.to_nat n) (listing c stt d)).
Proof.
  intros Hn. unfold Queries.ListOrders, limited. rewrite (proj2 (Z.ltb_ge n 0)) by done.
  do 3 f_equal. unfold listing. f_equal. apply list_filter_iff. cbn. tauto.
Qed.
End Paging.

(** ** Cursors there and back *)

Lemma length_app_string a b : String.length (a +:+ b) = (String.length a + String.length b)%nat.
Proof.
  induction a as [|c a IH]; [done|].
  change (S (String.length (a +:+ b)) = S (String.length a + String.length b)). by rewrite IH.
Qed.

Section Cursors.
Context `{GoLib} `{Crypto}.

Lemma cursor_read c stt t id at_ : jtime t = Ok at_ -> plain_zone t ->
  is_ascii c = true -> is_ascii stt = true -> is_ascii id = true ->
  exists t', nanos t' = nanos t /\
    unmarshal_struct dec_cursor (json_text (JObj [("customer_id", jstr c); ("status", jstr stt); ("created_at", at_); ("id", jstr id)]))
    = Some (mkCursor c stt t' id).
Proof.
  intros Ht Hz Hc Hs Hi. destruct (time_read t at_ zeroTime Hz Ht) as (t' & Hd & Hn). exists t'. split; [done|].
  unfold unmarshal_struct. rewrite (json_round_trip 1); [|apply written_obj|done].
  2:{ repeat (constructor; [split; [by intros rest|]; cbn [snd]; first [by apply written_str | by eapply written_time]|]). constructor. }
  cbn [mbind option_bind]. unfold dec_cursor, dec_field. cbn [foldl fst snd]. keys_matched.
  cbn [mbind option_bind dec_string jstr]. rewrite !unquote_quote by done. cbn [mbind option_bind]. by rewrite Hd.
Qed.
Lemma decodeCursor_back c stt t id enc :
  encodeCursor (mkCursor c stt t id) = Ok enc -> (String.length enc <= 1024)%nat -> plain_zone t -> nanos t <> 0 ->
  is_ascii c = true -> c <> "" -> is_ascii stt = true -> is_ascii id = true -> id <> "" ->
  exists t', nanos t' = nanos t /\ decodeCursor enc = Ok (mkCursor c stt t' id).
Proof.
  intros He Hlen Hz Hn Hc Hc0 Hs Hi Hi0. unfold encodeCursor in He. cbn [c_CreatedAt c_CustomerID c_Status c_ID] in He.
  destruct (jtime t) as [at_|] eqn:Ht; [|done]. destruct (cursor_read c stt t id at_ Ht Hz Hc Hs Hi) as (t' & Hn' & Hd).
  exists t'. split; [done|]. revert He Hd. generalize (json_text (JObj [("customer_id", jstr c); ("status", jstr stt);
    ("created_at", at_); ("id", jstr id)])). intros text [= <-] Hd.
  unfold decodeCursor. rewrite RawURL_roundtrip. pose proof (RawURLEncode_length text) as Hl. rewrite (proj2 (Z.ltb_ge _ _)) by (Z.to_euclidean_division_equations; lia).
  rewrite Hd. cbn [c_CustomerID c_ID c_CreatedAt]. unfold IsZero.
  by rewrite (proj2 (String.eqb_neq c "")), (proj2 (String.eqb_neq id "")), Hn', (proj2 (Z.eqb_neq _ 0)) by done.
Qed.

Lemma signed_parts enc mac : Split (RawURLEncode enc +:+ "." +:+ RawURLEncode mac) "." = [RawURLEncode enc; RawURLEncode mac].
Proof.
  assert (forall x, Forall (fun c => c <> "."%char) (bytes (RawURLEncode x))) as Hdot.
  { intros x. eapply Forall_impl; [apply RawURLEncode_no_dot|]. intros c. apply Ascii.eqb_neq. }
  unfold Split. rewrite !bytes_app. cbn [bytes list_ascii_of_string app].
  rewrite split_bytes_app by apply Hdot. fold (bytes (RawURLEncode mac)).
  rewrite split_bytes_word by apply Hdot. cbn [map]. by rewrite !of_bytes_bytes.
Qed.
End Cursors.

(** A cursor of a listing: what the service has checked of the filter, and a row
    as it is stored. *)
Record cursor_ok `{GoLib} (v : cursorValue) : Prop := {
  co_customer : ValidCustomerID (c_CustomerID v) = true;
  co_status : c_Status v = "" \/ validStatus (c_Status v) = true;
  co_id : ValidOrderID (c_ID v) = true;
  co_time : plain_zone (c_CreatedAt v) /\ nanos (c_CreatedAt v) <> 0
}.
Lemma status_ascii stt : stt = "" \/ validStatus stt = true -> is_ascii stt = true.
Proof.
  intros [->|Hs]; [done|]. apply existsb_exists in Hs as (x & Hx & ->%String.eqb_eq).
  apply list_elem_of_In in Hx. unfold statuses in Hx.
  repeat (apply elem_of_cons in Hx as [->|Hx]; [done|]). by apply elem_of_nil in Hx.
Qed.

Lemma signed_cursor_back `{GoLib} `{Crypto} v secret next :
  (forall k m, String.length (hmac_sha256 k m) = 32%nat) -> cursor_ok v ->
  encodeSignedCursor v secret = Ok next -> (String.length next <= 1024)%nat ->
  exists t', nanos t' = nanos (c_CreatedAt v) /\
    decodeSignedCursor next secret = Ok (mkCursor (c_CustomerID v) (c_Status v) t' (c_ID v)).
Proof.
  intros Hmac [[Hc Hc0]%customer_plain Hs%status_ascii [Hi Hi0]%order_id_plain [Hz Hn]].
  apply plain_ascii in Hc, Hi. destruct v as [c stt t id]. cbn [c_CustomerID c_Status c_ID c_CreatedAt] in *.
  unfold encodeSignedCursor, decodeSignedCursor.
  destruct (encodeCursor _) as [enc|] eqn:He; [|done]. pose proof He as Hb.
  destruct (secret =? "")%string; intros [= <-] Hlen.
  { by apply decodeCursor_back. }
  assert (exists x, enc = RawURLEncode x) as [x ->].
  { unfold encodeCursor in He. destruct (jtime _); [|done]. injection He as <-. eauto. }
  rewrite signed_parts, RawURL_roundtrip, String.eqb_refl.
  pose proof (RawURLEncode_length (hmac_sha256 secret (RawURLEncode x))) as Hl. rewrite Hmac in Hl.
  rewrite Hl. change (128 <? _) with false. cbn iota. apply decodeCursor_back; try done.
  rewrite !length_app_string in Hlen. lia.
Qed.

(** ** Walking the pages *)

Section Walk.
Context `{GoLib} `{Crypto} `{Env} `{Pg} (st : Store).
#[local] Instance walk_store : OrderStore (St DB QuoteCache) := pg_store st.

Definition from_cursor (input : ListInput) (cursor : string) : ListInput :=
  mkListInput (li_Actor input) (li_CustomerID input) (li_Status input) cursor (li_Limit input).

(** A client of the service that asks for a page, and with the cursor it is
    given for the next one, until it is given none; [fuel] bounds the pages. *)
Fixpoint walk (fuel : nat) (input : ListInput) (s : St DB QuoteCache) : option (list Order) :=
  match fuel with
  | O => None
  | S fuel =>
      match Service_List input s with
      | (s, Ok (page, next)) =>
          if (next =? "")%string then Some page
          else rest ← walk fuel (from_cursor input next) s; Some (page ++ rest)%list
      | (_, Err _) => None
      end
  end.

(** A request for the orders of [c] that the service does not refuse. *)
Record may_list (input : ListInput) (c : string) : Prop := {
  ml_actor : authorizeActor (li_Actor input) = true;
  ml_limit : 1 <= li_Limit input <= MaxPageSize;
  ml_status : li_Status input = "" \/ validStatus (li_Status input) = true;
  ml_target : c = if (li_CustomerID input =? "")%string then Subject (li_Actor input) else li_CustomerID input;
  ml_customer : ValidCustomerID c = true;
  ml_scope : HasScope (li_Actor input) "orders:read:any" = true \/
             (c = Subject (li_Actor input) /\ HasScope (li_Actor input) "orders:read:self" = true)
}.
Lemma Service_List_passes input c s : may_list input c -> (String.length (li_Cursor input) <= 256)%nat ->
  Service_List input s = OrdersStore.List st c (li_Status input) (li_Cursor input) (li_Limit input) s.
Proof.
  intros [Ha Hl Hs Ht Hc Hsc] Hlen. unfold Service_List. rewrite Ha. cbn [negb].
  rewrite (proj2 (Z.ltb_ge _ _)), (proj2 (Z.ltb_ge MaxPageSize _)), (proj2 (Nat.ltb_ge 256 _)) by lia. cbn [orb].
  assert (negb (li_Status input =? "")%string && negb (validStatus (li_Status input)) = false) as ->.
  { destruct Hs as [->|Hs]; [done|]. by rewrite Hs, andb_false_r. }
  rewrite <- Ht, Hc. destruct Hsc as [Hany|[<- Hself]].
  - rewrite Hany, !andb_false_r. done.
  - by rewrite String.eqb_refl, Hself.
Qed.

(** ** One page *)

Context `{!TextOrder} (Htrip : forall n, trip_at n = TripOk)
  (Hmac : forall k m, String.length (hmac_sha256 k m) = 32%nat).

Definition cursor_of (c stt : string) (r : OrderRow) : cursorValue := mkCursor c stt (o_created_at r) (o_id r).
(** The service takes back the cursor of this row. *)
Definition cursor_fits (c stt : string) (r : OrderRow) : Prop :=
  cursor_ok (cursor_of c stt r) /\
  exists next, encodeSignedCursor (cursor_of c stt r) (cursorSecret st) = Ok next /\ (String.length next <= 256)%nat.
Definition shown (d : DB) (r : OrderRow) : Order := stored_order d (o_id r) r.

Lemma loadOrder_run id r s : orders (db s) !! id = Some r ->
  exists s', loadOrder id s = (s', Ok (stored_order (db s) id r)) /\ db s' = db s.
Proof.
  intros Hr. unfold loadOrder. erewrite bind_run; [|apply mapE_run, exec_run; [apply Htrip|]; unfold Queries.GetOrder; by rewrite Hr].
  erewrite bind_run; [|apply mapE_run, exec_run; [apply Htrip | reflexivity]]. eexists. split; [reflexivity | done].
Qed.
Lemma load_all_run rows : forall s, Forall (fun r => orders (db s) !! o_id r = Some r) rows ->
  exists s', load_all rows s = (s', Ok (map (shown (db s)) rows)) /\ db s' = db s.
Proof.
  induction rows as [|r rows IH]; intros s Hrows; [by exists s|]. apply Forall_cons in Hrows as [Hr Hrows].
  destruct (loadOrder_run _ _ _ Hr) as (s1 & Hone & Hd1). rewrite <- Hd1 in Hrows.
  destruct (IH s1 Hrows) as (s2 & Hall & Hd2). exists s2. cbn [load_all map].
  erewrite bind_run by exact Hone. erewrite bind_run by exact Hall. by rewrite Hd2, Hd1.
Qed.
Lemma listing_rows c stt d : rows_ok d -> Forall (fun r => orders d !! o_id r = Some r) (listing c stt d).
Proof.
  intros Hk. apply Forall_forall. intros r. unfold listing. rewrite order_by_Permutation, list_elem_of_filter, list_elem_of_fmap.
  intros [_ ([k r'] & -> & Hin)]. apply elem_of_map_to_list in Hin. cbn in *. destruct (Hk _ _ Hin) as [Hid _]. by rewrite Hid.
Qed.

(** The place in the listing a request's cursor stands for. *)
Definition stands_for (c stt cursor : string) (pre : list OrderRow) : Prop :=
  (cursor = "" /\ pre = []) \/
  exists pre' r, pre = (pre' ++ [r])%list /\ cursor_ok (cursor_of c stt r) /\ (String.length cursor <= 256)%nat /\
    encodeSignedCursor (cursor_of c stt r) (cursorSecret st) = Ok cursor.

Lemma cursor_not_empty v secret : cursor_ok v -> encodeSignedCursor v secret <> Ok "".
Proof.
  intros Hv He. destruct (signed_cursor_back v secret "" Hmac Hv He) as (t' & _ & Hd); [cbn; lia|].
  unfold decodeSignedCursor in Hd. destruct (secret =? "")%string; discriminate Hd.
Qed.
Lemma request_rows c stt cursor pre post n d : rows_ok d -> listing c stt d = (pre ++ post)%list ->
  stands_for c stt cursor pre -> 0 <= n ->
  exists v, request_cursor st c stt cursor = Ok v /\
    Queries.ListOrders c stt (nullTime (c_CreatedAt v)) (nullString (c_ID v)) n d = Ok (d, take (Z.to_nat n) post).
Proof.
  intros Hk Hl [[-> ->]|(pre' & r & -> & Hok & Hlen & He)] Hn; unfold request_cursor.
  { exists zero_cursor. split; [done|]. cbn [app] in Hl. rewrite <- Hl. by apply ListOrders_first. }
  rewrite (proj2 (String.eqb_neq cursor "")) by (intros ->; by apply cursor_not_empty in He).
  destruct (signed_cursor_back _ _ _ Hmac Hok He) as (t' & Ht' & ->); [lia|].
  cbn [cursor_of c_CustomerID c_Status c_ID c_CreatedAt] in *. rewrite !String.eqb_refl. eexists. split; [reflexivity|].
  destruct Hok as [_ _ [_ Hid]%order_id_plain [_ Hnz]]. cbn [cursor_of c_ID c_CreatedAt] in Hid, Hnz |- *.
  unfold nullTime, nullString, IsZero. rewrite Ht', (proj2 (Z.eqb_neq _ 0) Hnz), (proj2 (String.eqb_neq _ "") Hid).
  rewrite <- app_assoc in Hl. by apply (ListOrders_from c stt d pre' r post).
Qed.

(** A page: the orders that follow, and the cursor of the last of them when
    there are more. *)
Lemma List_page c stt cursor pre post n s :
  rows_ok (db s) -> listing c stt (db s) = (pre ++ post)%list -> stands_for c stt cursor pre ->
  Forall (cursor_fits c stt) post -> 1 <= n <= MaxPageSize ->
  exists s' next, OrdersStore.List st c stt cursor n s = (s', Ok (map (shown (db s)) (take (Z.to_nat n) post), next)) /\
    db s' = db s /\
    if n <? Z.of_nat (length post) then stands_for c stt next (pre ++ take (Z.to_nat n) post) /\ next <> "" else next = "".
Proof.
  intros Hk Hl Hst Hfit Hn. destruct (request_rows c stt cursor pre post (n + 1) (db s) Hk Hl Hst) as (v & Hv & Hq); [lia|].
  unfold OrdersStore.List. rewrite Hv.
  erewrite bind_run by reflexivity. unfold MaxPageSize in Hn. rewrite wrap_i32_id by (unfold in_i32; lia).
  erewrite bind_run; [|apply mapE_run, exec_run; [apply Htrip | exact Hq]].
  assert ((n <? Z.of_nat (length (take (Z.to_nat (n + 1)) post))) = (n <? Z.of_nat (length post))) as ->.
  { rewrite length_take. destruct (Z.ltb_spec n (Z.of_nat (length post))); [apply Z.ltb_lt | apply Z.ltb_ge]; lia. }
  assert ((if n <? Z.of_nat (length post) then take (Z.to_nat n) (take (Z.to_nat (n + 1)) post) else take (Z.to_nat (n + 1)) post)
          = take (Z.to_nat n) post) as ->.
  { destruct (Z.ltb_spec n (Z.of_nat (length post))); [rewrite take_take; f_equal; lia|].
    rewrite !take_ge by lia. done. }
  assert (Forall (fun r => orders (db s) !! o_id r = Some r) (take (Z.to_nat n) post)) as Hrows.
  { apply Forall_take. pose proof (listing_rows c stt (db s) Hk) as Ha. rewrite Hl in Ha. by apply Forall_app in Ha as [_ ?]. }
  destruct (load_all_run (take (Z.to_nat n) post) (set_db (advance s) (db s)) Hrows) as (s' & Hload & Hd).
  erewrite bind_run by exact Hload. cbn [set_db db] in Hload, Hd |- *.
  destruct (n <? Z.of_nat (length post)) eqn:Hmore; [|by exists s', ""].
  apply Z.ltb_lt in Hmore. destruct (last (take (Z.to_nat n) post)) as [r|] eqn:Hlast.
  2:{ apply last_None, (f_equal length) in Hlast. rewrite length_take in Hlast. cbn in Hlast. lia. }
  assert (last (map (shown (db s)) (take (Z.to_nat n) post)) = Some (shown (db s) r)) as ->
    by (etransitivity; [apply fmap_last | by rewrite Hlast]).
  assert (cursor_fits c stt r) as [Hok (next & He & Hlen)].
  { rewrite Forall_forall in Hfit. apply Hfit. apply last_Some in Hlast as [l Hlast].
    rewrite <- (take_drop (Z.to_nat n) post), Hlast. set_solver. }
  exists s', next. erewrite bind_run; [|unfold lift; cbn [shown stored_order ID CreatedAt with_items getOrderRowToOrder orderFromFields]; unfold cursor_of in He; rewrite He; reflexivity].
  split; [done|]. split; [done|]. split; [|intros ->; by apply cursor_not_empty in He].
  right. apply last_Some in Hlast as [l ->]. exists (pre ++ l)%list, r. rewrite app_assoc. by split_and!.
Qed.

Lemma walk_from input c : may_list input c -> forall fuel s pre post cursor,
  rows_ok (db s) -> listing c (li_Status input) (db s) = (pre ++ post)%list -> stands_for c (li_Status input) cursor pre ->
  Forall (cursor_fits c (li_Status input)) post -> (length post < fuel)%nat ->
  walk fuel (from_cursor input cursor) s = Some (map (shown (db s)) post).
Proof.
  intros Hin fuel. induction fuel as [|fuel IH]; intros s pre post cursor Hk Hl Hst Hfit Hf; [lia|].
  assert (may_list (from_cursor input cursor) c) as Hin' by (destruct Hin; by constructor).
  cbn [walk]. rewrite (Service_List_passes _ c) by (done || by destruct Hst as [[-> _]|(? & ? & _ & _ & ? & _)]; [cbn; lia|]).
  cbn [from_cursor li_Status li_Cursor li_Limit].
  destruct (List_page c (li_Status input) cursor pre post (li_Limit input) s Hk Hl Hst Hfit (ml_limit _ _ Hin))
    as (s' & next & -> & Hd & Hnext).
  destruct (Z.ltb_spec (li_Limit input) (Z.of_nat (length post))) as [Hmore|Hend].
  - destruct Hnext as [Hst' Hne]. rewrite (proj2 (String.eqb_neq next "") Hne).
    pose proof (ml_limit _ _ Hin) as Hlim. rewrite <- Hd in Hk, Hl.
    change (from_cursor (from_cursor input cursor) next) with (from_cursor input next).
    rewrite (IH s' (pre ++ take (Z.to_nat (li_Limit input)) post)%list (drop (Z.to_nat (li_Limit input)) post) next); try done.
    + cbn. by rewrite Hd, <- map_app, take_drop.
    + by rewrite <- app_assoc, take_drop.
    + by apply Forall_drop.
    + rewrite length_drop. lia.
  - subst next. cbn. rewrite take_ge by lia. done.
Qed.
End Walk.

(** ** A cursor the service refuses *)

(** The last row of a page of a customer's PENDING orders, with ids as the
    services mint them and a time to the microsecond. *)
Definition sample_cursor : cursorValue :=
  mkCursor "usr_0123456789abcdef0123456789abcdef" StatusPending
    (mkTime (nanos sample_now + 123456000) None) "ord_0123456789abcdef0123456789abcdef".

Lemma signed_cursor_length `{GoLib} `{Crypto} secret next :
  (forall k m, String.length (hmac_sha256 k m) = 32%nat) -> secret <> "" ->
  encodeSignedCursor sample_cursor secret = Ok next -> String.length next = 258%nat.
Proof.
  intros Hlen Hsec. unfold encodeSignedCursor.
  assert (exists enc, encodeCursor sample_cursor = Ok enc /\ String.length enc = 214%nat) as (enc & -> & He).
  { eexists. split; [unfold encodeCursor, jtime; cbn -[RawURLEncode]; reflexivity|].
    vm_compute. reflexivity. }
  rewrite (proj2 (String.eqb_neq secret "")) by done.
  intros [= <-]. rewrite !length_app_string, He.
  pose proof (RawURLEncode_length (hmac_sha256 secret enc)) as Hm. rewrite Hlen in Hm.
  assert (Z.of_nat (String.length (RawURLEncode (hmac_sha256 secret enc))) = 43) as Hm' by exact Hm.
  cbn. lia.
Qed.

(** ** Properties *)


(** C18: a client that asks the service for the first page of a listing, and
    with the cursor of each answer for the next one, comes to an end and is shown
    exactly the stored orders of the customer with the status asked for, newest
    first and each once, for every page size the service takes; while the orders
    do not change, the database answers, and the cursors of the orders are not
    longer than the service takes them back. *)
Theorem pages_show_every_order_once `{GoLib} `{Crypto} `{Env} `{Pg} `{!TextOrder} st input c s :
  (forall n, trip_at n = TripOk) -> (forall k m, String.length (hmac_sha256 k m) = 32%nat) ->
  rows_ok (db s) -> may_list input c -> li_Cursor input = "" ->
  let rows := listing c (li_Status input) (db s) in
  Forall (cursor_fits st c (li_Status input)) rows ->
  walk st (S (size (orders (db s)))) input s = Some (map (fun r => stored_order (db s) (o_id r) r) rows) /\
  NoDup (map o_id rows) /\ StronglySorted newer_rel rows /\
  (forall r, r ∈ rows <->
     orders (db s) !! o_id r = Some r /\ o_customer_id r = c /\ (li_Status input = "" \/ o_status r = li_Status input)).
Proof.
  intros Htrip Hmac Hk Hin Hcur rows Hfit. split_and!.
  - replace input with (from_cursor input "") at 1 by (destruct input; cbn in Hcur; by subst).
    apply (walk_from st Htrip Hmac input c Hin _ s [] rows ""); try done; [by left|].
    unfold rows, listing. rewrite order_by_Permutation.
    match goal with |- (length (filter ?P ?l) < _)%nat => pose proof (length_filter P l) as Hl end.
    rewrite length_map, length_map_to_list in Hl. lia.
  - by apply listing_unique.
  - apply order_by_sorted.
  - intros r. split.
    + intros Hr. pose proof (listing_rows c (li_Status input) (db s) Hk) as Ha. rewrite Forall_forall in Ha.
      split; [by apply Ha|]. unfold rows, listing in Hr. rewrite order_by_Permutation in Hr.
      by apply list_elem_of_filter in Hr as [? _].
    + intros (Hr & Hc & Hs). unfold rows, listing. rewrite order_by_Permutation, list_elem_of_filter, list_elem_of_fmap.
      split; [done|]. exists (o_id r, r). split; [done|]. by apply elem_of_map_to_list.
Qed.

(** The cursor that [List] hands out for a page of PENDING orders is 258
    bytes long as soon as the cursors are signed (an HMAC-SHA-256 has 32
    bytes), and the service refuses every cursor of more than 256 bytes: the
    second page of such a listing cannot be asked for. *)
Theorem filtered_cursor_is_refused `{GoLib} `{Crypto} {S : Type} `{!OrderStore S}
    secret next input s :
  (forall k m, String.length (hmac_sha256 k m) = 32%nat) -> secret <> "" ->
  encodeSignedCursor sample_cursor secret = Ok next ->
  authorizeActor (li_Actor input) = true -> 1 <= li_Limit input <= MaxPageSize ->
  li_Cursor input = next ->
  Service_List input s = (s, Err ErrInvalidCursor).
Proof.
  intros Hlen Hsec Henc Ha Hlim Hcur. unfold Service_List. rewrite Ha, Hcur. cbn [negb].
  rewrite (proj2 (Z.ltb_ge (li_Limit input) 1)), (proj2 (Z.ltb_ge MaxPageSize _)) by lia.
  by rewrite (signed_cursor_length secret next Hlen Hsec Henc).
Qed.
