(* ===== verification/OrdersAuth.v ===== *)
(** * Orders: who is calling

    [apps/orders/internal/adapters/inbound/http/auth.go] and the static
    authenticator of [server.go]: the Gateway's credential is checked, then the
    actor it vouches for is read from the headers. *)
From Stdlib Require Import ZArith Lia Ascii String.
From stdpp Require Import base gmap strings list relations pretty.
From S2P Require Import Prelude GoStrings GoErrors GoTime GoJson GoBase64 GoCrypto GoURL GoHttp.
From S2P Require Import OrdersDomain Tx OrdersTables OrdersPorts OrdersQuote.
From S2P Require Import OrdersService.

Open Scope string_scope.
Open Scope Z_scope.
Open Scope go_scope.

Definition scopePattern : re := Rep is_scope_char 2 (Some 96%nat).

Definition actor_id_header := "X-StreamWeave-Actor-ID".
Definition actor_type_header := "X-StreamWeave-Actor-Type".
Definition scopes_header := "X-StreamWeave-Scopes".

Section Auth.
Context `{GoLib}.

(** The actor a trusted caller names. *)
Definition trustedActor (headers : Header) : result goerr Actor :=
  let subject := TrimSpace (Get headers actor_id_header) in
  if negb (ValidCustomerID subject) ||
     negb (TrimSpace (Get headers actor_type_header) =? "human")%string
  then Err ErrUnauthorized
  else
    let scopes := Fields (Get headers scopes_header) in
    if forallb (MatchString scopePattern) scopes
    then Ok (mkActor subject "human" scopes) else Err ErrUnauthorized.

(** [StaticAuthenticator.Authenticate]; [None] for a nil authenticator. *)
Definition Static_Authenticate (token : option string) (headers : Header) : result goerr Actor :=
  match token with
  | None => Err ErrUnauthorized
  | Some t =>
      if (TrimSpace t =? "")%string then Err ErrUnauthorized
      else match Values headers "Authorization" with
           | [authorization] =>
               if negb (authorization =? "Bearer " +:+ t)%string then Err ErrUnauthorized
               else trustedActor headers
           | _ => Err ErrUnauthorized
           end
  end.

Definition hasOrdersMachineScope (scopes : list string) : bool :=
  existsb (fun s => (s =? "orders:read")%string || (s =? "orders:write")%string) scopes.

Record GatewayAuthenticator := mkGatewayAuthenticator {
  ga_staticToken : string;
  ga_jwksURL : string;
  ga_issuer : string;
  ga_audience : string;
  ga_subject : string
}.
Definition NewGatewayAuthenticator (staticToken jwksURL issuer audience subject : string)
  : result goerr GatewayAuthenticator :=
  reject (TrimSpace staticToken =? "")%string && (TrimSpace jwksURL =? "")%string
    with NewErr "Orders Gateway authentication requires a static token or JWKS URL" in
  Ok (mkGatewayAuthenticator staticToken jwksURL issuer audience subject).

Context `{Crypto} `{Env} `{KeySetHTTP} `{JwtLib} {D : Type}.

Definition gateway_options (a : GatewayAuthenticator) : JwtOptions :=
  mkJwtOptions ["EdDSA"] (ga_issuer a) (ga_audience a) (30 * Second).

(** [GatewayAuthenticator.key]: the code is that of the quote verifier's [key],
    on a cache of its own. *)
Definition gateway_key (a : GatewayAuthenticator) (kid : string) : M D QuoteCache (option string) :=
  key (ga_jwksURL a) kid.

(** [ParseWithClaims] with the key function of [Authenticate]: the claims when
    the token is valid. *)
Definition machine_claims (a : GatewayAuthenticator) (raw : string) : M D QuoteCache (option JwtClaims) :=
  match jwt_kid (gateway_options a) raw with
  | Some (Some kid) =>
      if (kid =? "")%string then ret None
      else
        let! k := gateway_key a kid in
        match k with
        | None => ret None
        | Some pk => let! now := timeNow in ret (jwt_claims (gateway_options a) raw pk now)
        end
  | _ => ret None
  end.

Definition machine_ok (a : GatewayAuthenticator) (c : JwtClaims) : bool :=
  (cl_TokenKind c =? "service")%string && (cl_Subject c =? ga_subject a)%string &&
  bool_decide (cl_ExpiresAt c <> None) && negb (cl_ID c =? "")%string &&
  hasOrdersMachineScope (cl_Scopes c).

Definition Authenticate (a : GatewayAuthenticator) (headers : Header) : M D QuoteCache Actor :=
  match Values headers "Authorization" with
  | [value] =>
      if negb (HasPrefix value "Bearer ") then fail ErrUnauthorized
      else
        let raw := TrimSpace (TrimPrefix value "Bearer ") in
        if (raw =? "")%string then fail ErrUnauthorized
        else if negb (ga_staticToken a =? "")%string then
          if (raw =? ga_staticToken a)%string then lift (trustedActor headers) else fail ErrUnauthorized
        else
          let! claims := machine_claims a raw in
          match claims with
          | Some c => if machine_ok a c then lift (trustedActor headers) else fail ErrUnauthorized
          | None => fail ErrUnauthorized
          end
  | _ => fail ErrUnauthorized
  end.
End Auth.
