(* ===== verification/OrdersHTTP.v ===== *)
(** * Orders: the HTTP interface

    [apps/orders/internal/adapters/inbound/http/server.go] and
    [internal/application/health/health.go]: routing, decoding of requests,
    the handlers over the application service, and what every error becomes. *)
From Stdlib Require Import ZArith Lia Ascii String.
From stdpp Require Import base gmap strings list relations pretty.
From S2P Require Import Prelude GoStrings GoErrors GoTime GoJson GoBase64 GoCrypto GoURL GoHttp.
From S2P Require Import OrdersDomain Tx OrdersTables OrdersPorts OrdersQuote OrdersStore.
From S2P Require Import OrdersService OrdersAuth.

Open Scope string_scope.
Open Scope Z_scope.
Open Scope go_scope.

(** ** Health *)

Record Dependency (S : Type) := mkDependency { dep_Name : string; dep_Check : call S unit }.
Arguments mkDependency {S} dep_Name dep_Check.
Arguments dep_Name {S} d.
Arguments dep_Check {S} d.

Record HealthStatus := mkHealth { hs_Status : string; hs_Dependencies : gmap string string }.

Definition Live : HealthStatus := mkHealth "ok" ∅.

(** The loop of [Ready]; a nil dependency is skipped. *)
Fixpoint ready_from {S} (deps : list (option (Dependency S))) (acc : HealthStatus) (s : S) : S * HealthStatus :=
  match deps with
  | [] => (s, acc)
  | None :: rest => ready_from rest acc s
  | Some d :: rest =>
      match dep_Check d s with
      | (s, Err _) => ready_from rest
          (mkHealth "not_ready" (<[dep_Name d := "unavailable"]> (hs_Dependencies acc))) s
      | (s, Ok _) => ready_from rest
          (mkHealth (hs_Status acc) (<[dep_Name d := "ok"]> (hs_Dependencies acc))) s
      end
  end.
Definition Ready {S} (deps : list (option (Dependency S))) : S -> S * HealthStatus :=
  ready_from deps (mkHealth "ready" ∅).

(** ** Requests and responses *)

(** What the documentation pages need: the OpenAPI file, and the random bytes. *)
Record Site := mkSite { openapi_file : option string; nonce_bytes : option string }.

Record createRequest := mkCreateRequest {
  cr_CustomerID : string;
  cr_Currency : string;
  cr_Items : list (string * Z)
}.

Section Decoding.
Context `{GoLib}.

Definition dec_create_item (fs : list (string * json)) : option (string * Z) :=
  if known_fields ["product_id"; "quantity"] fs then
    p ← dec_field dec_string "" "product_id" fs;
    q ← dec_field dec_int32 0 "quantity" fs;
    Some (p, q)
  else None.
Definition dec_createRequest (fs : list (string * json)) : option createRequest :=
  if known_fields ["customer_id"; "currency"; "items"] fs then
    c ← dec_field dec_string "" "customer_id" fs;
    u ← dec_field dec_string "" "currency" fs;
    i ← dec_field (fun _ v => dec_slice dec_create_item v) [] "items" fs;
    Some (mkCreateRequest c u i)
  else None.
Definition dec_cancelRequest (fs : list (string * json)) : option string :=
  if known_fields ["reason_code"] fs then dec_field dec_string "" "reason_code" fs else None.

(** One JSON value and nothing after it, in the first mebibyte of the body. *)
Definition decodeJSON {A} (dec : list (string * json) -> option A) (r : Request) : option A :=
  unmarshal_struct dec (take_string (2 ^ 20) (rq_Body r)).

Definition validIdempotencyKey (value : string) : option string :=
  let value := TrimSpace value in
  if MatchString idempotencyKeyPattern value then Some value else None.

Definition nullableString (value : string) : json := if (value =? "")%string then JNull else jstr value.

Definition acceptedResponse (orderID status : string) (createdAt : Time) : result goerr json :=
  let? at_ := jtime createdAt in
  Ok (JObj [("order_id", jstr orderID); ("status", jstr status); ("created_at", at_)]).

Definition itemResponse (i : Item) : json :=
  JObj [("product_id", jstr (ProductID i)); ("quantity", jint (Quantity i));
        ("unit_price_minor", jopt jint (UnitPriceMinor i)); ("line_total_minor", jopt jint (LineTotalMinor i));
        ("quote_id", jopt jstr (QuoteID i)); ("quote_version", jopt jint (QuoteVersion i))].
Definition toOrderResponse (o : Order) : result goerr json :=
  let? created := jtime (CreatedAt o) in
  let? updated := jtime (UpdatedAt o) in
  Ok (JObj [("order_id", jstr (ID o)); ("customer_id", jstr (CustomerID o)); ("status", jstr (OStatus o));
            ("currency", jstr (Currency o)); ("total_minor", jopt jint (TotalMinor o));
            ("failure_code", jopt jstr (FailureCode o)); ("items", JArr (map itemResponse (Items o)));
            ("created_at", created); ("updated_at", updated)]).
Fixpoint orders_response (l : list Order) : result goerr (list json) :=
  match l with
  | [] => Ok []
  | o :: r => let? j := toOrderResponse o in let? rest := orders_response r in Ok (j :: rest)
  end.

Definition jstatus (h : HealthStatus) : json :=
  JObj (("status", jstr (hs_Status h)) ::
        if bool_decide (hs_Dependencies h = ∅) then []
        else [("dependencies", jmap (map (fun p => (fst p, jstr (snd p))) (map_to_list (hs_Dependencies h))))]).

(** ** Writing *)

Definition write_json (w : Writer) (code : Z) (value : result goerr json) : Writer :=
  encode_json (WriteHeader (set_header w "Content-Type" "application/json") code) value.

Definition problem (w : Writer) (r : Request) (code : Z) (problemType detail : string) : Writer :=
  let requestID := Get (w_header w) "X-Request-ID" in
  let requestID := if (requestID =? "")%string then Get (rq_Header r) "X-Request-ID" else requestID in
  encode_json (WriteHeader (set_header w "Content-Type" "application/problem+json") code)
    (Ok (jmap [("type", jstr ("https://streamweave.dev/problems/" +:+ problemType));
               ("title", jstr (StatusText code)); ("status", jint code); ("detail", jstr detail);
               ("instance", jstr (rq_Path r)); ("request_id", jstr requestID)])).

Definition writeApplicationError (w : Writer) (r : Request) (err : goerr) : Writer :=
  if errors_Is err ErrUnauthorized then problem w r 401 "unauthorized" "Authentication is required"
  else if errors_Is err ErrForbidden then problem w r 403 "forbidden" "The requested operation is not permitted"
  else if errors_Is err ErrNotFound then problem w r 404 "not_found" "Order was not found"
  else if errors_Is err ErrIdempotencyConflict
  then problem w r 409 "idempotency_conflict" "Idempotency-Key was reused with different input"
  else if errors_Is err ErrConflict
  then problem w r 409 "state_conflict" "The order cannot be changed in its current state"
  else if errors_Is err ErrInvalidCursor then problem w r 400 "bad_request" "The cursor is invalid"
  else if errors_Is err ErrDependency
  then problem w r 503 "dependency_unavailable" "A required dependency is unavailable"
  else problem w r 422 "validation_failed" "The request is invalid".
End Decoding.

(** ** The handlers *)

Section Server.
Context `{GoLib} `{Crypto} {S : Type} `{!OrderStore S} `{!ServiceRuntime S}.
Context (authenticator : option (Header -> call S Actor)).
Context (dependencies : list (option (Dependency S))) (site : Site).

Definition handler : Type := Request -> Writer -> S -> S * Writer.

Definition actor (r : Request) : call S Actor :=
  match authenticator with
  | None => refuse ErrUnauthorized
  | Some authenticate => authenticate (rq_Header r)
  end.

Definition unauthorized (w : Writer) (r : Request) : Writer :=
  problem w r 401 "unauthorized" "Authentication is required".
Definition method_not_allowed (w : Writer) (r : Request) : Writer :=
  problem w r 405 "method_not_allowed" "Method not allowed".

Definition createOrder : handler := fun r w s =>
  match actor r s with
  | (s, Err _) => (s, unauthorized w r)
  | (s, Ok a) =>
      match validIdempotencyKey (Get (rq_Header r) "Idempotency-Key") with
      | None => (s, problem w r 400 "bad_request" "Idempotency-Key is invalid")
      | Some key =>
          match decodeJSON dec_createRequest r with
          | None => (s, problem w r 400 "bad_request" "Request body is invalid")
          | Some input =>
              let items := map (fun i => mkItem (fst i) (snd i) None None None None) (cr_Items input) in
              match Service_Create (mkCreateInput a (cr_CustomerID input) (cr_Currency input) items key) s with
              | (s, Err err) => (s, writeApplicationError w r err)
              | (s, Ok res) =>
                  let status := if (ResponseStatus res =? "")%string then OStatus (ROrder res)
                                else ResponseStatus res in
                  let createdAt := if IsZero (ResponseAt res) then CreatedAt (ROrder res) else ResponseAt res in
                  (s, write_json w 202 (acceptedResponse (ID (ROrder res)) status createdAt))
              end
          end
      end
  end.

Definition getOrder : handler := fun r w s =>
  match actor r s with
  | (s, Err _) => (s, unauthorized w r)
  | (s, Ok a) =>
      match Service_Get a (TrimPrefix (rq_Path r) "/v1/orders/") s with
      | (s, Err err) => (s, writeApplicationError w r err)
      | (s, Ok order) => (s, write_json w 200 (toOrderResponse order))
      end
  end.

Definition listOrders : handler := fun r w s =>
  match actor r s with
  | (s, Err _) => (s, unauthorized w r)
  | (s, Ok a) =>
      let raw := rq_Query r "limit" in
      match (if (raw =? "")%string then Some 25 else Atoi raw) with
      | None => (s, problem w r 400 "bad_request" "limit is invalid")
      | Some limit =>
          match Service_List (mkListInput a (rq_Query r "customer_id") (rq_Query r "status")
                                (rq_Query r "cursor") limit) s with
          | (s, Err err) => (s, writeApplicationError w r err)
          | (s, Ok (orders, next)) =>
              (s, write_json w 200 (let? items := orders_response orders in
                                    Ok (jmap [("items", JArr items); ("next_cursor", nullableString next)])))
          end
      end
  end.

Definition cancelOrder : handler := fun r w s =>
  match actor r s with
  | (s, Err _) => (s, unauthorized w r)
  | (s, Ok a) =>
      match validIdempotencyKey (Get (rq_Header r) "Idempotency-Key") with
      | None => (s, problem w r 400 "bad_request" "Idempotency-Key is invalid")
      | Some key =>
          let path := TrimSuffix (TrimPrefix (rq_Path r) "/v1/orders/") "/cancel" in
          match (if rq_ContentLength r =? 0 then Some "" else decodeJSON dec_cancelRequest r) with
          | None => (s, problem w r 400 "bad_request" "Request body is invalid")
          | Some reason =>
              match Service_Cancel (mkCancelInput a path reason key) s with
              | (s, Err err) => (s, writeApplicationError w r err)
              | (s, Ok order) => (s, write_json w 202 (acceptedResponse (ID order) (OStatus order) (UpdatedAt order)))
              end
          end
      end
  end.

Definition openapi (w : Writer) (r : Request) : Writer :=
  match openapi_file site with
  | None => problem w r 404 "not_found" "OpenAPI document unavailable"
  | Some data => Write (WriteHeader (set_header w "Content-Type" "application/yaml") 200) data
  end.

(** The page with its double quotes, written here as tildes. *)
Definition docs_page (title nonce : string) : string :=
  quoted "<!doctype html><html lang=~en~><head><meta charset=~utf-8~><meta name=~viewport~ content=~width=device-width, initial-scale=1~><title>"
  +:+ title +:+
  quoted "</title><link rel=~stylesheet~ href=~https://unpkg.com/swagger-ui-dist@5/swagger-ui.css~></head><body><div id=~swagger-ui~></div><script src=~https://unpkg.com/swagger-ui-dist@5/swagger-ui-bundle.js~></script><script nonce=~"
  +:+ nonce +:+
  quoted "~>window.onload=()=>window.ui=SwaggerUIBundle({url:'/v1/openapi.yaml',dom_id:'#swagger-ui',deepLinking:true,displayRequestDuration:true,persistAuthorization:false,filter:true,tryItOutEnabled:true});</script></body></html>".
Definition docs_headers (w : Writer) (nonce : string) : Writer :=
  let w := set_header w "Content-Type" "text/html; charset=utf-8" in
  let w := set_header w "Content-Security-Policy"
    ("default-src 'none'; style-src https://unpkg.com 'unsafe-inline'; script-src https://unpkg.com 'nonce-" +:+ nonce
     +:+ "'; img-src https://unpkg.com data:; connect-src 'self'; base-uri 'none'; frame-ancestors 'none'") in
  let w := set_header w "X-Content-Type-Options" "nosniff" in
  let w := set_header w "Referrer-Policy" "no-referrer" in
  set_header w "Cache-Control" "no-store".

Definition docs (w : Writer) (r : Request) : Writer :=
  match openapi_file site, nonce_bytes site with
  | None, _ => problem w r 404 "not_found" "OpenAPI document unavailable"
  | Some _, None => problem w r 500 "internal_error" "Unable to initialize API documentation"
  | Some _, Some bytes_ =>
      let nonce := RawURLEncode bytes_ in
      Write (docs_headers w nonce) (docs_page "StreamWeave Orders API" nonce)
  end.

(** [method] *)
Definition expect_method (expected : string) (h : handler) : handler := fun r w s =>
  if negb (rq_Method r =? expected)%string then (s, method_not_allowed w r) else h r w s.

Definition route : handler := fun r w s =>
  let path := rq_Path r in
  if (path =? "/health/live")%string
  then expect_method MethodGet (fun r w s => (s, write_json w 200 (Ok (jstatus Live)))) r w s
  else if (path =? "/health/ready")%string
  then expect_method MethodGet (fun r w s =>
         let '(s, status) := Ready dependencies s in
         let code := if (hs_Status status =? "ready")%string then 200 else 503 in
         (s, write_json w code (Ok (jstatus status)))) r w s
  else if (path =? "/v1/docs")%string then expect_method MethodGet (fun r w s => (s, docs w r)) r w s
  else if (path =? "/v1/openapi.yaml")%string
  then expect_method MethodGet (fun r w s => (s, openapi w r)) r w s
  else if (path =? "/v1/orders")%string then
    if (rq_Method r =? MethodPost)%string then createOrder r w s
    else if (rq_Method r =? MethodGet)%string then listOrders r w s
    else (s, method_not_allowed w r)
  else if HasPrefix path "/v1/orders/" && HasSuffix path "/cancel" then
    if (rq_Method r =? MethodPost)%string then cancelOrder r w s else (s, method_not_allowed w r)
  else if HasPrefix path "/v1/orders/" then
    if (rq_Method r =? MethodGet)%string then getOrder r w s else (s, method_not_allowed w r)
  else (s, problem w r 404 "not_found" "Route not found").

(** [observe]: the request id goes on the response before the handler runs;
    [fresh] is what [newRequestID] would return. *)
Definition requestID_of (r : Request) (fresh : string) : string :=
  let requestID := TrimSpace (Get (rq_Header r) "X-Request-ID") in
  if (requestID =? "")%string || Nat.ltb 128 (String.length requestID) then fresh else requestID.
Definition observe (fresh : string) (r : Request) (s : S) : S * Writer :=
  route r (set_header (new_writer ∅) "X-Request-ID" (requestID_of r fresh)) s.
End Server.

Definition routeTemplate (path : string) : string :=
  if existsb (String.eqb path) ["/health/live"; "/health/ready"; "/metrics"; "/v1/docs";
                                "/v1/openapi.yaml"; "/v1/orders"] then path
  else if HasSuffix path "/cancel" && HasPrefix path "/v1/orders/" then "/v1/orders/{order_id}/cancel"
  else if HasPrefix path "/v1/orders/" then "/v1/orders/{order_id}"
  else "unmatched".
