(* ===== verification/OrdersHTTPFacts.v ===== *)
(** * Orders: what the HTTP interface guarantees

    Requests without an actor reach no order; a success is only ever answered
    with what the service returned for a permitted actor; readiness says what
    every dependency said. *)
From Stdlib Require Import ZArith Lia Ascii String.
From stdpp Require Import base gmap strings list relations pretty.
From S2P Require Import Prelude GoStrings GoErrors GoTime GoJson GoBase64 GoCrypto GoURL GoHttp.
From S2P Require Import OrdersDomain Tx OrdersTables OrdersPorts OrdersQuote OrdersStore.
From S2P Require Import OrdersService OrdersAuth OrdersHTTP.

Open Scope string_scope.
Open Scope Z_scope.
Open Scope go_scope.

Definition public_path (path : string) : bool :=
  existsb (String.eqb path) ["/health/live"; "/health/ready"; "/v1/docs"; "/v1/openapi.yaml"].

Section Writers.
Context `{GoLib}.

Lemma problem_status w r c t d : w_sent w = None -> status_of_writer (problem w r c t d) = c.
Proof.
  intros Hn. unfold problem, status_of_writer.
  by erewrite encode_json_sent by (by apply WriteHeader_sent).
Qed.
Lemma write_json_status w c v : w_sent w = None -> status_of_writer (write_json w c v) = c.
Proof.
  intros Hn. unfold write_json, status_of_writer.
  by erewrite encode_json_sent by (by apply WriteHeader_sent).
Qed.
Lemma write_json_body w c j :
  w_sent w = None -> w_body w = "" -> w_body (write_json w c (Ok j)) = json_text j +:+ String "010" "".
Proof. intros Hn Hb. unfold write_json, encode_json, Write, WriteHeader. cbn. rewrite Hn. cbn. by rewrite Hb. Qed.

(** No application error is answered as a success. *)
Lemma application_error_status w r e :
  w_sent w = None -> 400 <= status_of_writer (writeApplicationError w r e) <= 503.
Proof.
  intros Hn. unfold writeApplicationError.
  repeat (destruct (errors_Is e _); [rewrite problem_status by done; lia|]).
  rewrite problem_status by done; lia.
Qed.
End Writers.

Section Requests.
Context `{GoLib} `{Crypto} {S : Type} `{!OrderStore S} `{!ServiceRuntime S}.
Context (authenticator : option (Header -> call S Actor)).
Context (dependencies : list (option (Dependency S))) (site : Site).

Lemma handlers_need_an_actor (h : handler) r w s s1 e :
  h ∈ [createOrder authenticator; getOrder authenticator; listOrders authenticator;
       cancelOrder authenticator] ->
  actor authenticator r s = (s1, Err e) -> h r w s = (s1, unauthorized w r).
Proof.
  intros Hh Ha. rewrite !elem_of_cons in Hh.
  destruct Hh as [->|[->|[->|[->|[]%not_elem_of_nil]]]];
    unfold createOrder, getOrder, listOrders, cancelOrder; by rewrite Ha.
Qed.

(** A handler of orders that answers 2xx got its answer from the service. *)
Lemma getOrder_success r w s s' w' :
  w_sent w = None -> w_body w = "" ->
  getOrder authenticator r w s = (s', w') -> status_of_writer w' < 400 ->
  exists a s1 o, actor authenticator r s = (s1, Ok a) /\
    Service_Get a (TrimPrefix (rq_Path r) "/v1/orders/") s1 = (s', Ok o) /\
    status_of_writer w' = 200 /\
    forall j, toOrderResponse o = Ok j -> w_body w' = json_text j +:+ String "010" "".
Proof.
  intros Hn Hb. unfold getOrder. destruct (actor authenticator r s) as [s1 [a|e]].
  2:{ intros [= <- <-]. unfold unauthorized. rewrite problem_status by done. lia. }
  destruct (Service_Get a _ s1) as [s2 [o|e]] eqn:Hg.
  2:{ intros [= <- <-] Hlt. pose proof (application_error_status w r e Hn). lia. }
  intros [= <- <-] _. exists a, s1, o. split_and!; auto.
  - by apply write_json_status.
  - intros j Hj. rewrite Hj. by apply write_json_body.
Qed.

Lemma createOrder_success r w s s' w' :
  w_sent w = None -> w_body w = "" ->
  createOrder authenticator r w s = (s', w') -> status_of_writer w' < 400 ->
  exists a s1 key input res, actor authenticator r s = (s1, Ok a) /\
    validIdempotencyKey (Get (rq_Header r) "Idempotency-Key") = Some key /\
    decodeJSON dec_createRequest r = Some input /\
    Service_Create (mkCreateInput a (cr_CustomerID input) (cr_Currency input)
      (map (fun i => mkItem (fst i) (snd i) None None None None) (cr_Items input)) key) s1 = (s', Ok res) /\
    status_of_writer w' = 202.
Proof.
  intros Hn Hb. unfold createOrder. destruct (actor authenticator r s) as [s1 [a|e]].
  2:{ intros [= <- <-]. unfold unauthorized. rewrite problem_status by done. lia. }
  destruct (validIdempotencyKey _) as [key|]; [|intros [= <- <-]; rewrite problem_status by done; lia].
  destruct (decodeJSON _ r) as [input|]; [|intros [= <- <-]; rewrite problem_status by done; lia].
  destruct (Service_Create _ s1) as [s2 [res|e]] eqn:Hc.
  2:{ intros [= <- <-] Hlt. pose proof (application_error_status w r e Hn). lia. }
  intros [= <- <-] _. exists a, s1, key, input, res. split_and!; auto. by apply write_json_status.
Qed.

Lemma cancelOrder_success r w s s' w' :
  w_sent w = None -> w_body w = "" ->
  cancelOrder authenticator r w s = (s', w') -> status_of_writer w' < 400 ->
  exists a s1 key reason o, actor authenticator r s = (s1, Ok a) /\
    validIdempotencyKey (Get (rq_Header r) "Idempotency-Key") = Some key /\
    Service_Cancel (mkCancelInput a (TrimSuffix (TrimPrefix (rq_Path r) "/v1/orders/") "/cancel") reason key) s1
      = (s', Ok o) /\
    status_of_writer w' = 202.
Proof.
  intros Hn Hb. unfold cancelOrder. destruct (actor authenticator r s) as [s1 [a|e]].
  2:{ intros [= <- <-]. unfold unauthorized. rewrite problem_status by done. lia. }
  destruct (validIdempotencyKey _) as [key|]; [|intros [= <- <-]; rewrite problem_status by done; lia].
  destruct (if _ =? 0 then _ else _) as [reason|]; [|intros [= <- <-]; rewrite problem_status by done; lia].
  destruct (Service_Cancel _ s1) as [s2 [o|e]] eqn:Hc.
  2:{ intros [= <- <-] Hlt. pose proof (application_error_status w r e Hn). lia. }
  intros [= <- <-] _. exists a, s1, key, reason, o. split_and!; auto. by apply write_json_status.
Qed.

Lemma Service_Create_permitted input s s' res :
  Service_Create input s = (s', Ok res) ->
  permitted (ci_Actor input) (ci_CustomerID input) "orders:write:self" "orders:write:any" = true.
Proof.
  intros Hc. destruct (permitted _ _ _ _) eqn:Hp; [done|].
  destruct (Service_Create_refused input s Hp) as [e He]. congruence.
Qed.
End Requests.

(** Nothing of the orders is reached without an actor: a request outside
    the public pages whose credentials are refused leaves the system as the
    authentication left it and is answered 401, or 404 or 405 when the route or
    the method does not exist. *)
Theorem unauthenticated_requests_do_nothing `{GoLib} `{Crypto} {S : Type} `{!OrderStore S} `{!ServiceRuntime S}
    authenticator dependencies site r (w : Writer) (s s1 : S) e :
  w_sent w = None -> public_path (rq_Path r) = false ->
  actor authenticator r s = (s1, Err e) ->
  let '(s', w') := route authenticator dependencies site r w s in
  (s' = s \/ s' = s1) /\ status_of_writer w' ∈ [401; 404; 405].
Proof.
  intros Hn Hpub Ha. unfold public_path in Hpub. cbn in Hpub.
  repeat (apply orb_false_iff in Hpub as [?Hp Hpub]). unfold route.
  rewrite Hp, Hp0, Hp1, Hp2.
  assert (forall h : handler, h ∈ [createOrder authenticator; getOrder authenticator; listOrders authenticator;
    cancelOrder authenticator] -> let '(s', w') := h r w s in
    (s' = s \/ s' = s1) /\ status_of_writer w' ∈ [401; 404; 405]) as Hauth.
  { intros h Hh. rewrite (handlers_need_an_actor _ h r w s s1 e Hh Ha). unfold unauthorized.
    rewrite problem_status by done. set_solver. }
  assert (forall c t d, c ∈ [401; 404; 405] ->
    (s = s \/ s = s1) /\ status_of_writer (problem w r c t d) ∈ [401; 404; 405]) as Hprob.
  { intros c t d Hc. by rewrite problem_status by done; auto. }
  unfold method_not_allowed.
  destruct (rq_Path r =? "/v1/orders")%string.
  { destruct (rq_Method r =? MethodPost)%string; [apply Hauth; set_solver|].
    destruct (rq_Method r =? MethodGet)%string; [apply Hauth | apply Hprob]; set_solver. }
  destruct (HasPrefix (rq_Path r) "/v1/orders/"); [|apply Hprob; set_solver]. cbn [andb].
  destruct (HasSuffix (rq_Path r) "/cancel").
  - destruct (rq_Method r =? MethodPost)%string; [apply Hauth | apply Hprob]; set_solver.
  - destruct (rq_Method r =? MethodGet)%string; [apply Hauth | apply Hprob]; set_solver.
Qed.

(** What a client is shown or told was accepted is what the service
    returned, to an actor that may have it.  A successful answer on an order's
    path carries the order with that id, read for an actor with the scope for
    it; a successful creation or cancellation was made by the service for such
    an actor under a valid idempotency key. *)
Theorem successes_come_from_the_service `{GoLib} `{Crypto} {S : Type} `{OrderStoreLaws S}
    authenticator r (w : Writer) (s s' : S) w' :
  w_sent w = None -> w_body w = "" -> status_of_writer w' < 400 ->
  (forall a s1, actor authenticator r s = (s1, Ok a) -> os_inv s1) ->
  (getOrder authenticator r w s = (s', w') ->
   exists a s1 o, actor authenticator r s = (s1, Ok a) /\ ID o = TrimPrefix (rq_Path r) "/v1/orders/" /\
     view s' = view s1 /\ permitted a (CustomerID o) "orders:read:self" "orders:read:any" = true /\
     forall j, toOrderResponse o = Ok j -> w_body w' = json_text j +:+ String "010" "") /\
  (createOrder authenticator r w s = (s', w') ->
   exists a s1 input res, actor authenticator r s = (s1, Ok a) /\
     decodeJSON dec_createRequest r = Some input /\
     permitted a (cr_CustomerID input) "orders:write:self" "orders:write:any" = true /\
     exists key, MatchString idempotencyKeyPattern key = true /\
       Service_Create (mkCreateInput a (cr_CustomerID input) (cr_Currency input)
         (map (fun i => mkItem (fst i) (snd i) None None None None) (cr_Items input)) key) s1 = (s', Ok res)) /\
  (cancelOrder authenticator r w s = (s', w') ->
   exists a s1 o s2, actor authenticator r s = (s1, Ok a) /\
     os_FindByID (TrimSuffix (TrimPrefix (rq_Path r) "/v1/orders/") "/cancel") s1 = (s2, Ok o) /\
     permitted a (CustomerID o) "orders:cancel:self" "orders:cancel:any" = true).
Proof.
  intros Hn Hb Hlt Hinv. split_and!.
  - intros Hg. destruct (getOrder_success _ _ _ _ _ _ Hn Hb Hg Hlt) as (a & s1 & o & Ha & Hs & _ & Hbody).
    destruct (Service_Get_ok _ _ _ _ _ Hs) as [Hp [s2 Hf]].
    exists a, s1, o. split_and!; auto; [eapply find_id; [by eapply Hinv | done] | by eapply Service_Get_pure].
  - intros Hc. destruct (createOrder_success _ _ _ _ _ _ Hn Hb Hc Hlt)
      as (a & s1 & key & input & res & Ha & Hk & Hd & Hs & _).
    exists a, s1, input, res. split_and!; auto.
    + exact (Service_Create_permitted _ _ _ _ Hs).
    + exists key. split; [|done]. revert Hk. unfold validIdempotencyKey.
      destruct (MatchString _ _) eqn:Hm; [|done]. by intros [= <-].
  - intros Hc. destruct (cancelOrder_success _ _ _ _ _ _ Hn Hb Hc Hlt)
      as (a & s1 & key & reason & o & Ha & _ & Hs & _).
    destruct (Service_Cancel_effect _ _ _ _ Hs) as [[_ Hno]|(o2 & s2 & Hf & Hp)]; [done|].
    exists a, s1, o2, s2. auto.
Qed.

(** ** Readiness *)

(** What each dependency in turn answers. *)
Fixpoint check_results {S} (deps : list (option (Dependency S))) (s : S) : list (string * bool) :=
  match deps with
  | [] => []
  | None :: rest => check_results rest s
  | Some d :: rest =>
      let '(s', r) := dep_Check d s in (dep_Name d, is_ok r) :: check_results rest s'
  end.

Lemma ready_from_ok {S} (deps : list (option (Dependency S))) : forall (acc : HealthStatus) (s s' : S) (h : HealthStatus),
  ready_from deps acc s = (s', h) ->
  (hs_Status h = "ready" <-> hs_Status acc = "ready" /\ Forall (fun p : string * bool => snd p = true) (check_results deps s)) /\
  (forall (n : string) (b : bool), (n, b) ∈ check_results deps s -> NoDup (map fst (check_results deps s)) ->
     hs_Dependencies h !! n = Some (if b then "ok" else "unavailable")) /\
  (forall n, n ∉ map fst (check_results deps s) -> hs_Dependencies h !! n = hs_Dependencies acc !! n).
Proof.
  induction deps as [|[d|] deps IH]; intros acc s s' h; cbn.
  - intros [= <- <-]. split_and!; [by split; [intros; split; [done | constructor] | intros []]| |done].
    intros n b []%not_elem_of_nil.
  - destruct (dep_Check d s) as [s1 r]. destruct r as [u|e]; intros Hr; apply IH in Hr as (Hst & Hin & Hout); cbn in *.
    + split_and!.
      * rewrite Hst, Forall_cons. cbn. tauto.
      * intros n b [[= -> ->]|Hn]%elem_of_cons [Hd1 Hd2]%NoDup_cons; [|by apply Hin].
        rewrite Hout by done. apply lookup_insert_eq.
      * intros n [Hne Hn]%not_elem_of_cons. rewrite Hout by done. by rewrite lookup_insert_ne.
    + split_and!.
      * rewrite Hst, Forall_cons. cbn. split; [by intros [? _] | intros (_ & ? & _); done].
      * intros n b [[= -> ->]|Hn]%elem_of_cons [Hd1 Hd2]%NoDup_cons; [|by apply Hin].
        rewrite Hout by done. apply lookup_insert_eq.
      * intros n [Hne Hn]%not_elem_of_cons. rewrite Hout by done. by rewrite lookup_insert_ne.
  - apply IH.
Qed.

(** Readiness is the conjunction of the dependencies: GET /health/ready
    answers 200 exactly when every dependency's check succeeds, 503 otherwise,
    and names each dependency with what its own check said. *)
Theorem readiness_reports_every_dependency `{GoLib} `{Crypto} {S : Type} `{!OrderStore S} `{!ServiceRuntime S}
    authenticator dependencies site r (w : Writer) (s : S) :
  w_sent w = None -> rq_Path r = "/health/ready" -> rq_Method r = "GET" ->
  let results := check_results dependencies s in
  let '(_, w') := route authenticator dependencies site r w s in
  let '(_, h) := Ready dependencies s in
  status_of_writer w' = (if forallb snd results then 200 else 503) /\
  (NoDup (map fst results) -> forall (n : string) (b : bool), (n, b) ∈ results ->
     hs_Dependencies h !! n = Some (if b then "ok" else "unavailable")).
Proof.
  intros Hn Hp Hm. unfold route. rewrite Hp.
  change ("/health/ready" =? "/health/live")%string with false.
  change ("/health/ready" =? "/health/ready")%string with true. cbv iota.
  unfold expect_method. rewrite Hm. change ("GET" =? MethodGet)%string with true. cbn [negb]. cbv iota.
  destruct (Ready dependencies s) as [s' h] eqn:Hr.
  destruct (ready_from_ok _ _ _ _ _ Hr) as (Hst & Hin & _). cbn in Hst.
  split; [|intros Hnd n b Hnb; by apply Hin]. rewrite write_json_status by done.
  destruct (forallb snd (check_results dependencies s)) eqn:Hall.
  - rewrite (proj2 Hst); [done|]. split; [done|]. apply Forall_forall. intros p Hp'.
    apply (proj1 (forallb_forall _ _) Hall). by apply list_elem_of_In.
  - destruct (String.eqb_spec (hs_Status h) "ready") as [He|]; [|done].
    apply Hst in He as [_ He]. exfalso. assert (forallb snd (check_results dependencies s) = true) as Hx; [|congruence].
    apply forallb_forall. intros p Hp'. rewrite Forall_forall in He. apply He. by apply list_elem_of_In.
Qed.
