(* ===== verification/OrdersConfig.v ===== *)
(** * Orders: configuration

    [apps/orders/internal/platform/config/config.go]: reading the environment
    and refusing what is unsafe outside development. *)
From Stdlib Require Import ZArith Lia Ascii String.
From stdpp Require Import base gmap strings list.
From S2P Require Import Prelude GoStrings GoErrors GoTime GoURL GoHttp.

Open Scope string_scope.
Open Scope Z_scope.
Open Scope go_scope.

(** ** Reading variables *)

(** The environment: [Source.Lookup]. *)
Definition Source : Type := string -> option string.

Section Config.
Context `{GoLib} `{DurationLib}.

Definition value (source : Source) (key fallback : string) : string :=
  match source key with
  | Some v => if negb (TrimSpace v =? "")%string then v else fallback
  | None => fallback
  end.
Definition duration (source : Source) (key : string) (fallback : Z) : Z :=
  match source key with
  | Some v => if (TrimSpace v =? "")%string then fallback else default (-1) (ParseDuration v)
  | None => fallback
  end.
Definition boolean (source : Source) (key : string) (fallback : bool) : bool :=
  match source key with
  | Some v => if (TrimSpace v =? "")%string then fallback else default false (ParseBool v)
  | None => fallback
  end.

Record Config := mkConfig {
  Role : string; HTTPAddr : string; DatabaseURL : string; KafkaBrokers : string; KafkaTLS : bool;
  KafkaSASLUsername : string; KafkaSASLPassword : string; RedisURL : string; Environment : string;
  LogLevel : string; MetricsPath : string; OpenAPIPath : string; MigrationsPath : string;
  ShutdownTimeout : Z; ReadinessTimeout : Z; OTelEndpoint : string; OTelInsecure : bool;
  GatewayServiceToken : string; GatewayJWKSURL : string; GatewayIssuer : string;
  GatewayAudience : string; GatewaySubject : string; InventoryJWKSURL : string; CursorSecret : string
}.

Definition validateURL (raw name : string) : option goerr :=
  let bad := Some (NewErr (name +:+ " must be an HTTP or HTTPS URL")) in
  match Parse raw with
  | None => bad
  | Some parsed =>
      if (negb (u_Scheme parsed =? "http")%string && negb (u_Scheme parsed =? "https")%string)
         || (u_Host parsed =? "")%string
      then bad else None
  end.

Definition tlsPostgres (raw : string) : bool :=
  match Parse raw with
  | None => false
  | Some u =>
      let mode := ToLower (Query_Get (ParseQuery (u_RawQuery u)) "sslmode") in
      (mode =? "require")%string || (mode =? "verify-ca")%string || (mode =? "verify-full")%string
  end.

Definition is_https (raw : string) : bool := HasPrefix (ToLower raw) "https://".
Definition blank (s : string) : bool := (TrimSpace s =? "")%string.

(** The checks for every environment, in order. *)
Definition validate_common (c : Config) : option goerr :=
  if blank (HTTPAddr c) then Some (NewErr "ORDERS_HTTP_ADDR must not be empty")
  else if negb (Environment c =? "development")%string && negb (Environment c =? "staging")%string &&
          negb (Environment c =? "production")%string
  then Some (NewErr "ORDERS_ENVIRONMENT must be development, staging, or production")
  else if negb (Role c =? "api")%string && negb (Role c =? "relay")%string
  then Some (NewErr "ORDERS_ROLE must be api or relay")
  else if negb (MetricsPath c =? "/metrics")%string
  then Some (NewErr "ORDERS_METRICS_PATH must be /metrics")
  else if (ShutdownTimeout c <=? 0) || (ReadinessTimeout c <=? 0)
  then Some (NewErr "Orders timeouts must be positive")
  else None.

(** The checks of the API role outside development. *)
Definition validate_api (c : Config) : option goerr :=
  match validateURL (GatewayJWKSURL c) "ORDERS_GATEWAY_JWKS_URL" with
  | Some e => Some e
  | None =>
      if negb (is_https (GatewayJWKSURL c))
      then Some (NewErr "ORDERS_GATEWAY_JWKS_URL must use HTTPS outside development")
      else if blank (GatewayIssuer c) || blank (GatewayAudience c) || blank (GatewaySubject c)
      then Some (NewErr "Orders Gateway JWT settings are required outside development")
      else if negb (blank (GatewayServiceToken c))
      then Some (NewErr "ORDERS_GATEWAY_SERVICE_TOKEN is allowed only in development")
      else None
  end.

Definition validate_deployed (c : Config) : option goerr :=
  let relay := (Role c =? "relay")%string in
  if blank (DatabaseURL c) then Some (NewErr "Orders database configuration is required outside development")
  else if Nat.ltb (String.length (CursorSecret c)) 32
  then Some (NewErr "ORDERS_CURSOR_SECRET must contain at least 32 bytes outside development")
  else if relay && blank (KafkaBrokers c)
  then Some (NewErr "Orders Kafka configuration is required for the relay")
  else if relay && (negb (KafkaTLS c) || blank (KafkaSASLUsername c) || blank (KafkaSASLPassword c))
  then Some (NewErr "secure authenticated Kafka configuration is required for the relay outside development")
  else if blank (OTelEndpoint c) || OTelInsecure c
  then Some (NewErr "secure Orders OpenTelemetry configuration is required outside development")
  else if negb (tlsPostgres (DatabaseURL c))
  then Some (NewErr "ORDERS_DATABASE_URL must require PostgreSQL TLS outside development")
  else match (if (Role c =? "api")%string then validate_api c else None) with
       | Some e => Some e
       | None =>
           match validateURL (InventoryJWKSURL c) "ORDERS_INVENTORY_JWKS_URL" with
           | Some e => Some e
           | None =>
               if negb (is_https (InventoryJWKSURL c))
               then Some (NewErr "ORDERS_INVENTORY_JWKS_URL must use HTTPS outside development")
               else None
           end
       end.

Definition Validate (c : Config) : option goerr :=
  match validate_common c with
  | Some e => Some e
  | None => if negb (Environment c =? "development")%string then validate_deployed c else None
  end.

Definition read_config (source : Source) : Config :=
  mkConfig (value source "ORDERS_ROLE" "api") (value source "ORDERS_HTTP_ADDR" ":8080")
    (value source "ORDERS_DATABASE_URL" "") (value source "ORDERS_KAFKA_BROKERS" "")
    (boolean source "ORDERS_KAFKA_TLS" false) (value source "ORDERS_KAFKA_SASL_USERNAME" "")
    (value source "ORDERS_KAFKA_SASL_PASSWORD" "") (value source "ORDERS_REDIS_URL" "")
    (value source "ORDERS_ENVIRONMENT" "development") (value source "ORDERS_LOG_LEVEL" "info")
    (value source "ORDERS_METRICS_PATH" "/metrics")
    (value source "ORDERS_OPENAPI_PATH" "contracts/openapi/orders.openapi.yaml")
    (value source "ORDERS_MIGRATIONS_PATH" "database/orders/migrations")
    (duration source "ORDERS_SHUTDOWN_TIMEOUT" (10 * Second))
    (duration source "ORDERS_READINESS_TIMEOUT" (2 * Second))
    (value source "ORDERS_OTEL_ENDPOINT" "") (boolean source "ORDERS_OTEL_INSECURE" false)
    (value source "ORDERS_GATEWAY_SERVICE_TOKEN" "")
    (value source "ORDERS_GATEWAY_JWKS_URL" "http://identity:8080/.well-known/jwks.json")
    (value source "ORDERS_GATEWAY_ISSUER" "identity.local")
    (value source "ORDERS_GATEWAY_AUDIENCE" "platform-internal")
    (value source "ORDERS_GATEWAY_SUBJECT" "svc_gateway")
    (value source "ORDERS_INVENTORY_JWKS_URL" "http://inventory:8080/.well-known/jwks.json")
    (value source "ORDERS_CURSOR_SECRET" "").

(** A boolean variable that is set must parse. *)
Definition bad_boolean (source : Source) (key : string) : bool :=
  match source key with
  | Some raw => negb (TrimSpace raw =? "")%string && bool_decide (ParseBool raw = None)
  | None => false
  end.

Definition Load (source : Source) : result goerr Config :=
  let c := read_config source in
  if bad_boolean source "ORDERS_OTEL_INSECURE"
  then Err (NewErr "ORDERS_OTEL_INSECURE must be a boolean")
  else match Validate c with
       | Some e => Err e
       | None => Ok c
       end.

(** ** What a deployed configuration guarantees *)

Record deployed_safely (c : Config) : Prop := {
  ds_database : tlsPostgres (DatabaseURL c) = true;
  ds_secret : (32 <= String.length (CursorSecret c))%nat;
  ds_otel : OTelInsecure c = false /\ blank (OTelEndpoint c) = false;
  ds_inventory_keys : is_https (InventoryJWKSURL c) = true;
  ds_api : Role c = "api" -> is_https (GatewayJWKSURL c) = true /\ blank (GatewayServiceToken c) = true /\
             blank (GatewaySubject c) = false;
  ds_relay : Role c = "relay" -> KafkaTLS c = true /\ blank (KafkaSASLUsername c) = false /\
               blank (KafkaSASLPassword c) = false /\ blank (KafkaBrokers c) = false;
  ds_role : Role c = "api" \/ Role c = "relay"
}.
End Config.

Lemma validate_api_safe `{GoLib} c :
  validate_api c = None -> is_https (GatewayJWKSURL c) = true /\ blank (GatewayServiceToken c) = true /\
                           blank (GatewaySubject c) = false.
Proof.
  unfold validate_api. destruct (validateURL _ _); [done|].
  destruct (is_https (GatewayJWKSURL c)); [|done]. cbn [negb].
  destruct (_ || _) eqn:Hb; [done|]. apply orb_false_iff in Hb as [_ Hb].
  by destruct (blank (GatewayServiceToken c)).
Qed.

Lemma validate_deployed_safe `{GoLib} c :
  Role c = "api" \/ Role c = "relay" -> validate_deployed c = None -> deployed_safely c.
Proof.
  intros Hrole. unfold validate_deployed. cbv zeta. destruct (blank (DatabaseURL c)); [done|].
  destruct (Nat.ltb_spec (String.length (CursorSecret c)) 32); [done|].
  destruct (_ && blank (KafkaBrokers c)) eqn:Hk1; [done|].
  destruct ((Role c =? "relay")%string && (_ || blank (KafkaSASLPassword c))) eqn:Hk2; [done|].
  destruct (blank (OTelEndpoint c) || _) eqn:Ho; [done|]. apply orb_false_iff in Ho as [Ho1 Ho2].
  destruct (tlsPostgres (DatabaseURL c)) eqn:Ht; [|done]. cbn [negb].
  destruct (if (Role c =? "api")%string then _ else _) eqn:Ha; [done|].
  destruct (validateURL (InventoryJWKSURL c) _); [done|].
  destruct (is_https (InventoryJWKSURL c)) eqn:Hi; [|done]. intros _.
  split; auto.
  - intros Hr. rewrite Hr in Ha. cbn in Ha. by apply validate_api_safe.
  - intros Hr. rewrite Hr in Hk1, Hk2. cbn in Hk1, Hk2.
    apply orb_false_iff in Hk2 as [Hk2 Hpw]. apply orb_false_iff in Hk2 as [Htls Hus].
    apply negb_false_iff in Htls. auto.
Qed.

(** A configuration that loads outside development is safe to deploy: the
    database requires TLS, the cursor secret has at least 32 bytes, the key
    sets are read over HTTPS, telemetry is secure, the API accepts no static
    token and the relay's Kafka connection is encrypted and authenticated. *)
Theorem deployed_configuration_is_safe `{GoLib} `{DurationLib} source c :
  Load source = Ok c -> Environment c <> "development" -> deployed_safely c.
Proof.
  unfold Load. destruct (bad_boolean _ _); [done|]. unfold Validate.
  destruct (validate_common (read_config source)) eqn:Hc; [done|].
  destruct (_ =? "development")%string eqn:He; cbn [negb].
  - intros [= <-] Hne. by apply String.eqb_eq in He.
  - destruct (validate_deployed (read_config source)) eqn:Hd; [done|]. intros [= <-] _.
    apply validate_deployed_safe; [|done]. revert Hc. unfold validate_common.
    destruct (blank _); [done|]. destruct (_ && _); [done|].
    destruct (negb (Role _ =? "api")%string && _) eqn:Hr; [done|]. intros _.
    apply andb_false_iff in Hr as [Hr|Hr]; apply negb_false_iff, String.eqb_eq in Hr; auto.
Qed.

Definition staging_source : Source := fun key =>
  if (key =? "ORDERS_ENVIRONMENT")%string then Some "staging"
  else if (key =? "ORDERS_DATABASE_URL")%string then Some "postgres://orders:pw@db:5432/orders?sslmode=verify-full"
  else if (key =? "ORDERS_CURSOR_SECRET")%string then Some "0123456789abcdef0123456789abcdef"
  else if (key =? "ORDERS_OTEL_ENDPOINT")%string then Some "otel:4317"
  else if (key =? "ORDERS_GATEWAY_JWKS_URL")%string then Some "https://identity/.well-known/jwks.json"
  else if (key =? "ORDERS_INVENTORY_JWKS_URL")%string then Some "https://inventory/.well-known/jwks.json"
  else None.

Lemma deployed_configuration_is_safe_witness :
  @deployed_safely ascii_lib (@read_config ascii_lib {| fraction_duration := fun _ => None |} staging_source).
Proof.
  apply (@deployed_configuration_is_safe ascii_lib {| fraction_duration := fun _ => None |} staging_source).
  - vm_compute. reflexivity.
  - vm_compute. discriminate.
Defined.
