(* ===== verification/OrdersMigrate.v ===== *)
(** * Orders: migrations under the advisory lock

    [Connection.Migrate] of [postgres.go], run by any number of processes at
    once against one PostgreSQL server.  A session-level advisory lock belongs
    to the session that took it, can be taken again by it, and goes with it;
    goose itself runs on other connections of the pool. *)
From Stdlib Require Import ZArith Lia Ascii String.
From stdpp Require Import base gmap strings list.
From S2P Require Import Prelude GoErrors Interleave.

Open Scope string_scope.
Open Scope go_scope.

Definition migrationLock : Z := 838927451.

(** The server: who holds the lock and how often, the sessions that are
    checked out of a pool, and what goose executed. *)
Record PgLocks := mkPgLocks {
  holder : option (nat * nat);
  checked_out : gset nat;
  executed : list string
}.

(** ** The lock *)

(** [SELECT pg_advisory_lock(k)]: [None] while another session holds it. *)
Definition AcquireMigrationLock (s : nat) (v : PgLocks) : option PgLocks :=
  match holder v with
  | None => Some (mkPgLocks (Some (s, 1%nat)) (checked_out v) (executed v))
  | Some (s', n) =>
      if decide (s' = s) then Some (mkPgLocks (Some (s, S n)) (checked_out v) (executed v)) else None
  end.
(** [SELECT pg_advisory_unlock(k)]: only a warning when the session does not
    hold it. *)
Definition ReleaseMigrationLock (s : nat) (v : PgLocks) : PgLocks :=
  match holder v with
  | Some (s', n) =>
      if decide (s' = s)
      then mkPgLocks (match n with S (S k) => Some (s, S k) | _ => None end) (checked_out v) (executed v)
      else v
  | None => v
  end.
(** The end of a session takes its locks with it. *)
Definition session_ends (s : nat) (v : PgLocks) : PgLocks :=
  match holder v with
  | Some (s', _) => if decide (s' = s) then mkPgLocks None (checked_out v) (executed v) else v
  | None => v
  end.
Definition check_out (s : nat) (v : PgLocks) : PgLocks := mkPgLocks (holder v) ({[s]} ∪ checked_out v) (executed v).
(** [lockConnection.Close] *)
Definition give_back (s : nat) (v : PgLocks) : PgLocks := mkPgLocks (holder v) (checked_out v ∖ {[s]}) (executed v).

(** ** Migrate *)

(** A call of [Migrate], or the pool closing idle connections. *)
Inductive MigrateJob := JMigrate | JReap.
Inductive MigratePlace :=
| MCalled
| MAcquiring (s : nat)                      (* at [AcquireMigrationLock] *)
| MUp (s : nat)                             (* in [goose.UpContext] *)
| MReleasing (s : nat) (r : result goerr unit)   (* at [ReleaseMigrationLock] *)
| MReturned (r : result goerr unit)
| MReaper.

Inductive MigrateEv :=
| EConn (s : nat)                  (* the pool gives (or closes) this session *)
| EDone                            (* the statement succeeded *)
| EFailed (e : goerr) (died : bool) (* it failed, and whether the session ended *)
| EStatement (q : string)          (* goose executed a statement *)
| EUp (r : result goerr unit)      (* goose returned *)
| ELost.                           (* the server ended the lock's session *)

Definition migrate_init (j : MigrateJob) : MigratePlace := match j with JMigrate => MCalled | JReap => MReaper end.
Definition after_failure (died : bool) (s : nat) (v : PgLocks) : PgLocks := if died then session_ends s v else v.

Definition Migrate (e : MigrateEv) (p : MigratePlace) (v : PgLocks) : option (PgLocks * MigratePlace) :=
  match p, e with
  | MCalled, EConn s => if decide (s ∈ checked_out v) then None else Some (check_out s v, MAcquiring s)
  | MCalled, EFailed err _ => Some (v, MReturned (Err err))
  | MAcquiring s, EDone => v' ← AcquireMigrationLock s v; Some (v', MUp s)
  | MAcquiring s, EFailed err died => Some (give_back s (after_failure died s v), MReturned (Err err))
  | MUp s, EStatement q => Some (mkPgLocks (holder v) (checked_out v) (executed v ++ [q]), MUp s)
  | MUp s, EUp r => Some (v, MReleasing s r)
  | MUp s, ELost => Some (session_ends s v, MUp s)
  | MReleasing s r, EDone => Some (give_back s (ReleaseMigrationLock s v), MReturned r)
  | MReleasing s r, EFailed _ died => Some (give_back s (after_failure died s v), MReturned r)
  | MReaper, EConn s => if decide (s ∈ checked_out v) then None else Some (session_ends s v, MReaper)
  | _, _ => None
  end.
Definition run_migrations : list (label MigrateEv MigrateJob) -> Sys PgLocks MigratePlace -> option (Sys PgLocks MigratePlace) :=
  run migrate_init Migrate.
Definition unlocked : PgLocks := mkPgLocks None ∅ [].

(** ** Facts *)

(** The session a call holds, and whether it is past the acquisition. *)
Definition session_of (p : MigratePlace) : option nat :=
  match p with MAcquiring s | MUp s | MReleasing s _ => Some s | _ => None end.
Definition locked_by (p : MigratePlace) : option nat :=
  match p with MUp s | MReleasing s _ => Some s | _ => None end.
Definition holds (v : PgLocks) (s : nat) : Prop := exists n, holder v = Some (s, S n).

Definition is_lost (l : label MigrateEv MigrateJob) : bool := match l with Run _ ELost => true | _ => false end.
(** A release that failed on a session that lives on. *)
Definition is_kept (l : label MigrateEv MigrateJob) : bool := match l with Run _ (EFailed _ false) => true | _ => false end.

Record exclusive (st : Sys PgLocks MigratePlace) : Prop := mkExclusive {
  ex_out : forall i p s, threads st !! i = Some p -> session_of p = Some s -> s ∈ checked_out (shared st);
  ex_one : forall i j p q s, threads st !! i = Some p -> threads st !! j = Some q ->
             session_of p = Some s -> session_of q = Some s -> i = j;
  ex_lock : forall i p s, threads st !! i = Some p -> locked_by p = Some s -> holds (shared st) s
}.

Lemma locked_by_session p s : locked_by p = Some s -> session_of p = Some s.
Proof. by destruct p. Qed.
Lemma two_holders v s t : holds v s -> holds v t -> s = t.
Proof. intros [n Hn] [m Hm]. congruence. Qed.

(** What a step leaves the other goroutines, and what it takes for itself. *)
Lemma Migrate_others e p v v' q t : Migrate e p v = Some (v', q) -> e <> ELost ->
  session_of p <> Some t -> t ∈ checked_out v ->
  t ∈ checked_out v' /\ session_of q <> Some t /\ (holds v t -> holds v' t).
Proof.
  intros Hs Hl Hp Ht. unfold holds.
  destruct p, e; cbn in Hs, Hp; try done;
    unfold AcquireMigrationLock, ReleaseMigrationLock, after_failure, session_ends, give_back, check_out in Hs;
    repeat (case_match || case_decide); simplify_eq/=; (split; [set_solver|]); (split; [congruence || (intros [= ->]; set_solver)|]);
    intros [k Hk]; simplify_eq/=; eauto.
Qed.
Lemma Migrate_self e p v v' q s : Migrate e p v = Some (v', q) -> e <> ELost -> session_of q = Some s ->
  (forall t, locked_by p = Some t -> holds v t) -> (forall t, session_of p = Some t -> t ∈ checked_out v) ->
  s ∈ checked_out v' /\ (locked_by q = Some s -> holds v' s) /\ (session_of p = Some s \/ s ∉ checked_out v).
Proof.
  intros Hs Hl Hq Hp Hin. unfold holds in *.
  destruct p, e; cbn in Hs, Hp, Hin; try done;
    unfold AcquireMigrationLock, ReleaseMigrationLock, after_failure, session_ends, give_back, check_out in Hs;
    repeat (case_match || case_decide); simplify_eq/=;
    (split; [set_solver|]); split; try (by eauto); intros Hlk; simplify_eq/=; try done; eauto.
Qed.

Lemma exclusive_step l st st' : is_lost l = false -> exclusive st ->
  sys_step migrate_init Migrate l st = Some st' -> exclusive st'.
Proof.
  intros Hl [Hout Hone Hlock] Hs. destruct l as [j|i e]; cbn in Hs.
  { injection Hs as <-. cbn.
    assert (forall k p s, (threads st ++ [migrate_init j])%list !! k = Some p -> session_of p = Some s ->
              threads st !! k = Some p) as Hold.
    { intros k p s [Hk|[_ Hk]]%lookup_app_Some Hp; [done|].
      apply list_lookup_singleton_Some in Hk as [_ <-]. by destruct j. }
    split; cbn; intros; [eapply Hout | eapply Hone | eapply Hlock]; eauto using locked_by_session. }
  destruct (threads st !! i) as [p|] eqn:Hi; [|done]. cbn in Hs.
  destruct (Migrate e p (shared st)) as [[v q]|] eqn:Hm; [|done]. injection Hs as <-. cbn.
  assert (e <> ELost) as He by (by intros ->).
  pose proof (fun s Hq => Migrate_self e p _ v q s Hm He Hq (fun t => Hlock i p t Hi) (fun t => Hout i p t Hi)) as Hself.
  assert (forall k p' s, k <> i -> threads st !! k = Some p' -> session_of p' = Some s ->
            s ∈ checked_out v /\ session_of q <> Some s /\ (holds (shared st) s -> holds v s)) as Hoth.
  { intros k p' s Hk Hp' Hsk. eapply Migrate_others; [exact Hm | done | | by eapply Hout].
    intros Hps. by apply Hk, (Hone k i p' p s). }
  assert (i < length (threads st))%nat as Hlt by (by eapply lookup_lt_Some).
  split; cbn.
  - intros k p' s Hk Hp'. destruct (decide (k = i)) as [->|Hne].
    + rewrite list_lookup_insert_eq in Hk by done. injection Hk as <-. by apply Hself.
    + rewrite list_lookup_insert_ne in Hk by done. by eapply Hoth.
  - intros k1 k2 p1 p2 s H1 H2 Hs1 Hs2.
    destruct (decide (k1 = i)) as [->|Hn1], (decide (k2 = i)) as [->|Hn2]; [done| | |].
    + rewrite list_lookup_insert_eq in H1 by done. rewrite list_lookup_insert_ne in H2 by done. injection H1 as <-.
      exfalso. by eapply (Hoth k2 p2 s).
    + rewrite list_lookup_insert_ne in H1 by done. rewrite list_lookup_insert_eq in H2 by done. injection H2 as <-.
      exfalso. by eapply (Hoth k1 p1 s).
    + rewrite list_lookup_insert_ne in H1, H2 by done. by eapply Hone.
  - intros k p' s Hk Hp'. destruct (decide (k = i)) as [->|Hne].
    + rewrite list_lookup_insert_eq in Hk by done. injection Hk as <-. apply Hself; [by apply locked_by_session | done].
    + rewrite list_lookup_insert_ne in Hk by done.
      apply (Hoth k p' s); [done | done | by apply locked_by_session | by eapply Hlock].
Qed.

(** The lock is held once, by the call that is past its acquisition. *)
Definition lock_is_a_calls (st : Sys PgLocks MigratePlace) : Prop :=
  forall s n, holder (shared st) = Some (s, n) ->
    n = 1%nat /\ exists i p, threads st !! i = Some p /\ locked_by p = Some s.

Lemma Migrate_lock e p v v' q t n : Migrate e p v = Some (v', q) -> e <> ELost -> (forall err, e <> EFailed err false) ->
  (forall s m, holder v = Some (s, m) -> session_of p = Some s -> m = 1%nat /\ locked_by p = Some s) ->
  (forall s, session_of p = Some s -> s ∈ checked_out v) ->
  holder v' = Some (t, n) -> (holder v = Some (t, n) /\ session_of p <> Some t) \/ (n = 1%nat /\ locked_by q = Some t).
Proof.
  intros Hs Hl Hk Hp Hin Hh.
  destruct p, e; cbn in Hs, Hp, Hin; try done;
    unfold AcquireMigrationLock, ReleaseMigrationLock, after_failure, session_ends, give_back, check_out in Hs;
    repeat (case_match || case_decide); simplify_eq/=; try (by left); try (by right);
    try (by left; split; [|congruence]);
    try (by edestruct Hp as [? ?]; [reflexivity..|]; simplify_eq; auto);
    try (by edestruct Hk).
  all: destruct (decide (s = t)) as [->|]; [right; by apply (Hp t n) | left; split; congruence].
Qed.
Lemma lock_is_a_calls_step l st st' : is_lost l = false -> is_kept l = false -> exclusive st -> lock_is_a_calls st ->
  sys_step migrate_init Migrate l st = Some st' -> lock_is_a_calls st'.
Proof.
  intros Hl Hk Hex Hown Hs. destruct l as [j|i e]; cbn in Hs.
  { injection Hs as <-. intros s n Hh. destruct (Hown s n Hh) as (-> & k & p & Hp & Hlp). split; [done|].
    exists k, p. split; [|done]. cbn. by apply lookup_app_l_Some. }
  destruct (threads st !! i) as [p|] eqn:Hi; [|done]. cbn in Hs.
  destruct (Migrate e p (shared st)) as [[v q]|] eqn:Hm; [|done]. injection Hs as <-. intros s n Hh. cbn in Hh |- *.
  assert (i < length (threads st))%nat as Hlt by (by eapply lookup_lt_Some).
  destruct (Migrate_lock e p (shared st) v q s n Hm) as [[Hold Hne]|[-> Hq]]; try done.
  - by intros ->.
  - by intros err ->.
  - intros t m Ht Hp. destruct (Hown t m Ht) as (-> & k & p' & Hk' & Hlp). split; [done|].
    rewrite (ex_one _ Hex i k p p' t) in Hi by (done || by apply locked_by_session). congruence.
  - intros t. by apply (ex_out _ Hex i).
  - destruct (Hown s n Hold) as (-> & k & p' & Hp' & Hlp). split; [done|]. exists k, p'. split; [|done].
    rewrite list_lookup_insert_ne; [done|]. intros ->. rewrite Hi in Hp'. injection Hp' as ->.
    by apply Hne, locked_by_session.
  - split; [done|]. exists i, q. by rewrite list_lookup_insert_eq.
Qed.

Lemma migrations_exclusive ls st : run_migrations ls (start unlocked) = Some st ->
  existsb is_lost ls = false -> exclusive st /\ (existsb is_kept ls = false -> lock_is_a_calls st).
Proof.
  revert ls st. apply (run_invariant _ _ (fun ls st => existsb is_lost ls = false ->
    exclusive st /\ (existsb is_kept ls = false -> lock_is_a_calls st))).
  - intros _. split; [by split; cbn|]. by intros _ s n.
  - intros ls st l st' _ IH Hs Hl. rewrite existsb_app in Hl. apply orb_false_iff in Hl as [Hl0 Hl1].
    cbn in Hl1. rewrite orb_false_r in Hl1. destruct (IH Hl0) as [Hex Hown].
    split; [by eapply exclusive_step|]. intros Hk. rewrite existsb_app in Hk. apply orb_false_iff in Hk as [Hk0 Hk1].
    cbn in Hk1. rewrite orb_false_r in Hk1. eapply lock_is_a_calls_step; eauto.
Qed.

(** C40: migrations run one at a time: of any number of processes that migrate
    at once, at most one is inside goose, as long as the server does not end
    the session that holds the lock; and when every release went through (or
    its session ended), a process that waits for the lock gets it as soon as no
    other is past its own acquisition. *)
Theorem migrations_run_one_at_a_time ls st : run_migrations ls (start unlocked) = Some st ->
  existsb is_lost ls = false ->
  (forall i j s t, threads st !! i = Some (MUp s) -> threads st !! j = Some (MUp t) -> i = j) /\
  (existsb is_kept ls = false -> (forall i p, threads st !! i = Some p -> locked_by p = None) ->
   forall s, exists v, Migrate EDone (MAcquiring s) (shared st) = Some (v, MUp s)).
Proof.
  intros Hr Hl. destruct (migrations_exclusive _ _ Hr Hl) as [[Hout Hone Hlock] Hown]. split.
  - intros i j s t Hi Hj. assert (s = t) as -> by (eapply two_holders; [by eapply (Hlock i) | by eapply (Hlock j)]).
    by eapply Hone.
  - intros Hk Hfree s. cbn. unfold AcquireMigrationLock. destruct (holder (shared st)) as [[t n]|] eqn:Hh; [|by eexists].
    destruct (Hown Hk t n Hh) as (_ & i & p & Hp & Hlp). by rewrite (Hfree i p Hp) in Hlp.
Qed.
(** Two processes: the second waits while the first is inside goose, gets the
    lock after its release. *)
Lemma migrations_run_one_at_a_time_witness :
  let ls := [Spawn JMigrate; Spawn JMigrate; Run 0 (EConn 7); Run 1 (EConn 8); Run 0 EDone;
             Run 0 (EStatement "create table orders"); Run 0 (EUp (Ok tt)); Run 0 EDone; Run 1 EDone] in
  exists st, run_migrations ls (start unlocked) = Some st /\ threads st = [MReturned (Ok tt); MUp 8] /\
    (forall i j s t, threads st !! i = Some (MUp s) -> threads st !! j = Some (MUp t) -> i = j).
Proof.
  intros ls. eexists. split; [vm_compute; reflexivity|]. split; [reflexivity|].
  eapply (proj1 (migrations_run_one_at_a_time ls _ ltac:(vm_compute; reflexivity) ltac:(vm_compute; reflexivity))).
Defined.
(** While the first runs goose, the second cannot go on; it could if the
    server had ended the first one's session. *)
Example migration_waits :
  let ls := [Spawn JMigrate; Spawn JMigrate; Run 0 (EConn 7); Run 1 (EConn 8); Run 0 EDone] in
  run_migrations (ls ++ [Run 1 EDone]) (start unlocked) = None /\
  (threads <$> run_migrations (ls ++ [Run 0 ELost; Run 1 EDone]) (start unlocked)) = Some [MUp 7; MUp 8].
Proof. by split; vm_compute. Qed.
(** A release that fails on a live session is ignored: the session goes back to
    the pool with the lock, and others wait until the pool closes it. *)
Example kept_lock_blocks_until_closed :
  let ls := [Spawn JMigrate; Run 0 (EConn 7); Run 0 EDone; Run 0 (EUp (Ok tt));
             Run 0 (EFailed (NewErr "timeout") false); Spawn JMigrate; Spawn JReap; Run 1 (EConn 8)] in
  run_migrations (ls ++ [Run 1 EDone]) (start unlocked) = None /\
  (threads <$> run_migrations (ls ++ [Run 2 (EConn 7); Run 1 EDone]) (start unlocked)) =
    Some [MReturned (Ok tt); MUp 8; MReaper].
Proof. by split; vm_compute. Qed.
