(* ===== verification/OrdersRelay.v ===== *)
(** * Orders: the relay process

    [apps/orders/cmd/relay/main.go]: publishing leased outbox rows to Kafka and
    feeding the facts of the other services to the store, with retries, the
    quarantine topic and the commit of offsets.  The relay is written against
    the [relayStore] interface; the PostgreSQL store implements it. *)
From Stdlib Require Import ZArith Lia Ascii String.
From stdpp Require Import base gmap strings list relations pretty.
From S2P Require Import Prelude GoStrings GoErrors GoTime GoJson GoBase64 GoCrypto OrdersDomain.
From S2P Require Import Tx OrdersTables OrdersPorts OrdersQuote OrdersStore OrdersSaga.
From S2P Require Import OrdersHistory OrdersSagaFacts OrdersService.

Open Scope string_scope.
Open Scope Z_scope.
Open Scope go_scope.

Definition consumerGroup : string := "orders-saga-v1".

(** ** Interfaces *)

Class relayStore (S : Type) := {
  rl_ClaimPendingOutbox : string -> Z -> Time -> call S (list OutboxEvent);
  rl_MarkOutboxFailed : string -> string -> Time -> call S unit;
  rl_MarkOutboxPublished : string -> Time -> call S unit;
  rl_ProcessFact : string -> string -> call S unit;
  rl_RecordFactFailure : string -> string -> string -> Time -> call S (bool * Z);
  rl_MarkFactDeadLetter : string -> string -> string -> call S unit
}.

Record Message := mkMessage {
  k_topic : string;
  k_key : string;
  k_value : string;
  k_headers : gmap string string
}.

(** What the brokers, the clock and the context did at each event: the fate of
    a write, whether a commit of an offset succeeded, the clock, and whether
    the context is done. *)
Class RelayEnv := {
  write_at : nat -> trip;
  commit_at : nat -> bool;
  relay_clock : nat -> Time;
  ctx_done : nat -> bool
}.

(** The relay with its store: what was written to Kafka and which messages'
    offsets were committed, in order. *)
Record RelaySt (S : Type) := mkRelay {
  r_store : S;
  r_log : list Message;
  r_committed : list string;
  r_tick : nat
}.
Arguments mkRelay {S} r_store r_log r_committed r_tick.
Arguments r_store {S} r.
Arguments r_log {S} r.
Arguments r_committed {S} r.
Arguments r_tick {S} r.

(** ** Backoff *)

Definition delays : list Z :=
  [Second; 5 * Second; 30 * Second; 2 * Minute; 5 * Minute; 10 * Minute; 15 * Minute; 30 * Minute].

Definition outboxBackoff (attempts : Z) : Z :=
  let attempts := if attempts <? 0 then 0 else attempts in
  if Z.of_nat (length delays) <=? attempts then 30 * Minute
  else default 0 (delays !! Z.to_nat attempts).

Definition inboxBackoff (attempt : Z) : Z :=
  let attempt := if attempt <? 1 then 1 else attempt in
  outboxBackoff (wrap_i32 (attempt - 1)).

Definition splitBrokers `{GoLib} (raw : string) : list string :=
  List.filter (fun v => negb (v =? "")%string) (map TrimSpace (Split raw ",")).

(** ** Writers *)

(** A [kafka.Writer] of the relay: one a topic, told apart by when it was made. *)
Record KafkaWriter := mkKafkaWriter { kw_topic : string; kw_number : nat; kw_closed : bool }.

(** [relay.writer] under its lock: the one of the topic, or a new one. *)
Definition writer (topic : string) (writers : gmap string KafkaWriter) : gmap string KafkaWriter * KafkaWriter :=
  match writers !! topic with
  | Some w => (writers, w)
  | None => let w := mkKafkaWriter topic (size writers) false in (<[topic := w]> writers, w)
  end.
(** [closeWriters]; the errors of the closes are dropped. *)
Definition closeWriters (writers : gmap string KafkaWriter) : gmap string KafkaWriter :=
  (fun w => mkKafkaWriter (kw_topic w) (kw_number w) true) <$> writers.

Section Relay.
Context `{GoLib} `{Pg} `{RelayEnv} {S : Type} `{!relayStore S}.

Definition rM (A : Type) : Type := RelaySt S -> RelaySt S * A.

Definition on_store {A} (m : call S A) : rM (result goerr A) := fun r =>
  let '(s, res) := m (r_store r) in (mkRelay s (r_log r) (r_committed r) (r_tick r), res).
Definition relay_now : rM Time := fun r =>
  (mkRelay (r_store r) (r_log r) (r_committed r) (r_tick r + 1)%nat, UTC (relay_clock (r_tick r))).
(** [writer.WriteMessages]: the error, if any. *)
Definition write (m : Message) : rM (option goerr) := fun r =>
  let r' log := mkRelay (r_store r) log (r_committed r) (r_tick r + 1)%nat in
  match write_at (r_tick r) with
  | TripOk => (r' (r_log r ++ [m])%list, None)
  | TripFailed e => (r' (r_log r), Some e)
  | TripLost e => (r' (r_log r ++ [m])%list, Some e)
  end.
Definition rbind {A B} (m : rM A) (k : A -> rM B) : rM B := fun r => let '(r', a) := m r in k a r'.
Definition rret {A} (a : A) : rM A := fun r => (r, a).

Notation "'rlet' x ':=' m 'in' k" := (rbind m (fun x => k))
  (at level 10, x pattern, m at level 100, k at level 200).

(** ** Publishing *)

(** [map[string]string]; a null value is the empty string. *)
Definition dec_strings (j : json) : option (gmap string string) :=
  match j with
  | JNull => Some ∅
  | JObj fs => foldl (fun acc f => m ← acc; v ← dec_string "" (snd f); Some (<[unquote (fst f) := v]> m))
                 (Some ∅) fs
  | _ => None
  end.

Definition kafka_message (row : OutboxEvent) : Message :=
  mkMessage (ev_Topic row) (ev_PartitionKey row) (jsonb_out (ev_Payload row))
    (default ∅ (dec_strings (ev_Headers row))).

Fixpoint publish_rows (rows : list OutboxEvent) : rM (result goerr unit) :=
  match rows with
  | [] => rret (Ok tt)
  | row :: rest =>
      rlet err := write (kafka_message row) in
      match err with
      | Some e =>
          rlet now := relay_now in
          rlet _ := on_store (rl_MarkOutboxFailed (ev_ID row) (ErrorText e)
                                (Add now (outboxBackoff (ev_Attempts row)))) in
          publish_rows rest
      | None =>
          rlet now := relay_now in
          rlet res := on_store (rl_MarkOutboxPublished (ev_ID row) now) in
          match res with
          | Err e => rret (Err e)
          | Ok _ => publish_rows rest
          end
      end
  end.

Definition publishBatch (owner : string) : rM (result goerr unit) :=
  rlet now := relay_now in
  rlet claimed := on_store (rl_ClaimPendingOutbox owner 100 (Add now (2 * Minute))) in
  match claimed with
  | Err e => rret (Err e)
  | Ok rows => publish_rows rows
  end.

(** What the select of [publish] was woken by. *)
Inductive wake := CtxDone | TickerFired.

(** [publish]: a batch at every tick, whose error is only logged, until the
    context is done; [None] while it still runs. *)
Fixpoint publish (owner : string) (wakes : list wake) : rM (option (result goerr unit)) :=
  match wakes with
  | [] => rret None
  | CtxDone :: _ => rret (Some (Ok tt))
  | TickerFired :: rest => rlet _ := publishBatch owner in publish owner rest
  end.

(** ** Consuming *)

Definition factEventID (payload : string) : string :=
  default "" (unmarshal_struct (fun fs => dec_field dec_string "" "event_id" fs) payload).

(** [json.Valid] payloads are embedded, others carried as base64. *)
Definition dlqBody (payload : string) : json :=
  match json_parse payload with
  | Some j => j
  | None => JStr (StdEncode payload)
  end.

Definition dlq_message (sourceTopic payload reason : string) (at_ : json) : Message :=
  mkMessage "commerce.dlq.v1" "orders"
    (json_text (jmap [("source_topic", jstr sourceTopic); ("consumer_group", jstr consumerGroup);
                      ("payload", dlqBody payload); ("reason", jstr reason);
                      ("quarantined_at", at_)])) ∅.

Definition publishDLQ (sourceTopic payload reason : string) : rM (option goerr) :=
  rlet now := relay_now in
  match jtime now with
  | Err e => rret (Some e)
  | Ok at_ => write (dlq_message sourceTopic payload reason at_)
  end.

(** What follows a failure that was recorded. *)
Definition quarantine (topic payload reason : string) : rM bool :=
  rlet dlqErr := publishDLQ topic payload reason in
  match dlqErr with
  | Some _ => rret false
  | None =>
      let eventID := factEventID payload in
      if (eventID =? "")%string then rret true
      else rlet marked := on_store (rl_MarkFactDeadLetter consumerGroup eventID reason) in
           rret (is_ok marked)
  end.

(** True only after the fact was processed or quarantined. *)
Definition processMessage (topic payload : string) : rM bool :=
  rlet processed := on_store (rl_ProcessFact consumerGroup payload) in
  match processed with
  | Ok _ => rret true
  | Err err =>
      rlet now := relay_now in
      rlet recorded := on_store (rl_RecordFactFailure consumerGroup payload (ErrorText err)
                                   (Add now (inboxBackoff 1))) in
      match recorded with
      | Err _ => rret false
      | Ok (dlq, _) => if dlq then quarantine topic payload (ErrorText err) else rret false
      end
  end.

(** [reader.CommitMessages] *)
Definition commit_offset (payload : string) : rM bool := fun r =>
  if commit_at (r_tick r)
  then (mkRelay (r_store r) (r_log r) (r_committed r ++ [payload])%list (r_tick r + 1)%nat, true)
  else (mkRelay (r_store r) (r_log r) (r_committed r) (r_tick r + 1)%nat, false).
Definition check_ctx : rM bool := fun r =>
  (mkRelay (r_store r) (r_log r) (r_committed r) (r_tick r + 1)%nat, ctx_done (r_tick r)).

(** [sleepWithContext]: false when the context was done first. *)
Definition sleepWithContext : rM bool := fun r =>
  (mkRelay (r_store r) (r_log r) (r_committed r) (r_tick r + 1)%nat, negb (ctx_done (r_tick r))).

(** One fetched message: tried until it is settled and its offset committed,
    or the context is done.  [None] when the attempts given run out. *)
Fixpoint settle (fuel : nat) (topic payload : string) : rM (option bool) :=
  match fuel with
  | O => rret None
  | Datatypes.S fuel =>
      rlet stop := check_ctx in
      if stop then rret (Some false)
      else
        rlet fin := processMessage topic payload in
        if fin then
          rlet ok := commit_offset payload in
          if ok then rret (Some true)
          else rlet slept := sleepWithContext in
               if slept then settle fuel topic payload else rret (Some false)
        else settle fuel topic payload
  end.

(** The outcomes of [reader.FetchMessage] in order: a message's value, or an
    error ([None]).  A later message is fetched only after the one before is
    committed. *)
Fixpoint consumeMessages (fuel : nat) (topic : string) (fetched : list (option string))
  : rM (option bool) :=
  match fetched with
  | [] => rret (Some true)
  | None :: rest =>
      rlet stop := check_ctx in
      if stop then rret (Some false)
      else rlet slept := sleepWithContext in
           if slept then consumeMessages fuel topic rest else rret (Some false)
  | Some payload :: rest =>
      rlet settled := settle fuel topic payload in
      match settled with
      | Some true =>
          rlet stop := check_ctx in
          if stop then rret (Some false) else consumeMessages fuel topic rest
      | other => rret other
      end
  end.
End Relay.

(** The PostgreSQL store behind the interface. *)
Definition pg_relay_store `{GoLib} `{Crypto} `{Env} `{Pg} `{KeySetHTTP} (st : Store)
  : relayStore (St DB QuoteCache) := {|
  rl_ClaimPendingOutbox := OrdersStore.ClaimPendingOutbox;
  rl_MarkOutboxFailed := OrdersStore.MarkOutboxFailed;
  rl_MarkOutboxPublished := OrdersStore.MarkOutboxPublished;
  rl_ProcessFact := ProcessFact st;
  rl_RecordFactFailure := RecordFactFailure;
  rl_MarkFactDeadLetter := MarkFactDeadLetter
|}.
