(* ===== verification/OrdersRelayFacts.v ===== *)
(** * Orders: what the relay guarantees

    Offsets are committed in order and only for settled messages; an outbox row
    is marked published only when its message was written; leases are
    exclusive; a fact that keeps failing is quarantined. *)
From Stdlib Require Import ZArith Lia Ascii String.
From stdpp Require Import base gmap strings list relations pretty.
From S2P Require Import Prelude GoStrings GoErrors GoTime GoJson GoBase64 GoCrypto OrdersDomain.
From S2P Require Import Tx OrdersTables OrdersPorts OrdersQuote OrdersStore OrdersSaga.
From S2P Require Import OrdersHistory OrdersSagaFacts OrdersService OrdersRelay.

Open Scope string_scope.
Open Scope Z_scope.
Open Scope go_scope.

Definition RSt : Type := RelaySt (St DB QuoteCache).

Section RelayFacts.
Context `{GoLib} `{Crypto} `{Env} `{Pg} `{KeySetHTTP} `{RelayEnv} (st : Store).

#[local] Existing Instance pg_relay_store.
#[local] Instance the_store : relayStore (St DB QuoteCache) := pg_relay_store st.

Lemma rbind_run {A B} (m : @rM (St DB QuoteCache) A) (k : A -> rM B) r r' b :
  rbind m k r = (r', b) <-> exists r1 a, m r = (r1, a) /\ k a r1 = (r', b).
Proof.
  unfold rbind. destruct (m r) as [r1 a] eqn:Hm. split.
  - intros Hk. eauto.
  - by intros (r2 & a2 & [= <- <-] & Hk).
Qed.

(** ** Relations kept by a relay program *)

Definition keeps (R : relation RSt) {A} (m : rM A) : Prop :=
  forall r r' a, m r = (r', a) -> R r r'.

Section Keeps.
Context (R : relation RSt) `{!Reflexive R} `{!Transitive R}.
Lemma keeps_ret {A} (a : A) : keeps R (rret a).
Proof. intros r r' b [= <- _]. reflexivity. Qed.
Lemma keeps_bind {A B} (m : rM A) (k : A -> rM B) :
  keeps R m -> (forall a, keeps R (k a)) -> keeps R (rbind m k).
Proof.
  intros Hm Hk r r' b (r1 & a & Hr1 & Hr2)%rbind_run. etransitivity; [by eapply Hm | by eapply Hk].
Qed.
End Keeps.

(** The tables move by store operations; Kafka's log and the committed offsets
    only grow. *)
Record relay_evolves (r r' : RSt) : Prop := {
  re_store : rtc (store_step st) (r_store r) (r_store r');
  re_log : r_log r `prefix_of` r_log r'
}.
#[local] Instance relay_evolves_refl : Reflexive relay_evolves.
Proof. intros r. split; [apply rtc_refl | done]. Qed.
#[local] Instance relay_evolves_trans : Transitive relay_evolves.
Proof. intros r1 r2 r3 [] []. split; by etransitivity. Qed.

Definition same_offsets (r r' : RSt) : Prop := r_committed r' = r_committed r.
#[local] Instance same_offsets_refl : Reflexive same_offsets.
Proof. done. Qed.
#[local] Instance same_offsets_trans : Transitive same_offsets.
Proof. unfold same_offsets. intros r1 r2 r3; congruence. Qed.

Lemma on_store_keeps {A} (m : call (St DB QuoteCache) A) :
  (forall s s' a, m s = (s', a) -> store_step st s s') -> keeps relay_evolves (on_store m).
Proof.
  intros Hm r r' a. unfold on_store. destruct (m (r_store r)) as [s x] eqn:Hs.
  intros [= <- _]. split; cbn; [|done]. apply rtc_once. by eapply Hm.
Qed.
Lemma on_store_offsets {A} (m : call (St DB QuoteCache) A) : keeps same_offsets (on_store m).
Proof. intros r r' a. unfold on_store. destruct (m (r_store r)). by intros [= <- _]. Qed.
Lemma relay_now_keeps : keeps relay_evolves relay_now.
Proof. intros r r' a [= <- _]. split; [apply rtc_refl | done]. Qed.
Lemma relay_now_offsets : keeps same_offsets relay_now.
Proof. by intros r r' a [= <- _]. Qed.
Lemma check_ctx_keeps : keeps relay_evolves check_ctx.
Proof. intros r r' a [= <- _]. split; [apply rtc_refl | done]. Qed.
Lemma check_ctx_offsets : keeps same_offsets check_ctx.
Proof. by intros r r' a [= <- _]. Qed.
Lemma sleep_keeps : keeps relay_evolves sleepWithContext.
Proof. intros r r' a [= <- _]. split; [apply rtc_refl | done]. Qed.
Lemma sleep_offsets : keeps same_offsets sleepWithContext.
Proof. by intros r r' a [= <- _]. Qed.
Lemma write_log m (r r' : RSt) (e : option goerr) :
  write m r = (r', e) ->
  r_store r' = r_store r /\ r_committed r' = r_committed r /\ r_log r `prefix_of` r_log r' /\
  (e = None -> m ∈ r_log r').
Proof.
  unfold write. destruct (write_at (r_tick r)); intros [= <- <-]; cbn;
    split_and!; try done; try (by apply prefix_app_r); try by eexists.
  intros _. apply elem_of_app. right. by apply list_elem_of_singleton.
Qed.
Lemma write_keeps m : keeps relay_evolves (write m).
Proof. intros r r' e (Hs & _ & Hl & _)%write_log. split; [rewrite Hs; apply rtc_refl | done]. Qed.
Lemma write_offsets m : keeps same_offsets (write m).
Proof. by intros r r' e (_ & Hc & _)%write_log. Qed.
Lemma commit_keeps p : keeps relay_evolves (commit_offset p).
Proof.
  intros r r' a. unfold commit_offset. destruct (commit_at _); intros [= <- _]; split; cbn; done || apply rtc_refl.
Qed.

Hint Resolve keeps_ret relay_now_keeps relay_now_offsets check_ctx_keeps check_ctx_offsets
  sleep_keeps sleep_offsets write_keeps write_offsets commit_keeps on_store_offsets : relay.

Ltac keep :=
  repeat first [ solve [eauto with relay typeclass_instances]
               | simple apply keeps_bind; [typeclasses eauto| |intros ?]
               | match goal with |- keeps _ (match ?x with _ => _ end) => destruct x end ].

Lemma quarantine_keeps t p e : keeps relay_evolves (quarantine t p e).
Proof.
  unfold quarantine, publishDLQ. keep. apply on_store_keeps. intros ? ? ?. apply op_dead.
Qed.
Lemma quarantine_offsets t p e : keeps same_offsets (quarantine t p e).
Proof. unfold quarantine, publishDLQ. keep. Qed.
Hint Resolve quarantine_keeps quarantine_offsets : relay.

Lemma processMessage_keeps t p : keeps relay_evolves (processMessage t p).
Proof.
  unfold processMessage. keep; apply on_store_keeps; intros ? ? ?; [apply op_process | apply op_failure].
Qed.
Lemma processMessage_offsets t p : keeps same_offsets (processMessage t p).
Proof. unfold processMessage. keep. Qed.
Hint Resolve processMessage_keeps processMessage_offsets : relay.
Lemma settle_keeps fuel t p : keeps relay_evolves (settle fuel t p).
Proof. induction fuel; cbn [settle]; keep. Qed.
Hint Resolve settle_keeps : relay.
Lemma consume_keeps fuel t fetched : keeps relay_evolves (consumeMessages fuel t fetched).
Proof. induction fetched as [|[p|] fetched IH]; cbn [consumeMessages]; keep. Qed.

Lemma publish_rows_keeps rows : keeps relay_evolves (publish_rows rows).
Proof.
  induction rows; cbn [publish_rows]; keep; apply on_store_keeps; intros ? ? ?; [apply op_failed | apply op_published].
Qed.
Hint Resolve publish_rows_keeps : relay.
Lemma publishBatch_keeps owner : keeps relay_evolves (publishBatch owner).
Proof. unfold publishBatch. keep. apply on_store_keeps. intros ? ? ?. apply op_claim. Qed.
Hint Resolve publishBatch_keeps : relay.
Lemma publish_keeps owner wakes : keeps relay_evolves (publish owner wakes).
Proof. induction wakes as [|[|] wakes IH]; cbn [publish]; keep. Qed.

Lemma relay_ok r r' : db_ok (db (r_store r)) -> relay_evolves r r' -> db_ok (db (r_store r')).
Proof. intros Hok [Hs _]. by apply (history_evolves st _ _ Hok Hs). Qed.

(** ** Settled messages *)

(** The fact is recorded with its effects, or quoted on the quarantine topic. *)
Definition handled (topic payload : string) (r : RSt) : Prop :=
  (exists e, parse_fact payload = Some e /\
             settled_fact consumerGroup (f_EventID e) (db (r_store r))) \/
  (exists reason at_, dlq_message topic payload reason at_ ∈ r_log r).

Lemma quarantine_handled t p e r r' :
  quarantine t p e r = (r', true) -> handled t p r'.
Proof.
  unfold quarantine. intros (r1 & dlqErr & Hd & Hk)%rbind_run.
  destruct dlqErr; [by inversion Hk|].
  unfold publishDLQ in Hd. apply rbind_run in Hd as (r2 & now & _ & Hd).
  destruct (jtime now) as [at_|]; [|by inversion Hd].
  apply write_log in Hd as (_ & _ & _ & Hin). specialize (Hin eq_refl). right. exists e, at_.
  destruct (factEventID p =? "")%string; [by injection Hk as <-|].
  apply rbind_run in Hk as (r3 & m & Hm & Hk). injection Hk as <- _.
  unfold on_store in Hm. destruct (rl_MarkFactDeadLetter _ _ _ _). by injection Hm as <- _.
Qed.

Lemma processMessage_handled t p r r' :
  db_ok (db (r_store r)) -> processMessage t p r = (r', true) -> handled t p r'.
Proof.
  intros [Hrows _]. unfold processMessage. intros (r1 & res & Hp & Hk)%rbind_run.
  unfold on_store in Hp. cbn [rl_ProcessFact the_store pg_relay_store] in Hp.
  destruct (ProcessFact st consumerGroup p (r_store r)) as [s x] eqn:Hx. injection Hp as <- <-.
  destruct x as [[]|err].
  - injection Hk as <-. left. cbn. by eapply ProcessFact_settles.
  - apply rbind_run in Hk as (r2 & now & _ & Hk). apply rbind_run in Hk as (r3 & rec & _ & Hk).
    destruct rec as [[[] n]|]; [by eapply quarantine_handled | by inversion Hk | by inversion Hk].
Qed.

Lemma commit_offset_run p (r r' : RSt) (b : bool) :
  commit_offset p r = (r', b) ->
  r_store r' = r_store r /\ r_log r' = r_log r /\
  r_committed r' = (r_committed r ++ (if b then [p] else []))%list.
Proof.
  unfold commit_offset. destruct (commit_at _); intros [= <- <-]; cbn; split_and!; auto.
  by rewrite app_nil_r.
Qed.

Lemma handled_move t p r r' :
  r_store r' = r_store r -> r_log r' = r_log r -> handled t p r -> handled t p r'.
Proof. unfold handled. by intros -> ->. Qed.

(** A message is settled with its offset committed, or not committed at all. *)
Lemma settle_commits fuel t p r r' res :
  db_ok (db (r_store r)) -> settle fuel t p r = (r', res) ->
  (res = Some true -> handled t p r') /\
  r_committed r' = (r_committed r ++ (if bool_decide (res = Some true) then [p] else []))%list.
Proof.
  intros Hok. revert r Hok. induction fuel as [|fuel IH]; intros r Hok; cbn [settle].
  { intros [= <- <-]. cbn. split; [done | by rewrite app_nil_r]. }
  intros (r1 & stop & Hc & Hk)%rbind_run. pose proof (check_ctx_offsets _ _ _ Hc) as Ho1.
  apply check_ctx_keeps, (relay_ok _ _ Hok) in Hc. rewrite <- Ho1.
  destruct stop. { injection Hk as <- <-. cbn. split; [done | by rewrite app_nil_r]. }
  apply rbind_run in Hk as (r2 & fin & Hp & Hk). pose proof (processMessage_offsets _ _ _ _ _ Hp) as Ho2.
  pose proof (relay_ok _ _ Hc (processMessage_keeps _ _ _ _ _ Hp)) as Hok2. rewrite <- Ho2.
  destruct fin; [|by apply IH].
  apply (processMessage_handled _ _ _ _ Hc) in Hp.
  apply rbind_run in Hk as (r3 & ok & Hcm & Hk). apply commit_offset_run in Hcm as (Hs3 & Hl3 & Ho3).
  destruct ok.
  { injection Hk as <- <-. cbn. split; [intros _; by eapply handled_move | done]. }
  rewrite app_nil_r in Ho3. rewrite <- Ho3. rewrite <- Hs3 in Hok2.
  apply rbind_run in Hk as (r4 & slept & Hsl & Hk). pose proof (sleep_offsets _ _ _ Hsl) as Ho4.
  apply sleep_keeps, (relay_ok _ _ Hok2) in Hsl. rewrite <- Ho4.
  destruct slept; [by apply IH | injection Hk as <- <-; cbn; split; [done | by rewrite app_nil_r]].
Qed.

(** Between [r] and [r'] the offsets of [fin] were committed, in this order,
    each in a state in which its message was handled. *)
Record commits_handled (topic : string) (r r' : RSt) (fin : list string) : Prop := {
  ch_offsets : r_committed r' = (r_committed r ++ fin)%list;
  ch_evolves : relay_evolves r r';
  ch_handled i p : fin !! i = Some p ->
    exists ri, relay_evolves r ri /\ relay_evolves ri r' /\ handled topic p ri /\
               r_committed ri = (r_committed r ++ take (S i) fin)%list
}.

Lemma commits_none t r r' : relay_evolves r r' -> same_offsets r r' -> commits_handled t r r' [].
Proof. intros He Ho. split; [by rewrite app_nil_r | done | done]. Qed.
Lemma commits_cons t r r1 r' p fin :
  relay_evolves r r1 -> r_committed r1 = (r_committed r ++ [p])%list -> handled t p r1 ->
  commits_handled t r1 r' fin -> commits_handled t r r' (p :: fin).
Proof.
  intros He Ho Hh [Ho' He' Hf]. rewrite Ho, <- app_assoc in Ho'.
  split; [done | by etransitivity |]. intros [|i] q; cbn [lookup list_lookup take].
  - intros [= <-]. by exists r1.
  - intros (ri & ? & ? & ? & Hc)%Hf. exists ri. rewrite Hc, Ho, <- app_assoc.
    split_and!; try done. by etransitivity.
Qed.
Lemma commits_after t r r1 r' fin :
  relay_evolves r r1 -> same_offsets r r1 -> commits_handled t r1 r' fin ->
  commits_handled t r r' fin.
Proof.
  intros He Ho [Ho' He' Hf]. unfold same_offsets in Ho. rewrite Ho in Ho'.
  split; [done | by etransitivity |]. intros i p (ri & ? & ? & ? & Hc)%Hf. exists ri.
  rewrite <- Ho. split_and!; try done. by etransitivity.
Qed.
End RelayFacts.

(** C11: messages of a topic are committed in the order they are fetched,
    without a gap, and the offset of one is committed only in a state in which
    the fact is recorded as applied or its bytes are on the quarantine topic;
    failures of the store, of Kafka and of the reader notwithstanding. *)
Theorem offsets_follow_effects `{GoLib} `{Crypto} `{Env} `{Pg} `{KeySetHTTP} `{RelayEnv} st
    fuel topic fetched (r r' : RSt) res :
  db_ok (db (r_store r)) ->
  consumeMessages (relayStore0 := pg_relay_store st) fuel topic fetched r = (r', res) ->
  exists fin, fin `prefix_of` omap id fetched /\ commits_handled st topic r r' fin.
Proof.
  intros Hok. revert r Hok.
  induction fetched as [|[p|] fetched IH]; intros r Hok; cbn [consumeMessages].
  - intros [= <- _]. exists []. split; [done|]. by apply commits_none.
  - intros (r1 & fin1 & Hs & Hk)%rbind_run. pose proof (settle_keeps st _ _ _ _ _ _ Hs) as He1.
    pose proof (relay_ok _ _ _ Hok He1) as Hok1.
    apply (settle_commits st) in Hs as [Hh Ho]; [|done].
    destruct (decide (fin1 = Some true)) as [->|Hno].
    2:{ rewrite bool_decide_false, app_nil_r in Ho by done.
        assert (r' = r1) as -> by (destruct fin1 as [[]|]; by inversion Hk).
        exists []. split; [apply prefix_nil|]. by apply commits_none. }
    rewrite bool_decide_true in Ho by done. specialize (Hh eq_refl).
    apply rbind_run in Hk as (r2 & stop & Hc & Hk). pose proof (check_ctx_offsets _ _ _ Hc) as Ho2.
    apply (check_ctx_keeps st) in Hc as He2.
    destruct stop.
    { injection Hk as <- _. exists [p]. split; [cbn; by apply prefix_cons, prefix_nil|].
      apply commits_cons with r1; try done. by apply commits_none. }
    apply IH in Hk as (fin & Hpre & Hcm); [|by eapply relay_ok].
    exists (p :: fin). split; [by apply prefix_cons|].
    apply commits_cons with r1; try done. by apply commits_after with r2.
  - intros (r1 & stop & Hc & Hk)%rbind_run. pose proof (check_ctx_offsets _ _ _ Hc) as Ho1.
    apply (check_ctx_keeps st) in Hc as He1. pose proof (relay_ok _ _ _ Hok He1) as Hok1.
    destruct stop. { injection Hk as <- _. exists []. split; [apply prefix_nil|]. by apply commits_none. }
    apply rbind_run in Hk as (r2 & slept & Hsl & Hk). pose proof (sleep_offsets _ _ _ Hsl) as Ho2.
    apply (sleep_keeps st) in Hsl as He2. pose proof (relay_ok _ _ _ Hok1 He2) as Hok2.
    assert (relay_evolves st r r2) as He by (by eapply relay_evolves_trans).
    assert (same_offsets r r2) as Ho by (unfold same_offsets in *; congruence).
    destruct slept; [|injection Hk as <- _; exists []; split; [apply prefix_nil | by apply commits_none]].
    apply IH in Hk as (fin & Hpre & Hcm); [|done]. exists fin. split; [done|]. by apply commits_after with r2.
Qed.

(** ** Facts that keep failing *)

(** The times a fact's failure was recorded. *)
Definition attempts_of `{GoLib} (p : string) (d : DB) : Z :=
  match parse_fact p with
  | Some e => match inbox_messages d !! (consumerGroup, f_EventID e) with
              | Some row => n_attempts row
              | None => 0
              end
  | None => 0
  end.
Definition unsettled `{GoLib} (p : string) (d : DB) : Prop :=
  forall e, parse_fact p = Some e -> ~ settled_fact consumerGroup (f_EventID e) d.

(** The fact carries what a row of the inbox needs. *)
Definition recordable (e : factEnvelope) : Prop :=
  f_EventID e <> "" /\ f_EventType e <> "" /\ f_CorrelationID e <> "".

(** The fact's row of the inbox: quarantined after [n] recorded failures, the
    last with this reason. *)
Definition quarantined_row `{GoLib} (p reason : string) (n : Z) (d : DB) : Prop :=
  forall e, parse_fact p = Some e -> recordable e ->
  exists row, inbox_messages d !! (consumerGroup, f_EventID e) = Some row /\
    n_status row = "DLQ" /\ n_attempts row = n /\ n_last_error row = Some reason.

Section Poison.
Context `{GoLib} `{Crypto} `{Env} `{Pg} `{KeySetHTTP} `{RelayEnv} (st : Store).

(** Processing fails with the orders, lines, sagas and messages as they are in
    [d], whatever the clock, the cache of keys and the failures recorded. *)
Definition always_fails (p : string) (d : DB) : Prop :=
  forall s, same_but_inbox d (db s) -> unsettled p (db s) ->
  is_ok (snd (ProcessFact st consumerGroup p s)) = false.
(** The reason of such a failure. *)
Definition failure_reason (p : string) (d : DB) (reason : string) : Prop :=
  exists s err, same_but_inbox d (db s) /\ unsettled p (db s) /\
    snd (ProcessFact st consumerGroup p s) = Err err /\ reason = ErrorText err.

Context (Htrip : forall n, trip_at n = TripOk) (Hwrite : forall n, write_at n = TripOk).
Context (Hcommit : forall n, commit_at n = true) (Hctx : forall n, ctx_done n = false).
Context (Hclock : forall n, exists j, jtime (UTC (relay_clock n)) = Ok j).
#[local] Instance poison_store : relayStore (St DB QuoteCache) := pg_relay_store st.

#[local] Instance same_but_inbox_refl : Reflexive same_but_inbox.
Proof. by intros d. Qed.
#[local] Instance same_but_inbox_trans : Transitive same_but_inbox.
Proof. unfold same_but_inbox. intros d1 d2 d3 ? ?. destruct_and!. split_and!; congruence. Qed.

Lemma in_tx_fails {A} f (body : Prog (outcome A)) s s' e :
  in_tx f body s = (s', Err e) -> db s' = db s.
Proof.
  unfold in_tx. rewrite Htrip. destruct (body (advance s)) as [s1 [[a|a]|e1]]; try (by intros [= <- _]).
  rewrite Htrip. discriminate.
Qed.
Lemma ProcessFact_fails g p s s' e : ProcessFact st g p s = (s', Err e) -> db s' = db s.
Proof.
  unfold ProcessFact. destruct (parse_fact p) as [en|]; [|by intros [= <- _]].
  destruct (valid_envelope en); [|by intros [= <- _]].
  destruct (_ && _); [apply in_tx_fails | by intros [= <- _]].
Qed.

(** The relay and the store read the same event id. *)
Lemma factEventID_parsed p e : parse_fact p = Some e -> factEventID p = f_EventID e.
Proof.
  unfold parse_fact, factEventID, unmarshal_struct. destruct (json_parse p) as [j|]; [|done].
  assert (forall fs, dec_fact fs = Some e ->
            default "" (dec_field dec_string "" "event_id" fs) = f_EventID e) as Hid.
  { intros fs. unfold dec_fact. destruct (dec_field dec_string "" "event_id" fs); [cbn|done].
    intros Hd. repeat (apply bind_Some in Hd as (? & _ & Hd)). by injection Hd as <-. }
  cbn [mbind option_bind]. destruct j; try done; apply Hid.
Qed.

Lemma MarkFactDeadLetter_calm id reason s :
  exists s', MarkFactDeadLetter consumerGroup id reason s = (s', Ok tt) /\ same_but_inbox (db s) (db s') /\
    forall row, inbox_messages (db s) !! (consumerGroup, id) = Some row ->
      exists row', inbox_messages (db s') !! (consumerGroup, id) = Some row' /\ n_status row' = "DLQ" /\
        n_attempts row' = n_attempts row /\ n_last_error row' = Some reason.
Proof.
  unfold MarkFactDeadLetter, mapE, exec, stmt. rewrite Htrip. unfold Queries.MarkInboxDeadLetter.
  destruct (inbox_messages (db s) !! (consumerGroup, id)) as [row|] eqn:Hrow;
    (eexists; split_and!; [reflexivity | done|]; cbn).
  - intros ? [= <-]. eexists. split; [apply lookup_insert_eq|]. done.
  - by rewrite Hrow.
Qed.

(** A recorded failure counts one more attempt and leaves the fact unsettled. *)
Lemma RecordInboxFailure_calm p e ty h t c ca reason at_ d :
  parse_fact p = Some e -> attempts_of p d + 1 < 2 ^ 31 ->
  exists d', Queries.RecordInboxFailure consumerGroup (f_EventID e) ty h t c ca reason at_ d =
               Ok (d', (attempts_of p d + 1, "RETRY")) /\ same_but_inbox d d' /\
    attempts_of p d' = attempts_of p d + 1 /\ unsettled p d' /\
    is_Some (inbox_messages d' !! (consumerGroup, f_EventID e)).
Proof.
  intros Hp. unfold attempts_of, unsettled, settled_fact. rewrite Hp. unfold Queries.RecordInboxFailure.
  destruct (inbox_messages d !! (consumerGroup, f_EventID e)) as [row|]; intros Ha.
  - unfold next_integer. rewrite (proj2 (Z.ltb_lt _ _) Ha).
    eexists. split; [reflexivity|]. cbn. rewrite lookup_insert_eq. split_and!; try done.
    intros ? [= <-]. rewrite lookup_insert_eq. by intros (? & [= <-] & [=]).
  - eexists. split; [reflexivity|]. cbn. rewrite lookup_insert_eq. split_and!; try done.
    intros ? [= <-]. rewrite lookup_insert_eq. by intros (? & [= <-] & [=]).
Qed.

(** What follows a failed attempt: the eighth recorded failure, and the first
    of a fact that cannot be recorded, asks for the quarantine. *)
Lemma RecordFactFailure_calm p reason at_ s :
  attempts_of p (db s) + 1 < 2 ^ 31 -> unsettled p (db s) ->
  exists s' dlq n, RecordFactFailure consumerGroup p reason at_ s = (s', Ok (dlq, n)) /\
    same_but_inbox (db s) (db s') /\ unsettled p (db s') /\
    (dlq = false -> attempts_of p (db s') = attempts_of p (db s) + 1 /\ attempts_of p (db s) + 1 < 8) /\
    (dlq = true -> forall e, parse_fact p = Some e -> recordable e -> 8 <= attempts_of p (db s) + 1 /\
       attempts_of p (db s') = attempts_of p (db s) + 1 /\
       is_Some (inbox_messages (db s') !! (consumerGroup, f_EventID e))).
Proof.
  intros Ha Hu. unfold RecordFactFailure. destruct (parse_fact p) as [e|] eqn:Hp.
  2:{ eexists _, true, 0. by split_and!. }
  destruct (_ || _) eqn:Hempty.
  { eexists _, true, 0. split_and!; try done. intros _ ? [= <-] (Hi & Ht & Hc).
    apply String.eqb_neq in Hi, Ht, Hc. by rewrite Hi, Ht, Hc in Hempty. }
  destruct (RecordInboxFailure_calm p e (f_EventType e) (HexEncode (sha256 p)) (UTC (clock_at (tick (advance s))))
    (f_CorrelationID e) (nullString (f_CausationID e)) (Some (take_string 512 reason)) (Some at_) (db s) Hp Ha)
    as (d' & Hq & Hsame & Hn & Hun & Hrow).
  eexists _, _, _. split; [|split_and!].
  - apply in_tx_commits; [done|]. erewrite bind_run by reflexivity.
    erewrite bind_run; [reflexivity|]. apply mapE_run, exec_run; [done|]. apply Hq.
  - exact Hsame.
  - exact Hun.
  - cbn. intros Hlt%Z.leb_gt. done.
  - cbn. intros Hle%Z.leb_le ? [= <-] _. done.
Qed.

Lemma quarantine_calm t p reason r n :
  (forall e, parse_fact p = Some e -> recordable e -> attempts_of p (db (r_store r)) = n /\
     is_Some (inbox_messages (db (r_store r)) !! (consumerGroup, f_EventID e))) ->
  exists r' at_, quarantine t p reason r = (r', true) /\ r_committed r' = r_committed r /\
    r_log r' = (r_log r ++ [dlq_message t p reason at_])%list /\
    same_but_inbox (db (r_store r)) (db (r_store r')) /\ quarantined_row p reason n (db (r_store r')).
Proof.
  intros Hrow. unfold quarantine, publishDLQ. destruct (Hclock (r_tick r)) as [j Hj].
  remember (factEventID p) as id eqn:Hid.
  unfold rbind at 2. cbn. unfold rbind at 1. rewrite Hj. unfold write. rewrite Hwrite. cbn.
  destruct (String.eqb_spec id "") as [Hempty|_].
  { eexists _, j. split_and!; try done. intros e Hp [Hne _].
    by rewrite <- (factEventID_parsed _ _ Hp), <- Hid in Hne. }
  unfold rbind, on_store. cbn.
  destruct (MarkFactDeadLetter_calm id reason (r_store r)) as (s' & -> & Hsame & Hmark).
  eexists _, j. split_and!; try done. intros e Hp Hrec. destruct (Hrow e Hp Hrec) as [Hn [row Hr]].
  rewrite Hid, (factEventID_parsed _ _ Hp) in Hmark. destruct (Hmark row Hr) as (row' & Hr' & Hs' & Ha' & He').
  exists row'. cbn. split_and!; try done. rewrite Ha', <- Hn. unfold attempts_of. by rewrite Hp, Hr.
Qed.

(** One failing attempt: the fact is quarantined, or left with one more attempt. *)
Lemma processMessage_fails t p r :
  always_fails p (db (r_store r)) -> unsettled p (db (r_store r)) ->
  let a := attempts_of p (db (r_store r)) in
  0 <= a -> a + 1 < 2 ^ 31 ->
  exists r' b, processMessage t p r = (r', b) /\ r_committed r' = r_committed r /\
    same_but_inbox (db (r_store r)) (db (r_store r')) /\
    if b then exists reason at_, failure_reason p (db (r_store r)) reason /\
      r_log r' = (r_log r ++ [dlq_message t p reason at_])%list /\
      quarantined_row p reason (Z.max 8 (a + 1)) (db (r_store r'))
    else unsettled p (db (r_store r')) /\ r_log r' = r_log r /\
         attempts_of p (db (r_store r')) = a + 1 /\ a + 1 < 8.
Proof.
  intros Hfail Hu a Hpos Ha. unfold processMessage. unfold rbind at 1, on_store at 1. cbn.
  pose proof (Hfail (r_store r)) as Hf.
  destruct (ProcessFact st consumerGroup p (r_store r)) as [s [[]|err]] eqn:Hp; [by discriminate Hf|]. clear Hf.
  assert (failure_reason p (db (r_store r)) (ErrorText err)) as Hreason
    by (exists (r_store r), err; by rewrite Hp).
  apply ProcessFact_fails in Hp. unfold rbind at 1; cbn. unfold rbind at 1, on_store; cbn.
  subst a. rewrite <- Hp in Ha, Hu, Hpos |- *.
  destruct (RecordFactFailure_calm p (ErrorText err) (Add (UTC (relay_clock (r_tick r))) (inboxBackoff 1)) s Ha Hu)
    as (s' & dlq & n & -> & Hsame & Hu' & Hretry & Hdlq).
  destruct dlq; [|eexists _, false; split_and!; try reflexivity; try done; by apply Hretry].
  match goal with |- context [quarantine t p ?e ?r1] =>
    destruct (quarantine_calm t p e r1 (Z.max 8 (attempts_of p (db s) + 1))) as (r' & at_ & -> & Hc & Hl & Hq & Hrow) end.
  { cbn. intros e He Hrec. destruct (Hdlq eq_refl e He Hrec) as (H8 & -> & Hsome). split; [lia | done]. }
  exists r', true. split_and!; [done | done | by etransitivity|].
  exists (ErrorText err), at_. split_and!; try done. by rewrite <- Hp in Hreason.
Qed.

(** What [settle] leaves of a fact that keeps failing. *)
Definition poisoned (t p : string) (r r' : RSt) : Prop :=
  r_committed r' = (r_committed r ++ [p])%list /\
  same_but_inbox (db (r_store r)) (db (r_store r')) /\
  exists reason at_, failure_reason p (db (r_store r)) reason /\
    r_log r' = (r_log r ++ [dlq_message t p reason at_])%list /\
    quarantined_row p reason (Z.max 8 (attempts_of p (db (r_store r)) + 1)) (db (r_store r')).

Lemma poisoned_later t p r r1 r' :
  same_but_inbox (db (r_store r)) (db (r_store r1)) -> r_committed r1 = r_committed r -> r_log r1 = r_log r ->
  attempts_of p (db (r_store r1)) = attempts_of p (db (r_store r)) + 1 -> attempts_of p (db (r_store r)) + 1 < 8 ->
  poisoned t p r1 r' -> poisoned t p r r'.
Proof.
  intros Hsame Hc Hl Ha Hlt (Hc' & Hs' & reason & at_ & (s & err & Hs1 & Hr) & Hl' & Hq).
  unfold poisoned. rewrite <- Hc, <- Hl. split_and!; [done | by etransitivity|].
  exists reason, at_. split_and!; [|done|].
  - exists s, err. split; [by etransitivity | exact Hr].
  - rewrite Ha in Hq. by replace (Z.max 8 (attempts_of p (db (r_store r)) + 1))
      with (Z.max 8 (attempts_of p (db (r_store r)) + 1 + 1)) by lia.
Qed.

Lemma settle_poison fuel t p r :
  always_fails p (db (r_store r)) -> unsettled p (db (r_store r)) ->
  0 <= attempts_of p (db (r_store r)) -> attempts_of p (db (r_store r)) + 1 < 2 ^ 31 ->
  (0 < fuel)%nat -> 8 - attempts_of p (db (r_store r)) <= Z.of_nat fuel ->
  exists r', settle fuel t p r = (r', Some true) /\ poisoned t p r r'.
Proof.
  revert r. induction fuel as [|fuel IH]; intros r Hfail Hu Hpos Ha Hf Hfuel; [lia|].
  cbn [settle]. unfold rbind at 1, check_ctx. rewrite Hctx.
  match goal with |- context [rbind (processMessage t p) _ ?r1] =>
    destruct (processMessage_fails t p r1 Hfail Hu Hpos Ha) as (r2 & b & Hp & Hc & Hsame & Hb) end.
  unfold rbind at 1. rewrite Hp. cbn in Hc, Hsame, Hb. destruct b.
  - unfold rbind, commit_offset. rewrite Hcommit. eexists. split; [reflexivity|].
    unfold poisoned. cbn. by rewrite Hc.
  - destruct Hb as (Hu2 & Hl2 & Ha2 & Hlt).
    destruct (IH r2) as (r' & -> & Hr'); [|done|lia..|].
    + intros s Hs. apply Hfail. by etransitivity.
    + exists r'. split; [done|]. by eapply poisoned_later.
Qed.
End Poison.

