(* ===== verification/OrdersPublish.v ===== *)
(** * Orders: publishing the outbox

    A row is marked published only when its message was written to Kafka, a
    calm batch publishes every row that is due, leases are exclusive while they
    last, and retries are spaced by a bounded backoff. *)
From Stdlib Require Import ZArith Lia Ascii String.
From stdpp Require Import base gmap strings list relations pretty.
From S2P Require Import Prelude GoStrings GoErrors GoTime GoJson GoBase64 GoCrypto OrdersDomain.
From S2P Require Import Tx OrdersTables OrdersPorts OrdersQuote OrdersStore OrdersSaga.
From S2P Require Import OrdersHistory OrdersSagaFacts OrdersService OrdersRelay OrdersRelayFacts.

Open Scope string_scope.
Open Scope Z_scope.
Open Scope go_scope.

Lemma filter_same {A} (P Q : A -> Prop) `{!forall x, Decision (P x)} `{!forall x, Decision (Q x)} (l : list A) :
  (forall x, x ∈ l -> P x <-> Q x) -> filter P l = filter Q l.
Proof.
  induction l as [|x l IH]; intros Hpq; [done|]. rewrite !filter_cons.
  rewrite (IH ltac:(intros; apply Hpq; set_solver)).
  destruct (Hpq x ltac:(set_solver)). repeat case_decide; tauto.
Qed.

Section Publish.
Context `{GoLib} `{Crypto} `{Env} `{Pg} `{KeySetHTTP} `{RelayEnv} (st : Store).
#[local] Instance publish_store : relayStore (St DB QuoteCache) := pg_relay_store st.

(** The message a row stands for. *)
Definition row_message (x : OutboxRow) : Message := kafka_message (outbox_event x).

Lemma row_message_evolves x x' : outbox_evolves x x' -> row_message x' = row_message x.
Proof. intros []. unfold row_message, kafka_message; cbn. congruence. Qed.

(** Every row marked published has its message in the log. *)
Definition sent (log : list Message) (d : DB) : Prop :=
  forall x, x ∈ outbox_events d -> x_published_at x <> None -> row_message x ∈ log.

(** The rows a batch holds are rows of the table. *)
Definition rows_of (d : DB) (rows : list OutboxEvent) : Prop :=
  Forall (fun row => exists x, x ∈ outbox_events d /\ x_id x = ev_ID row /\
                               row_message x = kafka_message row) rows.

Lemma rows_of_evolves d d' rows :
  db_ok d -> db_evolves d d' -> rows_of d rows -> rows_of d' rows.
Proof.
  intros (_ & Hnd & _) He. destruct (de_outbox _ _ He Hnd) as [_ (old & new & Hd' & HF)].
  intros Hrows. apply (Forall_impl _ _ _ Hrows). intros row (x & Hx & Hid & Hm).
  apply list_elem_of_lookup in Hx as [i Hi].
  destruct (Forall2_lookup_l _ _ _ _ _ HF Hi) as (x' & Hi' & Hev).
  exists x'. rewrite (row_message_evolves _ _ Hev), (xe_id _ _ Hev). split_and!; try done.
  rewrite Hd'. apply elem_of_app. left. by eapply list_elem_of_lookup_2.
Qed.

(** What an automatic statement does to the rows, whatever the reply. *)
Lemma auto_rows {A} f (q : Time -> DB -> result goerr (DB * A)) (s s' : St DB QuoteCache) r :
  mapE f (stmt q) s = (s', r) ->
  db s' = db s \/ exists a, q (db_now_at (tick s)) (db s) = Ok (db s', a).
Proof.
  unfold mapE, stmt. destruct (trip_at (tick s));
    destruct (q (db_now_at (tick s)) (db s)) as [[d a]|]; intros [= <- <-]; cbn; eauto.
Qed.

Lemma update_pending_elem id f l l' x' :
  Queries.update_pending id f l = Ok l' -> x' ∈ l' ->
  x' ∈ l \/ exists x, x ∈ l /\ x_id x = id /\ x_published_at x = None /\ f x = Ok x'.
Proof.
  revert l'; induction l as [|r l IH]; intros l'; cbn; [intros [= <-]; auto|].
  destruct (_ && _) eqn:Hc; [destruct (f r) as [r'|] eqn:Hr; [|done]|];
    (destruct (Queries.update_pending id f l) as [rest|]; [|done]); intros [= <-];
    intros [->|Hin]%elem_of_cons.
  - apply andb_true_iff in Hc as [Hid%String.eqb_eq Hp%bool_decide_eq_true].
    right. exists r. split_and!; auto; set_solver.
  - destruct (IH _ eq_refl Hin) as [?|(x & ? & ?)]; [left; set_solver | right; exists x; set_solver].
  - left. set_solver.
  - destruct (IH _ eq_refl Hin) as [?|(x & ? & ?)]; [left; set_solver | right; exists x; set_solver].
Qed.

Lemma MarkOutboxFailed_sent log i e t s s' r :
  sent log (db s) -> OrdersStore.MarkOutboxFailed i e t s = (s', r) -> sent log (db s').
Proof.
  intros Hsent [->|[a Hq]]%auto_rows; [done|]. unfold Queries.MarkOutboxFailed in Hq.
  destruct (Queries.update_pending _ _ _) as [l|] eqn:Hu; [|done]. injection Hq as Hq _.
  rewrite <- Hq. intros x' Hx' Hpub. cbn in Hx'.
  destruct (update_pending_elem _ _ _ _ _ Hu Hx') as [Hx|(x & _ & _ & Hn & Hf)]; [by apply Hsent|].
  unfold Queries.fail_row in Hf. destruct (next_integer _); [|done]. injection Hf as <-. done.
Qed.

Lemma MarkOutboxPublished_sent log i t s s' r :
  (forall x, x ∈ outbox_events (db s) -> x_id x = i -> row_message x ∈ log) ->
  sent log (db s) -> OrdersStore.MarkOutboxPublished i t s = (s', r) -> sent log (db s').
Proof.
  intros Hi Hsent [->|[a Hq]]%auto_rows; [done|]. unfold Queries.MarkOutboxPublished in Hq.
  destruct (Queries.update_pending _ _ _) as [l|] eqn:Hu; [|done]. injection Hq as Hq _.
  rewrite <- Hq. intros x' Hx' Hpub. cbn in Hx'.
  destruct (update_pending_elem _ _ _ _ _ Hu Hx') as [Hx|(x & Hx & Hid & _ & Hf)]; [by apply Hsent|].
  unfold Queries.publish_row in Hf. destruct (next_integer _); [|done]. injection Hf as <-.
  exact (Hi _ Hx Hid).
Qed.

Lemma sent_mono log log' d : log `prefix_of` log' -> sent log d -> sent log' d.
Proof. intros [k ->] Hs x Hx Hp. apply elem_of_app. left. by apply Hs. Qed.

Lemma on_store_run {A} (m : call (St DB QuoteCache) A) (r r' : RSt) a :
  on_store m r = (r', a) <-> m (r_store r) = (r_store r', a) /\ r_log r' = r_log r /\
                            r_committed r' = r_committed r /\ r_tick r' = r_tick r.
Proof.
  unfold on_store. destruct (m (r_store r)) as [s x]. destruct r' as [s' l c t]; cbn. split.
  - by intros [= <- <- <- <- <-].
  - by intros ([= <- <-] & -> & -> & ->).
Qed.

Lemma publish_rows_sent rows r r' res :
  db_ok (db (r_store r)) -> rows_of (db (r_store r)) rows -> sent (r_log r) (db (r_store r)) ->
  publish_rows rows r = (r', res) -> sent (r_log r') (db (r_store r')).
Proof.
  revert r. induction rows as [|row rows IH]; intros r Hok Hrows Hsent; cbn [publish_rows].
  { by intros [= <- _]. }
  apply Forall_cons in Hrows as [(x & Hx & Hid & Hm) Hrows].
  intros (r1 & err & Hw & Hk)%rbind_run. apply write_log in Hw as (Hs1 & _ & Hl1 & Hin).
  apply (sent_mono _ _ _ Hl1) in Hsent. rewrite <- Hs1 in *. destruct err as [e|].
  - apply rbind_run in Hk as (r2 & now & [= <- <-] & Hk). cbn in *.
    apply rbind_run in Hk as (r3 & marked & Hmk & Hk).
    apply on_store_run in Hmk as (Hmk & Hl3 & _). cbn in Hmk, Hl3.
    pose proof (MarkOutboxFailed_sent _ _ _ _ _ _ _ Hsent Hmk) as Hsent3.
    pose proof (op_failed st _ _ _ _ _ _ Hmk) as Hstep.
    pose proof (store_step_evolves _ _ _ Hok Hstep) as He.
    eapply IH; [| | |exact Hk]; [by eapply db_evolves_ok | by eapply rows_of_evolves | by rewrite Hl3].
  - apply rbind_run in Hk as (r2 & now & [= <- <-] & Hk). cbn in *.
    apply rbind_run in Hk as (r3 & marked & Hmk & Hk).
    apply on_store_run in Hmk as (Hmk & Hl3 & _). cbn in Hmk, Hl3.
    assert (sent (r_log r1) (db (r_store r3))) as Hsent3.
    { eapply MarkOutboxPublished_sent; [|exact Hsent|exact Hmk]. intros y Hy Hyid.
      rewrite (same_row_by_id _ y x (proj1 (proj2 Hok)) Hy Hx) by congruence.
      rewrite Hm. by apply Hin. }
    pose proof (op_published st _ _ _ _ _ Hmk) as Hstep.
    pose proof (store_step_evolves _ _ _ Hok Hstep) as He.
    destruct marked; [|injection Hk as <- _; by rewrite Hl3].
    eapply IH; [| | |exact Hk]; [by eapply db_evolves_ok | by eapply rows_of_evolves | by rewrite Hl3].
Qed.

(** ** Claiming *)

Lemma claim_query o u n now d d' l :
  Queries.ClaimPendingOutbox o u n now d = Ok (d', l) ->
  exists ids, outbox_events d' = map (fun x => if decide (x_id x ∈ ids) then Queries.lease o u x else x)
                                   (outbox_events d) /\
              l = map (Queries.lease o u) (filter (fun x => x_id x ∈ ids) (outbox_events d)) /\
              0 <= n /\
              ids = map x_id (take (Z.to_nat n) (order_by Queries.oldest
                (filter (fun x => Queries.due now x /\ Queries.unleased now x) (outbox_events d)))).
Proof.
  unfold Queries.ClaimPendingOutbox. destruct (limited _ _) as [rows|] eqn:Hl; intros [= <- <-].
  apply limited_ok in Hl as [-> Hn]. eexists. split_and!; [reflexivity | reflexivity | done | reflexivity].
Qed.

Lemma claimed_was_ready o u n now d d' l y :
  NoDup (map x_id (outbox_events d)) ->
  Queries.ClaimPendingOutbox o u n now d = Ok (d', l) -> y ∈ l ->
  exists x, x ∈ outbox_events d /\ y = Queries.lease o u x /\ Queries.due now x /\ Queries.unleased now x /\
            y ∈ outbox_events d'.
Proof.
  intros Hnd (ids & Hd & -> & Hn & Hids)%claim_query.
  intros (x & -> & [Hi Hx]%list_elem_of_filter)%list_elem_of_fmap.
  destruct (claimed_row n now d _ x Hnd ltac:(unfold limited; by rewrite (proj2 (Z.ltb_ge _ _) Hn)) Hx)
    as [Hdue Hfree]; [by rewrite <- Hids|].
  exists x. split_and!; try done. rewrite Hd. apply list_elem_of_fmap. exists x. by rewrite decide_True.
Qed.

Lemma ClaimPendingOutbox_sent log o n u s s' r :
  sent log (db s) -> OrdersStore.ClaimPendingOutbox o n u s = (s', r) -> sent log (db s').
Proof.
  intros Hsent [r1 Hc]%bind_ret_state.
  destruct (auto_rows _ _ _ _ _ Hc) as [->|[a Hq]]; [done|].
  apply claim_query in Hq as (ids & Hd & _). intros x'. rewrite Hd, list_elem_of_fmap.
  intros (x & -> & Hx). case_decide; intros Hp; exact (Hsent x Hx Hp).
Qed.

Lemma ClaimPendingOutbox_run o n u s s' rows :
  OrdersStore.ClaimPendingOutbox o n u s = (s', Ok rows) ->
  exists l, Queries.ClaimPendingOutbox (Some o) (Some u) (wrap_i32 n) (db_now_at (tick s)) (db s)
              = Ok (db s', l) /\ rows = map outbox_event l.
Proof. unfold OrdersStore.ClaimPendingOutbox. intros Hc. run_inv Hc. eauto. Qed.

Lemma claim_rows o n u s s' rows :
  OrdersStore.ClaimPendingOutbox o n u s = (s', Ok rows) -> rows_of (db s') rows.
Proof.
  intros (l & Hq & ->)%ClaimPendingOutbox_run. apply claim_query in Hq as (ids & Hd & -> & _).
  apply Forall_map, Forall_map, Forall_forall. intros x [Hid Hx]%list_elem_of_filter.
  exists (Queries.lease (Some o) (Some u) x). split_and!; [|done|done].
  rewrite Hd. apply list_elem_of_fmap. exists x. by rewrite decide_True.
Qed.

(** ** A batch in which nothing fails *)

Definition pending_ok (d : DB) : Prop :=
  forall x, x ∈ outbox_events d -> x_published_at x = None -> x_attempts x + 1 < 2 ^ 31.
Definition published_id (d : DB) (i : string) : Prop :=
  exists x, x ∈ outbox_events d /\ x_id x = i /\ x_published_at x <> None.

Lemma published_id_evolves d d' i : db_ok d -> db_evolves d d' -> published_id d i -> published_id d' i.
Proof.
  intros (_ & Hnd & _) He (x & Hx & Hid & Hp).
  destruct (de_outbox _ _ He Hnd) as [_ (old & new & Hd' & HF)].
  apply list_elem_of_lookup in Hx as [k Hk].
  destruct (Forall2_lookup_l _ _ _ _ _ HF Hk) as (x' & Hk' & Hev).
  rewrite (xe_published _ _ Hev Hp) in Hk'. exists x. split_and!; try done.
  rewrite Hd'. apply elem_of_app. left. by eapply list_elem_of_lookup_2.
Qed.

Lemma update_pending_total id f l :
  (forall x, x ∈ l -> x_published_at x = None -> exists x', f x = Ok x') ->
  exists l', Queries.update_pending id f l = Ok l' /\
    forall x, x ∈ l -> x_id x = id ->
      exists x', x' ∈ l' /\ (f x = Ok x' \/ (x' = x /\ x_published_at x <> None)).
Proof.
  induction l as [|y l IH]; intros Hf; cbn.
  { exists []. split; [done|]. intros x []%not_elem_of_nil. }
  destruct IH as (l' & -> & Hl'); [intros x Hx; apply Hf; set_solver|].
  destruct (_ && _) eqn:Hc.
  - apply andb_true_iff in Hc as [Hid Hp%bool_decide_eq_true].
    destruct (Hf y) as [y' Hy']; [set_solver | done|]. rewrite Hy'. eexists; split; [reflexivity|].
    intros x [->|Hx]%elem_of_cons Hxid; [exists y'; set_solver|].
    destruct (Hl' x Hx Hxid) as (x' & ? & ?). exists x'. set_solver.
  - eexists; split; [reflexivity|]. intros x [->|Hx]%elem_of_cons Hxid.
    + exists y. split; [set_solver|]. right. split; [done|]. apply andb_false_iff in Hc as [Hc|Hc].
      * apply String.eqb_neq in Hc. done.
      * by apply bool_decide_eq_false in Hc.
    + destruct (Hl' x Hx Hxid) as (x' & ? & ?). exists x'. set_solver.
Qed.

Lemma MarkOutboxPublished_calm i t s :
  (forall n, trip_at n = TripOk) -> pending_ok (db s) ->
  exists s', OrdersStore.MarkOutboxPublished i t s = (s', Ok tt) /\ pending_ok (db s') /\
    forall x, x ∈ outbox_events (db s) -> x_id x = i -> published_id (db s') i.
Proof.
  intros Ht Hp. destruct (update_pending_total i (Queries.publish_row (Some t)) (outbox_events (db s)))
    as (l' & Hu & Hl').
  { intros x Hx Hn. unfold Queries.publish_row, next_integer. specialize (Hp x Hx Hn).
    rewrite (proj2 (Z.ltb_lt _ _) Hp). eauto. }
  exists (set_db (advance s) (set_outbox (db s) l')). split_and!.
  - apply mapE_run, exec_run; [done|]. unfold Queries.MarkOutboxPublished. by rewrite Hu.
  - intros x Hx Hn. cbn in Hx.
    destruct (update_pending_elem _ _ _ _ _ Hu Hx) as [Hx'|(y & _ & _ & _ & Hf)]; [by apply Hp|].
    unfold Queries.publish_row in Hf. destruct (next_integer _); [|done]. injection Hf as <-.
    discriminate Hn.
  - intros x Hx Hid. destruct (Hl' x Hx Hid) as (x' & Hx' & Hor). exists x'. split; [done|].
    destruct Hor as [Hf|[-> Hn]]; [|done]. unfold Queries.publish_row in Hf.
    destruct (next_integer _); [|done]. injection Hf as <-. done.
Qed.

Lemma publish_rows_calm rows r :
  (forall n, trip_at n = TripOk) -> (forall n, write_at n = TripOk) ->
  db_ok (db (r_store r)) -> pending_ok (db (r_store r)) -> rows_of (db (r_store r)) rows ->
  exists r', publish_rows rows r = (r', Ok tt) /\ r_log r' = (r_log r ++ map kafka_message rows)%list /\
    (forall i, published_id (db (r_store r)) i -> published_id (db (r_store r')) i) /\
    (forall row, row ∈ rows -> published_id (db (r_store r')) (ev_ID row)).
Proof.
  intros Ht Hw. revert r. induction rows as [|row rows IH]; intros r Hok Hp Hrows.
  { exists r. cbn. split_and!; auto; [by rewrite app_nil_r | intros row []%not_elem_of_nil]. }
  apply Forall_cons in Hrows as [(x & Hx & Hid & Hm) Hrows].
  pose (r1 := mkRelay (r_store r) (r_log r ++ [kafka_message row])%list (r_committed r) (r_tick r + 1 + 1)%nat).
  destruct (MarkOutboxPublished_calm (ev_ID row) (UTC (relay_clock (r_tick r + 1)%nat)) (r_store r) Ht Hp)
    as (s' & Hmk & Hp' & Hpub).
  pose proof (store_step_evolves st _ _ Hok (op_published st _ _ _ _ _ Hmk)) as He.
  destruct (IH (mkRelay s' (r_log r1) (r_committed r1) (r_tick r1))) as (r' & Hrun & Hlog & Hkeep & Hall).
  { by eapply db_evolves_ok. } { done. } { by eapply rows_of_evolves. }
  exists r'. split_and!.
  - cbn [publish_rows]. unfold rbind at 1. unfold write. rewrite Hw. unfold rbind at 1. cbn.
    unfold rbind, on_store. cbn. rewrite Hmk. exact Hrun.
  - rewrite Hlog. cbn. by rewrite <- app_assoc.
  - intros i Hi. apply Hkeep. cbn. by eapply published_id_evolves.
  - intros row' [->|Hin]%elem_of_cons; [|by apply Hall]. apply Hkeep. cbn. by eapply Hpub.
Qed.
End Publish.

Section Batches.
Context `{GoLib} `{Crypto} `{Env} `{Pg} `{KeySetHTTP} `{RelayEnv} (st : Store).
#[local] Instance batches_store : relayStore (St DB QuoteCache) := pg_relay_store st.

Lemma publishBatch_sent owner r r' res :
  db_ok (db (r_store r)) -> sent (r_log r) (db (r_store r)) ->
  publishBatch owner r = (r', res) -> sent (r_log r') (db (r_store r')).
Proof.
  intros Hok Hsent. unfold publishBatch. intros (r1 & now & [= <- <-] & Hk)%rbind_run.
  apply rbind_run in Hk as (r2 & claimed & Hc & Hk). apply on_store_run in Hc as (Hc & Hl & _).
  cbn in Hc, Hl. pose proof (ClaimPendingOutbox_sent _ _ _ _ _ _ _ Hsent Hc) as Hsent2.
  rewrite <- Hl in Hsent2. destruct claimed as [rows|e]; [|by injection Hk as <- _].
  eapply (publish_rows_sent st); [| |exact Hsent2|exact Hk].
  - eapply db_evolves_ok; [exact Hok|]. eapply (store_step_evolves st); [done|]. by eapply op_claim.
  - by eapply claim_rows.
Qed.

Lemma publish_sent owner wakes r r' res :
  db_ok (db (r_store r)) -> sent (r_log r) (db (r_store r)) ->
  publish owner wakes r = (r', res) -> sent (r_log r') (db (r_store r')).
Proof.
  revert r. induction wakes as [|[|] wakes IH]; intros r Hok Hsent; cbn [publish]; [by intros [= <- _]..|].
  intros (r1 & res1 & Hb & Hk)%rbind_run. eapply IH; [| |exact Hk]; [|by eapply publishBatch_sent].
  eapply relay_ok; [exact Hok|]. by eapply publishBatch_keeps.
Qed.
(** A batch's error does not end the loop. *)
Lemma publish_result owner wakes r r' res : publish owner wakes r = (r', res) ->
  res = if existsb (fun w => match w with CtxDone => true | TickerFired => false end) wakes then Some (Ok tt) else None.
Proof.
  revert r. induction wakes as [|[|] wakes IH]; intros r; cbn [publish existsb orb]; [by intros [= _ <-]..|].
  intros (r1 & res1 & _ & Hk)%rbind_run. by eapply IH.
Qed.
End Batches.

(** C13: the relay never marks an outbox row published without its message,
    with the row's topic, key, payload and headers, having been written to
    Kafka: if that held when [publish] began it holds after any number of
    batches, whatever failed or whichever replies were lost in them; and an
    error in a batch does not end the loop, which returns, without an error,
    only when its context is done. *)
Theorem published_messages_were_sent `{GoLib} `{Crypto} `{Env} `{Pg} `{KeySetHTTP} `{RelayEnv} st
    owner wakes (r r' : RSt) res :
  db_ok (db (r_store r)) -> sent (r_log r) (db (r_store r)) ->
  publish (relayStore0 := pg_relay_store st) owner wakes r = (r', res) ->
  sent (r_log r') (db (r_store r')) /\ db_ok (db (r_store r')) /\
  res = if existsb (fun w => match w with CtxDone => true | TickerFired => false end) wakes then Some (Ok tt) else None.
Proof.
  intros Hok Hsent Hp. split; [by eapply (publish_sent st)|]. split; [|by eapply (publish_result st)].
  eapply (relay_ok st); [exact Hok|]. by eapply (publish_keeps st).
Qed.


(** While a lease lasts the row is leased to no one else: two relays that
    claim one after the other, the second before the first one's lease has
    expired on the database's clock, hold no row in common. *)
Theorem leases_are_exclusive `{GoLib} `{Crypto} `{Env} `{Pg} o1 n1 u1 s1 s1' rows1 o2 n2 u2 s2 s2' rows2 :
  NoDup (map x_id (outbox_events (db s1))) ->
  OrdersStore.ClaimPendingOutbox o1 n1 u1 s1 = (s1', Ok rows1) ->
  db s2 = db s1' ->
  Before (pg_time u1) (db_now_at (tick s2)) = false ->
  OrdersStore.ClaimPendingOutbox o2 n2 u2 s2 = (s2', Ok rows2) ->
  forall row1 row2, row1 ∈ rows1 -> row2 ∈ rows2 -> ev_ID row1 <> ev_ID row2.
Proof.
  intros Hnd (l1 & Hq1 & ->)%ClaimPendingOutbox_run Hd Hexp (l2 & Hq2 & ->)%ClaimPendingOutbox_run.
  intros row1 row2 (y1 & -> & Hy1)%list_elem_of_fmap (y2 & -> & Hy2)%list_elem_of_fmap; cbn.
  rewrite Hd in Hq2. pose proof (ClaimPendingOutbox_side _ _ _ _ _ _ _ Hq1) as Hside.
  destruct (de_outbox _ _ (side_db _ _ Hside) Hnd) as [Hnd' _].
  destruct (claimed_was_ready _ _ _ _ _ _ _ _ Hnd Hq1 Hy1) as (x1 & _ & -> & _ & _ & Hin1).
  destruct (claimed_was_ready _ _ _ _ _ _ _ _ Hnd' Hq2 Hy2) as (x2 & Hin2 & -> & _ & Hfree & _); cbn.
  intros Heq. rewrite (same_row_by_id _ x2 _ Hnd' Hin2 Hin1) in Hfree by done.
  unfold Queries.unleased in Hfree. cbn in Hfree. congruence.
Qed.

(** A batch in which the database and Kafka answer publishes every row
    that is due and not leased to another relay, up to the hundred rows of a
    batch: each one's message is written and the row marked. *)
Theorem calm_batch_publishes_due_rows `{GoLib} `{Crypto} `{Env} `{Pg} `{KeySetHTTP} `{RelayEnv} st
    owner (r : RSt) :
  let now := db_now_at (tick (r_store r)) in
  let ready := filter (fun x => Queries.due now x /\ Queries.unleased now x)
                 (outbox_events (db (r_store r))) in
  (forall n, trip_at n = TripOk) -> (forall n, write_at n = TripOk) ->
  db_ok (db (r_store r)) -> pending_ok (db (r_store r)) -> (length ready <= 100)%nat ->
  exists r', publishBatch (relayStore0 := pg_relay_store st) owner r = (r', Ok tt) /\
    r_log r' = (r_log r ++ map row_message ready)%list /\
    forall x, x ∈ ready -> published_id (db (r_store r')) (x_id x).
Proof.
  intros now ready Ht Hw Hok Hp Hlen.
  destruct (Queries.ClaimPendingOutbox (Some owner) (Some (Add (UTC (relay_clock (r_tick r))) (2 * Minute)))
              (wrap_i32 100) now (db (r_store r))) as [[d l]|e] eqn:Hq.
  2:{ exfalso. unfold Queries.ClaimPendingOutbox, limited in Hq. cbn in Hq. discriminate Hq. }
  set (until := Add _ _) in Hq.
  pose (s1 := set_db (advance (r_store r)) d).
  assert (OrdersStore.ClaimPendingOutbox owner 100 until (r_store r) = (s1, Ok (map outbox_event l))) as Hc.
  { unfold OrdersStore.ClaimPendingOutbox, bind, mapE, stmt. rewrite Ht. fold now. rewrite Hq. done. }
  pose proof (store_step_evolves st _ _ Hok (op_claim st _ _ _ _ _ _ Hc)) as He.
  pose proof (claim_rows _ _ _ _ _ _ Hc) as Hrows.
  pose proof (claim_query _ _ _ _ _ _ _ Hq) as (ids & Hd & Hl & _ & Hids).
  assert (filter (fun x => x_id x ∈ ids) (outbox_events (db (r_store r))) = ready) as Hready.
  { apply filter_same. intros x Hx. split.
    - intros Hin. eapply (claimed_row (wrap_i32 100) now (db (r_store r))); [apply Hok| |exact Hx|].
      + reflexivity.
      + by rewrite <- Hids.
    - intros Hdue. rewrite Hids, take_ge.
      + apply list_elem_of_fmap. exists x. split; [done|].
        apply order_by_elem, list_elem_of_filter. done.
      + rewrite order_by_Permutation. exact Hlen. }
  destruct (publish_rows_calm st (map outbox_event l)
              (mkRelay s1 (r_log r) (r_committed r) (r_tick r + 1)%nat) Ht Hw)
    as (r' & Hrun & Hlog & _ & Hall).
  { by eapply db_evolves_ok. }
  { intros x. cbn. rewrite Hd, list_elem_of_fmap. intros (y & -> & Hy).
    case_decide; cbn; exact (Hp y Hy). }
  { done. }
  exists r'. split_and!.
  - unfold publishBatch. unfold rbind at 1. cbn. unfold rbind, on_store. cbn.
    fold until. rewrite Hc. exact Hrun.
  - rewrite Hlog, Hl, Hready. cbn. by rewrite !map_map.
  - intros x Hx. apply (Hall (outbox_event (Queries.lease (Some owner) (Some until) x))).
    rewrite Hl, Hready, map_map. apply list_elem_of_fmap. eauto.
Qed.

Lemma update_pending_hit id f l l' x :
  Queries.update_pending id f l = Ok l' -> x ∈ l -> x_id x = id -> x_published_at x = None ->
  exists x', x' ∈ l' /\ f x = Ok x'.
Proof.
  intros Hu Hx Hid Hp. revert l' Hu. induction l as [|y l IH]; intros l'; cbn; [set_solver|].
  apply elem_of_cons in Hx as [->|Hx].
  - rewrite Hid, String.eqb_refl, bool_decide_true by done; cbn.
    destruct (f y) as [y'|] eqn:Hy; [|done]. destruct (Queries.update_pending id f l); [|done].
    intros [= <-]. exists y'. set_solver.
  - destruct (if _ && _ then _ else _) as [y'|]; [|done].
    destruct (Queries.update_pending id f l) as [k|]; [|done]. intros [= <-].
    destruct (IH Hx k eq_refl) as (x' & ? & ?). exists x'. set_solver.
Qed.

Lemma outboxBackoff_cases a :
  exists i, (i < 8)%nat /\ delays !! i = Some (outboxBackoff a) /\ i = Nat.min 7 (Z.to_nat a).
Proof.
  unfold outboxBackoff. exists (Nat.min 7 (Z.to_nat a)). split; [lia|]. split; [|done].
  destruct (Z.ltb_spec a 0).
  - replace (Z.to_nat a) with 0%nat by lia. done.
  - change (Z.of_nat (length delays)) with 8. destruct (Z.leb_spec 8 a).
    + by replace (Nat.min 7 (Z.to_nat a)) with 7%nat by lia.
    + assert (a = 0 \/ a = 1 \/ a = 2 \/ a = 3 \/ a = 4 \/ a = 5 \/ a = 6 \/ a = 7) as Ha by lia.
      by destruct Ha as [-> | [-> | [-> | [-> | [-> | [-> | [-> | ->]]]]]]].
Qed.

Lemma delays_sorted i j x y :
  (i <= j)%nat -> delays !! i = Some x -> delays !! j = Some y -> Second <= x <= y /\ y <= 30 * Minute.
Proof.
  unfold delays, Minute, Second. intros Hij Hx Hy.
  do 8 (destruct i as [|i]; [cbn in Hx; injection Hx as <-;
    do 8 (destruct j as [|j]; [cbn in Hy; injection Hy as <-; lia|]); discriminate Hy|]).
  discriminate Hx.
Qed.

(** Retries are spaced: every backoff is between one second and half an
    hour and grows with the attempts, and a row whose write failed is not
    handed out again before the backoff of its attempts has passed on the
    database's clock. *)
Theorem failed_rows_wait_for_their_backoff `{GoLib} `{Crypto} `{Env} `{Pg} row reason now s s' :
  NoDup (map x_id (outbox_events (db s))) ->
  row ∈ outbox_events (db s) -> x_published_at row = None ->
  OrdersStore.MarkOutboxFailed (x_id row) reason (Add now (outboxBackoff (x_attempts row))) s = (s', Ok tt) ->
  (forall a b, a <= b -> Second <= outboxBackoff a <= outboxBackoff b /\ outboxBackoff b <= 30 * Minute) /\
  (forall s2 s2' owner n u rows, db s2 = db s' ->
     Before (db_now_at (tick s2)) (pg_time (Add now (outboxBackoff (x_attempts row)))) = true ->
     OrdersStore.ClaimPendingOutbox owner n u s2 = (s2', Ok rows) ->
     forall ev, ev ∈ rows -> ev_ID ev <> x_id row).
Proof.
  intros Hnd Hrow Hpend Hm. split.
  { intros a b Hab. destruct (outboxBackoff_cases a) as (i & _ & Hx & ->).
    destruct (outboxBackoff_cases b) as (j & _ & Hy & ->). eapply delays_sorted; [|exact Hx|exact Hy]. lia. }
  unfold OrdersStore.MarkOutboxFailed in Hm. run_inv Hm. pose proof (MarkOutboxFailed_side _ _ _ _ _ _ Hq) as Hside.
  destruct (de_outbox _ _ (side_db _ _ Hside) Hnd) as [Hnd' _].
  unfold Queries.MarkOutboxFailed in Hq.
  destruct (Queries.update_pending _ _ _) as [l|] eqn:Hu; [|done]. injection Hq as <-.
  destruct (update_pending_hit _ _ _ _ _ Hu Hrow eq_refl Hpend) as (x' & Hx' & Hf).
  unfold Queries.fail_row in Hf. destruct (next_integer _); [|done]. injection Hf as Hf.
  intros s2 s2' owner n u rows Hd Hearly (lq & Hq & ->)%ClaimPendingOutbox_run ev.
  intros (y & -> & Hy)%list_elem_of_fmap. rewrite Hd in Hq.
  destruct (claimed_was_ready _ _ _ _ _ _ _ _ Hnd' Hq Hy) as (x & Hx & -> & [_ Hdue] & _); cbn.
  intros Hid. rewrite (same_row_by_id _ x x' Hnd' Hx Hx') in Hdue by (rewrite <- Hf; exact Hid).
  rewrite <- Hf in Hdue. unfold After in Hdue. cbn in Hdue. unfold Before in Hearly. congruence.
Qed.
