(* ===== verification/OrdersProcess.v ===== *)
(** * Orders: the processes

    [apps/orders/cmd/api/main.go], [cmd/migrate/main.go] and
    [cmd/relay/main.go]: what each [run] puts together, in which order it opens
    and closes, and what is true of a process that came to serve. *)
From Stdlib Require Import ZArith Lia Ascii String.
From stdpp Require Import base gmap strings list.
From S2P Require Import Prelude GoStrings GoErrors GoTime GoHttp GoProcess Tx.
From S2P Require Import OrdersPorts OrdersQuote OrdersStore OrdersAuth OrdersConfig OrdersRelay.

Open Scope string_scope.
Open Scope Z_scope.
Open Scope go_scope.

(** ** The pieces *)

(** [NewStoreWithQuoteVerifierAndCursor] *)
Definition NewStoreWithQuoteVerifierAndCursor (verifier : option string) (cursorSecret : string) : Store :=
  mkStore verifier cursorSecret.
(** [apporders.NewService], by which ports are there. *)
Definition OrdersService_New (store ids clock : bool) : result goerr unit :=
  if negb store || negb ids || negb clock then Err ErrInvalidDependency else Ok tt.
(** [NewApplicationServer] and [buildServer], by which parts are there: the
    refusals. *)
Definition buildServer (metricsPath : string) (health : bool) : result goerr unit :=
  if negb health then Err (NewErr "Orders health service is required")
  else if negb (metricsPath =? "/metrics")%string then Err (NewErr "Orders metrics path must be /metrics")
  else Ok tt.
Definition NewApplicationServer (metricsPath : string) (health service authenticator : bool) : result goerr unit :=
  if negb service || negb authenticator then Err (NewErr "Orders application and authenticator are required")
  else buildServer metricsPath health.

(** ** The API *)

Record OrdersAPI := mkOrdersAPI {
  api_config : Config;
  api_store : Store;
  api_authenticator : GatewayAuthenticator;
  api_dependencies : list string
}.

Section Run.
Context `{GoLib} `{DurationLib} `{Host}.

Definition orders_run (source : Source) : Proc unit :=
  plet cfg := plift (Load source) in
  plet _ := acquire "telemetry" in
  plet _ := acquire "postgresql" in
  let store := NewStoreWithQuoteVerifierAndCursor None (CursorSecret cfg) in
  plet _ := plift (OrdersService_New true true true) in
  plet authenticator := plift (NewGatewayAuthenticator (GatewayServiceToken cfg) (GatewayJWKSURL cfg)
                                 (GatewayIssuer cfg) (GatewayAudience cfg) (GatewaySubject cfg)) in
  plet _ := hold "signals" in
  plet _ := plift (NewApplicationServer (MetricsPath cfg) true true true) in
  serve_until_signal (mkOrdersAPI cfg store authenticator ["postgresql"]).

#[export] Instance orders_run_disciplined source : Disciplined (orders_run source).
Proof. unfold orders_run. apply _. Qed.

(** ** Migrations *)

(** [os.Getenv]: empty when unset. *)
Definition Getenv (source : Source) (key : string) : string := default "" (source key).

(** [migrate dir] stands for [database.Migrate(deadline, dir)]. *)
Definition migrate_run (migrate : string -> result goerr unit) (source : Source) : Proc (W := string) unit :=
  let databaseURL := Getenv source "ORDERS_DATABASE_URL" in
  plet _ := plift (if (databaseURL =? "")%string then Err (NewErr "ORDERS_DATABASE_URL is required") else Ok tt) in
  let migrationsPath := Getenv source "ORDERS_MIGRATIONS_PATH" in
  let migrationsPath := if (migrationsPath =? "")%string then "database/orders/migrations" else migrationsPath in
  plet _ := acquire "postgresql" in
  plet _ := hold "signals" in
  plet _ := hold "deadline" in
  plet _ := emit (Serving migrationsPath) in
  plift (migrate migrationsPath).

(** ** The relay *)

Record RelayProcess := mkRelayProcess {
  rp_config : Config;
  rp_store : Store;
  rp_brokers : list string;
  rp_sasl : option (string * string);   (* with TLS 1.2 or newer, or neither *)
  rp_owner : string
}.
Definition relay_topics : list string :=
  ["commerce.inventory.events.v1"; "commerce.payment.events.v1"; "commerce.fulfillment.events.v1"].
Definition kafka_transport (cfg : Config) : option (string * string) :=
  if KafkaTLS cfg then Some (KafkaSASLUsername cfg, KafkaSASLPassword cfg) else None.

Fixpoint spawn_consumers (topics : list string) : Proc (W := RelayProcess) unit :=
  match topics with
  | [] => pret tt
  | t :: rest => plet _ := emit (Spawned ("consume " +:+ t)) in spawn_consumers rest
  end.

(** [uuid_] is the text of [uuid.NewString]; [result_] what [publish] returned. *)
Definition relay_run (uuid_ : string) (result_ : result goerr unit) (source : Source) : Proc (W := RelayProcess) unit :=
  plet cfg := plift (Load source) in
  plet _ := plift (if (TrimSpace (KafkaBrokers cfg) =? "")%string
                   then Err (NewErr "ORDERS_KAFKA_BROKERS is required for relay") else Ok tt) in
  plet _ := acquire "postgresql" in
  plet _ := hold "signals" in
  let store := NewStoreWithQuoteVerifierAndCursor (Some (InventoryJWKSURL cfg)) (CursorSecret cfg) in
  let relay := mkRelayProcess cfg store (splitBrokers (KafkaBrokers cfg)) (kafka_transport cfg)
                 ("orders-relay-" +:+ uuid_) in
  plet _ := spawn_consumers relay_topics in
  plet _ := emit (Serving relay) in
  plet _ := emit (Did "stop") in
  plet _ := emit (Did "consumers.Wait") in
  plet _ := emit (Did "closeWriters") in
  plift result_.

#[export] Instance migrate_run_disciplined migrate source : Disciplined (migrate_run migrate source).
Proof. unfold migrate_run. apply _. Qed.
#[export] Instance spawn_consumers_disciplined topics : Disciplined (spawn_consumers topics).
Proof. induction topics; cbn [spawn_consumers]; apply _. Qed.
#[export] Instance spawn_consumers_silent topics : Silent (spawn_consumers topics).
Proof. induction topics; cbn [spawn_consumers]; apply _. Qed.
#[export] Instance relay_run_disciplined u res source : Disciplined (relay_run u res source).
Proof. unfold relay_run. apply _. Qed.
End Run.

(** An Orders API that serves was put together as its configuration says: its
    store signs cursors with the configured secret and verifies no quotes, its
    callers are checked with the configured Gateway settings, readiness is
    PostgreSQL's, and outside development the configuration is safe, so that an
    API has no static token.  However [run] ends, everything it opened is
    closed in the opposite order, after the last thing it did. *)
Theorem orders_api_serves_its_configuration `{GoLib} `{DurationLib} `{Host} source t r :
  run_process (orders_run source) = (t, r) ->
  (exists body, t = (body ++ map Closed (rev (opened body)))%list /\ existsb is_close body = false) /\
  forall a, serves (orders_run source) (mkPSt [] [] 0) a ->
    let cfg := api_config a in
    servings t = [a] /\ Load source = Ok cfg /\ api_store a = mkStore None (CursorSecret cfg) /\
    api_authenticator a = mkGatewayAuthenticator (GatewayServiceToken cfg) (GatewayJWKSURL cfg) (GatewayIssuer cfg)
                            (GatewayAudience cfg) (GatewaySubject cfg) /\
    api_dependencies a = ["postgresql"] /\
    (Environment cfg <> "development" -> deployed_safely cfg).
Proof.
  intros Hr. split; [by eapply run_process_closes; [apply orders_run_disciplined|]|]. intros a Ha.
  pose proof (served_once _ _ _ _ Ha Hr) as Hone. clear Hr. unfold orders_run in Ha. rename Ha into Hg.
  served_step Hg Hone s1 cfg E1. served_step Hg Hone s2 u2 E2. served_step Hg Hone s3 u3 E3.
  served_step Hg Hone s4 u4 E4. served_step Hg Hone s5 au E5. served_step Hg Hone s6 u6 E6.
  served_step Hg Hone s7 u7 E7. apply serves_now in Hg. subst a.
  apply plift_ok in E1 as [_ Hload], E5 as [_ Hau]. cbn [api_config api_store api_authenticator api_dependencies].
  unfold NewGatewayAuthenticator in Hau. destruct (_ && _) in Hau; [done|]. injection Hau as <-.
  split_and!; try done. by apply deployed_configuration_is_safe with source.
Qed.

(** A relay that publishes was put together as its configuration says; outside
    development, in the relay's role, it speaks to Kafka over TLS with its own
    credentials.  It stops in order: publishing first, then the consumers, then
    the writers, then the database. *)
Theorem orders_relay_serves_its_configuration `{GoLib} `{DurationLib} `{Host} u res source t r :
  run_process (relay_run u res source) = (t, r) ->
  (exists body, t = (body ++ map Closed (rev (opened body)))%list /\ existsb is_close body = false) /\
  forall p, serves (relay_run u res source) (mkPSt [] [] 0) p ->
    let cfg := rp_config p in
    t = [Opened "postgresql"; Opened "signals"; Spawned "consume commerce.inventory.events.v1";
         Spawned "consume commerce.payment.events.v1"; Spawned "consume commerce.fulfillment.events.v1";
         Serving p; Did "stop"; Did "consumers.Wait"; Did "closeWriters"; Closed "signals"; Closed "postgresql"] /\
    r = res /\ Load source = Ok cfg /\ rp_store p = mkStore (Some (InventoryJWKSURL cfg)) (CursorSecret cfg) /\
    rp_brokers p = splitBrokers (KafkaBrokers cfg) /\
    (Environment cfg <> "development" -> deployed_safely cfg /\
       (Role cfg = "relay" -> exists user pw, rp_sasl p = Some (user, pw) /\ blank user = false /\ blank pw = false)).
Proof.
  intros Hr. split; [by eapply run_process_closes; [apply relay_run_disciplined|]|]. intros p Hg.
  unfold run_process, relay_run in Hr. unfold relay_run in Hg.
  served_step Hg Hr s1 cfg E1. served_step Hg Hr s2 u2 E2. served_step Hg Hr s3 u3 E3. served_step Hg Hr s4 u4 E4.
  served_step Hg Hr s5 u5 E5. apply serves_then in Hg; [|apply _]. subst p.
  apply plift_ok in E1 as [-> Hload], E2 as [-> _]. unfold acquire in E3. destruct (host_fails _ _); [done|].
  injection E3 as <-. injection E4 as <-. injection E5 as <-. cbn in Hr. injection Hr as <- <-.
  cbn [rp_config rp_store rp_brokers rp_sasl]. split_and!; try done.
  intros Hdep. pose proof (deployed_configuration_is_safe _ _ Hload Hdep) as Hs. split; [done|]. intros Hrole.
  destruct (ds_relay _ Hs Hrole) as (Htls & Hu & Hpw & _). unfold kafka_transport. rewrite Htls. by eexists _, _.
Qed.

(** ** On concrete settings *)

Section Examples.
#[local] Existing Instance ascii_lib.
#[local] Instance plain_durations : DurationLib := {| fraction_duration := fun _ => None |}.
#[local] Instance calm_host : Host := {| host_fails := fun _ _ => None; host_signalled := fun _ => true |}.
(** A host whose database cannot be opened. *)
Definition no_database : Host :=
  {| host_fails := fun what _ => if (what =? "postgresql")%string then Some (NewErr "refused") else None;
     host_signalled := fun _ => true |}.

Definition relay_source : Source := fun key =>
  if (key =? "ORDERS_ROLE")%string then Some "relay"
  else if (key =? "ORDERS_KAFKA_BROKERS")%string then Some "k1:9092, k2:9092"
  else if (key =? "ORDERS_KAFKA_TLS")%string then Some "true"
  else if (key =? "ORDERS_KAFKA_SASL_USERNAME")%string then Some "orders"
  else if (key =? "ORDERS_KAFKA_SASL_PASSWORD")%string then Some "pw"
  else staging_source key.
Definition only_separators : Source := fun key =>
  if (key =? "ORDERS_KAFKA_BROKERS")%string then Some "," else None.

Example orders_api_starts_and_stops :
  exists a, run_process (orders_run staging_source) =
    ([Opened "telemetry"; Opened "postgresql"; Opened "signals"; Serving a; ShutDown;
      Closed "signals"; Closed "postgresql"; Closed "telemetry"], Ok tt) /\ Environment (api_config a) = "staging".
Proof. eexists. split; vm_compute; reflexivity. Qed.
Example orders_api_without_database :
  run_process (@orders_run ascii_lib plain_durations no_database staging_source) =
    ([Opened "telemetry"; Closed "telemetry"], Err (NewErr "refused")).
Proof. vm_compute. reflexivity. Qed.
Example relay_starts : exists p, serves (relay_run "u" (Ok tt) relay_source) (mkPSt [] [] 0) p /\
  rp_brokers p = ["k1:9092"; "k2:9092"] /\ rp_sasl p = Some ("orders", "pw").
Proof. eexists. split_and!; vm_compute; reflexivity. Qed.
(** Brokers that are only separators pass the check for an empty setting, and
    the relay starts its readers with no broker. *)
Fact separators_are_no_brokers : exists p, serves (relay_run "u" (Ok tt) only_separators) (mkPSt [] [] 0) p /\ rp_brokers p = [].
Proof. eexists. split_and!; vm_compute; reflexivity. Qed.
Example migrations_need_a_database : run_process (migrate_run (fun _ => Ok tt) (fun _ => None)) =
  ([], Err (NewErr "ORDERS_DATABASE_URL is required")).
Proof. reflexivity. Qed.
End Examples.

(** ** Writers *)

(** A topic has one writer from its first use on, and at the end every writer
    that was made is closed. *)
Lemma writer_is_kept topic ws ws' w : writer topic ws = (ws', w) ->
  writer topic ws' = (ws', w) /\ (forall t v, ws !! t = Some v -> ws' !! t = Some v) /\
  (closeWriters ws') !! topic = Some (mkKafkaWriter (kw_topic w) (kw_number w) true).
Proof.
  unfold writer, closeWriters. destruct (ws !! topic) as [v|] eqn:Hv; intros [= <- <-]; rewrite lookup_fmap.
  - by rewrite Hv.
  - rewrite !lookup_insert_eq. split_and!; try done. intros t v Ht.
    rewrite lookup_insert_ne by congruence. done.
Qed.
