(* ===== verification/GatewayOrders.v ===== *)
(** * From the Gateway to Orders

    The headers the Gateway's client writes ([upstream.go]) are the ones Orders
    reads ([auth.go]): the actor the Gateway authorized is the actor Orders acts
    for.  The credential is where the two disagree: the scopes the Gateway asks
    Identity for by default are none of those Orders wants of the Gateway. *)
From Stdlib Require Import ZArith Lia Ascii String.
From stdpp Require Import base gmap strings list sorting.
From S2P Require Import Prelude GoStrings GoErrors GoTime GoURL GoHttp.
From S2P Require Import OrdersDomain OrdersPorts OrdersAuth.
From S2P Require Import GatewayDomain GatewayService GatewayUpstream GatewayConfig.

Open Scope string_scope.
Open Scope Z_scope.

(** ** Normalized actors stay as they are *)

Lemma scope_char_plain c : is_scope_char c = true -> plain_byte c.
Proof. destruct c as [[] [] [] [] [] [] [] []]; vm_compute; done. Qed.

Lemma scope_plain s : MatchString scopePattern s = true -> plain s /\ s <> "".
Proof.
  unfold MatchString, scopePattern. rewrite match_bytes_spec by done. intros (Hs & Hlen & _)%matches_Rep.
  split; [|by intros ->; cbn in Hlen; lia]. eapply Forall_impl; [exact Hs|]. apply scope_char_plain.
Qed.

Section Normal.
Context `{GoLib}.

Lemma unique_trimmed_nodup values : forall seen,
  NoDup (unique_trimmed seen values) /\ Forall (fun v => v ∉ seen) (unique_trimmed seen values).
Proof.
  induction values as [|v rest IH]; intros seen; cbn; [by repeat constructor|].
  destruct (_ || _) eqn:Hb; [apply IH|]. apply orb_false_iff in Hb as [_ Hb%bool_decide_eq_false].
  destruct (IH (TrimSpace v :: seen)) as [Hnd Hout]. split.
  - constructor; [|done]. intros Hin. rewrite Forall_forall in Hout. apply Hout in Hin. set_solver.
  - constructor; [done|]. eapply Forall_impl; [exact Hout|]. set_solver.
Qed.
Lemma unique_trimmed_same values : forall seen,
  Forall (fun v => plain v /\ v <> "") values -> NoDup values -> Forall (fun v => v ∉ seen) values ->
  unique_trimmed seen values = values.
Proof.
  induction values as [|v rest IH]; intros seen Hp Hnd Hout; cbn; [done|].
  apply Forall_cons in Hp as [[Hv Hne] Hp]. apply NoDup_cons in Hnd as [Hnin Hnd]. apply Forall_cons in Hout as [Hs Hout].
  rewrite TrimSpace_plain by done. rewrite (proj2 (String.eqb_neq _ _) Hne), bool_decide_eq_false_2 by done. cbn [orb].
  rewrite IH; [done | done | done|]. apply Forall_forall. intros x Hx.
  rewrite Forall_forall in Hout. specialize (Hout x Hx). set_solver.
Qed.

(** Normalizing plain words a second time changes nothing. *)
Lemma uniqueSorted_again values :
  Forall (fun v => plain v /\ v <> "") (uniqueSorted values) -> uniqueSorted (uniqueSorted values) = uniqueSorted values.
Proof.
  intros Hp. unfold uniqueSorted at 1. rewrite unique_trimmed_same.
  - apply order_by_fixed, order_by_total, String.leb_total.
  - done.
  - unfold uniqueSorted. rewrite order_by_Permutation. apply unique_trimmed_nodup.
  - apply Forall_forall. set_solver.
Qed.
End Normal.

(** ** The hop *)

(** Injecting the trace context touches no other header. *)
Definition injects_trace_only `{UpstreamEnv} : Prop :=
  forall h k, k ∈ ["Authorization"; "X-StreamWeave-Actor-ID"; "X-StreamWeave-Actor-Type"; "X-StreamWeave-Scopes"; "X-Request-ID"; "X-Correlation-ID"] ->
    otel_inject h !! CanonicalHeaderKey k = h !! CanonicalHeaderKey k.

Section Hop.
Context `{GoLib} `{UpstreamEnv}.

Lemma Values_injected h k : injects_trace_only ->
  k ∈ ["Authorization"; "X-StreamWeave-Actor-ID"; "X-StreamWeave-Actor-Type"; "X-StreamWeave-Scopes"; "X-Request-ID"; "X-Correlation-ID"] ->
  Values (otel_inject h) k = Values h k.
Proof. intros Hinj Hk. unfold Values. by rewrite Hinj. Qed.

Lemma Values_set_nonempty_ne h k k' v :
  CanonicalHeaderKey k <> CanonicalHeaderKey k' -> Values (set_nonempty h k' v) k = Values h k.
Proof. intros Hne. unfold set_nonempty. destruct (_ =? "")%string; [done | by apply Values_Set_ne]. Qed.

Ltac other_header := first [rewrite Values_set_nonempty_ne by (vm_compute; discriminate)
                           | rewrite Values_Set_ne by (vm_compute; discriminate)].

Lemma request_headers_values token a input :
  let h := request_headers token (Some a) input in let n := Normalized a in
  Values h "Authorization" = ["Bearer " +:+ token] /\
  Values h "X-StreamWeave-Actor-ID" = [Subject n] /\ Values h "X-StreamWeave-Actor-Type" = [Type_ n] /\
  Values h "X-StreamWeave-Scopes" = [Join (Scopes n) " "].
Proof.
  cbv zeta. unfold request_headers, actor_headers. split_and!; repeat other_header; apply Values_Set.
Qed.
End Hop.

(** C23: the actor the Gateway authorized is the actor Orders acts for: on every
    request the Gateway's client sends for an authorized human whose subject is
    a customer id and whose scopes are well-formed, Orders finds the service
    token in the single Authorization header, and the subject, type and scopes
    it reads back are exactly those the Gateway granted. *)
Theorem actor_survives_the_hop `{GoLib} `{UpstreamEnv} {G : Type} `{!ClaimsVerifier G} `{!RateLimiter G}
    request policy source (g g' : G) actor raw client owner token input u u' r sent q :
  injects_trace_only ->
  p_Auth policy = AuthBearer -> Authorize request policy source g = (g', Ok (actor, raw)) ->
  ValidCustomerID (Subject actor) = true -> forallb (MatchString scopePattern) (Scopes actor) = true ->
  Client_Forward client owner token (Some actor) input u = (u', r) ->
  up_sent u' = (up_sent u ++ sent)%list -> q ∈ sent ->
  Static_Authenticate (Some token) (hr_Header q) = Ok (OrdersPorts.mkActor (Subject actor) "human" (Scopes actor)).
Proof.
  intros Hinj Hauth Ha Hsub Hsc Hf Hsent Hq.
  assert (exists verified, actor = Normalized verified /\ Type_ actor = "human") as (verified & Hnorm & Hty).
  { revert Ha. unfold Authorize. rewrite Hauth. destruct (negb _); [done|]. destruct (bearerToken _) as [t|]; [|done].
    destruct (cv_Verify t g) as [g1 [v|e]]; [|done]. destruct (_ || _) eqn:Hb; [done|].
    apply orb_false_iff in Hb as [[_ Hb%negb_false_iff%String.eqb_eq]%orb_false_iff _].
    destruct (limited_by _ _ g1) as [g2 [e|]]; [done|]. intros [= <- <- <-]. eauto. }
  assert (TrimSpace token <> "" /\ hr_Header q = otel_inject (request_headers token (Some actor) input)) as [Htok Hh].
  { assert (TrimSpace token <> "") as Htok.
    { intros Ht. unfold Client_Forward in Hf. rewrite Ht in Hf. cbn in Hf. injection Hf as <- _.
      assert (sent = []) as -> by (apply (app_inv_head (up_sent u)); by rewrite app_nil_r). set_solver. }
    split; [done|]. apply Client_Forward_sends in Hf as (k & q' & Hs & _ & _ & _ & Hh & _).
    rewrite Hs in Hsent. apply app_inv_head in Hsent. subst sent.
    apply list_elem_of_In, repeat_spec in Hq. by subst. }
  assert (Forall (fun v => plain v /\ v <> "") (Scopes actor)) as Hplain.
  { apply Forall_forall. intros s Hs%list_elem_of_In. rewrite forallb_forall in Hsc. by apply scope_plain, Hsc. }
  assert (Scopes (Normalized actor) = Scopes actor) as Hns.
  { subst actor. cbn [Normalized Scopes] in *. by apply uniqueSorted_again. }
  destruct (customer_plain _ Hsub) as [Hsubp _].
  assert (Subject (Normalized actor) = Subject actor) as Hnsub by (by apply TrimSpace_plain).
  assert (Type_ (Normalized actor) = "human") as Hnty by (cbn; by rewrite Hty).
  destruct (request_headers_values token actor input) as (Hv1 & Hv2 & Hv3 & Hv4).
  rewrite Hnsub in Hv2. rewrite Hnty in Hv3. rewrite Hns in Hv4. rewrite Hh.
  unfold Static_Authenticate. rewrite (proj2 (String.eqb_neq _ _) Htok).
  rewrite Values_injected, Hv1 by (done || set_solver). rewrite String.eqb_refl. cbn [negb].
  unfold trustedActor, Get. unfold actor_id_header, actor_type_header, scopes_header.
  rewrite !Values_injected, Hv2, Hv3, Hv4 by (done || set_solver). cbn [hd].
  rewrite TrimSpace_plain, Hsub by done. cbn [negb orb].
  change (TrimSpace "human" =? "human")%string with true. cbn [negb].
  by rewrite Fields_Join, Hsc.
Qed.

(** ** The credential *)

(** The scopes the Gateway asks for unless configured otherwise do not contain
    a scope Orders accepts on the Gateway's machine token. *)
Lemma default_scopes_miss_orders_machine_scope : hasOrdersMachineScope default_scopes = false.
Proof. reflexivity. Qed.
