(* ===== verification/OrdersWitnesses.v ===== *)
(** * Orders: the theorems at work

    The theorems about the service, the listing, the relay and the HTTP
    interface, each applied in the small world of [OrdersSamples]. *)
From Stdlib Require Import ZArith Lia Ascii String.
From stdpp Require Import base gmap strings list relations pretty.
From S2P Require Import Prelude GoStrings GoErrors GoTime GoJson GoBase64 GoCrypto GoURL GoHttp.
From S2P Require Import OrdersDomain Tx OrdersTables OrdersPorts OrdersQuote OrdersStore.
From S2P Require Import OrdersSaga OrdersHistory OrdersStoreFacts OrdersSagaFacts.
From S2P Require Import OrdersSamples OrdersService OrdersPaging OrdersAuth OrdersHTTP.
From S2P Require Import OrdersHTTPFacts OrdersRelay OrdersRelayFacts OrdersPublish.

Open Scope string_scope.
Open Scope Z_scope.
Open Scope go_scope.

#[local] Existing Instance w_lib.
#[local] Existing Instance w_crypto.
#[local] Existing Instance w_env.
#[local] Existing Instance w_pg.
#[local] Existing Instance w_keys.

(** ** The service and the listing *)

#[local] Instance w_order_store : OrderStore (St DB QuoteCache) := pg_store w_store.
#[local] Instance w_runtime : ServiceRuntime (St DB QuoteCache) := api_runtime.
#[local] Instance w_laws : OrderStoreLaws (St DB QuoteCache) := pg_store_laws w_store.

Definition reader : Actor := mkActor "usr_1" "human" ["orders:read:self"].

Lemma service_enforces_ownership_witness :
  exists e, Service_Create (mkCreateInput reader "usr_1" "EUR" sample_items "key-0123456789abcdef") w1
            = (w1, Err e).
Proof.
  apply (proj1 (service_enforces_ownership w1)). vm_compute. reflexivity.
Defined.

Lemma exact_text_order : @TextOrder exact_pg.
Proof.
  split; cbn.
  - intros a. apply Pos.ltb_irrefl.
  - intros a b c Hab%Pos.ltb_lt Hbc%Pos.ltb_lt. apply Pos.ltb_lt. lia.
  - intros a b. destruct (Pos.lt_total (encode a) (encode b)) as [Hl|[He|Hg]].
    + left. by apply Pos.ltb_lt.
    + right; left. by apply (inj encode).
    + right; right. by apply Pos.ltb_lt.
Qed.

Definition digest_crypto : Crypto :=
  {| sha256 := fun _ => repeat_byte 32 "h"%char; hmac_sha256 := fun _ _ => repeat_byte 32 "m"%char;
     ed25519_verify := fun _ _ _ => false |}.
(** Two orders of one customer, listed a page of one order at a time. *)
Definition next_order : Order :=
  match NewOrder "ord_2" "usr_1" "EUR" sample_items (Add sample_now Second) with Ok o => o | Err _ => sample_order end.
Definition two : St DB QuoteCache :=
  fst (Create "usr_1" next_order "orders.create" "key-fedcba9876543210" "h2" w1).
Definition one_at_a_time : ListInput := mkListInput reader "usr_1" "" "" 1.
Lemma two_ok : rows_ok (db two).
Proof.
  assert (exists r, Create "usr_1" next_order "orders.create" "key-fedcba9876543210" "h2" w1 = (two, r)) as [r Hr].
  { unfold two. destruct (Create _ _ _ _ _ w1) as [s r]. by exists r. }
  exact (proj1 (proj2 (history_evolves w_store _ _ w1_ok (rtc_once _ _ (op_create _ _ _ _ _ _ _ _ _ Hr))))).
Qed.
Lemma sample_cursor_fits t id r : (o_created_at r, o_id r) = (t, id) ->
  (t, id) ∈ [(Add sample_now Second, "ord_2"); (sample_now, "ord_1")] -> @cursor_fits w_lib digest_crypto w_store "usr_1" "" r.
Proof.
  unfold cursor_fits, cursor_of. intros [= -> ->].
  intros [[= -> ->]|[= -> ->]%list_elem_of_singleton]%elem_of_cons.
  all: split; [split; [vm_compute; reflexivity | by left | vm_compute; reflexivity | split; [exact I | vm_compute; discriminate]]|].
  all: eexists; split; [vm_compute; reflexivity|]; apply Nat.leb_le; vm_compute; reflexivity.
Qed.
Lemma sample_cursors_fit l :
  map (fun r => (o_created_at r, o_id r)) l = [(Add sample_now Second, "ord_2"); (sample_now, "ord_1")] ->
  Forall (@cursor_fits w_lib digest_crypto w_store "usr_1" "") l.
Proof.
  intros Hl. apply Forall_forall. intros r Hr. eapply sample_cursor_fits; [reflexivity|]. rewrite <- Hl.
  apply list_elem_of_fmap. by exists r.
Qed.
Lemma two_fit : Forall (@cursor_fits w_lib digest_crypto w_store "usr_1" "") (@listing w_pg "usr_1" "" (db two)).
Proof. apply sample_cursors_fit. vm_compute. reflexivity. Qed.

Lemma pages_show_every_order_once_witness :
  exists orders, @walk w_lib digest_crypto w_env w_pg w_store 3 one_at_a_time two = Some orders /\
    map ID orders = ["ord_2"; "ord_1"].
Proof.
  destruct (@pages_show_every_order_once w_lib digest_crypto w_env w_pg exact_text_order w_store one_at_a_time "usr_1" two)
    as [Hw _].
  - reflexivity.
  - reflexivity.
  - exact two_ok.
  - split; [vm_compute; reflexivity | vm_compute; split; discriminate | by left | reflexivity | vm_compute; reflexivity |
            right; split; vm_compute; reflexivity].
  - reflexivity.
  - exact two_fit.
  - eexists. split; [exact Hw|]. vm_compute. reflexivity.
Defined.


Definition second_page : ListInput :=
  mkListInput reader "usr_1" StatusPending
    (match @encodeSignedCursor w_lib digest_crypto sample_cursor "secret" with Ok c => c | Err _ => "" end) 25.

Lemma filtered_cursor_is_refused_witness :
  Service_List second_page w2 = (w2, Err ErrInvalidCursor).
Proof.
  destruct (@encodeSignedCursor w_lib digest_crypto sample_cursor "secret") as [next|e] eqn:He;
    [|exfalso; vm_compute in He; discriminate He].
  apply (@filtered_cursor_is_refused w_lib digest_crypto _ w_order_store "secret" next second_page w2).
  - intros k m. reflexivity.
  - discriminate.
  - exact He.
  - reflexivity.
  - vm_compute. split; discriminate.
  - unfold second_page. cbn [li_Cursor]. rewrite He. reflexivity.
Defined.

(** ** The relay *)

#[local] Instance w_relay : RelayEnv :=
  {| write_at := fun _ => TripOk; commit_at := fun _ => true; relay_clock := fun _ => sample_now;
     ctx_done := fun _ => false |}.
Definition r1 : RSt := mkRelay w1 [] [] 0.
Definition fetches : list (option string) := [Some reserved_fact; None; Some authorized_fact].
Definition consumed := consumeMessages (relayStore0 := pg_relay_store w_store) 2 "topic" fetches r1.

Lemma offsets_follow_effects_witness :
  exists fin, fin `prefix_of` [reserved_fact; authorized_fact] /\
              commits_handled w_store "topic" r1 (fst consumed) fin.
Proof.
  apply (offsets_follow_effects w_store 2 "topic" fetches r1 (fst consumed) (snd consumed)).
  - apply w1_ok.
  - unfold consumed. by destruct (consumeMessages _ _ _ _).
Defined.

Definition batch := publishBatch (relayStore0 := pg_relay_store w_store) "relay-1" r1.
Definition batches := publish (relayStore0 := pg_relay_store w_store) "relay-1" [TickerFired; TickerFired; CtxDone] r1.
Lemma nothing_published_yet : Forall (fun x => x_published_at x = None) (outbox_events (db w1)).
Proof. refine (bool_decide_unpack _ _). vm_compute. exact I. Qed.

Lemma published_messages_were_sent_witness :
  sent (r_log (fst batches)) (db (r_store (fst batches))) /\ db_ok (db (r_store (fst batches))) /\ snd batches = Some (Ok tt).
Proof.
  apply (published_messages_were_sent w_store "relay-1" [TickerFired; TickerFired; CtxDone] r1 (fst batches) (snd batches)).
  - apply w1_ok.
  - intros x Hx Hp. destruct Hp. exact (proj1 (Forall_forall _ _) nothing_published_yet x Hx).
  - unfold batches. by destruct (publish _ _ _).
Defined.

Definition claim (owner : string) (s : St DB QuoteCache) :=
  OrdersStore.ClaimPendingOutbox owner 1 (Add sample_now (2 * Minute)) s.
Definition claimed (owner : string) (s : St DB QuoteCache) : list OutboxEvent :=
  match snd (claim owner s) with Ok l => l | Err _ => [] end.
Lemma claim_ok owner : claim owner w1 = (fst (claim owner w1), Ok (claimed owner w1)).
Proof. vm_compute. reflexivity. Qed.
Lemma claim2_ok : claim "b" (fst (claim "a" w1)) = (fst (claim "b" (fst (claim "a" w1))), Ok (claimed "b" (fst (claim "a" w1)))).
Proof. vm_compute. reflexivity. Qed.

Lemma leases_are_exclusive_witness :
  length (claimed "a" w1) = 1%nat /\ length (claimed "b" (fst (claim "a" w1))) = 1%nat /\
  Forall (fun e1 => Forall (fun e2 => ev_ID e1 <> ev_ID e2) (claimed "b" (fst (claim "a" w1)))) (claimed "a" w1).
Proof.
  split; [vm_compute; reflexivity|]. split; [vm_compute; reflexivity|].
  apply Forall_forall. intros e1 H1. apply Forall_forall. intros e2 H2. revert e1 e2 H1 H2.
  apply (leases_are_exclusive "a" 1 (Add sample_now (2 * Minute)) w1 (fst (claim "a" w1)) (claimed "a" w1)
           "b" 1 (Add sample_now (2 * Minute)) (fst (claim "a" w1)) (fst (claim "b" (fst (claim "a" w1))))
           (claimed "b" (fst (claim "a" w1)))).
  - apply w1_ok.
  - exact (claim_ok "a").
  - reflexivity.
  - vm_compute. reflexivity.
  - exact claim2_ok.
Defined.

Lemma calm_batch_publishes_due_rows_witness :
  exists r', batch = (r', Ok tt) /\ length (r_log r') = 2%nat.
Proof.
  destruct (calm_batch_publishes_due_rows w_store "relay-1" r1) as (r' & Hb & Hlog & _).
  - reflexivity.
  - reflexivity.
  - apply w1_ok.
  - intros x Hx Hp. assert (x_attempts x = 0) as ->; [|reflexivity].
    assert (Forall (fun x => x_attempts x = 0) (outbox_events (db w1))) as Hf.
    { refine (bool_decide_unpack _ _). vm_compute. exact I. }
    exact (proj1 (Forall_forall _ _) Hf x Hx).
  - apply Nat.leb_le. vm_compute. reflexivity.
  - exists r'. split; [exact Hb|]. rewrite Hlog. vm_compute. reflexivity.
Defined.

Definition first_row : OutboxRow := match outbox_events (db w1) with x :: _ => x | [] => mkOutboxRow "" "" "" "" "" "" JNull JNull sample_now None 0 sample_now None None None end.
Definition failed := OrdersStore.MarkOutboxFailed (x_id first_row) "broker down" (Add sample_now (outboxBackoff (x_attempts first_row))) w1.

Lemma failed_rows_wait_for_their_backoff_witness :
  Second <= outboxBackoff 3 <= outboxBackoff 5 /\ outboxBackoff 5 <= 30 * Minute.
Proof.
  apply (failed_rows_wait_for_their_backoff first_row "broker down" sample_now w1 (fst failed)).
  - apply w1_ok.
  - assert (exists rest, outbox_events (db w1) = first_row :: rest) as [rest ->].
    { eexists. vm_compute. reflexivity. }
    apply elem_of_cons. by left.
  - vm_compute. reflexivity.
  - vm_compute. reflexivity.
  - lia.
Defined.

(** A reservation of an order the database does not hold: well formed, and
    refused on every attempt. *)
Definition r0 : RSt := mkRelay w0 [] [] 0.

Lemma unknown_order_fails : always_fails w_store reserved_fact (db w0).
Proof.
  intros s [Ho _] Hu. destruct (ProcessFact _ _ _ s) as [s' [[]|e]] eqn:Hp; [|done].
  assert (rows_ok (db s)) as Hrows.
  { intros oid r Hr. rewrite Ho in Hr. discriminate Hr. }
  apply (ProcessFact_inv _ _ _ (parsed reserved_fact)) in Hp
    as (? & ? & ? & ? & ? & _ & _ & Hr & _); [|done|apply reserved_parsed|apply Hu, reserved_parsed].
  rewrite Ho in Hr. discriminate Hr.
Qed.
Lemma nothing_settled p : unsettled p (db w0).
Proof. intros e _ (row & Hrow & _). discriminate Hrow. Qed.


(** ** The HTTP interface *)

Definition site0 : Site := mkSite None None.
Definition checks0 : list (option (Dependency (St DB QuoteCache))) :=
  [Some (mkDependency "postgresql" (fun s => (s, Ok tt))); None].
Definition static : option (Header -> call (St DB QuoteCache) Actor) :=
  Some (fun h s => (s, Static_Authenticate (Some "token") h)).
Definition signed_in : Header :=
  Set_ (Set_ (Set_ (Set_ ∅ "Authorization" "Bearer token") "X-StreamWeave-Actor-ID" "usr_1")
          "X-StreamWeave-Actor-Type" "human") "X-StreamWeave-Scopes" "orders:read:self".
Definition get_request (path : string) (h : Header) : Request := mkRequest "GET" path "" h "" 0 "10.0.0.1:5000".
Definition w_fresh : Writer := new_writer ∅.

Lemma unauthenticated_requests_do_nothing_witness :
  let '(s', w') := route static checks0 site0 (get_request "/v1/orders/ord_1" ∅) w_fresh w2 in
  (s' = w2 \/ s' = w2) /\ status_of_writer w' ∈ [401; 404; 405].
Proof.
  apply (unauthenticated_requests_do_nothing static checks0 site0 (get_request "/v1/orders/ord_1" ∅)
           w_fresh w2 w2 ErrUnauthorized).
  - reflexivity.
  - reflexivity.
  - vm_compute. reflexivity.
Defined.

Definition shown := getOrder static (get_request "/v1/orders/ord_1" signed_in) w_fresh w2.

Lemma static_state r (s s1 : St DB QuoteCache) a : actor static r s = (s1, Ok a) -> s1 = s.
Proof. unfold actor, static. by intros [= <- _]. Qed.
Lemma inv_of_rows s : db_ok (db s) -> os_inv s.
Proof. by intros [Hr _]. Qed.
Lemma inv_w2 : os_inv w2.
Proof. exact (inv_of_rows w2 w2_ok). Qed.
Lemma shown_run s : getOrder static (get_request "/v1/orders/ord_1" signed_in) w_fresh s =
  (fst (getOrder static (get_request "/v1/orders/ord_1" signed_in) w_fresh s),
   snd (getOrder static (get_request "/v1/orders/ord_1" signed_in) w_fresh s)).
Proof. by destruct (getOrder _ _ _ _). Qed.

Lemma successes_come_from_the_service_witness :
  exists a s1 o, actor static (get_request "/v1/orders/ord_1" signed_in) w2 = (s1, Ok a) /\ ID o = "ord_1" /\
    view (fst shown) = view s1 /\ permitted a (CustomerID o) "orders:read:self" "orders:read:any" = true.
Proof.
  destruct (successes_come_from_the_service static (get_request "/v1/orders/ord_1" signed_in) w_fresh w2
              (fst shown) (snd shown)) as (Hget & _).
  - reflexivity.
  - reflexivity.
  - vm_compute. reflexivity.
  - intros a s1 Ha. rewrite (static_state _ _ _ _ Ha). exact inv_w2.
  - destruct Hget as (a & s1 & o & Ha & Hid & Hv & Hp & _).
    { exact (shown_run w2). }
    exists a, s1, o. split; [exact Ha|]. split; [exact Hid|]. split; [exact Hv | exact Hp].
Defined.

Lemma readiness_reports_every_dependency_witness :
  let '(_, w') := route static checks0 site0 (get_request "/health/ready" ∅) w_fresh w2 in
  status_of_writer w' = 200.
Proof.
  pose proof (readiness_reports_every_dependency static checks0 site0 (get_request "/health/ready" ∅)
                w_fresh w2 eq_refl eq_refl eq_refl) as Hr.
  destruct (route static checks0 site0 (get_request "/health/ready" ∅) w_fresh w2) as [s' w'].
  destruct (Ready checks0 w2) as [s'' h]. exact (proj1 Hr).
Defined.
