(* ===== verification/GatewayWitnesses.v ===== *)
(** * Gateway: the theorems at concrete inputs

    A small Gateway for concrete runs: a verifier that knows one token, the
    limiter over a Redis that is a map with expiry times, a static service
    token, and services behind that answer every request.  Each lemma applies
    one of the Gateway's theorems to a run of it. *)
From Stdlib Require Import ZArith Lia Ascii String Sorted.
From stdpp Require Import base gmap strings list.
From S2P Require Import Prelude GoStrings GoErrors GoTime GoBase64 GoCrypto GoJson GoURL GoHttp.
From S2P Require Import Interleave GatewayDomain GatewayService GatewayUpstream GatewayHTTP GatewayHTTPFacts.
From S2P Require Import GatewayLimiter GatewayVerifier GatewayTokens GatewayConfig GatewayOrders GoProcess GatewayProcess.

Open Scope string_scope.
Open Scope Z_scope.

#[local] Existing Instance ascii_lib.

(** ** A Redis *)

Notation toy_redis := (gmap string (Z * option Z)).
Definition toy_live (r : toy_redis) (now : Z) (k : string) : option (Z * option Z) :=
  match r !! k with
  | Some (v, Some e) => if now <? e then Some (v, Some e) else None
  | x => x
  end.
#[local] Instance toy_redis_ops : Redis toy_redis := {|
  redis_ping := fun _ => None;
  redis_eval := fun _ => None;
  redis_incr := fun now k r =>
    match toy_live r now k with
    | Some (v, e) => (<[k := (v + 1, e)]> r, v + 1)
    | None => (<[k := (1, None)]> r, 1)
    end;
  redis_expire := fun now k s r =>
    match toy_live r now k with
    | Some (v, _) => <[k := (v, Some (now + s))]> r
    | None => r
    end
|}.

Lemma toy_live_insert r t k x : toy_live (<[k := x]> r) t k =
  match x with (v, Some e) => if t <? e then Some (v, Some e) else None | _ => Some x end.
Proof. unfold toy_live. rewrite lookup_insert_eq. by destruct x as [v [e|]]. Qed.
Lemma toy_live_insert_ne r t k k' x : k' <> k -> toy_live (<[k := x]> r) t k' = toy_live r t k'.
Proof. intros Hne. unfold toy_live. by rewrite lookup_insert_ne. Qed.

#[local] Instance toy_redis_laws : RedisLaws toy_redis.
Proof.
  refine {| live := toy_live |}.
  - intros now k r r' n. cbn. destruct (toy_live r now k) as [[v [e|]]|]; intros [= <- <-];
      (split; [done|]); intros t _; by rewrite toy_live_insert.
  - intros now k k' r Hne t. cbn. destruct (toy_live r now k) as [[v e]|]; cbn; by rewrite toy_live_insert_ne.
  - intros now k s r v e Hl t _. cbn. rewrite Hl. by rewrite toy_live_insert.
  - intros now k k' s r Hne t. cbn. destruct (toy_live r now k) as [[v e]|]; [by rewrite toy_live_insert_ne | done].
  - intros r now t k Ht. unfold toy_live. destruct (r !! k) as [[v [e|]]|]; [|done|done].
    destruct (Z.ltb_spec now e); [done|]. by rewrite (proj2 (Z.ltb_ge t e)) by lia.
Defined.

(** ** A Gateway *)

Record ToyG := mkToyG { tg_up : UpSt; tg_redis : toy_redis }.
#[local] Instance toy_has_upstream : HasUpstream ToyG := {|
  get_up := tg_up; set_up := fun u g => mkToyG u (tg_redis g); get_set_up := fun _ _ => eq_refl
|}.

Definition alice : Actor :=
  mkActor "usr_alice" "human" ["customer"] ["orders:write:self"; "orders:read:self"] "s1".
#[local] Instance toy_verifier : ClaimsVerifier ToyG := {|
  cv_Verify := fun t g => (g, if (t =? "alice-token")%string then Ok alice else Err (NewErr "invalid access token"))
|}.
(** Every digest is the hex of the same bytes. *)
#[local] Existing Instance toy_crypto.
#[local] Instance toy_limiter : RateLimiter ToyG := {|
  rl_Allow := fun k c g => let '(r, x) := limiter_Allow 0 k c (tg_redis g) in (mkToyG (tg_up g) r, x);
  rl_Check := fun g => let '(r, x) := limiter_Check (tg_redis g) in (mkToyG (tg_up g) r, x)
|}.
#[local] Instance toy_tokens : ServiceTokenProvider ToyG := {|
  tp_Token := fun g => (g, StaticToken_Token "service-token");
  tp_Refresh := Some (fun g => (g, StaticToken_Refresh "service-token"))
|}.
#[local] Instance toy_upstream : UpstreamEnv := {|
  slot_free := fun _ => true; ctx_error := fun _ => None;
  peer := fun _ _ => Some (201, ∅, Some "{}");
  url_target := fun base path query => Some (base +:+ path);
  request_ok := fun _ _ => true; otel_inject := fun h => <["Traceparent" := ["00-1-2-01"]]> h
|}.
#[local] Instance toy_net : NetLib := {| split_host := fun s => Some s; is_ip := fun _ => false |}.

Definition toy_client : Client := mkClient {["orders" := "http://orders"]} (4 * 2 ^ 20).
Definition toy_g : ToyG := mkToyG (mkUpSt [] 0) ∅.

Lemma toy_allow_frame k c (g g' : ToyG) r : rl_Allow k c g = (g', r) -> get_up g' = get_up g.
Proof. cbn. destruct (limiter_Allow 0 k c (tg_redis g)) as [r' x]. by intros [= <- <-]. Qed.
Lemma toy_verify_frame t (g g' : ToyG) r : cv_Verify t g = (g', r) -> get_up g' = get_up g.
Proof. by intros [= <- <-]. Qed.
#[local] Instance toy_frames : Frames ToyG := {|
  verify_frame := toy_verify_frame; allow_frame := toy_allow_frame
|}.

Definition create_request : Request :=
  mkRequest MethodPost "/v1/orders" ""
    {["Authorization" := ["Bearer alice-token"]; "Content-Type" := ["application/json"];
      "Idempotency-Key" := ["0123456789abcdef"]]} "{}" 2 "10.0.0.1".

(** ** Requests *)

Definition orders_post : RoutePolicy :=
  mkPolicy MethodPost "/v1/orders" "orders" AuthBearer ["orders:write:self"; "orders:write:any"] "order-write"
    (10 * Second) false true (2 * 2 ^ 20) true.
Definition authorized_g : ToyG := fst (Authorize create_request orders_post "10.0.0.1" toy_g).

Lemma authorized_callers_are_permitted_witness :
  exists s, s ∈ p_Scopes orders_post /\ s ∈ Scopes (Normalized alice).
Proof.
  destruct (authorized_callers_are_permitted create_request orders_post "10.0.0.1" toy_g authorized_g
              (Normalized alice) "alice-token") as (h & v & g1 & _ & _ & _ & _ & _ & _ & [He|Hs] & _).
  - vm_compute. reflexivity.
  - discriminate He.
  - exact Hs.
Defined.

Definition create_forward : ForwardRequest :=
  mkForward MethodPost "/v1/orders" "/v1/orders" "" "{}" "application/json" "r1" "c1" "0123456789abcdef".
Definition forwarded : ToyG * result goerr Response :=
  Forward (UpstreamClient0 := upstream_of toy_client) "orders" (Some alice) create_forward orders_post toy_g.

Lemma mutations_are_sent_at_most_once_witness :
  exists sent, up_sent (get_up (fst forwarded)) = sent /\ length sent = 1%nat.
Proof.
  destruct (mutations_are_sent_at_most_once toy_client "orders" (Some alice) create_forward orders_post toy_g
              (fst forwarded) (snd forwarded)) as (sent & Hs & _ & Hok & _).
  - by intros g g' r [= <- <-].
  - reflexivity.
  - reflexivity.
  - vm_compute. reflexivity.
  - exists sent. split; [exact Hs|]. apply Hok. vm_compute. reflexivity.
Defined.

Definition served : ToyG * Writer :=
  route (UpstreamClient0 := upstream_of toy_client) (NewServer false false [] None None)
    (fun g => (g, Ok tt)) (fun g => (g, Ok tt)) (new_writer ∅) create_request (mkCtx "r1" "c1") toy_g.

Lemma nothing_unchecked_is_forwarded_witness :
  exists policy, policy ∈ DefaultPolicies /\ p_Method policy = "POST" /\ validateRequest create_request policy = None /\
    forall q, q ∈ DefaultPolicies -> p_Method q = "POST" -> routeMatches (p_Pattern q) "/v1/orders" = true -> q = policy.
Proof.
  destruct (nothing_unchecked_is_forwarded toy_client false false [] None None (fun g => (g, Ok tt))
              (fun g => (g, Ok tt)) (new_writer ∅) create_request (mkCtx "r1" "c1") toy_g (fst served) (snd served))
    as (policy & actor & raw & g1 & body & Hin & Hm & _ & Hu & Hv & _).
  - by intros g g' x [= <- <-].
  - by intros g g' x [= <- <-].
  - discriminate.
  - vm_compute. reflexivity.
  - vm_compute. discriminate.
  - exists policy. exact (conj Hin (conj Hm (conj Hv Hu))).
Defined.

(** A service behind that is busy, and one that answers with a problem. *)
Definition busy_answer : Response := mkResponse 429 {["Retry-After" := ["100000"]]} "oops".
Definition problem_answer : Response :=
  mkResponse 409 {["Content-Type" := ["application/problem+json"]]}
    (json_text (JObj [("type", jstr "about:blank"); ("title", jstr "Conflict"); ("status", jint 500);
                      ("detail", jstr "stale version"); ("instance", jstr "/internal")])).

Lemma upstream_errors_are_sanitized_witness :
  (exists h n, w_sent (writeResponse (new_writer ∅) create_request (mkCtx "r1" "c1") busy_answer) = Some (429, h) /\
               1 <= n <= 60 /\ Get h "Retry-After" = Itoa n) /\
  answers_problem (writeResponse (new_writer ∅) create_request (mkCtx "r1" "c1") problem_answer)
    (mkProblem "about:blank" "Conflict" 409 "stale version" (rq_Path create_request) "r1").
Proof.
  split.
  - refine (proj2 (proj2 (upstream_errors_are_sanitized (new_writer ∅) create_request (mkCtx "r1" "c1")
                            busy_answer _ _ _)) _); reflexivity || (cbn; lia).
  - destruct (upstream_errors_are_sanitized (new_writer ∅) create_request (mkCtx "r1" "c1") problem_answer
                eq_refl eq_refl) as (_ & Hkeep & _); [cbn; lia|].
    apply (Hkeep (mkProblem "about:blank" "Conflict" 500 "stale version" "/internal" "")).
    + vm_compute. reflexivity.
    + vm_compute. reflexivity.
    + left. reflexivity.
    + discriminate.
    + split; [vm_compute; reflexivity | apply Nat.leb_le; vm_compute; reflexivity].
    + vm_compute. discriminate.
    + split; [vm_compute; reflexivity | apply Nat.leb_le; vm_compute; reflexivity].
Defined.

(** ** The limiter *)

(** A call a second, all in the first minute. *)
Definition dozen : list rate_call := map (fun t => mkCall t "k" "auth-write") [0;1;2;3;4;5;6;7;8;9;10;11].

Lemma windows_admit_at_most_their_limit_witness :
  admitted "k" (verdicts dozen (∅ : toy_redis)) = 10%nat /\
  Z.of_nat (admitted "k" (verdicts dozen (∅ : toy_redis))) <= Limit (mkClass 10 60 5 1).
Proof.
  split; [vm_compute; reflexivity|].
  apply (windows_admit_at_most_their_limit "k" "auth-write" (mkClass 10 60 5 1) 0 dozen (∅ : toy_redis) 0).
  - reflexivity.
  - unfold dozen. cbn [map]. repeat (constructor; [left; split_and!; reflexivity || (cbn; lia)|]). constructor.
  - unfold dozen. repeat constructor; cbn; lia.
  - unfold dozen. cbn. repeat constructor; lia.
  - reflexivity.
Defined.

(** ** The verifier *)

#[local] Instance toy_jwt : JwtLib := {|
  jwt_kid := fun _ raw => Some (Some "k1");
  jwt_claims := fun _ raw key now =>
    Some (mkClaims "human" ["orders:read:self"] ["customer"] "s1" "usr_alice" "j1" (Some now) (Some now) (Some now))
|}.
#[local] Instance toy_uuid : UuidLib := {| uuid_valid := fun s => (s =? "s1")%string |}.

Definition key_set : jwks_answer :=
  Some (200, "max-age=60", Some (json_text (JObj [("keys", JArr [JObj
    [("kty", jstr "OKP"); ("crv", jstr "Ed25519"); ("kid", jstr "k1"); ("use", jstr "sig"); ("alg", jstr "EdDSA");
     ("x", jstr (RawURLEncode (repeat_byte 32 "k")))]])]))).
Definition sec (n : Z) : Ev := mkEv (mkTime (n * Second) None) key_set false.

Definition v_cfg : VerifierConfig := mkVerifierConfig "identity" "api" (5 * Minute) (15 * Minute).
Definition v_new : Verifier := mkVerifier ∅ zeroTime 0 false 0 0 ∅.
(** One request verifies its token, fetching the keys first. *)
Definition one_request : list vlabel :=
  Spawn (JVerify "t") :: map (fun n => Run 0 (sec n)) [1; 2; 3; 4; 5; 6].
Definition one_verified : Sys Verifier pc := default (start v_new) (run_verifier v_cfg one_request (start v_new)).

Lemma accepted_tokens_have_current_keys_witness :
  exists fetch looked kid key set age, Fetch (ev_answer fetch) = Ok (set, age) /\ set !! kid = Some key /\
    nanos (ev_now looked) - nanos (ev_now fetch) <= 15 * Minute.
Proof.
  destruct (accepted_tokens_have_current_keys "identity" "api" v_cfg v_new one_request one_verified 0 "t"
              (mkActor "usr_alice" "human" ["customer"] ["orders:read:self"] "s1"))
    as (b & fetch & l1 & looked & l2 & ch & l3 & i & kid & key & set & age & cl & _ & Hf & _ & Hk & Ha & _).
  - reflexivity.
  - vm_compute. reflexivity.
  - vm_compute. reflexivity.
  - exists fetch, looked, kid, key, set, age. exact (conj Hf (conj Hk Ha)).
Defined.

(** Two requests: the second waits for the first one's fetch. *)
Definition two_requests : list vlabel :=
  [Spawn (JVerify "t"); Spawn (JVerify "u"); Run 0 (sec 1); Run 1 (sec 1); Run 0 (sec 2); Run 1 (sec 2);
   Run 0 (sec 3); Run 1 (sec 3)].
Definition one_waits : Sys Verifier pc := default (start v_new) (run_verifier v_cfg two_requests (start v_new)).

Lemma refreshes_are_single_flight_witness :
  threads one_waits !! 1%nat = Some (Waiting (JVerify "u") 0) /\
  (0%nat ∈ closed (shared one_waits) \/ exists i j, threads one_waits !! i = Some (Fetching j 0)).
Proof.
  split; [vm_compute; reflexivity|].
  refine (proj1 (proj2 (proj2 (refreshes_are_single_flight "identity" "api" v_cfg v_new two_requests one_waits _ _)))
            1%nat (JVerify "u") 0%nat _).
  - reflexivity.
  - vm_compute. reflexivity.
  - vm_compute. reflexivity.
Defined.

(** ** Service tokens *)

Definition bought : token_answer :=
  Some (200, Some (json_text (JObj [("access_token", jstr "svc"); ("expires_in", jint 300)]))).
Definition tsec (n : Z) : TEv := mkTEv (mkTime (n * Second) None) bought.
(** The first call buys a token, the second finds it in the cache. *)
Definition two_calls : list tlabel :=
  [Spawn TToken; Run 0 (tsec 1); Run 0 (tsec 2); Run 0 (tsec 3); Spawn TToken; Run 1 (tsec 4)].
Definition second_served : Sys TokenCache tpc := default (start no_token) (run_tokens two_calls (start no_token)).

Lemma service_tokens_have_time_left_witness : exists r, "svc" = AccessToken r /\ 0 < ExpiresIn r.
Proof.
  destruct (service_tokens_have_time_left two_calls second_served 1 "svc") as (r & Ht & _ & Hpos & _).
  - vm_compute. reflexivity.
  - vm_compute. reflexivity.
  - exists r. exact (conj Ht Hpos).
Defined.

(** ** Configuration *)

Definition gateway_staging : Source := fun key =>
  if (key =? "GATEWAY_ENVIRONMENT")%string then Some "staging"
  else if (key =? "GATEWAY_IDENTITY_URL")%string then Some "https://identity"
  else if (key =? "GATEWAY_ORDERS_URL")%string then Some "https://orders"
  else if (key =? "GATEWAY_JWKS_URL")%string then Some "https://identity/.well-known/jwks.json"
  else if (key =? "GATEWAY_REDIS_URL")%string then Some "rediss://redis:6379/1"
  else if (key =? "GATEWAY_SERVICE_CLIENT_ID")%string then Some "gateway"
  else if (key =? "GATEWAY_SERVICE_CLIENT_SECRET")%string then Some "secret"
  else if (key =? "GATEWAY_OTEL_ENDPOINT")%string then Some "otel:4317"
  else None.
#[local] Instance toy_durations : DurationLib := {| fraction_duration := fun _ => None |}.

Lemma gateway_configuration_is_safe_witness : gateway_deployed_safely (read_config gateway_staging).
Proof.
  refine (proj2 (proj2 (gateway_configuration_is_safe gateway_staging (read_config gateway_staging) _)) _).
  - vm_compute. reflexivity.
  - vm_compute. discriminate.
Defined.

(** ** The process *)

#[local] Instance calm_host : Host := {| host_fails := fun _ _ => None; host_signalled := fun _ => true |}.
Definition staged_run := gateway_run (fun _ => sec 0) None None gateway_staging.
Definition staged : Gateway :=
  mkGateway (read_config gateway_staging) (mkVerifierConfig "identity.local" "platform-api" (5 * Minute) (15 * Minute))
    (match Fetch key_set with Ok (ks, age) => mkVerifier ks (mkTime 0 None) age false 0 1 {[0%nat]}
                            | Err _ => mkVerifier ∅ zeroTime 0 false 0 0 ∅ end)
    (BoughtToken (mkTokenClient "https://identity" "gateway" "secret" default_scopes))
    (mkClient {["identity" := "https://identity"; "orders" := "https://orders"]} (4 * 2 ^ 20))
    (NewServer false false [] None None).
Lemma gateway_serves_only_when_ready_witness :
  servings (fst (run_process staged_run)) = [staged] /\ Did "redis check" ∈ fst (run_process staged_run) /\
  gateway_deployed_safely (gw_config staged).
Proof.
  destruct (run_process staged_run) as [t r] eqn:Hr.
  destruct (gateway_serves_only_when_ready (fun _ => sec 0) None None gateway_staging t r Hr) as [_ Hs].
  destruct (Hs staged) as (Hserved & _ & _ & _ & Hredis & _ & _ & _ & Hsafe); [vm_compute; reflexivity|].
  split; [exact Hserved|]. split; [exact Hredis|]. apply Hsafe. vm_compute. discriminate.
Defined.

(** ** The hop to Orders *)

Definition hop_sent : list HttpRequest :=
  up_sent (fst (Client_Forward toy_client "orders" "service-token" (Some (Normalized alice)) create_forward
                  (mkUpSt [] 0))).

Lemma actor_survives_the_hop_witness :
  Forall (fun q => OrdersAuth.Static_Authenticate (Some "service-token") (hr_Header q) =
    Ok (OrdersPorts.mkActor "usr_alice" "human" ["orders:read:self"; "orders:write:self"])) hop_sent.
Proof.
  apply Forall_forall. intros q Hq.
  refine (actor_survives_the_hop create_request orders_post "10.0.0.1" toy_g authorized_g (Normalized alice)
            "alice-token" toy_client "orders" "service-token" create_forward (mkUpSt [] 0)
            (fst (Client_Forward toy_client "orders" "service-token" (Some (Normalized alice)) create_forward (mkUpSt [] 0)))
            (snd (Client_Forward toy_client "orders" "service-token" (Some (Normalized alice)) create_forward (mkUpSt [] 0)))
            hop_sent q _ _ _ _ _ _ _ Hq).
  - intros h k Hk. cbn. rewrite lookup_insert_ne; [done|]. intros He.
    repeat (apply elem_of_cons in Hk as [->|Hk]; [vm_compute in He; discriminate|]). by apply elem_of_nil in Hk.
  - reflexivity.
  - vm_compute. reflexivity.
  - vm_compute. reflexivity.
  - vm_compute. reflexivity.
  - vm_compute. reflexivity.
  - vm_compute. reflexivity.
Defined.
