(* ===== verification/IdentityDomain.v ===== *)
(** * Identity: users, sessions and one-time tokens

    [apps/identity/internal/domain/identity]: the values of the service and the
    tests of their usability.  A UUID is its text. *)
From Stdlib Require Import ZArith Lia Ascii String.
From stdpp Require Import base gmap strings list.
From S2P Require Import Prelude GoStrings GoErrors GoTime.

Open Scope string_scope.
Open Scope Z_scope.

(** ** Errors *)

Definition identity_error (text : string) : goerr := Sentinel "identity" text.
Definition ErrInvalidCredentials := identity_error "invalid credentials".
Definition ErrRefreshReuse := identity_error "refresh token reuse detected".
Definition ErrForbidden := identity_error "forbidden".
Definition ErrNotFound := identity_error "not found".
Definition ErrConflict := identity_error "conflict".
Definition ErrRateLimited := identity_error "rate limit exceeded".
Definition ErrExpired := identity_error "expired".
Definition ErrAlreadyUsed := identity_error "already used".
Definition ErrDependency := identity_error "dependency unavailable".
Definition ErrInvalidInput := identity_error "invalid input".

(** ** Users *)

Definition UserActive := "ACTIVE".
Definition UserDisabled := "DISABLED".
Definition UserPendingVerification := "PENDING_VERIFICATION".

Record User := mkUser {
  u_ID : string;
  u_Email : string;
  u_EmailNormalized : string;
  u_PasswordHash : string;
  u_Status : string;
  u_EmailVerifiedAt : option Time;
  u_CreatedAt : Time;
  u_UpdatedAt : Time
}.
Definition no_user : User := mkUser "" "" "" "" "" None zeroTime zeroTime.

Definition NormalizeEmail `{GoLib} (email : string) : string := ToLower (TrimSpace email).

(** ** Sessions *)

Definition SessionActive := "ACTIVE".
Definition SessionRotated := "ROTATED".
Definition SessionRevoked := "REVOKED".

Record Session := mkSession {
  se_ID : string;
  se_FamilyID : string;
  se_UserID : string;
  se_Status : string;
  se_RotatedFromSessionID : option string;
  se_ExpiresAt : Time;
  se_RevokedAt : option Time;
  se_CreatedAt : Time;
  se_LastUsedAt : option Time
}.
Definition Session_IsUsable (s : Session) (now : Time) : bool :=
  (se_Status s =? SessionActive)%string && Before now (se_ExpiresAt s).

(** ** Roles, machines and one-time tokens *)

Record RolePermission := mkRolePermission { rp_Role : string; rp_Scope : string }.

Record ServicePrincipal := mkPrincipal {
  sp_ID : string;
  sp_ClientID : string;
  sp_Status : string;
  sp_Scopes : list string;
  sp_Audience : string
}.

Record ServiceCredential := mkCredential {
  sc_ID : string;
  sc_ServicePrincipalID : string;
  sc_SecretHash : string;
  sc_Status : string;
  sc_ValidFrom : Time;
  sc_RetiredAt : option Time
}.

Record OneTimeToken := mkOneTimeToken {
  ot_ID : string;
  ot_UserID : string;
  ot_ExpiresAt : Time;
  ot_ConsumedAt : option Time
}.
Definition Token_IsUsable (t : OneTimeToken) (now : Time) : bool :=
  bool_decide (ot_ConsumedAt t = None) && Before now (ot_ExpiresAt t).
