(* ===== verification/IdentityTables.v ===== *)
(** * Identity: tables and queries

    The rows of [generated/models.go] and the queries of
    [generated/identity.sql.go] as functions of the tables, with the keys,
    checks, unique and foreign-key constraints of
    [database/identity/migrations].  Tables with a primary key the queries look
    up are finite maps; the audit trail and the outbox are lists in insertion
    order.  A [uuid] is its lower-case text, whose order is the type's. *)
From Stdlib Require Import ZArith Lia Ascii String.
From stdpp Require Import base gmap strings list.
From S2P Require Import Prelude GoStrings GoErrors GoTime GoJson Tx IdentityDomain.

Open Scope string_scope.
Open Scope Z_scope.
Open Scope go_scope.

(** ** Rows *)

Record UserRow := mkUserRow {
  ur_id : string;
  ur_email : string;
  ur_email_normalized : string;
  ur_password_hash : string;
  ur_status : string;
  ur_email_verified_at : option Time;
  ur_created_at : Time;
  ur_updated_at : Time
}.

Record SessionRow := mkSessionRow {
  s_id : string;
  s_family_id : string;
  s_user_id : string;
  s_refresh_token_hash : string;
  s_status : string;
  s_expires_at : Time;
  s_revoked_at : option Time;
  s_revoked_reason : option string;
  s_rotated_from_session_id : option string;
  s_replaced_by_session_id : option string;
  s_created_at : Time;
  s_last_used_at : option Time;
  s_user_agent_hash : option string;
  s_ip_prefix_hash : option string
}.

(** Rows of [reset_tokens] and of [verification_tokens]. *)
Record TokenRow := mkTokenRow {
  t_id : string;
  t_user_id : string;
  t_token_hash : string;
  t_expires_at : Time;
  t_consumed_at : option Time;
  t_created_at : Time
}.

Record RoleRow := mkRoleRow { ro_id : string; ro_name : string; ro_status : string }.

Record UserRoleRow := mkUserRoleRow { a_assigned_at : Time; a_assigned_by : option string }.

Record PrincipalRow := mkPrincipalRow {
  pr_id : string;
  pr_client_id : string;
  pr_status : string;
  pr_scopes : json;
  pr_audience : string;
  pr_last_used_at : option Time
}.

Record CredentialRow := mkCredentialRow {
  cr_id : string;
  cr_service_principal_id : string;
  cr_secret_hash : string;
  cr_status : string;
  cr_valid_from : Time;
  cr_retired_at : option Time
}.

Record AuditRow := mkAuditRow {
  au_id : string;
  au_actor_id : option string;
  au_actor_type : option string;
  au_action : string;
  au_target_type : option string;
  au_target_id : option string;
  au_metadata : json;
  au_correlation_id : string;
  au_occurred_at : Time
}.

Record EventRow := mkEventRow {
  e_id : string;
  e_event_type : string;
  e_aggregate_type : string;
  e_aggregate_id : string;
  e_payload : json;
  e_headers : json;
  e_created_at : Time;
  e_published_at : option Time;
  e_attempts : Z;
  e_last_error : option string
}.

Record IdDB := mkIdDB {
  users : gmap string UserRow;
  roles : gmap string RoleRow;
  permissions : gmap string string;                 (** name by id *)
  role_permissions : list (string * string);
  user_roles : gmap (string * string) UserRoleRow;
  sessions : gmap string SessionRow;
  reset_tokens : gmap string TokenRow;
  verification_tokens : gmap string TokenRow;
  service_principals : gmap string PrincipalRow;
  service_principal_credentials : list CredentialRow;
  security_audit : list AuditRow;
  id_outbox : list EventRow
}.

Definition set_users (d : IdDB) v : IdDB :=
  mkIdDB v (roles d) (permissions d) (role_permissions d) (user_roles d) (sessions d) (reset_tokens d)
    (verification_tokens d) (service_principals d) (service_principal_credentials d) (security_audit d) (id_outbox d).
Definition set_user_roles (d : IdDB) v : IdDB :=
  mkIdDB (users d) (roles d) (permissions d) (role_permissions d) v (sessions d) (reset_tokens d)
    (verification_tokens d) (service_principals d) (service_principal_credentials d) (security_audit d) (id_outbox d).
Definition set_sessions (d : IdDB) v : IdDB :=
  mkIdDB (users d) (roles d) (permissions d) (role_permissions d) (user_roles d) v (reset_tokens d)
    (verification_tokens d) (service_principals d) (service_principal_credentials d) (security_audit d) (id_outbox d).
Definition set_reset_tokens (d : IdDB) v : IdDB :=
  mkIdDB (users d) (roles d) (permissions d) (role_permissions d) (user_roles d) (sessions d) v
    (verification_tokens d) (service_principals d) (service_principal_credentials d) (security_audit d) (id_outbox d).
Definition set_verification_tokens (d : IdDB) v : IdDB :=
  mkIdDB (users d) (roles d) (permissions d) (role_permissions d) (user_roles d) (sessions d) (reset_tokens d)
    v (service_principals d) (service_principal_credentials d) (security_audit d) (id_outbox d).
Definition set_principals (d : IdDB) v : IdDB :=
  mkIdDB (users d) (roles d) (permissions d) (role_permissions d) (user_roles d) (sessions d) (reset_tokens d)
    (verification_tokens d) v (service_principal_credentials d) (security_audit d) (id_outbox d).
Definition set_audit (d : IdDB) v : IdDB :=
  mkIdDB (users d) (roles d) (permissions d) (role_permissions d) (user_roles d) (sessions d) (reset_tokens d)
    (verification_tokens d) (service_principals d) (service_principal_credentials d) v (id_outbox d).
Definition set_id_outbox (d : IdDB) v : IdDB :=
  mkIdDB (users d) (roles d) (permissions d) (role_permissions d) (user_roles d) (sessions d) (reset_tokens d)
    (verification_tokens d) (service_principals d) (service_principal_credentials d) (security_audit d) v.

Definition user_statuses : list string := [UserActive; UserDisabled; UserPendingVerification].

Definition rows {A} (m : gmap string A) : list A := map snd (map_to_list m).
Definition known {A} (m : gmap string A) (o : option string) : bool :=
  match o with None => true | Some id => bool_decide (is_Some (m !! id)) end.

(** [LIKE pattern ESCAPE '\']; a pattern that ends in the escape is an error. *)
Fixpoint like (p s : list ascii) : bool :=
  match p with
  | [] => match s with [] => true | _ => false end
  | c :: p1 =>
      if (c =? "\")%char then
        match p1 with
        | [] => false
        | e :: p2 => match s with d :: s' => (e =? d)%char && like p2 s' | [] => false end
        end
      else if (c =? "%")%char then
        (fix any s := like p1 s || match s with [] => false | _ :: s' => any s' end) s
      else match s with
           | [] => false
           | d :: s' => ((c =? "_")%char || (c =? d)%char) && like p1 s'
           end
  end.

Module IdQueries.
Section Queries.
Context `{Pg}.

(** ** Users *)

Definition GetUserByEmail (email : string) (d : IdDB) : result goerr (IdDB * UserRow) :=
  match filter (fun r => ur_email_normalized r = email) (rows (users d)) with
  | r :: _ => Ok (d, r)
  | [] => Err ErrNoRows
  end.
Definition GetUserByID (id : string) (d : IdDB) : result goerr (IdDB * UserRow) :=
  match users d !! id with Some r => Ok (d, r) | None => Err ErrNoRows end.

Definition CreateUser (id email normalized hash status : string) (createdAt : Time) (d : IdDB)
  : result goerr (IdDB * UserRow) :=
  let row := mkUserRow id email normalized hash status None (pg_time createdAt) (pg_time createdAt) in
  check bool_decide (status ∈ user_statuses) else check_violation "users_status_check" in
  reject bool_decide (is_Some (users d !! id)) with unique_violation "users_pkey" in
  reject existsb (fun r => (ur_email_normalized r =? normalized)%string) (rows (users d))
    with unique_violation "users_email_normalized_key" in
  Ok (set_users d (<[id := row]> (users d)), row).

Definition UpdateUserStatus (id status : string) (updatedAt : Time) (d : IdDB) : result goerr (IdDB * Z) :=
  match users d !! id with
  | None => Ok (d, 0)
  | Some r =>
      check bool_decide (status ∈ user_statuses) else check_violation "users_status_check" in
      Ok (set_users d (<[id := mkUserRow (ur_id r) (ur_email r) (ur_email_normalized r) (ur_password_hash r) status
                                 (ur_email_verified_at r) (ur_created_at r) (pg_time updatedAt)]> (users d)), 1)
  end.
Definition UpdatePassword (id hash : string) (updatedAt : Time) (d : IdDB) : result goerr (IdDB * unit) :=
  match users d !! id with
  | None => Ok (d, tt)
  | Some r =>
      Ok (set_users d (<[id := mkUserRow (ur_id r) (ur_email r) (ur_email_normalized r) hash (ur_status r)
                                 (ur_email_verified_at r) (ur_created_at r) (pg_time updatedAt)]> (users d)), tt)
  end.
Definition MarkEmailVerified (id : string) (at_ : Time) (d : IdDB) : result goerr (IdDB * Z) :=
  match users d !! id with
  | Some r =>
      if (ur_status r =? UserPendingVerification)%string then
        Ok (set_users d (<[id := mkUserRow (ur_id r) (ur_email r) (ur_email_normalized r) (ur_password_hash r)
                                   UserActive (Some (pg_time at_)) (ur_created_at r) (pg_time at_)]> (users d)), 1)
      else Ok (d, 0)
  | None => Ok (d, 0)
  end.

(** ** Roles *)

Definition active_role (r : RoleRow) : bool := (ro_status r =? "ACTIVE")%string.
Definition role_named (name : string) (d : IdDB) : list RoleRow :=
  filter (fun r => ro_name r = name) (rows (roles d)).

Definition GetRoleByName (name : string) (d : IdDB) : result goerr (IdDB * RoleRow) :=
  match List.filter active_role (role_named name d) with
  | r :: _ => Ok (d, r)
  | [] => Err ErrNoRows
  end.

(** INSERT ... SELECT from roles ... ON CONFLICT DO NOTHING; names are unique. *)
Definition AssignRole (userID name : string) (at_ : Time) (by_ : option string) (d : IdDB)
  : result goerr (IdDB * Z) :=
  match List.filter active_role (role_named name d) with
  | [] => Ok (d, 0)
  | r :: _ =>
      match user_roles d !! (userID, ro_id r) with
      | Some _ => Ok (d, 0)
      | None =>
          check bool_decide (is_Some (users d !! userID)) else fk_violation "user_roles_user_id_fkey" in
          check known (users d) by_ else fk_violation "user_roles_assigned_by_fkey" in
          Ok (set_user_roles d (<[(userID, ro_id r) := mkUserRoleRow (pg_time at_) by_]> (user_roles d)), 1)
      end
  end.
Definition RemoveRole (userID name : string) (d : IdDB) : result goerr (IdDB * Z) :=
  match role_named name d with
  | r :: _ =>
      match user_roles d !! (userID, ro_id r) with
      | Some _ => Ok (set_user_roles d (delete (userID, ro_id r) (user_roles d)), 1)
      | None => Ok (d, 0)
      end
  | [] => Ok (d, 0)
  end.

(** The rows of [user_roles ur JOIN roles r ON r.id = ur.role_id] whose role is active. *)
Definition active_grants (d : IdDB) : list (string * RoleRow) :=
  omap (fun e => match roles d !! snd (fst e) with
                 | Some r => if active_role r then Some (fst (fst e), r) else None
                 | None => None
                 end) (map_to_list (user_roles d)).
Definition HasActiveRole (userID name : string) (d : IdDB) : result goerr (IdDB * bool) :=
  Ok (d, existsb (fun g => (fst g =? userID)%string && (ro_name (snd g) =? name)%string) (active_grants d)).
Definition CountActiveAdministrators (d : IdDB) : result goerr (IdDB * Z) :=
  Ok (d, Z.of_nat (length (List.filter (fun g => (ro_name (snd g) =? "admin")%string) (active_grants d)))).

(** ORDER BY two columns, the second a text. *)
Definition pair_leb (ltb : string -> string -> bool) (a b : string * string) : bool :=
  ltb (fst a) (fst b) || ((fst a =? fst b)%string && negb (text_ltb (snd b) (snd a))).
Definition ListUserRoles (userID : string) (d : IdDB) : result goerr (IdDB * list (string * string)) :=
  let granted := omap (fun g => if (fst g =? userID)%string then Some (snd g) else None) (active_grants d) in
  let names r := omap (fun rp => if (fst rp =? ro_id r)%string
                                 then (fun p => (ro_name r, p)) <$> permissions d !! snd rp else None)
                   (role_permissions d) in
  Ok (d, order_by (pair_leb text_ltb) (flat_map names granted)).
Definition ListUserRoleNames (ids : list string) (d : IdDB) : result goerr (IdDB * list (string * string)) :=
  Ok (d, order_by (pair_leb String.ltb)
           (omap (fun g => if bool_decide (fst g ∈ ids) then Some (fst g, ro_name (snd g)) else None)
              (active_grants d))).

(** ** Sessions *)

Definition GetSessionByRefreshHash (hash : string) (d : IdDB) : result goerr (IdDB * SessionRow) :=
  match filter (fun r => s_refresh_token_hash r = hash) (rows (sessions d)) with
  | r :: _ => Ok (d, r)
  | [] => Err ErrNoRows
  end.
Definition GetSessionByID (id : string) (d : IdDB) : result goerr (IdDB * SessionRow) :=
  match sessions d !! id with Some r => Ok (d, r) | None => Err ErrNoRows end.

Definition CreateSession (id family user hash : string) (expiresAt createdAt : Time)
    (agentHash prefixHash rotatedFrom : option string) (d : IdDB) : result goerr (IdDB * SessionRow) :=
  let row := mkSessionRow id family user hash SessionActive (pg_time expiresAt) None None rotatedFrom None
               (pg_time createdAt) (Some (pg_time createdAt)) agentHash prefixHash in
  reject bool_decide (is_Some (sessions d !! id)) with unique_violation "sessions_pkey" in
  reject existsb (fun r => (s_refresh_token_hash r =? hash)%string) (rows (sessions d))
    with unique_violation "sessions_refresh_token_hash_key" in
  check bool_decide (is_Some (users d !! user)) else fk_violation "sessions_user_id_fkey" in
  check known (sessions d) rotatedFrom else fk_violation "sessions_rotated_from_session_id_fkey" in
  Ok (set_sessions d (<[id := row]> (sessions d)), row).

(** SELECT ... FOR UPDATE *)
Definition LockActiveSession (id : string) (d : IdDB) : result goerr (IdDB * string) :=
  match sessions d !! id with
  | Some r => if (s_status r =? SessionActive)%string then Ok (d, s_id r) else Err ErrNoRows
  | None => Err ErrNoRows
  end.

Definition rotated_row (r : SessionRow) (replacement : string) (at_ : Time) : SessionRow :=
  mkSessionRow (s_id r) (s_family_id r) (s_user_id r) (s_refresh_token_hash r) SessionRotated (s_expires_at r)
    (s_revoked_at r) (s_revoked_reason r) (s_rotated_from_session_id r) (Some replacement) (s_created_at r)
    (Some (pg_time at_)) (s_user_agent_hash r) (s_ip_prefix_hash r).
Definition RotateSession (id replacement : string) (at_ : Time) (d : IdDB) : result goerr (IdDB * Z) :=
  match sessions d !! id with
  | Some r =>
      if (s_status r =? SessionActive)%string then
        check known (sessions d) (Some replacement) else fk_violation "sessions_replaced_by_session_id_fkey" in
        Ok (set_sessions d (<[id := rotated_row r replacement at_]> (sessions d)), 1)
      else Ok (d, 0)
  | None => Ok (d, 0)
  end.

Definition revoked_row (at_ : Time) (reason : string) (r : SessionRow) : SessionRow :=
  mkSessionRow (s_id r) (s_family_id r) (s_user_id r) (s_refresh_token_hash r) SessionRevoked (s_expires_at r)
    (Some (pg_time at_)) (Some reason) (s_rotated_from_session_id r) (s_replaced_by_session_id r) (s_created_at r)
    (s_last_used_at r) (s_user_agent_hash r) (s_ip_prefix_hash r).
(** UPDATE sessions ... WHERE hit AND status <> 'REVOKED' *)
Definition revoke_where (hit : SessionRow -> bool) (at_ : Time) (reason : string) (d : IdDB) : IdDB :=
  set_sessions d ((fun r => if hit r && negb (s_status r =? SessionRevoked)%string
                            then revoked_row at_ reason r else r) <$> sessions d).
Definition RevokeSessionFamily (family : string) (at_ : Time) (reason : string) (d : IdDB)
  : result goerr (IdDB * unit) :=
  Ok (revoke_where (fun r => (s_family_id r =? family)%string) at_ reason d, tt).
Definition RevokeSessionByID (id : string) (at_ : Time) (reason : string) (d : IdDB) : result goerr (IdDB * unit) :=
  Ok (revoke_where (fun r => (s_id r =? id)%string) at_ reason d, tt).
Definition RevokeUserSessions (user : string) (at_ : Time) (reason : string) (d : IdDB)
  : result goerr (IdDB * unit) :=
  Ok (revoke_where (fun r => (s_user_id r =? user)%string) at_ reason d, tt).

(** (created_at, id) < (c, i); a null id makes the comparison null when the times are equal. *)
Definition before_cursor (created : Time) (id : string) (c : option Time) (i : option string) : bool :=
  match c with
  | None => true
  | Some c => Before created c ||
              ((nanos created =? nanos c) && match i with Some i => String.ltb id i | None => false end)
  end.
(** ORDER BY created_at DESC, id DESC *)
Definition newest_first (a b : Time * string) : bool :=
  Before (fst b) (fst a) || ((nanos (fst a) =? nanos (fst b)) && negb (String.ltb (snd a) (snd b))).

Definition session_key (r : SessionRow) : Time * string := (s_created_at r, s_id r).
Definition ListUserSessions (user : string) (d : IdDB) : result goerr (IdDB * list SessionRow) :=
  Ok (d, order_by (fun a b => negb (Before (s_created_at a) (s_created_at b)))
           (filter (fun r => s_user_id r = user) (rows (sessions d)))).
Definition ListUserSessionsPage (user : string) (c : option Time) (i : option string) (pageSize : Z) (d : IdDB)
  : result goerr (IdDB * list SessionRow) :=
  let found := filter (fun r => s_user_id r = user /\ before_cursor (s_created_at r) (s_id r) c i = true)
                 (rows (sessions d)) in
  let? page := limited pageSize (order_by (fun a b => newest_first (session_key a) (session_key b)) found) in
  Ok (d, page).

Definition user_key (r : UserRow) : Time * string := (ur_created_at r, ur_id r).
Definition ListUsersPage (status role prefix : string) (c : option Time) (i : option string) (pageSize : Z)
    (d : IdDB) : result goerr (IdDB * list UserRow) :=
  let found := filter (fun r =>
      (status = "" \/ ur_status r = status) /\
      (role = "" \/ existsb (fun g => (fst g =? ur_id r)%string && (ro_name (snd g) =? role)%string)
                      (active_grants d) = true) /\
      (prefix = "" \/ like (bytes prefix ++ ["%"%char]) (bytes (ur_email_normalized r)) = true) /\
      before_cursor (ur_created_at r) (ur_id r) c i = true) (rows (users d)) in
  let? page := limited pageSize (order_by (fun a b => newest_first (user_key a) (user_key b)) found) in
  Ok (d, page).

(** ** One-time tokens *)

Definition find_token (m : gmap string TokenRow) (hash : string) : result goerr TokenRow :=
  match filter (fun r => t_token_hash r = hash) (rows m) with r :: _ => Ok r | [] => Err ErrNoRows end.
Definition add_token (m : gmap string TokenRow) (d : IdDB) (id user hash : string) (expiresAt createdAt : Time)
  : result goerr (gmap string TokenRow) :=
  reject bool_decide (is_Some (m !! id)) || existsb (fun r => (t_token_hash r =? hash)%string) (rows m)
    with unique_violation "token_hash" in
  check bool_decide (is_Some (users d !! user)) else fk_violation "token_user_id_fkey" in
  Ok (<[id := mkTokenRow id user hash (pg_time expiresAt) None (pg_time createdAt)]> m).
Definition consume_token (m : gmap string TokenRow) (id : string) (at_ : Time) : gmap string TokenRow * Z :=
  match m !! id with
  | Some r =>
      match t_consumed_at r with
      | None => (<[id := mkTokenRow (t_id r) (t_user_id r) (t_token_hash r) (t_expires_at r) (Some (pg_time at_))
                           (t_created_at r)]> m, 1)
      | Some _ => (m, 0)
      end
  | None => (m, 0)
  end.

Definition GetResetToken (hash : string) (d : IdDB) : result goerr (IdDB * TokenRow) :=
  let? r := find_token (reset_tokens d) hash in Ok (d, r).
Definition GetVerificationToken (hash : string) (d : IdDB) : result goerr (IdDB * TokenRow) :=
  let? r := find_token (verification_tokens d) hash in Ok (d, r).
Definition CreateResetToken (id user hash : string) (expiresAt createdAt : Time) (d : IdDB)
  : result goerr (IdDB * unit) :=
  let? m := add_token (reset_tokens d) d id user hash expiresAt createdAt in Ok (set_reset_tokens d m, tt).
Definition CreateVerificationToken (id user hash : string) (expiresAt createdAt : Time) (d : IdDB)
  : result goerr (IdDB * unit) :=
  let? m := add_token (verification_tokens d) d id user hash expiresAt createdAt in
  Ok (set_verification_tokens d m, tt).
Definition ConsumeResetToken (id : string) (at_ : Time) (d : IdDB) : result goerr (IdDB * Z) :=
  let '(m, n) := consume_token (reset_tokens d) id at_ in Ok (set_reset_tokens d m, n).
Definition ConsumeVerificationToken (id : string) (at_ : Time) (d : IdDB) : result goerr (IdDB * Z) :=
  let '(m, n) := consume_token (verification_tokens d) id at_ in Ok (set_verification_tokens d m, n).

(** ** Machines *)

Definition GetServicePrincipal (clientID : string) (d : IdDB) : result goerr (IdDB * PrincipalRow) :=
  match filter (fun r => pr_client_id r = clientID) (rows (service_principals d)) with
  | r :: _ => Ok (d, r)
  | [] => Err ErrNoRows
  end.
Definition ListActiveServiceCredentials (principal : string) (now : Time) (d : IdDB)
  : result goerr (IdDB * list CredentialRow) :=
  Ok (d, order_by (fun a b => negb (Before (cr_valid_from a) (cr_valid_from b)))
           (filter (fun r => cr_service_principal_id r = principal /\ cr_status r = "ACTIVE" /\
                             After (cr_valid_from r) (pg_time now) = false /\ cr_retired_at r = None)
              (service_principal_credentials d))).
Definition MarkServicePrincipalUsed (id : string) (at_ : Time) (d : IdDB) : result goerr (IdDB * unit) :=
  match service_principals d !! id with
  | None => Ok (d, tt)
  | Some r =>
      Ok (set_principals d (<[id := mkPrincipalRow (pr_id r) (pr_client_id r) (pr_status r) (pr_scopes r)
                                      (pr_audience r) (Some (pg_time at_))]> (service_principals d)), tt)
  end.

(** ** Audit trail and outbox *)

Definition InsertSecurityAudit (id : string) (actorID actorType : option string) (action : string)
    (targetType targetID : option string) (metadata : json) (correlation : string) (at_ : Time) (d : IdDB)
  : result goerr (IdDB * unit) :=
  reject existsb (fun r => (au_id r =? id)%string) (security_audit d) with unique_violation "security_audit_pkey" in
  Ok (set_audit d (security_audit d ++
        [mkAuditRow id actorID actorType action targetType targetID metadata correlation (pg_time at_)]), tt).
Definition InsertOutboxEvent (id eventType aggregateType aggregateID : string) (payload headers : json)
    (createdAt : Time) (d : IdDB) : result goerr (IdDB * unit) :=
  reject existsb (fun r => (e_id r =? id)%string) (id_outbox d) with unique_violation "outbox_events_pkey" in
  Ok (set_id_outbox d (id_outbox d ++
        [mkEventRow id eventType aggregateType aggregateID payload headers (pg_time createdAt) None 0 None]), tt).

Definition CountPendingOutbox (d : IdDB) : result goerr (IdDB * Z) :=
  Ok (d, Z.of_nat (length (filter (fun r => e_published_at r = None) (id_outbox d)))).
Definition ListPendingOutbox (limit : Z) (d : IdDB) : result goerr (IdDB * list EventRow) :=
  let? page := limited limit (order_by (fun a b => negb (After (e_created_at a) (e_created_at b)))
                                (filter (fun r => e_published_at r = None) (id_outbox d))) in
  Ok (d, page).
(** One more attempt on the rows with the id, refused when the counter is full. *)
Definition attempt_on (id : string) (upd : EventRow -> EventRow) (d : IdDB) : result goerr (IdDB * unit) :=
  check forallb (fun r => negb (e_id r =? id)%string || (e_attempts r + 1 <? 2 ^ 31)) (id_outbox d)
    else out_of_range "integer out of range" in
  Ok (set_id_outbox d (map (fun r => if (e_id r =? id)%string then upd r else r) (id_outbox d)), tt).
Definition MarkOutboxPublished (id : string) (at_ : Time) (d : IdDB) : result goerr (IdDB * unit) :=
  attempt_on id (fun r => mkEventRow (e_id r) (e_event_type r) (e_aggregate_type r) (e_aggregate_id r) (e_payload r)
                            (e_headers r) (e_created_at r) (Some (pg_time at_)) (e_attempts r + 1) None) d.
Definition MarkOutboxFailed (id : string) (reason : string) (d : IdDB) : result goerr (IdDB * unit) :=
  attempt_on id (fun r => mkEventRow (e_id r) (e_event_type r) (e_aggregate_type r) (e_aggregate_id r) (e_payload r)
                            (e_headers r) (e_created_at r) (e_published_at r) (e_attempts r + 1) (Some reason)) d.
End Queries.
End IdQueries.
