(* ===== verification/IdentityStore.v ===== *)
(** * Identity: the store

    [apps/identity/internal/adapters/outbound/postgres/store.go]: the reads, the
    transaction wrapper and the statements inside one, as programs over the
    tables; the values are those of [ports.go]. *)
From Stdlib Require Import ZArith Lia Ascii String.
From stdpp Require Import base gmap strings list relations pretty.
From S2P Require Import Prelude GoStrings GoErrors GoTime GoJson Tx IdentityDomain IdentityTables.

Open Scope string_scope.
Open Scope Z_scope.
Open Scope go_scope.

Definition mapDatabaseError (err : goerr) : goerr :=
  if errors_Is err ErrNoRows then ErrNotFound
  else match errors_AsPg err with
       | Some code => if (code =? "23505")%string then ErrConflict else Errorf_ww ErrDependency err
       | None => Errorf_ww ErrDependency err
       end.

(** What is passed to the store and back. *)
Record UserPageQuery := mkUserPageQuery {
  uq_Status : string; uq_Role : string; uq_EmailPrefix : string;
  uq_CursorCreatedAt : option Time; uq_CursorID : string; uq_Limit : Z
}.
Record UserPageItem := mkUserPageItem { up_User : User; up_Roles : list string }.
Record UserPage := mkUserPage {
  ug_Items : list UserPageItem; ug_HasMore : bool; ug_LastCreated : Time; ug_LastID : string
}.
Record SessionPageQuery := mkSessionPageQuery {
  sq_CursorCreatedAt : option Time; sq_CursorID : string; sq_Limit : Z
}.
Record SessionPage := mkSessionPage {
  sg_Items : list Session; sg_HasMore : bool; sg_LastCreated : Time; sg_LastID : string
}.
Record AuditRecord := mkAuditRecord {
  ar_ID : string; ar_ActorID : option string; ar_ActorType : option string; ar_Action : string;
  ar_TargetType : option string; ar_TargetID : option string; ar_Metadata : json;
  ar_CorrelationID : string; ar_OccurredAt : Time
}.
Record OutboxRecord := mkOutboxRecord {
  or_ID : string; or_EventType : string; or_AggregateType : string; or_AggregateID : string;
  or_Payload : json; or_Headers : json; or_CreatedAt : Time
}.

(** [uuid.Nil] *)
Definition uuid_nil : string := "00000000-0000-0000-0000-000000000000".
Definition nullableUUIDValue (id : string) : option string := if (id =? uuid_nil)%string then None else Some id.

Definition mapUser (r : UserRow) : User :=
  mkUser (ur_id r) (ur_email r) (ur_email_normalized r) (ur_password_hash r) (ur_status r) (ur_email_verified_at r)
    (ur_created_at r) (ur_updated_at r).
(** [mapSession] leaves out where the session was rotated from. *)
Definition mapSession (r : SessionRow) : Session :=
  mkSession (s_id r) (s_family_id r) (s_user_id r) (s_status r) None (s_expires_at r) (s_revoked_at r)
    (s_created_at r) (s_last_used_at r).
Definition mapToken (r : TokenRow) : OneTimeToken :=
  mkOneTimeToken (t_id r) (t_user_id r) (t_expires_at r) (t_consumed_at r).

Section Store.
Context `{GoLib} `{Env} `{Pg} {L : Type}.
Local Notation Prog := (M IdDB L).

(** One statement, its error mapped. *)
Definition query {A} (q : IdDB -> result goerr (IdDB * A)) : Prog A := mapE mapDatabaseError (exec q).

(** [WithTransaction]: commit when the body succeeds, roll back when it fails. *)
Definition WithTransaction {A} (body : Prog A) : Prog A :=
  in_tx mapDatabaseError (let! a := body in ret (CommitThen a)).

(** ** Reads *)

Definition FindUserByEmail (email : string) : Prog User :=
  let! r := query (IdQueries.GetUserByEmail email) in ret (mapUser r).
Definition FindUser (id : string) : Prog User :=
  let! r := query (IdQueries.GetUserByID id) in ret (mapUser r).
Definition UserRoles (id : string) : Prog (list RolePermission) :=
  let! l := query (IdQueries.ListUserRoles id) in ret (map (fun p => mkRolePermission (fst p) (snd p)) l).
Definition FindRole (name : string) : Prog unit :=
  let! _ := query (IdQueries.GetRoleByName name) in ret tt.
Definition FindSessionByRefreshHash (hash : string) : Prog Session :=
  let! r := query (IdQueries.GetSessionByRefreshHash hash) in ret (mapSession r).
Definition FindSessionByID (id : string) : Prog Session :=
  let! r := query (IdQueries.GetSessionByID id) in ret (mapSession r).
Definition ListSessions (userID : string) : Prog (list Session) :=
  let! l := query (IdQueries.ListUserSessions userID) in ret (map mapSession l).

(** One row more than the page is asked for, to see whether there is a next one. *)
Definition ListSessionsPage (userID : string) (q : SessionPageQuery) : Prog SessionPage :=
  let! l := query (IdQueries.ListUserSessionsPage userID (option_map UTC (sq_CursorCreatedAt q))
                     (nullableUUIDValue (sq_CursorID q)) (wrap_i32 (sq_Limit q + 1))) in
  let all := map mapSession l in
  let more := sq_Limit q <? Z.of_nat (length all) in
  let items := if more then take (Z.to_nat (sq_Limit q)) all else all in
  ret match last items with
      | Some s => mkSessionPage items more (se_CreatedAt s) (se_ID s)
      | None => mkSessionPage items more zeroTime uuid_nil
      end.

Definition ListUsersPage (q : UserPageQuery) : Prog UserPage :=
  let! l := query (IdQueries.ListUsersPage (uq_Status q) (uq_Role q) (uq_EmailPrefix q)
                     (option_map UTC (uq_CursorCreatedAt q)) (nullableUUIDValue (uq_CursorID q))
                     (wrap_i32 (uq_Limit q + 1))) in
  let more := uq_Limit q <? Z.of_nat (length l) in
  let found := if more then take (Z.to_nat (uq_Limit q)) l else l in
  let! names := query (IdQueries.ListUserRoleNames (map ur_id found)) in
  let roles id := omap (fun p => if (fst p =? id)%string then Some (snd p) else None) names in
  let items := map (fun r => mkUserPageItem (mapUser r) (roles (ur_id r))) found in
  ret match last items with
      | Some i => mkUserPage items more (u_CreatedAt (up_User i)) (u_ID (up_User i))
      | None => mkUserPage items more zeroTime uuid_nil
      end.

(** [json.Unmarshal(raw, &scopes)] into a slice of strings. *)
Definition dec_strings (v : json) : option (list string) :=
  match v with
  | JNull => Some []
  | JArr l => mapM (fun e => dec_string "" e) l
  | _ => None
  end.
Definition FindServicePrincipal (clientID : string) : Prog ServicePrincipal :=
  let! p := query (IdQueries.GetServicePrincipal clientID) in
  match json_parse (jsonb_out (pr_scopes p)) ≫= dec_strings with
  | Some scopes => ret (mkPrincipal (pr_id p) (pr_client_id p) (pr_status p) scopes (pr_audience p))
  | None => fail (Errorf_w (NewErr "decode machine scopes") "invalid JSON")
  end.
Definition ActiveServiceCredentials (principal : string) (now : Time) : Prog (list ServiceCredential) :=
  let! l := query (IdQueries.ListActiveServiceCredentials principal now) in
  ret (map (fun r => mkCredential (cr_id r) (cr_service_principal_id r) (cr_secret_hash r) (cr_status r)
                       (cr_valid_from r) (cr_retired_at r)) l).
Definition FindResetToken (hash : string) : Prog OneTimeToken :=
  let! r := query (IdQueries.GetResetToken hash) in ret (mapToken r).
Definition FindVerificationToken (hash : string) : Prog OneTimeToken :=
  let! r := query (IdQueries.GetVerificationToken hash) in ret (mapToken r).

(** ** Inside a transaction *)

Definition tx_CreateUser (u : User) : Prog User :=
  let! r := query (IdQueries.CreateUser (u_ID u) (u_Email u) (u_EmailNormalized u) (u_PasswordHash u) (u_Status u)
                     (u_CreatedAt u)) in
  ret (mapUser r).
Definition tx_CreateSession (s : Session) (refreshHash : string) (agentHash prefixHash : option string) : Prog unit :=
  let! _ := query (IdQueries.CreateSession (se_ID s) (se_FamilyID s) (se_UserID s) refreshHash (se_ExpiresAt s)
                     (se_CreatedAt s) agentHash prefixHash (se_RotatedFromSessionID s)) in
  ret tt.
(** The pair of a flag and an error: [Ok true], or the error with false. *)
Definition tx_LockActiveSession (id : string) : Prog (result goerr bool) :=
  let! r := try_ (exec (IdQueries.LockActiveSession id)) in
  ret match r with
      | Ok _ => Ok true
      | Err e => Err (if errors_Is e ErrNoRows then ErrNotFound else mapDatabaseError e)
      end.
Definition tx_RotateSession (id replacement : string) (now : Time) : Prog Z :=
  query (IdQueries.RotateSession id replacement now).
Definition tx_RevokeSessionFamily (family : string) (now : Time) (reason : string) : Prog unit :=
  query (IdQueries.RevokeSessionFamily family now reason).
Definition tx_RevokeSession (id : string) (now : Time) (reason : string) : Prog unit :=
  query (IdQueries.RevokeSessionByID id now reason).
Definition tx_RevokeUserSessions (user : string) (now : Time) (reason : string) : Prog unit :=
  query (IdQueries.RevokeUserSessions user now reason).
Definition tx_UpdateUserStatus (id status : string) (now : Time) : Prog Z :=
  query (IdQueries.UpdateUserStatus id status now).
Definition tx_UpdatePassword (id hash : string) (now : Time) : Prog unit :=
  query (IdQueries.UpdatePassword id hash now).
Definition tx_AssignRole (user role : string) (now : Time) (by_ : option string) : Prog Z :=
  query (IdQueries.AssignRole user role now by_).
Definition tx_RemoveRole (user role : string) : Prog Z := query (IdQueries.RemoveRole user role).
Definition tx_HasActiveRole (user role : string) : Prog bool := query (IdQueries.HasActiveRole user role).
Definition tx_CountActiveAdministrators : Prog Z := query IdQueries.CountActiveAdministrators.
Definition tx_CreateResetToken (id user hash : string) (expiresAt createdAt : Time) : Prog unit :=
  query (IdQueries.CreateResetToken id user hash expiresAt createdAt).
Definition tx_ConsumeResetToken (id : string) (now : Time) : Prog Z := query (IdQueries.ConsumeResetToken id now).
Definition tx_CreateVerificationToken (id user hash : string) (expiresAt createdAt : Time) : Prog unit :=
  query (IdQueries.CreateVerificationToken id user hash expiresAt createdAt).
Definition tx_ConsumeVerificationToken (id : string) (now : Time) : Prog Z :=
  query (IdQueries.ConsumeVerificationToken id now).
Definition tx_MarkEmailVerified (id : string) (now : Time) : Prog Z := query (IdQueries.MarkEmailVerified id now).
Definition tx_MarkServicePrincipalUsed (id : string) (now : Time) : Prog unit :=
  query (IdQueries.MarkServicePrincipalUsed id now).
Definition tx_RecordAudit (r : AuditRecord) : Prog unit :=
  query (IdQueries.InsertSecurityAudit (ar_ID r) (ar_ActorID r) (ar_ActorType r) (ar_Action r) (ar_TargetType r)
           (ar_TargetID r) (ar_Metadata r) (ar_CorrelationID r) (ar_OccurredAt r)).
Definition tx_RecordOutbox (r : OutboxRecord) : Prog unit :=
  query (IdQueries.InsertOutboxEvent (or_ID r) (or_EventType r) (or_AggregateType r) (or_AggregateID r)
           (or_Payload r) (or_Headers r) (or_CreatedAt r)).

(** ** The outbox *)

Definition PendingOutboxCount : Prog Z := query IdQueries.CountPendingOutbox.
Definition PendingOutbox (limit : Z) : Prog (list EventRow) := query (IdQueries.ListPendingOutbox limit).
Definition Store_MarkOutboxPublished (id : string) (at_ : Time) : Prog unit :=
  query (IdQueries.MarkOutboxPublished id at_).
Definition Store_MarkOutboxFailed (id reason : string) : Prog unit := query (IdQueries.MarkOutboxFailed id reason).
End Store.
