(* ===== verification/IdentityService.v ===== *)
(** * Identity: the service

    [apps/identity/internal/application/identity/service.go]: every use case as
    a program over the tables.  The body of each transaction is a program of
    its own ([*_tx]), with the values the code computed before it began. *)
From Stdlib Require Import ZArith Lia Ascii String.
From stdpp Require Import base gmap strings list relations pretty.
From S2P Require Import Prelude GoStrings GoErrors GoTime GoBase64 GoCrypto GoJson Tx.
From S2P Require Import IdentityDomain IdentityTables IdentityStore.

Open Scope string_scope.
Open Scope Z_scope.
Open Scope go_scope.

(** ** Ports *)

(** The ports of [ports.go] other than the store, and the library functions the
    service calls.  What depends on randomness, on time or on another machine is
    indexed by the event that asked for it. *)
Class IdPorts := {
  pw_Hash : nat -> string -> result goerr string;
  pw_Verify : string -> string -> bool;               (** password, encoded hash *)
  tk_NewOpaque : nat -> Z -> result goerr (string * string);
  tk_HashOpaque : string -> string;
  (** subject, audience, kind, session, roles, scopes, time to live *)
  tk_Sign : nat -> string -> string -> string -> string -> list string -> list string -> Z -> result goerr string;
  lim_reply : nat -> list string -> result goerr bool;
  mail_reply : nat -> result goerr unit;
  uuid_NewV7 : nat -> result goerr string;
  mail_ParseAddress : string -> option string;
  far_year_text : Time -> string      (** [Format(RFC3339Nano)] of a year without four digits *)
}.

(** [s.limiter]: absent, a [Limiter], or one that is a [DimensionLimiter] too. *)
Inductive limiter_kind := NoLimiter | KeyLimiter | ManyLimiter.

Record Service := mkService {
  svc_limiter : limiter_kind;
  svc_mailer : bool;
  humanAudience : string;
  machineAudience : string
}.

(** [NewService]: which of the four required ports are there, and the rest. *)
Definition NewService (store passwords tokens clock : bool) (limiter : limiter_kind) (mailer : bool)
    (human machine : string) : result goerr Service :=
  reject negb store || negb passwords || negb tokens || negb clock
    with NewErr "identity service dependencies are incomplete" in
  reject (human =? "")%string || (machine =? "")%string with NewErr "identity audiences are required" in
  Ok (mkService limiter mailer human machine).

Record Mail := mkMail { m_kind : string; m_to : string; m_token : string }.
Record Credentials := mkCredentials {
  AccessToken : string; RefreshToken : string; AccessTokenExpiresIn : Z; RefreshExpiresIn : Z
}.
Record MachineCredentials := mkMachineCredentials { MAccessToken : string; ExpiresIn : Z }.
Record AuditInput := mkAuditInput {
  in_Action : string; in_Outcome : string; in_ActorID : string; in_ActorType : string; in_TargetID : string;
  in_CorrelationID : string; in_Role : string; in_At : Time
}.

Definition accessTokenTTL : Z := 10 * Minute.
Definition machineTokenTTL : Z := 5 * Minute.
Definition refreshTokenTTL : Z := 30 * 24 * Hour.
Definition resetTokenTTL : Z := 30 * Minute.
Definition verifyTokenTTL : Z := 24 * Hour.

(** ** Pure helpers *)

Definition userRef (id : string) : string := "usr_" +:+ ReplaceAllDash id.
(** The values not in [seen], each once, in order. *)
Fixpoint first_seen (seen values : list string) : list string :=
  match values with
  | [] => []
  | v :: r => if bool_decide (v ∈ seen) then first_seen seen r else v :: first_seen (v :: seen) r
  end.
Definition roleNames (values : list RolePermission) : list string :=
  order_by String.leb (first_seen [] (map rp_Role values)).
Definition scopeNames (values : list RolePermission) : list string :=
  order_by String.leb (first_seen [] (map rp_Scope values)).
Definition optional (value : string) : option string := if (value =? "")%string then None else Some value.
Definition len (s : string) : Z := Z.of_nat (String.length s).
Definition bad_password_length (p : string) : bool := (len p <? 12) || (128 <? len p).
(** An error of a lookup: the dependency's, or the caller's. *)
Definition credential_error (e : goerr) : goerr :=
  if errors_Is e ErrNotFound then ErrInvalidCredentials else ErrDependency.

Section Helpers.
Context `{GoLib} `{Crypto} `{IdPorts}.

Definition nullableValue (value : string) : json := if (value =? "")%string then JNull else jstr value.
Definition identityKey (value : string) : string := HexEncode (sha256 value).
Definition Format_RFC3339Nano (t : Time) : string := default (far_year_text t) (format_rfc3339nano t).

Definition validateEmail (email : string) : result goerr unit :=
  let normalized := NormalizeEmail email in
  match mail_ParseAddress normalized with
  | None => Err ErrInvalidInput
  | Some address =>
      reject negb (address =? normalized)%string || (320 <? len normalized) with ErrInvalidInput in Ok tt
  end.
Definition validateCredentials (email password : string) : result goerr unit :=
  match validateEmail email with
  | Err _ => Err ErrConflict
  | Ok _ => reject bad_password_length password with ErrConflict in Ok tt
  end.
Definition dimension_keys (kind account source : string) : list string :=
  [kind +:+ "-account:" +:+ identityKey account; kind +:+ "-global:" +:+ kind] ++
  (if (TrimSpace source =? "")%string then [] else [kind +:+ "-source:" +:+ identityKey source]).
End Helpers.

Section Service.
Context `{GoLib} `{Crypto} `{Env} `{Pg} `{IdPorts}.
Local Notation Prog := (M IdDB (list Mail)).

(** One answer of a port. *)
Definition port {A} (f : nat -> result goerr A) : Prog A := fun s => (advance s, f (tick s)).
Definition newIdentityID : Prog string := port uuid_NewV7.
Definition NewOpaque : Prog (string * string) := port (fun n => tk_NewOpaque n 32).
Definition Hash (password : string) : Prog string := port (fun n => pw_Hash n password).
Definition Sign (subject audience kind sid : string) (roles scopes : list string) (ttl : Z) : Prog string :=
  port (fun n => tk_Sign n subject audience kind sid roles scopes ttl).
Definition clockNow : Prog Time := let! t := timeNow in ret (UTC t).
(** The mail is handed over, then the transport answers. *)
Definition Send (kind to_ token : string) : Prog unit :=
  let! sent := get_loc in
  let! _ := put_loc (sent ++ [mkMail kind to_ token])%list in
  port mail_reply.

(** ** Rate limits *)

Definition allowed (reply : result goerr bool) : result goerr unit :=
  match reply with
  | Err _ => Err ErrDependency
  | Ok false => Err ErrRateLimited
  | Ok true => Ok tt
  end.
Definition allow (svc : Service) (key : string) : Prog unit :=
  match svc_limiter svc with
  | NoLimiter => ret tt
  | _ => port (fun n => allowed (lim_reply n [key]))
  end.
Definition allowDimensions (svc : Service) (kind account source : string) : Prog unit :=
  let keys := dimension_keys kind account source in
  match svc_limiter svc with
  | ManyLimiter => port (fun n => allowed (lim_reply n keys))
  | _ => for_each (allow svc) keys
  end.

(** ** Audit *)

Definition audit_payload (input : AuditInput) (correlation eventID aggregateID : string) : json :=
  jmap [("event_id", jstr eventID); ("event_type", jstr "commerce.security.audit.v1");
        ("aggregate_type", jstr "security_audit"); ("aggregate_id", jstr aggregateID);
        ("correlation_id", jstr correlation); ("causation_id", JNull);
        ("occurred_at", jstr (Format_RFC3339Nano (in_At input))); ("producer", jstr "identity");
        ("schema_version", jint 1);
        ("data", jmap [("action", jstr (in_Action input)); ("outcome", jstr (in_Outcome input));
                       ("actor_id", nullableValue (in_ActorID input));
                       ("actor_type", nullableValue (in_ActorType input));
                       ("target_type", nullableValue "user"); ("target_id", nullableValue (in_TargetID input));
                       ("reason_code", JNull); ("role", nullableValue (in_Role input))])].
Definition recordAudit (input : AuditInput) : Prog unit :=
  let correlation := if (in_CorrelationID input =? "")%string then "identity" else in_CorrelationID input in
  let! auditID := newIdentityID in
  let aggregateID := "aud_" +:+ ReplaceAllDash auditID in
  let! outboxID := newIdentityID in
  let eventID := "evt_" +:+ ReplaceAllDash outboxID in
  let! _ := tx_RecordAudit (mkAuditRecord auditID (optional (in_ActorID input)) (optional (in_ActorType input))
              (in_Action input) (optional "user") (optional (in_TargetID input)) (jmap []) correlation
              (in_At input)) in
  tx_RecordOutbox (mkOutboxRecord outboxID "commerce.security.audit.v1" "security_audit" aggregateID
                     (audit_payload input correlation eventID aggregateID)
                     (jmap [("event_id", jstr eventID)]) (in_At input)).
(** The entry of an action of a user on a target, without a role. *)
Definition by_user (action outcome actor target correlation : string) (now : Time) : AuditInput :=
  mkAuditInput action outcome (userRef actor) "user" (userRef target) correlation "" now.
(** The entry of an action nobody is signed in for. *)
Definition unsigned (action target correlation : string) (now : Time) : AuditInput :=
  mkAuditInput action "success" "" "" (userRef target) correlation "" now.

(** ** Registration *)

Definition Register_tx (user : User) (verificationID verificationHash correlation : string) (now : Time)
  : Prog User :=
  let! created := tx_CreateUser user in
  let! _ := tx_AssignRole (u_ID created) "customer" now None in
  let! _ := tx_CreateVerificationToken verificationID (u_ID created) verificationHash (Add now verifyTokenTTL) now in
  let! _ := recordAudit (unsigned "register.succeeded" (u_ID created) correlation now) in
  ret created.
Definition Register (svc : Service) (email password source correlation : string) : Prog User :=
  let! _ := lift (validateCredentials email password) in
  let! _ := allowDimensions svc "register" (NormalizeEmail email) source in
  let! hash := Hash password in
  let! (token, tokenHash) := NewOpaque in
  let! now := clockNow in
  let! userID := newIdentityID in
  let! verificationID := newIdentityID in
  let user := mkUser userID (TrimSpace email) (NormalizeEmail email) hash UserPendingVerification None now now in
  let! created := WithTransaction (Register_tx user verificationID tokenHash correlation now) in
  let! _ := if svc_mailer svc then Send "email-verification" (u_Email created) token else ret tt in
  ret created.

(** ** Sessions *)

Definition issued (access refresh : string) : Credentials :=
  mkCredentials access refresh (accessTokenTTL / Second) (refreshTokenTTL / Second).
Definition createSession_tx (session : Session) (refreshHash correlation action : string) (now : Time) : Prog unit :=
  let! _ := tx_CreateSession session refreshHash None None in
  recordAudit (by_user action "success" (se_UserID session) (se_ID session) correlation now).
Definition createSession (svc : Service) (user : User) (roles : list RolePermission) (correlation action : string)
  : Prog Credentials :=
  let! now := clockNow in
  let! sessionID := newIdentityID in
  let! familyID := newIdentityID in
  let! (refresh, refreshHash) := NewOpaque in
  let! access := Sign (userRef (u_ID user)) (humanAudience svc) "human" sessionID (roleNames roles)
                   (scopeNames roles) accessTokenTTL in
  let session := mkSession sessionID familyID (u_ID user) SessionActive None (Add now refreshTokenTTL) None now
                   (Some now) in
  let! _ := WithTransaction (createSession_tx session refreshHash correlation action now) in
  ret (issued access refresh).

Definition Login (svc : Service) (email password correlation source : string)
  : Prog (Credentials * User * list RolePermission) :=
  let! _ := lift (match validateCredentials email password with
                  | Err _ => Err ErrInvalidCredentials | Ok _ => Ok tt end) in
  let! _ := allowDimensions svc "login" (NormalizeEmail email) source in
  let! user := mapE credential_error (FindUserByEmail (NormalizeEmail email)) in
  deny negb (u_Status user =? UserActive)%string || bool_decide (u_EmailVerifiedAt user = None) ||
       negb (pw_Verify password (u_PasswordHash user)) with ErrInvalidCredentials in
  let! roles := UserRoles (u_ID user) in
  let! credentials := createSession svc user roles correlation "login.succeeded" in
  ret (credentials, user, roles).

Definition reuse_error : goerr := Errorf_ww ErrInvalidCredentials ErrRefreshReuse.
(** The family is revoked and the reuse recorded. *)
Definition reuse_tx (user : User) (session : Session) (correlation : string) (now : Time) : Prog unit :=
  let! _ := tx_RevokeSessionFamily (se_FamilyID session) now "refresh_reuse" in
  recordAudit (by_user "refresh.reuse_detected" "failure" (u_ID user) (se_ID session) correlation now).
(** The answer is [reuseDetected]. *)
Definition Refresh_tx (user : User) (session new : Session) (refreshHash correlation : string) (now : Time)
  : Prog bool :=
  let! lock := tx_LockActiveSession (se_ID session) in
  let! locked := match lock with
                 | Ok b => ret b
                 | Err e => if errors_Is e ErrNotFound then ret false else fail e
                 end in
  if locked : bool then
    let! _ := tx_CreateSession new refreshHash None None in
    let! rotated := tx_RotateSession (se_ID session) (se_ID new) now in
    if negb (rotated =? 1) then let! _ := reuse_tx user session correlation now in ret true
    else let! _ := recordAudit (by_user "refresh.succeeded" "success" (u_ID user) (se_ID session) correlation now) in
         ret false
  else let! _ := reuse_tx user session correlation now in ret true.
Definition Refresh (svc : Service) (token correlation source : string)
  : Prog (Credentials * User * list RolePermission) :=
  deny (token =? "")%string with ErrInvalidCredentials in
  let! _ := allowDimensions svc "refresh" token source in
  let! session := mapE credential_error (FindSessionByRefreshHash (tk_HashOpaque token)) in
  let! now := clockNow in
  let! user := mapE credential_error (FindUser (se_UserID session)) in
  if negb (Session_IsUsable session now) || negb (u_Status user =? UserActive)%string then
    let! _ := mapE (fun _ => ErrDependency) (WithTransaction (reuse_tx user session correlation now)) in
    fail reuse_error
  else
    let! roles := UserRoles (u_ID user) in
    let! (refresh, refreshHash) := NewOpaque in
    let! replacementID := newIdentityID in
    let! access := Sign (userRef (u_ID user)) (humanAudience svc) "human" replacementID (roleNames roles)
                     (scopeNames roles) accessTokenTTL in
    let new := mkSession replacementID (se_FamilyID session) (u_ID user) SessionActive (Some (se_ID session))
                 (Add now refreshTokenTTL) None now (Some now) in
    let! reuse := WithTransaction (Refresh_tx user session new refreshHash correlation now) in
    deny reuse with reuse_error in
    ret (issued access refresh, user, roles).

Definition Logout_tx (userID sessionID correlation : string) (now : Time) : Prog unit :=
  let! _ := tx_RevokeSession sessionID now "logout" in
  recordAudit (by_user "logout.succeeded" "success" userID sessionID correlation now).
Definition Logout (userID sessionID correlation : string) : Prog unit :=
  let! now := clockNow in
  WithTransaction (Logout_tx userID sessionID correlation now).
Definition LogoutAll_tx (userID correlation : string) (now : Time) : Prog unit :=
  let! _ := tx_RevokeUserSessions userID now "logout_all" in
  recordAudit (by_user "logout_all.succeeded" "success" userID userID correlation now).
Definition LogoutAll (userID correlation : string) : Prog unit :=
  let! now := clockNow in
  WithTransaction (LogoutAll_tx userID correlation now).

(** ** Reads *)

Definition Sessions (userID : string) : Prog (list Session) := ListSessions userID.
(** The store in use is a [CollectionStore]. *)
Definition SessionsPage (userID : string) (q : SessionPageQuery) : Prog SessionPage := ListSessionsPage userID q.
Definition UsersPage (q : UserPageQuery) : Prog UserPage := ListUsersPage q.
Definition IsSessionActive (sessionID : string) : Prog bool :=
  let! session := FindSessionByID sessionID in
  let! now := timeNow in
  ret (Session_IsUsable session now).
Definition GetUser (userID : string) : Prog (User * list RolePermission) :=
  let! user := FindUser userID in
  let! roles := UserRoles userID in
  ret (user, roles).

(** ** Administration *)

(** An administrator may go when another one is left. *)
Definition spare_admin (targetID : string) : Prog unit :=
  let! isAdmin := tx_HasActiveRole targetID "admin" in
  if isAdmin : bool then
    let! administrators := tx_CountActiveAdministrators in
    deny administrators <=? 1 with ErrConflict in ret tt
  else ret tt.

Definition ChangeUserStatus_tx (targetID status actorID correlation : string) (now : Time) : Prog unit :=
  let disabled := (status =? UserDisabled)%string in
  let! _ := if disabled then spare_admin targetID else ret tt in
  let! updated := tx_UpdateUserStatus targetID status now in
  deny updated =? 0 with ErrNotFound in
  let! _ := if disabled then tx_RevokeUserSessions targetID now "user_disabled" else ret tt in
  recordAudit (by_user (if disabled then "user.disabled" else "user.enabled") "success" actorID targetID
                 correlation now).
Definition ChangeUserStatus (targetID status actorID correlation : string) : Prog unit :=
  deny negb (status =? UserActive)%string && negb (status =? UserDisabled)%string with ErrConflict in
  let! now := clockNow in
  WithTransaction (ChangeUserStatus_tx targetID status actorID correlation now).

Definition role_entry (action role actor target correlation : string) (now : Time) : AuditInput :=
  mkAuditInput action "success" (userRef actor) "user" (userRef target) correlation role now.
Definition AssignRole_tx (targetID actorID role correlation : string) (now : Time) : Prog unit :=
  let! assigned := tx_AssignRole targetID role now (Some actorID) in
  deny assigned =? 0 with ErrNotFound in
  recordAudit (role_entry "role.assigned" role actorID targetID correlation now).
Definition AssignRole (targetID actorID role correlation : string) : Prog unit :=
  let! _ := FindRole role in
  let! now := clockNow in
  WithTransaction (AssignRole_tx targetID actorID role correlation now).
Definition RemoveRole_tx (targetID actorID role correlation : string) (now : Time) : Prog unit :=
  let! _ := if (role =? "admin")%string then spare_admin targetID else ret tt in
  let! removed := tx_RemoveRole targetID role in
  deny removed =? 0 with ErrNotFound in
  recordAudit (role_entry "role.removed" role actorID targetID correlation now).
Definition RemoveRole (targetID actorID role correlation : string) : Prog unit :=
  let! now := clockNow in
  WithTransaction (RemoveRole_tx targetID actorID role correlation now).

(** ** Recovery *)

Definition requestPasswordReset_tx (userID tokenID hash correlation : string) (expires now : Time) : Prog unit :=
  let! _ := tx_CreateResetToken tokenID userID hash expires now in
  recordAudit (unsigned "password_reset.requested" userID correlation now).
Definition requestPasswordReset (svc : Service) (email source correlation : string) : Prog unit :=
  let! _ := lift (validateEmail email) in
  let! _ := allowDimensions svc "reset" (NormalizeEmail email) source in
  let! found := try_ (FindUserByEmail (NormalizeEmail email)) in
  match found with
  | Err e => if errors_Is e ErrNotFound then ret tt else fail e
  | Ok user =>
      let! (token, hash) := NewOpaque in
      let! now := clockNow in
      let! tokenID := newIdentityID in
      let! _ := WithTransaction (requestPasswordReset_tx (u_ID user) tokenID hash correlation
                                   (Add now resetTokenTTL) now) in
      if svc_mailer svc then Send "password-reset" (u_Email user) token else ret tt
  end.
Definition RequestPasswordReset (svc : Service) (email correlation : string) : Prog unit :=
  requestPasswordReset svc email "" correlation.
Definition RequestPasswordResetFromSource (svc : Service) (email source correlation : string) : Prog unit :=
  requestPasswordReset svc email source correlation.

Definition ConfirmPasswordReset_tx (reset : OneTimeToken) (hash correlation : string) (now : Time) : Prog unit :=
  let! _ := tx_UpdatePassword (ot_UserID reset) hash now in
  let! _ := tx_RevokeUserSessions (ot_UserID reset) now "password_reset" in
  let! consumed := tx_ConsumeResetToken (ot_ID reset) now in
  deny negb (consumed =? 1) with ErrAlreadyUsed in
  recordAudit (unsigned "password_reset.completed" (ot_UserID reset) correlation now).
Definition ConfirmPasswordReset (token password correlation : string) : Prog unit :=
  deny bad_password_length password with ErrConflict in
  let! reset := mapE (fun _ => ErrInvalidCredentials) (FindResetToken (tk_HashOpaque token)) in
  let! seen := timeNow in
  deny negb (Token_IsUsable reset seen) with ErrInvalidCredentials in
  let! hash := Hash password in
  let! now := clockNow in
  WithTransaction (ConfirmPasswordReset_tx reset hash correlation now).

Definition ConfirmEmail_tx (verification : OneTimeToken) (correlation : string) (now : Time) : Prog unit :=
  let! consumed := tx_ConsumeVerificationToken (ot_ID verification) now in
  deny negb (consumed =? 1) with ErrAlreadyUsed in
  let! updated := tx_MarkEmailVerified (ot_UserID verification) now in
  deny updated =? 0 with ErrInvalidCredentials in
  recordAudit (unsigned "email_verification.completed" (ot_UserID verification) correlation now).
Definition ConfirmEmail (token correlation : string) : Prog unit :=
  let! verification := mapE (fun _ => ErrInvalidCredentials) (FindVerificationToken (tk_HashOpaque token)) in
  let! seen := timeNow in
  deny negb (Token_IsUsable verification seen) with ErrInvalidCredentials in
  let! now := clockNow in
  WithTransaction (ConfirmEmail_tx verification correlation now).

(** ** Machine tokens *)

Definition serviceToken_tx (principalID clientID correlation : string) (now : Time) : Prog unit :=
  let! _ := tx_MarkServicePrincipalUsed principalID now in
  recordAudit (mkAuditInput "service_token.issued" "success" ("svc_" +:+ clientID) "service" "" correlation "" now).
Definition serviceToken (svc : Service) (clientID secret : string) (requested : list string)
    (source correlation : string) : Prog MachineCredentials :=
  deny (TrimSpace clientID =? "")%string || (secret =? "")%string || (length requested =? 0)%nat
    with ErrInvalidCredentials in
  let! _ := allowDimensions svc "service-token" clientID source in
  let! principal := mapE credential_error (FindServicePrincipal clientID) in
  deny negb (sp_Status principal =? "ACTIVE")%string with ErrInvalidCredentials in
  let! seen := timeNow in
  let! credentials := mapE credential_error (ActiveServiceCredentials (sp_ID principal) seen) in
  deny negb (existsb (fun c => pw_Verify secret (sc_SecretHash c)) credentials) with ErrInvalidCredentials in
  deny negb (forallb (fun scope => bool_decide (scope ∈ sp_Scopes principal)) requested) with ErrForbidden in
  let! access := Sign ("svc_" +:+ sp_ClientID principal) (sp_Audience principal) "service" "" [] requested
                   machineTokenTTL in
  let! now := clockNow in
  let! _ := WithTransaction (serviceToken_tx (sp_ID principal) (sp_ClientID principal) correlation now) in
  ret (mkMachineCredentials access (machineTokenTTL / Second)).
Definition ServiceToken (svc : Service) (clientID secret : string) (requested : list string) (correlation : string)
  : Prog MachineCredentials := serviceToken svc clientID secret requested "" correlation.
Definition ServiceTokenFromSource (svc : Service) (clientID secret : string) (requested : list string)
    (source correlation : string) : Prog MachineCredentials :=
  serviceToken svc clientID secret requested source correlation.
End Service.
