(* ===== verification/IdentityFacts.v ===== *)
(** * Identity: what a call does to the rows

    The transactions of the service as data ([transaction]), the change each
    makes to the rows when it succeeds ([change], one rule per branch), and
    three facts every later theorem starts from: a transaction that succeeds is
    a change followed by one audit row and one outbox event; a call of the
    service changes no row outside one transaction; and what the code read
    before the transaction began is what the transaction relies on
    ([tx_args_ok]), which no other transaction takes away. *)
From Stdlib Require Import ZArith Lia Ascii String.
From stdpp Require Import base gmap strings list relations pretty.
From S2P Require Import Prelude GoStrings GoErrors GoTime GoBase64 GoCrypto GoJson Tx.
From S2P Require Import IdentityDomain IdentityTables IdentityStore IdentityService.

Open Scope string_scope.
Open Scope Z_scope.
Open Scope go_scope.

Inductive transaction :=
| TxRegister (user : User) (verificationID verificationHash correlation : string) (now : Time)
| TxSession (session : Session) (refreshHash correlation action : string) (now : Time)
| TxReuse (user : User) (session : Session) (correlation : string) (now : Time)
| TxRefresh (user : User) (session new : Session) (refreshHash correlation : string) (now : Time)
| TxLogout (userID sessionID correlation : string) (now : Time)
| TxLogoutAll (userID correlation : string) (now : Time)
| TxStatus (targetID status actorID correlation : string) (now : Time)
| TxAssign (targetID actorID role correlation : string) (now : Time)
| TxRemove (targetID actorID role correlation : string) (now : Time)
| TxRequestReset (userID tokenID hash correlation : string) (expires now : Time)
| TxReset (reset : OneTimeToken) (hash correlation : string) (now : Time)
| TxEmail (verification : OneTimeToken) (correlation : string) (now : Time)
| TxMachine (principalID clientID correlation : string) (now : Time).

Section Changes.
Context `{GoLib} `{Crypto} `{Env} `{Pg} `{IdPorts}.
Local Notation Prog := (M IdDB (list Mail)).

Definition tx_prog (t : transaction) : Prog unit :=
  match t with
  | TxRegister u vid vhash c now => let! _ := Register_tx u vid vhash c now in ret tt
  | TxSession se hash c action now => createSession_tx se hash c action now
  | TxReuse u se c now => reuse_tx u se c now
  | TxRefresh u se new hash c now => let! _ := Refresh_tx u se new hash c now in ret tt
  | TxLogout u se c now => Logout_tx u se c now
  | TxLogoutAll u c now => LogoutAll_tx u c now
  | TxStatus target st actor c now => ChangeUserStatus_tx target st actor c now
  | TxAssign target actor role c now => AssignRole_tx target actor role c now
  | TxRemove target actor role c now => RemoveRole_tx target actor role c now
  | TxRequestReset u id hash c expires now => requestPasswordReset_tx u id hash c expires now
  | TxReset reset hash c now => ConfirmPasswordReset_tx reset hash c now
  | TxEmail v c now => ConfirmEmail_tx v c now
  | TxMachine p client c now => serviceToken_tx p client c now
  end.

(** ** The trail *)

Definition correlation_of (i : AuditInput) : string :=
  if (in_CorrelationID i =? "")%string then "identity" else in_CorrelationID i.
Definition audit_row (i : AuditInput) (id : string) : AuditRow :=
  mkAuditRow id (optional (in_ActorID i)) (optional (in_ActorType i)) (in_Action i) (optional "user")
    (optional (in_TargetID i)) (jmap []) (correlation_of i) (pg_time (in_At i)).
Definition event_row (i : AuditInput) (auditID id : string) : EventRow :=
  let eventID := "evt_" +:+ ReplaceAllDash id in
  let aggregateID := "aud_" +:+ ReplaceAllDash auditID in
  mkEventRow id "commerce.security.audit.v1" "security_audit" aggregateID
    (audit_payload i (correlation_of i) eventID aggregateID) (jmap [("event_id", jstr eventID)])
    (pg_time (in_At i)) None 0 None.
(** One more audit row and one more event that tells of it. *)
Definition trail (i : AuditInput) (auditID eventID : string) (d : IdDB) : IdDB :=
  set_id_outbox (set_audit d (security_audit d ++ [audit_row i auditID]))
    (id_outbox d ++ [event_row i auditID eventID]).

(** ** The changes *)

(** An administrator the rows allow to go. *)
Definition spared (target : string) (d : IdDB) : Prop :=
  IdQueries.HasActiveRole target "admin" d = Ok (d, true) ->
  exists n, IdQueries.CountActiveAdministrators d = Ok (d, n) /\ 1 < n.

(** [change t d d' i]: the rows [d'] a successful transaction leaves before its
    entry [i] is written. *)
Inductive change : transaction -> IdDB -> IdDB -> AuditInput -> Prop :=
| ch_register u vid vhash c now d d1 d2 d3 row n :
    IdQueries.CreateUser (u_ID u) (u_Email u) (u_EmailNormalized u) (u_PasswordHash u) (u_Status u)
      (u_CreatedAt u) d = Ok (d1, row) ->
    IdQueries.AssignRole (ur_id row) "customer" now None d1 = Ok (d2, n) ->
    IdQueries.CreateVerificationToken vid (ur_id row) vhash (Add now verifyTokenTTL) now d2 = Ok (d3, tt) ->
    change (TxRegister u vid vhash c now) d d3 (unsigned "register.succeeded" (ur_id row) c now)
| ch_session se hash c action now d d1 row :
    IdQueries.CreateSession (se_ID se) (se_FamilyID se) (se_UserID se) hash (se_ExpiresAt se) (se_CreatedAt se)
      None None (se_RotatedFromSessionID se) d = Ok (d1, row) ->
    change (TxSession se hash c action now) d d1 (by_user action "success" (se_UserID se) (se_ID se) c now)
| ch_reuse u se c now d :
    change (TxReuse u se c now) d
      (IdQueries.revoke_where (fun r => (s_family_id r =? se_FamilyID se)%string) now "refresh_reuse" d)
      (by_user "refresh.reuse_detected" "failure" (u_ID u) (se_ID se) c now)
| ch_refresh u se new hash c now d d1 d2 row old :
    sessions d !! se_ID se = Some old -> s_status old = SessionActive ->
    IdQueries.CreateSession (se_ID new) (se_FamilyID new) (se_UserID new) hash (se_ExpiresAt new) (se_CreatedAt new)
      None None (se_RotatedFromSessionID new) d = Ok (d1, row) ->
    IdQueries.RotateSession (se_ID se) (se_ID new) now d1 = Ok (d2, 1) ->
    change (TxRefresh u se new hash c now) d d2 (by_user "refresh.succeeded" "success" (u_ID u) (se_ID se) c now)
| ch_refresh_reuse u se new hash c now d :
    change (TxRefresh u se new hash c now) d
      (IdQueries.revoke_where (fun r => (s_family_id r =? se_FamilyID se)%string) now "refresh_reuse" d)
      (by_user "refresh.reuse_detected" "failure" (u_ID u) (se_ID se) c now)
| ch_logout u se c now d :
    change (TxLogout u se c now) d (IdQueries.revoke_where (fun r => (s_id r =? se)%string) now "logout" d)
      (by_user "logout.succeeded" "success" u se c now)
| ch_logout_all u c now d :
    change (TxLogoutAll u c now) d (IdQueries.revoke_where (fun r => (s_user_id r =? u)%string) now "logout_all" d)
      (by_user "logout_all.succeeded" "success" u u c now)
| ch_disable target actor c now d d1 n :
    spared target d -> IdQueries.UpdateUserStatus target UserDisabled now d = Ok (d1, n) -> n <> 0 ->
    change (TxStatus target UserDisabled actor c now) d
      (IdQueries.revoke_where (fun r => (s_user_id r =? target)%string) now "user_disabled" d1)
      (by_user "user.disabled" "success" actor target c now)
| ch_enable target status actor c now d d1 n :
    status <> UserDisabled -> IdQueries.UpdateUserStatus target status now d = Ok (d1, n) -> n <> 0 ->
    change (TxStatus target status actor c now) d d1 (by_user "user.enabled" "success" actor target c now)
| ch_assign target actor role c now d d1 n :
    IdQueries.AssignRole target role now (Some actor) d = Ok (d1, n) -> n <> 0 ->
    change (TxAssign target actor role c now) d d1 (role_entry "role.assigned" role actor target c now)
| ch_remove target actor role c now d d1 n :
    (role = "admin" -> spared target d) -> IdQueries.RemoveRole target role d = Ok (d1, n) -> n <> 0 ->
    change (TxRemove target actor role c now) d d1 (role_entry "role.removed" role actor target c now)
| ch_request_reset u id hash c expires now d d1 :
    IdQueries.CreateResetToken id u hash expires now d = Ok (d1, tt) ->
    change (TxRequestReset u id hash c expires now) d d1 (unsigned "password_reset.requested" u c now)
| ch_reset reset hash c now d d1 d2 :
    IdQueries.UpdatePassword (ot_UserID reset) hash now d = Ok (d1, tt) ->
    IdQueries.ConsumeResetToken (ot_ID reset) now
      (IdQueries.revoke_where (fun r => (s_user_id r =? ot_UserID reset)%string) now "password_reset" d1) = Ok (d2, 1) ->
    change (TxReset reset hash c now) d d2 (unsigned "password_reset.completed" (ot_UserID reset) c now)
| ch_email v c now d d1 d2 n :
    IdQueries.ConsumeVerificationToken (ot_ID v) now d = Ok (d1, 1) ->
    IdQueries.MarkEmailVerified (ot_UserID v) now d1 = Ok (d2, n) -> n <> 0 ->
    change (TxEmail v c now) d d2 (unsigned "email_verification.completed" (ot_UserID v) c now)
| ch_machine p client c now d d1 :
    IdQueries.MarkServicePrincipalUsed p now d = Ok (d1, tt) ->
    change (TxMachine p client c now) d d1
      (mkAuditInput "service_token.issued" "success" ("svc_" +:+ client) "service" "" c "" now).

(** ** Statements *)

Lemma query_ok {A} (q : IdDB -> result goerr (IdDB * A)) (s s' : St IdDB (list Mail)) a :
  query q s = (s', Ok a) -> q (db s) = Ok (db s', a).
Proof. intros Hq. apply mapE_ok, exec_ok in Hq as (_ & d & Hd & ->). by rewrite Hd. Qed.
Lemma port_ok {A} (f : nat -> result goerr A) (s s' : St IdDB (list Mail)) a :
  port f s = (s', Ok a) -> db s' = db s /\ f (tick s) = Ok a.
Proof. by intros [= <- ->]. Qed.

Lemma recordAudit_effect i s s' u :
  recordAudit i s = (s', Ok u) -> exists a e, db s' = trail i a e (db s).
Proof.
  intros Hr. unfold recordAudit, tx_RecordAudit, tx_RecordOutbox, newIdentityID in Hr.
  apply bind_ok in Hr as (s1 & a & [E1 _]%port_ok & Hr).
  apply bind_ok in Hr as (s2 & e & [E2 _]%port_ok & Hr).
  apply bind_ok in Hr as (s3 & [] & E3%query_ok & E4%query_ok). exists a, e.
  unfold IdQueries.InsertSecurityAudit in E3. unfold IdQueries.InsertOutboxEvent in E4.
  destruct (existsb _ _) in E3; [discriminate E3|]. destruct (existsb _ _) in E4; [discriminate E4|].
  injection E3 as E3. injection E4 as E4. by rewrite <- E4, <- E3, E2, E1.
Qed.

Lemma spare_admin_ok target s s' u :
  spare_admin target s = (s', Ok u) -> db s' = db s /\ spared target (db s).
Proof.
  unfold spare_admin, tx_HasActiveRole, tx_CountActiveAdministrators. intros Hs.
  apply bind_ok in Hs as (s1 & b & Hb%query_ok & Hs).
  pose proof Hb as [= E1 _]. rewrite <- E1 in Hb. destruct b.
  - apply bind_ok in Hs as (s2 & n & Hn%query_ok & Hs). pose proof Hn as [= E2 _].
    destruct (n <=? 1) eqn:Hle; [discriminate Hs|]. apply ret_ok in Hs as [-> _].
    rewrite <- E2, <- E1 in *. split; [done|]. intros _. exists n. split; [done | lia].
  - apply ret_ok in Hs as [-> _]. rewrite <- E1. split; [done|]. intros E. rewrite Hb in E. discriminate E.
Qed.

Lemma lock_ok id (s s' : St IdDB (list Mail)) r :
  tx_LockActiveSession id s = (s', Ok r) ->
  db s' = db s /\
  (is_ok r = true -> r = Ok true /\ exists old, sessions (db s) !! id = Some old /\ s_status old = SessionActive).
Proof.
  unfold tx_LockActiveSession. intros Hl. apply bind_ok in Hl as (s1 & r1 & E1 & E2).
  apply ret_ok in E2 as [-> ->]. unfold try_ in E1. destruct (exec _ s) as [s2 r2] eqn:Hx.
  injection E1 as -> <-. split.
  - assert (reads (L := list Mail) (exec (IdQueries.LockActiveSession id))) as Hrd
      by (apply reads_exec; intros d d' a; unfold IdQueries.LockActiveSession; repeat case_match; congruence).
    specialize (Hrd s). by rewrite Hx in Hrd.
  - destruct r2 as [x|e]; [|done]. intros _. split; [done|].
    apply exec_ok in Hx as (_ & d & Hd & _). unfold IdQueries.LockActiveSession in Hd.
    destruct (sessions (db s) !! id) as [old|]; [|discriminate Hd].
    destruct (String.eqb_spec (s_status old) SessionActive); [|discriminate Hd]. eauto.
Qed.

(** [tx_inv H] takes a transaction that succeeded apart, down to the effects
    of its statements. *)
Local Ltac tx_inv H :=
  lazymatch type of H with
  | bind _ _ _ = (_, Ok _) =>
      let s1 := fresh "s" in let a := fresh "v" in let E := fresh "E" in
      apply bind_ok in H as (s1 & a & E & H); tx_inv E; tx_inv H
  | ret _ _ = (_, Ok _) => apply ret_ok in H as [? ?]; subst
  | fail _ _ = (_, Ok _) => apply fail_ok in H; contradiction
  | query _ _ = (_, Ok _) => apply query_ok in H
  | recordAudit _ _ = (_, Ok _) =>
      let a := fresh "a" in let e := fresh "e" in apply recordAudit_effect in H as (a & e & H)
  | spare_admin _ _ = (_, Ok _) => let E := fresh "E" in apply spare_admin_ok in H as [E H]
  | (if ?b then _ else _) _ = (_, Ok _) => let E := fresh "B" in destruct b eqn:E; tx_inv H
  | _ => idtac
  end.

(** The results a statement always has, and the tests of row counts. *)
Local Ltac tx_units :=
  repeat match goal with
  | v : unit |- _ => destruct v
  | E : IdQueries.RevokeUserSessions _ _ _ _ = _ |- _ => injection E as E
  | E : IdQueries.RevokeSessionByID _ _ _ _ = _ |- _ => injection E as E
  | E : (_ =? _) = false |- _ => apply Z.eqb_neq in E
  | E : negb (_ =? _) = false |- _ => apply negb_false_iff, Z.eqb_eq in E
  | E : _ = db ?s |- _ => is_var s; rewrite <- E in *; clear E
  | E : db ?s = db _ |- _ => rewrite E in *; clear E
  end; subst.
Local Ltac tx_done c := tx_units; do 4 eexists; split; [eapply c; eauto; done | eassumption].

Lemma CreateSession_inv id f u hash ex at_ ua ip from d d1 row :
  IdQueries.CreateSession id f u hash ex at_ ua ip from d = Ok (d1, row) ->
  sessions d !! id = None /\ is_Some (users d !! u) /\ d1 = set_sessions d (<[id := row]> (sessions d)) /\
  row = mkSessionRow id f u hash SessionActive (pg_time ex) None None from None (pg_time at_) (Some (pg_time at_))
          ua ip.
Proof.
  unfold IdQueries.CreateSession. intros Hc. go_inv Hc. repeat split; try done.
  - apply eq_None_not_Some. by eapply bool_decide_eq_false_1.
  - by eapply bool_decide_eq_true_1.
Qed.
Lemma RotateSession_inv id new now d d1 n :
  IdQueries.RotateSession id new now d = Ok (d1, n) ->
  (exists r, sessions d !! id = Some r /\ s_status r = SessionActive /\ n = 1 /\
             d1 = set_sessions d (<[id := IdQueries.rotated_row r new now]> (sessions d))) \/
  (d1 = d /\ n = 0 /\ forall r, sessions d !! id = Some r -> s_status r <> SessionActive).
Proof.
  unfold IdQueries.RotateSession. destruct (sessions d !! id) as [r|] eqn:Hr.
  - destruct (String.eqb_spec (s_status r) SessionActive) as [Ha|Ha]; intros Hd; go_inv Hd; [eauto 10|].
    right. split; [done|]. split; [done|]. intros r0 [= <-]. done.
  - intros [= <- <-]. right. split; [done|]. split; [done|]. intros r0 [=].
Qed.

Lemma reuse_tx_effect u se c now s s' v :
  reuse_tx u se c now s = (s', Ok v) ->
  exists d1 i a e, change (TxReuse u se c now) (db s) d1 i /\ db s' = trail i a e d1.
Proof.
  unfold reuse_tx, tx_RevokeSessionFamily. intros Ht. tx_inv Ht. injection E as E _. rewrite <- E in Ht.
  do 4 eexists. split; [constructor | exact Ht].
Qed.

(** The answer of [Refresh_tx] says which of the two changes it made; the row
    it locked is still active when it is rotated. *)
Lemma Refresh_tx_effect u se new hash c now s s' reuse :
  Refresh_tx u se new hash c now s = (s', Ok reuse) ->
  exists d1 i a e, db s' = trail i a e d1 /\
    if reuse : bool then change (TxReuse u se c now) (db s) d1 i
    else change (TxRefresh u se new hash c now) (db s) d1 i /\ in_Outcome i = "success".
Proof.
  unfold Refresh_tx. intros Ht. apply bind_ok in Ht as (s1 & r & [E1 Hlock]%lock_ok & Ht).
  apply bind_ok in Ht as (s2 & locked & Hl & Ht).
  assert (db s2 = db s /\ (locked = true -> r = Ok true)) as [E2 Hlocked].
  { destruct r as [b|e].
    - apply ret_ok in Hl as [-> ->]. split; [done|]. by intros ->.
    - destruct (errors_Is e ErrNotFound); [|discriminate Hl]. by apply ret_ok in Hl as [-> ->]. }
  destruct locked.
  - rewrite (Hlocked eq_refl) in Hlock. destruct (Hlock eq_refl) as (_ & old & Hold & Hact).
    unfold tx_CreateSession, tx_RotateSession in Ht. tx_inv Ht.
    + exfalso. rename select (IdQueries.CreateSession _ _ _ _ _ _ _ _ _ _ = _) into Hc.
      rename select (IdQueries.RotateSession _ _ _ _ = _) into Hr.
      rewrite E2 in Hc. apply CreateSession_inv in Hc as (Hnew & _ & Hd & _).
      apply RotateSession_inv in Hr as [(r0 & _ & _ & -> & _)|(_ & _ & Hno)]; [discriminate B|].
      apply (Hno old); [|done]. rewrite Hd. cbn. rewrite lookup_insert_ne by congruence. done.
    + rewrite E2 in *. do 4 eexists. split; [eassumption|].
      apply negb_false_iff, Z.eqb_eq in B as ->. split; [|done]. by econstructor.
  - apply bind_ok in Ht as (s3 & [] & (d1 & i & a & e & Hc & Hd)%reuse_tx_effect & [-> ->]%ret_ok).
    rewrite E2 in Hc. eauto 10.
Qed.

(** A transaction that succeeds is a change and its entry in the trail. *)
Lemma tx_prog_effect t s s' u :
  tx_prog t s = (s', Ok u) -> exists d1 i a e, change t (db s) d1 i /\ db s' = trail i a e d1.
Proof.
  destruct t; cbn [tx_prog]; intros Ht.
  - unfold Register_tx, tx_CreateUser, tx_AssignRole, tx_CreateVerificationToken in Ht. tx_inv Ht.
    tx_done ch_register.
  - unfold createSession_tx, tx_CreateSession in Ht. tx_inv Ht. tx_done ch_session.
  - by eapply reuse_tx_effect.
  - apply bind_ok in Ht as (s1 & b & (d1 & i & a & e & Hd & Hc)%Refresh_tx_effect & [-> _]%ret_ok).
    destruct b; [|destruct Hc as [Hc _]; eauto 10].
    inversion Hc; subst. do 4 eexists. split; [apply ch_refresh_reuse | done].
  - unfold Logout_tx, tx_RevokeSession in Ht. tx_inv Ht. tx_done ch_logout.
  - unfold LogoutAll_tx, tx_RevokeUserSessions in Ht. tx_inv Ht. tx_done ch_logout_all.
  - unfold ChangeUserStatus_tx, tx_UpdateUserStatus, tx_RevokeUserSessions in Ht.
    destruct (String.eqb_spec status UserDisabled) as [->|Hne]; tx_inv Ht.
    + tx_done ch_disable.
    + tx_done ch_enable.
  - unfold AssignRole_tx, tx_AssignRole in Ht. tx_inv Ht. tx_done ch_assign.
  - unfold RemoveRole_tx, tx_RemoveRole in Ht.
    destruct (String.eqb_spec role "admin") as [->|Hne]; tx_inv Ht; tx_done ch_remove.
  - unfold requestPasswordReset_tx, tx_CreateResetToken in Ht. tx_inv Ht. tx_done ch_request_reset.
  - unfold ConfirmPasswordReset_tx, tx_UpdatePassword, tx_RevokeUserSessions, tx_ConsumeResetToken in Ht.
    tx_inv Ht. tx_done ch_reset.
  - unfold ConfirmEmail_tx, tx_ConsumeVerificationToken, tx_MarkEmailVerified in Ht. tx_inv Ht.
    tx_done ch_email.
  - unfold serviceToken_tx, tx_MarkServicePrincipalUsed in Ht. tx_inv Ht. tx_done ch_machine.
Qed.

(** A transaction leaves the rows as they were, or makes its change. *)
Lemma WithTransaction_effect {A} (body : Prog A) (s s' : St IdDB (list Mail)) r :
  WithTransaction body s = (s', r) ->
  db s' = db s \/ exists s1 a, body (advance s) = (s1, Ok a) /\ db s' = db s1.
Proof.
  intros [->|(s1 & a & _ & Hb & ->)]%in_tx_atomic; [by left|].
  apply bind_ok in Hb as (s2 & b & Hb & [-> _]%ret_ok). eauto.
Qed.
Lemma WithTransaction_ok {A} (body : Prog A) (s s' : St IdDB (list Mail)) a :
  WithTransaction body s = (s', Ok a) -> exists s1, body (advance s) = (s1, Ok a) /\ db s' = db s1.
Proof.
  intros (_ & s1 & [[Hb ->]|[Hb _]])%in_tx_ok; apply bind_ok in Hb as (s2 & b & Hb & [-> E]%ret_ok).
  - injection E as ->. eauto.
  - discriminate E.
Qed.

(** ** Calls *)

Inductive call :=
| CRegister (email password source correlation : string)
| CLogin (email password correlation source : string)
| CRefresh (token correlation source : string)
| CLogout (userID sessionID correlation : string)
| CLogoutAll (userID correlation : string)
| CSessions (userID : string)
| CSessionsPage (userID : string) (q : SessionPageQuery)
| CUsersPage (q : UserPageQuery)
| CIsSessionActive (sessionID : string)
| CUser (userID : string)
| CChangeUserStatus (targetID status actorID correlation : string)
| CAssignRole (targetID actorID role correlation : string)
| CRemoveRole (targetID actorID role correlation : string)
| CRequestPasswordReset (email source correlation : string)
| CConfirmPasswordReset (token password correlation : string)
| CConfirmEmail (token correlation : string)
| CServiceToken (clientID secret : string) (requested : list string) (source correlation : string).

Definition forget {A} (m : Prog A) : Prog unit := let! _ := m in ret tt.
Definition serve (svc : Service) (c : call) : Prog unit :=
  match c with
  | CRegister email password source cid => forget (Register svc email password source cid)
  | CLogin email password cid source => forget (Login svc email password cid source)
  | CRefresh token cid source => forget (Refresh svc token cid source)
  | CLogout userID sessionID cid => Logout userID sessionID cid
  | CLogoutAll userID cid => LogoutAll userID cid
  | CSessions userID => forget (Sessions userID)
  | CSessionsPage userID q => forget (SessionsPage userID q)
  | CUsersPage q => forget (UsersPage q)
  | CIsSessionActive sessionID => forget (IsSessionActive sessionID)
  | CUser userID => forget (GetUser userID)
  | CChangeUserStatus target status actor cid => ChangeUserStatus target status actor cid
  | CAssignRole target actor role cid => AssignRole target actor role cid
  | CRemoveRole target actor role cid => RemoveRole target actor role cid
  | CRequestPasswordReset email source cid => requestPasswordReset svc email source cid
  | CConfirmPasswordReset token password cid => ConfirmPasswordReset token password cid
  | CConfirmEmail token cid => ConfirmEmail token cid
  | CServiceToken client secret requested source cid => forget (serviceToken svc client secret requested source cid)
  end.

(** ** Programs that only look *)

Definition looks {A} (m : Prog A) : Prop :=
  forall s, db (fst (m s)) = db s /\ (tick s <= tick (fst (m s)))%nat.

Lemma looks_ret {A} (a : A) : looks (ret a).
Proof. intros s. cbn. auto. Qed.
Lemma looks_fail {A} e : looks (@fail _ _ A e).
Proof. intros s. cbn. auto. Qed.
Lemma looks_lift {A} (r : result goerr A) : looks (lift r).
Proof. intros s. cbn. auto. Qed.
Lemma looks_port {A} (f : nat -> result goerr A) : looks (port f).
Proof. intros s. cbn. auto. Qed.
Lemma looks_now : looks timeNow.
Proof. intros s. cbn. auto. Qed.
Lemma looks_bind {A B} (m : Prog A) (k : A -> Prog B) : looks m -> (forall a, looks (k a)) -> looks (bind m k).
Proof.
  intros Hm Hk s. unfold bind. destruct (Hm s) as [Hd Ht]. destruct (m s) as [s1 [a|e]]; cbn in *; [|auto].
  destruct (Hk a s1) as [Hd' Ht']. split; [congruence | lia].
Qed.
Lemma looks_mapE {A} f (m : Prog A) : looks m -> looks (mapE f m).
Proof. intros Hm s. unfold mapE. specialize (Hm s). by destruct (m s) as [s1 [a|e]]. Qed.
Lemma looks_try {A} (m : Prog A) : looks m -> looks (try_ m).
Proof. intros Hm s. unfold try_. specialize (Hm s). by destruct (m s) as [s1 r]. Qed.
Lemma looks_query {A} (q : IdDB -> result goerr (IdDB * A)) :
  (forall d d' a, q d = Ok (d', a) -> d' = d) -> looks (query q).
Proof.
  intros Hq. apply looks_mapE. intros s. split; [by apply reads_exec|].
  unfold exec, stmt. destruct (q (db s)) as [[d a]|e]; destruct (trip_at (tick s)); cbn; lia.
Qed.
Lemma looks_for_each {A} (body : A -> Prog unit) l : (forall x, looks (body x)) -> looks (for_each body l).
Proof. intros Hb. induction l; [apply looks_ret | by apply looks_bind]. Qed.

(** A program that looks first either ends there or goes on from the same rows. *)
Lemma looks_then {A B} (m : Prog A) (k : A -> Prog B) s s' r :
  looks m -> bind m k s = (s', r) ->
  db s' = db s \/
  exists s1 a, m s = (s1, Ok a) /\ db s1 = db s /\ (tick s <= tick s1)%nat /\ k a s1 = (s', r).
Proof.
  intros Hm Hb. unfold bind in Hb. destruct (Hm s) as [Hd Ht]. destruct (m s) as [s1 [a|e]]; cbn in *.
  - right. eauto 10.
  - injection Hb as <- <-. by left.
Qed.
End Changes.

(** [statement_inv E] shows the rows a statement left when it succeeded in [E]. *)
Ltac statement_inv E :=
  unfold IdQueries.CreateUser, IdQueries.UpdateUserStatus, IdQueries.UpdatePassword, IdQueries.MarkEmailVerified,
    IdQueries.AssignRole, IdQueries.RemoveRole, IdQueries.CreateResetToken, IdQueries.CreateVerificationToken,
    IdQueries.ConsumeResetToken, IdQueries.ConsumeVerificationToken, IdQueries.MarkServicePrincipalUsed,
    IdQueries.CreateSession, IdQueries.RotateSession in E;
  try match type of E with context [IdQueries.consume_token ?a ?b ?c] => destruct (IdQueries.consume_token a b c) end;
  go_inv E.
(** [other_tables field] replaces [field d1] by [field d] for every statement
    from [d] to [d1] that does not touch the table. *)
Ltac other_tables field :=
  repeat match goal with
  | E : _ ?d = Ok (?d1, _) |- context [field ?d1] =>
      assert (field d1 = field d) as -> by (clear -E; statement_inv E; cbn; reflexivity); clear E
  end.
