(* ===== verification/IdentityInvariant.v ===== *)
(** * Identity: well-formed rows

    What the keys and constraints of the schema keep true of the rows, and that
    every transaction of the service preserves it; what the rows never forget
    ([remembers]); and what a transaction relies on having read ([tx_args_ok]). *)
From Stdlib Require Import ZArith Lia Ascii String.
From stdpp Require Import base gmap strings list relations pretty.
From S2P Require Import Prelude GoStrings GoErrors GoTime GoBase64 GoCrypto GoJson Tx.
From S2P Require Import IdentityDomain IdentityTables IdentityStore IdentityService IdentityFacts.

Open Scope string_scope.
Open Scope Z_scope.
Open Scope go_scope.

Definition session_statuses : list string := [SessionActive; SessionRotated; SessionRevoked].

Definition user_ok (k : string) (r : UserRow) : Prop := ur_id r = k /\ ur_status r ∈ user_statuses.
Definition session_ok (d : IdDB) (k : string) (r : SessionRow) : Prop :=
  s_id r = k /\ is_Some (users d !! s_user_id r) /\ s_status r ∈ session_statuses /\
  (s_status r = SessionRevoked <-> is_Some (s_revoked_at r)).
Definition token_ok (d : IdDB) (k : string) (r : TokenRow) : Prop :=
  t_id r = k /\ is_Some (users d !! t_user_id r).
Definition grant_ok (d : IdDB) (k : string * string) (a : UserRoleRow) : Prop :=
  is_Some (users d !! fst k) /\ is_Some (roles d !! snd k).

Definition unique_hashes (m : gmap string TokenRow) : Prop :=
  forall k1 k2 r1 r2, m !! k1 = Some r1 -> m !! k2 = Some r2 -> t_token_hash r1 = t_token_hash r2 -> k1 = k2.

Record wf (d : IdDB) : Prop := mkWf {
  wf_users : map_Forall user_ok (users d);
  wf_roles : map_Forall (fun k r => ro_id r = k) (roles d);
  wf_principals : map_Forall (fun k r => pr_id r = k) (service_principals d);
  wf_sessions : map_Forall (session_ok d) (sessions d);
  wf_resets : map_Forall (token_ok d) (reset_tokens d);
  wf_verifications : map_Forall (token_ok d) (verification_tokens d);
  wf_grants : map_Forall (grant_ok d) (user_roles d);
  wf_emails : forall k1 k2 r1 r2, users d !! k1 = Some r1 -> users d !! k2 = Some r2 ->
                ur_email_normalized r1 = ur_email_normalized r2 -> k1 = k2;
  wf_hashes : forall k1 k2 r1 r2, sessions d !! k1 = Some r1 -> sessions d !! k2 = Some r2 ->
                s_refresh_token_hash r1 = s_refresh_token_hash r2 -> k1 = k2;
  wf_reset_hashes : unique_hashes (reset_tokens d);
  wf_verification_hashes : unique_hashes (verification_tokens d)
}.

Lemma elem_of_rows {A} (m : gmap string A) r : r ∈ rows m <-> exists k, m !! k = Some r.
Proof.
  unfold rows. rewrite list_elem_of_fmap. split.
  - intros ([k x] & -> & Hx%elem_of_map_to_list). eauto.
  - intros [k Hk]. exists (k, r). split; [done|]. by apply elem_of_map_to_list.
Qed.
Lemma existsb_rows_false {A} (p : A -> bool) (m : gmap string A) k r :
  existsb p (rows m) = false -> m !! k = Some r -> p r = false.
Proof.
  intros He Hk. destruct (p r) eqn:Hp; [|done]. rewrite <- He. symmetry. apply existsb_exists.
  exists r. split; [|done]. apply list_elem_of_In, elem_of_rows. eauto.
Qed.

Section Invariant.
Context `{GoLib} `{Crypto} `{Env} `{Pg} `{IdPorts}.

Lemma trail_wf i a e d : wf d -> wf (trail i a e d).
Proof. intros []. by constructor. Qed.

(** ** Changes of one table *)

(** The users of [d] are still users in [d']. *)
Definition keeps_users (d d' : IdDB) : Prop := forall k, is_Some (users d !! k) -> is_Some (users d' !! k).

Lemma session_ok_mono d d' k r : keeps_users d d' -> session_ok d k r -> session_ok d' k r.
Proof. intros Hk (? & ? & ? & ?). split; auto. Qed.
Lemma token_ok_mono d d' k r : keeps_users d d' -> token_ok d k r -> token_ok d' k r.
Proof. intros Hk (? & ?). split; auto. Qed.

(** A change of the users that keeps the keys, the addresses unique and the
    statuses known. *)
Lemma set_users_wf d m :
  wf d -> map_Forall user_ok m -> keeps_users d (set_users d m) ->
  (forall k1 k2 r1 r2, m !! k1 = Some r1 -> m !! k2 = Some r2 ->
     ur_email_normalized r1 = ur_email_normalized r2 -> k1 = k2) ->
  wf (set_users d m).
Proof.
  intros [] Hm Hk He. constructor; cbn; try done.
  - eapply map_Forall_impl; [done|]. intros; by eapply session_ok_mono.
  - eapply map_Forall_impl; [done|]. intros; by eapply token_ok_mono.
  - eapply map_Forall_impl; [done|]. intros; by eapply token_ok_mono.
  - eapply map_Forall_impl; [done|]. intros k a [Hu Hr]. split; [by apply Hk | done].
Qed.
(** One user's row replaced, its key, address and known status kept. *)
Lemma update_user_wf d k r r' :
  wf d -> users d !! k = Some r -> user_ok k r' -> ur_email_normalized r' = ur_email_normalized r ->
  wf (set_users d (<[k := r']> (users d))).
Proof.
  intros Hwf Hr Hok He. apply set_users_wf; [done| | |].
  - apply map_Forall_insert_2; [done | apply Hwf].
  - intros k' Hk'. cbn. destruct (decide (k = k')) as [->|]; [rewrite lookup_insert_eq | rewrite lookup_insert_ne]; eauto.
  - assert (forall k0 r0, <[k := r']> (users d) !! k0 = Some r0 ->
      exists r1, users d !! k0 = Some r1 /\ ur_email_normalized r1 = ur_email_normalized r0) as Hback.
    { intros k0 r0. destruct (decide (k = k0)) as [->|].
      - rewrite lookup_insert_eq. intros [= <-]. eauto.
      - rewrite lookup_insert_ne by done. eauto. }
    intros k1 k2 r1 r2 (r1' & H1' & <-)%Hback (r2' & H2' & <-)%Hback. by apply (wf_emails d Hwf).
Qed.

Lemma set_sessions_wf d m :
  wf d -> map_Forall (session_ok d) m ->
  (forall k1 k2 r1 r2, m !! k1 = Some r1 -> m !! k2 = Some r2 ->
     s_refresh_token_hash r1 = s_refresh_token_hash r2 -> k1 = k2) ->
  wf (set_sessions d m).
Proof. intros [] Hm He. by constructor. Qed.
Definition tokens_ok (d : IdDB) (m : gmap string TokenRow) : Prop := map_Forall (token_ok d) m /\ unique_hashes m.
Lemma set_reset_tokens_wf d m : wf d -> tokens_ok d m -> wf (set_reset_tokens d m).
Proof. intros [] [Hm Hu]. by constructor. Qed.
Lemma set_verification_tokens_wf d m : wf d -> tokens_ok d m -> wf (set_verification_tokens d m).
Proof. intros [] [Hm Hu]. by constructor. Qed.
Lemma wf_reset_tokens d : wf d -> tokens_ok d (reset_tokens d).
Proof. by intros []. Qed.
Lemma wf_verification_tokens d : wf d -> tokens_ok d (verification_tokens d).
Proof. by intros []. Qed.
Lemma set_user_roles_wf d m : wf d -> map_Forall (grant_ok d) m -> wf (set_user_roles d m).
Proof. intros [] Hm. by constructor. Qed.

(** ** Statements *)

Lemma user_row d k r : wf d -> users d !! k = Some r -> ur_id r = k /\ ur_status r ∈ user_statuses.
Proof. intros Hwf Hr. exact (wf_users d Hwf k r Hr). Qed.

Lemma CreateUser_wf id email norm hash st at_ d d1 row :
  IdQueries.CreateUser id email norm hash st at_ d = Ok (d1, row) -> wf d -> wf d1.
Proof.
  unfold IdQueries.CreateUser. intros Hc Hwf. go_inv Hc. apply set_users_wf; [done| | |].
  - apply map_Forall_insert_2; [|apply Hwf]. split; [done|]. by eapply bool_decide_eq_true_1.
  - intros k Hk. cbn. destruct (decide (id = k)) as [->|]; [rewrite lookup_insert_eq | rewrite lookup_insert_ne]; eauto.
  - assert (forall k r, users d !! k = Some r -> ur_email_normalized r <> norm) as Hnew.
    { intros k r Hk E. eapply existsb_rows_false in Hk; [|eassumption]. cbn in Hk. by rewrite E, String.eqb_refl in Hk. }
    intros k1 k2 r1 r2 [[<- <-]|[? ?]]%lookup_insert_Some [[<- <-]|[? ?]]%lookup_insert_Some; cbn; intros E; try done.
    + by destruct (Hnew _ _ ltac:(eassumption)).
    + by destruct (Hnew _ _ ltac:(eassumption)).
    + by eapply (wf_emails d Hwf).
Qed.
Lemma UpdateUserStatus_wf id st at_ d d1 n :
  IdQueries.UpdateUserStatus id st at_ d = Ok (d1, n) -> wf d -> wf d1.
Proof.
  unfold IdQueries.UpdateUserStatus. intros Hc Hwf. go_inv Hc; [|done].
  eapply update_user_wf; [done | eassumption | | done].
  split; [|by eapply bool_decide_eq_true_1]. by destruct (user_row d id _ Hwf ltac:(eassumption)).
Qed.
Lemma UpdatePassword_wf id hash at_ d d1 u :
  IdQueries.UpdatePassword id hash at_ d = Ok (d1, u) -> wf d -> wf d1.
Proof.
  unfold IdQueries.UpdatePassword. intros Hc Hwf. go_inv Hc; [|done].
  eapply update_user_wf; [done | eassumption | | done]. by destruct (user_row d id _ Hwf ltac:(eassumption)).
Qed.
Lemma MarkEmailVerified_wf id at_ d d1 n :
  IdQueries.MarkEmailVerified id at_ d = Ok (d1, n) -> wf d -> wf d1.
Proof.
  unfold IdQueries.MarkEmailVerified. intros Hc Hwf. go_inv Hc; [|done|done].
  eapply update_user_wf; [done | eassumption | | done]. split; [by destruct (user_row d id _ Hwf ltac:(eassumption))|].
  cbn. unfold user_statuses. set_solver.
Qed.
Lemma AssignRole_wf u name at_ by_ d d1 n : IdQueries.AssignRole u name at_ by_ d = Ok (d1, n) -> wf d -> wf d1.
Proof.
  unfold IdQueries.AssignRole. intros Hc Hwf.
  destruct (List.filter _ _) as [|r l] eqn:Hf; [by injection Hc as <-|]. go_inv Hc; [done|].
  apply set_user_roles_wf; [done|]. apply map_Forall_insert_2; [|apply Hwf]. split.
  - by eapply bool_decide_eq_true_1.
  - assert (In r (List.filter IdQueries.active_role (IdQueries.role_named name d))) as [Hin _]%filter_In
      by (rewrite Hf; by left).
    apply list_elem_of_In, list_elem_of_filter in Hin as [_ [k Hk]%elem_of_rows]. cbn.
    rewrite (wf_roles d Hwf _ _ Hk). eauto.
Qed.
Lemma RemoveRole_wf u name d d1 n : IdQueries.RemoveRole u name d = Ok (d1, n) -> wf d -> wf d1.
Proof.
  unfold IdQueries.RemoveRole. intros Hc Hwf. go_inv Hc; try done.
  apply set_user_roles_wf; [done|]. apply map_Forall_delete, Hwf.
Qed.
Lemma add_token_ok m d id u hash ex at_ m' :
  IdQueries.add_token m d id u hash ex at_ = Ok m' -> tokens_ok d m -> tokens_ok d m'.
Proof.
  unfold IdQueries.add_token. intros Hc [Hm Hu]. go_inv Hc. split.
  - apply map_Forall_insert_2; [|done]. split; [done|]. by eapply bool_decide_eq_true_1.
  - rename select (_ || _ = false) into Hb. apply orb_false_iff in Hb as [_ Hb].
    assert (forall k r, m !! k = Some r -> t_token_hash r <> hash) as Hnew.
    { intros k r Hk E. eapply existsb_rows_false in Hk; [|eassumption]. cbn in Hk. by rewrite E, String.eqb_refl in Hk. }
    intros k1 k2 r1 r2 [[<- <-]|[? ?]]%lookup_insert_Some [[<- <-]|[? ?]]%lookup_insert_Some; cbn; intros E; try done.
    + by destruct (Hnew _ _ ltac:(eassumption)).
    + by destruct (Hnew _ _ ltac:(eassumption)).
    + by eapply Hu.
Qed.
Lemma consume_token_ok m d id at_ :
  tokens_ok d m -> tokens_ok d (fst (IdQueries.consume_token m id at_)).
Proof.
  intros [Hm Hu]. unfold IdQueries.consume_token. destruct (m !! id) as [r|] eqn:Hr; [|done].
  destruct (t_consumed_at r); [done|]. cbn [fst]. split.
  - apply map_Forall_insert_2; [|done]. by apply Hm in Hr.
  - intros k1 k2 r1 r2 [[<- <-]|[? ?]]%lookup_insert_Some [[<- <-]|[? ?]]%lookup_insert_Some; cbn; intros E;
      try done; by eapply Hu.
Qed.
Lemma CreateResetToken_wf id u hash ex at_ d d1 v :
  IdQueries.CreateResetToken id u hash ex at_ d = Ok (d1, v) -> wf d -> wf d1.
Proof.
  unfold IdQueries.CreateResetToken. intros Hc Hwf. go_inv Hc.
  apply set_reset_tokens_wf; [done|]. eapply add_token_ok; [eassumption | by apply wf_reset_tokens].
Qed.
Lemma CreateVerificationToken_wf id u hash ex at_ d d1 v :
  IdQueries.CreateVerificationToken id u hash ex at_ d = Ok (d1, v) -> wf d -> wf d1.
Proof.
  unfold IdQueries.CreateVerificationToken. intros Hc Hwf. go_inv Hc.
  apply set_verification_tokens_wf; [done|]. eapply add_token_ok; [eassumption | by apply wf_verification_tokens].
Qed.
Lemma ConsumeResetToken_wf id at_ d d1 n : IdQueries.ConsumeResetToken id at_ d = Ok (d1, n) -> wf d -> wf d1.
Proof.
  unfold IdQueries.ConsumeResetToken. intros Hc Hwf.
  pose proof (consume_token_ok _ _ id at_ (wf_reset_tokens d Hwf)) as Hm.
  destruct (IdQueries.consume_token _ _ _) as [m k]. injection Hc as <- _. by apply set_reset_tokens_wf.
Qed.
Lemma ConsumeVerificationToken_wf id at_ d d1 n :
  IdQueries.ConsumeVerificationToken id at_ d = Ok (d1, n) -> wf d -> wf d1.
Proof.
  unfold IdQueries.ConsumeVerificationToken. intros Hc Hwf.
  pose proof (consume_token_ok _ _ id at_ (wf_verification_tokens d Hwf)) as Hm.
  destruct (IdQueries.consume_token _ _ _) as [m k]. injection Hc as <- _. by apply set_verification_tokens_wf.
Qed.
Lemma MarkServicePrincipalUsed_wf id at_ d d1 u :
  IdQueries.MarkServicePrincipalUsed id at_ d = Ok (d1, u) -> wf d -> wf d1.
Proof.
  unfold IdQueries.MarkServicePrincipalUsed. intros Hc Hwf. go_inv Hc; [|done].
  destruct Hwf. constructor; try done. cbn. apply map_Forall_insert_2; [|done].
  cbn. by eapply (wf_principals0 id).
Qed.

Lemma CreateSession_wf id f u hash ex at_ ua ip from d d1 row :
  IdQueries.CreateSession id f u hash ex at_ ua ip from d = Ok (d1, row) -> wf d -> wf d1.
Proof.
  intros Hc Hwf. pose proof Hc as Hc2. apply CreateSession_inv in Hc as (Hno & Hu & -> & ->).
  apply set_sessions_wf; [done| |].
  - apply map_Forall_insert_2; [|apply Hwf]. split; [done|]. split; [done|]. cbn. split; [set_solver|].
    split; [discriminate | by intros [? ?]].
  - unfold IdQueries.CreateSession in Hc2. go_inv Hc2.
    assert (forall k r, sessions d !! k = Some r -> s_refresh_token_hash r <> hash) as Hnew.
    { intros k r Hk E. eapply existsb_rows_false in Hk; [|eassumption]. cbn in Hk. by rewrite E, String.eqb_refl in Hk. }
    intros k1 k2 r1 r2 [[<- <-]|[? ?]]%lookup_insert_Some [[<- <-]|[? ?]]%lookup_insert_Some; cbn; intros E; try done.
    + by destruct (Hnew _ _ ltac:(eassumption)).
    + by destruct (Hnew _ _ ltac:(eassumption)).
    + by eapply (wf_hashes d Hwf).
Qed.

(** Rows of sessions replaced one by one, their keys, users and hashes kept. *)
Lemma update_sessions_wf d m :
  wf d -> map_Forall (session_ok d) m ->
  (forall k r', m !! k = Some r' ->
     exists r, sessions d !! k = Some r /\ s_refresh_token_hash r' = s_refresh_token_hash r) ->
  wf (set_sessions d m).
Proof.
  intros Hwf Hm Hback. apply set_sessions_wf; [done..|].
  intros k1 k2 r1 r2 (r1' & H1' & ->)%Hback (r2' & H2' & ->)%Hback. by apply (wf_hashes d Hwf).
Qed.
Lemma RotateSession_wf id new at_ d d1 n : IdQueries.RotateSession id new at_ d = Ok (d1, n) -> wf d -> wf d1.
Proof.
  intros [(r & Hr & Ha & _ & ->)|(-> & _)]%RotateSession_inv Hwf; [|done].
  destruct (wf_sessions d Hwf _ _ Hr) as (Hid & Hu & Hst & Hrev). apply update_sessions_wf; [done| |].
  - apply map_Forall_insert_2; [|apply Hwf]. split; [done|]. split; [done|]. cbn. split; [set_solver|].
    split; [discriminate|]. intros Hx%Hrev. rewrite Ha in Hx. discriminate Hx.
  - intros k r' [[<- <-]|[? ?]]%lookup_insert_Some; eauto.
Qed.
Lemma revoke_where_wf hit at_ reason d : wf d -> wf (IdQueries.revoke_where hit at_ reason d).
Proof.
  intros Hwf. apply update_sessions_wf; [done| |].
  - intros k r'. rewrite lookup_fmap_Some. intros (r & <- & Hr).
    destruct (wf_sessions d Hwf _ _ Hr) as (Hid & Hu & Hst & Hrev). case_match; [|done].
    split; [done|]. split; [done|]. cbn. split; [set_solver | split; eauto].
  - intros k r'. rewrite lookup_fmap_Some. intros (r & <- & Hr). exists r. split; [done|]. by case_match.
Qed.

#[local] Hint Resolve CreateUser_wf UpdateUserStatus_wf UpdatePassword_wf MarkEmailVerified_wf AssignRole_wf
  RemoveRole_wf CreateResetToken_wf CreateVerificationToken_wf ConsumeResetToken_wf ConsumeVerificationToken_wf
  MarkServicePrincipalUsed_wf CreateSession_wf RotateSession_wf revoke_where_wf : core.

Lemma change_wf t d d' i : change t d d' i -> wf d -> wf d'.
Proof. intros [] Hwf; eauto. Qed.

(** ** What the rows remember *)

Definition session_rank (status : string) : Z :=
  if (status =? SessionActive)%string then 0 else if (status =? SessionRotated)%string then 1 else 2.
(** A session keeps its identity, and its status only moves forward. *)
Definition session_moves (r r' : SessionRow) : Prop :=
  s_id r' = s_id r /\ s_family_id r' = s_family_id r /\ s_user_id r' = s_user_id r /\
  s_refresh_token_hash r' = s_refresh_token_hash r /\ s_expires_at r' = s_expires_at r /\
  session_rank (s_status r) <= session_rank (s_status r').
(** A token is consumed once. *)
Definition token_moves (r r' : TokenRow) : Prop :=
  t_id r' = t_id r /\ t_user_id r' = t_user_id r /\ t_token_hash r' = t_token_hash r /\
  t_expires_at r' = t_expires_at r /\ (is_Some (t_consumed_at r) -> t_consumed_at r' = t_consumed_at r).
Definition user_moves (r r' : UserRow) : Prop :=
  ur_id r' = ur_id r /\ ur_email r' = ur_email r /\ ur_email_normalized r' = ur_email_normalized r.

Record remembers (d d' : IdDB) : Prop := mkRemembers {
  rem_users : map_evolves user_moves (users d) (users d');
  rem_sessions : map_evolves session_moves (sessions d) (sessions d');
  rem_resets : map_evolves token_moves (reset_tokens d) (reset_tokens d');
  rem_verifications : map_evolves token_moves (verification_tokens d) (verification_tokens d');
  rem_roles : roles d' = roles d;
  rem_audit : security_audit d `prefix_of` security_audit d';
  rem_outbox : id_outbox d `prefix_of` id_outbox d'
}.

#[export] Instance session_moves_refl : Reflexive session_moves.
Proof. intros r. unfold session_moves. repeat split; lia. Qed.
#[export] Instance session_moves_trans : Transitive session_moves.
Proof. intros r1 r2 r3 (?&?&?&?&?&?) (?&?&?&?&?&?). unfold session_moves. repeat split; try congruence; lia. Qed.
#[export] Instance token_moves_refl : Reflexive token_moves.
Proof. by intros r. Qed.
#[export] Instance token_moves_trans : Transitive token_moves.
Proof.
  intros r1 r2 r3 (?&?&?&?&Hc1) (?&?&?&?&Hc2). unfold token_moves. repeat split; try congruence.
  intros Hc. rewrite Hc2; [by apply Hc1 | rewrite Hc1; done].
Qed.
#[export] Instance user_moves_refl : Reflexive user_moves.
Proof. by intros r. Qed.
#[export] Instance user_moves_trans : Transitive user_moves.
Proof. intros r1 r2 r3 (?&?&?) (?&?&?). unfold user_moves. repeat split; congruence. Qed.
#[export] Instance remembers_refl : Reflexive remembers.
Proof. intros d. by constructor. Qed.
#[export] Instance remembers_trans : Transitive remembers.
Proof. intros d1 d2 d3 [] []. constructor; try congruence; by etransitivity. Qed.

Lemma trail_remembers i a e d : remembers d (trail i a e d).
Proof. constructor; try done; cbn; by apply prefix_app_r. Qed.

Lemma set_users_remembers d m : map_evolves user_moves (users d) m -> remembers d (set_users d m).
Proof. by constructor. Qed.
Lemma set_sessions_remembers d m : map_evolves session_moves (sessions d) m -> remembers d (set_sessions d m).
Proof. by constructor. Qed.
Lemma set_reset_tokens_remembers d m :
  map_evolves token_moves (reset_tokens d) m -> remembers d (set_reset_tokens d m).
Proof. by constructor. Qed.
Lemma set_verification_tokens_remembers d m :
  map_evolves token_moves (verification_tokens d) m -> remembers d (set_verification_tokens d m).
Proof. by constructor. Qed.
Lemma update_user_remembers d k r r' :
  users d !! k = Some r -> user_moves r r' -> remembers d (set_users d (<[k := r']> (users d))).
Proof.
  intros Hr Hm. apply set_users_remembers, map_evolves_insert; [apply _|]. intros v0. rewrite Hr. by intros [= <-].
Qed.

Lemma CreateUser_remembers id email norm hash st at_ d d1 row :
  IdQueries.CreateUser id email norm hash st at_ d = Ok (d1, row) -> remembers d d1.
Proof.
  unfold IdQueries.CreateUser. intros Hc. go_inv Hc. apply set_users_remembers, map_evolves_insert; [apply _|].
  intros v0 Hv. rename select (bool_decide _ = false) into Hb. apply bool_decide_eq_false_1 in Hb.
  destruct Hb; eauto.
Qed.
Lemma UpdateUserStatus_remembers id st at_ d d1 n :
  IdQueries.UpdateUserStatus id st at_ d = Ok (d1, n) -> remembers d d1.
Proof.
  unfold IdQueries.UpdateUserStatus. intros Hc. go_inv Hc; [|done]. by eapply update_user_remembers.
Qed.
Lemma UpdatePassword_remembers id hash at_ d d1 u :
  IdQueries.UpdatePassword id hash at_ d = Ok (d1, u) -> remembers d d1.
Proof. unfold IdQueries.UpdatePassword. intros Hc. go_inv Hc; [|done]. by eapply update_user_remembers. Qed.
Lemma MarkEmailVerified_remembers id at_ d d1 n :
  IdQueries.MarkEmailVerified id at_ d = Ok (d1, n) -> remembers d d1.
Proof. unfold IdQueries.MarkEmailVerified. intros Hc. go_inv Hc; try done. by eapply update_user_remembers. Qed.
Lemma AssignRole_remembers u name at_ by_ d d1 n :
  IdQueries.AssignRole u name at_ by_ d = Ok (d1, n) -> remembers d d1.
Proof. unfold IdQueries.AssignRole. intros Hc. go_inv Hc; by constructor. Qed.
Lemma RemoveRole_remembers u name d d1 n : IdQueries.RemoveRole u name d = Ok (d1, n) -> remembers d d1.
Proof. unfold IdQueries.RemoveRole. intros Hc. go_inv Hc; by constructor. Qed.
Lemma add_token_evolves m d id u hash ex at_ m' :
  IdQueries.add_token m d id u hash ex at_ = Ok m' -> map_evolves token_moves m m'.
Proof.
  unfold IdQueries.add_token. intros Hc. go_inv Hc. apply map_evolves_insert; [apply _|]. intros v0 Hv.
  rename select (_ || _ = false) into Hb. apply orb_false_iff in Hb as [Hb%bool_decide_eq_false_1 _].
  destruct Hb; eauto.
Qed.
Lemma consume_token_evolves m id at_ : map_evolves token_moves m (fst (IdQueries.consume_token m id at_)).
Proof.
  unfold IdQueries.consume_token. destruct (m !! id) as [r|] eqn:Hr; [|done].
  destruct (t_consumed_at r) eqn:Hc; [done|]. apply map_evolves_insert; [apply _|]. intros v0. rewrite Hr.
  intros [= <-]. unfold token_moves. rewrite Hc.
  repeat split. by intros [? ?].
Qed.
Lemma CreateResetToken_remembers id u hash ex at_ d d1 v :
  IdQueries.CreateResetToken id u hash ex at_ d = Ok (d1, v) -> remembers d d1.
Proof.
  unfold IdQueries.CreateResetToken. intros Hc. go_inv Hc.
  apply set_reset_tokens_remembers. by eapply add_token_evolves.
Qed.
Lemma CreateVerificationToken_remembers id u hash ex at_ d d1 v :
  IdQueries.CreateVerificationToken id u hash ex at_ d = Ok (d1, v) -> remembers d d1.
Proof.
  unfold IdQueries.CreateVerificationToken. intros Hc. go_inv Hc.
  apply set_verification_tokens_remembers. by eapply add_token_evolves.
Qed.
Lemma ConsumeResetToken_remembers id at_ d d1 n :
  IdQueries.ConsumeResetToken id at_ d = Ok (d1, n) -> remembers d d1.
Proof.
  unfold IdQueries.ConsumeResetToken. pose proof (consume_token_evolves (reset_tokens d) id at_) as Hev.
  destruct (IdQueries.consume_token _ _ _) as [m k]. intros [= <- _]. by apply set_reset_tokens_remembers.
Qed.
Lemma ConsumeVerificationToken_remembers id at_ d d1 n :
  IdQueries.ConsumeVerificationToken id at_ d = Ok (d1, n) -> remembers d d1.
Proof.
  unfold IdQueries.ConsumeVerificationToken. pose proof (consume_token_evolves (verification_tokens d) id at_) as Hev.
  destruct (IdQueries.consume_token _ _ _) as [m k]. intros [= <- _]. by apply set_verification_tokens_remembers.
Qed.
Lemma MarkServicePrincipalUsed_remembers id at_ d d1 u :
  IdQueries.MarkServicePrincipalUsed id at_ d = Ok (d1, u) -> remembers d d1.
Proof. unfold IdQueries.MarkServicePrincipalUsed. intros Hc. go_inv Hc; by constructor. Qed.
Lemma CreateSession_remembers id f u hash ex at_ ua ip from d d1 row :
  IdQueries.CreateSession id f u hash ex at_ ua ip from d = Ok (d1, row) -> remembers d d1.
Proof.
  intros (Hno & _ & -> & _)%CreateSession_inv. apply set_sessions_remembers, map_evolves_insert; [apply _|].
  intros v0. rewrite Hno. discriminate.
Qed.
Lemma RotateSession_remembers id new at_ d d1 n :
  IdQueries.RotateSession id new at_ d = Ok (d1, n) -> remembers d d1.
Proof.
  intros [(r & Hr & Ha & _ & ->)|(-> & _)]%RotateSession_inv; [|done].
  apply set_sessions_remembers, map_evolves_insert; [apply _|]. intros v0. rewrite Hr. intros [= <-].
  unfold session_moves. cbn. rewrite Ha. repeat split. done.
Qed.
Lemma session_rank_top st : session_rank st <= 2.
Proof. unfold session_rank. repeat case_match; lia. Qed.
Lemma revoke_where_remembers hit at_ reason d : remembers d (IdQueries.revoke_where hit at_ reason d).
Proof.
  apply set_sessions_remembers. intros k r Hr. eexists. rewrite lookup_fmap, Hr. split; [done|].
  case_match; [|done]. unfold session_moves. cbn. repeat split. apply session_rank_top.
Qed.

#[local] Hint Resolve CreateUser_remembers UpdateUserStatus_remembers UpdatePassword_remembers
  MarkEmailVerified_remembers AssignRole_remembers RemoveRole_remembers CreateResetToken_remembers
  CreateVerificationToken_remembers ConsumeResetToken_remembers ConsumeVerificationToken_remembers
  MarkServicePrincipalUsed_remembers CreateSession_remembers RotateSession_remembers revoke_where_remembers : core.

Lemma change_remembers t d d' i : change t d d' i -> remembers d d'.
Proof.
  intros []; eauto; do 3 (eapply remembers_trans; [|solve [eauto]]; try solve [eauto]).
Qed.

(** ** What a transaction relies on *)

Definition known_session (d : IdDB) (se : Session) : Prop :=
  exists r, sessions d !! se_ID se = Some r /\ s_family_id r = se_FamilyID se /\ s_user_id r = se_UserID se.
Definition known_token (m : gmap string TokenRow) (t : OneTimeToken) : Prop :=
  exists r, m !! ot_ID t = Some r /\ t_user_id r = ot_UserID t.
Definition fresh_family (d : IdDB) (f : string) : Prop :=
  forall k r, sessions d !! k = Some r -> s_family_id r <> f.

(** What the code has established of the arguments of a transaction when it
    begins: rows it read, perhaps long ago, and identifiers it made. *)
Definition tx_args_ok (d : IdDB) (t : transaction) : Prop :=
  match t with
  | TxSession se _ _ _ _ => fresh_family d (se_FamilyID se) /\ se_RotatedFromSessionID se = None
  | TxReuse _ se _ _ => known_session d se
  | TxRefresh _ se new _ _ _ =>
      known_session d se /\ se_FamilyID new = se_FamilyID se /\ se_UserID new = se_UserID se /\
      se_RotatedFromSessionID new = Some (se_ID se)
  | TxReset reset _ _ _ => known_token (reset_tokens d) reset
  | TxEmail v _ _ => known_token (verification_tokens d) v
  | _ => True
  end.
(** The family a transaction begins. *)
Definition new_family (t : transaction) : option string :=
  match t with TxSession se _ _ _ _ => Some (se_FamilyID se) | _ => None end.

Lemma known_session_stable d d' se : remembers d d' -> known_session d se -> known_session d' se.
Proof.
  intros Hr (r & Hk & Hf & Hu). destruct (rem_sessions _ _ Hr _ _ Hk) as (r' & Hk' & Hm).
  destruct Hm as (_ & Hf' & Hu' & _). exists r'. repeat split; congruence.
Qed.
Lemma known_token_stable m m' t : map_evolves token_moves m m' -> known_token m t -> known_token m' t.
Proof.
  intros Hr (r & Hk & Hu). destruct (Hr _ _ Hk) as (r' & Hk' & Hm). destruct Hm as (_ & Hu' & _).
  exists r'. split; congruence.
Qed.
End Invariant.
