(* ===== verification/IdentityFamilies.v ===== *)
(** * Identity: token families

    The contract of refresh tokens: the sessions of one sign-in form a family
    that is live in exactly one session at a time, moves from session to session
    by rotation, and once dead stays dead.  [family_state] reads the state of a
    family off the rows, [family_step] is the contract, and the rows of every
    transaction follow it, whatever the calls that run between reading a session
    and acting on it. *)
From Stdlib Require Import ZArith Lia Ascii String.
From stdpp Require Import base gmap strings list relations pretty.
From S2P Require Import Prelude GoStrings GoErrors GoTime GoBase64 GoCrypto GoJson Tx.
From S2P Require Import IdentityDomain IdentityTables IdentityStore IdentityService IdentityFacts IdentityInvariant.

Open Scope string_scope.
Open Scope Z_scope.
Open Scope go_scope.

(** ** The contract *)

Inductive family := Unborn | Live (session : string) | Dead.

Inductive family_step : family -> family -> Prop :=
| sign_in s : family_step Unborn (Live s)
| rotate s s' : s <> s' -> family_step (Live s) (Live s')
| revoke s : family_step (Live s) Dead.

Definition is_active (r : SessionRow) : bool := (s_status r =? SessionActive)%string.
Definition family_rows (d : IdDB) (f : string) : list SessionRow :=
  filter (fun r => s_family_id r = f) (rows (sessions d)).
Definition family_state (d : IdDB) (f : string) : family :=
  match family_rows d f with
  | [] => Unborn
  | l => match List.filter is_active l with r :: _ => Live (s_id r) | [] => Dead end
  end.

(** A rotated session points at the session that took over from it. *)
Definition succeeded (d : IdDB) (k : string) (r : SessionRow) : Prop :=
  s_status r = SessionRotated ->
  exists k' r', s_replaced_by_session_id r = Some k' /\ sessions d !! k' = Some r' /\
                s_family_id r' = s_family_id r /\ s_rotated_from_session_id r' = Some k.
Record families_ok (d : IdDB) : Prop := mkFamiliesOk {
  fo_one : forall k1 k2 r1 r2, sessions d !! k1 = Some r1 -> sessions d !! k2 = Some r2 ->
             s_family_id r1 = s_family_id r2 -> s_status r1 = SessionActive -> s_status r2 = SessionActive -> k1 = k2;
  fo_user : forall k1 k2 r1 r2, sessions d !! k1 = Some r1 -> sessions d !! k2 = Some r2 ->
              s_family_id r1 = s_family_id r2 -> s_user_id r1 = s_user_id r2;
  fo_succeeded : map_Forall (succeeded d) (sessions d)
}.

(** ** The state of a family, by its rows *)

Definition family_is (d : IdDB) (f : string) (st : family) : Prop :=
  match st with
  | Unborn => fresh_family d f
  | Live s => exists r, sessions d !! s = Some r /\ s_family_id r = f /\ s_status r = SessionActive
  | Dead => (exists k r, sessions d !! k = Some r /\ s_family_id r = f) /\
            forall k r, sessions d !! k = Some r -> s_family_id r = f -> s_status r <> SessionActive
  end.

Lemma elem_of_family_rows d f r :
  r ∈ family_rows d f <-> s_family_id r = f /\ exists k, sessions d !! k = Some r.
Proof. unfold family_rows. by rewrite list_elem_of_filter, elem_of_rows. Qed.
Lemma is_active_spec r : is_active r = true <-> s_status r = SessionActive.
Proof. apply String.eqb_eq. Qed.

Lemma family_state_is d f : wf d -> family_is d f (family_state d f).
Proof.
  intros Hwf. unfold family_state. destruct (family_rows d f) as [|r0 l] eqn:Hl.
  - intros k r Hk Hf. assert (r ∈ family_rows d f) as Hin by (apply elem_of_family_rows; eauto).
    rewrite Hl in Hin. by apply not_elem_of_nil in Hin.
  - rewrite <- Hl. destruct (List.filter is_active (family_rows d f)) as [|r l'] eqn:Ha; cbn.
    + split.
      * assert (r0 ∈ family_rows d f) as (Hf & k & Hk)%elem_of_family_rows by (rewrite Hl; set_solver). eauto.
      * intros k r Hk Hf Hact. assert (In r (List.filter is_active (family_rows d f))) as Hin.
        { apply filter_In. split; [|by apply is_active_spec].
          apply list_elem_of_In, elem_of_family_rows; eauto. }
        rewrite Ha in Hin. done.
    + assert (In r (List.filter is_active (family_rows d f))) as [Hin Hact]%filter_In by (rewrite Ha; by left).
      apply list_elem_of_In, elem_of_family_rows in Hin as (Hf & k & Hk).
      apply is_active_spec in Hact. exists r. by rewrite (proj1 (wf_sessions d Hwf _ _ Hk)).
Qed.
(** The state is determined. *)
Lemma family_is_unique d f st st' : families_ok d -> family_is d f st -> family_is d f st' -> st = st'.
Proof.
  intros Hok. destruct st as [|s|], st' as [|s'|]; cbn; try done.
  - intros Hn (r & Hr & Hf & _). by destruct (Hn _ _ Hr).
  - intros Hn [(k & r & Hr & Hf) _]. by destruct (Hn _ _ Hr).
  - intros (r & Hr & Hf & _) Hn. by destruct (Hn _ _ Hr).
  - intros (r & Hr & Hf & Ha) (r' & Hr' & Hf' & Ha'). f_equal. eapply (fo_one d Hok); eauto; congruence.
  - intros (r & Hr & Hf & Ha) [_ Hn]. by destruct (Hn _ _ Hr).
  - intros [(k & r & Hr & Hf) _] Hn. by destruct (Hn _ _ Hr).
  - intros [_ Hn] (r & Hr & Hf & Ha). by destruct (Hn _ _ Hr).
Qed.
Lemma family_state_eq d f st : wf d -> families_ok d -> family_is d f st -> family_state d f = st.
Proof. intros Hwf Hok Hst. eapply family_is_unique; [done | by apply family_state_is | done]. Qed.

(** ** How the rows of sessions change *)

Section Families.
Context `{GoLib} `{Crypto} `{Env} `{Pg} `{IdPorts}.

Inductive session_change (begun : option string) (d d' : IdDB) : Prop :=
| same_sessions : sessions d' = sessions d -> session_change begun d d'
| revoked_sessions hit at_ reason :
    sessions d' = sessions (IdQueries.revoke_where hit at_ reason d) -> session_change begun d d'
| first_session k row :
    sessions d' = <[k := row]> (sessions d) -> sessions d !! k = None -> fresh_family d (s_family_id row) ->
    s_status row = SessionActive -> begun = Some (s_family_id row) -> session_change begun d d'
| next_session k row old_k old at_ :
    sessions d' = <[old_k := IdQueries.rotated_row old k at_]> (<[k := row]> (sessions d)) ->
    sessions d !! k = None -> sessions d !! old_k = Some old -> s_status old = SessionActive ->
    s_status row = SessionActive -> s_family_id row = s_family_id old -> s_user_id row = s_user_id old ->
    s_rotated_from_session_id row = Some old_k -> session_change begun d d'.

(** Every transaction changes the sessions in one of the four ways. *)
Lemma change_sessions t d d' i : tx_args_ok d t -> change t d d' i -> session_change (new_family t) d d'.
Proof.
  intros Hargs Hc. destruct Hc; try (apply same_sessions; other_tables sessions; reflexivity);
    try (eapply revoked_sessions; reflexivity).
  - (* sign in *) destruct Hargs as [Hfresh _].
    rename select (IdQueries.CreateSession _ _ _ _ _ _ _ _ _ _ = _) into Hc.
    apply CreateSession_inv in Hc as (Hno & _ & -> & ->). by eapply first_session.
  - (* refresh *) destruct Hargs as ((r & Hr & Hf & Hu) & Hf' & Hu' & Hfrom).
    rename select (IdQueries.CreateSession _ _ _ _ _ _ _ _ _ _ = _) into Hc.
    rename select (IdQueries.RotateSession _ _ _ _ = _) into Hrot.
    apply CreateSession_inv in Hc as (Hno & _ & -> & ->).
    assert (se_ID new <> se_ID se) as Hne by (intros E; rewrite E, Hr in Hno; discriminate Hno).
    apply RotateSession_inv in Hrot as [(r0 & Hr0 & Ha0 & _ & ->)|(_ & [=] & _)]. cbn [set_sessions sessions] in *.
    rewrite lookup_insert_ne in Hr0 by done. simplify_eq.
    eapply (next_session _ _ _ (se_ID new) _ (se_ID se) r now); [reflexivity|..]; cbn [s_status s_family_id s_user_id
      s_rotated_from_session_id]; try done; congruence.
  - (* disable *) eapply revoked_sessions. unfold IdQueries.revoke_where. cbn. other_tables sessions. reflexivity.
  - (* reset *)
    rename select (IdQueries.ConsumeResetToken _ _ _ = _) into Hcons.
    rename select (IdQueries.UpdatePassword _ _ _ _ = _) into Hpw.
    eapply revoked_sessions.
    assert (sessions d2 = sessions (IdQueries.revoke_where
      (fun r => (s_user_id r =? ot_UserID reset)%string) now "password_reset" d1)) as ->
      by (clear -Hcons; statement_inv Hcons; reflexivity).
    unfold IdQueries.revoke_where. cbn. other_tables sessions. reflexivity.
Qed.

(** ** The contract is kept *)

Definition follows (d d' : IdDB) (f : string) : Prop :=
  family_state d' f = family_state d f \/ family_step (family_state d f) (family_state d' f).

(** The rows of one change, by where they come from. *)
Lemma revoked_rows hit at_ reason d k r' :
  sessions (IdQueries.revoke_where hit at_ reason d) !! k = Some r' <->
  exists r, sessions d !! k = Some r /\
    r' = if hit r && negb (s_status r =? SessionRevoked)%string then IdQueries.revoked_row at_ reason r else r.
Proof.
  cbn [IdQueries.revoke_where set_sessions sessions]. rewrite lookup_fmap_Some. naive_solver.
Qed.

Lemma revoked_row_facts hit at_ reason r r' :
  r' = (if hit r && negb (s_status r =? SessionRevoked)%string then IdQueries.revoked_row at_ reason r else r) ->
  s_family_id r' = s_family_id r /\ s_user_id r' = s_user_id r /\
  s_replaced_by_session_id r' = s_replaced_by_session_id r /\
  s_rotated_from_session_id r' = s_rotated_from_session_id r /\
  (r' = r \/ s_status r' = SessionRevoked).
Proof. intros ->. case_match; repeat split; auto. Qed.

Lemma statuses_differ :
  SessionRevoked <> SessionActive /\ SessionRotated <> SessionActive /\ SessionRotated <> SessionRevoked.
Proof. done. Qed.

(** Where a row of the table comes from after an insertion. *)
Local Ltac inserted := intros [[<- <-]|[? ?]]%lookup_insert_Some.

Lemma same_ok d d' : sessions d' = sessions d -> families_ok d -> families_ok d'.
Proof. intros E []. constructor; unfold succeeded; rewrite ?E; done. Qed.

Lemma revoked_ok hit at_ reason d : families_ok d -> families_ok (IdQueries.revoke_where hit at_ reason d).
Proof.
  intros Hok. destruct statuses_differ as (N1 & N2 & N3). constructor.
  - intros k1 k2 r1 r2 (x1 & H1x & E1)%revoked_rows (x2 & H2x & E2)%revoked_rows.
    apply revoked_row_facts in E1 as (F1 & _ & _ & _ & [->|R1]), E2 as (F2 & _ & _ & _ & [->|R2]);
      rewrite ?F1, ?F2; intros Hf A1 A2; try congruence. by eapply (fo_one d Hok).
  - intros k1 k2 r1 r2 (x1 & H1x & E1)%revoked_rows (x2 & H2x & E2)%revoked_rows.
    apply revoked_row_facts in E1 as (F1 & U1 & _), E2 as (F2 & U2 & _).
    rewrite F1, F2, U1, U2. by eapply (fo_user d Hok).
  - intros k r (x & Hx & Ex)%revoked_rows Hrot.
    apply revoked_row_facts in Ex as (F & _ & P & _ & [->|R]); [|congruence].
    destruct (fo_succeeded d Hok _ _ Hx Hrot) as (k' & r' & Hp & Hr' & Hf' & Hfr').
    exists k'. eexists. split; [done|]. split; [by apply revoked_rows; eauto|].
    destruct (revoked_row_facts hit at_ reason r' _ eq_refl) as (F' & _ & _ & G' & _). split; congruence.
Qed.

Lemma first_ok d k row :
  sessions d !! k = None -> fresh_family d (s_family_id row) -> s_status row = SessionActive ->
  families_ok d -> families_ok (set_sessions d (<[k := row]> (sessions d))).
Proof.
  intros Hno Hfr Ha Hok. destruct statuses_differ as (N1 & N2 & N3). constructor; unfold succeeded; cbn [set_sessions sessions].
  - intros k1 k2 r1 r2. inserted; inserted; intros Hf A1 A2; try done.
    + destruct (Hfr k2 r2); congruence.
    + destruct (Hfr k1 r1); congruence.
    + by eapply (fo_one d Hok).
  - intros k1 k2 r1 r2. inserted; inserted; intros Hf; try done.
    + destruct (Hfr k2 r2); congruence.
    + destruct (Hfr k1 r1); congruence.
    + by eapply (fo_user d Hok).
  - intros k0 r0. inserted; intros Hrot; [congruence|].
    destruct (fo_succeeded d Hok k0 r0 ltac:(done) Hrot) as (k' & r' & Hp & Hr' & ?).
    exists k', r'. split; [done|]. rewrite lookup_insert_ne by congruence. done.
Qed.

Definition next_table (d : IdDB) (k : string) (row : SessionRow) (old_k : string) (old : SessionRow) (at_ : Time)
  : gmap string SessionRow := <[old_k := IdQueries.rotated_row old k at_]> (<[k := row]> (sessions d)).

Section Next.
Context (d : IdDB) (k : string) (row : SessionRow) (old_k : string) (old : SessionRow) (at_ : Time).
Context (Hno : sessions d !! k = None) (Hold : sessions d !! old_k = Some old) (Ha : s_status old = SessionActive)
  (Hrow : s_status row = SessionActive) (Hf : s_family_id row = s_family_id old)
  (Hu : s_user_id row = s_user_id old) (Hfrom : s_rotated_from_session_id row = Some old_k).
Local Notation after := (next_table d k row old_k old at_).

Lemma next_rows x r :
  after !! x = Some r ->
  (x = old_k /\ r = IdQueries.rotated_row old k at_) \/ (x = k /\ r = row) \/
  (x <> old_k /\ x <> k /\ sessions d !! x = Some r).
Proof.
  unfold next_table. intros [[<- <-]|[? [[<- <-]|[? ?]]%lookup_insert_Some]]%lookup_insert_Some; auto 10.
Qed.
Lemma next_new : after !! k = Some row.
Proof. unfold next_table. rewrite lookup_insert_ne by congruence. by rewrite lookup_insert_eq. Qed.
Lemma next_old : after !! old_k = Some (IdQueries.rotated_row old k at_).
Proof. unfold next_table. by rewrite lookup_insert_eq. Qed.
(** Rows there keep their family, user and origin. *)
Lemma next_kept x r :
  sessions d !! x = Some r ->
  exists r', after !! x = Some r' /\ s_family_id r' = s_family_id r /\ s_user_id r' = s_user_id r /\
             s_rotated_from_session_id r' = s_rotated_from_session_id r.
Proof.
  intros Hx. destruct (decide (x = old_k)) as [->|Hne].
  - exists (IdQueries.rotated_row old k at_). rewrite next_old. simplify_eq. done.
  - exists r. unfold next_table. rewrite !lookup_insert_ne by congruence. done.
Qed.

Lemma next_ok : families_ok d -> families_ok (set_sessions d after).
Proof.
  intros Hok. destruct statuses_differ as (N1 & N2 & N3).
  constructor; unfold succeeded; cbn [set_sessions sessions].
  - intros k1 k2 r1 r2 [(-> & ->)|[(-> & ->)|(M1 & K1 & L1)]]%next_rows
      [(-> & ->)|[(-> & ->)|(M2 & K2 & L2)]]%next_rows Ef A1 A2; try done.
    + destruct M2. eapply (fo_one d Hok); eauto; congruence.
    + destruct M1. eapply (fo_one d Hok); eauto; congruence.
    + by eapply (fo_one d Hok).
  - assert (forall x r, after !! x = Some r ->
      exists k0 r0, sessions d !! k0 = Some r0 /\ s_family_id r0 = s_family_id r /\ s_user_id r0 = s_user_id r) as Hback.
    { intros x r [(-> & ->)|[(-> & ->)|(M1 & K1 & L1)]]%next_rows; eauto 10. }
    intros k1 k2 r1 r2 (k1' & r1' & L1 & <- & <-)%Hback (k2' & r2' & L2 & <- & <-)%Hback. by eapply (fo_user d Hok).
  - intros x r [(-> & ->)|[(-> & ->)|(M1 & K1 & L1)]]%next_rows Hrot; [|congruence|].
    + exists k, row. split; [done|]. rewrite next_new. done.
    + destruct (fo_succeeded d Hok x r L1 Hrot) as (k' & r' & Hp & Hr' & Hf' & Hfr').
      destruct (next_kept k' r' Hr') as (r'' & Hr'' & Hf'' & _ & Hfr''). exists k', r''.
      repeat split; congruence.
Qed.
End Next.

Lemma session_change_ok b d d' : session_change b d d' -> families_ok d -> families_ok d'.
Proof.
  intros [E|hit at_ reason E|k row E|k row ok old at_ E] Hok.
  - by eapply same_ok.
  - eapply same_ok; [exact E|]. by apply revoked_ok.
  - eapply (same_ok (set_sessions d (<[k := row]> (sessions d)))); [exact E|]. by apply first_ok.
  - eapply (same_ok (set_sessions d (next_table d k row ok old at_))); [exact E|]. by apply next_ok.
Qed.

(** A family none of whose rows changed is in the same state. *)
Lemma family_is_ext d d' f st :
  (forall k r, s_family_id r = f -> sessions d !! k = Some r <-> sessions d' !! k = Some r) ->
  family_is d f st -> family_is d' f st.
Proof.
  intros Hext. destruct st as [|s|]; cbn.
  - intros Hn k r Hr Hf. apply Hext in Hr; [|done]. by apply (Hn k r).
  - intros (r & Hr & Hf & Ha). exists r. split; [by apply Hext | done].
  - intros [(k & r & Hr & Hf) Hn]. split.
    + exists k, r. split; [by apply Hext | done].
    + intros k0 r0 Hr0 Hf0. apply Hext in Hr0; [|done]. by apply (Hn k0 r0).
Qed.

Lemma revoked_follows hit at_ reason d f st :
  families_ok d -> family_is d f st ->
  exists st', family_is (IdQueries.revoke_where hit at_ reason d) f st' /\ (st' = st \/ family_step st st').
Proof.
  intros Hok Hst. destruct st as [|s|]; cbn in Hst.
  - exists Unborn. split; [|by left]. intros k r (x & Hx & (F & _)%revoked_row_facts)%revoked_rows.
    rewrite F. by apply (Hst k x).
  - destruct Hst as (r & Hr & Hf & Ha). destruct (hit r) eqn:Hhit.
    + exists Dead. split; [|right; constructor]. split.
      * exists s. eexists. split; [by apply revoked_rows; eauto|]. by case_match.
      * intros k0 r0 (x & Hx & Ex)%revoked_rows Hf0 Ha0.
        pose proof Ex as (F & _ & _ & _ & [->|R])%revoked_row_facts; [|by rewrite R in Ha0].
        assert (k0 = s) as -> by (eapply (fo_one d Hok); eauto; congruence). simplify_eq.
        by rewrite Hhit, Ha0 in Ex; rewrite Ex in Ha0.
    + exists (Live s). split; [|by left]. exists r. split; [|done]. apply revoked_rows. exists r. by rewrite Hhit.
  - exists Dead. split; [|by left]. destruct Hst as [(k & r & Hr & Hf) Hn]. split.
    + exists k. eexists. split; [by apply revoked_rows; eauto|]. by case_match.
    + intros k0 r0 (x & Hx & (F & _ & _ & _ & [->|R])%revoked_row_facts)%revoked_rows Hf0.
      * by apply (Hn k0 x).
      * by rewrite R.
Qed.

Lemma first_follows d k row f st :
  sessions d !! k = None -> fresh_family d (s_family_id row) -> s_status row = SessionActive ->
  families_ok d -> family_is d f st ->
  exists st', family_is (set_sessions d (<[k := row]> (sessions d))) f st' /\ (st' = st \/ family_step st st').
Proof.
  intros Hno Hfr Ha Hok Hst. destruct (decide (s_family_id row = f)) as [<-|Hne].
  - assert (st = Unborn) as -> by (eapply family_is_unique; [done..|exact Hfr]).
    exists (Live k). split; [|right; constructor]. exists row. cbn. by rewrite lookup_insert_eq.
  - exists st. split; [|by left]. eapply family_is_ext; [|done]. intros k0 r0 Hf0. cbn.
    rewrite lookup_insert_Some. naive_solver congruence.
Qed.

Lemma next_follows d k row old_k old at_ f st :
  sessions d !! k = None -> sessions d !! old_k = Some old -> s_status old = SessionActive ->
  s_status row = SessionActive -> s_family_id row = s_family_id old ->
  families_ok d -> family_is d f st ->
  exists st', family_is (set_sessions d (next_table d k row old_k old at_)) f st' /\ (st' = st \/ family_step st st').
Proof.
  intros Hno Hold Ha Hrow Hf Hok Hst. destruct (decide (s_family_id old = f)) as [<-|Hne].
  - assert (st = Live old_k) as -> by (eapply family_is_unique; [done..|]; by exists old).
    exists (Live k). split; [|right; constructor; congruence].
    exists row. cbn [set_sessions sessions]. rewrite (next_new d k row old_k old) by done. done.
  - exists st. split; [|by left]. eapply family_is_ext; [|done]. intros k0 r0 Hf0. cbn [set_sessions sessions].
    unfold next_table. rewrite !lookup_insert_Some. split.
    + intros Hr0. right. split; [congruence|]. right. split; [congruence | done].
    + intros [[_ <-]|[_ [[_ <-]|[_ ?]]]]; cbn in Hf0; congruence.
Qed.

Lemma session_change_follows b d d' f :
  wf d -> wf d' -> families_ok d -> session_change b d d' -> follows d d' f.
Proof.
  intros Hwf Hwf' Hok Hc. pose proof (session_change_ok _ _ _ Hc Hok) as Hok'.
  pose proof (family_state_is d f Hwf) as Hst. unfold follows.
  cut (exists st', family_is d' f st' /\ (st' = family_state d f \/ family_step (family_state d f) st')).
  { intros (st' & Hst' & Hstep). by rewrite (family_state_eq d' f st'). }
  assert (forall d1 st', sessions d' = sessions d1 -> family_is d1 f st' -> family_is d' f st') as Hsame.
  { intros d1 st' E. apply family_is_ext. intros. by rewrite E. }
  destruct Hc as [E|hit at_ reason E|k row E Hno Hfr Ha _|k row ok old at_ E Hno Hold Ha Hrow Hf Hu Hfrom].
  - eauto.
  - destruct (revoked_follows hit at_ reason d f _ Hok Hst) as (st' & Hst' & Hstep). eauto.
  - destruct (first_follows d k row f _ Hno Hfr Ha Hok Hst) as (st' & Hst' & Hstep).
    exists st'. split; [|done]. eapply Hsame; [|exact Hst']. exact E.
  - destruct (next_follows d k row ok old at_ f _ Hno Hold Ha Hrow Hf Hok Hst) as (st' & Hst' & Hstep).
    exists st'. split; [|done]. eapply Hsame; [|exact Hst']. exact E.
Qed.

(** ** Calls that run together

    A call reads rows, makes identifiers, and begins its transaction later,
    when other calls may have committed.  [decided] is the moment the code has
    settled on a transaction: what it read is in the rows and a family it is
    about to begin is new.  The transaction then ends in any way its program
    ends, or never begins. *)
Inductive sys_step : IdDB * list transaction -> IdDB * list transaction -> Prop :=
| decided d pending t :
    tx_args_ok d t -> (forall f, new_family t = Some f -> f ∉ omap new_family pending) ->
    sys_step (d, pending) (d, t :: pending)
| ended s s' r before t after :
    WithTransaction (tx_prog t) s = (s', r) ->
    sys_step (db s, (before ++ t :: after)%list) (db s', (before ++ after)%list)
| gave_up d before t after : sys_step (d, (before ++ t :: after)%list) (d, (before ++ after)%list).

Lemma change_families t d d' i :
  tx_args_ok d t -> change t d d' i ->
  forall k r, sessions d' !! k = Some r ->
    (exists k0 r0, sessions d !! k0 = Some r0 /\ s_family_id r0 = s_family_id r) \/
    new_family t = Some (s_family_id r).
Proof.
  intros Hargs Hc k r Hr.
  destruct (change_sessions _ _ _ _ Hargs Hc)
    as [E|hit at_ reason E|k0 row E Hno Hfr Ha Hb|k0 row ok old at_ E Hno Hold Ha Hrow Hf Hu Hfrom]; rewrite E in Hr.
  - eauto.
  - apply revoked_rows in Hr as (x & Hx & (F & _)%revoked_row_facts). left. exists k, x. by rewrite F.
  - apply lookup_insert_Some in Hr as [[<- <-]|[_ Hr]]; [auto | eauto].
  - apply next_rows in Hr as [(-> & ->)|[(-> & ->)|(_ & _ & Hr)]]; eauto.
Qed.

(** What a call relies on survives the transactions of the others. *)
Lemma args_stable d d' t t' i :
  change t' d d' i -> tx_args_ok d t' -> (forall f, new_family t = Some f -> new_family t' <> Some f) ->
  tx_args_ok d t -> tx_args_ok d' t.
Proof.
  intros Hc Hargs' Hnew Hargs. pose proof (change_remembers _ _ _ _ Hc) as Hrem.
  destruct t; cbn in *; try done.
  - destruct Hargs as [Hfr ?]. split; [|done]. intros k r Hr Hf.
    destruct (change_families _ _ _ _ Hargs' Hc k r Hr) as [(k0 & r0 & Hr0 & Hf0)|Hb].
    + apply (Hfr k0 r0); congruence.
    + apply (Hnew _ eq_refl). congruence.
  - by eapply known_session_stable.
  - destruct Hargs as (? & ? & ? & ?). repeat split; try done. by eapply known_session_stable.
  - eapply known_token_stable; [|done]. apply Hrem.
  - eapply known_token_stable; [|done]. apply Hrem.
Qed.
Lemma args_ext d d' t :
  sessions d' = sessions d -> reset_tokens d' = reset_tokens d -> verification_tokens d' = verification_tokens d ->
  tx_args_ok d t -> tx_args_ok d' t.
Proof. intros E1 E2 E3. destruct t; cbn; unfold fresh_family, known_session; rewrite ?E1, ?E2, ?E3; try done. Qed.

(** One transaction, however it ends. *)
Lemma transaction_follows t s s' r :
  wf (db s) -> families_ok (db s) -> tx_args_ok (db s) t -> WithTransaction (tx_prog t) s = (s', r) ->
  wf (db s') /\ families_ok (db s') /\ forall f, follows (db s) (db s') f.
Proof.
  intros Hwf Hok Hargs Hr.
  apply WithTransaction_effect in Hr as [->|(s1 & u & Hp & ->)]; [split; [done|]; split; [done|]; intros f; by left|].
  apply tx_prog_effect in Hp as (d1 & i & a & e & Hc & ->). change (db (advance s)) with (db s) in Hc.
  pose proof (change_wf _ _ _ _ Hc Hwf) as Hwf1. pose proof (change_sessions _ _ _ _ Hargs Hc) as Hs.
  split; [by apply trail_wf|]. split; [apply (same_ok d1); [done|]; by eapply session_change_ok|].
  intros f. exact (session_change_follows _ _ _ f Hwf Hwf1 Hok Hs).
Qed.

Definition sys_ok (c : IdDB * list transaction) : Prop :=
  wf (fst c) /\ families_ok (fst c) /\ (forall t, t ∈ snd c -> tx_args_ok (fst c) t) /\
  NoDup (omap new_family (snd c)).

Lemma pending_distinct before t after t' f :
  NoDup (omap new_family (before ++ t :: after)%list) -> t' ∈ (before ++ after)%list -> new_family t' = Some f ->
  new_family t <> Some f.
Proof.
  intros Hnd Hin Hf' Hf.
  assert (omap new_family (before ++ t :: after)%list ≡ₚ f :: omap new_family (before ++ after)%list) as Hp.
  { rewrite <- Permutation_middle. cbn. by rewrite Hf. }
  rewrite Hp in Hnd. apply NoDup_cons in Hnd as [Hnot _]. apply Hnot, list_elem_of_omap. eauto.
Qed.
Lemma pending_rest before t after :
  NoDup (omap new_family (before ++ t :: after)%list) -> NoDup (omap new_family (before ++ after)%list).
Proof.
  rewrite <- Permutation_middle. cbn. destruct (new_family t); [|done]. by intros [_ ?]%NoDup_cons.
Qed.

Lemma transaction_args t t' s s' r :
  tx_args_ok (db s) t -> WithTransaction (tx_prog t) s = (s', r) ->
  (forall f, new_family t' = Some f -> new_family t <> Some f) -> tx_args_ok (db s) t' -> tx_args_ok (db s') t'.
Proof.
  intros Hargs Hr Hnew Hargs'. apply WithTransaction_effect in Hr as [->|(s1 & u & Hp & ->)]; [done|].
  apply tx_prog_effect in Hp as (d1 & i & a & e & Hc & ->). eapply (args_ext d1); [done..|].
  by eapply args_stable.
Qed.

Lemma sys_step_ok c c' : sys_ok c -> sys_step c c' -> sys_ok c' /\ forall f, follows (fst c) (fst c') f.
Proof.
  intros (Hwf & Hok & Hargs & Hnd) Hs. destruct Hs as [d pending t Ht Hnew|s s' r before t after Hr|d before t after];
    cbn in *.
  - split; [|intros f; by left]. split; [done|]. split; [done|]. split.
    + intros t' [->|Hin]%elem_of_cons; auto.
    + cbn. destruct (new_family t) eqn:Hf; [|done]. constructor; auto.
  - assert (tx_args_ok (db s) t) as Ht by (apply Hargs; set_solver).
    destruct (transaction_follows t s s' r Hwf Hok Ht Hr) as (Hwf' & Hok' & Hfol). split; [|done].
    split; [done|]. split; [done|]. split; [|by eapply pending_rest].
    intros t' Hin. eapply transaction_args; [exact Ht | exact Hr | | apply Hargs; set_solver].
    intros f. by eapply pending_distinct.
  - split; [|intros f; by left]. split; [done|]. split; [done|]. split; [|by eapply pending_rest].
    intros t' Hin. apply Hargs. set_solver.
Qed.
Lemma sys_run_ok c c' : sys_ok c -> rtc sys_step c c' ->
  sys_ok c' /\ forall f, rtc family_step (family_state (fst c) f) (family_state (fst c') f).
Proof.
  intros Hok Hrun. induction Hrun as [c|c1 c2 c3 Hs Hrun IH]; [done|].
  destruct (sys_step_ok _ _ Hok Hs) as [Hok2 Hfol]. destruct (IH Hok2) as [Hok3 IHf]. split; [done|].
  intros f. destruct (Hfol f) as [<-|Hstep]; [done|]. by econstructor.
Qed.
End Families.
