(* ===== verification/IdentityCalls.v ===== *)
(** * Identity: the calls of the service

    What a call found when it decided on its transaction, that a call changes
    the rows by that transaction alone, and the properties of each use case. *)
From Stdlib Require Import ZArith Lia Ascii String.
From stdpp Require Import base gmap strings list relations pretty.
From S2P Require Import Prelude GoStrings GoErrors GoTime GoBase64 GoCrypto GoJson Tx.
From S2P Require Import IdentityDomain IdentityTables IdentityStore IdentityService IdentityFacts IdentityInvariant.
From S2P Require Import IdentityFamilies.

Open Scope string_scope.
Open Scope Z_scope.
Open Scope go_scope.

Create HintDb looks.

Section Calls.
Context `{GoLib} `{Crypto} `{Env} `{Pg} `{IdPorts}.
Local Notation Prog := (M IdDB (list Mail)).
Local Notation State := (St IdDB (list Mail)).

(** ** Reads *)

Local Ltac read_only :=
  apply looks_query; intros ? ? ?;
  unfold IdQueries.GetUserByEmail, IdQueries.GetUserByID, IdQueries.ListUserRoles, IdQueries.GetRoleByName,
    IdQueries.GetSessionByRefreshHash, IdQueries.GetSessionByID, IdQueries.ListUserSessions,
    IdQueries.ListUserSessionsPage, IdQueries.ListUsersPage, IdQueries.ListUserRoleNames, IdQueries.GetServicePrincipal,
    IdQueries.ListActiveServiceCredentials, IdQueries.GetResetToken, IdQueries.GetVerificationToken;
  let E := fresh "E" in intros E; repeat case_match; congruence.
Local Ltac looking :=
  repeat (intros; lazymatch goal with
  | |- looks (bind _ _) => apply looks_bind; [|intros ?]
  | |- looks (ret _) => apply looks_ret
  | |- looks (fail _) => apply looks_fail
  | |- looks (lift _) => apply looks_lift
  | |- looks (port _) => apply looks_port
  | |- looks timeNow => apply looks_now
  | |- looks (mapE _ _) => apply looks_mapE
  | |- looks (try_ _) => apply looks_try
  | |- looks (for_each _ _) => apply looks_for_each
  | |- looks (query _) => read_only
  | |- looks (match ?x with _ => _ end) => destruct x
  | |- looks (if ?b then _ else _) => destruct b
  end).

Lemma looks_FindUserByEmail e : looks (FindUserByEmail e).
Proof. unfold FindUserByEmail. looking. Qed.
Lemma looks_FindUser id : looks (FindUser id).
Proof. unfold FindUser. looking. Qed.
Lemma looks_UserRoles id : looks (UserRoles id).
Proof. unfold UserRoles. looking. Qed.
Lemma looks_FindRole name : looks (FindRole name).
Proof. unfold FindRole. looking. Qed.
Lemma looks_FindSessionByRefreshHash h : looks (FindSessionByRefreshHash h).
Proof. unfold FindSessionByRefreshHash. looking. Qed.
Lemma looks_FindSessionByID id : looks (FindSessionByID id).
Proof. unfold FindSessionByID. looking. Qed.
Lemma looks_ListSessions u : looks (ListSessions u).
Proof. unfold ListSessions. looking. Qed.
Lemma looks_ListSessionsPage u q : looks (ListSessionsPage u q).
Proof. unfold ListSessionsPage. looking. Qed.
Lemma looks_ListUsersPage q : looks (ListUsersPage q).
Proof. unfold ListUsersPage. looking. Qed.
Lemma looks_FindServicePrincipal c : looks (FindServicePrincipal c).
Proof. unfold FindServicePrincipal. looking. Qed.
Lemma looks_ActiveServiceCredentials p now : looks (ActiveServiceCredentials p now).
Proof. unfold ActiveServiceCredentials. looking. Qed.
Lemma looks_FindResetToken h : looks (FindResetToken h).
Proof. unfold FindResetToken. looking. Qed.
Lemma looks_FindVerificationToken h : looks (FindVerificationToken h).
Proof. unfold FindVerificationToken. looking. Qed.
Lemma looks_clockNow : looks clockNow.
Proof. unfold clockNow. looking. Qed.
Lemma looks_allowDimensions svc kind account source : looks (allowDimensions svc kind account source).
Proof. unfold allowDimensions, allow. looking. Qed.
Lemma looks_Send kind to_ token : looks (Send kind to_ token).
Proof. unfold Send. apply looks_bind; [intros s; cbn; auto|]. intros l. apply looks_bind; [intros s; cbn; auto|]. looking. Qed.

(** What a read that succeeds found.  A read is a statement and a mapping. *)
Lemma query_map_ok {A B} (q : IdDB -> result goerr (IdDB * A)) (f : A -> B) (s s' : State) b :
  (let! a := query q in ret (f a)) s = (s', Ok b) -> exists a, q (db s) = Ok (db s', a) /\ b = f a.
Proof. intros (s1 & a & Hq%query_ok & [-> ->]%ret_ok)%bind_ok. eauto. Qed.
Lemma first_row_found {A} (P : A -> Prop) `{forall x, Decision (P x)} (m : gmap string A) (d d' : IdDB) r :
  match filter P (rows m) with r :: _ => Ok (d, r) | [] => Err ErrNoRows end = Ok (d', r) ->
  P r /\ exists k, m !! k = Some r.
Proof.
  destruct (filter P (rows m)) as [|r0 l] eqn:Hf; intros E; [discriminate E|]. injection E as _ ->.
  assert (r ∈ filter P (rows m)) as [HP Hr]%list_elem_of_filter by (rewrite Hf; set_solver).
  split; [done|]. by apply elem_of_rows.
Qed.

Lemma FindUserByEmail_found e (s s' : State) u :
  FindUserByEmail e s = (s', Ok u) ->
  exists k r, users (db s) !! k = Some r /\ ur_email_normalized r = e /\ u = mapUser r.
Proof. intros (r & Hq & ->)%query_map_ok. apply first_row_found in Hq as (He & k & Hk). eauto. Qed.
Lemma FindUser_found id (s s' : State) u :
  FindUser id s = (s', Ok u) -> exists r, users (db s) !! id = Some r /\ u = mapUser r.
Proof. intros (r & Hq & ->)%query_map_ok. unfold IdQueries.GetUserByID in Hq. case_match; simplify_eq. eauto. Qed.
Lemma FindSessionByRefreshHash_found h (s s' : State) se :
  FindSessionByRefreshHash h s = (s', Ok se) ->
  exists k r, sessions (db s) !! k = Some r /\ s_refresh_token_hash r = h /\ se = mapSession r.
Proof. intros (r & Hq & ->)%query_map_ok. apply first_row_found in Hq as (He & k & Hk). eauto. Qed.
Lemma FindSessionByID_found id (s s' : State) se :
  FindSessionByID id s = (s', Ok se) -> exists r, sessions (db s) !! id = Some r /\ se = mapSession r.
Proof. intros (r & Hq & ->)%query_map_ok. unfold IdQueries.GetSessionByID in Hq. case_match; simplify_eq. eauto. Qed.
Lemma find_token_found m h r :
  IdQueries.find_token m h = Ok r -> t_token_hash r = h /\ exists k, m !! k = Some r.
Proof.
  unfold IdQueries.find_token. destruct (filter _ (rows m)) as [|r0 l] eqn:Hf; intros E; [discriminate E|].
  injection E as ->.
  assert (r ∈ filter (fun r => t_token_hash r = h) (rows m)) as [HP Hr]%list_elem_of_filter by (rewrite Hf; set_solver).
  split; [done|]. by apply elem_of_rows.
Qed.
Lemma FindResetToken_found h (s s' : State) t :
  FindResetToken h s = (s', Ok t) ->
  exists k r, reset_tokens (db s) !! k = Some r /\ t_token_hash r = h /\ t = mapToken r.
Proof.
  intros (r & Hq & ->)%query_map_ok. unfold IdQueries.GetResetToken in Hq. go_inv Hq.
  rename select (IdQueries.find_token _ _ = _) into Hf. apply find_token_found in Hf as (? & k & ?). eauto.
Qed.
Lemma FindVerificationToken_found h (s s' : State) t :
  FindVerificationToken h s = (s', Ok t) ->
  exists k r, verification_tokens (db s) !! k = Some r /\ t_token_hash r = h /\ t = mapToken r.
Proof.
  intros (r & Hq & ->)%query_map_ok. unfold IdQueries.GetVerificationToken in Hq. go_inv Hq.
  rename select (IdQueries.find_token _ _ = _) into Hf. apply find_token_found in Hf as (? & k & ?). eauto.
Qed.

(** ** A call is one transaction *)

(** The identifiers still to come name no family there is. *)
Definition fresh_ids (s : State) : Prop :=
  forall n id, (tick s <= n)%nat -> uuid_NewV7 n = Ok id -> fresh_family (db s) id.

(** The rows change by at most one transaction, on arguments that are right. *)
Definition by_transaction (d d' : IdDB) : Prop :=
  d' = d \/
  exists t (s1 s2 : State) r,
    tx_args_ok d t /\ db s1 = d /\ WithTransaction (tx_prog t) s1 = (s2, r) /\ db s2 = d'.

Lemma WithTransaction_forget {A} (m : Prog A) (s : State) :
  db (fst (WithTransaction (forget m) s)) = db (fst (WithTransaction m s)).
Proof.
  unfold WithTransaction, in_tx, forget, bind, ret. destruct (trip_at (tick s)); [|done..].
  destruct (m (advance s)) as [s1 [a|e]]; [|done]. by destruct (trip_at (tick s1)).
Qed.
(** The transaction of a call, its answer used or not. *)
Lemma tx_unit t (s1 s2 : State) r :
  tx_args_ok (db s1) t -> WithTransaction (tx_prog t) s1 = (s2, r) -> by_transaction (db s1) (db s2).
Proof. intros Hargs Ht. right. by exists t, s1, s2, r. Qed.
Lemma tx_value {A} t (m : Prog A) (s1 s2 : State) r :
  tx_args_ok (db s1) t -> tx_prog t = forget m -> WithTransaction m s1 = (s2, r) -> by_transaction (db s1) (db s2).
Proof.
  intros Hargs Hp Ht. right. pose proof (WithTransaction_forget m s1) as Hf. rewrite Ht in Hf.
  destruct (WithTransaction (forget m) s1) as [s3 r3] eqn:H3'. exists t, s1, s3, r3. by rewrite Hp.
Qed.
Lemma then_looks {A B} (m : Prog A) (k : A -> Prog B) s s' r :
  (forall a, looks (k a)) -> bind m k s = (s', r) -> exists s2 r2, m s = (s2, r2) /\ db s' = db s2.
Proof.
  intros Hk Hb. unfold bind in Hb. destruct (m s) as [s2 [a|e]].
  - destruct (Hk a s2) as [Hd _]. rewrite Hb in Hd. eauto.
  - injection Hb as <- <-. eauto.
Qed.
Lemma looks_forget {A} (m : Prog A) : looks m -> looks (forget m).
Proof. intros Hm. unfold forget. looking. exact Hm. Qed.
Lemma forget_inv {A} (m : Prog A) (s s' : State) r : forget m s = (s', r) -> exists r0, m s = (s', r0).
Proof. unfold forget, bind, ret. destruct (m s) as [s1 [a|e]]; intros [= <- <-]; eauto. Qed.
Lemma looks_keeps {A} (m : Prog A) s s' r : looks m -> m s = (s', r) -> db s' = db s.
Proof. intros Hm E. destruct (Hm s) as [Hd _]. by rewrite E in Hd. Qed.

#[local] Hint Resolve looks_FindUserByEmail looks_FindUser looks_UserRoles looks_FindRole looks_FindSessionByRefreshHash
  looks_FindSessionByID looks_ListSessions looks_ListSessionsPage looks_ListUsersPage looks_FindServicePrincipal
  looks_ActiveServiceCredentials looks_FindResetToken looks_FindVerificationToken looks_clockNow
  looks_allowDimensions looks_Send looks_mapE looks_try looks_ret looks_fail looks_lift looks_now looks_port : looks.
Local Ltac solve_looks :=
  unfold NewOpaque, newIdentityID, Hash, Sign; solve [eauto with looks].
Lemma looks_IsSessionActive id : looks (IsSessionActive id).
Proof. unfold IsSessionActive. looking. solve_looks. Qed.
(** [look H s1 a Hm] walks over one read of the call in [H]: the call ended
    there, or [Hm] says what the read answered and the rows are the same. *)
Local Ltac same_rows :=
  repeat match goal with
  | E : db ?x = db ?y, F : context [db ?x] |- _ =>
      lazymatch F with E => fail | _ => idtac end; is_var x; rewrite E in F
  end.
Local Ltac look H s1 a Hm :=
  lazymatch type of H with
  | bind ?m ?k ?s = (?s', ?r) =>
      let Hl := fresh "Hl" in assert (looks m) as Hl by solve_looks;
      let Hd := fresh "Hd" in let Ht := fresh "Ht" in
      apply (looks_then m k s s' r Hl) in H as [H|(s1 & a & Hm & Hd & Ht & H)]; [left; congruence|]; clear Hl;
      same_rows
  end.
(** The call ends with its transaction. *)
Local Ltac finish H :=
  lazymatch type of H with
  | bind (WithTransaction _) _ _ = _ =>
      apply then_looks in H as (? & ? & H & ->); [|looking; solve_looks]
  | _ => idtac
  end.

Lemma createSession_by_transaction svc user roles cid action s s' r :
  fresh_ids s -> createSession svc user roles cid action s = (s', r) -> by_transaction (db s) (db s').
Proof.
  intros Hfresh Hc. unfold createSession in Hc. look Hc s1 now Hnow. look Hc s2 sid Hsid. look Hc s3 fid Hfid.
  look Hc s4 p Hop. destruct p as [refresh hash]. cbn beta iota in Hc. look Hc s5 access Hsign. finish Hc.
  replace (db s) with (db s5) by congruence.
  eapply (tx_unit (TxSession _ _ _ _ _)); [|exact Hc]. split; [|done]. cbn [se_FamilyID].
  apply port_ok in Hfid as [_ Hfid]. replace (db s5) with (db s) by congruence.
  eapply Hfresh; [|exact Hfid]. lia.
Qed.

Lemma fresh_ids_later s s1 : fresh_ids s -> db s1 = db s -> (tick s <= tick s1)%nat -> fresh_ids s1.
Proof. intros Hf Hd Ht n id Hn Hid. rewrite Hd. apply (Hf n); [lia | done]. Qed.

Lemma Login_by_transaction svc email password cid source s s' r :
  fresh_ids s -> Login svc email password cid source s = (s', r) -> by_transaction (db s) (db s').
Proof.
  intros Hfresh Hc. unfold Login in Hc. look Hc s1 u1 Hv. look Hc s2 u2 Hlim. look Hc s3 user Huser.
  destruct (_ || _ || _); [injection Hc as <- _; left; congruence|]. look Hc s4 rls Hroles.
  apply then_looks in Hc as (s5 & r5 & Hc & ->); [|looking].
  replace (db s) with (db s4) by congruence. eapply createSession_by_transaction; [|exact Hc].
  eapply fresh_ids_later; [exact Hfresh | congruence | lia].
Qed.

(** The session a refresh read, and its user. *)
Lemma found_session_known d k r : wf d -> sessions d !! k = Some r -> known_session d (mapSession r).
Proof. intros Hwf Hr. exists r. cbn. by rewrite (proj1 (wf_sessions d Hwf _ _ Hr)). Qed.
Lemma found_user_id d k r : wf d -> users d !! k = Some r -> ur_id r = k.
Proof. intros Hwf Hr. by destruct (user_row d k r Hwf Hr). Qed.

Lemma Refresh_by_transaction svc token cid source s s' r :
  wf (db s) -> Refresh svc token cid source s = (s', r) -> by_transaction (db s) (db s').
Proof.
  intros Hwf Hc. unfold Refresh in Hc. destruct (token =? "")%string; [injection Hc as <- _; by left|].
  look Hc s1 u1 Hlim. look Hc s2 se Hse. look Hc s3 now Hnow. look Hc s4 user Huser.
  apply mapE_ok, FindSessionByRefreshHash_found in Hse as (k & row & Hk & Hh & ->).
  apply mapE_ok, FindUser_found in Huser as (urow & Hu & ->). same_rows.
  pose proof (found_session_known _ _ _ Hwf Hk) as Hknown. destruct (_ || _).
  - apply then_looks in Hc as (s5 & r5 & Hc & ->); [|looking].
    unfold mapE in Hc. destruct (WithTransaction _ s4) as [s6 r6] eqn:Htx.
    assert (db s5 = db s6) as -> by (by destruct r6; injection Hc as <- _).
    replace (db s) with (db s4) by congruence.
    eapply (tx_unit (TxReuse _ _ _ _)); [|exact Htx]. cbn. by replace (db s4) with (db s) by congruence.
  - look Hc s5 rls Hroles. look Hc s6 p Hop. destruct p as [refresh hash]. cbn beta iota in Hc. look Hc s7 sid Hsid. look Hc s8 access Hsign. finish Hc.
    replace (db s) with (db s8) by congruence.
    eapply (tx_value (TxRefresh _ _ _ _ _ _)); [|reflexivity|exact Hc]. cbn.
    replace (db s8) with (db s) by congruence. repeat split; [done|]. by apply (found_user_id (db s)).
Qed.

(** The clock is read and the transaction runs. *)
Local Tactic Notation "at_once" ident(H) uconstr(t) :=
  let s1 := fresh "s1" in let now := fresh "now" in let Hnow := fresh "Hnow" in look H s1 now Hnow;
  match goal with |- by_transaction (db ?s) _ => replace (db s) with (db s1) by congruence end;
  eapply (tx_unit t); [done | exact H].

Lemma Register_by_transaction svc email password source cid s s' r :
  Register svc email password source cid s = (s', r) -> by_transaction (db s) (db s').
Proof.
  intros Hc. unfold Register in Hc. look Hc s1 u1 Hv. look Hc s2 u2 Hlim. look Hc s3 hash Hhash. look Hc s4 p Hop.
  destruct p as [token tokenHash]. cbn beta iota in Hc. look Hc s5 now Hnow. look Hc s6 uid Huid.
  look Hc s7 vid Hvid. finish Hc. replace (db s) with (db s7) by congruence.
  by eapply (tx_value (TxRegister _ _ _ _ _)).
Qed.
Lemma ChangeUserStatus_by_transaction target status actor cid s s' r :
  ChangeUserStatus target status actor cid s = (s', r) -> by_transaction (db s) (db s').
Proof.
  intros Hc. unfold ChangeUserStatus in Hc. destruct (_ && _); [injection Hc as <- _; by left|].
  at_once Hc (TxStatus target status actor cid _).
Qed.
Lemma AssignRole_by_transaction target actor role cid s s' r :
  AssignRole target actor role cid s = (s', r) -> by_transaction (db s) (db s').
Proof.
  intros Hc. unfold AssignRole in Hc. look Hc s0 u0 Hrole. at_once Hc (TxAssign target actor role cid _).
Qed.
Lemma requestPasswordReset_by_transaction svc email source cid s s' r :
  requestPasswordReset svc email source cid s = (s', r) -> by_transaction (db s) (db s').
Proof.
  intros Hc. unfold requestPasswordReset in Hc. look Hc s1 u1 Hv. look Hc s2 u2 Hlim. look Hc s3 found Hfound.
  destruct found as [user|e].
  - look Hc s4 p Hop. destruct p as [token hash]. cbn beta iota in Hc. look Hc s5 now Hnow. look Hc s6 tid Htid.
    finish Hc. replace (db s) with (db s6) by congruence. by eapply (tx_unit (TxRequestReset _ _ _ _ _ _)).
  - destruct (errors_Is e ErrNotFound); injection Hc as <- _; left; congruence.
Qed.
Lemma ConfirmPasswordReset_by_transaction token password cid s s' r :
  wf (db s) -> ConfirmPasswordReset token password cid s = (s', r) -> by_transaction (db s) (db s').
Proof.
  intros Hwf Hc. unfold ConfirmPasswordReset in Hc. destruct (bad_password_length _); [injection Hc as <- _; by left|].
  look Hc s1 reset Hreset. look Hc s2 seen Hseen. destruct (negb _); [injection Hc as <- _; left; congruence|].
  apply mapE_ok, FindResetToken_found in Hreset as (k & row & Hk & Hh & ->).
  look Hc s3 hash Hhash. look Hc s4 now Hnow. replace (db s) with (db s4) by congruence.
  eapply (tx_unit (TxReset _ _ _ _)); [|exact Hc]. cbn. replace (db s4) with (db s) by congruence.
  exists row. cbn. by rewrite (proj1 (wf_resets _ Hwf _ _ Hk)).
Qed.
Lemma ConfirmEmail_by_transaction token cid s s' r :
  wf (db s) -> ConfirmEmail token cid s = (s', r) -> by_transaction (db s) (db s').
Proof.
  intros Hwf Hc. unfold ConfirmEmail in Hc.
  look Hc s1 v Hver. look Hc s2 seen Hseen. destruct (negb _); [injection Hc as <- _; left; congruence|].
  apply mapE_ok, FindVerificationToken_found in Hver as (k & row & Hk & Hh & ->).
  look Hc s3 now Hnow. replace (db s) with (db s3) by congruence.
  eapply (tx_unit (TxEmail _ _ _)); [|exact Hc]. cbn. replace (db s3) with (db s) by congruence.
  exists row. cbn. by rewrite (proj1 (wf_verifications _ Hwf _ _ Hk)).
Qed.
Lemma serviceToken_by_transaction svc client secret requested source cid s s' r :
  serviceToken svc client secret requested source cid s = (s', r) -> by_transaction (db s) (db s').
Proof.
  intros Hc. unfold serviceToken in Hc. destruct (_ || _); [injection Hc as <- _; by left|].
  look Hc s1 u1 Hlim. look Hc s2 pr Hpr. destruct (negb _); [injection Hc as <- _; left; congruence|].
  look Hc s3 seen Hseen. look Hc s4 creds Hcreds. destruct (negb _); [injection Hc as <- _; left; congruence|].
  destruct (negb _); [injection Hc as <- _; left; congruence|]. look Hc s5 access Hsign. look Hc s6 now Hnow.
  finish Hc. replace (db s) with (db s6) by congruence. by eapply (tx_unit (TxMachine _ _ _ _)).
Qed.

Lemma serve_by_transaction svc c s s' r :
  wf (db s) -> fresh_ids s -> serve svc c s = (s', r) -> by_transaction (db s) (db s').
Proof.
  intros Hwf Hfresh. destruct c; cbn [serve]; try (intros [r0 Hc]%forget_inv); try intros Hc.
  - by eapply Register_by_transaction.
  - by eapply Login_by_transaction.
  - by eapply Refresh_by_transaction.
  - unfold Logout in Hc. at_once Hc (TxLogout userID sessionID correlation _).
  - unfold LogoutAll in Hc. at_once Hc (TxLogoutAll userID correlation _).
  - left. by eapply looks_keeps; [apply looks_ListSessions|].
  - left. by eapply looks_keeps; [apply looks_ListSessionsPage|].
  - left. by eapply looks_keeps; [apply looks_ListUsersPage|].
  - left. by eapply looks_keeps; [apply looks_IsSessionActive|].
  - left. eapply looks_keeps; [|exact Hc]. unfold GetUser. looking; solve_looks.
  - by eapply ChangeUserStatus_by_transaction.
  - by eapply AssignRole_by_transaction.
  - unfold RemoveRole in Hc. at_once Hc (TxRemove targetID actorID role correlation _).
  - by eapply requestPasswordReset_by_transaction.
  - by eapply ConfirmPasswordReset_by_transaction.
  - by eapply ConfirmEmail_by_transaction.
  - by eapply serviceToken_by_transaction.
Qed.
End Calls.

#[export] Hint Resolve looks_FindUserByEmail looks_FindUser looks_UserRoles looks_FindRole looks_FindSessionByRefreshHash
  looks_FindSessionByID looks_FindServicePrincipal looks_ActiveServiceCredentials looks_FindResetToken
  looks_FindVerificationToken looks_clockNow looks_allowDimensions looks_Send looks_mapE looks_try looks_ret looks_fail
  looks_lift looks_now looks_port : looks.
