(* ===== verification/IdentityTheorems.v ===== *)
(** * Identity: what the service guarantees

    The contract of token families under any interleaving of calls, the audit
    trail, and the guarantees of signing in, refreshing, revoking, resetting a
    password and issuing machine tokens. *)
From Stdlib Require Import ZArith Lia Ascii String.
From stdpp Require Import base gmap strings list relations pretty.
From S2P Require Import Prelude GoStrings GoErrors GoTime GoBase64 GoCrypto GoJson Tx.
From S2P Require Import IdentityDomain IdentityTables IdentityStore IdentityService IdentityFacts IdentityInvariant.
From S2P Require Import IdentityFamilies IdentityCalls.

Open Scope string_scope.
Open Scope Z_scope.
Open Scope go_scope.

(** [ok_step H s1 a Hm] walks over one read of a call that succeeded in [H]. *)
Ltac ok_step H s1 a Hm :=
  lazymatch type of H with
  | bind ?m ?k ?s = (_, Ok _) =>
      apply bind_ok in H as (s1 & a & Hm & H);
      let Hd := fresh "Hd" in
      assert (db s1 = db s) as Hd by
        (eapply looks_keeps; [|exact Hm]; unfold NewOpaque, newIdentityID, Hash, Sign; solve [eauto with looks]);
      repeat match goal with E : db s = db _ |- _ => rewrite E in Hd end
  end.

(** [later Hm] adds that the read of [Hm] went forward in events. *)
Ltac later Hm :=
  lazymatch type of Hm with
  | ?m ?s = (?s1, _) =>
      let Hl := fresh "Hlater" in
      assert (tick s <= tick s1)%nat as Hl by
        (let L := fresh in assert (looks m) as L by
           (unfold NewOpaque, newIdentityID, Hash, Sign; solve [eauto with looks]);
         pose proof (proj2 (L s)) as Hl; rewrite Hm in Hl; exact Hl)
  end.

Section Guarantees.
Context `{GoLib} `{Crypto} `{Env} `{Pg} `{IdPorts}.
Local Notation Prog := (M IdDB (list Mail)).
Local Notation State := (St IdDB (list Mail)).

(** ** Token families *)

Lemma dead_is_final st : rtc family_step Dead st -> st = Dead.
Proof. intros Hr. remember Dead as s0. induction Hr; [done|]. subst. by inversion H4. Qed.

(** C27: The sessions refine the contract of token families: from rows that are
    well formed, any interleaving of calls, with transactions one at a time that
    begin long after what they rely on was read, or fail, or lose their commit,
    keeps the
    rows well formed and at most one session of each family active, and takes
    every family along its contract; and a call on its own is such a run. *)
Theorem token_families_refine d0 :
  wf d0 -> families_ok d0 ->
  (forall d pending, rtc sys_step (d0, []) (d, pending) ->
     wf d /\ families_ok d /\ forall f, rtc family_step (family_state d0 f) (family_state d f)) /\
  (forall svc c s s' r, db s = d0 -> fresh_ids s -> serve svc c s = (s', r) ->
     rtc sys_step (d0, []) (db s', [])).
Proof.
  intros Hwf Hok. split.
  - intros d pending Hrun. destruct (sys_run_ok (d0, []) (d, pending)) as ((? & ? & _) & ?); try done.
    split; [done|]. split; [done|]. split; [|constructor]. by intros t ?%not_elem_of_nil.
  - intros svc c s s' r <- Hfresh Hc. destruct (serve_by_transaction svc c s s' r Hwf Hfresh Hc)
      as [->|(t & s1 & s2 & r2 & Hargs & Hd & Ht & <-)]; [done|].
    eapply rtc_l; [apply (decided _ [] t Hargs); set_solver|]. rewrite <- Hd.
    apply rtc_once. exact (ended s1 s2 r2 [] t [] Ht).
Qed.

(** ** The audit trail *)

Lemma change_trail t d d' i :
  change t d d' i -> security_audit d' = security_audit d /\ id_outbox d' = id_outbox d.
Proof.
  intros Hc. split; destruct Hc; cbn; other_tables security_audit; other_tables id_outbox; try reflexivity;
    cbn; other_tables security_audit; other_tables id_outbox; reflexivity.
Qed.

(** C30: Nothing happens off the record: a call leaves every row as it was, or
    adds exactly one row to the audit trail and one event to the outbox, in the
    transaction of the change they tell of, and the event's aggregate is that
    audit row. *)
Theorem every_change_is_audited svc c s s' r :
  wf (db s) -> fresh_ids s -> serve svc c s = (s', r) ->
  db s' = db s \/
  exists t d1 i auditID eventID,
    change t (db s) d1 i /\ db s' = trail i auditID eventID d1 /\
    security_audit (db s') = (security_audit (db s) ++ [audit_row i auditID])%list /\
    id_outbox (db s') = (id_outbox (db s) ++ [event_row i auditID eventID])%list /\
    e_aggregate_id (event_row i auditID eventID) = "aud_" +:+ ReplaceAllDash (au_id (audit_row i auditID)).
Proof.
  intros Hwf Hfresh Hc. destruct (serve_by_transaction svc c s s' r Hwf Hfresh Hc)
    as [->|(t & s1 & s2 & r2 & _ & Hd & Ht & <-)]; [by left|].
  apply WithTransaction_effect in Ht as [->|(s3 & u & Hp & ->)]; [by left|].
  apply tx_prog_effect in Hp as (d1 & i & a & e & Hch & ->). change (db (advance s1)) with (db s1) in Hch.
  rewrite Hd in Hch. destruct (change_trail _ _ _ _ Hch) as [Ea Ee].
  right. exists t, d1, i, a, e. cbn. by rewrite Ea, Ee.
Qed.

(** ** Events of a call *)

Lemma port_next {A} (f : nat -> result goerr A) (s s' : State) r : port f s = (s', r) -> s' = advance s.
Proof. by intros [= <- _]. Qed.
Lemma clockNow_next (s s' : State) r : clockNow s = (s', r) -> s' = advance s.
Proof. by intros [= <- _]. Qed.

Lemma looks_forward {A} (m : Prog A) : looks m -> forward m.
Proof. intros Hm s. apply Hm. Qed.
Lemma forward_query {A} (q : IdDB -> result goerr (IdDB * A)) : forward (query q : Prog A).
Proof. unfold query. goes_forward. Qed.
Lemma forward_port {A} (f : nat -> result goerr A) : forward (port f : Prog A).
Proof. intros s. cbn. lia. Qed.
Lemma forward_WithTransaction {A} (m : Prog A) : forward m -> forward (WithTransaction m).
Proof. intros Hm. unfold WithTransaction. goes_forward. Qed.
Hint Resolve forward_query forward_port : streamweave.
Lemma forward_recordAudit i : forward (recordAudit i).
Proof. unfold recordAudit, newIdentityID, tx_RecordAudit, tx_RecordOutbox. goes_forward. Qed.
Hint Resolve forward_recordAudit : streamweave.
Lemma forward_reuse_tx user session cid now : forward (reuse_tx user session cid now).
Proof. unfold reuse_tx, tx_RevokeSessionFamily. goes_forward. Qed.
Hint Resolve forward_reuse_tx : streamweave.
Lemma forward_Refresh_tx user session new hash cid now : forward (Refresh_tx user session new hash cid now).
Proof. unfold Refresh_tx, tx_LockActiveSession, tx_CreateSession, tx_RotateSession. goes_forward. Qed.
Lemma forward_createSession_tx session hash cid action now : forward (createSession_tx session hash cid action now).
Proof. unfold createSession_tx, tx_CreateSession. goes_forward. Qed.
Lemma forward_serviceToken_tx id client cid now : forward (serviceToken_tx id client cid now).
Proof. unfold serviceToken_tx, tx_MarkServicePrincipalUsed. goes_forward. Qed.
Hint Extern 2 (forward (WithTransaction _)) => apply forward_WithTransaction : streamweave.
Hint Resolve forward_Refresh_tx : streamweave.
Hint Extern 3 (forward _) =>
  apply looks_forward; unfold NewOpaque, newIdentityID, Sign; solve [eauto with looks] : streamweave.

(** ** Refreshing *)

(** A refresh token of the session may be used at a time: the session is active
    and not past its end, and its user may sign in. *)
Definition usable_at (d : IdDB) (row : SessionRow) (now : Time) : Prop :=
  s_status row = SessionActive /\ Before now (s_expires_at row) = true /\
  exists urow, users d !! s_user_id row = Some urow /\ ur_status urow = UserActive.
(** What a refresh that succeeds found and left: at the time it read, and has
    written to the rows, the token could be used; the session [k] is rotated and
    [k'] is new. *)
Definition rotated (s s' : State) (k : string) (row : SessionRow) (cred : Credentials) (user : User) : Prop :=
  exists urow now k' row',
    read_during s s' now /\ usable_at (db s) row now /\
    users (db s) !! s_user_id row = Some urow /\ user = mapUser urow /\
    sessions (db s) !! k' = None /\ s_status row' = SessionActive /\ s_family_id row' = s_family_id row /\
    s_user_id row' = s_user_id row /\ s_rotated_from_session_id row' = Some k /\
    s_expires_at row' = pg_time (Add now refreshTokenTTL) /\
    (exists m, tk_NewOpaque m 32 = Ok (RefreshToken cred, s_refresh_token_hash row')) /\
    sessions (db s') = <[k := IdQueries.rotated_row row k' now]> (<[k' := row']> (sessions (db s))).
Definition family_revoked (f : string) (d : IdDB) : Prop :=
  forall k r, sessions d !! k = Some r -> s_family_id r = f -> s_status r = SessionRevoked.

Lemma clockNow_ok (s s' : State) t : clockNow s = (s', Ok t) -> t = UTC (clock_at (tick s)).
Proof. intros (s1 & t0 & [-> ->]%timeNow_ok & [-> ->]%ret_ok)%bind_ok. done. Qed.

Lemma refresh_change u se new hash c now d d1 i :
  change (TxRefresh u se new hash c now) d d1 i -> in_Outcome i = "success" ->
  exists old row, sessions d !! se_ID se = Some old /\ s_status old = SessionActive /\
    sessions d !! se_ID new = None /\ s_status row = SessionActive /\ s_family_id row = se_FamilyID new /\
    s_user_id row = se_UserID new /\ s_rotated_from_session_id row = se_RotatedFromSessionID new /\
    s_refresh_token_hash row = hash /\ s_expires_at row = pg_time (se_ExpiresAt new) /\
    sessions d1 = <[se_ID se := IdQueries.rotated_row old (se_ID new) now]> (<[se_ID new := row]> (sessions d)).
Proof.
  intros Hch Hi. inversion Hch; subst; [|discriminate Hi]. clear Hch Hi.
  rename select (sessions d !! se_ID se = Some _) into Hold.
  rename select (IdQueries.CreateSession _ _ _ _ _ _ _ _ _ _ = _) into Hc.
  rename select (IdQueries.RotateSession _ _ _ _ = _) into Hrot.
  apply CreateSession_inv in Hc as (Hno & _ & -> & Hrow).
  assert (se_ID new <> se_ID se) as Hne by congruence.
  apply RotateSession_inv in Hrot as [(r0 & Hr0 & Ha0 & _ & ->)|(_ & [=] & _)]. cbn [set_sessions sessions] in *.
  rewrite lookup_insert_ne in Hr0 by done.
  rewrite Hold in Hr0. injection Hr0 as <-. do 2 eexists.
  repeat match goal with |- _ /\ _ => split end; [exact Hold | done | done | | | | | | | reflexivity]; by rewrite Hrow.
Qed.

Lemma Refresh_rotates svc token cid source s s' cred user rls k row :
  wf (db s) -> sessions (db s) !! k = Some row -> s_refresh_token_hash row = tk_HashOpaque token ->
  Refresh svc token cid source s = (s', Ok (cred, user, rls)) -> rotated s s' k row cred user.
Proof.
  intros Hwf Hk Hh Hc. unfold Refresh in Hc. destruct (token =? "")%string; [discriminate Hc|].
  ok_step Hc s1 u1 Hlim. later Hlim. ok_step Hc s2 se Hse. later Hse. ok_step Hc s3 now Hnow. ok_step Hc s4 u Huser. later Huser.
  pose proof (clockNow_next _ _ _ Hnow) as Hs3. apply (f_equal tick) in Hs3. cbn in Hs3.
  apply mapE_ok, FindSessionByRefreshHash_found in Hse as (k0 & row0 & Hk0 & Hh0 & ->).
  apply mapE_ok, FindUser_found in Huser as (urow & Hu & ->). apply clockNow_ok in Hnow.
  rewrite Hd in Hk0. rewrite Hd1 in Hu.
  assert (k0 = k) as -> by (eapply (wf_hashes _ Hwf); eauto; congruence). simplify_eq.
  destruct (_ || _) eqn:Husable in Hc.
  { apply bind_ok in Hc as (s5 & u5 & _ & Hc). discriminate Hc. }
  apply orb_false_iff in Husable as [Huse%negb_false_iff Hact%negb_false_iff].
  apply andb_true_iff in Huse as [Hst%String.eqb_eq Hexp]. apply String.eqb_eq in Hact.
  ok_step Hc s5 rls5 Hroles. later Hroles. ok_step Hc s6 p Hop. later Hop. destruct p as [refresh hash]. cbn beta iota in Hc.
  ok_step Hc s7 sid Hsid. later Hsid. ok_step Hc s8 access Hsign. later Hsign.
  apply bind_ok in Hc as (s9 & reuse & Hwt & Hc).
  pose proof (forward_run _ _ _ _ (forward_WithTransaction _ (forward_Refresh_tx _ _ _ _ _ _)) Hwt) as Hlast.
  apply WithTransaction_ok in Hwt as (s10 & Htx & Hd9).
  destruct reuse; [discriminate Hc|]. apply ret_ok in Hc as [-> [= -> -> ->]].
  apply Refresh_tx_effect in Htx as (d1 & i & a & e & Hd10 & Hch & Hi).
  change (db (advance s8)) with (db s8) in Hch. rewrite Hd6 in Hch.
  apply refresh_change in Hch as (old & row' & Hold & Ha & Hno & Hra & Hrf & Hru & Hrfrom & Hrh & Hrx & Hs); [|done].
  cbn [se_ID mapSession] in Hs. cbn in Hold, Hno, Hrf, Hru, Hrfrom, Hrx. rewrite (proj1 (wf_sessions _ Hwf _ _ Hk)) in *. simplify_eq.
  apply port_ok in Hop as [_ Hop].
  exists urow, (UTC (clock_at (tick s2))), sid, row'. repeat split; try done.
  - exists (tick s2). split; [lia | done].
  - eauto.
  - rewrite Hru. by apply (found_user_id (db s)).
  - eauto.
  - by rewrite Hd9, Hd10, <- Hs.
Qed.

Lemma revoke_family_all f now reason d k r :
  wf d -> sessions (IdQueries.revoke_where (fun r => (s_family_id r =? f)%string) now reason d) !! k = Some r ->
  s_family_id r = f -> s_status r = SessionRevoked.
Proof.
  intros Hwf (x & Hx & ->)%revoked_rows. case_match eqn:Hb; [done|]. intros Hf.
  rewrite Hf, String.eqb_refl in Hb. cbn in Hb. by apply negb_false_iff, String.eqb_eq in Hb.
Qed.
(** The errors of the steps before the decision are not that of a reuse. *)
Lemma bind_cases {A B} (m : Prog A) (k : A -> Prog B) s s' r :
  bind m k s = (s', r) ->
  (exists e, m s = (s', Err e) /\ r = Err e) \/ exists s1 a, m s = (s1, Ok a) /\ k a s1 = (s', r).
Proof. unfold bind. destruct (m s) as [s1 [a|e]]; intros Hb; [eauto 10|]. injection Hb as <- <-. eauto. Qed.
Lemma allow_errors svc key s s' e : allow svc key s = (s', Err e) -> e <> reuse_error.
Proof.
  unfold allow, port, allowed. destruct (svc_limiter svc); [discriminate| |];
    destruct (lim_reply _ _) as [[]|]; intros [= _ <-]; done.
Qed.
Lemma allowDimensions_errors svc kind account source s s' e :
  allowDimensions svc kind account source s = (s', Err e) -> e <> reuse_error.
Proof.
  assert (forall keys s s' e, for_each (allow svc) keys s = (s', Err e) -> e <> reuse_error) as Hkeys.
  { induction keys as [|key keys IH]; cbn; intros s0 s0' e0; [discriminate|].
    intros [(e1 & Ha%allow_errors & [= ->])|(s1 & [] & _ & Hr)]%bind_cases; eauto. }
  unfold allowDimensions. destruct (svc_limiter svc); [apply Hkeys..|].
  unfold port, allowed. destruct (lim_reply _ _) as [[]|]; intros [= _ <-]; done.
Qed.
Lemma credential_errors {A} (m : Prog A) s s' e : mapE credential_error m s = (s', Err e) -> e <> reuse_error.
Proof.
  unfold mapE, credential_error. destruct (m s) as [s1 [a|e0]]; [discriminate|].
  destruct (errors_Is e0 ErrNotFound); intros [= _ <-]; done.
Qed.

(** The family revoked because of the token, or the failure to do it. *)
Lemma reuse_refused {A} user se cid now (s s' : State) (r : result goerr A) d :
  wf d -> db s = d ->
  (let! _ := mapE (fun _ => ErrDependency) (WithTransaction (reuse_tx user se cid now)) in fail reuse_error) s = (s', r) ->
  exists e, r = Err e /\ (e <> reuse_error /\ db s' = d \/ family_revoked (se_FamilyID se) (db s')).
Proof.
  intros Hwf <- Hc.
  assert (exists u, WithTransaction (reuse_tx user se cid now) s = (s', u) /\
            r = Err (if u then reuse_error else ErrDependency)) as (u & Htx & ->).
  { unfold bind, mapE in Hc. destruct (WithTransaction _ s) as [s1 [[]|e]]; injection Hc as <- <-; by eexists. }
  eexists. split; [done|]. destruct (WithTransaction_effect _ _ _ _ Htx) as [Hd|(s1 & a & Hb & Hd)].
  - destruct u as [[]|e]; [|by left]. right. apply WithTransaction_ok in Htx as (s1 & Hb & Hd').
    apply reuse_tx_effect in Hb as (d1 & i & a & e & Hch & Hd1). rewrite Hd', Hd1. inversion Hch; subst.
    intros k r. by apply revoke_family_all.
  - right. apply reuse_tx_effect in Hb as (d1 & i & b & e & Hch & Hd1). rewrite Hd, Hd1. inversion Hch; subst.
    intros k r. by apply revoke_family_all.
Qed.

Lemma Refresh_refuses svc token cid source s s' r k row :
  wf (db s) -> sessions (db s) !! k = Some row -> s_refresh_token_hash row = tk_HashOpaque token ->
  (forall now, read_during s s' now -> ~ usable_at (db s) row now) -> Refresh svc token cid source s = (s', r) ->
  exists e, r = Err e /\ (e <> reuse_error /\ db s' = db s \/ family_revoked (s_family_id row) (db s')).
Proof.
  intros Hwf Hk Hh Hun Hc. unfold Refresh in Hc.
  destruct (token =? "")%string; [injection Hc as <- <-; eexists; split; [done | by left]|].
  apply bind_cases in Hc as [(e & He & ->)|(s1 & u1 & Hlim & Hc)].
  { exists e. split; [done|]. left. split; [by eapply allowDimensions_errors | eapply looks_keeps; [|exact He]; eauto with looks]. }
  apply looks_keeps in Hlim as Hd1; [|solve [eauto with looks]].
  apply bind_cases in Hc as [(e & He & ->)|(s2 & se & Hse & Hc)].
  { exists e. split; [done|]. left. split; [by eapply credential_errors|]. rewrite <- Hd1. eapply looks_keeps; [|exact He]; eauto with looks. }
  apply bind_cases in Hc as [(e & [=] & _)|(s3 & now & Hnow & Hc)]. later Hlim. later Hse.
  apply looks_keeps in Hse as Hd2; [|solve [eauto with looks]]. apply looks_keeps in Hnow as Hd3; [|solve [eauto with looks]].
  apply bind_cases in Hc as [(e & He & ->)|(s4 & u & Huser & Hc)].
  { exists e. split; [done|]. left. split; [by eapply credential_errors|]. rewrite <- Hd1, <- Hd2, <- Hd3.
    eapply looks_keeps; [|exact He]; eauto with looks. }
  later Huser. apply looks_keeps in Huser as Hd4; [|solve [eauto with looks]].
  pose proof (clockNow_next _ _ _ Hnow) as Hs3. apply (f_equal tick) in Hs3. cbn in Hs3.
  apply mapE_ok, FindSessionByRefreshHash_found in Hse as (k0 & row0 & Hk0 & Hh0 & ->).
  apply mapE_ok, FindUser_found in Huser as (urow & Hu & ->). apply clockNow_ok in Hnow.
  rewrite Hd1 in Hk0. rewrite Hd3, Hd2, Hd1 in Hu.
  assert (k0 = k) as -> by (eapply (wf_hashes _ Hwf); eauto; congruence). simplify_eq.
  assert (tick s4 <= tick s')%nat as Hend by (refine (forward_run _ _ _ _ _ Hc); goes_forward).
  assert (negb (Session_IsUsable (mapSession row) (UTC (clock_at (tick s2)))) ||
          negb (u_Status (mapUser urow) =? UserActive)%string = true) as Hdec.
  { destruct (_ || _) eqn:Hno; [done|]. destruct (Hun (UTC (clock_at (tick s2)))); [exists (tick s2); split; [lia | done]|].
    apply orb_false_iff in Hno as [[Hst%String.eqb_eq Hex]%negb_false_iff%andb_true_iff Hua%negb_false_iff%String.eqb_eq].
    by repeat (split || eexists). }
  rewrite Hdec in Hc. eapply (reuse_refused _ (mapSession row) _ _ s4); [exact Hwf | congruence | exact Hc].
Qed.


(** ** Signing in *)

(** The events of a sign-in: the clock at the start, then the identifiers and
    tokens, one event each. *)
Lemma createSession_ok svc user rls cid action s s' cred :
  createSession svc user rls cid action s = (s', Ok cred) ->
  exists sid row,
    sessions (db s) !! sid = None /\ sessions (db s') = <[sid := row]> (sessions (db s)) /\
    s_user_id row = u_ID user /\ s_status row = SessionActive /\ s_rotated_from_session_id row = None /\
    s_expires_at row = pg_time (Add (UTC (clock_at (tick s))) refreshTokenTTL) /\
    uuid_NewV7 (S (tick s)) = Ok sid /\
    tk_NewOpaque (3 + tick s) 32 = Ok (RefreshToken cred, s_refresh_token_hash row) /\
    tk_Sign (4 + tick s) (userRef (u_ID user)) (humanAudience svc) "human" sid (roleNames rls) (scopeNames rls)
      accessTokenTTL = Ok (AccessToken cred) /\
    (4 + tick s < tick s')%nat.
Proof.
  intros Hc. unfold createSession in Hc. ok_step Hc s1 now Hnow. ok_step Hc s2 sid Hsid. ok_step Hc s3 fid Hfid.
  ok_step Hc s4 p Hop. destruct p as [refresh hash]. cbn beta iota in Hc. ok_step Hc s5 access Hsign.
  pose proof (clockNow_next _ _ _ Hnow) as E1. pose proof (port_next _ _ _ _ Hsid) as E2.
  pose proof (port_next _ _ _ _ Hfid) as E3. pose proof (port_next _ _ _ _ Hop) as E4.
  pose proof (port_next _ _ _ _ Hsign) as E5. subst s1 s2 s3 s4 s5. apply clockNow_ok in Hnow. subst now.
  apply bind_ok in Hc as (s6 & u6 & Htx & [-> ->]%ret_ok).
  assert (5 + tick s <= tick s6)%nat as Hle
    by (eapply (forward_run _ _ _ _ (forward_WithTransaction _ (forward_createSession_tx _ _ _ _ _)) Htx)).
  apply WithTransaction_ok in Htx as (s7 & Htx & Hd6).
  apply (tx_prog_effect (TxSession _ _ _ _ _)) in Htx as (d1 & i & a & e & Hch & Hd7).
  cbn [db advance] in Hch. inversion Hch; subst.
  rename select (IdQueries.CreateSession _ _ _ _ _ _ _ _ _ _ = _) into Hcr.
  apply CreateSession_inv in Hcr as (Hno & _ & -> & Hrow).
  apply port_ok in Hop as [_ Hop], Hsign as [_ Hsign], Hsid as [_ Hsid].
  exists sid, row. rewrite Hd6, Hd7. subst row. by repeat split.
Qed.

(** Whom a sign-in that succeeds is for, and the session it goes on to create. *)
Lemma Login_ok svc email password cid source s s' cred user rls :
  wf (db s) -> Login svc email password cid source s = (s', Ok (cred, user, rls)) ->
  exists k urow pairs s1,
    users (db s) !! k = Some urow /\ ur_id urow = k /\ ur_email_normalized urow = NormalizeEmail email /\
    ur_status urow = UserActive /\ is_Some (ur_email_verified_at urow) /\
    pw_Verify password (ur_password_hash urow) = true /\ user = mapUser urow /\
    IdQueries.ListUserRoles k (db s) = Ok (db s, pairs) /\
    rls = map (fun p => mkRolePermission (fst p) (snd p)) pairs /\
    db s1 = db s /\ (tick s <= tick s1)%nat /\ createSession svc user rls cid "login.succeeded" s1 = (s', Ok cred).
Proof.
  intros Hwf Hc. unfold Login in Hc. ok_step Hc s1 u1 Hv. ok_step Hc s2 u2 Hlim. ok_step Hc s3 u Huser.
  later Hv. later Hlim. later Huser.
  destruct (_ || _ || _) eqn:Hok; [discriminate Hc|].
  apply orb_false_iff in Hok as [Hok Hpw%negb_false_iff].
  apply orb_false_iff in Hok as [Hst%negb_false_iff Hver%bool_decide_eq_false_1]. apply String.eqb_eq in Hst.
  apply mapE_ok, FindUserByEmail_found in Huser as (k & urow & Hk & He & ->). rewrite Hd0 in Hk.
  pose proof (found_user_id _ _ _ Hwf Hk) as Hid. ok_step Hc s4 rls4 Hroles. later Hroles.
  apply query_map_ok in Hroles as (pairs & Hp & Hrls). rewrite Hd1, Hd2 in Hp. cbn in Hp. rewrite Hid in Hp.
  apply bind_ok in Hc as (s5 & c5 & Hcs & [-> [= -> -> ->]]%ret_ok).
  exists k, urow, pairs, s4. repeat split; try done; [by apply not_eq_None_Some | lia].
Qed.

(** C33: Signing in takes the password: credentials are given only to an active
    user with a verified address whose stored hash verifies the password given;
    they open one new active session of that user, and the access token names
    the session and carries the user's own roles and scopes. *)
Theorem login_requires_the_password svc email password cid source s s' cred user rls :
  wf (db s) -> Login svc email password cid source s = (s', Ok (cred, user, rls)) ->
  exists k urow sid row n m pairs,
    users (db s) !! k = Some urow /\ ur_email_normalized urow = NormalizeEmail email /\
    ur_status urow = UserActive /\ is_Some (ur_email_verified_at urow) /\
    pw_Verify password (ur_password_hash urow) = true /\ user = mapUser urow /\
    IdQueries.ListUserRoles k (db s) = Ok (db s, pairs) /\
    rls = map (fun p => mkRolePermission (fst p) (snd p)) pairs /\
    sessions (db s) !! sid = None /\ sessions (db s') = <[sid := row]> (sessions (db s)) /\
    s_user_id row = k /\ s_status row = SessionActive /\ s_rotated_from_session_id row = None /\
    tk_NewOpaque m 32 = Ok (RefreshToken cred, s_refresh_token_hash row) /\
    tk_Sign n (userRef k) (humanAudience svc) "human" sid (roleNames rls) (scopeNames rls) accessTokenTTL
      = Ok (AccessToken cred).
Proof.
  intros Hwf Hc. apply Login_ok in Hc
    as (k & urow & pairs & s1 & Hk & Hid & He & Hst & Hver & Hpw & -> & Hp & Hrls & Hd & _ & Hcs); [|done].
  apply createSession_ok in Hcs as (sid & row & H1' & H2' & H3' & H4' & H5' & _ & _ & H6' & H7' & _).
  rewrite Hd in *. cbn in H3', H7'. rewrite Hid in *.
  exists k, urow, sid, row, (4 + tick s1)%nat, (3 + tick s1)%nat, pairs. by repeat split.
Qed.

(** ** Revoking *)

(** What the rows remember through any run. *)
Lemma sys_run_remembers c c' : rtc sys_step c c' -> remembers (fst c) (fst c').
Proof.
  induction 1 as [c|c1 c2 c3 Hs _ IH]; [done|]. etransitivity; [|exact IH].
  destruct Hs as [d pending t _ _|s s' r before t after Hr|d before t after]; cbn; try reflexivity.
  apply WithTransaction_effect in Hr as [->|(s1 & u & Hp & ->)]; [done|].
  apply tx_prog_effect in Hp as (d1 & i & a & e & Hc & ->).
  etransitivity; [by eapply change_remembers | apply trail_remembers].
Qed.
Lemma sys_run_wf c c' : rtc sys_step c c' -> wf (fst c) -> wf (fst c').
Proof.
  induction 1 as [c|c1 c2 c3 Hs _ IH]; [done|]. intros Hwf. apply IH.
  destruct Hs as [d pending t _ _|s s' r before t after Hr|d before t after]; cbn in *; try done.
  apply WithTransaction_effect in Hr as [->|(s1 & u & Hp & ->)]; [done|].
  apply tx_prog_effect in Hp as (d1 & i & a & e & Hc & ->). apply trail_wf. by eapply change_wf.
Qed.

(** The sessions a call is meant to end. *)
Definition revokes (c : call) (d : IdDB) (row : SessionRow) : Prop :=
  match c with
  | CLogout _ sid _ => s_id row = sid
  | CLogoutAll user _ => s_user_id row = user
  | CChangeUserStatus user status _ _ => status = UserDisabled /\ s_user_id row = user
  | CConfirmPasswordReset token _ _ =>
      exists k t, reset_tokens d !! k = Some t /\ t_token_hash t = tk_HashOpaque token /\ s_user_id row = t_user_id t
  | _ => False
  end.

Lemma revoke_where_hit hit at_ reason d k r :
  sessions d !! k = Some r -> hit r = true ->
  exists r', sessions (IdQueries.revoke_where hit at_ reason d) !! k = Some r' /\ s_status r' = SessionRevoked.
Proof.
  intros Hr Hh. eexists. split; [by apply revoked_rows; eauto|]. rewrite Hh. cbn.
  destruct (String.eqb_spec (s_status r) SessionRevoked); done.
Qed.
Lemma same_revoked d d' k :
  sessions d' = sessions d ->
  (exists r', sessions d !! k = Some r' /\ s_status r' = SessionRevoked) ->
  exists r', sessions d' !! k = Some r' /\ s_status r' = SessionRevoked.
Proof. by intros ->. Qed.

Lemma ConfirmPasswordReset_ok token password cid s s' :
  wf (db s) -> ConfirmPasswordReset token password cid s = (s', Ok tt) ->
  exists k row n m hash now d1 i a e,
    reset_tokens (db s) !! k = Some row /\ t_token_hash row = tk_HashOpaque token /\
    Token_IsUsable (mapToken row) (clock_at n) = true /\ bad_password_length password = false /\
    pw_Hash m password = Ok hash /\ change (TxReset (mapToken row) hash cid now) (db s) d1 i /\
    db s' = trail i a e d1.
Proof.
  intros Hwf Hc. unfold ConfirmPasswordReset in Hc. destruct (bad_password_length _) eqn:Hlen; [discriminate Hc|].
  ok_step Hc s1 reset Hreset. ok_step Hc s2 seen Hseen. destruct (negb _) eqn:Hus; [discriminate Hc|].
  apply negb_false_iff in Hus. apply mapE_ok, FindResetToken_found in Hreset as (k & row & Hk & Hh & ->).
  ok_step Hc s3 hash Hhash. ok_step Hc s4 now Hnow. apply timeNow_ok in Hseen as [_ ->].
  apply port_ok in Hhash as [_ Hhash]. apply WithTransaction_ok in Hc as (s5 & Htx & Hd5).
  apply (tx_prog_effect (TxReset _ _ _ _)) in Htx as (d1 & i & a & e & Hch & Hd6).
  change (db (advance s4)) with (db s4) in Hch. rewrite Hd2 in Hch.
  exists k, row, (tick s1), (tick s2), hash, now, d1, i, a, e. by rewrite Hd5.
Qed.

Lemma tx_once t (s s' : State) :
  WithTransaction (tx_prog t) s = (s', Ok tt) ->
  exists d1 i a e, change t (db s) d1 i /\ db s' = trail i a e d1.
Proof.
  intros (s1 & Hp & Hd)%WithTransaction_ok. apply tx_prog_effect in Hp as (d1 & i & a & e & Hc & Hd1).
  exists d1, i, a, e. split; [exact Hc | congruence].
Qed.

Lemma revocation_revokes svc c s s' k row :
  wf (db s) -> serve svc c s = (s', Ok tt) -> sessions (db s) !! k = Some row -> revokes c (db s) row ->
  exists r', sessions (db s') !! k = Some r' /\ s_status r' = SessionRevoked.
Proof.
  intros Hwf Hc Hk Hrev. destruct c; cbn [revokes] in Hrev; try done; cbn [serve] in Hc.
  - unfold Logout in Hc. ok_step Hc s1 now Hnow.
    apply (tx_once (TxLogout _ _ _ _)) in Hc as (d1 & i & a & e & Hch & ->). inversion Hch; subst.
    apply revoke_where_hit with (r := row); [by rewrite Hd | apply String.eqb_refl].
  - unfold LogoutAll in Hc. ok_step Hc s1 now Hnow.
    apply (tx_once (TxLogoutAll _ _ _)) in Hc as (d1 & i & a & e & Hch & ->). inversion Hch; subst.
    apply revoke_where_hit with (r := row); [by rewrite Hd | apply String.eqb_refl].
  - destruct Hrev as [-> <-]. unfold ChangeUserStatus in Hc. cbn -[bind] in Hc. ok_step Hc s1 now Hnow.
    apply (tx_once (TxStatus _ _ _ _ _)) in Hc as (d1 & i & a & e & Hch & ->). inversion Hch; subst; [|done].
    apply revoke_where_hit with (r := row); [|apply String.eqb_refl]. other_tables sessions. by rewrite Hd.
  - destruct Hrev as (k0 & t & Ht & Hh & Hu).
    apply ConfirmPasswordReset_ok in Hc as (k1 & t1 & n & m & hash & now & d1 & i & a & e & Ht1 & Hh1 & _ & _ & _ & Hch & ->);
      [|done].
    assert (k1 = k0) as -> by (eapply (wf_reset_hashes _ Hwf); eauto; congruence). simplify_eq.
    inversion Hch; subst. rename select (IdQueries.ConsumeResetToken _ _ _ = _) into Hcons.
    match type of Hcons with IdQueries.ConsumeResetToken _ _ ?d = _ =>
      apply (same_revoked d); [clear -Hcons; statement_inv Hcons; reflexivity|] end.
    apply revoke_where_hit with (r := row); [|by apply String.eqb_eq]. by other_tables sessions.
Qed.

(** C31: Revocation is immediate and final: once logging out, logging out
    everywhere, disabling the user or resetting the password has succeeded,
    none of the sessions it is meant to end is ever found active again, however
    many calls follow, their transactions one at a time. *)
Theorem revocations_are_final svc c s s' k row pending s2 pending2 s3 b :
  wf (db s) -> sessions (db s) !! k = Some row -> revokes c (db s) row -> serve svc c s = (s', Ok tt) ->
  rtc sys_step (db s', pending) (db s2, pending2) -> IsSessionActive k s2 = (s3, Ok b) -> b = false.
Proof.
  intros Hwf Hk Hrev Hc Hrun Hact.
  destruct (revocation_revokes svc c s s' k row Hwf Hc Hk Hrev) as (r' & Hr' & Hst).
  destruct (rem_sessions _ _ (sys_run_remembers _ _ Hrun) _ _ Hr') as (r2 & Hr2 & Hm).
  destruct Hm as (_ & _ & _ & _ & _ & Hrank). unfold IsSessionActive in Hact. ok_step Hact s4 se Hse.
  apply bind_ok in Hact as (s5 & now & _ & [-> ->]%ret_ok).
  apply FindSessionByID_found in Hse as (r3 & Hr3 & ->). cbn in Hr2. simplify_eq.
  apply andb_false_iff. left. apply String.eqb_neq. intros Ha. cbn in Ha. by rewrite Hst, Ha in Hrank.
Qed.

(** ** Resetting a password *)

Lemma reset_change reset hash c now d d1 i row :
  change (TxReset reset hash c now) d d1 i -> reset_tokens d !! ot_ID reset = Some row ->
  t_consumed_at row = None /\
  (exists row', reset_tokens d1 !! ot_ID reset = Some row' /\ is_Some (t_consumed_at row') /\
                t_token_hash row' = t_token_hash row) /\
  forall urow, users d !! ot_UserID reset = Some urow ->
    exists urow', users d1 !! ot_UserID reset = Some urow' /\ ur_password_hash urow' = hash.
Proof.
  intros Hch Hrow. inversion Hch; subst. rename select (IdQueries.ConsumeResetToken _ _ _ = _) into Hcons.
  rename select (IdQueries.UpdatePassword _ _ _ _ = _) into Hpw.
  assert (reset_tokens (IdQueries.revoke_where (fun r => (s_user_id r =? ot_UserID reset)%string) now "password_reset" d2)
          = reset_tokens d) as Er by (clear -Hpw; statement_inv Hpw; reflexivity).
  unfold IdQueries.ConsumeResetToken, IdQueries.consume_token in Hcons. rewrite Er, Hrow in Hcons.
  destruct (t_consumed_at row) eqn:Hcon; [discriminate Hcons|]. injection Hcons as <-. split; [done|]. split.
  - eexists. cbn [set_reset_tokens reset_tokens]. rewrite lookup_insert_eq. split; [done|]. split; [by eexists | done].
  - intros urow Hu. cbn. unfold IdQueries.UpdatePassword in Hpw. rewrite Hu in Hpw. injection Hpw as <-.
    eexists. cbn [set_users users]. rewrite lookup_insert_eq. done.
Qed.

(** A consumed token stays consumed and opens nothing. *)
Lemma consumed_token_opens_nothing d k row token pending (s2 : State) pending2 :
  wf d -> reset_tokens d !! k = Some row -> is_Some (t_consumed_at row) -> t_token_hash row = tk_HashOpaque token ->
  rtc sys_step (d, pending) (db s2, pending2) ->
  (forall password cid s3, ConfirmPasswordReset token password cid s2 <> (s3, Ok tt)) /\
  (forall t hash cid now s3, ot_ID t = k -> WithTransaction (ConfirmPasswordReset_tx t hash cid now) s2 <> (s3, Ok tt)).
Proof.
  intros Hwf Hk Hcon Hh Hrun. pose proof (sys_run_wf _ _ Hrun Hwf) as Hwf2. cbn in Hwf2.
  destruct (rem_resets _ _ (sys_run_remembers _ _ Hrun) k row Hk) as (row2 & Hr2 & (_ & _ & Eh & _ & Ec)).
  cbn in Hr2. rewrite <- (Ec Hcon) in Hcon. destruct Hcon as [t2 Ht2]. split.
  - intros password cid s3 Hc2. apply ConfirmPasswordReset_ok in Hc2
      as (k3 & row3 & n3 & m3 & hash3 & now3 & d3 & i3 & a3 & e3 & Hk3 & Hh3 & Hus3 & _); [|done].
    assert (k3 = k) as -> by (eapply (wf_reset_hashes _ Hwf2); eauto; congruence). simplify_eq.
    apply andb_true_iff in Hus3 as [Hn%bool_decide_eq_true_1 _]. cbn in Hn. congruence.
  - intros t hash cid now s3 Ht Hc2. apply (tx_once (TxReset _ _ _ _)) in Hc2 as (d3 & i3 & a3 & e3 & Hch3 & _).
    destruct (reset_change _ _ _ _ _ _ _ row2 Hch3) as (Hnone2 & _); [by rewrite Ht|]. congruence.
Qed.

(** A reset token works once: a password is reset only with an unconsumed,
    unexpired token and a password of 12 to 128 bytes, whose hash becomes the
    user's; after that no call with the same token succeeds, however many calls
    come between, and neither does a transaction of a call that had found the
    token usable before. *)
Theorem reset_token_works_once token password cid s s' :
  wf (db s) -> ConfirmPasswordReset token password cid s = (s', Ok tt) ->
  exists k row n m urow,
    reset_tokens (db s) !! k = Some row /\ t_token_hash row = tk_HashOpaque token /\
    t_consumed_at row = None /\ Before (clock_at n) (t_expires_at row) = true /\
    12 <= len password <= 128 /\
    users (db s') !! t_user_id row = Some urow /\ pw_Hash m password = Ok (ur_password_hash urow) /\
    forall pending (s2 : State) pending2, rtc sys_step (db s', pending) (db s2, pending2) ->
      (forall password2 cid2 s3, ConfirmPasswordReset token password2 cid2 s2 <> (s3, Ok tt)) /\
      (forall hash2 cid2 now2 s3,
         WithTransaction (ConfirmPasswordReset_tx (mapToken row) hash2 cid2 now2) s2 <> (s3, Ok tt)).
Proof.
  intros Hwf Hc. apply ConfirmPasswordReset_ok in Hc
    as (k & row & n & m & hash & now & d1 & i & a & e & Hk & Hh & Hus & Hlen & Hhash & Hch & Hd'); [|done].
  destruct (wf_resets _ Hwf _ _ Hk) as [Hid [urow0 Hu0]].
  destruct (reset_change _ _ _ _ _ _ _ row Hch) as (Hnone & (row' & Hrow' & Hcon & Hh') & Hpw);
    [by cbn; rewrite Hid|].
  destruct (Hpw urow0 Hu0) as (urow & Hu & Hhu). apply andb_true_iff in Hus as [_ Hexp].
  exists k, row, n, m, urow. unfold bad_password_length in Hlen.
  split; [done|]. split; [done|]. split; [done|]. split; [exact Hexp|]. split; [lia|].
  split; [by rewrite Hd'|]. split; [congruence|]. intros pending s2 pending2 Hrun.
  cbn in Hrow'. rewrite Hid in Hrow'.
  destruct (consumed_token_opens_nothing (db s') k row' token pending s2 pending2) as [Hno1 Hno2];
    [rewrite Hd'; by apply trail_wf, (change_wf _ _ _ _ Hch) | by rewrite Hd' | done | congruence | done |].
  split; [done|]. intros. by apply Hno2.
Qed.

(** ** Machine tokens *)

Lemma FindServicePrincipal_found client (s s' : State) p :
  FindServicePrincipal client s = (s', Ok p) ->
  exists k row scopes, service_principals (db s) !! k = Some row /\ pr_client_id row = client /\
    json_parse (jsonb_out (pr_scopes row)) ≫= dec_strings = Some scopes /\
    p = mkPrincipal (pr_id row) (pr_client_id row) (pr_status row) scopes (pr_audience row).
Proof.
  unfold FindServicePrincipal. intros (s1 & row & Hq%query_ok & Hp)%bind_ok.
  apply first_row_found in Hq as (Hc & k & Hk).
  destruct (json_parse _ ≫= dec_strings) as [scopes|] eqn:Hj; [|discriminate Hp].
  apply ret_ok in Hp as [-> ->]. eauto 10.
Qed.
Lemma ActiveServiceCredentials_found p now (s s' : State) l c :
  ActiveServiceCredentials p now s = (s', Ok l) -> c ∈ l ->
  exists row, row ∈ service_principal_credentials (db s) /\ cr_service_principal_id row = p /\
    cr_status row = "ACTIVE" /\ After (cr_valid_from row) (pg_time now) = false /\ cr_retired_at row = None /\
    sc_SecretHash c = cr_secret_hash row.
Proof.
  intros (rws & Hq & ->)%query_map_ok (row & -> & Hin)%list_elem_of_fmap. injection Hq as _ <-.
  rewrite order_by_Permutation in Hin. apply list_elem_of_filter in Hin as [(? & ? & ? & ?) ?]. eauto 10.
Qed.

(** What a machine token that was given rests on. *)
Lemma serviceToken_ok svc client secret requested source cid s s' mc :
  wf (db s) -> serviceToken svc client secret requested source cid s = (s', Ok mc) ->
  exists k p scopes cr n m,
    service_principals (db s) !! k = Some p /\ pr_client_id p = client /\ pr_status p = "ACTIVE" /\
    json_parse (jsonb_out (pr_scopes p)) ≫= dec_strings = Some scopes /\
    requested <> [] /\ (forall scope, scope ∈ requested -> scope ∈ scopes) /\
    cr ∈ service_principal_credentials (db s) /\ cr_service_principal_id cr = k /\ cr_status cr = "ACTIVE" /\
    After (cr_valid_from cr) (pg_time (clock_at n)) = false /\ cr_retired_at cr = None /\
    pw_Verify secret (cr_secret_hash cr) = true /\
    tk_Sign m ("svc_" +:+ client) (pr_audience p) "service" "" [] requested machineTokenTTL = Ok (MAccessToken mc) /\
    (exists p', service_principals (db s') !! k = Some p' /\ is_Some (pr_last_used_at p')) /\
    (tick s <= m < tick s')%nat /\ ExpiresIn mc = machineTokenTTL / Second.
Proof.
  intros Hwf Hc. unfold serviceToken in Hc. destruct (_ || _) eqn:Hin in Hc; [discriminate Hc|].
  apply orb_false_iff in Hin as [_ Hlen]. ok_step Hc s1 u1 Hlim. ok_step Hc s2 pr Hpr.
  later Hlim. later Hpr.
  apply mapE_ok, FindServicePrincipal_found in Hpr as (k & p & scopes & Hk & Hcl & Hsc & ->). rewrite Hd in Hk.
  pose proof (wf_principals _ Hwf _ _ Hk) as Hid. cbn in Hid. cbn -[bind WithTransaction] in Hc.
  destruct (String.eqb_spec (pr_status p) "ACTIVE") as [Hst|]; [cbn -[bind WithTransaction] in Hc|discriminate Hc].
  ok_step Hc s3 seen Hseen. ok_step Hc s4 creds Hcreds.
  later Hseen. later Hcreds. apply timeNow_ok in Hseen as [_ ->].
  destruct (negb _) eqn:Hval in Hc; [discriminate Hc|]. apply negb_false_iff, existsb_exists in Hval as (c & Hcin & Hver).
  destruct (negb _) eqn:Hreq in Hc; [discriminate Hc|]. apply negb_false_iff in Hreq.
  apply mapE_ok in Hcreds. apply list_elem_of_In in Hcin.
  destruct (ActiveServiceCredentials_found _ _ _ _ _ _ Hcreds Hcin) as (cr & Hcr & Hown & Hcst & Hfrom & Hret & Hhash).
  ok_step Hc s5 access Hsign. ok_step Hc s6 now Hnow. later Hnow. pose proof (port_next _ _ _ _ Hsign) as Hs5. apply port_ok in Hsign as [_ Hsign].
  apply bind_ok in Hc as (s7 & [] & Htx & [-> ->]%ret_ok).
  pose proof (forward_run _ _ _ _ (forward_WithTransaction _ (forward_serviceToken_tx _ _ _ _)) Htx) as Hle.
  apply (tx_once (TxMachine _ _ _ _)) in Htx as (d1 & i & a & e & Hch & Hd7).
  exists k, p, scopes, cr, (tick s2), (tick s4). rewrite Hd1 in Hcr. rewrite <- Hcl at 2.
  repeat match goal with |- _ /\ _ => split end; try done; try congruence.
  - by intros ->.
  - intros scope Hs. rewrite forallb_forall in Hreq. apply list_elem_of_In, Hreq, bool_decide_eq_true_1 in Hs. done.
  - rewrite Hd7. inversion Hch; subst. rename select (IdQueries.MarkServicePrincipalUsed _ _ _ = _) into Hm.
    unfold IdQueries.MarkServicePrincipalUsed in Hm. rewrite Hd4, Hk in Hm. injection Hm as <-.
    eexists. cbn [trail set_audit set_id_outbox set_principals service_principals]. rewrite lookup_insert_eq. eauto.
  - lia.
  - subst s5. cbn [tick advance] in *. lia.
Qed.
(** C35: A machine token stays within its principal's grant: it is signed only
    for an active principal with the client's name, on a secret that verifies
    against one of its active, unretired credentials already valid, for a
    non-empty list of scopes each of which the principal holds, for the
    principal's own audience; and the use is noted on the principal. *)
Theorem machine_tokens_stay_in_scope svc client secret requested source cid s s' mc :
  wf (db s) -> serviceToken svc client secret requested source cid s = (s', Ok mc) ->
  exists k p scopes cr n m,
    service_principals (db s) !! k = Some p /\ pr_client_id p = client /\ pr_status p = "ACTIVE" /\
    json_parse (jsonb_out (pr_scopes p)) ≫= dec_strings = Some scopes /\
    requested <> [] /\ (forall scope, scope ∈ requested -> scope ∈ scopes) /\
    cr ∈ service_principal_credentials (db s) /\ cr_service_principal_id cr = k /\ cr_status cr = "ACTIVE" /\
    After (cr_valid_from cr) (pg_time (clock_at n)) = false /\ cr_retired_at cr = None /\
    pw_Verify secret (cr_secret_hash cr) = true /\
    tk_Sign m ("svc_" +:+ client) (pr_audience p) "service" "" [] requested machineTokenTTL = Ok (MAccessToken mc) /\
    (exists p', service_principals (db s') !! k = Some p' /\ is_Some (pr_last_used_at p')).
Proof.
  intros Hwf Hc. destruct (serviceToken_ok _ _ _ _ _ _ _ _ _ Hwf Hc) as (k & p & sc & cr & n & m & Hs).
  exists k, p, sc, cr, n, m. tauto.
Qed.

(** ** Two corners of administration *)

(** Enabling a user who has not verified the address yet shuts the user out:
    nobody signs in under the address, and no verification token of the user
    can be confirmed, since confirming asks for the status the user lost. *)
Theorem enabling_shuts_out_the_unverified d k row :
  wf d -> users d !! k = Some row -> ur_status row = UserActive -> ur_email_verified_at row = None ->
  (forall svc email password cid source s s' a, db s = d -> NormalizeEmail email = ur_email_normalized row ->
     Login svc email password cid source s <> (s', Ok a)) /\
  (forall t cid now s s', db s = d -> ot_UserID t = k -> WithTransaction (ConfirmEmail_tx t cid now) s <> (s', Ok tt)).
Proof.
  intros Hwf Hk Hst Hver. split.
  - intros svc email password cid source s s' [[cred user] rls] <- He Hc.
    destruct (Login_ok _ _ _ _ _ _ _ _ _ _ Hwf Hc) as (k' & row' & pairs & s1 & Hk' & _ & He' & _ & Hv & _).
    assert (k' = k) as -> by (eapply (wf_emails _ Hwf); eauto; congruence). simplify_eq. rewrite Hver in Hv.
    by destruct Hv.
  - intros t cid now s s' <- Ht Hc. apply (tx_once (TxEmail _ _ _)) in Hc as (d1 & i & a & e & Hch & _).
    inversion Hch; subst. rename select (IdQueries.ConsumeVerificationToken _ _ _ = _) into Hcons.
    rename select (IdQueries.MarkEmailVerified _ _ _ = _) into Hm. unfold IdQueries.MarkEmailVerified in Hm.
    match type of Hcons with _ = Ok (?d2, _) =>
      assert (users d2 = users (db s)) as Eu by (clear -Hcons; statement_inv Hcons; reflexivity) end.
    rewrite Eu, Hk, Hst in Hm. injection Hm as _ <-. done.
Qed.
End Guarantees.
