(* ===== verification/IdentityWitnesses.v ===== *)
(** * Identity: the theorems at concrete inputs

    A small Identity for concrete runs: one verified user with a session, a
    reset token and the role of a customer, one machine, ports that count, and a
    server that answers.  Each lemma applies one of the theorems to it. *)
From Stdlib Require Import ZArith Lia Ascii String.
From stdpp Require Import base gmap strings list relations pretty.
From S2P Require Import Prelude GoStrings GoErrors GoTime GoBase64 GoCrypto GoJson Tx.
From S2P Require Import IdentityDomain IdentityTables IdentityStore IdentityService IdentityFacts IdentityInvariant.
From S2P Require Import IdentityFamilies IdentityCalls IdentityTheorems.

Open Scope string_scope.
Open Scope Z_scope.
Open Scope go_scope.

Definition noon : Time := mkTime (1000 * Hour) None.
Definition later (d : Z) : Time := Add noon d.

#[local] Existing Instance ascii_lib.
#[local] Existing Instance exact_pg.
#[local] Instance i_env : Env := calm_env noon.
#[local] Instance i_crypto : Crypto := toy_crypto.
#[local] Instance i_ports : IdPorts := {|
  pw_Hash := fun _ p => Ok ("hash:" +:+ p);
  pw_Verify := fun p h => (h =? "hash:" +:+ p)%string;
  tk_NewOpaque := fun n _ => Ok ("tok-" +:+ pretty (N.of_nat n), "#tok-" +:+ pretty (N.of_nat n));
  tk_HashOpaque := fun v => "#" +:+ v;
  tk_Sign := fun n subject audience kind sid roles scopes ttl => Ok ("jwt:" +:+ subject);
  lim_reply := fun _ _ => Ok true;
  mail_reply := fun _ => Ok tt;
  uuid_NewV7 := fun n => Ok ("id-" +:+ pretty (N.of_nat n));
  mail_ParseAddress := fun a => Some a;
  far_year_text := fun _ => ""
|}.

Definition ada_with (hash : string) : UserRow :=
  mkUserRow "user-1" "Ada@example.test" "ada@example.test" hash UserActive (Some noon) noon noon.
Definition open_session : SessionRow :=
  mkSessionRow "sess-1" "fam-1" "user-1" "#refresh-1" SessionActive (later (24 * Hour)) None None None None noon (Some noon)
    None None.
Definition reset_1 : TokenRow := mkTokenRow "reset-1" "user-1" "#reset-token" (later Hour) None noon.
Definition gateway_machine : PrincipalRow :=
  mkPrincipalRow "svc-1" "gateway" "ACTIVE" (JArr [jstr "orders:read"; jstr "orders:write"]) "orders" None.
Definition i_db_with (hash : string) : IdDB :=
  mkIdDB {["user-1" := ada_with hash]} {["role-1" := mkRoleRow "role-1" "customer" "ACTIVE"]} {["perm-1" := "orders:read:self"]}
    [("role-1", "perm-1")] {[("user-1", "role-1") := mkUserRoleRow noon None]} {["sess-1" := open_session]}
    {["reset-1" := reset_1]} ∅ {["svc-1" := gateway_machine]}
    [mkCredentialRow "cred-1" "svc-1" "hash:machine secret" "ACTIVE" noon None] [] [].
Definition i_db : IdDB := i_db_with "hash:correct horse battery".
Definition i_state : St IdDB (list Mail) := mkSt i_db [] 0.
Definition i_svc : Service := mkService ManyLimiter true "platform-api" "identity".

Lemma i_wf_with hash : wf (i_db_with hash).
Proof.
  constructor; cbn [i_db_with users roles service_principals sessions reset_tokens verification_tokens user_roles].
  - apply map_Forall_singleton. split; [done|]. cbn. set_solver.
  - by apply map_Forall_singleton.
  - by apply map_Forall_singleton.
  - apply map_Forall_singleton. split; [done|]. split; [by eexists|]. split; [cbn; set_solver|].
    split; [discriminate | by intros [? ?]].
  - apply map_Forall_singleton. split; [done | by eexists].
  - apply map_Forall_empty.
  - apply map_Forall_singleton. split; by eexists.
  - intros k1 k2 r1 r2 [<- _]%lookup_singleton_Some [<- _]%lookup_singleton_Some _. done.
  - intros k1 k2 r1 r2 [<- _]%lookup_singleton_Some [<- _]%lookup_singleton_Some _. done.
  - intros k1 k2 r1 r2 [<- _]%lookup_singleton_Some [<- _]%lookup_singleton_Some _. done.
  - intros k1 k2 r1 r2 E. discriminate E.
Qed.
Lemma i_wf : wf i_db.
Proof. apply i_wf_with. Qed.
Lemma i_families : families_ok i_db.
Proof.
  constructor; cbn [i_db i_db_with sessions].
  - intros k1 k2 r1 r2 [<- _]%lookup_singleton_Some [<- _]%lookup_singleton_Some. done.
  - intros k1 k2 r1 r2 [_ <-]%lookup_singleton_Some [_ <-]%lookup_singleton_Some. done.
  - apply map_Forall_singleton. intros E. discriminate E.
Qed.
Lemma i_fresh : fresh_ids i_state.
Proof.
  intros n id _ [= <-] k r. cbn [i_state i_db i_db_with db sessions]. intros [<- <-]%lookup_singleton_Some. discriminate.
Qed.

Lemma token_families_refine_witness :
  rtc sys_step (i_db, []) (db (fst (serve i_svc (CRefresh "refresh-1" "c" "") i_state)), []) /\
  family_state i_db "fam-1" = Live "sess-1" /\
  family_state (db (fst (serve i_svc (CRefresh "refresh-1" "c" "") i_state))) "fam-1" = Live "id-6".
Proof.
  split; [|vm_compute; split; reflexivity].
  apply (proj2 (token_families_refine i_db i_wf i_families) i_svc (CRefresh "refresh-1" "c" "") i_state _
           (snd (serve i_svc (CRefresh "refresh-1" "c" "") i_state))); [reflexivity | apply i_fresh |].
  apply surjective_pairing.
Defined.

(** [ran E] names the answer of a concrete call and keeps that it succeeded. *)
Lemma ran {A} (m : M IdDB (list Mail) A) s : is_ok (snd (m s)) = true -> exists s' a, m s = (s', Ok a).
Proof. destruct (m s) as [s' [a|e]]; [eauto | discriminate]. Qed.

Lemma every_change_is_audited_witness :
  let s' := fst (serve i_svc (CLogoutAll "user-1" "c") i_state) in
  (db s' = i_db \/
   exists t d1 i auditID eventID,
     change t i_db d1 i /\ db s' = trail i auditID eventID d1 /\
     security_audit (db s') = (security_audit i_db ++ [audit_row i auditID])%list /\
     id_outbox (db s') = (id_outbox i_db ++ [event_row i auditID eventID])%list /\
     e_aggregate_id (event_row i auditID eventID) = "aud_" +:+ ReplaceAllDash (au_id (audit_row i auditID))) /\
  map au_action (security_audit (db s')) = ["logout_all.succeeded"].
Proof.
  split; [|vm_compute; reflexivity].
  apply (every_change_is_audited i_svc (CLogoutAll "user-1" "c") i_state _
           (snd (serve i_svc (CLogoutAll "user-1" "c") i_state)) i_wf i_fresh).
  apply surjective_pairing.
Defined.

(** The same call a day after the session ended. *)
Definition late_refresh : St IdDB (list Mail) * result goerr (Credentials * User * list RolePermission) :=
  let _ : Env := calm_env (later (25 * Hour)) in Refresh i_svc "refresh-1" "c" "" i_state.


Lemma login_requires_the_password_witness :
  exists s' cred user rls k urow,
    Login i_svc "Ada@example.test" "correct horse battery" "c" "" i_state = (s', Ok (cred, user, rls)) /\
    users i_db !! k = Some urow /\ pw_Verify "correct horse battery" (ur_password_hash urow) = true.
Proof.
  destruct (ran (Login i_svc "Ada@example.test" "correct horse battery" "c" "") i_state)
    as (s' & [[cred user] rls] & E); [vm_compute; reflexivity|].
  destruct (login_requires_the_password i_svc _ _ _ _ i_state _ _ _ _ i_wf E)
    as (k & urow & sid & row & n & m & pairs & Hk & _ & _ & _ & Hv & _).
  exists s', cred, user, rls, k, urow. auto.
Defined.

Lemma revocations_are_final_witness :
  exists s3 b, IsSessionActive "sess-1" (fst (serve i_svc (CLogoutAll "user-1" "c") i_state)) = (s3, Ok b) /\ b = false.
Proof.
  destruct (ran (IsSessionActive "sess-1") (fst (serve i_svc (CLogoutAll "user-1" "c") i_state))) as (s3 & b & E);
    [vm_compute; reflexivity|].
  exists s3, b. split; [exact E|].
  destruct (ran (serve i_svc (CLogoutAll "user-1" "c")) i_state) as (s' & [] & Ec); [vm_compute; reflexivity|].
  rewrite Ec in E.
  exact (revocations_are_final i_svc (CLogoutAll "user-1" "c") i_state s' "sess-1" open_session [] s' [] s3 b
           i_wf eq_refl eq_refl Ec (rtc_refl _ _) E).
Defined.

Lemma reset_token_works_once_witness :
  exists s', ConfirmPasswordReset "reset-token" "a new passphrase" "c" i_state = (s', Ok tt) /\
    forall password cid s3, ConfirmPasswordReset "reset-token" password cid s' <> (s3, Ok tt).
Proof.
  destruct (ran (ConfirmPasswordReset "reset-token" "a new passphrase" "c") i_state) as (s' & [] & E);
    [vm_compute; reflexivity|].
  exists s'. split; [exact E|].
  destruct (reset_token_works_once _ _ _ i_state _ i_wf E) as (k & row & n & m & urow & _ & _ & _ & _ & _ & _ & _ & Hno).
  exact (proj1 (Hno [] s' [] (rtc_refl _ _))).
Defined.

Lemma machine_tokens_stay_in_scope_witness :
  exists s' mc k p,
    serviceToken i_svc "gateway" "machine secret" ["orders:read"] "" "c" i_state = (s', Ok mc) /\
    service_principals i_db !! k = Some p /\ pr_client_id p = "gateway" /\ pr_status p = "ACTIVE".
Proof.
  destruct (ran (serviceToken i_svc "gateway" "machine secret" ["orders:read"] "" "c") i_state) as (s' & mc & E);
    [vm_compute; reflexivity|].
  destruct (machine_tokens_stay_in_scope i_svc _ _ _ _ _ i_state _ _ i_wf E)
    as (k & p & scopes & cr & n & m & Hk & Hc & Hs & _).
  exists s', mc, k, p. auto.
Defined.

(** ** The last administrator *)

Definition admin_row (k status : string) : UserRow :=
  mkUserRow k (k +:+ "@example.test") (k +:+ "@example.test") "hash:x" status (Some noon) noon noon.
(** Two administrators, one of them disabled. *)
Definition admins_db : IdDB :=
  mkIdDB (<["root-1" := admin_row "root-1" UserActive]> {["root-2" := admin_row "root-2" UserDisabled]})
    {["role-a" := mkRoleRow "role-a" "admin" "ACTIVE"]} ∅ []
    (<[("root-1", "role-a") := mkUserRoleRow noon None]> {[("root-2", "role-a") := mkUserRoleRow noon None]})
    ∅ ∅ ∅ ∅ [] [] [].
Definition active_admins (d : IdDB) : list string :=
  omap (fun g => match users d !! fst g with
                 | Some u => if (ur_status u =? UserActive)%string && (ro_name (snd g) =? "admin")%string
                             then Some (fst g) else None
                 | None => None
                 end) (IdQueries.active_grants d).

(** The count that protects the last administrator counts disabled users too:
    the only active administrator is disabled, and nobody is left to undo it. *)
Theorem the_last_active_administrator_can_be_disabled :
  active_admins admins_db = ["root-1"] /\
  let '(s', r) := ChangeUserStatus "root-1" UserDisabled "root-1" "c" (mkSt admins_db [] 0%nat) in
  r = Ok tt /\ active_admins (db s') = [].
Proof. vm_compute. auto. Qed.
