(* ===== verification/IdentityOverlap.v ===== *)
(** * Identity: transactions that overlap

    The transactions of the service and of the relay's marks, interleaved
    statement by statement at READ COMMITTED ([ReadCommitted]).  A refresh token
    rotates once and a one-time token works once however calls overlap, and
    sessions only ever end.  Two things the code allows: a rotation under way
    outlives the revocation of all of a user's sessions, and the last two
    administrators can remove each other. *)
From Stdlib Require Import ZArith Lia Ascii String.
From stdpp Require Import base gmap strings list relations.
From S2P Require Import Prelude GoStrings GoErrors GoTime GoBase64 GoCrypto GoJson Tx Interleave ReadCommitted.
From S2P Require Import IdentityDomain IdentityTables IdentityStore IdentityService IdentityWitnesses.

Open Scope string_scope.
Open Scope Z_scope.
Open Scope go_scope.

(** ** The tables row by row *)

Inductive IdKey :=
| KUser (id : string)
| KGrant (grant : string * string)
| KSession (id : string)
| KReset (id : string)
| KVerification (id : string)
| KPrincipal (id : string)
| KAudit (id : string)
| KEvent (id : string).
Inductive IdRow :=
| AUser (r : UserRow)
| AGrant (r : UserRoleRow)
| ASession (r : SessionRow)
| AToken (r : TokenRow)
| APrincipal (r : PrincipalRow)
| AnAudit (r : AuditRow)
| AnEvent (r : EventRow).

#[export] Instance IdKey_eq : EqDecision IdKey.
Proof. solve_decision. Defined.
#[export, refine] Instance IdKey_countable : Countable IdKey := inj_countable'
  (fun k => match k with
            | KUser i => inl (inl (inl i)) | KGrant g => inl (inl (inr g)) | KSession i => inl (inr (inl i))
            | KReset i => inl (inr (inr i)) | KVerification i => inr (inl (inl i)) | KPrincipal i => inr (inl (inr i))
            | KAudit i => inr (inr (inl i)) | KEvent i => inr (inr (inr i))
            end)
  (fun c => match c with
            | inl (inl (inl i)) => KUser i | inl (inl (inr g)) => KGrant g | inl (inr (inl i)) => KSession i
            | inl (inr (inr i)) => KReset i | inr (inl (inl i)) => KVerification i | inr (inl (inr i)) => KPrincipal i
            | inr (inr (inl i)) => KAudit i | inr (inr (inr i)) => KEvent i
            end) _.
Proof. by intros []. Defined.
#[export] Instance UserRow_eq : EqDecision UserRow.
Proof. solve_decision. Defined.
#[export] Instance UserRoleRow_eq : EqDecision UserRoleRow.
Proof. solve_decision. Defined.
#[export] Instance SessionRow_eq : EqDecision SessionRow.
Proof. solve_decision. Defined.
#[export] Instance TokenRow_eq : EqDecision TokenRow.
Proof. solve_decision. Defined.
#[export] Instance PrincipalRow_eq : EqDecision PrincipalRow.
Proof. solve_decision. Defined.
#[export] Instance AuditRow_eq : EqDecision AuditRow.
Proof. solve_decision. Defined.
#[export] Instance EventRow_eq : EqDecision EventRow.
Proof. solve_decision. Defined.
#[export] Instance IdRow_eq : EqDecision IdRow.
Proof. solve_decision. Defined.

Definition id_row (d : IdDB) (k : IdKey) : option IdRow :=
  match k with
  | KUser i => AUser <$> users d !! i
  | KGrant g => AGrant <$> user_roles d !! g
  | KSession i => ASession <$> sessions d !! i
  | KReset i => AToken <$> reset_tokens d !! i
  | KVerification i => AToken <$> verification_tokens d !! i
  | KPrincipal i => APrincipal <$> service_principals d !! i
  | KAudit i => AnAudit <$> find_row au_id i (security_audit d)
  | KEvent i => AnEvent <$> find_row e_id i (id_outbox d)
  end.
Definition id_keys (d : IdDB) : gset IdKey :=
  list_to_set (map KUser (elements (dom (users d))) ++ map KGrant (elements (dom (user_roles d))) ++
    map KSession (elements (dom (sessions d))) ++ map KReset (elements (dom (reset_tokens d))) ++
    map KVerification (elements (dom (verification_tokens d))) ++
    map KPrincipal (elements (dom (service_principals d))) ++
    map (fun r => KAudit (au_id r)) (security_audit d) ++ map (fun r => KEvent (e_id r)) (id_outbox d)).
(** Roles, permissions and the credentials of machines are written by nobody. *)
Definition id_overlay (l : gset IdKey) (mine theirs : IdDB) : IdDB :=
  mkIdDB (overlay_map (fun i => KUser i ∈ l) (users mine) (users theirs)) (roles theirs) (permissions theirs)
    (role_permissions theirs) (overlay_map (fun g => KGrant g ∈ l) (user_roles mine) (user_roles theirs))
    (overlay_map (fun i => KSession i ∈ l) (sessions mine) (sessions theirs))
    (overlay_map (fun i => KReset i ∈ l) (reset_tokens mine) (reset_tokens theirs))
    (overlay_map (fun i => KVerification i ∈ l) (verification_tokens mine) (verification_tokens theirs))
    (overlay_map (fun i => KPrincipal i ∈ l) (service_principals mine) (service_principals theirs))
    (service_principal_credentials theirs)
    (overlay_list au_id (fun i => KAudit i ∈ l) (security_audit mine) (security_audit theirs))
    (overlay_list e_id (fun i => KEvent i ∈ l) (id_outbox mine) (id_outbox theirs)).

#[export] Instance IdRowDB : RowDB IdDB :=
  {| Key := IdKey; Row := IdRow; row_at := id_row; keys := id_keys;
     lasting := fun k => match k with KGrant _ => False | _ => True end; overlay := id_overlay |}.

Definition any_db (_ : IdDB) : Prop := True.
#[export] Instance IdRowLaws : RowLaws IdDB any_db.
Proof.
  split; [| |done].
  - intros d k Hk. cbn in *. unfold id_keys. rewrite elem_of_list_to_set, !elem_of_app.
    destruct k; cbn in Hk; apply fmap_is_Some in Hk;
      [left; by apply map_has_key | right; left; by apply map_has_key | do 2 right; left; by apply map_has_key |
       do 3 right; left; by apply map_has_key | do 4 right; left; by apply map_has_key |
       do 5 right; left; by apply map_has_key | do 6 right; left; by apply (list_has_key au_id KAudit) |
       do 7 right; by apply (list_has_key e_id KEvent)].
  - intros l mine theirs k _ _ Hk. destruct k; cbn in *; rewrite ?overlay_map_lookup; try by destruct (decide _).
    all: rewrite overlay_list_find by (intros Hl Hs; eapply fmap_is_Some, Hk; [done | done | by apply fmap_is_Some]);
      by destruct (decide _).
Qed.

(** ** How a row may evolve *)

(** A session goes from ACTIVE to ROTATED to REVOKED. *)
Definition stage (status : string) : Z :=
  if (status =? SessionActive)%string then 0 else if (status =? SessionRotated)%string then 1 else 2.
Record session_evolves (r r' : SessionRow) : Prop := {
  sv_id : s_id r' = s_id r;
  sv_family : s_family_id r' = s_family_id r;
  sv_user : s_user_id r' = s_user_id r;
  sv_hash : s_refresh_token_hash r' = s_refresh_token_hash r;
  sv_stage : stage (s_status r) <= stage (s_status r');
  sv_revoked : s_status r = SessionRevoked -> r' = r
}.
(** A one-time token is consumed once. *)
Definition token_evolves (r r' : TokenRow) : Prop :=
  t_id r' = t_id r /\ t_user_id r' = t_user_id r /\ t_token_hash r' = t_token_hash r /\
  t_expires_at r' = t_expires_at r /\ (t_consumed_at r <> None -> r' = r).
Definition id_row_evolves (a b : IdRow) : Prop :=
  match a, b with
  | ASession r, ASession r' => session_evolves r r'
  | AToken r, AToken r' => token_evolves r r'
  | AnAudit r, AnAudit r' => r' = r
  | AUser _, AUser _ | AGrant _, AGrant _ | APrincipal _, APrincipal _ | AnEvent _, AnEvent _ => True
  | _, _ => False
  end.
#[export] Instance session_evolves_preorder : PreOrder session_evolves.
Proof.
  split; [intros r; constructor; auto; lia|]. intros r1 r2 r3 [] []; constructor; try congruence; [lia|].
  intros Hr. specialize (sv_revoked0 Hr) as ->. auto.
Qed.
#[export] Instance token_evolves_preorder : PreOrder token_evolves.
Proof.
  split; [intros r; unfold token_evolves; auto|].
  intros r1 r2 r3 (? & ? & ? & ? & Hc) (? & ? & ? & ? & Hc'). unfold token_evolves. split_and!; try congruence.
  intros Hn. specialize (Hc Hn) as ->. auto.
Qed.
#[export] Instance id_row_evolves_preorder : PreOrder id_row_evolves.
Proof.
  split; [intros []; cbn; done || reflexivity|].
  intros [] [] []; cbn; try done; [apply transitivity | apply transitivity | congruence].
Qed.
Definition id_ev (k : IdKey) : relation (option IdRow) :=
  match k with KGrant _ => fun _ _ => True | _ => still id_row_evolves end.
#[export] Instance id_ev_preorder k : PreOrder (id_ev k).
Proof. destruct k; cbn; try apply _. by split. Qed.
Lemma id_ev_present k r o : lasting k -> id_ev k (Some r) o -> is_Some o.
Proof. intros Hl Hs. destruct k; try done; destruct (Hs r eq_refl) as (r' & -> & _); eauto. Qed.
Notation ids_evolve := (evolved id_ev).

(** ** What each query does to the rows *)

Section Queries.
Context `{Pg}.

Lemma ev_users d m : (forall i, is_Some (users d !! i) -> is_Some (m !! i)) -> ids_evolve d (set_users d m).
Proof.
  intros Hm [i|g|i|i|i|i|i|i]; try done; cbn; [|reflexivity..]. intros r Hr. apply fmap_Some in Hr as (u & Hu & ->).
  destruct (Hm i) as [u' Hu']; [eauto|]. rewrite Hu'. by exists (AUser u').
Qed.
Lemma ev_grants d m : ids_evolve d (set_user_roles d m).
Proof. intros []; done || reflexivity. Qed.
Lemma ev_principals d m :
  (forall i, is_Some (service_principals d !! i) -> is_Some (m !! i)) -> ids_evolve d (set_principals d m).
Proof.
  intros Hm [i|g|i|i|i|i|i|i]; try done; cbn; try reflexivity. intros r Hr. apply fmap_Some in Hr as (u & Hu & ->).
  destruct (Hm i) as [u' Hu']; [eauto|]. rewrite Hu'. by exists (APrincipal u').
Qed.
Lemma still_map {V} (E : relation V) (f : V -> IdRow) o o' :
  (forall a b, E a b -> id_row_evolves (f a) (f b)) -> still E o o' -> still id_row_evolves (f <$> o) (f <$> o').
Proof.
  intros Hf Hs r. destruct o as [a|]; [|done]. intros [= <-]. destruct (Hs a eq_refl) as (b & -> & Hb). exists (f b). auto.
Qed.
Lemma ev_sessions d m : map_evolves session_evolves (sessions d) m -> ids_evolve d (set_sessions d m).
Proof. intros Hm [i|g|i|i|i|i|i|i]; try done; cbn; try reflexivity. apply (still_map session_evolves); [done|]. intros r. apply Hm. Qed.
Lemma ev_reset d m : map_evolves token_evolves (reset_tokens d) m -> ids_evolve d (set_reset_tokens d m).
Proof. intros Hm [i|g|i|i|i|i|i|i]; try done; cbn; try reflexivity. apply (still_map token_evolves); [done|]. intros r. apply Hm. Qed.
Lemma ev_verification d m : map_evolves token_evolves (verification_tokens d) m -> ids_evolve d (set_verification_tokens d m).
Proof. intros Hm [i|g|i|i|i|i|i|i]; try done; cbn; try reflexivity. apply (still_map token_evolves); [done|]. intros r. apply Hm. Qed.
Lemma ev_audit d row : ids_evolve d (set_audit d (security_audit d ++ [row])%list).
Proof.
  intros [i|g|i|i|i|i|i|i]; try done; cbn; try reflexivity. apply (still_map (=)); [by intros ? ? ->|].
  intros r Hr. rewrite find_row_app, Hr. eauto.
Qed.
Lemma ev_outbox d l :
  (forall i, is_Some (find_row e_id i (id_outbox d)) -> is_Some (find_row e_id i l)) -> ids_evolve d (set_id_outbox d l).
Proof.
  intros Hl [i|g|i|i|i|i|i|i]; try done; cbn; try reflexivity. intros r Hr. apply fmap_Some in Hr as (e & He & ->).
  destruct (Hl i) as [e' He']; [eauto|]. rewrite He'. by exists (AnEvent e').
Qed.
Lemma insert_is_Some {K V} `{Countable K} (m : gmap K V) k v i : is_Some (m !! i) -> is_Some (<[k := v]> m !! i).
Proof. intros Hi. destruct (decide (k = i)) as [<-|]; [rewrite lookup_insert_eq; eauto | by rewrite lookup_insert_ne]. Qed.

Lemma rotated_evolves r replacement at_ : s_status r = SessionActive -> session_evolves r (IdQueries.rotated_row r replacement at_).
Proof. intros Hs. constructor; try done; rewrite Hs; [done | discriminate]. Qed.
Lemma revoked_evolves at_ reason r : s_status r <> SessionRevoked -> session_evolves r (IdQueries.revoked_row at_ reason r).
Proof. intros Hs. constructor; try done. cbn. unfold stage. repeat case_match; cbn; lia. Qed.

(** UPDATE sessions ... WHERE hit AND status <> 'REVOKED', with the rows picked
    from the snapshot [snap] and looked at again in [d]. *)
Definition revocable (hit : SessionRow -> bool) (r : SessionRow) : bool := hit r && negb (s_status r =? SessionRevoked)%string.
Definition revoke_seen (hit : SessionRow -> bool) (at_ : Time) (reason : string) (snap d : IdDB) : IdDB :=
  set_sessions d (map_imap (fun id r =>
    Some (if from_option (revocable hit) false (sessions snap !! id) && revocable hit r
          then IdQueries.revoked_row at_ reason r else r)) (sessions d)).
Lemma revoke_seen_own hit at_ reason d : revoke_seen hit at_ reason d d = IdQueries.revoke_where hit at_ reason d.
Proof.
  unfold revoke_seen, IdQueries.revoke_where. f_equal. apply map_eq. intros id. rewrite map_lookup_imap, lookup_fmap.
  destruct (sessions d !! id) as [r|]; [|done]. cbn. unfold revocable. by destruct (hit r), (s_status r =? SessionRevoked)%string.
Qed.
Lemma revoke_seen_evolves hit at_ reason snap d : ids_evolve d (revoke_seen hit at_ reason snap d).
Proof.
  apply ev_sessions. intros id r Hr. rewrite map_lookup_imap, Hr. cbn. eexists. split; [done|].
  destruct (_ && _) eqn:Hc; [|reflexivity]. apply andb_true_iff in Hc as [_ Hc].
  apply andb_true_iff in Hc as [_ Hc%negb_true_iff]. apply revoked_evolves. by apply String.eqb_neq in Hc.
Qed.
End Queries.

(** ** The statements of the service's programs *)

Section Statements.
Context `{GoLib} `{Crypto} `{Env} `{Pg} `{IdPorts}.
Notation Prog := (M IdDB (list Mail)).

#[export, refine] Instance Steps_port {A} (f : nat -> result goerr A) : Steps (port f) :=
  {| steps_of := Aside (fun l t => (l, S t, f t)) Done; steps_alone := _ |}.
Proof. done. Defined.
#[export] Instance Steps_query {A} (q : IdDB -> result goerr (IdDB * A)) :
  Steps (L := list Mail) (query q) | 5 := Steps_mapE mapDatabaseError (exec q) _.
(** The two updates of many rows. *)
#[refine] Definition revoking (hit : SessionRow -> bool) (at_ : Time) (reason : string)
    (q : IdDB -> result goerr (IdDB * unit)) (Hq : forall d, q d = Ok (IdQueries.revoke_where hit at_ reason d, tt))
  : Steps (L := list Mail) (exec q) :=
  {| steps_of := Snap (fun snap => Query (fun _ _ d => Ok (revoke_seen hit at_ reason snap d, tt)) Done); steps_alone := _ |}.
Proof.
  intros s. cbn. unfold exec, stmt. rewrite Hq, revoke_seen_own. by destruct (trip_at (tick s)).
Defined.
#[export] Instance Steps_revoke_family family at_ reason :
  Steps (L := list Mail) (tx_RevokeSessionFamily family at_ reason) :=
  Steps_mapE mapDatabaseError _
    (revoking (fun r => (s_family_id r =? family)%string) at_ reason (IdQueries.RevokeSessionFamily family at_ reason) (fun _ => eq_refl)).
#[export] Instance Steps_revoke_user user at_ reason :
  Steps (L := list Mail) (tx_RevokeUserSessions user at_ reason) :=
  Steps_mapE mapDatabaseError _
    (revoking (fun r => (s_user_id r =? user)%string) at_ reason (IdQueries.RevokeUserSessions user at_ reason) (fun _ => eq_refl)).

#[export] Instance Steps_tx_CreateUser u : Steps (L := list Mail) (tx_CreateUser u).
Proof. unfold tx_CreateUser. apply _. Defined.
#[export] Instance Steps_tx_CreateSession s h a p : Steps (L := list Mail) (tx_CreateSession s h a p).
Proof. unfold tx_CreateSession. apply _. Defined.
#[export] Instance Steps_tx_LockActiveSession id : Steps (L := list Mail) (tx_LockActiveSession id).
Proof. unfold tx_LockActiveSession. apply _. Defined.
#[export] Instance Steps_tx_RotateSession i r n : Steps (L := list Mail) (tx_RotateSession i r n) := Steps_query _.
#[export] Instance Steps_tx_RevokeSession i n re : Steps (L := list Mail) (tx_RevokeSession i n re) := Steps_query _.
#[export] Instance Steps_tx_UpdateUserStatus i st n : Steps (L := list Mail) (tx_UpdateUserStatus i st n) := Steps_query _.
#[export] Instance Steps_tx_UpdatePassword i h n : Steps (L := list Mail) (tx_UpdatePassword i h n) := Steps_query _.
#[export] Instance Steps_tx_AssignRole u r n b : Steps (L := list Mail) (tx_AssignRole u r n b) := Steps_query _.
#[export] Instance Steps_tx_RemoveRole u r : Steps (L := list Mail) (tx_RemoveRole u r) := Steps_query _.
#[export] Instance Steps_tx_HasActiveRole u r : Steps (L := list Mail) (tx_HasActiveRole u r) := Steps_query _.
#[export] Instance Steps_tx_CountActiveAdministrators : Steps (L := list Mail) tx_CountActiveAdministrators := Steps_query _.
#[export] Instance Steps_tx_CreateResetToken i u h e c : Steps (L := list Mail) (tx_CreateResetToken i u h e c) := Steps_query _.
#[export] Instance Steps_tx_ConsumeResetToken i n : Steps (L := list Mail) (tx_ConsumeResetToken i n) := Steps_query _.
#[export] Instance Steps_tx_CreateVerificationToken i u h e c : Steps (L := list Mail) (tx_CreateVerificationToken i u h e c) := Steps_query _.
#[export] Instance Steps_tx_ConsumeVerificationToken i n : Steps (L := list Mail) (tx_ConsumeVerificationToken i n) := Steps_query _.
#[export] Instance Steps_tx_MarkEmailVerified i n : Steps (L := list Mail) (tx_MarkEmailVerified i n) := Steps_query _.
#[export] Instance Steps_tx_MarkServicePrincipalUsed i n : Steps (L := list Mail) (tx_MarkServicePrincipalUsed i n) := Steps_query _.
#[export] Instance Steps_tx_RecordAudit r : Steps (L := list Mail) (tx_RecordAudit r) := Steps_query _.
#[export] Instance Steps_tx_RecordOutbox r : Steps (L := list Mail) (tx_RecordOutbox r) := Steps_query _.
#[export] Instance Steps_mark_published i t : Steps (L := list Mail) (Store_MarkOutboxPublished i t) := Steps_query _.
#[export] Instance Steps_mark_failed i re : Steps (L := list Mail) (Store_MarkOutboxFailed i re) := Steps_query _.

Ltac steps_in := apply _.
#[export] Instance Steps_recordAudit input : Steps (recordAudit input).
Proof. unfold recordAudit, newIdentityID. steps_in. Defined.
#[export] Instance Steps_Register_tx u i h c n : Steps (Register_tx u i h c n).
Proof. unfold Register_tx. steps_in. Defined.
#[export] Instance Steps_createSession_tx s h c a n : Steps (createSession_tx s h c a n).
Proof. unfold createSession_tx. steps_in. Defined.
#[export] Instance Steps_reuse_tx u s c n : Steps (reuse_tx u s c n).
Proof. unfold reuse_tx. steps_in. Defined.
#[export] Instance Steps_Refresh_tx u s w h c n : Steps (Refresh_tx u s w h c n).
Proof. unfold Refresh_tx. steps_in. Defined.
#[export] Instance Steps_Logout_tx u s c n : Steps (Logout_tx u s c n).
Proof. unfold Logout_tx. steps_in. Defined.
#[export] Instance Steps_LogoutAll_tx u c n : Steps (LogoutAll_tx u c n).
Proof. unfold LogoutAll_tx. steps_in. Defined.
#[export] Instance Steps_spare_admin t : Steps (spare_admin t).
Proof. unfold spare_admin. steps_in. Defined.
#[export] Instance Steps_ChangeUserStatus_tx t st a c n : Steps (ChangeUserStatus_tx t st a c n).
Proof. unfold ChangeUserStatus_tx. steps_in. Defined.
#[export] Instance Steps_AssignRole_tx t a r c n : Steps (AssignRole_tx t a r c n).
Proof. unfold AssignRole_tx. steps_in. Defined.
#[export] Instance Steps_RemoveRole_tx t a r c n : Steps (RemoveRole_tx t a r c n).
Proof. unfold RemoveRole_tx. steps_in. Defined.
#[export] Instance Steps_requestPasswordReset_tx u i h c e n : Steps (requestPasswordReset_tx u i h c e n).
Proof. unfold requestPasswordReset_tx. steps_in. Defined.
#[export] Instance Steps_ConfirmPasswordReset_tx r h c n : Steps (ConfirmPasswordReset_tx r h c n).
Proof. unfold ConfirmPasswordReset_tx. steps_in. Defined.
#[export] Instance Steps_ConfirmEmail_tx v c n : Steps (ConfirmEmail_tx v c n).
Proof. unfold ConfirmEmail_tx. steps_in. Defined.
#[export] Instance Steps_serviceToken_tx p i c n : Steps (serviceToken_tx p i c n).
Proof. unfold serviceToken_tx. steps_in. Defined.
End Statements.

(** ** What the programs do to the rows *)

Section Programs.
Context `{GoLib} `{Crypto} `{Env} `{Pg} `{IdPorts}.

Lemma added_token_row m d i u h e c m' : IdQueries.add_token m d i u h e c = Ok m' -> map_evolves token_evolves m m'.
Proof.
  unfold IdQueries.add_token. destruct (bool_decide (is_Some (m !! i)) || _) eqn:Hn; [done|].
  destruct (bool_decide (is_Some (users d !! u))); [|done]. intros [= <-].
  apply orb_false_iff in Hn as [Hn%bool_decide_eq_false _]. intros k r Hr. exists r. split; [|reflexivity].
  rewrite lookup_insert_ne; [done|]. intros ->. eauto.
Qed.
Lemma consumed_token_row m i t : map_evolves token_evolves m (fst (IdQueries.consume_token m i t)).
Proof.
  unfold IdQueries.consume_token. destruct (m !! i) as [r|] eqn:Hr; [|intros k v Hv; exists v; split; [done | reflexivity]].
  destruct (t_consumed_at r) eqn:Hc; [intros k v Hv; exists v; split; [done | reflexivity]|]. cbn. intros k v Hv.
  destruct (decide (i = k)) as [<-|]; [|rewrite lookup_insert_ne by done; exists v; split; [done | reflexivity]].
  rewrite lookup_insert_eq. simplify_eq. eexists. split; [done|]. by split_and!; try congruence.
Qed.

(** A query that only reads, or sets one table as the lemmas above allow. *)
Ltac evolves_one :=
  let d := fresh "d" in let d' := fresh "d" in let a := fresh "a" in let Hq := fresh "Hq" in
  intros d d' a Hq;
  unfold IdQueries.CreateUser, IdQueries.UpdateUserStatus, IdQueries.UpdatePassword, IdQueries.MarkEmailVerified,
    IdQueries.AssignRole, IdQueries.RemoveRole, IdQueries.HasActiveRole, IdQueries.CountActiveAdministrators,
    IdQueries.LockActiveSession, IdQueries.MarkServicePrincipalUsed, IdQueries.InsertSecurityAudit,
    IdQueries.InsertOutboxEvent in Hq;
  repeat (case_match; try done); try (injection Hq as <- _);
  first [ reflexivity
        | apply ev_users; intros; by apply insert_is_Some
        | apply ev_grants
        | apply ev_principals; intros; by apply insert_is_Some
        | apply ev_audit
        | apply ev_outbox; intros i [r Hr]; rewrite find_row_app, Hr; eauto ].

Lemma CreateSession_evolves i f u h e c a p r d d' row :
  IdQueries.CreateSession i f u h e c a p r d = Ok (d', row) -> ids_evolve d d'.
Proof.
  unfold IdQueries.CreateSession. destruct (bool_decide _) eqn:Hn; [done|]. repeat (case_match; try done).
  intros [= <- _]. apply ev_sessions. apply bool_decide_eq_false in Hn. intros k v Hv. exists v. split; [|reflexivity].
  rewrite lookup_insert_ne; [done|]. intros ->. eauto.
Qed.
Lemma RotateSession_evolves i r t d d' n : IdQueries.RotateSession i r t d = Ok (d', n) -> ids_evolve d d'.
Proof.
  unfold IdQueries.RotateSession. destruct (sessions d !! i) as [row|] eqn:Hr; [|intros [= <- _]; reflexivity].
  destruct (_ =? _)%string eqn:Hs; [|intros [= <- _]; reflexivity]. destruct (known _ _); [|done]. intros [= <- _].
  apply ev_sessions. intros k v Hv. destruct (decide (i = k)) as [<-|]; [|rewrite lookup_insert_ne by done; exists v; split; [done | reflexivity]].
  rewrite lookup_insert_eq. simplify_eq. eexists. split; [done|]. apply rotated_evolves. by apply String.eqb_eq.
Qed.
Lemma revoke_where_evolves hit t re d : ids_evolve d (IdQueries.revoke_where hit t re d).
Proof. rewrite <- revoke_seen_own. apply revoke_seen_evolves. Qed.
Lemma attempt_on_evolves i upd d d' u : (forall r, e_id (upd r) = e_id r) ->
  IdQueries.attempt_on i upd d = Ok (d', u) -> ids_evolve d d'.
Proof.
  intros Hu. unfold IdQueries.attempt_on. destruct (forallb _ _); [|done]. intros [= <- _]. apply ev_outbox. intros k.
  induction (id_outbox d) as [|r l IH]; [done|]. cbn [map]. rewrite !find_row_cons.
  assert (e_id (if (e_id r =? i)%string then upd r else r) = e_id r) as -> by (by destruct (_ =? _)%string).
  destruct (decide _); [eauto | apply IH].
Qed.

Notation evolve_ m := (relates (L := list Mail) ids_evolve m).
Lemma evolve_query {A} (q : IdDB -> result goerr (IdDB * A)) :
  (forall d d' a, q d = Ok (d', a) -> ids_evolve d d') -> evolve_ (query q).
Proof. intros Hq. by apply relates_mapE, relates_exec. Qed.
Lemma evolve_revoking hit t re q Hq : every ids_evolve (@steps_of _ _ _ _ _ _ (revoking hit t re q Hq)).
Proof. intros snap. split; [|by intros []]. intros _ _ d d' u [= <- _]. apply revoke_seen_evolves. Qed.
Lemma evolve_family f t re : evolve_ (tx_RevokeSessionFamily f t re).
Proof. apply every_then; [apply evolve_revoking | by intros []]. Qed.
Lemma evolve_user u t re : evolve_ (tx_RevokeUserSessions u t re).
Proof. apply every_then; [apply evolve_revoking | by intros []]. Qed.
Lemma evolve_port {A} (f : nat -> result goerr A) : evolve_ (port f).
Proof. by intros b. Qed.
Hint Resolve evolve_family evolve_user evolve_port : streamweave.

Ltac evolving :=
  repeat first
    [ progress intros
    | done
    | solve [eauto with streamweave]
    | apply relates_bind
    | apply relates_mapE
    | apply relates_try
    | apply evolve_query; evolves_one
    | apply relates_exec; evolves_one
    | apply relates_if
    | apply relates_option
    | match goal with |- relates _ (match ?x with _ => _ end) => destruct x eqn:? end ].

Lemma evolve_lock i : evolve_ (tx_LockActiveSession i).
Proof. unfold tx_LockActiveSession, Steps_tx_LockActiveSession. evolving. Qed.
Lemma evolve_create s h a p : evolve_ (tx_CreateSession s h a p).
Proof.
  unfold tx_CreateSession, Steps_tx_CreateSession. apply relates_bind; [|done]. apply evolve_query. intros d d' r.
  apply CreateSession_evolves.
Qed.
Lemma evolve_rotate i r t : evolve_ (tx_RotateSession i r t).
Proof. apply evolve_query. intros d d' n. apply RotateSession_evolves. Qed.
Lemma evolve_revoke i t re : evolve_ (tx_RevokeSession i t re).
Proof. apply evolve_query. intros d d' u [= <- _]. apply revoke_where_evolves. Qed.
Lemma evolve_audit input : evolve_ (recordAudit input).
Proof. unfold recordAudit, Steps_recordAudit, newIdentityID, tx_RecordAudit, tx_RecordOutbox. evolving. Qed.
Hint Resolve evolve_lock evolve_create evolve_rotate evolve_revoke evolve_audit : streamweave.

(** *** Rows that are spent once *)

(** A session that was rotated or revoked; a token that was consumed. *)
Definition spent (o : option IdRow) : Prop :=
  match o with
  | Some (ASession r) => s_status r <> SessionActive
  | Some (AToken r) => t_consumed_at r <> None
  | _ => False
  end.
Definition spendable (k : IdKey) : Prop := match k with KSession _ | KReset _ | KVerification _ => True | _ => False end.
Definition one_time (k : IdKey) : Prop := match k with KReset _ | KVerification _ => True | _ => False end.
Lemma spent_evolves k o o' : spendable k -> id_ev k o o' -> spent o -> spent o'.
Proof.
  intros Hk He Hs. assert (still id_row_evolves o o') as Hst by (by destruct k).
  destruct o as [[]|]; try done; destruct (Hst _ eq_refl) as ([] & -> & Hr); try done; cbn in *.
  - intros Ha. apply Hs. pose proof (sv_stage _ _ Hr) as Hst'. rewrite Ha in Hst'. unfold stage in Hst'.
    destruct (s_status r =? SessionActive)%string eqn:Hc; [by apply String.eqb_eq|].
    exfalso. destruct (s_status r =? SessionRotated)%string; cbn in Hst'; lia.
  - destruct Hr as (_ & _ & _ & _ & Hc). by rewrite (Hc Hs).
Qed.

Notation marks := (gmap IdKey (option IdRow)).
Notation keeps_ p d b Q := (keeps (L := list Mail) id_ev any_db (fun _ _ => True) p d b Q).
Notation safe_ m d b Q := (safe (L := list Mail) id_ev any_db (fun _ _ => True) m d b Q).

Lemma id_writes (b : marks) (d d' : IdDB) (k : IdKey) : b !! k = None ->
  writes b d d' !! k = if decide (id_row d k = id_row d' k) then None else Some (id_row d k).
Proof.
  intros Hb. transitivity (match b !! k with
                           | Some r => Some r
                           | None => if decide (id_row d k = id_row d' k) then None else Some (id_row d k)
                           end); [exact (writes_lookup any_db b d d' k) | by rewrite Hb].
Qed.

(** The transaction has spent this row, which it found unspent. *)
Definition spends (k : IdKey) (d : IdDB) (b : marks) : Prop :=
  exists o, b !! k = Some o /\ ~ spent o /\ spent (id_row d k).

Lemma any_safe {A} (m : M IdDB (list Mail) A) `{!Steps m} d b : evolve_ m -> safe_ m d b (fun _ d' _ => ids_evolve d d').
Proof.
  intros Hm. unfold safe. eapply keeps_mono; [|apply keeps_evolved; [apply _ | done | by apply keeps_every]].
  by intros r d' b' (_ & He & _) a _.
Qed.
Lemma unspent_kept {A} K k (m : M IdDB (list Mail) A) `{!Steps m} d b :
  K k -> evolve_ m -> relates (untouched K) m -> b !! k = None -> safe_ m d b (fun _ _ b' => b' !! k = None).
Proof.
  intros Hk He Hu Hb. eapply safe_mono; [|apply safe_spared; [apply _ | exact Hu | by apply any_safe]].
  intros a d' b' [_ Hs]. by rewrite Hs.
Qed.
Lemma spends_kept {A} K k (m : M IdDB (list Mail) A) `{!Steps m} d b :
  K k -> spendable k -> evolve_ m -> relates (untouched K) m -> spends k d b -> safe_ m d b (fun _ d' b' => spends k d' b').
Proof.
  intros Hk Hsp He Hu (o & Hb & Hno & Hs). eapply safe_mono; [|apply safe_spared; [apply _ | exact Hu | by apply any_safe]].
  intros a d' b' [Hev Hs']. exists o. rewrite Hs' by done. split_and!; [done | done|].
  eapply spent_evolves; [done | apply Hev | done].
Qed.
(** An update that spends a row. *)
Lemma spending_query k (q : IdDB -> result goerr (IdDB * Z)) d b :
  (forall d1 d2 n, q d1 = Ok (d2, n) -> ids_evolve d1 d2) ->
  (forall d1 d2, q d1 = Ok (d2, 1) -> ~ spent (id_row d1 k) /\ spent (id_row d2 k)) -> b !! k = None ->
  safe_ (query q) d b (fun n d' b' => n = 1 -> spends k d' b').
Proof.
  intros He Hq Hb. apply safe_mapE, safe_exec. intros d1 d2 n _ Hn. split_and!; [by eapply He | done|]. intros ->.
  destruct (Hq d1 d2 Hn) as [Hno Hs]. exists (id_row d1 k). split_and!; [|done|done].
  rewrite (id_writes _ _ _ _ Hb), decide_False; [done|]. intros Heq. by rewrite Heq in Hno.
Qed.
Lemma rotation_spends i r t d1 d2 : IdQueries.RotateSession i r t d1 = Ok (d2, 1) ->
  ~ spent (id_row d1 (KSession i)) /\ spent (id_row d2 (KSession i)).
Proof.
  unfold IdQueries.RotateSession. cbn [id_row]. destruct (sessions d1 !! i) as [row|] eqn:Hr; [|done].
  destruct (_ =? _)%string eqn:Hs; [|done]. destruct (known _ _); [|done]. intros [= <-]. cbn.
  rewrite lookup_insert_eq. cbn. apply String.eqb_eq in Hs. split; [auto | discriminate].
Qed.
Lemma consumption_spends (m : gmap string TokenRow) i t m' : IdQueries.consume_token m i t = (m', 1) ->
  ~ spent (AToken <$> m !! i) /\ spent (AToken <$> m' !! i).
Proof.
  unfold IdQueries.consume_token. destruct (m !! i) as [r|]; [|done]. destruct (t_consumed_at r) eqn:Hc; [done|].
  intros [= <-]. rewrite lookup_insert_eq. cbn. split; [by intros Hn | done].
Qed.

(** *** The spending transactions *)

(** Unfolds a query and reads off that it sets no sessions or tokens. *)
Ltac spares_one :=
  let d := fresh "d" in let d' := fresh "d" in let a := fresh "a" in let Hq := fresh "Hq" in
  let k := fresh "k" in let Hk := fresh "Hk" in
  intros d d' a Hq k Hk;
  unfold IdQueries.UpdatePassword, IdQueries.MarkEmailVerified, IdQueries.InsertSecurityAudit,
    IdQueries.InsertOutboxEvent in Hq;
  repeat (case_match; try done); try (injection Hq as <- _); by destruct k.
Notation spares_ K m := (relates (L := list Mail) (untouched K) m).
Lemma spare_query {A} K (q : IdDB -> result goerr (IdDB * A)) :
  (forall d d' a, q d = Ok (d', a) -> untouched K d d') -> spares_ K (query q).
Proof. intros Hq. by apply relates_mapE, relates_exec. Qed.
Lemma one_time_spendable k : one_time k -> spendable k.
Proof. by destruct k. Qed.

Lemma audit_spares input : spares_ spendable (recordAudit input).
Proof.
  unfold recordAudit, Steps_recordAudit, newIdentityID, tx_RecordAudit, tx_RecordOutbox.
  apply relates_bind; [done|]. intros a. apply relates_bind; [done|]. intros o.
  apply relates_bind; [|intros u]; apply spare_query; spares_one.
Qed.
Lemma password_spares i h n : spares_ spendable (tx_UpdatePassword i h n).
Proof. apply spare_query. spares_one. Qed.
Lemma verified_spares i n : spares_ spendable (tx_MarkEmailVerified i n).
Proof. apply spare_query. spares_one. Qed.
Lemma revoking_spares u t re : spares_ one_time (tx_RevokeUserSessions u t re).
Proof.
  apply every_then; [|by intros []]. intros snap. split; [|by intros []]. intros _ _ d d' x [= <- _] k Hk. by destruct k.
Qed.
Lemma evolve_password i h n : evolve_ (tx_UpdatePassword i h n).
Proof. unfold tx_UpdatePassword. evolving. Qed.
Lemma evolve_verified i n : evolve_ (tx_MarkEmailVerified i n).
Proof. unfold tx_MarkEmailVerified. evolving. Qed.
Hint Resolve evolve_password evolve_verified audit_spares password_spares verified_spares revoking_spares : streamweave.

(** A transaction commits what it answers. *)
Definition committing {A} (m : M IdDB (list Mail) A) : M IdDB (list Mail) (outcome A) := let! a := m in ret (CommitThen a).
#[export] Instance Steps_committing {A} (m : M IdDB (list Mail) A) : Steps m -> Steps (committing m).
Proof. intros Hm. unfold committing. apply _. Defined.
Lemma evolve_committing {A} (m : M IdDB (list Mail) A) `{!Steps m} : evolve_ m -> evolve_ (committing m).
Proof. intros Hm. apply relates_bind; [done | by intros a]. Qed.
Lemma safe_committing {A} (m : M IdDB (list Mail) A) `{!Steps m} d b (Q : A -> IdDB -> marks -> Prop) :
  safe_ m d b Q -> safe_ (committing m) d b (fun out d' b' => forall a, out = CommitThen a -> Q a d' b').
Proof.
  intros Hm. apply safe_bind. eapply safe_mono; [|exact Hm]. intros a d' b' HQ. apply safe_ret. by intros a' [= <-].
Qed.

Lemma audit_keeps k input d b : spendable k -> spends k d b -> safe_ (recordAudit input) d b (fun _ d' b' => spends k d' b').
Proof. intros Hk Hs. apply (spends_kept spendable); auto with streamweave. Qed.

Lemma reset_safe reset hash c now d :
  safe_ (ConfirmPasswordReset_tx reset hash c now) d ∅ (fun _ d' b' => spends (KReset (ot_ID reset)) d' b').
Proof.
  unfold ConfirmPasswordReset_tx, Steps_ConfirmPasswordReset_tx. set (k := KReset (ot_ID reset)).
  apply safe_bind. eapply safe_mono; [|apply (unspent_kept spendable k); auto with streamweave; done]. intros u1 d1 b1 Hb1.
  apply safe_bind. eapply safe_mono; [|apply (unspent_kept one_time k); auto with streamweave; done]. intros u2 d2 b2 Hb2.
  apply safe_bind. eapply safe_mono; [|apply (spending_query k); [| |done]].
  - intros n d3 b3 Hs. apply safe_if; intros Hn; [apply safe_fail|].
    apply audit_keeps; [done|]. apply Hs. by apply negb_false_iff, Z.eqb_eq in Hn.
  - intros e1 e2 n. unfold IdQueries.ConsumeResetToken. pose proof (consumed_token_row (reset_tokens e1) (ot_ID reset) now).
    destruct (IdQueries.consume_token _ _ _) as [m n']. intros [= <- _]. by apply ev_reset.
  - intros e1 e2. unfold IdQueries.ConsumeResetToken. destruct (IdQueries.consume_token _ _ _) as [m n'] eqn:Hc.
    intros [= <- ->]. by apply consumption_spends in Hc.
Qed.
Lemma email_safe v c now d :
  safe_ (ConfirmEmail_tx v c now) d ∅ (fun _ d' b' => spends (KVerification (ot_ID v)) d' b').
Proof.
  unfold ConfirmEmail_tx, Steps_ConfirmEmail_tx. set (k := KVerification (ot_ID v)).
  apply safe_bind. eapply safe_mono; [|apply (spending_query k); [| |done]].
  - intros n d1 b1 Hs. apply safe_if; intros Hn; [apply safe_fail|].
    assert (spends k d1 b1) as Hk by (apply Hs; by apply negb_false_iff, Z.eqb_eq in Hn).
    apply safe_bind. eapply safe_mono; [|apply (spends_kept spendable k); auto with streamweave; done]. intros m d2 b2 Hk2.
    apply safe_if; intros _; [apply safe_fail | by apply audit_keeps].
  - intros e1 e2 n. unfold IdQueries.ConsumeVerificationToken.
    pose proof (consumed_token_row (verification_tokens e1) (ot_ID v) now).
    destruct (IdQueries.consume_token _ _ _) as [m n']. intros [= <- _]. by apply ev_verification.
  - intros e1 e2. unfold IdQueries.ConsumeVerificationToken. destruct (IdQueries.consume_token _ _ _) as [m n'] eqn:Hc.
    intros [= <- ->]. by apply consumption_spends in Hc.
Qed.

(** The lock was given: the session is there. *)
Lemma lock_safe i d : safe_ (tx_LockActiveSession i) d ∅
  (fun r d' b' => b' !! KSession i = None /\ forall x, r = Ok x -> is_Some (sessions d' !! i)).
Proof.
  unfold tx_LockActiveSession, Steps_tx_LockActiveSession. apply safe_bind, safe_try.
  intros d1 busy now _ _ _ _. split; [by intros e; apply safe_ret|]. intros d2 x Hq.
  unfold IdQueries.LockActiveSession in Hq. destruct (sessions d1 !! i) as [r|] eqn:Hr; [|done].
  destruct (_ =? _)%string; [|done]. injection Hq as <- _.
  assert (writes ∅ d1 d1 !! KSession i = None) as Hw by (rewrite (id_writes ∅) by done; by apply decide_True).
  split_and!; [reflexivity | done | |]; [|intros e]; apply safe_ret; (split; [done|]); [by rewrite Hr | done].
Qed.
(** A new session is another row than one that is there. *)
Lemma create_unspent i w h a p d b : is_Some (sessions d !! i) -> b !! KSession i = None ->
  safe_ (tx_CreateSession w h a p) d b (fun _ _ b' => b' !! KSession i = None).
Proof.
  intros [r Hr] Hb. unfold tx_CreateSession, Steps_tx_CreateSession. apply safe_bind, safe_mapE, safe_exec.
  intros d1 d2 row (He & _) Hq. split_and!; [by eapply CreateSession_evolves | done|]. apply safe_ret.
  rewrite (id_writes _ _ _ _ Hb). apply decide_True. cbn. f_equal.
  destruct (He (KSession i) (ASession r)) as (row' & Hrow' & _); [cbn; by rewrite Hr|].
  unfold IdQueries.CreateSession in Hq. destruct (bool_decide (is_Some (sessions d1 !! se_ID w))) eqn:Hn; [done|].
  repeat (case_match; try done). injection Hq as <- _. cbn. rewrite lookup_insert_ne; [done|]. intros <-.
  apply bool_decide_eq_false in Hn. cbn in Hrow'. apply fmap_Some in Hrow' as (x & Hx & _). eauto.
Qed.
Lemma reuse_evolves u s c n : evolve_ (reuse_tx u s c n).
Proof. unfold reuse_tx, Steps_reuse_tx. evolving. Qed.
Lemma refresh_safe u s w h c now d :
  safe_ (Refresh_tx u s w h c now) d ∅ (fun reuse d' b' => reuse = false -> spends (KSession (se_ID s)) d' b').
Proof.
  unfold Refresh_tx, Steps_Refresh_tx. set (k := KSession (se_ID s)).
  assert (forall d1 b1, safe_ (let! _ := reuse_tx u s c now in ret true) d1 b1 (fun reuse d' b' => reuse = false -> spends k d' b')) as Hreuse.
  { intros d1 b1. apply safe_bind. eapply safe_mono; [|apply any_safe, reuse_evolves]. intros x d2 b2 _. by apply safe_ret. }
  apply safe_bind. eapply safe_mono; [|apply lock_safe]. intros lock d1 b1 [Hb1 Hl].
  apply safe_bind. apply safe_mono with (Q := fun locked d' b' => b' !! k = None /\ (locked = true -> is_Some (sessions d' !! se_ID s))).
  2:{ destruct lock as [x|e]; [by apply safe_ret; eauto|]. apply safe_if; intros _; [by apply safe_ret | apply safe_fail]. }
  intros locked d2 b2 [Hb2 Hl2]. apply safe_if; intros Hlock; [|apply Hreuse].
  apply safe_bind. eapply safe_mono; [|by apply create_unspent; [apply Hl2|]]. intros x d3 b3 Hb3.
  apply safe_bind. eapply safe_mono; [|apply (spending_query k); [| |exact Hb3]].
  - intros n d4 b4 Hs. apply safe_if; intros Hn; [apply Hreuse|].
    apply safe_bind. eapply safe_mono; [|apply (audit_keeps k); [done|]].
    + intros y d5 b5 Hs5. by apply safe_ret.
    + apply Hs. by apply negb_false_iff, Z.eqb_eq in Hn.
  - intros e1 e2 n. apply RotateSession_evolves.
  - intros e1 e2. apply rotation_spends.
Qed.

(** *** The other transactions *)

Lemma evolve_reset_token i u h e c : evolve_ (tx_CreateResetToken i u h e c).
Proof.
  apply evolve_query. intros d d' x. unfold IdQueries.CreateResetToken.
  destruct (IdQueries.add_token _ _ _ _ _ _ _) as [m|] eqn:Hm; [|done]. intros [= <- _].
  by eapply ev_reset, added_token_row.
Qed.
Lemma evolve_verification_token i u h e c : evolve_ (tx_CreateVerificationToken i u h e c).
Proof.
  apply evolve_query. intros d d' x. unfold IdQueries.CreateVerificationToken.
  destruct (IdQueries.add_token _ _ _ _ _ _ _) as [m|] eqn:Hm; [|done]. intros [= <- _].
  by eapply ev_verification, added_token_row.
Qed.
Hint Resolve evolve_reset_token evolve_verification_token : streamweave.
Lemma evolve_register u i h c n : evolve_ (Register_tx u i h c n).
Proof. unfold Register_tx, Steps_Register_tx, tx_CreateUser, Steps_tx_CreateUser, tx_AssignRole. evolving. Qed.
Lemma evolve_session s h c a n : evolve_ (createSession_tx s h c a n).
Proof. unfold createSession_tx, Steps_createSession_tx. evolving. Qed.
Lemma evolve_logout u s c n : evolve_ (Logout_tx u s c n).
Proof. unfold Logout_tx, Steps_Logout_tx. evolving. Qed.
Lemma evolve_logout_all u c n : evolve_ (LogoutAll_tx u c n).
Proof. unfold LogoutAll_tx, Steps_LogoutAll_tx. evolving. Qed.
Lemma evolve_spare t : evolve_ (spare_admin t).
Proof. unfold spare_admin, Steps_spare_admin, tx_HasActiveRole, tx_CountActiveAdministrators. evolving. Qed.
Hint Resolve evolve_spare : streamweave.
Lemma evolve_status t st a c n : evolve_ (ChangeUserStatus_tx t st a c n).
Proof. unfold ChangeUserStatus_tx, Steps_ChangeUserStatus_tx, tx_UpdateUserStatus. evolving. Qed.
Lemma evolve_assign t a r c n : evolve_ (AssignRole_tx t a r c n).
Proof. unfold AssignRole_tx, Steps_AssignRole_tx, tx_AssignRole. evolving. Qed.
Lemma evolve_remove t a r c n : evolve_ (RemoveRole_tx t a r c n).
Proof. unfold RemoveRole_tx, Steps_RemoveRole_tx, tx_RemoveRole. evolving. Qed.
Lemma evolve_request u i h c e n : evolve_ (requestPasswordReset_tx u i h c e n).
Proof. unfold requestPasswordReset_tx, Steps_requestPasswordReset_tx. evolving. Qed.
Lemma evolve_machine p i c n : evolve_ (serviceToken_tx p i c n).
Proof. unfold serviceToken_tx, Steps_serviceToken_tx, tx_MarkServicePrincipalUsed. evolving. Qed.
Lemma evolve_sent i t : evolve_ (Store_MarkOutboxPublished i t).
Proof. apply evolve_query. intros d d' u. by apply attempt_on_evolves. Qed.
Lemma evolve_unsent i re : evolve_ (Store_MarkOutboxFailed i re).
Proof. apply evolve_query. intros d d' u. by apply attempt_on_evolves. Qed.
End Programs.

(** ** The transactions of the service *)

Inductive id_job :=
| RegisterJob (user : User) (verificationID verificationHash correlation : string) (now : Time)
| SessionJob (session : Session) (refreshHash correlation action : string) (now : Time)
| ReuseJob (user : User) (session : Session) (correlation : string) (now : Time)
| RefreshJob (user : User) (session new : Session) (refreshHash correlation : string) (now : Time)
| LogoutJob (userID sessionID correlation : string) (now : Time)
| LogoutAllJob (userID correlation : string) (now : Time)
| StatusJob (targetID status actorID correlation : string) (now : Time)
| AssignJob (targetID actorID role correlation : string) (now : Time)
| RemoveJob (targetID actorID role correlation : string) (now : Time)
| RequestJob (userID tokenID hash correlation : string) (expires now : Time)
| ResetJob (reset : OneTimeToken) (hash correlation : string) (now : Time)
| EmailJob (verification : OneTimeToken) (correlation : string) (now : Time)
| MachineJob (principalID clientID correlation : string) (now : Time)
| SentJob (id : string) (at_ : Time)
| UnsentJob (id reason : string).
Definition id_answer (j : id_job) : Type :=
  match j with RegisterJob _ _ _ _ _ => User | RefreshJob _ _ _ _ _ _ => bool | _ => unit end.

Section Jobs.
Context `{GoLib} `{Crypto} `{Env} `{Pg} `{IdPorts}.

Definition id_body (j : id_job) : M IdDB (list Mail) (id_answer j) :=
  match j with
  | RegisterJob u i h c n => Register_tx u i h c n
  | SessionJob s h c a n => createSession_tx s h c a n
  | ReuseJob u s c n => reuse_tx u s c n
  | RefreshJob u s w h c n => Refresh_tx u s w h c n
  | LogoutJob u s c n => Logout_tx u s c n
  | LogoutAllJob u c n => LogoutAll_tx u c n
  | StatusJob t st a c n => ChangeUserStatus_tx t st a c n
  | AssignJob t a r c n => AssignRole_tx t a r c n
  | RemoveJob t a r c n => RemoveRole_tx t a r c n
  | RequestJob u i h c e n => requestPasswordReset_tx u i h c e n
  | ResetJob r h c n => ConfirmPasswordReset_tx r h c n
  | EmailJob v c n => ConfirmEmail_tx v c n
  | MachineJob p i c n => serviceToken_tx p i c n
  | SentJob i t => Store_MarkOutboxPublished i t
  | UnsentJob i re => Store_MarkOutboxFailed i re
  end.
(** [WithTransaction] of a body is the transaction of the job. *)
Lemma transaction_is_job j : WithTransaction (id_body j) = in_tx mapDatabaseError (committing (id_body j)).
Proof. done. Qed.

#[export] Instance Steps_id_body j : Steps (id_body j) :=
  match j with
  | RegisterJob u i h c n => Steps_Register_tx u i h c n
  | SessionJob s h c a n => Steps_createSession_tx s h c a n
  | ReuseJob u s c n => Steps_reuse_tx u s c n
  | RefreshJob u s w h c n => Steps_Refresh_tx u s w h c n
  | LogoutJob u s c n => Steps_Logout_tx u s c n
  | LogoutAllJob u c n => Steps_LogoutAll_tx u c n
  | StatusJob t st a c n => Steps_ChangeUserStatus_tx t st a c n
  | AssignJob t a r c n => Steps_AssignRole_tx t a r c n
  | RemoveJob t a r c n => Steps_RemoveRole_tx t a r c n
  | RequestJob u i h c e n => Steps_requestPasswordReset_tx u i h c e n
  | ResetJob r h c n => Steps_ConfirmPasswordReset_tx r h c n
  | EmailJob v c n => Steps_ConfirmEmail_tx v c n
  | MachineJob p i c n => Steps_serviceToken_tx p i c n
  | SentJob i t => Steps_mark_published i t
  | UnsentJob i re => Steps_mark_failed i re
  end.
Definition id_steps (j : id_job) : steps IdDB (list Mail) (outcome (id_answer j)) := steps_of (committing (id_body j)).
Definition id_step_at := tx_step id_answer mapDatabaseError id_steps.
(** Any number of calls at once. *)
Definition id_run := run (J := id_job) (Waits id_answer) id_step_at.
Definition Calls : Type := Sys (Server (DB := IdDB)) (place (DB := IdDB) (L := list Mail) id_answer).

(** What a committed end has spent. *)
Definition spends_by (j : id_job) : id_answer j -> option IdKey :=
  match j with
  | RefreshJob _ s _ _ _ _ => fun reuse => if reuse : bool then None else Some (KSession (se_ID s))
  | ResetJob t _ _ _ => fun _ => Some (KReset (ot_ID t))
  | EmailJob v _ _ => fun _ => Some (KVerification (ot_ID v))
  | _ => fun _ => None
  end.
Definition id_post (j : id_job) (r : result goerr (outcome (id_answer j))) (d : IdDB) (b : gmap IdKey (option IdRow)) : Prop :=
  forall a k, r = Ok (CommitThen a) -> spends_by j a = Some k -> spends k d b.

(** Jobs that spend nothing only have to make the rows evolve. *)
Lemma plain_keeps j d : (forall a, spends_by j a = None) -> relates (L := list Mail) ids_evolve (id_body j) ->
  keeps (L := list Mail) id_ev any_db (fun _ _ => True) (id_steps j) d ∅ (id_post j).
Proof.
  intros Hn He. eapply keeps_mono; [|apply keeps_every; [done | by apply evolve_committing]].
  intros r d' b' _ a k _. by rewrite Hn.
Qed.
Lemma spending_keeps j d k : (forall a k', spends_by j a = Some k' -> k' = k) ->
  safe (L := list Mail) id_ev any_db (fun _ _ => True) (id_body j) d ∅ (fun a d' b' => spends_by j a = Some k -> spends k d' b') ->
  keeps (L := list Mail) id_ev any_db (fun _ _ => True) (id_steps j) d ∅ (id_post j).
Proof.
  intros Hk Hs. eapply keeps_mono; [|exact (safe_committing _ _ _ _ Hs)].
  intros r d' b' Hr a k' Ha Hk'. specialize (Hk a k' Hk') as ->. exact (Hr _ Ha a eq_refl Hk').
Qed.
Lemma id_keeps j d : True -> any_db d -> keeps (L := list Mail) id_ev any_db (fun _ _ => True) (id_steps j) d ∅ (id_post j).
Proof.
  intros _ _. destruct j.
  4:{ apply (spending_keeps _ _ (KSession (se_ID session))); [by intros [] k' [= <-]|].
      cbn [id_body Steps_id_body id_answer]. eapply safe_mono; [|apply refresh_safe]. intros [] d' b' Hs; [done | auto]. }
  10:{ apply (spending_keeps _ _ (KReset (ot_ID reset))); [by intros a k' [= <-]|].
       cbn [id_body Steps_id_body id_answer]. eapply safe_mono; [|apply reset_safe]. by intros a d' b' Hs. }
  10:{ apply (spending_keeps _ _ (KVerification (ot_ID verification))); [by intros a k' [= <-]|].
       cbn [id_body Steps_id_body id_answer]. eapply safe_mono; [|apply email_safe]. by intros a d' b' Hs. }
  all: apply plain_keeps; [done|]; cbn [id_body Steps_id_body id_answer].
  - apply evolve_register.
  - apply evolve_session.
  - apply reuse_evolves.
  - apply evolve_logout.
  - apply evolve_logout_all.
  - apply evolve_status.
  - apply evolve_assign.
  - apply evolve_remove.
  - apply evolve_request.
  - apply evolve_machine.
  - apply evolve_sent.
  - apply evolve_unsent.
Qed.

Lemma all_admitted ls : Forall (admitted (J := id_job) (L := list Mail) (fun _ => True)) ls.
Proof. apply Forall_forall. by intros []. Qed.
Notation calls_ok := (sys_ok id_answer id_ev any_db (fun _ _ => True) id_post (fun _ => True)).
Lemma calls_history ls (s s' : Calls) : calls_ok s -> id_run ls s = Some s' ->
  calls_ok s' /\ ids_evolve (committed (shared s)) (committed (shared s')).
Proof.
  intros Hs. apply (run_history id_answer mapDatabaseError id_steps id_ev any_db (fun _ _ => True) id_ev_present
    id_post ltac:(done) (fun _ => True) id_keeps); [apply all_admitted | done].
Qed.

Lemma calls_started d n : calls_ok (start (mkServer d ∅ n) : Calls).
Proof. by apply start_ok. Qed.

(** The ends that give what the row allows once: new credentials for a session,
    a new password or a verified address for a token. *)
Definition uses (k : IdKey) (q : place (DB := IdDB) (L := list Mail) id_answer) : bool :=
  match q with
  | Ended _ j true r =>
      match j return result goerr (id_answer j) -> bool with
      | RefreshJob _ s _ _ _ _ => fun r =>
          bool_decide (KSession (se_ID s) = k) && match r with Ok reuse => negb reuse | Err _ => false end
      | ResetJob t _ _ _ => fun _ => bool_decide (KReset (ot_ID t) = k)
      | EmailJob v _ _ => fun _ => bool_decide (KVerification (ot_ID v) = k)
      | _ => fun _ => false
      end r
  | _ => false
  end.
Lemma uses_once k d n ls (s : Calls) : spendable k -> id_run ls (start (mkServer d ∅ n)) = Some s ->
  at_most_one id_answer (fun c => spent (id_row c k)) (fun q => uses k q = true) (spent (id_row d k)) s.
Proof.
  intros Hk. apply (once_started id_answer mapDatabaseError id_steps id_ev any_db (fun _ _ => True) id_ev_present
    id_post ltac:(done) (fun _ => True) id_keeps); try done; [| | |apply all_admitted].
  - intros c c' He. eapply spent_evolves; [done | apply He].
  - intros [| |j [] r]; try done. eauto.
  - intros c c' q Hpub Hu. destruct Hpub as [[_ Hn]|(j & a & r & view & before & -> & Hr & Hpost & Hpub)].
    { destruct q as [| |j [] r]; try done. by destruct (Hn j r). }
    assert (spends_by j a = Some k) as Hsp.
    { destruct j; try done; cbn in *; [|by apply bool_decide_eq_true in Hu as ->..].
      apply andb_true_iff in Hu as [<-%bool_decide_eq_true Hu]. destruct r as [reuse|]; [|done].
      rewrite <- (Hr reuse eq_refl). by destruct reuse. }
    destruct (Hpost a k eq_refl Hsp) as (o & Ho & Hno & Hs).
    destruct (published_row _ _ _ _ _ _ _ Hpub Ho) as [Hc Hc']. cbn in Hc, Hc'. by rewrite Hc, Hc'.
Qed.
End Jobs.

(** ** Properties *)

(** C29: however calls overlap, a refresh token gives new credentials once: of
    any number of rotations of one session under way at once at most one commits,
    none when the session was not ACTIVE before, and the session is then no
    longer ACTIVE. *)
Theorem overlapping_refreshes_rotate_once `{GoLib} `{Crypto} `{Env} `{Pg} `{IdPorts} d n ls (s : Calls) id :
  id_run ls (start (mkServer d ∅ n)) = Some s ->
  (forall i i' q q', threads s !! i = Some q -> threads s !! i' = Some q' ->
     uses (KSession id) q = true -> uses (KSession id) q' = true -> i = i') /\
  (forall i q, threads s !! i = Some q -> uses (KSession id) q = true ->
     (forall r, sessions d !! id = Some r -> s_status r = SessionActive) /\
     exists r, sessions (committed (shared s)) !! id = Some r /\ s_status r <> SessionActive).
Proof.
  intros Hrun. destruct (uses_once (KSession id) d n ls s I Hrun) as (_ & Hu & Hone). split; [exact Hone|].
  intros i q Hi Hq. destruct (Hu i q Hi Hq) as [Hno Hs]. cbn in Hno, Hs. split.
  - intros r Hr. rewrite Hr in Hno. cbn in Hno. destruct (decide (s_status r = SessionActive)); tauto.
  - destruct (sessions (committed (shared s)) !! id) as [r|]; [by exists r | done].
Qed.

(** C34: however calls overlap, a password reset token and a token for an address
    work once: of any number of uses under way at once at most one commits, none
    when the token was consumed before, and the token is consumed with it. *)
Theorem overlapping_tokens_work_once `{GoLib} `{Crypto} `{Env} `{Pg} `{IdPorts} d n ls (s : Calls) k :
  one_time k -> id_run ls (start (mkServer d ∅ n)) = Some s ->
  (forall i i' q q', threads s !! i = Some q -> threads s !! i' = Some q' -> uses k q = true -> uses k q' = true -> i = i') /\
  (forall i q, threads s !! i = Some q -> uses k q = true ->
     (forall r, id_row d k = Some (AToken r) -> t_consumed_at r = None) /\
     exists r, id_row (committed (shared s)) k = Some (AToken r) /\ t_consumed_at r <> None).
Proof.
  intros Hk Hrun. destruct (uses_once k d n ls s (one_time_spendable k Hk) Hrun) as (_ & Hu & Hone). split; [exact Hone|].
  intros i q Hi Hq. destruct (Hu i q Hi Hq) as [Hno Hs]. split.
  - intros r Hr. rewrite Hr in Hno. cbn in Hno. destruct (t_consumed_at r); [|done]. by destruct Hno.
  - destruct k as [| | |i'|i'| | |]; try done; cbn in Hs |- *;
      [destruct (reset_tokens _ !! i') as [r|] | destruct (verification_tokens _ !! i') as [r|]]; try done; by exists r.
Qed.

(** However calls overlap and fail, from any moment to any later one no
    session disappears or changes its family, its user or its refresh token; it
    goes from ACTIVE to ROTATED to REVOKED and never back, and once REVOKED it
    never changes. *)
Theorem overlapping_sessions_history `{GoLib} `{Crypto} `{Env} `{Pg} `{IdPorts} d n ls (s : Calls) ls' s' id r :
  id_run ls (start (mkServer d ∅ n)) = Some s -> id_run ls' s = Some s' ->
  sessions (committed (shared s)) !! id = Some r ->
  exists r', sessions (committed (shared s')) !! id = Some r' /\ session_evolves r r'.
Proof.
  intros Hr Hr' Hrow.
  destruct (calls_history ls _ _ (calls_started d n) Hr) as [Hs _].
  destruct (calls_history ls' _ _ Hs Hr') as [_ He].
  destruct (He (KSession id) (ASession r)) as ([] & Hrow' & Hev); [cbn; by rewrite Hrow| | |..]; try done.
  cbn in Hrow'. apply fmap_Some in Hrow' as (r' & Hr2 & [= ->]). eauto.
Qed.

(** ** Overlapping runs *)

#[local] Existing Instance ascii_lib.
#[local] Existing Instance exact_pg.
#[local] Existing Instance i_env.
#[local] Existing Instance i_crypto.
#[local] Existing Instance i_ports.

Notation schedule := (list (label (list Mail) id_job)).
Definition call_steps (i n : nat) : schedule := repeat (Run i []) n.
Definition calls_on (d : IdDB) : Calls := start (mkServer d ∅ 0%nat).
Definition calls_after (ls : schedule) (s : Calls) : Calls := default s (id_run ls s).
Lemma calls_ran ls s : bool_decide (is_Some (id_run ls s)) = true -> id_run ls s = Some (calls_after ls s).
Proof. unfold calls_after. by destruct (id_run ls s). Qed.
Definition ends (s : Calls) : list (option bool) :=
  map (fun q => match q with Ended _ _ commits _ => Some commits | _ => None end) (threads s).
Definition statuses (s : Calls) : list (string * string) :=
  map (fun e => (fst e, s_status (snd e))) (map_to_list (sessions (committed (shared s)))).

Definition next_session (id : string) : Session :=
  mkSession id "fam-1" "user-1" SessionActive (Some "sess-1") (later (24 * Hour)) None noon (Some noon).
Definition refresh_job (id hash : string) : id_job :=
  RefreshJob (mapUser (ada_with "hash:correct horse battery")) (mapSession open_session) (next_session id) hash "c" noon.
Definition logout_all_job : id_job := LogoutAllJob "user-1" "c" noon.
Definition reset_job (hash : string) : id_job := ResetJob (mapToken reset_1) hash "c" noon.

(** A rotation up to its update of the old session; the snapshot of the
    revocation; the rotation's commit; the rest of the revocation. *)
Definition rotation_and (j : id_job) (seen rest : nat) : schedule :=
  [Spawn (refresh_job "sess-2" "#refresh-2"); Spawn j] ++ call_steps 0 4 ++ call_steps 1 seen ++ call_steps 0 5 ++ call_steps 1 rest.

(** A rotation under way outlives the revocation of all of a user's sessions.
    At READ COMMITTED the UPDATE that revokes them waits for the session being
    rotated, and then does not look for the one that replaced it: signing out
    everywhere, or setting a new password, succeeds and leaves an ACTIVE session
    of the user.  One after the other, in either order, none is left. *)
Theorem a_rotation_outlives_the_revocation_of_all_sessions :
  (let s := calls_after (rotation_and logout_all_job 2 6) (calls_on i_db) in
   ends s = [Some true; Some true] /\ statuses s = [("sess-1", SessionRevoked); ("sess-2", SessionActive)]) /\
  (let s := calls_after (rotation_and (reset_job "hash:new") 3 7) (calls_on i_db) in
   ends s = [Some true; Some true] /\ statuses s = [("sess-1", SessionRevoked); ("sess-2", SessionActive)]) /\
  statuses (calls_after ([Spawn (refresh_job "sess-2" "#refresh-2"); Spawn logout_all_job] ++ call_steps 0 9 ++ call_steps 1 8)
              (calls_on i_db)) = [("sess-1", SessionRevoked); ("sess-2", SessionRevoked)] /\
  statuses (calls_after ([Spawn logout_all_job; Spawn (refresh_job "sess-2" "#refresh-2")] ++ call_steps 0 8 ++ call_steps 1 9)
              (calls_on i_db)) = [("sess-1", SessionRevoked)].
Proof. vm_compute. repeat split. Qed.

Definition two_admins_db : IdDB :=
  set_users admins_db (<["root-1" := admin_row "root-1" UserActive]> {["root-2" := admin_row "root-2" UserActive]}).
Definition removing_each_other : schedule :=
  [Spawn (RemoveJob "root-1" "root-2" "admin" "c" noon); Spawn (RemoveJob "root-2" "root-1" "admin" "c" noon)] ++
  call_steps 0 3 ++ call_steps 1 3 ++ call_steps 0 6 ++ call_steps 1 6.

(** The last two administrators can remove each other: both transactions count
    two of them before either removal is committed. *)
Theorem two_administrators_can_remove_each_other :
  length (active_admins two_admins_db) = 2%nat /\
  let s := calls_after removing_each_other (calls_on two_admins_db) in
  ends s = [Some true; Some true] /\ active_admins (committed (shared s)) = [].
Proof. vm_compute. repeat split. Qed.

(** ** Witnesses *)

(** One refresh token twice: the second rotation waits for the session, finds it
    rotated and revokes the family. *)
Definition refreshing : schedule :=
  [Spawn (refresh_job "sess-2" "#refresh-2"); Spawn (refresh_job "sess-3" "#refresh-3")] ++
  call_steps 0 4 ++ call_steps 1 3 ++ call_steps 0 5 ++ call_steps 1 8.
(** One reset token twice: the second reset waits for the user's row, then finds
    the token consumed and changes nothing. *)
Definition resetting : schedule :=
  [Spawn (reset_job "hash:new"); Spawn (reset_job "hash:other")] ++
  call_steps 0 5 ++ call_steps 1 1 ++ call_steps 0 5 ++ call_steps 1 5.
Definition refreshed : Calls := calls_after refreshing (calls_on i_db).
Definition resetted : Calls := calls_after resetting (calls_on i_db).
Definition signed_out : Calls := calls_after (rotation_and logout_all_job 2 6) (calls_on i_db).
Lemma refreshing_run : id_run refreshing (calls_on i_db) = Some refreshed.
Proof. apply calls_ran. vm_compute. reflexivity. Qed.
Lemma resetting_run : id_run resetting (calls_on i_db) = Some resetted.
Proof. apply calls_ran. vm_compute. reflexivity. Qed.
Lemma signing_out_run : id_run (rotation_and logout_all_job 2 6) (calls_on i_db) = Some signed_out.
Proof. apply calls_ran. vm_compute. reflexivity. Qed.
Example overlapping_calls :
  ends refreshed = [Some true; Some true] /\ ends resetted = [Some true; Some false] /\
  statuses refreshed = [("sess-3", SessionRevoked); ("sess-1", SessionRevoked); ("sess-2", SessionRevoked)].
Proof. vm_compute. repeat split. Qed.

Definition call_at (f : place (DB := IdDB) (L := list Mail) id_answer -> bool) (s : Calls) (i : nat) : bool :=
  match threads s !! i with Some q => f q | None => false end.
Lemma call_at_true f s i : call_at f s i = true -> exists q, threads s !! i = Some q /\ f q = true.
Proof. unfold call_at. destruct (threads s !! i) as [q|]; [by exists q | done]. Qed.

Lemma overlapping_refreshes_rotate_once_witness :
  exists r, sessions (committed (shared refreshed)) !! "sess-1" = Some r /\ s_status r <> SessionActive.
Proof.
  destruct (call_at_true (uses (KSession "sess-1")) refreshed 0) as (q & Hq & Hu); [vm_compute; reflexivity|].
  destruct (overlapping_refreshes_rotate_once i_db 0 refreshing refreshed "sess-1" refreshing_run) as [_ Hs].
  exact (proj2 (Hs _ _ Hq Hu)).
Defined.

Lemma overlapping_tokens_work_once_witness :
  exists r, id_row (committed (shared resetted)) (KReset "reset-1") = Some (AToken r) /\ t_consumed_at r <> None.
Proof.
  destruct (call_at_true (uses (KReset "reset-1")) resetted 0) as (q & Hq & Hu); [vm_compute; reflexivity|].
  destruct (overlapping_tokens_work_once i_db 0 resetting resetted (KReset "reset-1") I resetting_run) as [_ Hs].
  exact (proj2 (Hs _ _ Hq Hu)).
Defined.

Lemma overlapping_sessions_history_witness :
  exists r', sessions (committed (shared signed_out)) !! "sess-1" = Some r' /\ session_evolves open_session r'.
Proof.
  exact (overlapping_sessions_history i_db 0 [] (calls_on i_db) (rotation_and logout_all_job 2 6) signed_out "sess-1" open_session
    eq_refl signing_out_run eq_refl).
Defined.
