(* ===== verification/IdentityCrypto.v ===== *)
(** * Identity: passwords, opaque tokens and signing keys

    [apps/identity/internal/adapters/outbound/crypto]: the encoding of password
    hashes and its check, opaque tokens, the signer and the key set it
    publishes.  Argon2, the JWT library, the PEM and X.509 decoders and the file
    system are parameters. *)
From Stdlib Require Import ZArith Lia Ascii String.
From stdpp Require Import base gmap strings list pretty.
From S2P Require Import Prelude GoStrings GoErrors GoTime GoBase64 GoCrypto GoJson GoURL GoHttp.

Open Scope string_scope.
Open Scope Z_scope.
Open Scope go_scope.

(** ** base64.RawStdEncoding *)

Definition std_value (c : ascii) : option Z :=
  if (c =? "+")%char then Some 62 else if (c =? "/")%char then Some 63
  else if (c =? "-")%char || (c =? "_")%char then None else url_value c.
Definition RawStdEncode (s : string) : string := of_bytes (map std_char (sextets (bytes s))).
Definition RawStdDecode (s : string) : option string :=
  vs ← mapM std_value (List.filter not_break (bytes s));
  out ← unsextets vs;
  Some (of_bytes out).

Definition in_std_alphabet (n : Z) : bool :=
  match std_value (std_char n) with Some m => m =? n | None => false end
  && not_break (std_char n) && negb (std_char n =? "$")%char.
Lemma in_std_alphabet_all n : 0 <= n < 64 -> in_std_alphabet n = true.
Proof.
  intros Hn.
  assert (forallb in_std_alphabet (map Z.of_nat (seq 0 64)) = true) as Ha by (vm_compute; reflexivity).
  rewrite forallb_forall in Ha. apply Ha, in_map_iff.
  exists (Z.to_nat n). rewrite Z2Nat.id by lia. split; [done|]. apply in_seq. lia.
Qed.
Lemma std_chars_value l :
  Forall (fun n => 0 <= n < 64) l -> mapM std_value (List.filter not_break (map std_char l)) = Some l.
Proof.
  induction 1 as [|n l Hn Hl IH]; [done|]. cbn [map List.filter].
  pose proof (in_std_alphabet_all n Hn) as Ha. unfold in_std_alphabet in Ha.
  rewrite !andb_true_iff in Ha. destruct Ha as [[Hv ->] _]. cbn.
  destruct (std_value (std_char n)) as [m|]; [|done]. apply Z.eqb_eq in Hv as ->. cbn. by rewrite IH.
Qed.
Lemma RawStd_roundtrip s : RawStdDecode (RawStdEncode s) = Some s.
Proof.
  unfold RawStdDecode, RawStdEncode. rewrite bytes_of_bytes, std_chars_value by apply sextets_range. cbn.
  rewrite unsextets_sextets. cbn. by rewrite of_bytes_bytes.
Qed.
Lemma RawStdEncode_no_dollar s : Forall (fun c => (c =? "$")%char = false) (bytes (RawStdEncode s)).
Proof.
  unfold RawStdEncode. rewrite bytes_of_bytes, Forall_map.
  eapply Forall_impl; [apply sextets_range|]. cbn; intros n Hn.
  pose proof (in_std_alphabet_all n Hn) as Ha. unfold in_std_alphabet in Ha.
  rewrite !andb_true_iff, !negb_true_iff in Ha. tauto.
Qed.

(** Splitting at a separator. *)
Lemma split_bytes_nosep sep l : Forall (fun c => (c =? sep)%char = false) l -> split_bytes sep l = [l].
Proof. induction 1 as [|c l Hc Hl IH]; [done|]. cbn. by rewrite Hc, IH. Qed.
Lemma split_bytes_two sep l r : split_bytes sep (l ++ sep :: r)%list = (split_bytes sep l ++ split_bytes sep r)%list.
Proof.
  induction l as [|c l IH]; cbn; [by rewrite Ascii.eqb_refl|]. rewrite IH. case_match; [done|].
  destruct (split_bytes sep l) eqn:E; [|done]. by destruct l; cbn in E; repeat case_match.
Qed.

(** ** Passwords *)

(** [argon2.IDKey]: password, salt, time, memory, threads, key length. *)
Class Argon := { argon2_IDKey : string -> string -> Z -> Z -> Z -> Z -> string }.

Record PasswordHasher := mkHasher { ph_time : Z; ph_memory : Z; ph_threads : Z; ph_keyLen : Z }.
Definition NewPasswordHasher : PasswordHasher := mkHasher 3 (64 * 1024) 2 32.

Definition maxArgonMemoryKiB : Z := 256 * 1024.
Definition maxArgonIterations : Z := 10.
Definition maxArgonThreads : Z := 32.
Definition minArgonKeyLength : Z := 16.
Definition maxArgonKeyLength : Z := 64.

Section Passwords.
Context `{Argon}.

(** [salt] is what the random generator gave for 16 bytes. *)
Definition Hasher_Hash (h : PasswordHasher) (salt : result goerr string) (password : string) : result goerr string :=
  match salt with
  | Err e => Err (Errorf_ww (NewErr "generate password salt") e)
  | Ok salt =>
      let key := argon2_IDKey password salt (ph_time h) (ph_memory h) (ph_threads h) (ph_keyLen h) in
      Ok ("$argon2id$v=19$m=" +:+ pretty (ph_memory h) +:+ ",t=" +:+ pretty (ph_time h) +:+ ",p=" +:+
          pretty (ph_threads h) +:+ "$" +:+ RawStdEncode salt +:+ "$" +:+ RawStdEncode key)
  end.

(** [strconv.ParseUint(s, 10, 32)] *)
Definition ParseUint32 (s : string) : option Z :=
  match digits_value (bytes s) with Some z => if z <? 2 ^ 32 then Some z else None | None => None end.
Fixpoint parse_parameters (parameters : gmap string Z) (l : list string) : option (gmap string Z) :=
  match l with
  | [] => Some parameters
  | parameter :: rest =>
      match Cut parameter "=" with
      | (_, None) => None
      | (key, Some value) =>
          match ParseUint32 value with
          | None => None
          | Some parsed => parse_parameters (<[key := parsed]> parameters) rest
          end
      end
  end.
Definition out_of_bounds (lo hi v : Z) : bool := (v <? lo) || (hi <? v).

Definition Hasher_Verify (password encoded : string) : bool :=
  match Split encoded "$" with
  | [_; kind; version; settings; saltText; hashText] =>
      if negb (kind =? "argon2id")%string || negb (version =? "v=19")%string then false
      else match parse_parameters ∅ (Split settings ",") with
           | None => false
           | Some parameters =>
               match parameters !! "m", parameters !! "t", parameters !! "p" with
               | Some memory, Some iterations, Some threads =>
                   if out_of_bounds 1 maxArgonMemoryKiB memory || out_of_bounds 1 maxArgonIterations iterations ||
                      out_of_bounds 1 maxArgonThreads threads then false
                   else match RawStdDecode saltText, RawStdDecode hashText with
                        | Some salt, Some expected =>
                            let keyLen := Z.of_nat (String.length expected) in
                            if out_of_bounds 8 64 (Z.of_nat (String.length salt)) ||
                               out_of_bounds minArgonKeyLength maxArgonKeyLength keyLen then false
                            else (argon2_IDKey password salt iterations memory threads keyLen =? expected)%string
                        | _, _ => false
                        end
               | _, _, _ => false
               end
           end
  | _ => false
  end.

(** The six parts of a hash made with the service's settings. *)
Lemma split_hash salt key :
  Split ("$argon2id$v=19$m=65536,t=3,p=2$" +:+ RawStdEncode salt +:+ "$" +:+ RawStdEncode key) "$" =
  [""; "argon2id"; "v=19"; "m=65536,t=3,p=2"; RawStdEncode salt; RawStdEncode key].
Proof.
  unfold Split. rewrite !bytes_app.
  change (bytes "$argon2id$v=19$m=65536,t=3,p=2$")
    with (bytes "$argon2id$v=19$m=65536,t=3,p=2" ++ ["$"%char])%list.
  change (bytes "$") with ["$"%char]. rewrite <- app_assoc. cbn [app].
  rewrite !split_bytes_two, !map_app, !(split_bytes_nosep "$" (bytes (RawStdEncode _))) by apply RawStdEncode_no_dollar.
  cbn [map]. rewrite !of_bytes_bytes. reflexivity.
Qed.

(** What was hashed verifies, and nothing else does: a hash made with the
    service's settings over a 16-byte salt and a 32-byte key is accepted for a
    password exactly when Argon2 gives that password the same key. *)
Theorem password_round_trip salt password encoded password' :
  String.length salt = 16%nat ->
  (forall p s t m n, String.length (argon2_IDKey p s t m n 32) = 32%nat) ->
  Hasher_Hash NewPasswordHasher (Ok salt) password = Ok encoded ->
  Hasher_Verify password' encoded =
  (argon2_IDKey password' salt 3 65536 2 32 =? argon2_IDKey password salt 3 65536 2 32)%string.
Proof.
  intros Hsalt Hkey [= <-]. unfold Hasher_Verify.
  change (ph_time NewPasswordHasher) with 3. change (ph_memory NewPasswordHasher) with 65536.
  change (ph_threads NewPasswordHasher) with 2. change (ph_keyLen NewPasswordHasher) with 32.
  set (key := argon2_IDKey password salt 3 65536 2 32).
  replace (pretty 65536) with "65536" by (vm_compute; reflexivity).
  replace (pretty 3) with "3" by (vm_compute; reflexivity). replace (pretty 2) with "2" by (vm_compute; reflexivity).
  match goal with |- context [Split ?e "$"] =>
    change e with ("$argon2id$v=19$m=65536,t=3,p=2$" +:+ RawStdEncode salt +:+ "$" +:+ RawStdEncode key) end.
  rewrite split_hash. cbn -[Split parse_parameters lookup RawStdDecode RawStdEncode].
  replace (parse_parameters ∅ (Split "m=65536,t=3,p=2" ","))
    with (Some (<["p" := 2]> (<["t" := 3]> (<["m" := 65536]> (∅ : gmap string Z))))) by (vm_compute; reflexivity).
  simplify_map_eq. rewrite !RawStd_roundtrip, Hsalt. unfold key at 1 2. rewrite Hkey. reflexivity.
Qed.
End Passwords.

(** ** Opaque tokens *)

Section Opaque.
Context `{Crypto}.

Definition HashOpaque (value : string) : string := sha256 value.
(** [random] is what the random generator gave for [size] bytes. *)
Definition TokenService_NewOpaque (size : Z) (random : result goerr string) : result goerr (string * string) :=
  if size <? 32 then Err (NewErr "opaque token size must be at least 32 bytes")
  else match random with
       | Err e => Err (Errorf_ww (NewErr "generate opaque token") e)
       | Ok raw => let value := HexEncode raw in Ok (value, HashOpaque value)
       end.

(** [opaque.go] *)
Definition NewOpaqueToken (random : result goerr string) : result goerr (string * string) :=
  match random with
  | Err e => Err e
  | Ok raw => let token := RawURLEncode raw in Ok (token, sha256 token)
  end.
Definition HashOpaqueToken (token : string) : string := sha256 token.
End Opaque.

(** ** Signing *)

Record Signer := mkSigner {
  sg_privateKey : string;
  sg_publicKey : string;
  sg_publicKeys : gmap string string;
  sg_kid : string;
  sg_issuer : string
}.

Definition PrivateKeySize : nat := 64.
(** [privateKey.Public()]: the second half of the key. *)
Definition public_half (private : string) : string := of_bytes (drop 32 (bytes private)).
Definition NewSigner (privateKey kid issuer : string) : result goerr Signer :=
  reject negb (Nat.eqb (String.length privateKey) PrivateKeySize) || (kid =? "")%string || (issuer =? "")%string
    with NewErr "invalid signing configuration" in
  let publicKey := public_half privateKey in
  Ok (mkSigner privateKey publicKey {[kid := publicKey]} kid issuer).

(** [GenerateSigner]; [generated] is what [ed25519.GenerateKey] gave. *)
Definition GenerateSigner (generated : result goerr string) (kid issuer : string) : result goerr Signer :=
  let? privateKey := generated in NewSigner privateKey kid issuer.

(** The files of the host: a path, the names in a directory with whether each
    is a directory, and a file in a directory. *)
Class Files := {
  os_ReadFile : string -> result goerr string;
  os_ReadDir : string -> result goerr (list (string * bool));
  os_ReadFile_in : string -> string -> result goerr string
}.
(** [pem.Decode] and the parsers of [crypto/x509]: a key that is not Ed25519 is
    the inner [None]. *)
Class KeyFiles := {
  pem_Decode : string -> option string;
  ParsePKCS8PrivateKey : string -> result goerr (option string);
  ParsePKIXPublicKey : string -> result goerr (option string)
}.

(** Signing with the library: private key, key id, issuer, audience, claims. *)
Class JwtSigner := {
  jwt_SignedString : string -> string -> string -> list string -> JwtClaims -> result goerr string
}.

Section Signing.
Context `{GoLib} `{Files} `{KeyFiles} `{JwtLib} `{JwtSigner}.

(** The public key of one file of the history. *)
Definition history_key (dir name : string) : result goerr string :=
  match os_ReadFile_in dir name with
  | Err e => Err (Errorf_ww (NewErr ("read signing key history " +:+ name)) e)
  | Ok data =>
      match pem_Decode data with
      | None => Err (NewErr ("decode signing key history PEM: " +:+ name))
      | Some block =>
          match ParsePKIXPublicKey block with
          | Err e => Err (Errorf_ww (NewErr ("parse signing key history " +:+ name)) e)
          | Ok None => Err (NewErr ("signing key history is not Ed25519: " +:+ name))
          | Ok (Some key) => Ok key
          end
      end
  end.
Fixpoint add_history (dir kid : string) (keys : gmap string string) (entries : list (string * bool))
  : result goerr (gmap string string) :=
  match entries with
  | [] => Ok keys
  | (name, isDir) :: rest =>
      if (isDir : bool) || negb (HasSuffix name ".pub.pem") then add_history dir kid keys rest
      else
        let historyID := TrimSuffix name ".pub.pem" in
        if (historyID =? "")%string || (historyID =? kid)%string
        then Err (NewErr ("invalid signing key history filename: " +:+ name))
        else let? key := history_key dir name in add_history dir kid (<[historyID := key]> keys) rest
  end.
Definition LoadSignerWithHistory (path kid issuer historyDir : string) : result goerr Signer :=
  match os_ReadFile path with
  | Err e => Err (Errorf_ww (NewErr "read signing key") e)
  | Ok data =>
      match pem_Decode data with
      | None => Err (NewErr "decode signing key PEM")
      | Some block =>
          match ParsePKCS8PrivateKey block with
          | Err e => Err (Errorf_ww (NewErr "parse signing key") e)
          | Ok None => Err (NewErr "signing key is not Ed25519")
          | Ok (Some privateKey) =>
              let? s := NewSigner privateKey kid issuer in
              if (TrimSpace historyDir =? "")%string then Ok s
              else match os_ReadDir historyDir with
                   | Err e => Err (Errorf_ww (NewErr "read signing key history") e)
                   | Ok entries =>
                       let? keys := add_history historyDir kid (sg_publicKeys s) entries in
                       Ok (mkSigner (sg_privateKey s) (sg_publicKey s) keys (sg_kid s) (sg_issuer s))
                   end
          end
      end
  end.
Definition LoadSigner (path kid issuer : string) : result goerr Signer := LoadSignerWithHistory path kid issuer "".

(** [jwt.NewNumericDate] keeps whole seconds. *)
Definition NumericDate (t : Time) : Time := mkTime (nanos t / Second * Second) (zone t).
Definition signed_claims (subject kind sid jti : string) (roles scopes : list string) (ttl : Z) (now : Time) : JwtClaims :=
  mkClaims kind scopes roles sid subject jti (Some (NumericDate (Add now ttl))) (Some (NumericDate now))
    (Some (NumericDate now)).
(** [now] is the clock's reading and [jti] the identifier that was made. *)
Definition Signer_Sign (s : Signer) (now : Time) (jti : result goerr string) (subject audience kind sid : string)
    (roles scopes : list string) (ttl : Z) : result goerr string :=
  match jti with
  | Err e => Err (Errorf_ww (NewErr "generate token identifier") e)
  | Ok id => jwt_SignedString (sg_privateKey s) (sg_kid s) (sg_issuer s) [audience]
               (signed_claims subject kind sid id roles scopes ttl (UTC now))
  end.
(** [TokenService.Sign]: the signer may be missing. *)
Definition TokenService_Sign (signer : option Signer) (now : Time) (jti : result goerr string)
    (subject audience kind sid : string) (roles scopes : list string) (ttl : Z) : result goerr string :=
  match signer with
  | None => Err (NewErr "token signer is not configured")
  | Some s => Signer_Sign s now jti subject audience kind sid roles scopes ttl
  end.

Definition signer_options (s : Signer) (audience : string) : JwtOptions :=
  mkJwtOptions ["EdDSA"] (sg_issuer s) audience 0.
Definition Signer_Verify (s : Signer) (now : Time) (raw audience : string) : result goerr JwtClaims :=
  let invalid := Err (NewErr "invalid access token") in
  match jwt_kid (signer_options s audience) raw with
  | Some (Some kid) =>
      match sg_publicKeys s !! kid with
      | Some key => match jwt_claims (signer_options s audience) raw key now with Some c => Ok c | None => invalid end
      | None => invalid
      end
  | _ => invalid
  end.

(** ** The published key set *)

Definition jwk (id key : string) : json :=
  jmap [("kty", jstr "OKP"); ("crv", jstr "Ed25519"); ("kid", jstr id); ("use", jstr "sig"); ("alg", jstr "EdDSA");
        ("x", jstr (RawURLEncode key))].
Definition key_ids (s : Signer) : list string := order_by String.leb (map fst (map_to_list (sg_publicKeys s))).
Definition JWKS (s : Signer) : json :=
  jmap [("keys", JArr (omap (fun id => (fun key => jwk id key) <$> sg_publicKeys s !! id) (key_ids s)))].
End Signing.
