(* ===== verification/IdentityHTTP.v ===== *)
(** * Identity: the HTTP interface

    [apps/identity/internal/adapters/inbound/http]: authentication of humans and
    of the Gateway on behalf of a human, the handlers over the service, cursors
    and page queries, the source of a request, and what every error becomes.
    The methods and paths are those of [registerIdentityRoutes] and [NewServer];
    a path is matched by its segments. *)
From Stdlib Require Import ZArith Lia Ascii String.
From stdpp Require Import base gmap strings list relations pretty.
From S2P Require Import Prelude GoStrings GoErrors GoTime GoBase64 GoCrypto GoJson GoURL GoHttp Tx.
From S2P Require Import IdentityDomain IdentityTables IdentityStore IdentityService IdentityCrypto.

Open Scope string_scope.
Open Scope Z_scope.
Open Scope go_scope.

(** [uuid.Parse], with the canonical text of what it accepted, and
    [uuid.NewString]. *)
Class UuidText := { uuid_Parse : string -> option string }.
(** The parts of package net the source of a request is read with: the host of
    [SplitHostPort], and the network of an address, of 24 bits for IPv4 and 56
    for IPv6. *)
Class SourceLib := { src_SplitHost : string -> option string; src_Prefix : string -> option string }.
(** The emergency list of revoked tokens: its answers by event. *)
Class Revocations := {
  is_revoked : nat -> string -> result goerr bool;
  revoke_reply : nat -> string -> Z -> result goerr unit
}.

Record Server := mkServer {
  srv_identity : option Service;
  srv_signer : option Signer;
  srv_revocations : bool;            (** present *)
  srv_revoker : bool;                (** and able to revoke *)
  srv_emergencyRevocation : bool;
  srv_demoRegistration : bool;
  srv_humanAudience : string;
  srv_machineAudience : string;
  srv_gatewaySubject : string;
  srv_testMailer : bool;             (** with a mailbox *)
  srv_trustProxyHeaders : bool
}.

(** ** Cursors and page queries *)

Definition defaultPageSize : Z := 25.
Definition maxPageSize : Z := 100.
Definition allowedUserStatuses : list string := ["ACTIVE"; "DISABLED"; "PENDING_VERIFICATION"].
Definition allowedUserRoles : list string := ["admin"; "customer"; "support"; "finance"].

Record pageQuery := mkPageQuery {
  pq_limit : Z; pq_status : string; pq_role : string; pq_emailPrefix : string;
  pq_cursorCreated : option Time; pq_cursorID : string
}.
Definition userQuery (q : pageQuery) : UserPageQuery :=
  mkUserPageQuery (pq_status q) (pq_role q) (pq_emailPrefix q) (pq_cursorCreated q) (pq_cursorID q) (pq_limit q).
Definition sessionQuery (q : pageQuery) : SessionPageQuery :=
  mkSessionPageQuery (pq_cursorCreated q) (pq_cursorID q) (pq_limit q).

(** [NewReplacer] of the three characters a pattern gives a meaning. *)
Definition like_escape (l : list ascii) : list ascii :=
  flat_map (fun c => if (c =? "\")%char || (c =? "%")%char || (c =? "_")%char then ["\"%char; c] else [c]) l.

Section Pages.
Context `{GoLib} `{UuidText}.

(** [json.Unmarshal] of the cursor: a UUID is read with its own parser. *)
Definition dec_uuid : decoder string := fun cur v =>
  match v with
  | JNull => Some cur
  | JStr raw => uuid_Parse (unquote raw)
  | _ => None
  end.
Definition dec_cursor (fs : list (string * json)) : option (Time * string) :=
  at_ ← dec_field dec_time zeroTime "created_at" fs;
  id ← dec_field dec_uuid uuid_nil "id" fs;
  Some (at_, id).
Definition encodeCursor (createdAt : Time) (id : string) : string :=
  match jtime (UTC createdAt) with
  | Ok at_ => RawURLEncode (json_text (JObj [("created_at", at_); ("id", jstr id)]))
  | Err _ => RawURLEncode ""
  end.
Definition decodeCursor (value : string) : option (Time * string) :=
  if 256 <? len value then None
  else match RawURLDecode value with
       | None => None
       | Some payload =>
           match unmarshal_struct dec_cursor payload with
           | None => None
           | Some (at_, id) => if (id =? uuid_nil)%string || IsZero at_ then None else Some (UTC at_, id)
           end
       end.

Definition parsePageQuery (r : Request) : result goerr pageQuery :=
  let rawPrefix := rq_Query r "email_prefix" in
  reject ContainsAnyCRLF rawPrefix with NewErr "invalid email prefix" in
  let prefix := of_bytes (like_escape (bytes (ToLower (TrimSpace rawPrefix)))) in
  let rawLimit := TrimSpace (rq_Query r "limit") in
  let? limit := if (rawLimit =? "")%string then Ok defaultPageSize
                else match Atoi rawLimit with
                     | Some v => reject (v <? 1) || (maxPageSize <? v) with NewErr "limit must be between 1 and 100" in Ok v
                     | None => Err (NewErr "limit must be between 1 and 100")
                     end in
  reject (320 <? len prefix) || ContainsAnyCRLF prefix with NewErr "invalid email prefix" in
  let status := TrimSpace (rq_Query r "status") in
  let role := TrimSpace (rq_Query r "role") in
  let rawCursor := TrimSpace (rq_Query r "cursor") in
  if (rawCursor =? "")%string then Ok (mkPageQuery limit status role prefix None uuid_nil)
  else match decodeCursor rawCursor with
       | None => Err (NewErr "invalid cursor")
       | Some (at_, id) => Ok (mkPageQuery limit status role prefix (Some at_) id)
       end.
End Pages.

(** ** Requests and responses *)

Section Texts.
Context `{GoLib} `{UuidText} `{SourceLib}.

Definition requestSource (r : Request) (trustProxyHeaders : bool) : string :=
  let forwarded := TrimSpace (hd "" (Split (Get (rq_Header r) "X-Forwarded-For") ",")) in
  let address := if trustProxyHeaders && negb (forwarded =? "")%string then forwarded else rq_RemoteAddr r in
  let host := default (TrimSpace address) (src_SplitHost address) in
  default "unknown" (src_Prefix host).

Definition problem (w : Writer) (status : Z) (title detail : string) : Writer :=
  encode_json (WriteHeader (set_header w "Content-Type" "application/problem+json") status)
    (Ok (jmap [("type", jstr "about:blank"); ("title", jstr title); ("status", jint status); ("detail", jstr detail)])).
Definition writeJSON (w : Writer) (status : Z) (value : result goerr json) : Writer :=
  encode_json (WriteHeader (set_header w "Content-Type" "application/json") status) value.
Definition unauthorized (w : Writer) : Writer := problem w 401 "unauthorized" "Authentication failed".
Definition forbidden (w : Writer) : Writer := problem w 403 "forbidden" "Permission denied".
Definition bad_user (w : Writer) : Writer := problem w 400 "bad_request" "Invalid user identifier".
Definition bad_body (w : Writer) : Writer := problem w 400 "bad_request" "Invalid request body".

Definition writeIdentityError (w : Writer) (err : goerr) : Writer :=
  if errors_Is err ErrInvalidCredentials then unauthorized w
  else if errors_Is err ErrForbidden then forbidden w
  else if errors_Is err ErrNotFound then problem w 404 "not_found" "Resource not found"
  else if errors_Is err ErrRateLimited
  then problem (set_header w "Retry-After" "60") 429 "too_many_requests" "Request rate limit exceeded"
  else if errors_Is err ErrConflict then problem w 409 "conflict" "Request conflicts with existing state"
  else if errors_Is err ErrDependency then problem w 503 "service_unavailable" "Required dependency unavailable"
  else if errors_Is err ErrInvalidInput then problem w 400 "bad_request" "Invalid request"
  else if errors_Is err ErrAlreadyUsed || errors_Is err ErrExpired then unauthorized w
  else problem w 500 "internal_error" "Internal server error".

(** One JSON value and nothing else in a body of at most 16 KiB. *)
Definition decodeJSON {A} (dec : list (string * json) -> option A) (r : Request) : option A :=
  if 2 ^ 14 <? len (rq_Body r) then None else unmarshal_struct dec (rq_Body r).
Definition dec_one (name : string) (fs : list (string * json)) : option string :=
  if known_fields [name] fs then dec_field dec_string "" name fs else None.
Definition dec_two (n1 n2 : string) (fs : list (string * json)) : option (string * string) :=
  if known_fields [n1; n2] fs then
    a ← dec_field dec_string "" n1 fs;
    b ← dec_field dec_string "" n2 fs;
    Some (a, b)
  else None.
Definition dec_serviceToken (fs : list (string * json)) : option (string * string * list string) :=
  if known_fields ["client_id"; "client_secret"; "scopes"] fs then
    a ← dec_field dec_string "" "client_id" fs;
    b ← dec_field dec_string "" "client_secret" fs;
    c ← dec_field (fun cur v => match v with JNull => Some cur | _ => dec_strings v end) [] "scopes" fs;
    Some (a, b, c)
  else None.

Definition jtime_opt (t : option Time) : result goerr json :=
  match t with Some t => jtime t | None => Ok JNull end.
Definition tokenResponse (c : Credentials) : json :=
  JObj [("access_token", jstr (AccessToken c)); ("refresh_token", jstr (RefreshToken c)); ("token_type", jstr "Bearer");
        ("expires_in", jint (AccessTokenExpiresIn c)); ("refresh_expires_in", jint (RefreshExpiresIn c))].
Definition userResponse (u : User) (roles : list string) : result goerr json :=
  let? verified := jtime_opt (u_EmailVerifiedAt u) in
  let? created := jtime (u_CreatedAt u) in
  Ok (JObj [("id", jstr (userRef (u_ID u))); ("email", jstr (u_Email u)); ("status", jstr (u_Status u));
            ("roles", JArr (map jstr roles)); ("email_verified_at", verified); ("created_at", created)]).
Definition sessionResponse (s : Session) : result goerr json :=
  let? expires := jtime (se_ExpiresAt s) in
  let? revoked := jtime_opt (se_RevokedAt s) in
  let? created := jtime (se_CreatedAt s) in
  let? used := jtime_opt (se_LastUsedAt s) in
  Ok (JObj [("id", jstr (se_ID s)); ("family_id", jstr (se_FamilyID s)); ("status", jstr (se_Status s));
            ("expires_at", expires); ("revoked_at", revoked); ("created_at", created); ("last_used_at", used)]).
Fixpoint all_ok {A} (l : list (result goerr A)) : result goerr (list A) :=
  match l with
  | [] => Ok []
  | x :: r => let? a := x in let? rest := all_ok r in Ok (a :: rest)
  end.

Definition hasScope (c : JwtClaims) (wanted : string) : bool := existsb (fun s => (s =? wanted)%string) (cl_Scopes c).
Definition parseUserRef (value : string) : option string :=
  if HasPrefix value "usr_" then uuid_Parse (TrimPrefix value "usr_") else None.
Definition validScope (scope : string) : bool :=
  forallb (fun c => is_lower c || is_digit c || (c =? ":")%char || (c =? "_")%char || (c =? "-")%char) (bytes scope)
  && negb (scope =? "")%string.
End Texts.

(** ** Health *)

(** The health service: whether startup is over, and the dependencies with
    what checking each at an event gives. *)
Record Health := mkHealth { h_started : bool; h_dependencies : list (string * (nat -> result goerr unit)) }.
Record HealthResult := mkHealthResult { hr_Status : string; hr_Dependencies : list (string * string) }.
Definition Health_Live : HealthResult := mkHealthResult "ok" [].
Definition Health_Startup (h : Health) : HealthResult :=
  mkHealthResult (if h_started h then "ok" else "starting") [].
Definition MarkStarted (h : Health) : Health := mkHealth true (h_dependencies h).
(** The map of the loop, with the events the checks take. *)
Fixpoint check_dependencies (deps : list (string * (nat -> result goerr unit))) (n : nat)
    (status : string) (seen : gmap string string) : string * gmap string string :=
  match deps with
  | [] => (status, seen)
  | (name, check_) :: rest =>
      match check_ n with
      | Err _ => check_dependencies rest (S n) "not_ready" (<[name := "unavailable"]> seen)
      | Ok _ => check_dependencies rest (S n) status (<[name := "ok"]> seen)
      end
  end.
Definition Health_Ready (h : Health) (n : nat) : HealthResult :=
  let '(status, seen) := check_dependencies (h_dependencies h) n "ready" ∅ in
  mkHealthResult status (map_to_list seen).
Definition jhealth `{GoLib} (r : HealthResult) : json :=
  JObj (("status", jstr (hr_Status r)) ::
        match hr_Dependencies r with
        | [] => []
        | l => [("dependencies", jmap (map (fun p => (fst p, jstr (snd p))) l))]
        end).

(** ** The server *)

(** What the documentation pages need: the OpenAPI file and the random bytes. *)
Record Site := mkSite { openapi_file : option string; nonce_bytes : option string }.

Section Server.
Context `{GoLib} `{Crypto} `{Env} `{Pg} `{IdPorts} `{UuidText} `{SourceLib} `{Revocations} `{JwtLib}.
Context (srv : Server) (health : Health) (site : Site).
Local Notation State := (St IdDB (list Mail)).
Local Notation Prog := (M IdDB (list Mail)).

(** A handler: the request with its correlation id, and the response writer. *)
Definition handler : Type := Request -> string -> Writer -> State -> State * Writer.
(** The values of the wildcards of a path. *)
Definition path_handler : Type := list string -> handler.

Definition answering {A} (m : Prog A) (w : Writer) (s : State) (k : A -> Writer) : State * Writer :=
  match m s with
  | (s', Err e) => (s', writeIdentityError w e)
  | (s', Ok a) => (s', k a)
  end.
Definition no_store (w : Writer) : Writer := set_header w "Cache-Control" "no-store".

(** *** Authentication *)

Definition gatewayServiceSubject : string :=
  if (TrimSpace (srv_gatewaySubject srv) =? "")%string then "svc_gateway" else srv_gatewaySubject srv.

(** The human a request of the Gateway is made for. *)
Definition gatewayActorClaims (r : Request) (machine : JwtClaims) : option JwtClaims :=
  let h := rq_Header r in
  let actorID := TrimSpace (Get h "X-StreamWeave-Actor-ID") in
  if negb (HasPrefix actorID "usr_") || (len actorID <? 8) then None
  else match parseUserRef actorID with
  | None => None
  | Some _ =>
      if negb (TrimSpace (Get h "X-StreamWeave-Actor-Type") =? "human")%string then None
      else
        let scopes := Fields (Get h "X-StreamWeave-Scopes") in
        if (64 <? length scopes)%nat then None
        else if negb (forallb (fun scope => (len scope <=? 128) && validScope scope &&
                                            bool_decide (scope ∈ cl_Scopes machine)) scopes) then None
        else match uuid_Parse (TrimSpace (Get h "X-StreamWeave-Actor-Session-ID")) with
             | None => None
             | Some sid =>
                 Some (mkClaims "service-context" scopes (cl_Roles machine) sid actorID (cl_ID machine)
                         (cl_ExpiresAt machine) (cl_IssuedAt machine) (cl_NotBefore machine))
             end
  end.

(** The persistent state of the session; an error counts as inactive. *)
Definition session_active (sid : string) (s : State) : State * bool :=
  match IsSessionActive sid s with
  | (s', Ok b) => (s', b)
  | (s', Err _) => (s', false)
  end.
Definition requireActiveHumanSession (claims : JwtClaims) (s : State) : State * bool :=
  let '(s, revoked) :=
    if srv_emergencyRevocation srv && srv_revocations srv
    then (advance s, match is_revoked (tick s) (cl_ID claims) with Ok b => b | Err _ => true end)
    else (s, false) in
  if revoked : bool then (s, false)
  else match uuid_Parse (cl_SessionID claims), srv_identity srv with
       | Some sid, Some _ => session_active sid s
       | _, _ => (s, false)
       end.

(** The signer's check at the time of the clock. *)
Definition verify_now (sg : Signer) (raw audience : string) (s : State) : State * result goerr JwtClaims :=
  (advance s, Signer_Verify sg (clock_at (tick s)) raw audience).

(** The Gateway acting for a human, when the token is not a human's. *)
Definition as_gateway (sg : Signer) (raw : string) (next : JwtClaims -> handler) : handler := fun r cid w s =>
  let audience := if (srv_machineAudience srv =? "")%string then "platform-internal" else srv_machineAudience srv in
  let '(s, verified) := verify_now sg raw audience s in
  match verified with
  | Err _ => (s, unauthorized w)
  | Ok machine =>
      if negb (cl_TokenKind machine =? "service")%string ||
         negb (cl_Subject machine =? gatewayServiceSubject)%string then (s, unauthorized w)
      else match gatewayActorClaims r machine with
           | None => (s, unauthorized w)
           | Some actor =>
               match srv_identity srv with
               | None => (s, problem w 503 "service_unavailable" "Required dependency unavailable")
               | Some _ =>
                   let '(s, active) := session_active (cl_SessionID actor) s in
                   if active : bool then next actor r cid w s else (s, unauthorized w)
               end
           end
  end.
Definition auth (next : JwtClaims -> handler) : handler := fun r cid w s =>
  match srv_signer srv with
  | None => (s, problem w 503 "service_unavailable" "Identity signing is unavailable")
  | Some sg =>
      let raw := TrimSpace (TrimPrefix (Get (rq_Header r) "Authorization") "Bearer ") in
      if (raw =? "")%string then (s, unauthorized w)
      else
        let audience := if (srv_humanAudience srv =? "")%string then "platform-api" else srv_humanAudience srv in
        let '(s, verified) := verify_now sg raw audience s in
        match verified with
        | Ok claims =>
            if (cl_TokenKind claims =? "human")%string then
              let '(s, active) := requireActiveHumanSession claims s in
              if active : bool then next claims r cid w s else (s, unauthorized w)
            else as_gateway sg raw next r cid w s
        | Err _ => as_gateway sg raw next r cid w s
        end
  end.

(** *** Signing in and out *)

Context (svc : Service).
Definition source_of (r : Request) : string := requestSource r (srv_trustProxyHeaders srv).

Definition register : handler := fun r cid w s =>
  if negb (srv_demoRegistration srv) then (s, problem w 404 "not_found" "Resource not found")
  else match decodeJSON (dec_two "email" "password") r with
       | None => (s, bad_body w)
       | Some (email, password) =>
           answering (Register svc email password (source_of r) cid) w s (fun user =>
             writeJSON w 201 (userResponse user ["customer"]))
       end.
Definition login : handler := fun r cid w s =>
  match decodeJSON (dec_two "email" "password") r with
  | None => (s, bad_body w)
  | Some (email, password) =>
      answering (Login svc email password cid (source_of r)) w s (fun res =>
        writeJSON (no_store w) 200 (Ok (tokenResponse (fst (fst res)))))
  end.
Definition refresh : handler := fun r cid w s =>
  match decodeJSON (dec_one "refresh_token") r with
  | None => (s, bad_body w)
  | Some token =>
      answering (Refresh svc token cid (source_of r)) w s (fun res =>
        writeJSON (no_store w) 200 (Ok (tokenResponse (fst (fst res)))))
  end.
Definition logout (claims : JwtClaims) : handler := fun r cid w s =>
  match uuid_Parse (cl_SessionID claims), parseUserRef (cl_Subject claims) with
  | Some sessionID, Some userID =>
      match Logout userID sessionID cid s with
      | (s, Err e) => (s, writeIdentityError w e)
      | (s, Ok _) =>
          match cl_ExpiresAt claims with
          | Some expires =>
              if srv_emergencyRevocation srv && srv_revocations srv && srv_revoker srv then
                let now := clock_at (tick s) in
                let s := advance s in
                match revoke_reply (tick s) (cl_ID claims) (Sub expires now) with
                | Err _ => (advance s, problem w 503 "service_unavailable" "Required dependency unavailable")
                | Ok _ => (advance s, WriteHeader w 204)
                end
              else (s, WriteHeader w 204)
          | None => (s, WriteHeader w 204)
          end
      end
  | _, _ => (s, unauthorized w)
  end.
Definition logoutAll (claims : JwtClaims) : handler := fun r cid w s =>
  match parseUserRef (cl_Subject claims) with
  | None => (s, unauthorized w)
  | Some userID => answering (LogoutAll userID cid) w s (fun _ => WriteHeader w 204)
  end.
Definition sessions_page (claims : JwtClaims) : handler := fun r cid w s =>
  match parseUserRef (cl_Subject claims) with
  | None => (s, unauthorized w)
  | Some userID =>
      match parsePageQuery r with
      | Err e => (s, problem w 400 "bad_request" (ErrorText e))
      | Ok q =>
          answering (SessionsPage userID (sessionQuery q)) w s (fun page =>
            writeJSON w 200 (let? items := all_ok (map sessionResponse (sg_Items page)) in
              Ok (jmap [("sessions", JArr items);
                        ("next_cursor", jstr (if sg_HasMore page then encodeCursor (sg_LastCreated page) (sg_LastID page)
                                              else ""))])))
      end
  end.

(** *** Users *)

Definition listUsers (claims : JwtClaims) : handler := fun r cid w s =>
  if negb (hasScope claims "identity:users:read") then (s, forbidden w)
  else match parsePageQuery r with
  | Err e => (s, problem w 400 "bad_request" (ErrorText e))
  | Ok q =>
      if negb (pq_status q =? "")%string && negb (bool_decide (pq_status q ∈ allowedUserStatuses))
      then (s, problem w 400 "bad_request" "Invalid status filter")
      else if negb (pq_role q =? "")%string && negb (bool_decide (pq_role q ∈ allowedUserRoles))
      then (s, problem w 400 "bad_request" "Invalid role filter")
      else answering (UsersPage (userQuery q)) w s (fun page =>
        writeJSON w 200 (let? items := all_ok (map (fun i => userResponse (up_User i) (up_Roles i)) (ug_Items page)) in
          Ok (jmap [("users", JArr items);
                    ("next_cursor", jstr (if ug_HasMore page then encodeCursor (ug_LastCreated page) (ug_LastID page)
                                          else ""))])))
  end.
Definition getUser (claims : JwtClaims) : path_handler := fun values r cid w s =>
  match parseUserRef (hd "" values) with
  | None => (s, bad_user w)
  | Some target =>
      if negb (cl_Subject claims =? userRef target)%string && negb (hasScope claims "identity:users:read")
      then (s, forbidden w)
      else answering (GetUser target) w s (fun res =>
        writeJSON w 200 (userResponse (fst res) (first_seen [] (map rp_Role (snd res)))))
  end.
(** [actor, _ := parseUserRef(...)]: the nil UUID when it does not parse. *)
Definition actor_of (claims : JwtClaims) : string := default uuid_nil (parseUserRef (cl_Subject claims)).
(** A change an administrator makes to a user: the scope, then the target. *)
Definition managing (claims : JwtClaims) (values : list string) (w : Writer) (s : State)
    (k : string -> State * Writer) : State * Writer :=
  if negb (hasScope claims "identity:roles:manage") then (s, forbidden w)
  else match parseUserRef (hd "" values) with
       | None => (s, bad_user w)
       | Some target => k target
       end.
Definition assignRole (claims : JwtClaims) : path_handler := fun values r cid w s =>
  managing claims values w s (fun target =>
    match decodeJSON (dec_one "role") r with
    | None => (s, bad_body w)
    | Some role => answering (AssignRole target (actor_of claims) role cid) w s (fun _ => WriteHeader w 204)
    end).
Definition removeRole (claims : JwtClaims) : path_handler := fun values r cid w s =>
  managing claims values w s (fun target =>
    answering (RemoveRole target (actor_of claims) (nth 1 values "") cid) w s (fun _ => WriteHeader w 204)).
Definition changeStatus (claims : JwtClaims) : path_handler := fun values r cid w s =>
  managing claims values w s (fun target =>
    match decodeJSON (dec_one "status") r with
    | None => (s, bad_body w)
    | Some status => answering (ChangeUserStatus target status (actor_of claims) cid) w s (fun _ => WriteHeader w 204)
    end).

(** *** Recovery and machines *)

Definition resetRequest : handler := fun r cid w s =>
  match decodeJSON (dec_one "email") r with
  | None => (s, bad_body w)
  | Some email => answering (RequestPasswordResetFromSource svc email (source_of r) cid) w s (fun _ => WriteHeader w 202)
  end.
Definition resetConfirm : handler := fun r cid w s =>
  match decodeJSON (dec_two "token" "new_password") r with
  | None => (s, bad_body w)
  | Some (token, password) => answering (ConfirmPasswordReset token password cid) w s (fun _ => WriteHeader w 204)
  end.
Definition verifyEmail : handler := fun r cid w s =>
  match decodeJSON (dec_one "token") r with
  | None => (s, bad_body w)
  | Some token => answering (ConfirmEmail token cid) w s (fun _ => WriteHeader w 204)
  end.
Definition serviceToken_handler : handler := fun r cid w s =>
  match decodeJSON dec_serviceToken r with
  | None => (s, bad_body w)
  | Some (client, secret, scopes) =>
      answering (ServiceTokenFromSource svc client secret scopes (source_of r) cid) w s (fun res =>
        writeJSON (no_store w) 200
          (Ok (jmap [("access_token", jstr (MAccessToken res)); ("token_type", jstr "Bearer");
                     ("expires_in", jint (ExpiresIn res))])))
  end.
Definition jwks : handler := fun _ _ w s =>
  match srv_signer srv with
  | Some sg => (s, writeJSON w 200 (Ok (JWKS sg)))
  | None => (s, w)
  end.

(** The mailbox of [SimulatedMailer]: the last mail of a kind to a recipient. *)
Definition messageKey (kind recipient : string) : string :=
  ToLower (TrimSpace kind) +:+ String "000" (ToLower (TrimSpace recipient)).
Definition mailbox (sent : list Mail) : gmap string string :=
  foldl (fun m x => if (TrimSpace (m_to x) =? "")%string || (TrimSpace (m_token x) =? "")%string then m
                    else <[messageKey (m_kind x) (m_to x) := m_token x]> m) ∅ sent.
Definition latestTestMail : handler := fun r _ w s =>
  let kind := TrimSpace (rq_Query r "kind") in
  let recipient := TrimSpace (rq_Query r "recipient") in
  if (kind =? "")%string || (recipient =? "")%string
  then (s, problem w 400 "bad_request" "kind and recipient are required")
  else match mailbox (loc s) !! messageKey kind recipient with
       | None => (s, problem w 404 "not_found" "Mail not found")
       | Some token =>
           (s, writeJSON w 200 (Ok (jmap [("kind", jstr kind); ("recipient", jstr recipient); ("token", jstr token)])))
       end.
(** *** Health and documentation *)

Definition writeHealth (w : Writer) (status : Z) (value : HealthResult) : Writer :=
  encode_json (WriteHeader (set_header w "Content-Type" "application/json") status) (Ok (jhealth value)).
Definition live : handler := fun _ _ w s => (s, writeHealth w 200 Health_Live).
Definition startup : handler := fun _ _ w s =>
  let result := Health_Startup health in
  (s, writeHealth w (if (hr_Status result =? "ok")%string then 200 else 503) result).
Definition ready : handler := fun _ _ w s =>
  let result := Health_Ready health (tick s) in
  (mkSt (db s) (loc s) (tick s + length (h_dependencies health)),
   writeHealth w (if (hr_Status result =? "ready")%string then 200 else 503) result).

(** [swaggerDocsHTML] before and after its placeholder. *)
Definition swaggerDocsHTML_head : string := quoted "<!doctype html>
<html lang=~en~>
<head>
  <meta charset=~utf-8~>
  <meta name=~viewport~ content=~width=device-width, initial-scale=1~>
  <title>Identity Service API</title>
  <link rel=~stylesheet~ href=~https://unpkg.com/swagger-ui-dist@5/swagger-ui.css~>
</head>
<body>
  <div id=~swagger-ui~></div>
  <script src=~https://unpkg.com/swagger-ui-dist@5/swagger-ui-bundle.js~></script>
  <script nonce=~".
Definition swaggerDocsHTML_tail : string := quoted "~>
    window.onload = () => window.ui = SwaggerUIBundle({
      url: ~/v1/openapi.yaml~,
      dom_id: ~#swagger-ui~,
      deepLinking: true,
      displayRequestDuration: true,
      persistAuthorization: false,
      filter: true,
      tryItOutEnabled: true
    });
  </script>
</body>
</html>".
Definition swaggerDocs : handler := fun _ _ w s =>
  match nonce_bytes site with
  | None => (s, problem w 500 "internal_error" "Unable to initialize API documentation")
  | Some nonceBytes =>
      let nonce := RawURLEncode nonceBytes in
      let w := set_header w "Content-Type" "text/html; charset=utf-8" in
      let w := set_header w "Content-Security-Policy"
        ("default-src 'none'; style-src https://unpkg.com 'unsafe-inline'; script-src https://unpkg.com 'nonce-" +:+ nonce
         +:+ "'; img-src https://unpkg.com data:; connect-src 'self'; base-uri 'none'; frame-ancestors 'none'") in
      let w := set_header w "X-Content-Type-Options" "nosniff" in
      let w := set_header w "Referrer-Policy" "no-referrer" in
      let w := set_header w "Cache-Control" "no-store" in
      (s, Write w (swaggerDocsHTML_head +:+ nonce +:+ swaggerDocsHTML_tail))
  end.
Definition openAPI : handler := fun _ _ w s =>
  match openapi_file site with
  | None => (s, problem w 503 "service_unavailable" "OpenAPI contract is unavailable")
  | Some data =>
      let w := set_header w "Content-Type" "application/yaml; charset=utf-8" in
      let w := set_header w "X-Content-Type-Options" "nosniff" in
      let w := set_header w "Cache-Control" "public, max-age=300" in
      (s, Write (WriteHeader w 200) data)
  end.
End Server.

(** ** Routes *)

(** [http.ServeMux]: a pattern is a method and segments, literal or wildcards;
    a [GET] pattern answers [HEAD] too, and a wildcard takes one segment that
    is not empty, unescaped.  No two patterns of the server match one path. *)
Inductive segment := Lit_ (name : string) | Wild (name : string).
Record Pattern := mkPattern { pt_method : string; pt_segments : list segment }.

Definition pathUnescape (seg : string) : string := default seg (unescape encodePath seg).
Fixpoint match_segments (pat : list segment) (path : list string) : option (list string) :=
  match pat, path with
  | [], [] => Some []
  | Lit_ name :: pat, seg :: path => if (pathUnescape seg =? name)%string then match_segments pat path else None
  | Wild _ :: pat, seg :: path =>
      if (seg =? "")%string then None
      else rest ← match_segments pat path; Some (pathUnescape seg :: rest)
  | _, _ => None
  end.
Definition method_matches (pat method : string) : bool :=
  (pat =? method)%string || (pat =? MethodGet)%string && (method =? MethodHead)%string.

(** [cleanPath]: [path.Clean] of the rooted path, its trailing slash kept. *)
Definition clean_segments (l : list string) : list string :=
  foldl (fun acc seg => if (seg =? "")%string || (seg =? ".")%string then acc
                        else if (seg =? "..")%string then removelast acc else (acc ++ [seg])%list) [] l.
Definition cleanPath (p : string) : string :=
  let p := if HasPrefix p "/" then p else "/" +:+ p in
  let np := "/" +:+ Join (clean_segments (Split p "/")) "/" in
  if HasSuffix p "/" && negb (np =? "/")%string then np +:+ "/" else np.

(** [http.Error] and [http.NotFound]. *)
Definition http_Error (w : Writer) (text : string) (code : Z) : Writer :=
  let w := set_header w "Content-Type" "text/plain; charset=utf-8" in
  let w := set_header w "X-Content-Type-Options" "nosniff" in
  Write (WriteHeader w code) (text +:+ String "010" "").

Section Mux.
Context {St : Type}.
Local Notation endpoint := (list string -> Request -> string -> Writer -> St -> St * Writer).
Record Route := mkRoute { rt_pattern : Pattern; rt_endpoint : endpoint }.

Definition path_of (r : Request) : list string := Split (rq_Path r) "/".
Definition find_route (routes : list Route) (r : Request) : option (Route * list string) :=
  match List.find (fun rt => method_matches (pt_method (rt_pattern rt)) (rq_Method r) &&
                             bool_decide (is_Some (match_segments (pt_segments (rt_pattern rt)) (path_of r)))) routes with
  | Some rt => values ← match_segments (pt_segments (rt_pattern rt)) (path_of r); Some (rt, values)
  | None => None
  end.
(** The methods of [Allow]: one pattern at most has the path. *)
Definition allowed_methods (routes : list Route) (r : Request) : list string :=
  match List.find (fun rt => bool_decide (is_Some (match_segments (pt_segments (rt_pattern rt)) (path_of r)))) routes with
  | Some rt => if (pt_method (rt_pattern rt) =? MethodGet)%string then [MethodGet; MethodHead]
               else [pt_method (rt_pattern rt)]
  | None => []
  end.
(** [redirect] answers for the cleaned path when the request's is not clean. *)
Definition ServeHTTP (redirect : string -> Request -> Writer -> Writer) (routes : list Route)
    (r : Request) (cid : string) (w : Writer) (s : St) : St * Writer :=
  if negb (cleanPath (rq_Path r) =? rq_Path r)%string then (s, redirect (cleanPath (rq_Path r)) r w)
  else match find_route routes r with
       | Some (rt, values) => rt_endpoint rt values r cid w s
       | None =>
           match allowed_methods routes r with
           | [] => (s, http_Error w "404 page not found" 404)
           | methods => (s, http_Error (set_header w "Allow" (Join methods ", ")) (StatusText 405) 405)
           end
       end.
End Mux.
Arguments Route St : clear implicits.

Section Application.
Context `{GoLib} `{Crypto} `{Env} `{Pg} `{IdPorts} `{UuidText} `{SourceLib} `{Revocations} `{JwtLib}.
Context (srv : Server) (health : Health) (site : Site).
(** [http.RedirectHandler] with status 301. *)
Context (redirect : string -> Request -> Writer -> Writer).
Local Notation State := (St IdDB (list Mail)).
Local Notation handler := (Request -> string -> Writer -> State -> State * Writer).

Definition pattern (method : string) (segments : list string) : Pattern :=
  mkPattern method (Lit_ "" :: map (fun s => if HasPrefix s "{" then Wild s else Lit_ s) segments).
Definition open (method : string) (path : list string) (h : handler) : Route State :=
  mkRoute (pattern method path) (fun _ => h).
Definition protected (method : string) (path : list string)
    (h : JwtClaims -> list string -> handler) : Route State :=
  mkRoute (pattern method path) (fun values => auth srv (fun claims => h claims values)).

Definition server_routes : list (Route State) :=
  [open MethodGet ["health"; "live"] live;
   open MethodGet ["health"; "startup"] (startup health);
   open MethodGet ["health"; "ready"] (ready health);
   open MethodGet ["v1"; "docs"] (swaggerDocs site);
   open MethodGet ["v1"; "openapi.yaml"] (openAPI site)].
Definition registerIdentityRoutes : list (Route State) :=
  match srv_identity srv, srv_signer srv with
  | Some svc, Some _ =>
      ([open MethodPost [".well-known"; "register"] (register srv svc);
        open MethodGet [".well-known"; "jwks.json"] (jwks srv)] ++
       (if srv_testMailer srv then [open MethodGet ["_test"; "mailbox"; "latest"] latestTestMail] else []) ++
       [open MethodPost ["v1"; "auth"; "login"] (login srv svc);
        open MethodPost ["v1"; "auth"; "refresh"] (refresh srv svc);
        open MethodPost ["v1"; "auth"; "password-reset"; "request"] (resetRequest srv svc);
        open MethodPost ["v1"; "auth"; "password-reset"; "confirm"] resetConfirm;
        open MethodPost ["v1"; "auth"; "email-verification"; "confirm"] verifyEmail;
        open MethodPost ["v1"; "auth"; "service-token"] (serviceToken_handler srv svc);
        protected MethodPost ["v1"; "auth"; "logout"] (fun claims _ => logout srv claims);
        protected MethodPost ["v1"; "auth"; "logout-all"] (fun claims _ => logoutAll claims);
        protected MethodGet ["v1"; "auth"; "sessions"] (fun claims _ => sessions_page claims);
        protected MethodGet ["v1"; "users"] (fun claims _ => listUsers claims);
        protected MethodGet ["v1"; "users"; "{user_id}"] getUser;
        protected MethodPost ["v1"; "users"; "{user_id}"; "roles"] assignRole;
        protected MethodDelete ["v1"; "users"; "{user_id}"; "roles"; "{role}"] removeRole;
        protected MethodPatch ["v1"; "users"; "{user_id}"; "status"] changeStatus])%list
  | _, _ => []
  end.
Definition routes : list (Route State) := (server_routes ++ registerIdentityRoutes)%list.

(** [accessLog]: the request's correlation id or a new one, on the response
    before the handler runs. *)
Definition correlationID (r : Request) (s : State) : State * string :=
  let id := Get (rq_Header r) "X-Correlation-ID" in
  if (id =? "")%string || (128 <? len id) then (advance s, uuid_at (tick s)) else (s, id).
Definition accessLog (r : Request) (s : State) : State * Writer :=
  let '(s, cid) := correlationID r s in
  ServeHTTP redirect routes r cid (set_header (new_writer ∅) "X-Correlation-ID" cid) s.
End Application.
