(* ===== verification/IdentityHTTPFacts.v ===== *)
(** * Identity: who gets through

    What [auth] guarantees to the handlers behind it, for every route of the
    server, and how the actor the Gateway forwards is received. *)
From Stdlib Require Import ZArith Lia Ascii String.
From stdpp Require Import base gmap strings list relations pretty.
From S2P Require Import Prelude GoStrings GoErrors GoTime GoBase64 GoCrypto GoJson GoURL GoHttp Tx.
From S2P Require Import IdentityDomain IdentityTables IdentityStore IdentityService IdentityCrypto IdentityHTTP.
From S2P Require Import IdentityFacts IdentityCalls.

Open Scope string_scope.
Open Scope Z_scope.
Open Scope go_scope.

(** ** The gate *)

Definition token_of `{GoLib} (r : Request) : string :=
  TrimSpace (TrimPrefix (Get (rq_Header r) "Authorization") "Bearer ").
Definition human_audience (srv : Server) : string :=
  if (srv_humanAudience srv =? "")%string then "platform-api" else srv_humanAudience srv.
Definition machine_audience (srv : Server) : string :=
  if (srv_machineAudience srv =? "")%string then "platform-internal" else srv_machineAudience srv.

Section Gate.
Context `{GoLib} `{Crypto} `{Env} `{Pg} `{IdPorts} `{UuidText} `{SourceLib} `{Revocations} `{JwtLib}.
Context (srv : Server).
Local Notation State := (St IdDB (list Mail)).

(** The gate takes at most these events from the start of a request: an id for
    the request, the clock for each of two tokens, a look at the revocations, the
    session and the clock for it. *)
Definition gate_events : nat := 6.
(** [n] is an event of the gate of the request that begins in [s]. *)
Definition at_gate (s : State) (n : nat) : Prop := (tick s <= n < tick s + gate_events)%nat.

(** The token library accepts the token at the clock's reading of event [n]:
    under the signer's key of the token's key id, for EdDSA, the signer's issuer
    and the audience, and no leeway. *)
Definition accepted_at (sg : Signer) (n : nat) (raw audience : string) (claims : JwtClaims) : Prop :=
  let options := mkJwtOptions ["EdDSA"] (sg_issuer sg) audience 0 in
  exists kid key, jwt_kid options raw = Some (Some kid) /\ sg_publicKeys sg !! kid = Some key /\
    jwt_claims options raw key (clock_at n) = Some claims.
Lemma Signer_Verify_accepted sg n raw audience claims :
  Signer_Verify sg (clock_at n) raw audience = Ok claims -> accepted_at sg n raw audience claims.
Proof.
  unfold Signer_Verify, accepted_at, signer_options. destruct (jwt_kid _ raw) as [[kid|]|]; [|done..].
  destruct (sg_publicKeys sg !! kid) as [key|] eqn:Hk; [|done].
  destruct (jwt_claims _ raw key _) as [c|] eqn:Hc; [|done]. intros [= <-]. by exists kid, key.
Qed.

(** [vouched s r claims sid]: at the gate of the request the signer vouches for
    its bearer, a human, or the Gateway acting for the human its headers name. *)
Inductive vouched (s : State) (r : Request) : JwtClaims -> string -> Prop :=
| vouched_human sg n claims sid :
    srv_signer srv = Some sg -> token_of r <> "" -> at_gate s n ->
    accepted_at sg n (token_of r) (human_audience srv) claims -> cl_TokenKind claims = "human" ->
    uuid_Parse (cl_SessionID claims) = Some sid -> vouched s r claims sid
| vouched_gateway sg n machine claims :
    srv_signer srv = Some sg -> token_of r <> "" -> at_gate s n ->
    accepted_at sg n (token_of r) (machine_audience srv) machine ->
    cl_TokenKind machine = "service" -> cl_Subject machine = gatewayServiceSubject srv ->
    gatewayActorClaims r machine = Some claims -> vouched s r claims (cl_SessionID claims).
(** The rows hold the session, active and not past its end at the gate of the
    request. *)
Definition live_session (s : State) (sid : string) : Prop :=
  exists row n, sessions (db s) !! sid = Some row /\ at_gate s n /\
    s_status row = SessionActive /\ nanos (clock_at n) < nanos (s_expires_at row).
Definition refused (d : IdDB) (s : State) (w : Writer) : Prop :=
  db s = d /\ (status_of_writer w = 401 \/ status_of_writer w = 503).

Lemma id_problem_status w status title detail :
  w_sent w = None -> status_of_writer (problem w status title detail) = status.
Proof.
  intros Hw. unfold problem, status_of_writer.
  by erewrite encode_json_sent by (by apply WriteHeader_sent).
Qed.

(** A reading of the session at most [m] events after [s]. *)
Definition live_within (m : nat) (s : State) (sid : string) : Prop :=
  exists row n, sessions (db s) !! sid = Some row /\ (tick s <= n < tick s + m)%nat /\
    s_status row = SessionActive /\ nanos (clock_at n) < nanos (s_expires_at row).

Lemma FindSessionByID_tick id (s s' : State) se : FindSessionByID id s = (s', Ok se) -> tick s' = S (tick s).
Proof.
  unfold FindSessionByID, query. intros (s1 & row & Hq & [-> _]%ret_ok)%bind_ok.
  apply mapE_ok, exec_ok in Hq as (_ & d & _ & ->). done.
Qed.

Lemma session_active_live sid (s s' : State) b :
  session_active sid s = (s', b) -> db s' = db s /\ (b = true -> live_within 2 s sid).
Proof.
  unfold session_active. destruct (IsSessionActive sid s) as [s1 [a|e]] eqn:Ha; intros [= <- <-].
  - assert (db s1 = db s) as Hdb.
    { eapply looks_keeps; [apply looks_IsSessionActive | exact Ha]. }
    split; [done|]. intros ->. unfold IsSessionActive in Ha.
    apply bind_ok in Ha as (s2 & se & Hf & (s3 & now & [-> ->]%timeNow_ok & [_ Hu]%ret_ok)%bind_ok).
    assert (tick s2 = S (tick s)) as Ht by (by eapply FindSessionByID_tick).
    apply FindSessionByID_found in Hf as (row & Hrow & ->). exists row, (tick s2).
    symmetry in Hu. apply andb_true_iff in Hu as [Hst%String.eqb_eq Hex%Z.ltb_lt]. split_and!; [done | lia | lia | done | done].
  - split; [|done]. eapply looks_keeps; [apply looks_IsSessionActive | exact Ha].
Qed.

Lemma requireActive_live claims (s s' : State) b :
  requireActiveHumanSession srv claims s = (s', b) ->
  db s' = db s /\ (b = true -> exists sid, uuid_Parse (cl_SessionID claims) = Some sid /\ live_within 3 s sid).
Proof.
  unfold requireActiveHumanSession. destruct (_ && _); [destruct (match _ with Ok _ => _ | Err _ => _ end)|];
    try (intros [= <- <-]; done);
    (destruct (uuid_Parse _) as [sid|]; [|intros [= <- <-]; done]);
    (destruct (srv_identity srv); [|intros [= <- <-]; done]);
    intros [Hdb Hl]%session_active_live; (split; [exact Hdb|]); intros Hb; exists sid; (split; [done|]);
    destruct (Hl Hb) as (row & n & Hrow & Hn & Hst & Hex); exists row, n; cbn in Hn; split_and!; done || lia.
Qed.

(** A handler behind the gate was refused with nothing changed, or ran for
    someone the signer vouches for, whose session the rows hold active. *)
Definition gated (s0 : State) (next : JwtClaims -> handler) r cid w (s' : State) (w' : Writer) : Prop :=
  refused (db s0) s' w' \/
  exists claims sid s1, vouched s0 r claims sid /\ live_session s0 sid /\ db s1 = db s0 /\ next claims r cid w s1 = (s', w').

(** The gate of a request that began in [s0], reached by [s] after at most one
    event. *)
Definition reaches (s0 s : State) (m : nat) : Prop := db s = db s0 /\ (tick s0 <= tick s <= tick s0 + m)%nat.
Lemma live_reached s0 s m k sid : reaches s0 s m -> live_within k s sid -> (m + k <= gate_events)%nat -> live_session s0 sid.
Proof.
  intros [Hd Ht] (row & n & Hrow & Hn & Hst & Hex) Hk. exists row, n. rewrite <- Hd. unfold at_gate.
  split_and!; done || lia.
Qed.

Local Ltac turned_away :=
  intros [= <- <-]; left; split; [cbn; congruence | first [left; by apply id_problem_status | right; by apply id_problem_status]].

Lemma as_gateway_gated s0 sg next r cid w (s s' : State) w' :
  w_sent w = None -> srv_signer srv = Some sg -> token_of r <> "" -> reaches s0 s 2 ->
  as_gateway srv sg (token_of r) next r cid w s = (s', w') -> gated s0 next r cid w s' w'.
Proof.
  intros Hw Hsg Htok [Hd0 Ht0]. unfold as_gateway, verify_now. fold (machine_audience srv).
  destruct (Signer_Verify sg _ _ (machine_audience srv)) as [machine|e] eqn:Hv; [|turned_away].
  apply Signer_Verify_accepted in Hv.
  destruct (_ || _) eqn:Hk; [turned_away|].
  apply orb_false_iff in Hk as [Hk%negb_false_iff%String.eqb_eq Hs%negb_false_iff%String.eqb_eq].
  destruct (gatewayActorClaims r machine) as [actor|] eqn:Ha; [|turned_away].
  destruct (srv_identity srv); [|turned_away].
  destruct (session_active _ _) as [s2 b] eqn:Hact. apply session_active_live in Hact as [Hd2 Hl]. cbn in Hd2.
  destruct b; [|turned_away].
  intros Hn. right. exists actor, (cl_SessionID actor), s2. split_and!; [| |congruence | done].
  - eapply (vouched_gateway _ _ sg (tick s)); try done. unfold at_gate, gate_events. lia.
  - apply (live_reached s0 (advance s) 3 2); [split; [done | cbn; lia] | by apply Hl | unfold gate_events; lia].
Qed.

Lemma auth_gated s0 next r cid w (s s' : State) w' :
  w_sent w = None -> reaches s0 s 1 -> auth srv next r cid w s = (s', w') -> gated s0 next r cid w s' w'.
Proof.
  intros Hw [Hd0 Ht0]. unfold auth, verify_now. destruct (srv_signer srv) as [sg|] eqn:Hsg; [|turned_away].
  fold (token_of r) (human_audience srv).
  destruct (token_of r =? "")%string eqn:Htok; [turned_away|].
  apply String.eqb_neq in Htok. assert (reaches s0 (advance s) 2) as Hnext by (split; [done | cbn; lia]).
  destruct (Signer_Verify sg _ _ (human_audience srv)) as [claims|e] eqn:Hv;
    [|intros Hm; by apply (as_gateway_gated s0 sg _ _ _ _ (advance s))].
  destruct (cl_TokenKind claims =? "human")%string eqn:Hk;
    [apply String.eqb_eq in Hk | intros Hm; by apply (as_gateway_gated s0 sg _ _ _ _ (advance s))].
  apply Signer_Verify_accepted in Hv.
  destruct (requireActiveHumanSession srv claims _) as [s2 b] eqn:Hact.
  apply requireActive_live in Hact as [Hd2 Hl]. cbn in Hd2.
  destruct b; [|turned_away].
  intros Hn. right. destruct (Hl eq_refl) as (sid & Hsid & Hlive).
  exists claims, sid, s2. split_and!; [| |congruence | done].
  - eapply (vouched_human _ _ sg (tick s)); try done. unfold at_gate, gate_events. lia.
  - apply (live_reached s0 (advance s) 2 3); [done | done | unfold gate_events; lia].
Qed.
End Gate.

(** ** The routes *)

(** The paths of users, and those of one's own sessions. *)
Definition of_users (p : Pattern) : bool :=
  match pt_segments p with _ :: _ :: Lit_ name :: _ => (name =? "users")%string | _ => false end.
Definition of_sessions (p : Pattern) : bool :=
  match pt_segments p with
  | [_; _; Lit_ _; Lit_ name] => existsb (String.eqb name) ["logout"; "logout-all"; "sessions"]
  | _ => false
  end.
Definition administers (p : Pattern) : bool := of_users p && negb (pt_method p =? MethodGet)%string.

Section Routes.
Context `{GoLib} `{Crypto} `{Env} `{Pg} `{IdPorts} `{UuidText} `{SourceLib} `{Revocations} `{JwtLib}.
Context (srv : Server) (health : Health) (site : Site) (redirect : string -> Request -> Writer -> Writer).
Local Notation State := (St IdDB (list Mail)).

(** A change of a user's roles or status: the scope, or the refusal. *)
Definition scoped (claims : JwtClaims) (d : IdDB) (s' : State) (w' : Writer) : Prop :=
  hasScope claims "identity:roles:manage" = true \/ db s' = d /\ status_of_writer w' = 403.

Lemma managing_scoped claims values w (s s' : State) k w' :
  w_sent w = None -> managing claims values w s k = (s', w') -> scoped claims (db s) s' w'.
Proof.
  intros Hw. unfold managing, scoped. destruct (hasScope _ _); [auto|]. cbn [negb]. intros [= <- <-].
  right. split; [done | by apply id_problem_status].
Qed.

Lemma route_behind_gate (rt : Route State) :
  In rt (routes srv health site) -> of_users (rt_pattern rt) || of_sessions (rt_pattern rt) = true ->
  exists h, rt_endpoint rt = (fun values => auth srv (fun claims => h claims values)) /\
    (administers (rt_pattern rt) = true -> forall claims values r cid w (s s' : State) w',
      w_sent w = None -> h claims values r cid w s = (s', w') -> scoped claims (db s) s' w').
Proof.
  unfold routes, server_routes, registerIdentityRoutes. intros Hin Hp. revert Hin. rewrite in_app_iff. intros [Hin|Hin].
  - cbn in Hin. decompose [or] Hin; subst; try discriminate Hp; contradiction.
  - destruct (srv_identity srv) as [svc|]; [|contradiction]. destruct (srv_signer srv) as [sg|]; [|contradiction].
    rewrite !in_app_iff in Hin. destruct (srv_testMailer srv); cbn in Hin;
      decompose [or] Hin; subst; try discriminate Hp; try contradiction;
      (eexists; split; [reflexivity|]; intros Ha; try discriminate Ha; intros claims values r cid w s s' w' Hw;
       unfold assignRole, removeRole, changeStatus; by apply managing_scoped).
Qed.

Lemma find_route_in (l : list (Route State)) r rt values : find_route l r = Some (rt, values) -> In rt l.
Proof.
  unfold find_route. destruct (List.find _ l) as [rt0|] eqn:Hf; [|done].
  apply find_some in Hf as [Hin _]. destruct (match_segments _ _); [|done]. by intros [= <- _].
Qed.

Lemma accessLog_routed r (s s' : State) w rt values :
  cleanPath (rq_Path r) = rq_Path r -> find_route (routes srv health site) r = Some (rt, values) ->
  accessLog srv health site redirect r s = (s', w) ->
  exists cid w0 s1, reaches s s1 1 /\ w_sent w0 = None /\ rt_endpoint rt values r cid w0 s1 = (s', w).
Proof.
  intros Hc Hr. unfold accessLog, correlationID, ServeHTTP. rewrite Hc, String.eqb_refl, Hr. cbn [negb].
  destruct (_ || _); intros Hrun; [exists (uuid_at (tick s)) | exists (Get (rq_Header r) "X-Correlation-ID")];
    do 2 eexists; (split; [|split; [|exact Hrun]]); try reflexivity; split; cbn; done || lia.
Qed.

(** C32: nobody acts on users or sessions without a live session.  On every route
    for users and for one's own sessions, for any request and any rows: the
    response is 401 or 503 and no row changed, or the signer vouches for the
    bearer (a human's token of the right audience, or the Gateway's own token
    with the actor headers that hold), the token library accepts that token at
    the clock's reading at the request's gate, and the rows contain the session
    the claims name, active and not past its end at such a reading; and where the route changes a user's roles or
    status, the claims carry identity:roles:manage, or the response is 403 with
    no row changed. *)
Theorem protected_routes_need_a_live_session r (s s' : State) w rt values :
  accessLog srv health site redirect r s = (s', w) ->
  cleanPath (rq_Path r) = rq_Path r -> find_route (routes srv health site) r = Some (rt, values) ->
  of_users (rt_pattern rt) || of_sessions (rt_pattern rt) = true ->
  refused (db s) s' w \/
  exists claims sid, vouched srv s r claims sid /\ live_session s sid /\
    (administers (rt_pattern rt) = true -> scoped claims (db s) s' w).
Proof.
  intros Hrun Hc Hr Hp. destruct (accessLog_routed _ _ _ _ _ _ Hc Hr Hrun) as (cid & w0 & s1 & Hreach & Hw & He).
  destruct (route_behind_gate rt (find_route_in _ _ _ _ Hr) Hp) as (h & Hh & Hscope). rewrite Hh in He.
  apply (auth_gated srv s) in He as [Hrefused | (claims & sid & s2 & Hv & Hl & Hd & Hn)]; [by left| |done..].
  right. exists claims, sid. split_and!; [done..|]. intros Ha. rewrite <- Hd. by eapply Hscope.
Qed.
End Routes.

(** ** The filter on emails *)

Lemma like_anything s : like ["%"%char] s = true.
Proof. induction s as [|c s IH]; [reflexivity | exact IH]. Qed.
Lemma like_escape_cons c p q s :
  like (like_escape (c :: p) ++ q) s = match s with d :: s' => (c =? d)%char && like (like_escape p ++ q) s' | [] => false end.
Proof.
  unfold like_escape at 1. cbn [flat_map]. fold (like_escape p).
  destruct (c =? "\")%char eqn:H1; [apply Ascii.eqb_eq in H1; subst; reflexivity|].
  destruct (c =? "%")%char eqn:H2; [apply Ascii.eqb_eq in H2; subst; reflexivity|].
  destruct (c =? "_")%char eqn:H3; [apply Ascii.eqb_eq in H3; subst; reflexivity|].
  cbn [orb app like]. rewrite H1, H2, H3. by destruct s.
Qed.
Lemma like_escaped_prefix p s : like (bytes (of_bytes (like_escape (bytes p))) ++ ["%"%char]) (bytes s) = HasPrefix s p.
Proof.
  rewrite bytes_of_bytes. unfold HasPrefix. revert s. induction p as [|c p IH]; intros s; [rewrite like_anything; by destruct s|].
  change (bytes (String c p)) with (c :: bytes p). rewrite like_escape_cons.
  destruct s as [|d s]; [done|]. change (bytes (String d s)) with (d :: bytes s). cbn [String.prefix].
  destruct (ascii_dec c d) as [->|Hne].
  - by rewrite Ascii.eqb_refl, IH.
  - by rewrite (proj2 (Ascii.eqb_neq c d) Hne).
Qed.

(** The page of users whose email starts with a text. *)
Definition users_starting_with `{Pg} (status role start : string) (c : option Time) (i : option string) (pageSize : Z)
    (d : IdDB) : result goerr (IdDB * list UserRow) :=
  let found := filter (fun r =>
      (status = "" \/ ur_status r = status) /\
      (role = "" \/ existsb (fun g => (fst g =? ur_id r)%string && (ro_name (snd g) =? role)%string)
                      (IdQueries.active_grants d) = true) /\
      HasPrefix (ur_email_normalized r) start = true /\
      IdQueries.before_cursor (ur_created_at r) (ur_id r) c i = true) (rows (users d)) in
  let? page := limited pageSize (order_by (fun a b => IdQueries.newest_first (IdQueries.user_key a) (IdQueries.user_key b)) found) in
  Ok (d, page).

(** C36: the email filter of the page of users means what it says: whatever text
    the caller sends, with the characters a LIKE pattern gives a meaning or
    without, the rows the query selects are exactly the users whose normalized
    email starts with the trimmed lower-case text, in the same order and under
    the same limit. *)
Theorem email_filter_is_a_prefix `{GoLib} `{UuidText} `{Pg} r q c i pageSize d :
  parsePageQuery r = Ok q ->
  IdQueries.ListUsersPage (pq_status q) (pq_role q) (pq_emailPrefix q) c i pageSize d =
  users_starting_with (pq_status q) (pq_role q) (ToLower (TrimSpace (rq_Query r "email_prefix"))) c i pageSize d.
Proof.
  intros Hq. assert (pq_emailPrefix q = of_bytes (like_escape (bytes (ToLower (TrimSpace (rq_Query r "email_prefix"))))))
    as ->.
  { revert Hq. unfold parsePageQuery. repeat (case_match; try done); by intros [= <-]. }
  unfold IdQueries.ListUsersPage, users_starting_with.
  generalize (ToLower (TrimSpace (rq_Query r "email_prefix"))) as start. intros start. erewrite list_filter_iff; [reflexivity|]. intros row. cbv beta.
  rewrite like_escaped_prefix. split; intros (? & ? & Hp & ?); split_and!; try done; [|by right].
  destruct Hp as [He|Hp]; [|done]. destruct start as [|a start]; [by destruct (ur_email_normalized row)|].
  apply (f_equal bytes) in He. rewrite bytes_of_bytes in He. cbn in He. by repeat case_match.
Qed.
