(* ===== verification/IdentityKeys.v ===== *)
(** * The keys, from Identity to the Gateway

    Identity publishes its key set ([signer.go], [jwks]); the Gateway fetches it
    and verifies tokens with it ([verifier.go]).  The document is read back as
    it was written. *)
From Stdlib Require Import ZArith Lia Ascii String.
From stdpp Require Import base gmap strings list sorting relations pretty.
From S2P Require Import Prelude GoStrings GoErrors GoTime GoBase64 GoJson GoJsonFacts GoCrypto GoURL GoHttp Tx.
From S2P Require Import GatewayVerifier IdentityDomain IdentityTables IdentityStore IdentityService IdentityCrypto IdentityHTTP.
From S2P Require Import IdentityHTTPFacts IdentityWitnesses.

Open Scope string_scope.
Open Scope Z_scope.

Lemma take_string_all n s : Z.of_nat (String.length s) <= n -> take_string n s = s.
Proof.
  revert n. induction s as [|c s IH]; intros n Hn; [done|]. cbn [take_string String.length] in *.
  rewrite (proj2 (Z.leb_gt n 0)) by lia. f_equal. apply IH. lia.
Qed.
Lemma url_char_ascii n : 0 <= n < 64 -> is_ascii_byte (url_char n) = true.
Proof.
  intros Hn. assert (forallb (fun k => is_ascii_byte (url_char (Z.of_nat k))) (seq 0 64) = true) as Hall by reflexivity.
  rewrite forallb_forall in Hall. rewrite <- (Z2Nat.id n) by lia. apply Hall, in_seq. lia.
Qed.
Lemma RawURLEncode_ascii s : is_ascii (RawURLEncode s) = true.
Proof.
  apply is_ascii_spec. unfold RawURLEncode. rewrite bytes_of_bytes, Forall_map.
  eapply Forall_impl; [apply sextets_range|]. apply url_char_ascii.
Qed.

(** Inserting the pairs of a map in any order gives the map. *)
Lemma foldl_insert {A} (l : list (string * A)) : forall m,
  foldl (fun acc p => <[fst p := snd p]> acc) m l = (list_to_map (reverse l) : gmap string A) ∪ m.
Proof.
  induction l as [|[i x] l IH]; intros m; cbn [foldl fst snd]; [symmetry; apply (left_id_L ∅ (∪))|].
  rewrite IH, reverse_cons, list_to_map_app, insert_union_singleton_l, (assoc_L (∪)). reflexivity.
Qed.
Lemma foldl_insert_all {A} (m : gmap string A) l :
  l ≡ₚ map_to_list m -> foldl (fun acc p => <[fst p := snd p]> acc) ∅ l = m.
Proof.
  intros Hl. rewrite foldl_insert, (right_id_L ∅ (∪)), <- (list_to_map_to_list m). apply list_to_map_proper.
  - rewrite reverse_Permutation, Hl. apply NoDup_fst_map_to_list.
  - by rewrite reverse_Permutation.
Qed.

Section Keys.
Context `{GoLib}.

(** A key identifier the Gateway takes, and a key of the right size. *)
Definition publishable (id key : string) : Prop :=
  is_ascii id = true /\ TrimSpace id <> "" /\ String.length key = PublicKeySize.

Definition published (s : Signer) : list (string * string) :=
  omap (fun id => (fun key => (id, key)) <$> sg_publicKeys s !! id) (key_ids s).

Lemma published_all s : published s ≡ₚ map_to_list (sg_publicKeys s).
Proof.
  unfold published, key_ids. rewrite order_by_Permutation.
  assert (forall p, p ∈ map_to_list (sg_publicKeys s) -> sg_publicKeys s !! fst p = Some (snd p)) as Hin
    by (intros [i x]; apply elem_of_map_to_list).
  induction (map_to_list (sg_publicKeys s)) as [|[i x] l IH]; [done|]. cbn.
  pose proof (Hin (i, x)) as Hi. cbn in Hi. rewrite Hi by set_solver. cbn. rewrite IH; [done|]. set_solver.
Qed.

Lemma jwk_fields id key : jwk id key =
  JObj [("alg", jstr "EdDSA"); ("crv", jstr "Ed25519"); ("kid", jstr id); ("kty", jstr "OKP"); ("use", jstr "sig");
        ("x", jstr (RawURLEncode key))].
Proof. reflexivity. Qed.
Lemma JWKS_shape s : JWKS s = JObj [("keys", JArr (map (fun p => jwk (fst p) (snd p)) (published s)))].
Proof.
  assert (forall l, omap (fun id => (fun key => jwk id key) <$> sg_publicKeys s !! id) l =
    map (fun p => jwk (fst p) (snd p)) (omap (fun id => (fun key => (id, key)) <$> sg_publicKeys s !! id) l)) as Hl.
  2: { unfold JWKS, published. by rewrite Hl. }
  intros l. induction l as [|i l IH]; [done|]. cbn. destruct (sg_publicKeys s !! i); cbn; by rewrite IH.
Qed.

Lemma jwk_written d id key : is_ascii id = true -> written (S d) (jwk id key).
Proof.
  intros Hid. rewrite jwk_fields. apply written_obj.
  repeat (constructor; [split; [intros rest; reflexivity|]; cbn [snd]; apply written_str; done || apply RawURLEncode_ascii|]).
  constructor.
Qed.
Lemma JWKS_written s : (forall id key, sg_publicKeys s !! id = Some key -> publishable id key) -> written 3 (JWKS s).
Proof.
  intros Hp. rewrite JWKS_shape. apply written_obj, Forall_singleton. split; [by intros rest|].
  apply written_arr, Forall_map, Forall_forall. intros [i x] Hin. apply jwk_written.
  rewrite published_all in Hin. by apply elem_of_map_to_list, Hp in Hin as [Hi _].
Qed.

Definition read_key (p : string * string) : jwks_key :=
  mkJwksKey "OKP" "Ed25519" (fst p) "sig" "EdDSA" (RawURLEncode (snd p)).
Lemma jwk_read id key : is_ascii id = true ->
  match jwk id key with JObj fs => dec_jwks_key fs | _ => None end = Some (read_key (id, key)).
Proof.
  intros Hid. rewrite jwk_fields. unfold dec_jwks_key, dec_field. cbn [foldl fst snd]. keys_matched.
  cbn [mbind option_bind dec_string jstr]. by rewrite !unquote_quote by (done || apply RawURLEncode_ascii).
Qed.

Lemma collect_published l : forall m,
  Forall (fun p => publishable (fst p) (snd p)) l ->
  collect_keys m (map read_key l) = Ok (foldl (fun acc p => <[fst p := snd p]> acc) m l).
Proof.
  induction l as [|[i x] l IH]; intros m Hl; [done|]. apply Forall_cons in Hl as [(_ & Hi & Hx) Hl]. cbn in Hi, Hx.
  cbn [map collect_keys read_key fst snd]. unfold bad_metadata, read_key. cbn [KTY CRV KID Use Alg X_ fst snd].
  rewrite (proj2 (String.eqb_neq _ _) Hi). cbn -[PublicKeySize RawURLEncode RawURLDecode collect_keys].
  rewrite RawURL_roundtrip. rewrite Hx, Nat.eqb_refl. by apply IH.
Qed.

Lemma document_read s body :
  (forall id key, sg_publicKeys s !! id = Some key -> publishable id key) -> json_parse body = Some (JWKS s) ->
  unmarshal_struct dec_document body = Some (map read_key (published s)).
Proof.
  intros Hp Hb. unfold unmarshal_struct. rewrite Hb, JWKS_shape. cbn [mbind option_bind].
  unfold dec_document, dec_field. cbn [foldl fst snd]. keys_matched. cbn [mbind option_bind dec_slice].
  assert (Forall (fun p => is_ascii (fst p) = true) (published s)) as Hl.
  { apply Forall_forall. intros [i x] Hin. rewrite published_all in Hin. by apply elem_of_map_to_list, Hp in Hin as [Hi _]. }
  induction Hl as [|[i x] l Hi Hl IH]; [done|]. cbn [map mapM fst snd].
  pose proof (jwk_read i x Hi) as Hj. rewrite jwk_fields in *. rewrite Hj. cbn [mbind option_bind].
  by rewrite IH.
Qed.
End Keys.

(** What the key endpoint writes is read as the signer's keys. *)
Lemma published_keys_fetched `{GoLib} srv sg r cid h (s s' : St IdDB (list Mail)) w cache_control :
  srv_signer srv = Some sg -> sg_publicKeys sg <> ∅ ->
  (forall id key, sg_publicKeys sg !! id = Some key -> publishable id key) ->
  jwks srv r cid (new_writer h) s = (s', w) -> len (w_body w) <= 2 ^ 20 ->
  Fetch (Some (status_of_writer w, cache_control, Some (w_body w))) = Ok (sg_publicKeys sg, maxAge cache_control).
Proof.
  intros Hsg Hne Hp Hw Hlen. unfold jwks in Hw. rewrite Hsg in Hw. assert (w = writeJSON (new_writer h) 200 (Ok (JWKS sg))) as -> by congruence.
  assert (w_body (writeJSON (new_writer h) 200 (Ok (JWKS sg))) = json_text (JWKS sg) +:+ String "010" "") as Hbody
    by reflexivity.
  rewrite Hbody in Hlen |- *. unfold Fetch. change (status_of_writer _ =? 200) with true. cbn [negb].
  rewrite take_string_all by done.
  assert (json_parse (json_text (JWKS sg) +:+ String "010" "") = Some (JWKS sg)) as Hj
    by (eapply json_line_round_trip; [by apply JWKS_written | done]).
  rewrite (document_read sg) by done.
  rewrite collect_published.
  - replace (foldl _ _ _) with (sg_publicKeys sg) by (symmetry; apply foldl_insert_all, published_all).
    by rewrite bool_decide_eq_false_2.
  - apply Forall_forall. intros [i x] Hin. rewrite published_all in Hin. by apply elem_of_map_to_list, Hp in Hin.
Qed.

(** The keys Identity publishes are the keys the Gateway verifies with: a
    Gateway that fetches the document Identity's key endpoint writes holds
    exactly the signer's public keys, under the same identifiers, whatever
    their number, as long as the identifiers are ASCII and not blank, the keys
    have the size of Ed25519 and the document is within the Gateway's limit. *)
Theorem gateway_fetches_the_published_keys `{GoLib} srv sg r cid h (s s' : St IdDB (list Mail)) w cache_control :
  srv_signer srv = Some sg -> sg_publicKeys sg <> ∅ ->
  (forall id key, sg_publicKeys sg !! id = Some key -> publishable id key) ->
  jwks srv r cid (new_writer h) s = (s', w) -> len (w_body w) <= 2 ^ 20 ->
  Fetch (Some (status_of_writer w, cache_control, Some (w_body w))) = Ok (sg_publicKeys sg, maxAge cache_control).
Proof. apply published_keys_fetched. Qed.

(** ** Concrete inputs

    The small Identity of [IdentityWitnesses] behind its HTTP interface, with
    one signing key and an administrator's token. *)

#[local] Existing Instance ascii_lib.
#[local] Existing Instance exact_pg.
#[local] Existing Instance i_env.
#[local] Existing Instance i_crypto.
#[local] Existing Instance i_ports.
#[local] Instance i_uuid : UuidText := {| uuid_Parse := fun s => Some s |}.
#[local] Instance i_source : SourceLib := {| src_SplitHost := fun s => Some s; src_Prefix := fun s => Some s |}.
#[local] Instance i_revocations : Revocations :=
  {| is_revoked := fun _ _ => Ok false; revoke_reply := fun _ _ _ => Ok tt |}.
(** One token, of an administrator with the session of the rows. *)
Definition admin_claims : JwtClaims :=
  mkClaims "human" ["identity:users:read"; "identity:roles:manage"] ["admin"] "sess-1" "usr_user-2" "jti-1" None None None.
#[local] Instance i_jwt : JwtLib :=
  {| jwt_kid := fun _ raw => if (raw =? "admin-token")%string then Some (Some "k1") else None;
     jwt_claims := fun _ raw _ _ => if (raw =? "admin-token")%string then Some admin_claims else None |}.

Definition key_1 : string := of_bytes (repeat "k"%char 32).
Definition i_signer : Signer := mkSigner "private" key_1 {["k1" := key_1]} "k1" "identity.local".
Definition i_server : Server :=
  mkServer (Some i_svc) (Some i_signer) false false false false "platform-api" "platform-internal" "svc_gateway" false false.
Definition i_health : Health := mkHealth true [].
Definition i_site : Site := mkSite None None.
Definition i_redirect (path : string) (_ : Request) (w : Writer) : Writer := WriteHeader (set_header w "Location" path) 301.

Definition disabling : Request :=
  mkRequest MethodPatch "/v1/users/usr_user-1/status" "" (Set_ ∅ "Authorization" "Bearer admin-token")
    (quoted "{~status~:~DISABLED~}") 21 "192.0.2.1:443".
Definition disabled_state := accessLog i_server i_health i_site i_redirect disabling i_state.

Lemma protected_routes_need_a_live_session_witness :
  status_of_writer (snd disabled_state) = 204 /\
  (refused (db i_state) (fst disabled_state) (snd disabled_state) \/
   exists claims sid, vouched i_server i_state disabling claims sid /\ live_session i_state sid /\
     scoped claims (db i_state) (fst disabled_state) (snd disabled_state)).
Proof.
  split; [vm_compute; reflexivity|].
  destruct (protected_routes_need_a_live_session i_server i_health i_site i_redirect disabling i_state
    (fst disabled_state) (snd disabled_state)
    (protected i_server MethodPatch ["v1"; "users"; "{user_id}"; "status"] changeStatus) ["usr_user-1"])
    as [Hr | (claims & sid & Hv & Hl & Hs)];
    [apply surjective_pairing | vm_compute; reflexivity | reflexivity | reflexivity | by left|].
  right. exists claims, sid. split; [exact Hv|]. split; [exact Hl|]. apply Hs. reflexivity.
Defined.

Definition underscores : Request :=
  mkRequest MethodGet "/v1/users" "email_prefix=Ada_" ∅ "" 0 "192.0.2.1:443".
Definition underscores_query : pageQuery := mkPageQuery 25 "" "" "ada\_" None uuid_nil.
Lemma email_filter_is_a_prefix_witness :
  parsePageQuery underscores = Ok underscores_query /\
  IdQueries.ListUsersPage "" "" "ada\_" None None 10 i_db = users_starting_with "" "" "ada_" None None 10 i_db.
Proof.
  split; [vm_compute; reflexivity|].
  apply (email_filter_is_a_prefix underscores underscores_query None None 10 i_db). vm_compute. reflexivity.
Defined.

Definition served_keys := jwks i_server underscores "c" (new_writer ∅) i_state.
Lemma gateway_fetches_the_published_keys_witness :
  Fetch (Some (200, "max-age=60", Some (w_body (snd served_keys)))) = Ok ({["k1" := key_1]}, 60 * Second).
Proof.
  change (60 * Second) with (maxAge "max-age=60").
  apply (gateway_fetches_the_published_keys i_server i_signer underscores "c" ∅ i_state (fst served_keys)
           (snd served_keys)).
  - reflexivity.
  - discriminate.
  - intros id key Hk. cbn [i_signer sg_publicKeys] in Hk. apply lookup_singleton_Some in Hk as [<- <-]. split; [reflexivity|]. split; [discriminate | reflexivity].
  - apply surjective_pairing.
  - vm_compute. discriminate.
Defined.

(** ** From the Gateway to Identity

    The headers the Gateway's client writes ([upstream.go]) are the ones
    Identity reads for the human behind the Gateway's own token
    ([gatewayActorClaims]).  Identity takes the actor only when the Gateway's
    token carries every scope of the actor, which the scopes the Gateway asks
    for do not give it for every role. *)
From S2P Require Import GatewayDomain GatewayUpstream GatewayConfig GatewayOrders.

Section Hop.
Context `{GoLib} `{UpstreamEnv} `{UuidText}.

(** The scopes Identity reads are those of the actor. *)
Lemma scopes_survive token a input :
  injects_trace_only -> forallb (MatchString OrdersAuth.scopePattern) (Scopes (Normalized a)) = true ->
  Fields (Get (otel_inject (request_headers token (Some a) input)) "X-StreamWeave-Scopes") = Scopes (Normalized a).
Proof.
  intros Hinj Hsc. unfold Get. rewrite Values_injected by (done || set_solver).
  destruct (request_headers_values token a input) as (_ & _ & _ & Hv). rewrite Hv. cbn [hd].
  apply Fields_Join, Forall_forall. intros s Hs%list_elem_of_In. rewrite forallb_forall in Hsc.
  by apply scope_plain, Hsc.
Qed.

(** An actor is taken only under a token of the Gateway with all its scopes. *)
Lemma actor_scopes_are_granted r machine claims :
  gatewayActorClaims r machine = Some claims -> forall s, s ∈ cl_Scopes claims -> s ∈ cl_Scopes machine.
Proof.
  unfold gatewayActorClaims. repeat case_match; try done. intros [= <-] scope Hs. cbn in Hs.
  match goal with E : negb (forallb _ _) = false |- _ => apply negb_false_iff in E; rewrite forallb_forall in E;
    apply list_elem_of_In, E, andb_true_iff in Hs as [_ Hs] end.
  by apply bool_decide_eq_true in Hs.
Qed.

(** Under a token with the scopes the Gateway asks for by default, the requests
    of every actor with identity:users:read are refused by Identity: an
    administrator cannot sign out through the Gateway. *)
Lemma administrators_are_refused_through_the_gateway r token a input machine :
  injects_trace_only -> rq_Header r = otel_inject (request_headers token (Some a) input) ->
  forallb (MatchString OrdersAuth.scopePattern) (Scopes (Normalized a)) = true ->
  "identity:users:read" ∈ Scopes (Normalized a) -> (forall s, s ∈ cl_Scopes machine -> s ∈ default_scopes) ->
  gatewayActorClaims r machine = None.
Proof.
  intros Hinj Hr Hsc Hin Hm. destruct (gatewayActorClaims r machine) as [claims|] eqn:Hg; [|done]. exfalso.
  assert (cl_Scopes claims = Scopes (Normalized a)) as Hcl.
  { rewrite <- (scopes_survive token a input), <- Hr by done.
    revert Hg. unfold gatewayActorClaims. repeat case_match; try done. by intros [= <-]. }
  apply actor_scopes_are_granted with (s := "identity:users:read"), Hm in Hg; [|by rewrite Hcl].
  revert Hg. unfold default_scopes. rewrite !elem_of_cons, elem_of_nil. naive_solver.
Qed.
End Hop.
