(* ===== verification/IdentityConfig.v ===== *)
(** * Identity: configuration

    [apps/identity/internal/platform/config/config.go]: reading the environment
    and refusing what is unsafe in staging and production. *)
From Stdlib Require Import ZArith Lia Ascii String.
From stdpp Require Import base gmap strings list pretty.
From S2P Require Import Prelude GoStrings GoErrors GoTime GoURL GoHttp GatewayConfig.

Open Scope string_scope.
Open Scope Z_scope.

(** [mail.ParseAddress]: the address it found. *)
Class MailLib := { mail_Parse : string -> option string }.

Record Config := mkConfig {
  HTTPAddr : string; DatabaseURL : string; MigrationDir : string; RunMigrations : bool; MigrationsOnly : bool;
  Environment : string; LogLevel : string; ShutdownTimeout : Z; ReadinessTimeout : Z; MetricsPath : string;
  OpenAPIPath : string; DemoRegistration : bool; EmergencyRevocation : bool; Issuer : string; HumanAudience : string;
  MachineAudience : string; SigningKeyPath : string; SigningKeyID : string; SigningKeyHistoryDir : string;
  TrustProxyHeaders : bool; RedisURL : string; KafkaBrokers : string; OTelEndpoint : string; OTelInsecure : bool;
  MailerMode : string; TestMailerEnabled : bool; SMTPHost : string; SMTPPort : Z; SMTPUsername : string;
  SMTPPassword : string; SMTPFrom : string; PublicAppURL : string; RateLoginFailures : Z; RateRefreshMinute : Z;
  RateResetHour : Z; RateServiceMinute : Z; RateLoginSource : Z; RateRefreshSource : Z; RateResetSource : Z;
  RateServiceSource : Z
}.
Definition maxRateLimit : Z := 1000000.

Section Config.
Context `{GoLib} `{DurationLib} `{MailLib}.

Definition value (source : Source) (key fallback : string) : string :=
  match source key with
  | Some v => if negb (TrimSpace v =? "")%string then v else fallback
  | None => fallback
  end.
Definition duration (source : Source) (key : string) (fallback : Z) : Z :=
  match source key with
  | Some v => if (TrimSpace v =? "")%string then fallback else default (-1) (ParseDuration v)
  | None => fallback
  end.
Definition boolean (source : Source) (key : string) (fallback : bool) : bool :=
  match source key with
  | Some v => if (TrimSpace v =? "")%string then fallback else default false (ParseBool v)
  | None => fallback
  end.
Definition validateBoolean (source : Source) (key : string) : option goerr :=
  match source key with
  | Some v => if (TrimSpace v =? "")%string then None
              else match ParseBool v with
                   | Some _ => None
                   | None => Some (NewErr (key +:+ " must be a boolean"))
                   end
  | None => None
  end.
Definition integer (source : Source) (key : string) (fallback : Z) : Z :=
  match source key with
  | Some v => if (TrimSpace v =? "")%string then fallback else default (-1) (Atoi v)
  | None => fallback
  end.

Definition postgres_url (raw : string) : bool :=
  match Parse raw with
  | Some u => (u_Scheme u =? "postgres")%string || (u_Scheme u =? "postgresql")%string
  | None => false
  end.
Definition sslmode (raw : string) : string :=
  match Parse raw with Some u => Query_Get (ParseQuery (u_RawQuery u)) "sslmode" | None => "" end.
Definition public_url (raw : string) : bool :=
  match Parse raw with
  | Some u => ((u_Scheme u =? "http")%string || (u_Scheme u =? "https")%string) && negb (blank (u_Host u))
  | None => false
  end.
Definition plain_address (from : string) : bool :=
  match mail_Parse from with Some address => (address =? TrimSpace from)%string | None => false end.

Definition rate_limits (c : Config) : list Z :=
  [RateLoginFailures c; RateRefreshMinute c; RateResetHour c; RateServiceMinute c; RateLoginSource c;
   RateRefreshSource c; RateResetSource c; RateServiceSource c].

(** The checks of [Validate], in order. *)
Definition checks (c : Config) : list (option goerr) :=
  let production := (Environment c =? "production")%string in
  let smtp := (MailerMode c =? "smtp")%string in
    [refuse_if (blank (HTTPAddr c)) "IDENTITY_HTTP_ADDR must not be empty";
     refuse_if (blank (DatabaseURL c)) "IDENTITY_DATABASE_URL must not be empty";
     refuse_if (negb (postgres_url (DatabaseURL c))) "IDENTITY_DATABASE_URL must be a PostgreSQL URL";
     refuse_if (((Environment c =? "staging")%string || production) &&
                negb (sslmode (DatabaseURL c) =? "verify-full")%string)
       "IDENTITY_DATABASE_URL must use sslmode=verify-full in staging and production";
     refuse_if (blank (MigrationDir c)) "IDENTITY_MIGRATION_DIR must not be empty";
     refuse_if ((ShutdownTimeout c <=? 0) || (ReadinessTimeout c <=? 0)) "Identity timeouts must be positive";
     refuse_if ((MetricsPath c =? "")%string || negb (HasPrefix (MetricsPath c) "/"))
       "IDENTITY_METRICS_PATH must be an absolute HTTP path";
     refuse_if (production && DemoRegistration c) "demo registration must be disabled in production";
     refuse_if (MigrationsOnly c && negb (RunMigrations c))
       "IDENTITY_MIGRATIONS_ONLY requires IDENTITY_RUN_MIGRATIONS=true";
     refuse_if (production && blank (SigningKeyPath c)) "IDENTITY_SIGNING_KEY_PATH is required in production";
     refuse_if (negb (MailerMode c =? "simulated")%string && negb smtp)
       "IDENTITY_MAILER_MODE must be simulated or smtp";
     refuse_if (TestMailerEnabled c && negb (MailerMode c =? "simulated")%string)
       "IDENTITY_TEST_MAILER_ENABLED requires simulated mailer mode";
     refuse_if (production && negb smtp) "IDENTITY_MAILER_MODE must be smtp in production";
     refuse_if (smtp && (blank (SMTPHost c) || (SMTPPort c <=? 0) || blank (SMTPFrom c)))
       "SMTP host, port, and from are required when SMTP mailer is enabled";
     refuse_if (smtp && ContainsAnyCRLF (SMTPFrom c)) "IDENTITY_SMTP_FROM must not contain newlines";
     refuse_if (smtp && negb (plain_address (SMTPFrom c))) "IDENTITY_SMTP_FROM must be a plain email address";
     refuse_if (production && (blank (SMTPUsername c) || blank (SMTPPassword c)))
       "SMTP username and password are required in production";
     refuse_if (negb (public_url (PublicAppURL c))) "IDENTITY_PUBLIC_APP_URL must be an HTTP or HTTPS URL";
     refuse_if (blank (Issuer c) || blank (HumanAudience c) || blank (MachineAudience c) || blank (SigningKeyID c))
       "Identity issuer, audiences, and signing key ID are required";
     refuse_if (existsb (fun limit => (limit <=? 0) || (maxRateLimit <? limit)) (rate_limits c))
       ("Identity rate limits must be between 1 and " +:+ pretty maxRateLimit)].
Definition Validate (c : Config) : option goerr := first_error (checks c).

Definition read_config (source : Source) : Config := {|
  HTTPAddr := value source "IDENTITY_HTTP_ADDR" ":8080";
  DatabaseURL := value source "IDENTITY_DATABASE_URL" "";
  MigrationDir := value source "IDENTITY_MIGRATION_DIR" "database/identity/migrations";
  RunMigrations := boolean source "IDENTITY_RUN_MIGRATIONS" true;
  MigrationsOnly := boolean source "IDENTITY_MIGRATIONS_ONLY" false;
  Environment := value source "IDENTITY_ENVIRONMENT" "development";
  LogLevel := value source "IDENTITY_LOG_LEVEL" "info";
  ShutdownTimeout := duration source "IDENTITY_SHUTDOWN_TIMEOUT" (10 * Second);
  ReadinessTimeout := duration source "IDENTITY_READINESS_TIMEOUT" (2 * Second);
  MetricsPath := value source "IDENTITY_METRICS_PATH" "/metrics";
  OpenAPIPath := value source "IDENTITY_OPENAPI_PATH" "contracts/openapi/identity.openapi.yaml";
  DemoRegistration := boolean source "IDENTITY_DEMO_REGISTRATION_ENABLED" false;
  EmergencyRevocation := boolean source "IDENTITY_EMERGENCY_REVOCATION_ENABLED" true;
  Issuer := value source "IDENTITY_ISSUER" "identity.local";
  HumanAudience := value source "IDENTITY_HUMAN_AUDIENCE" "platform-api";
  MachineAudience := value source "IDENTITY_MACHINE_AUDIENCE" "platform-internal";
  SigningKeyPath := value source "IDENTITY_SIGNING_KEY_PATH" "";
  SigningKeyID := value source "IDENTITY_SIGNING_KEY_ID" "identity-local";
  SigningKeyHistoryDir := value source "IDENTITY_SIGNING_KEY_HISTORY_DIR" "";
  TrustProxyHeaders := boolean source "IDENTITY_TRUST_PROXY_HEADERS" false;
  RedisURL := value source "IDENTITY_REDIS_URL" "redis://localhost:6379/0";
  KafkaBrokers := value source "IDENTITY_KAFKA_BROKERS" "localhost:9092";
  OTelEndpoint := value source "IDENTITY_OTEL_ENDPOINT" "";
  OTelInsecure := boolean source "IDENTITY_OTEL_INSECURE" false;
  MailerMode := value source "IDENTITY_MAILER_MODE" "simulated";
  TestMailerEnabled := boolean source "IDENTITY_TEST_MAILER_ENABLED" false;
  SMTPHost := value source "IDENTITY_SMTP_HOST" "";
  SMTPPort := integer source "IDENTITY_SMTP_PORT" 1025;
  SMTPUsername := value source "IDENTITY_SMTP_USERNAME" "";
  SMTPPassword := value source "IDENTITY_SMTP_PASSWORD" "";
  SMTPFrom := value source "IDENTITY_SMTP_FROM" "identity@localhost";
  PublicAppURL := value source "IDENTITY_PUBLIC_APP_URL" "http://localhost:3000";
  RateLoginFailures := integer source "IDENTITY_RATE_LOGIN_FAILURES" 5;
  RateRefreshMinute := integer source "IDENTITY_RATE_REFRESH_PER_MINUTE" 30;
  RateResetHour := integer source "IDENTITY_RATE_RESET_PER_HOUR" 3;
  RateServiceMinute := integer source "IDENTITY_RATE_SERVICE_TOKEN_PER_MINUTE" 30;
  RateLoginSource := integer source "IDENTITY_RATE_LOGIN_SOURCE_PER_WINDOW" 30;
  RateRefreshSource := integer source "IDENTITY_RATE_REFRESH_SOURCE_PER_MINUTE" 120;
  RateResetSource := integer source "IDENTITY_RATE_RESET_SOURCE_PER_HOUR" 12;
  RateServiceSource := integer source "IDENTITY_RATE_SERVICE_SOURCE_PER_MINUTE" 120
|}.
Definition boolean_keys : list string :=
  ["IDENTITY_RUN_MIGRATIONS"; "IDENTITY_MIGRATIONS_ONLY"; "IDENTITY_DEMO_REGISTRATION_ENABLED";
   "IDENTITY_EMERGENCY_REVOCATION_ENABLED"; "IDENTITY_TRUST_PROXY_HEADERS"; "IDENTITY_TEST_MAILER_ENABLED";
   "IDENTITY_OTEL_INSECURE"].

Definition Load (source : Source) : result goerr Config :=
  let c := read_config source in
  match first_error (map (validateBoolean source) boolean_keys ++ [Validate c])%list with
  | Some e => Err e
  | None => Ok c
  end.

Definition SafeSummary (c : Config) : string :=
  "environment=" +:+ Environment c +:+ " http_addr=" +:+ HTTPAddr c +:+ " migrations=" +:+
  (if RunMigrations c then "true" else "false").

(** ** What a configuration that loads guarantees *)

Record production_ready (c : Config) : Prop := {
  pr_database : sslmode (DatabaseURL c) = "verify-full";
  pr_registration : DemoRegistration c = false;
  pr_key : blank (SigningKeyPath c) = false;
  pr_mail : MailerMode c = "smtp" /\ TestMailerEnabled c = false /\ blank (SMTPHost c) = false /\
            blank (SMTPUsername c) = false /\ blank (SMTPPassword c) = false
}.
End Config.

(** A configuration that loads bounds every rate limit; in production it
    verifies the database's certificate, has no demo registration, signs with a
    stored key and mails through an authenticated relay. *)
Theorem identity_production_is_safe `{GoLib} `{DurationLib} `{MailLib} source c :
  Load source = Ok c ->
  Forall (fun limit => 0 < limit <= maxRateLimit) (rate_limits c) /\
  (Environment c = "production" -> production_ready c).
Proof.
  unfold Load. destruct (first_error _) as [e|] eqn:Hf; [done|]. intros [= <-].
  pose proof (first_error_none _ 7 _ Hf eq_refl) as Hval. clear Hf.
  set (c := read_config source) in *. clearbody c.
  assert (forall i b text, checks c !! i = Some (refuse_if b text) -> b = false) as Hcheck.
  { intros i b text Hi. apply (refuse_if_none b text). exact (first_error_none _ i _ Hval Hi). }
  split.
  - pose proof (Hcheck 19%nat _ _ eq_refl) as Hr. apply Forall_forall. intros limit Hin%list_elem_of_In.
    destruct ((limit <=? 0) || (maxRateLimit <? limit)) eqn:Hb.
    + assert (existsb (fun limit => (limit <=? 0) || (maxRateLimit <? limit)) (rate_limits c) = true)
        by (apply existsb_exists; eauto). congruence.
    + apply orb_false_iff in Hb as [Hb1%Z.leb_gt Hb2%Z.ltb_ge]. lia.
  - intros Henv%String.eqb_eq.
    pose proof (Hcheck 3%nat _ _ eq_refl) as Hssl. pose proof (Hcheck 7%nat _ _ eq_refl) as Hdemo.
    pose proof (Hcheck 9%nat _ _ eq_refl) as Hkey. pose proof (Hcheck 11%nat _ _ eq_refl) as Htest.
    pose proof (Hcheck 12%nat _ _ eq_refl) as Hmode. pose proof (Hcheck 13%nat _ _ eq_refl) as Hsmtp.
    pose proof (Hcheck 16%nat _ _ eq_refl) as Hauth.
    rewrite Henv, ?orb_true_r in *. cbn [andb] in *.
    apply negb_false_iff, String.eqb_eq in Hssl. apply negb_false_iff in Hmode. rewrite Hmode in *. cbn [andb] in *.
    apply String.eqb_eq in Hmode. apply orb_false_iff in Hsmtp as [[Hh _]%orb_false_iff _].
    apply orb_false_iff in Hauth as [Hu Hp].
    split; [done | done | done|]. split_and!; try done.
    rewrite Hmode in Htest. apply andb_false_iff in Htest as [Ht|Ht]; [done | discriminate Ht].
Qed.

(** An environment by another name passes every check meant for production:
    Identity loads with demo registration, a signing key of its own making and
    simulated mail. *)
Definition renamed_production : Source := fun key =>
  if (key =? "IDENTITY_ENVIRONMENT")%string then Some "prod"
  else if (key =? "IDENTITY_DATABASE_URL")%string then Some "postgres://db/identity"
  else if (key =? "IDENTITY_DEMO_REGISTRATION_ENABLED")%string then Some "true"
  else None.
Lemma unknown_environment_escapes_the_checks :
  let lib := ascii_lib in let mail := {| mail_Parse := fun s => Some s |} in
  forall durations : DurationLib, exists c, Load renamed_production = Ok c /\ Environment c = "prod" /\
    DemoRegistration c = true /\ SigningKeyPath c = "" /\ MailerMode c = "simulated".
Proof. intros lib mail durations. eexists. split; [vm_compute; reflexivity | done]. Qed.
