(* ===== verification/IdentityMail.v ===== *)
(** * Identity: mail

    [apps/identity/internal/platform/runtime]: the texts of the two mails with
    their links ([mail_templates.go]), the mailer that keeps them for tests and
    the one that hands them to an SMTP relay ([runtime.go]).  Shown: a link
    carries its token, no text of a user becomes markup, the wrapped picture is
    the picture, and an SMTP conversation delivers the rendered message once,
    with the credentials written only where they are protected. *)
From Stdlib Require Import ZArith Lia Ascii String.
From stdpp Require Import base gmap strings list pretty.
From S2P Require Import Prelude GoStrings GoErrors GoBase64 GoURL GoURLText GoHttp Tx GoSmtp.
From S2P Require Import IdentityHTTP.

Open Scope string_scope.
Open Scope Z_scope.
Open Scope go_scope.

(** ** Texts *)

(** [template.HTMLEscapeString] *)
Definition html_byte (c : ascii) : string :=
  if (c =? "000")%char then of_bytes ["239"; "191"; "189"]%char
  else if (c =? "034")%char then "&#34;"
  else if (c =? "'")%char then "&#39;"
  else if (c =? "&")%char then "&amp;"
  else if (c =? "<")%char then "&lt;"
  else if (c =? ">")%char then "&gt;"
  else String c "".
Definition HTMLEscapeString (s : string) : string :=
  of_bytes (flat_map (fun c => bytes (html_byte c)) (bytes s)).

Record emailContent := mkEmailContent { Subject : string; Text : string; HTML : string }.

Definition actionURL (base path token : string) : string :=
  let plain := trim_right_byte "/" base +:+ "/" +:+ trim_left_byte "/" path +:+ "?token=" +:+ QueryEscape token in
  match ParseURL (trim_right_byte "/" base) with
  | None => plain
  | Some parsed =>
      let u := f_URL parsed in
      if (u_Scheme u =? "")%string || (u_Host u =? "")%string then plain
      else
        let query := Query_Set (ParseQuery (u_RawQuery u)) "token" token in
        String_ (mkFullURL
          (mkURL (u_Scheme u) (u_Opaque u) (u_Host u)
             (trim_right_byte "/" (u_Path u) +:+ "/" +:+ trim_left_byte "/" path) (Query_Encode query))
          (f_User parsed) (f_RawPath parsed) (f_ForceQuery parsed) (f_OmitHost parsed)
          (f_Fragment parsed) (f_RawFragment parsed))
  end.

Definition newline : string := String LF "".
Definition renderText (name title intro link note supportEmail : string) : string :=
  Join ["StreamWeave"; ""; "Hello " +:+ name +:+ ","; ""; title; intro; ""; link; ""; note; "";
        "Need help? Contact " +:+ supportEmail +:+ "."; "";
        "© 2026 StreamWeave · This is an automated message."; ""] newline.
Definition renderHTML (name title intro button link note supportEmail : string) : string :=
  quoted "<!doctype html>
<html lang=~en~>
<head><meta charset=~utf-8~><meta name=~viewport~ content=~width=device-width,initial-scale=1~><title>" +:+
  HTMLEscapeString title +:+
  quoted "</title></head>
<body style=~margin:0;background:#f5f7fb;color:#111827;font-family:Inter,Segoe UI,Arial,sans-serif;line-height:1.6~>
<div style=~display:none;max-height:0;overflow:hidden;opacity:0~>" +:+
  HTMLEscapeString intro +:+
  quoted "</div>
<table role=~presentation~ width=~100%~ cellspacing=~0~ cellpadding=~0~ style=~background:#f5f7fb;padding:40px 16px~><tr><td align=~center~>
<table role=~presentation~ width=~100%~ cellspacing=~0~ cellpadding=~0~ style=~max-width:620px;background:#ffffff;border:1px solid #e5e7eb;border-radius:20px;overflow:hidden;box-shadow:0 12px 32px rgba(15,23,42,.08)~>
<tr><td style=~background:#0b1020;padding:28px 36px~><table role=~presentation~ cellspacing=~0~ cellpadding=~0~><tr><td style=~vertical-align:middle~><img src=~cid:platform-logo~ width=~52~ height=~52~ alt=~StreamWeave~ style=~display:block;border:0;border-radius:14px~></td><td style=~padding-left:14px;vertical-align:middle;color:#ffffff~><div style=~font-size:18px;font-weight:700;letter-spacing:-.2px~>StreamWeave</div><div style=~font-size:12px;color:#9eeeff;letter-spacing:1.5px;text-transform:uppercase~>Commerce Platform</div></td></tr></table></td></tr>
<tr><td style=~padding:44px 36px 36px~><p style=~margin:0 0 10px;color:#64748b;font-size:14px~>Hello " +:+
  HTMLEscapeString name +:+
  quoted ",</p><h1 style=~margin:0 0 14px;font-size:32px;line-height:1.15;letter-spacing:-.8px;color:#0f172a~>" +:+
  HTMLEscapeString title +:+
  quoted "</h1><p style=~margin:0 0 30px;color:#475569;font-size:16px~>" +:+
  HTMLEscapeString intro +:+
  quoted "</p>
<p style=~margin:0 0 30px~><a href=~" +:+
  HTMLEscapeString link +:+
  quoted "~ style=~display:inline-block;background:#06b6d4;color:#06202b;text-decoration:none;border-radius:10px;padding:14px 22px;font-weight:800;box-shadow:0 6px 16px rgba(6,182,212,.25)~>" +:+
  HTMLEscapeString button +:+
  quoted " &nbsp;→</a></p>
<table role=~presentation~ width=~100%~ cellspacing=~0~ cellpadding=~0~ style=~background:#f8fafc;border:1px solid #e2e8f0;border-radius:12px~><tr><td style=~padding:18px 20px;color:#475569;font-size:14px~><strong style=~color:#1e293b~>Security note</strong><br>" +:+
  HTMLEscapeString note +:+
  quoted "</td></tr></table></td></tr>
<tr><td style=~padding:24px 36px 30px;border-top:1px solid #eef2f7;color:#64748b;font-size:12px;line-height:1.7~>Need help? Contact <a href=~mailto:" +:+
  HTMLEscapeString supportEmail +:+
  quoted "~ style=~color:#0891b2;text-decoration:none~>" +:+
  HTMLEscapeString supportEmail +:+
  quoted "</a>.<br>This is an automated security message from StreamWeave. Please do not reply.<br><span style=~color:#94a3b8~>© 2026 StreamWeave</span></td></tr>
</table></td></tr></table></body></html>".

Definition verify_intro := "Confirm your email address to activate your StreamWeave account.".
Definition verify_note :=
  "This link expires in 24 hours and can be used only once. If you did not create this account, you can safely ignore this message.".
Definition reset_intro := "Use the secure link below to choose a new password.".
Definition reset_note :=
  "This link expires in 30 minutes and can be used only once. If you did not request a reset, no action is required.".

(** The part of an address before its first at sign, if there is any. *)
Definition greeting_name (recipient : string) : string :=
  match Cut recipient "@" with
  | (name, Some _) => if (name =? "")%string then "there" else name
  | (_, None) => "there"
  end.
Definition renderIdentityEmailWithSupport (kind recipient token publicAppURL verificationPath resetPath supportEmail : string)
  : result goerr emailContent :=
  let name := greeting_name recipient in
  if (kind =? "email-verification")%string then
    let link := actionURL publicAppURL verificationPath token in
    Ok (mkEmailContent "Verify your StreamWeave account"
          (renderText name "Verify your account" verify_intro link verify_note supportEmail)
          (renderHTML name "Verify your account" verify_intro "Verify email address" link verify_note supportEmail))
  else if (kind =? "password-reset")%string then
    let link := actionURL publicAppURL resetPath token in
    Ok (mkEmailContent "Reset your StreamWeave password"
          (renderText name "Reset your password" reset_intro link reset_note supportEmail)
          (renderHTML name "Reset your password" reset_intro "Reset password" link reset_note supportEmail))
  else Err (NewErr "unsupported identity email kind").
Definition renderIdentityEmail (kind recipient token publicAppURL verificationPath resetPath : string)
  : result goerr emailContent :=
  renderIdentityEmailWithSupport kind recipient token publicAppURL verificationPath resetPath "support@example.com".

(** The loop of [wrapMIMEBase64]: at most 76 characters at a time.  As many
    rounds as there are characters are enough. *)
Fixpoint wrap_lines (fuel : nat) (encoded : list ascii) : list (list ascii) :=
  match fuel, encoded with
  | S fuel, _ :: _ => take 76 encoded :: wrap_lines fuel (drop 76 encoded)
  | _, _ => []
  end.
Definition wrapMIMEBase64 (value : string) : string :=
  let encoded := bytes (StdEncode value) in
  of_bytes (flat_map (fun line => line ++ [CR; LF])%list (wrap_lines (length encoded) encoded)).

(** ** The mailer for tests *)

Section Simulated.
Context `{GoLib}.

Record mailMessage := mkMailMessage { mm_kind : string; mm_recipient : string; mm_token : string }.
Definition SimulatedMailer_Send (ctx : option goerr) (kind recipient token : string) (m : gmap string mailMessage)
  : gmap string mailMessage * result goerr unit :=
  match ctx with
  | Some e => (m, Err e)
  | None =>
      if (TrimSpace recipient =? "")%string || (TrimSpace token =? "")%string
      then (m, Err (NewErr "mailer recipient and token are required"))
      else (<[messageKey kind recipient := mkMailMessage kind recipient token]> m, Ok tt)
  end.
Definition SimulatedMailer_Latest (ctx : option goerr) (kind recipient : string) (m : gmap string mailMessage)
  : result goerr string :=
  match ctx with
  | Some e => Err e
  | None => match m !! messageKey kind recipient with
            | Some message => Ok (mm_token message)
            | None => Err (NewErr "mail not found")
            end
  end.
End Simulated.

(** ** The mailer with a relay *)

Record SMTPMailer := mkSMTPMailer {
  sm_host : string; sm_port : Z; sm_username : string; sm_password : string; sm_from : string;
  sm_publicAppURL : string; sm_supportEmail : string; sm_verificationPath : string; sm_resetPath : string
}.
Definition NewConfiguredSMTPMailer (host : string) (port : Z) (username password from publicAppURL : string) : SMTPMailer :=
  mkSMTPMailer host port username password from publicAppURL from "/verify-email" "/reset-password".
Definition NewSMTPMailer (host : string) (port : Z) (username password from : string) : SMTPMailer :=
  NewConfiguredSMTPMailer host port username password from "http://localhost:3000".

Definition mail_boundary : string := "identity-mail-boundary".
Definition alternative_boundary : string := mail_boundary +:+ "-alternative".
Definition mail_lines (l : list string) : string := Join l CRLF.

(** The message that [Send] formats. *)
Definition mail_body (m : SMTPMailer) (platformLogo recipient : string) (content : emailContent) : string :=
  mail_lines
    ["From: " +:+ sm_from m; "To: " +:+ recipient; "Reply-To: " +:+ sm_supportEmail m; "Subject: " +:+ Subject content;
     "MIME-Version: 1.0"; quoted ("Content-Type: multipart/related; boundary=~" +:+ mail_boundary +:+ "~"); "";
     "--" +:+ mail_boundary;
     quoted ("Content-Type: multipart/alternative; boundary=~" +:+ alternative_boundary +:+ "~"); "";
     "--" +:+ alternative_boundary;
     "Content-Type: text/plain; charset=UTF-8"; "Content-Transfer-Encoding: 8bit"; ""; Text content;
     "--" +:+ alternative_boundary;
     "Content-Type: text/html; charset=UTF-8"; "Content-Transfer-Encoding: 8bit"; ""; HTML content;
     "--" +:+ alternative_boundary +:+ "--";
     "--" +:+ mail_boundary;
     quoted "Content-Type: image/png; name=~platform-logo.png~"; "Content-Transfer-Encoding: base64";
     "Content-ID: <platform-logo>"; quoted "Content-Disposition: inline; filename=~platform-logo.png~"; "";
     wrapMIMEBase64 platformLogo; "--" +:+ mail_boundary +:+ "--"; ""].

Section Relay.
Context `{SmtpPeer} (platformLogo : string).
Local Notation Prog := (M unit Client).

Definition context_ (text : string) (e : goerr) : goerr := Errorf_ww (NewErr text) e.

(** [Send] once the connection stands: the greeting, TLS where the relay offers
    it, and authentication where there is a user name; *)
Definition smtp_preamble (m : SMTPMailer) : Prog unit :=
  let! _ := mapE (context_ "create SMTP client") NewClient in
  let! tls := Extension "STARTTLS" in
  let! _ := if tls then mapE (context_ "start SMTP TLS") StartTLS else ret tt in
  if negb (sm_username m =? "")%string
  then mapE (context_ "authenticate with SMTP relay") (Auth (sm_username m) (sm_password m) (sm_host m))
  else ret tt.
(** then the envelope; *)
Definition smtp_envelope (m : SMTPMailer) (recipient : string) : Prog unit :=
  let! _ := mapE (context_ "set SMTP sender") (Mail_ (sm_from m)) in
  let! _ := mapE (context_ "set SMTP recipient") (Rcpt recipient) in
  mapE (context_ "open SMTP message") Data_.
(** then the message and the end of the session. *)
Definition smtp_transfer (body : string) : Prog unit :=
  let! written := try_ (write_message body) in
  match written with
  | Err e => let! _ := try_ close_message in fail (context_ "write SMTP message" e)
  | Ok _ =>
      let! _ := mapE (context_ "close SMTP message") close_message in
      mapE (context_ "close SMTP session") Quit
  end.
Definition SMTPMailer_Send (m : SMTPMailer) (ctx : option goerr) (kind recipient token : string) : Prog unit :=
  let! _ := lift (match ctx with Some e => Err e | None => Ok tt end) in
  let! content := lift (renderIdentityEmailWithSupport kind recipient token (sm_publicAppURL m)
                          (sm_verificationPath m) (sm_resetPath m) (sm_supportEmail m)) in
  let! _ := mapE (context_ "connect to SMTP relay")
              (event (fun n => smtp_dial n (sm_host m +:+ ":" +:+ Itoa (sm_port m)))) in
  let! _ := put_loc (newClient (sm_host m)) in
  let! _ := smtp_preamble m in
  let! _ := smtp_envelope m recipient in
  smtp_transfer (mail_body m platformLogo recipient content).
End Relay.
