(* ===== verification/IdentityMailFacts.v ===== *)
(** * Identity: what is shown of mail *)
From Stdlib Require Import ZArith Lia Ascii String.
From stdpp Require Import base gmap strings list pretty.
From S2P Require Import Prelude GoStrings GoErrors GoBase64 GoURL GoURLText GoHttp Tx GoSmtp.
From S2P Require Import IdentityService IdentityHTTP IdentityMail.

Open Scope string_scope.
Open Scope Z_scope.
Open Scope go_scope.

(** ** Links *)

Lemma trim_right_absolute s : absolute s -> absolute (trim_right_byte "/" s).
Proof.
  intros [->|[r ->]%HasPrefix_slash]; [by left|]. unfold trim_right_byte. cbn.
  enough (forall l, drop_while (Ascii.eqb "/") (l ++ ["/"%char]) = [] \/
                    exists k, drop_while (Ascii.eqb "/") (l ++ ["/"%char]) = (k ++ ["/"%char])%list) as Hd.
  { destruct (Hd (rev (list_ascii_of_string r))) as [->|[k ->]]; [by left|].
    rewrite rev_app_distr. apply absolute_slash. }
  induction l as [|c l IH]; [by left|]. cbn -[Ascii.eqb]. destruct ("/" =? c)%char; [exact IH|].
  right. by exists (c :: l).
Qed.

(** The link of a mail: the page below the application's own, with the token. *)
Lemma actionURL_shape base path token parsed :
  ParseURL (trim_right_byte "/" base) = Some parsed -> u_Scheme (f_URL parsed) <> "" -> u_Host (f_URL parsed) <> "" ->
  exists page query fragment,
    actionURL base path token = origin parsed +:+ page +:+ "?" +:+ query +:+ fragment /\
    unescape encodePath page = Some (trim_right_byte "/" (u_Path (f_URL parsed)) +:+ "/" +:+ trim_left_byte "/" path) /\
    no_mark page /\
    query = Query_Encode (Query_Set (ParseQuery (u_RawQuery (f_URL parsed))) "token" token) /\
    (fragment = "" \/ HasPrefix fragment "#" = true).
Proof.
  intros Hp Hs Hh. destruct (ParseURL_absolute _ _ Hp Hh) as (Ho & Hraw & Hpath). unfold actionURL. rewrite Hp.
  apply String.eqb_neq in Hs as Hs', Hh as Hh'. rewrite Hs', Hh'. cbn [orb].
  set (f := mkFullURL _ _ _ _ _ _ _). exists (EscapedPath f), (u_RawQuery (f_URL f)), (fragment_text f).
  rewrite String_shape; try done.
  - split; [done|]. split; [apply EscapedPath_reads|]. split; [apply EscapedPath_no_mark|]. split; [done|].
    unfold fragment_text. destruct (f_Fragment f =? "")%string; [by left | right].
    apply HasPrefix_cons.
  - subst f. cbn. clear. unfold Query_Encode. destruct (order_by pair_le _) as [|p l] eqn:Hn.
    + apply (f_equal length) in Hn. rewrite order_by_Permutation in Hn. unfold Query_Set in Hn.
      rewrite length_app in Hn. cbn in Hn. lia.
    + cbn [map]. intros He. apply (f_equal bytes) in He. destruct (map encode_pair l); unfold Join in He;
        cbn [String.concat] in He; unfold encode_pair in He; rewrite !bytes_app in He; by destruct (bytes (QueryEscape p.1)).
  - apply EscapedPath_absolute; [done|]. subst f. cbn [f_URL u_Path].
    destruct (trim_right_absolute _ Hpath) as [->|[r ->]%HasPrefix_slash]; [|apply absolute_slash].
    apply absolute_slash.
Qed.

(** The token a browser finds in the link is the one that was mailed, and every
    other parameter of the application's address is still there. *)
Lemma actionURL_query base token :
  let query := Query_Encode (Query_Set (ParseQuery base) "token" token) in
  Query_Get (ParseQuery query) "token" = token /\
  forall key, key <> "token" -> Query_Get (ParseQuery query) key = Query_Get (ParseQuery base) key.
Proof.
  cbn. split; [apply encoded_value|]. intros key Hk. rewrite ParseQuery_Encode, Query_Get_sorted.
  apply not_eq_sym, String.eqb_neq in Hk.
  unfold Query_Get, Query_Set. induction (ParseQuery base) as [|p l IH]; cbn -[String.eqb]; [by rewrite Hk|].
  destruct (fst p =? "token")%string eqn:Ht; cbn -[String.eqb].
  - apply String.eqb_eq in Ht. by rewrite Ht, Hk.
  - destruct (fst p =? key)%string; [done | exact IH].
Qed.

(** ** Markup *)

Definition is_markup (c : ascii) : bool := one_of "<>'" c || (c =? "034")%char.
Definition markup (s : string) : list ascii := List.filter is_markup (bytes s).
Lemma markup_app s t : markup (s +:+ t) = (markup s ++ markup t)%list.
Proof. unfold markup. by rewrite bytes_app, List.filter_app. Qed.
Lemma markup_escaped s : markup (HTMLEscapeString s) = [].
Proof.
  unfold markup, HTMLEscapeString. rewrite bytes_of_bytes. induction (bytes s) as [|c l IH]; [done|].
  cbn [flat_map]. rewrite List.filter_app, IH, app_nil_r. by destruct c as [[] [] [] [] [] [] [] []].
Qed.
Lemma renderHTML_markup name title intro button link note support :
  markup (renderHTML name title intro button link note support) = markup (renderHTML "" "" "" "" "" "" "").
Proof. unfold renderHTML. by rewrite !markup_app, !markup_escaped. Qed.

(** ** The picture *)

Lemma wrap_lines_spec fuel l : (length l <= fuel)%nat ->
  concat (wrap_lines fuel l) = l /\ Forall (fun line => 1 <= length line <= 76)%nat (wrap_lines fuel l) /\
  (forall before line after, wrap_lines fuel l = (before ++ line :: after)%list -> after <> [] -> length line = 76%nat).
Proof.
  revert l. induction fuel as [|fuel IH]; intros l Hl.
  { destruct l; [|cbn in Hl; lia]. cbn. repeat split; [constructor|]. by intros [] ?. }
  destruct l as [|c l]; [cbn; repeat split; [constructor|]; by intros [] ?|].
  cbn [wrap_lines]. destruct (IH (drop 76 (c :: l))) as (Hc & Hf & Hn); [rewrite length_drop; cbn in *; lia|].
  split; [|split].
  - cbn [concat]. rewrite Hc. apply take_drop.
  - constructor; [|done]. rewrite length_take. cbn [length]. lia.
  - intros [|b before] line after He Hne; cbn [app] in He; injection He as Hh Ht; [|by eapply Hn].
    rewrite <- Hh. change (length (take 76 (c :: l)) = 76%nat). rewrite length_take. enough (drop 76 (c :: l) <> []) as Hd.
    { destruct (decide (76 <= length (c :: l))%nat); [lia|]. rewrite drop_ge in Hd by lia. done. }
    intros Hd. change (wrap_lines fuel (drop 76 (c :: l)) = after) in Ht. rewrite Hd in Ht. destruct fuel; by subst.
Qed.

(** ** Conversations with the relay *)

Definition is_message (w : wire) : bool := match w with Data _ _ | Broken _ => true | _ => false end.
Definition messages (log : list wire) : list wire := List.filter is_message log.
(** A command other than AUTH, or a connection that protects it. *)
Definition not_auth (text : string) : Prop := HasPrefix text "AUTH " = false.
Definition guarded (host : string) (w : wire) : Prop :=
  match w with Line tls text => tls = true \/ isLocalhost host = true \/ not_auth text | _ => True end.

(** The log has grown without a message since [old], guarded throughout. *)
Definition grown (host : string) (old : list wire) (c : Client) : Prop :=
  c_serverName c = host /\ exists new, c_log c = (old ++ new)%list /\ messages new = [] /\ Forall (guarded host) new.
#[export] Instance grown_Stable host old : Stable (grown host old) not_auth.
Proof.
  constructor; try done.
  - intros c t Ht (Hn & new & Hl & Hm & Hg). split; [done|]. exists (new ++ [Line (c_tls c) t])%list. cbn.
    rewrite Hl, app_assoc. unfold messages. rewrite List.filter_app. fold (messages new). rewrite Hm.
    repeat split. apply Forall_app_2; [done|]. apply Forall_singleton. right. by right.
  - intros c n (Hn & new & Hl & Hm & Hg). split; [done|]. exists (new ++ [Code n])%list. cbn.
    rewrite Hl, app_assoc. unfold messages. rewrite List.filter_app. fold (messages new). rewrite Hm.
    repeat split. apply Forall_app_2; [done|]. by apply Forall_singleton.
Qed.
Lemma grown_refl c : grown (c_serverName c) (c_log c) c.
Proof. split; [done|]. exists []. rewrite app_nil_r. by repeat split. Qed.

Section Sent.
Context `{SmtpPeer} (platformLogo : string) (m : SMTPMailer).
Local Notation host := (sm_host m).
Local Notation State := (St unit Client).
Local Notation auth := (auth_line (sm_username m) (sm_password m)).

Lemma Auth_grown old : keeps (grown host old) (Auth (sm_username m) (sm_password m) host).
Proof.
  apply (keeps_Auth _ not_auth); try done. intros c (Hn & new & Hl & Hm & Hg) Hp _. split; [done|].
  exists (new ++ [Line (c_tls c) auth])%list. cbn. rewrite Hl, app_assoc.
  unfold messages. rewrite List.filter_app. fold (messages new). rewrite Hm.
  repeat split. apply Forall_app_2; [done|]. apply Forall_singleton. cbn. rewrite <- Hn. tauto.
Qed.

(** The commands that announce a message, and the relay's consent. *)
Definition envelope (from to_ suffix : string) (tls : bool) (code : Z) : list wire :=
  [Line tls (sender_line from suffix); Code 250; Line tls (recipient_line to_); Code code; Line tls "DATA"; Code 354].

Lemma preamble_grown old : keeps (grown host old) (smtp_preamble m).
Proof.
  unfold smtp_preamble. apply client_keeps_bind.
  { apply keeps_mapE, client_keeps_bind; [by apply (keeps_ReadResponse _ not_auth) | intros; apply client_keeps_ret]. }
  intros _. apply client_keeps_bind; [by eapply (keeps_Extension _ not_auth)|]. intros tls. apply client_keeps_bind.
  - destruct tls; [|apply client_keeps_ret]. by apply keeps_mapE, (keeps_StartTLS _ not_auth).
  - intros _. destruct (negb _); [apply keeps_mapE, Auth_grown | apply client_keeps_ret].
Qed.
(** After it the client has introduced itself, and is authenticated if it is to be. *)
Lemma preamble_ok (s s' : State) a : smtp_preamble m s = (s', Ok a) ->
  c_didHello (loc s') = true /\
  (sm_username m <> "" -> exists before, c_log (loc s') = (before ++ [Line (c_tls (loc s')) auth; Code 235])%list).
Proof.
  intros Hp. unfold smtp_preamble in Hp.
  apply bind_ends in Hp as [(e & _ & [=])|(s1 & [] & _ & Hp)].
  apply bind_ends in Hp as [(e & _ & [=])|(s2 & tls & He & Hp)]. apply Extension_did in He.
  apply bind_ends in Hp as [(e & _ & [=])|(s3 & [] & Ht & Hp)].
  assert (c_didHello (loc s3) = true) as Hd.
  { eapply (keeps_run (fun c => c_didHello c = true)); [|exact Ht | done].
    destruct tls; [|apply client_keeps_ret]. by apply keeps_mapE, (keeps_StartTLS _ (fun _ => True)). }
  destruct (String.eqb_spec (sm_username m) "") as [Hu|Hu]; cbn [negb] in Hp.
  { injection Hp as <- _. done. }
  apply mapE_ok in Hp. apply Auth_ok in Hp; [|done]. rewrite Hp. split; [done|]. intros _.
  exists (c_log (loc s3)). cbn. by rewrite <- app_assoc.
Qed.

(** How a conversation can end: without a message, or with one. *)
Inductive conversation (recipient body : string) (log : list wire) (r : result goerr unit) : Prop :=
| no_mail e : r = Err e -> messages log = [] -> conversation recipient body log r
| one_mail before suffix tls code msg after :
    log = (before ++ envelope (sm_from m) recipient suffix tls code ++ msg :: after)%list ->
    messages before = [] -> messages after = [] -> code / 10 = 25 ->
    ContainsAnyCRLF (sm_from m) = false -> ContainsAnyCRLF recipient = false ->
    (sm_username m <> "" -> exists earlier, before = (earlier ++ [Line tls auth; Code 235])%list) ->
    (msg = Data tls (dot_encode body) /\ (r = Ok tt -> after = [Code 250; Line tls "QUIT"; Code 221]) \/
     msg = Broken tls /\ exists e, r = Err e) ->
    conversation recipient body log r.

Lemma envelope_grown old recipient : keeps (grown host old) (smtp_envelope m recipient).
Proof.
  apply client_keeps_bind; [by apply keeps_mapE, (keeps_Mail _ not_auth)|]. intros _.
  apply client_keeps_bind; [by apply keeps_mapE, (keeps_Rcpt _ not_auth)|]. intros _.
  by apply keeps_mapE, (keeps_Data _ not_auth).
Qed.
Lemma envelope_ok recipient (s s' : State) a :
  smtp_envelope m recipient s = (s', Ok a) -> c_didHello (loc s) = true ->
  ContainsAnyCRLF (sm_from m) = false /\ ContainsAnyCRLF recipient = false /\ c_didHello (loc s') = true /\
  c_tls (loc s') = c_tls (loc s) /\ exists suffix code, code / 10 = 25 /\
    c_log (loc s') = (c_log (loc s) ++ envelope (sm_from m) recipient suffix (c_tls (loc s)) code)%list.
Proof.
  intros Hr Hd. apply bind_ends in Hr as [(e & _ & [=])|(s2 & [] & Hm & Hr)].
  apply mapE_ok, Mail_ok in Hm as (Hfrom & suffix & Hm); [|done].
  apply bind_ends in Hr as [(e & _ & [=])|(s3 & [] & Hc & Hx)].
  apply mapE_ok, Rcpt_ok in Hc as (Hto & code & Hcode & Hc). apply mapE_ok, Data_ok in Hx.
  rewrite Hx, Hc, Hm. cbn. rewrite <- !app_assoc. repeat split; try done. by exists suffix, code.
Qed.

Lemma close_grown old : keeps (grown host old) close_message.
Proof. apply client_keeps_bind; [by apply (keeps_ReadResponse _ not_auth) | intros; apply client_keeps_ret]. Qed.
Lemma Quit_grown old : keeps (grown host old) Quit.
Proof. by apply (keeps_Quit _ not_auth). Qed.
Lemma transfer_run body (s s' : State) r :
  c_serverName (loc s) = host -> c_didHello (loc s) = true -> smtp_transfer body s = (s', r) ->
  exists msg after, c_log (loc s') = (c_log (loc s) ++ msg :: after)%list /\ messages after = [] /\
    Forall (guarded host) (msg :: after) /\
    (msg = Data (c_tls (loc s)) (dot_encode body) /\
       (r = Ok tt -> after = [Code 250; Line (c_tls (loc s)) "QUIT"; Code 221]) \/
     msg = Broken (c_tls (loc s)) /\ exists e, r = Err e).
Proof.
  intros Hn Hd Hr. unfold smtp_transfer, bind at 1, try_ at 1 in Hr.
  destruct (write_message body s) as [s1 w] eqn:Hw. apply write_message_run in Hw as [[-> Hw]|[[e ->] Hw]].
  - assert (c_log (loc s1) = c_log (loc s) ++ [Data (c_tls (loc s)) (dot_encode body)])%list as Hl1 by (by rewrite Hw).
    assert (grown host (c_log (loc s1)) (loc s')) as (_ & after & Hl & Hm & Hg).
    { assert (c_serverName (loc s1) = host) as Hn1 by (by rewrite Hw).
      eapply (keeps_run (grown host (c_log (loc s1)))); [|exact Hr | rewrite <- Hn1; apply grown_refl].
      apply client_keeps_bind; [apply keeps_mapE, close_grown | intros; apply keeps_mapE, Quit_grown]. }
    exists (Data (c_tls (loc s)) (dot_encode body)), after. rewrite Hl, Hl1, <- app_assoc.
    split; [done|]. split; [done|]. split; [by constructor|]. left. split; [done|]. intros ->.
    apply bind_ends in Hr as [(e & _ & [=])|(s2 & [] & Hc & Hq)].
    apply mapE_ok, close_ok in Hc. apply mapE_ok, Quit_ok in Hq; [|by rewrite Hc, Hw].
    rewrite Hq, Hc, Hw in Hl. cbn in Hl. rewrite <- !app_assoc in Hl. cbn in Hl.
    by apply app_inv_head in Hl as [= <-].
  - assert (c_log (loc s1) = c_log (loc s) ++ [Broken (c_tls (loc s))])%list as Hl1 by (by rewrite Hw).
    assert (grown host (c_log (loc s1)) (loc s')) as (_ & after & Hl & Hm & Hg).
    { assert (c_serverName (loc s1) = host) as Hn1 by (by rewrite Hw).
      eapply (keeps_run (grown host (c_log (loc s1)))); [|exact Hr | rewrite <- Hn1; apply grown_refl].
      apply client_keeps_bind; [apply keeps_try, close_grown | intros; apply keeps_fail]. }
    exists (Broken (c_tls (loc s))), after. rewrite Hl, Hl1, <- app_assoc.
    split; [done|]. split; [done|]. split; [by constructor|]. right. split; [done|].
    apply bind_ends in Hr as [(e' & _ & ->)|(s2 & x & _ & [= _ <-])]; eauto.
Qed.

(** The whole conversation on a new connection. *)
Lemma session_run recipient body (s s' : State) r :
  loc s = newClient host ->
  bind (smtp_preamble m) (fun _ => bind (smtp_envelope m recipient) (fun _ => smtp_transfer body)) s = (s', r) ->
  Forall (guarded host) (c_log (loc s')) /\ conversation recipient body (c_log (loc s')) r.
Proof.
  intros Hs Hr.
  assert (grown host [] (loc s)) as Hg0 by (rewrite Hs; apply (grown_refl (newClient host))).
  assert (forall (s1 : State) e, grown host [] (loc s1) -> Forall (guarded host) (c_log (loc s1)) /\
            conversation recipient body (c_log (loc s1)) (Err e)) as Hnone.
  { intros s1 e (_ & new & Hl & Hm & Hg). rewrite Hl. split; [done|]. by eapply no_mail. }
  apply bind_ends in Hr as [(e & Hp & ->)|(s1 & [] & Hp & Hr)].
  { apply Hnone. eapply (keeps_run (grown host [])); [apply preamble_grown | exact Hp | exact Hg0]. }
  destruct (preamble_ok _ _ _ Hp) as [Hd Hauth].
  assert (grown host [] (loc s1)) as Hg1 by (eapply (keeps_run (grown host [])); [apply preamble_grown | exact Hp | exact Hg0]).
  apply bind_ends in Hr as [(e & He & ->)|(s2 & [] & He & Hr)].
  { apply Hnone. eapply (keeps_run (grown host [])); [apply envelope_grown | exact He | exact Hg1]. }
  assert (grown host [] (loc s2)) as (Hn2 & new2 & Hl2 & _ & Hg2)
    by (eapply (keeps_run (grown host [])); [apply envelope_grown | exact He | exact Hg1]).
  apply envelope_ok in He as (Hfrom & Hto & Hd2 & Ht2 & suffix & code & Hcode & Henv); [|done].
  apply transfer_run in Hr as (msg & after & Hl & Hma & Hga & Hend); [|done..].
  destruct Hg1 as (_ & new1 & Hl1 & Hm1 & _). split.
  - rewrite Hl, Hl2. by apply Forall_app_2.
  - eapply (one_mail _ _ _ _ (c_log (loc s1)) suffix (c_tls (loc s1)) code msg after); try done.
    + by rewrite Hl, Henv, <- app_assoc.
    + by rewrite Hl1.
    + by rewrite <- Ht2.
Qed.

(** C39: what a call of the SMTP mailer leaves on the wire, however the relay and
    the network behave.  An AUTH command is written only under TLS or to the
    local host.  A call that returns without error has handed over exactly one
    message: the rendered mail, in the dot encoding from which the relay reads
    it back, after the relay accepted sender, recipient and DATA (and the
    credentials, if there are any), and the relay took it.  A call that fails
    has handed over at most one.  No message is written when the sender or the
    recipient has a line break that could forge a header. *)
Theorem mail_is_handed_over_once kind recipient token ctx (s s' : State) r :
  c_log (loc s) = [] -> SMTPMailer_Send platformLogo m ctx kind recipient token s = (s', r) ->
  Forall (guarded host) (c_log (loc s')) /\
  match renderIdentityEmailWithSupport kind recipient token (sm_publicAppURL m) (sm_verificationPath m)
          (sm_resetPath m) (sm_supportEmail m) with
  | Err e => c_log (loc s') = [] /\ exists e', r = Err e'
  | Ok content =>
      let body := mail_body m platformLogo recipient content in
      conversation recipient body (c_log (loc s')) r /\
      forall rest, dot_read AtStart (bytes (dot_encode body) ++ rest) = Some (crlf_bytes wstateBegin (bytes body), rest)
  end.
Proof.
  intros Hs Hr. unfold SMTPMailer_Send in Hr.
  destruct (renderIdentityEmailWithSupport _ _ _ _ _ _ _) as [content|e0].
  2:{ apply bind_ends in Hr as [(e & Hc & ->)|(s1 & [] & Hc & Hr)]; [injection Hc as <- _; rewrite Hs; eauto|].
      injection Hc as <- _. injection Hr as <- <-. rewrite Hs. eauto. }
  enough (Forall (guarded host) (c_log (loc s')) /\
          conversation recipient (mail_body m platformLogo recipient content) (c_log (loc s')) r) as [Hg Hc]
    by (split; [done|]; split; [done|]; intros; apply dot_round_trip).
  assert (forall e, Forall (guarded host) (c_log (loc s)) /\
    conversation recipient (mail_body m platformLogo recipient content) (c_log (loc s)) (Err e)) as Hnone
    by (intros; rewrite Hs; split; [done|]; by eapply no_mail).
  apply bind_ends in Hr as [(e & Hc & ->)|(s1 & [] & Hc & Hr)]; [injection Hc as <- _; apply Hnone|].
  injection Hc as <- _. apply bind_ends in Hr as [(e & Hc & ->)|(s2 & content' & Hc & Hr)]; [done|].
  injection Hc as <- <-. apply bind_ends in Hr as [(e & Hc & ->)|(s3 & [] & Hc & Hr)].
  { apply mapE_ends in Hc as [(e' & He & _)|(a & _ & [=])]. injection He as <- _. apply Hnone. }
  apply mapE_ok in Hc. injection Hc as <- _.
  apply bind_ends in Hr as [(e & [=] & _)|(s4 & [] & Hc & Hr)]. injection Hc as <-.
  by eapply session_run in Hr.
Qed.
End Sent.

(** The link of a mail opens the page below the configured address, keeps
    the address's other parameters, and the token read from it is the one that
    was issued, whatever bytes either has; so a verification mail names the
    token's page for verification, a reset mail the one for resets. *)
Theorem links_carry_their_token base path token parsed :
  ParseURL (trim_right_byte "/" base) = Some parsed -> u_Scheme (f_URL parsed) <> "" -> u_Host (f_URL parsed) <> "" ->
  exists page query fragment,
    actionURL base path token = origin parsed +:+ page +:+ "?" +:+ query +:+ fragment /\
    unescape encodePath page = Some (trim_right_byte "/" (u_Path (f_URL parsed)) +:+ "/" +:+ trim_left_byte "/" path) /\
    no_mark page /\ (fragment = "" \/ HasPrefix fragment "#" = true) /\
    Query_Get (ParseQuery query) "token" = token /\
    forall key, key <> "token" -> Query_Get (ParseQuery query) key = Query_Get (ParseQuery (u_RawQuery (f_URL parsed))) key.
Proof.
  intros Hp Hs Hh. destruct (actionURL_shape base path token parsed Hp Hs Hh) as (page & query & frag & Hl & Hu & Hn & -> & Hf).
  exists page, (Query_Encode (Query_Set (ParseQuery (u_RawQuery (f_URL parsed))) "token" token)), frag.
  pose proof (actionURL_query (u_RawQuery (f_URL parsed)) token) as [Ht Ho]. by repeat split.
Qed.

(** No text of a mail becomes markup: the tags and quotes of the HTML are
    those of the template, whoever it is addressed to and whatever the link. *)
Theorem mail_markup_is_the_templates kind recipient token app verify reset support content :
  renderIdentityEmailWithSupport kind recipient token app verify reset support = Ok content ->
  markup (HTML content) = markup (renderHTML "" "" "" "" "" "" "").
Proof.
  unfold renderIdentityEmailWithSupport. destruct (_ =? _)%string; [|destruct (_ =? _)%string; [|done]];
    intros [= <-]; apply renderHTML_markup.
Qed.

(** The picture of a mail is its base64 text cut into lines of 76
    characters, the last one shorter, each ended by a line break. *)
Theorem pictures_are_wrapped value : exists lines,
  wrapMIMEBase64 value = of_bytes (flat_map (fun line => line ++ [CR; LF])%list lines) /\
  of_bytes (concat lines) = StdEncode value /\ Forall (fun line => 1 <= length line <= 76)%nat lines /\
  (forall before line after, lines = (before ++ line :: after)%list -> after <> [] -> length line = 76%nat).
Proof.
  destruct (wrap_lines_spec _ _ (le_n (length (bytes (StdEncode value))))) as (Hc & Hf & Hl).
  eexists. split; [done|]. rewrite Hc, of_bytes_bytes. done.
Qed.

(** The delimiter of the inner parts begins with that of the outer ones, so that
    a reader that compares the beginning of a line, as RFC 2046 has it, takes
    the inner delimiters for outer ones. *)
Fact inner_delimiters_begin_like_outer_ones :
  HasPrefix ("--" +:+ alternative_boundary) ("--" +:+ mail_boundary) = true.
Proof. reflexivity. Qed.

(** ** The mailer for tests *)

Section Mailbox.
Context `{GoLib}.

(** The mailbox behind the test interface is what the mailer keeps. *)
Lemma mailbox_is_kept sent :
  mailbox sent = mm_token <$> foldl (fun box x =>
    fst (SimulatedMailer_Send None (m_kind x) (m_to x) (m_token x) box)) ∅ sent.
Proof.
  unfold mailbox. rewrite <- (fmap_empty mm_token) at 1. generalize (∅ : gmap string mailMessage).
  induction sent as [|x sent IH]; intros box; [done|]. cbn [foldl]. rewrite <- IH. f_equal.
  unfold SimulatedMailer_Send. destruct (_ || _); cbn; [done | by rewrite fmap_insert].
Qed.
Lemma latest_after_send kind recipient token box box' kind' recipient' :
  SimulatedMailer_Send None kind recipient token box = (box', Ok tt) ->
  SimulatedMailer_Latest None kind' recipient' box' =
    if bool_decide (messageKey kind' recipient' = messageKey kind recipient) then Ok token
    else SimulatedMailer_Latest None kind' recipient' box.
Proof.
  unfold SimulatedMailer_Send, SimulatedMailer_Latest. destruct (_ || _); [done|]. intros [= <-].
  case_bool_decide as Hk; [by rewrite Hk, lookup_insert_eq | by rewrite lookup_insert_ne].
Qed.
End Mailbox.

(** ** Concrete mails *)

(** A relay that offers TLS and takes everything; [farewell] is its answer to QUIT. *)
Definition kind_relay (farewell : result goerr (Z * string)) : SmtpPeer := {|
  smtp_dial := fun _ _ => Ok tt; smtp_write := fun _ => Ok tt; smtp_close := fun _ => Ok tt;
  smtp_reply := fun n =>
    match n with
    | 1%nat => Ok (220, "ready")
    | 3%nat => Ok (250, Join ["relay"; "STARTTLS"; "8BITMIME"] newline)
    | 5%nat => Ok (220, "go ahead")
    | 7%nat => Ok (250, Join ["relay"; "AUTH PLAIN"; "8BITMIME"] newline)
    | 9%nat => Ok (235, "welcome")
    | 15%nat => Ok (354, "end with a dot")
    | 19%nat => farewell
    | _ => Ok (250, "ok")
    end
|}.
Definition sample_mailer : SMTPMailer :=
  NewConfiguredSMTPMailer "mail.example.test" 587 "identity" "secret" "identity@example.test" "https://app.example.test/shop/?lang=en".
Definition sample_connection : St unit Client := mkSt tt (newClient "mail.example.test") 0.
Definition sample_conversation (farewell : result goerr (Z * string)) :=
  @SMTPMailer_Send (kind_relay farewell) "logo" sample_mailer None "password-reset" "person@example.test" "a+b" sample_connection.

Example sample_mail_is_taken :
  snd (sample_conversation (Ok (221, "bye"))) = Ok tt /\ length (c_log (loc (fst (sample_conversation (Ok (221, "bye")))))) = 19%nat.
Proof. split; vm_compute; reflexivity. Qed.

(** A message the relay has taken is reported as failed when QUIT is not answered. *)
Theorem accepted_mail_can_be_reported_as_failed :
  let '(s', r) := sample_conversation (Err (NewErr "connection reset")) in
  is_ok r = false /\ exists before text, c_log (loc s') = (before ++ [Data true text; Code 250; Line true "QUIT"])%list.
Proof.
  destruct (sample_conversation (Err (NewErr "connection reset"))) as [s' r] eqn:Hs.
  assert (is_ok r = is_ok (snd (sample_conversation (Err (NewErr "connection reset"))))) as -> by (by rewrite Hs).
  split; [vm_compute; reflexivity|].
  assert (c_log (loc s') = c_log (loc (fst (sample_conversation (Err (NewErr "connection reset")))))) as -> by (by rewrite Hs).
  exists (take 15 (c_log (loc (fst (sample_conversation (Err (NewErr "connection reset"))))))).
  eexists. vm_compute. reflexivity.
Qed.

Lemma mail_is_handed_over_once_witness :
  let '(s', r) := sample_conversation (Ok (221, "bye")) in
  r = Ok tt /\ Forall (guarded "mail.example.test") (c_log (loc s')).
Proof.
  destruct (sample_conversation (Ok (221, "bye"))) as [s' r] eqn:Hs.
  assert (r = snd (sample_conversation (Ok (221, "bye")))) as -> by (by rewrite Hs). split; [vm_compute; reflexivity|].
  exact (proj1 (@mail_is_handed_over_once (kind_relay (Ok (221, "bye"))) "logo" sample_mailer "password-reset"
                  "person@example.test" "a+b" None sample_connection s' _ eq_refl Hs)).
Defined.

Example sample_link :
  actionURL "https://app.example.test/shop/?lang=en" "/reset-password" "a+b &c"
  = "https://app.example.test/shop/reset-password?lang=en&token=a%2Bb+%26c".
Proof. vm_compute. reflexivity. Qed.
Lemma links_carry_their_token_witness : exists page query fragment,
  actionURL "https://app.example.test/shop/?lang=en" "/reset-password" "a+b" = "https://app.example.test" +:+ page +:+ "?" +:+ query +:+ fragment /\
  Query_Get (ParseQuery query) "token" = "a+b".
Proof.
  destruct (ParseURL (trim_right_byte "/" "https://app.example.test/shop/?lang=en")) as [parsed|] eqn:Hp;
    [|vm_compute in Hp; discriminate Hp].
  assert (u_Scheme (f_URL parsed) = "https" /\ u_Host (f_URL parsed) = "app.example.test" /\ origin parsed = "https://app.example.test")
    as (Hs & Hh & Ho) by (vm_compute in Hp; injection Hp as <-; vm_compute; auto).
  destruct (links_carry_their_token "https://app.example.test/shop/?lang=en" "/reset-password" "a+b" parsed Hp)
    as (page & query & fragment & Hl & _ & _ & _ & Ht & _); [rewrite Hs; discriminate | rewrite Hh; discriminate|].
  exists page, query, fragment. rewrite Ho in Hl. split; assumption.
Defined.
Lemma mail_markup_is_the_templates_witness : exists content,
  renderIdentityEmail "email-verification" "<script>@example.test" "t" "https://app.example.test" "/verify-email" "/reset-password" = Ok content /\
  markup (HTML content) = markup (renderHTML "" "" "" "" "" "" "").
Proof.
  eexists. split; [reflexivity|].
  exact (mail_markup_is_the_templates "email-verification" "<script>@example.test" "t" "https://app.example.test" "/verify-email"
           "/reset-password" "support@example.com" _ eq_refl).
Defined.
