(* ===== verification/IdentityRedis.v ===== *)
(** * Identity: rate limits and emergency revocation in Redis

    [apps/identity/internal/adapters/outbound/redis]: the limits by kind of key,
    the script that counts several keys at once, and the list of revoked
    tokens.  Redis is a parameter, with the commands and laws of
    [GatewayLimiter] and those only Identity uses; times are in seconds. *)
From Stdlib Require Import ZArith Lia Ascii String Sorted.
From stdpp Require Import base gmap strings list pretty.
From S2P Require Import Prelude GoStrings GoErrors GoTime GoBase64 GoCrypto GoURL GatewayDomain GatewayService GatewayLimiter.
From S2P Require Import IdentityDomain IdentityService.

Open Scope string_scope.
Open Scope Z_scope.

(** The other commands: [EXPIRE ... NX], [SET] with a time to live, [EXISTS];
    a pipeline or a command may be stopped by an error. *)
Class IdRedis (R : Type) := {
  redis_stopped : R -> option goerr;
  redis_expire_nx : Z -> string -> Z -> R -> R;
  redis_set : Z -> string -> string -> Z -> R -> R;
  redis_exists : Z -> string -> R -> Z
}.

Record Limit := mkLimit { Max : Z; lim_Window : Z }.   (** a duration *)
Record rateLimitRequest := mkRateRequest { rl_key : string; rl_limit : Z; rl_window : Z }.

Definition NewRateLimiterWithSources (login refresh reset service loginSource refreshSource resetSource serviceSource : Z)
  : gmap string Limit := list_to_map [
  ("login-account", mkLimit login (15 * Minute));
  ("login-source", mkLimit loginSource (15 * Minute));
  ("refresh-account", mkLimit refresh Minute);
  ("refresh-source", mkLimit refreshSource Minute);
  ("reset-account", mkLimit reset Hour);
  ("reset-source", mkLimit resetSource Hour);
  ("service-token-account", mkLimit service Minute);
  ("service-token-source", mkLimit serviceSource Minute);
  ("register-account", mkLimit login (15 * Minute));
  ("register-source", mkLimit loginSource (15 * Minute));
  ("login-global", mkLimit (loginSource * 10) (15 * Minute));
  ("register-global", mkLimit (loginSource * 10) (15 * Minute));
  ("refresh-global", mkLimit (refreshSource * 10) Minute);
  ("reset-global", mkLimit (resetSource * 10) Hour);
  ("service-token-global", mkLimit (serviceSource * 10) Minute)
].
Definition NewRateLimiter (login refresh reset service : Z) : gmap string Limit :=
  NewRateLimiterWithSources login refresh reset service (login * 6) (refresh * 4) (reset * 4) (service * 4).

(** The text before the first colon, the whole key when there is none. *)
Definition key_kind (key : string) : string := fst (Cut key ":").
Definition limit_of (limits : gmap string Limit) (key : string) : Limit :=
  default (mkLimit 30 Minute) (limits !! key_kind key).

Section Client.
Context `{Crypto} {R : Type} `{!Redis R} `{!IdRedis R}.

Definition rate_key (key : string) : string := "identity:rate:" +:+ digest key.
Definition revoked_key (jti : string) : string := "identity:revoked:" +:+ digest jti.
Definition stopped_or {A} (f : R -> R * result goerr A) : gcall R A := fun r =>
  match redis_stopped r with Some e => (r, Err e) | None => f r end.

Definition Client_Allow (now : Z) (key : string) (limit window : Z) : gcall R bool :=
  stopped_or (fun r =>
    let '(r, count) := redis_incr now (rate_key key) r in
    (redis_expire_nx now (rate_key key) (window / Second) r, Ok (count <=? limit))).

(** [allowManyScript] over the keys with their limits and windows. *)
Fixpoint allowManyScript (now : Z) (keys : list (string * Z * Z)) (allowed : bool) (r : R) : R * bool :=
  match keys with
  | [] => (r, allowed)
  | (key, limit, window) :: rest =>
      let '(r, count) := redis_incr now key r in
      let r := if count =? 1 then redis_expire now key window r else r in
      allowManyScript now rest (if limit <? count then false else allowed) r
  end.
Definition script_args (requests : list rateLimitRequest) : list (string * Z * Z) :=
  map (fun q => (rate_key (rl_key q), rl_limit q, rl_window q / Second)) requests.
Definition Client_AllowMany (now : Z) (requests : list rateLimitRequest) : gcall R bool := fun r =>
  match requests with
  | [] => (r, Ok true)
  | _ => stopped_or (fun r => let '(r, allowed) := allowManyScript now (script_args requests) true r in (r, Ok allowed)) r
  end.

Definition Revoke (now : Z) (jti : string) (ttl : Z) : gcall R unit := fun r =>
  if ttl <=? 0 then (r, Ok tt)
  else stopped_or (fun r => (redis_set now (revoked_key jti) "1" ttl r, Ok tt)) r.
Definition IsRevoked (now : Z) (jti : string) : gcall R bool :=
  stopped_or (fun r => (r, Ok (redis_exists now (revoked_key jti) r =? 1))).

Context (limits : gmap string Limit).
Definition RateLimiter_Allow (now : Z) (key : string) : gcall R bool :=
  let limit := limit_of limits key in Client_Allow now key (Max limit) (lim_Window limit).
Definition RateLimiter_AllowMany (now : Z) (keys : list string) : gcall R bool :=
  Client_AllowMany now (map (fun key => let limit := limit_of limits key in
                                        mkRateRequest key (Max limit) (lim_Window limit)) keys).
End Client.

(** ** The service's keys have limits of their own *)

Lemma cut_bytes_found sep a l : Forall (fun c => c <> sep) a -> cut_bytes sep (a ++ sep :: l) = (a, Some l).
Proof.
  induction 1 as [|c a Hc Ha IH]; cbn; [by rewrite Ascii.eqb_refl|].
  by rewrite (proj2 (Ascii.eqb_neq c sep) Hc), IH.
Qed.
Lemma key_kind_of a b : Forall (fun c => c <> ":"%char) (bytes a) -> key_kind (a +:+ ":" +:+ b) = a.
Proof.
  intros Ha. unfold key_kind, Cut. rewrite !bytes_app. change (bytes ":") with [":"%char]. cbn [app].
  rewrite cut_bytes_found by done. apply of_bytes_bytes.
Qed.

(** Every key the service asks about, for each of its kinds, has a limit the
    limiter was built with; none falls back to the default. *)
Lemma service_keys_have_limits `{GoLib} `{Crypto} kind account source key login refresh reset service ls rs ts ss :
  kind ∈ ["login"; "register"; "refresh"; "reset"; "service-token"] -> key ∈ dimension_keys kind account source ->
  is_Some (NewRateLimiterWithSources login refresh reset service ls rs ts ss !! key_kind key).
Proof.
  intros Hk Hkey. unfold dimension_keys in Hkey.
  assert (exists dimension rest, key = (kind +:+ dimension) +:+ ":" +:+ rest /\
            dimension ∈ ["-account"; "-global"; "-source"]) as (dimension & rest & -> & Hd).
  { assert (forall d x, kind +:+ (d +:+ ":") +:+ x = (kind +:+ d) +:+ ":" +:+ x) as Hassoc.
    { intros d x. apply bytes_inj. by rewrite !bytes_app, <- !app_assoc. }
    apply elem_of_app in Hkey as [Hkey|Hkey].
    - apply elem_of_cons in Hkey as [->|Hkey%list_elem_of_singleton]; [|subst key].
      + exists "-account", (identityKey account). split; [apply (Hassoc "-account") | set_solver].
      + exists "-global", kind. split; [apply (Hassoc "-global") | set_solver].
    - destruct (_ =? "")%string; [by apply elem_of_nil in Hkey|]. apply list_elem_of_singleton in Hkey as ->.
      exists "-source", (identityKey source). split; [apply (Hassoc "-source") | set_solver]. }
  repeat (apply elem_of_cons in Hk as [->|Hk]); [..|by apply elem_of_nil in Hk];
    (repeat (apply elem_of_cons in Hd as [->|Hd]); [..|by apply elem_of_nil in Hd]);
    (rewrite key_kind_of by (repeat constructor; discriminate)); vm_compute; by eexists.
Qed.

(** ** The script admits no more than the limit *)

Section Counting.
Context `{Crypto} {R : Type} `{!Redis R} `{!RedisLaws R} `{!IdRedis R}.
Notation args := (list (string * Z * Z)).
Definition arg_key (a : string * Z * Z) : string := fst (fst a).

Lemma script_skips now K t (keys : args) : forall b (r : R),
  K ∉ map arg_key keys -> live (fst (allowManyScript now keys b r)) t K = live r t K.
Proof.
  induction keys as [|[[k l] w] keys IH]; intros b r HK; [done|]. cbn [allowManyScript map] in *.
  apply not_elem_of_cons in HK as [HK Hrest]. cbn in HK.
  pose proof (incr_other now k K r HK t) as Hi. destruct (redis_incr now k r) as [r1 n]. cbn in Hi.
  rewrite IH by done. by rewrite expire_if_other.
Qed.
Lemma script_false now (keys : args) : forall (r : R), snd (allowManyScript now keys false r) = false.
Proof.
  induction keys as [|[[k l] w] keys IH]; intros r; [done|]. cbn [allowManyScript].
  destruct (redis_incr now k r) as [r1 n]. destruct (l <? n); apply IH.
Qed.

(** One run over keys that contain [K] once: its counter counts the run, and
    the run is refused when the count is over the limit. *)
Lemma script_counts_once now K L W t before after b (r : R) r' ok :
  K ∉ map arg_key before -> K ∉ map arg_key after -> now <= t < now + W ->
  allowManyScript now (before ++ (K, L, W) :: after) b r = (r', ok) ->
  match live r now K with
  | None => live r' t K = Some (1, Some (now + W)) /\ (ok = true -> 1 <= L)
  | Some (v, Some e) => t < e -> 0 < v -> live r' t K = Some (v + 1, Some e) /\ (ok = true -> v + 1 <= L)
  | Some (_, None) => True
  end.
Proof.
  intros Hb Ha Ht. revert b r. induction before as [|[[k l] w] before IH]; intros b r.
  - cbn [app allowManyScript]. destruct (redis_incr now K r) as [r1 n] eqn:Hi. apply incr_self in Hi as [Hn Hl].
    set (r2 := if n =? 1 then _ else _). intros Hrun.
    pose proof (script_skips now K t after (if L <? n then false else b) r2 Ha) as Hskip. rewrite Hrun in Hskip.
    cbn [fst] in Hskip. rewrite Hskip.
    assert (ok = true -> n <= L) as Hok.
    { intros ->. destruct (L <? n) eqn:HL; [|by apply Z.ltb_ge in HL].
      pose proof (script_false now after r2) as Hf. rewrite Hrun in Hf. discriminate Hf. }
    subst r2. destruct (live r now K) as [[v [e|]]|] eqn:Hlive; [|done|].
    + intros Hte Hv. rewrite (proj2 (Z.eqb_neq n 1)), Hl by lia. rewrite (proj2 (Z.ltb_lt t e)) by lia.
      split; [done|]. intros Ht'%Hok. lia.
    + subst n. cbn [Z.eqb Pos.eqb]. rewrite (expire_self now K W r1 1 None) by (rewrite ?Hl; done || lia).
      rewrite (proj2 (Z.ltb_lt t (now + W))) by lia. done.
  - cbn [map] in Hb. apply not_elem_of_cons in Hb as [Hk Hb]. cbn in Hk. cbn [app allowManyScript].
    pose proof (incr_other now k K r Hk now) as Hi. destruct (redis_incr now k r) as [r1 n]. cbn in Hi.
    intros Hrun. pose proof (IH Hb _ _ Hrun) as Hend.
    by rewrite (expire_if_other now k K w (n =? 1) r1 now Hk), Hi in Hend.
Qed.

(** Runs at growing times, each over its keys. *)
Fixpoint runs (calls : list (Z * args)) (r : R) : list (args * bool) :=
  match calls with
  | [] => []
  | (now, keys) :: rest => let '(r', ok) := allowManyScript now keys true r in (keys, ok) :: runs rest r'
  end.
Definition mentions (K : string) (keys : args) : bool := existsb (fun a => (arg_key a =? K)%string) keys.
Definition admissions (K : string) (l : list (args * bool)) : nat :=
  length (List.filter (fun p => mentions K (fst p) && snd p) l).
(** The keys contain [K] once, with its limit and window, or not at all. *)
Definition once_or_not (K : string) (L W : Z) (keys : args) : Prop :=
  K ∉ map arg_key keys \/
  exists before after, keys = (before ++ (K, L, W) :: after)%list /\ K ∉ map arg_key before /\ K ∉ map arg_key after.

(** After [n] admissions: the counter has not started, or holds at least them. *)
Definition tallied (K : string) (L stop n : Z) (r : R) (t : Z) : Prop :=
  (live r t K = None /\ n = 0) \/
  exists v e, live r t K = Some (v, Some e) /\ stop <= e /\ 0 < v /\ n <= v /\ n <= L.

Lemma tallied_later K L stop n (r : R) t t' :
  tallied K L stop n r t -> t <= t' -> t' < stop -> tallied K L stop n r t'.
Proof.
  intros [[Hl Hn]|(v & e & Hl & He & Hv)] Ht Hs; unfold tallied; rewrite (live_ages r t t' K Ht), Hl; [by left|].
  right. exists v, e. by rewrite (proj2 (Z.ltb_lt t' e)) by lia.
Qed.

Lemma mentions_not K keys : mentions K keys = false <-> K ∉ map arg_key keys.
Proof.
  unfold mentions. rewrite <- not_true_iff_false, existsb_exists, list_elem_of_fmap. split.
  - intros Hn (a & -> & Ha). apply Hn. exists a. split; [by apply list_elem_of_In | by apply String.eqb_eq].
  - intros Hn (a & Ha & <-%String.eqb_eq). apply Hn. exists a. split; [done | by apply list_elem_of_In].
Qed.

Lemma tallied_run K L W stop n (r r' : R) now keys ok :
  0 < L -> 0 < W -> stop <= now + W -> now < stop -> once_or_not K L W keys -> tallied K L stop n r now ->
  allowManyScript now keys true r = (r', ok) ->
  tallied K L stop (n + (if mentions K keys && ok then 1 else 0)) r' now.
Proof.
  intros HL HW Hstop Hnow Hkeys Ht Hrun. destruct Hkeys as [Hno|(before & after & -> & Hb & Ha)].
  - pose proof (script_skips now K now keys true r Hno) as Hl. rewrite Hrun in Hl. cbn in Hl.
    rewrite (proj2 (mentions_not K keys) Hno), Z.add_0_r. unfold tallied. by rewrite Hl.
  - pose proof (script_counts_once now K L W now before after true r r' ok Hb Ha ltac:(lia) Hrun) as Hc.
    assert (mentions K (before ++ (K, L, W) :: after) = true) as ->.
    { unfold mentions. rewrite existsb_app. cbn. by rewrite String.eqb_refl, orb_true_r. }
    cbn [andb]. destruct Ht as [[Hl Hn]|(v & e & Hl & He & Hv & Hnv & HnL)]; rewrite Hl in Hc; right.
    + destruct Hc as [Hl' Hok]. exists 1, (now + W). split_and!; [done | lia | lia | |]; destruct ok; lia.
    + destruct Hc as [Hl' Hok]; [lia | done|]. exists (v + 1), e. split_and!; [done | lia | lia | |]; destruct ok; lia.
Qed.

Lemma admissions_bound K L W stop calls : forall n t (r : R),
  0 < L -> 0 < W -> stop <= t + W ->
  Forall (fun c => t <= fst c < stop /\ once_or_not K L W (snd c)) calls -> StronglySorted Z.le (map fst calls) ->
  tallied K L stop n r t -> n + Z.of_nat (admissions K (runs calls r)) <= L.
Proof.
  induction calls as [|[now keys] calls IH]; intros n t r HL HW Hstop Hall Hsort Ht.
  { cbn. destruct Ht as [[_ ->]|(v & e & _ & _ & _ & _ & Hn)]; lia. }
  apply Forall_cons in Hall as [[Hnow Hk] Hall]. cbn [fst snd] in Hnow, Hk. cbn in Hsort.
  apply StronglySorted_inv in Hsort as [Hsort Hle]. cbn [runs].
  destruct (allowManyScript now keys true r) as [r' ok] eqn:Hrun.
  assert (tallied K L stop n r now) as Ht' by (eapply tallied_later; [exact Ht | lia | lia]).
  pose proof (tallied_run K L W stop n r r' now keys ok HL HW ltac:(lia) ltac:(lia) Hk Ht' Hrun) as Hnext.
  assert (Forall (fun c => now <= fst c < stop /\ once_or_not K L W (snd c)) calls) as Hall'.
  { apply Forall_forall. intros c Hc. rewrite Forall_forall in Hall. destruct (Hall c Hc) as [[_ Hs] Ho].
    rewrite Forall_forall in Hle. split; [|done]. split; [|done]. apply Hle, list_elem_of_fmap. eauto. }
  pose proof (IH _ now r' HL HW ltac:(lia) Hall' Hsort Hnext) as Hb.
  unfold admissions in *. cbn [List.filter fst snd]. destruct (mentions K keys && ok); cbn [length]; lia.
Qed.
End Counting.

(** From the call that starts a counter on, and for as long as its window
    lasts, the calls of a key that are admitted are no more than its limit,
    whatever other keys the calls name and however they interleave. *)
Theorem identity_windows_admit_their_limit `{Crypto} {R : Type} `{!Redis R} `{!RedisLaws R} K L W start calls (r : R) :
  0 < L -> 0 < W -> live r start K = None ->
  Forall (fun c => start <= fst c < start + W /\ once_or_not K L W (snd c)) calls -> StronglySorted Z.le (map fst calls) ->
  Z.of_nat (admissions K (runs calls r)) <= L.
Proof.
  intros HL HW Hfresh Hall Hsort.
  apply (admissions_bound K L W (start + W) calls 0 start r HL HW ltac:(lia) Hall Hsort). by left.
Qed.
