(* ===== verification/IdentityRelay.v ===== *)
(** * Identity: the relay of the outbox

    [apps/identity/internal/adapters/outbound/kafka/publisher.go]: pending
    events are written to Kafka in the order they were created, and marked.  A
    write succeeds, fails before the broker kept the message, or fails after:
    the acknowledgement is lost. *)
From Stdlib Require Import ZArith Lia Ascii String.
From stdpp Require Import base gmap strings list relations pretty.
From S2P Require Import Prelude GoStrings GoErrors GoTime GoJson Tx.
From S2P Require Import IdentityDomain IdentityTables IdentityStore IdentityService IdentityFacts.

Open Scope string_scope.
Open Scope Z_scope.
Open Scope go_scope.

Class KafkaWriter := { kafka_trip : nat -> trip }.
Record AuditMessage := mkAuditMessage {
  am_Topic : string; am_Key : string; am_Value : string; am_Headers : list (string * string)
}.
Record Relay := mkIdRelay { ry_store : St IdDB (list Mail); ry_log : list AuditMessage }.

(** [NewPublisher]: the brokers it connects to. *)
Definition publisher_addresses `{GoLib} (brokers : string) : list string :=
  List.filter (fun a => negb (a =? "")%string) (map TrimSpace (Split brokers ",")).
Definition boundedError (err : goerr) : string := take_string 256 (ErrorText err).

Section Relay.
Context `{GoLib} `{Env} `{Pg} `{KafkaWriter}.

Definition audit_message (event : EventRow) : AuditMessage :=
  mkAuditMessage "commerce.security.audit.v1" (e_aggregate_id event) (jsonb_out (e_payload event))
    [("event_type", e_event_type event); ("event_id", e_id event)].
Definition Publish (event : EventRow) (r : Relay) : Relay * option goerr :=
  let s := ry_store r in
  let written := mkIdRelay (advance s) (ry_log r ++ [audit_message event])%list in
  match kafka_trip (tick s) with
  | TripOk => (written, None)
  | TripFailed e => (mkIdRelay (advance s) (ry_log r), Some e)
  | TripLost e => (written, Some e)
  end.
Definition on_rows {A} (m : M IdDB (list Mail) A) (r : Relay) : Relay * result goerr A :=
  let '(s, res) := m (ry_store r) in (mkIdRelay s (ry_log r), res).

(** The loop of [publishBatch]: the first error ends the batch. *)
Fixpoint publish_events (events : list EventRow) (r : Relay) : Relay * result goerr unit :=
  match events with
  | [] => (r, Ok tt)
  | event :: rest =>
      match Publish event r with
      | (r, Some e) =>
          let '(r, _) := on_rows (Store_MarkOutboxFailed (e_id event) (boundedError e)) r in (r, Err e)
      | (r, None) =>
          match on_rows (let! now := timeNow in Store_MarkOutboxPublished (e_id event) (UTC now)) r with
          | (r, Err e) => (r, Err e)
          | (r, Ok _) => publish_events rest r
          end
      end
  end.
Definition Relay_publishBatch (r : Relay) : Relay * result goerr unit :=
  match on_rows (PendingOutbox 100) r with
  | (r, Err e) => (r, Err e)
  | (r, Ok events) => publish_events events r
  end.

(** [Run]: a batch, whose error is left for the next one, then the select on the
    context and the ticker; [None] while it still runs. *)
Inductive poll := ContextDone | NextTick.
Fixpoint Relay_Run (polls : list poll) (r : Relay) : Relay * option (result goerr unit) :=
  let '(r, _) := Relay_publishBatch r in
  match polls with
  | [] => (r, None)
  | ContextDone :: _ => (r, Some (Ok tt))
  | NextTick :: rest => Relay_Run rest r
  end.

(** ** A published event was written *)

Definition written_out (log : list AuditMessage) (d : IdDB) : Prop :=
  forall row, row ∈ id_outbox d -> e_published_at row <> None -> audit_message row ∈ log.
(** The rows with the event's id carry the event's message. *)
Definition tells (d : IdDB) (event : EventRow) : Prop :=
  forall row, row ∈ id_outbox d -> e_id row = e_id event -> audit_message row = audit_message event.

Lemma query_run {A} (q : IdDB -> result goerr (IdDB * A)) (s s' : St IdDB (list Mail)) res :
  query q s = (s', res) -> db s' = db s \/ exists a, q (db s) = Ok (db s', a).
Proof.
  unfold query, mapE, exec, stmt. destruct (trip_at (tick s)); [|intros [= <- <-]; by left|];
    (destruct (q (db s)) as [[d a]|err]; intros [= <- <-]; [right; by exists a | by left]).
Qed.

(** A mark rewrites the rows of one id and no message. *)
Lemma mark_keeps id upd d d' u :
  (forall row, audit_message (upd row) = audit_message row /\ e_id (upd row) = e_id row) ->
  IdQueries.attempt_on id upd d = Ok (d', u) ->
  (forall event, tells d event -> tells d' event) /\
  (forall log, written_out log d ->
     (forall row, row ∈ id_outbox d -> e_id row = id -> e_published_at (upd row) <> e_published_at row ->
        audit_message row ∈ log) -> written_out log d').
Proof.
  intros Hupd. unfold IdQueries.attempt_on. intros Hm. go_inv Hm.
  assert (forall row', row' ∈ id_outbox (set_id_outbox d (map (fun r => if (e_id r =? id)%string then upd r else r) (id_outbox d))) ->
    exists row, row ∈ id_outbox d /\ audit_message row' = audit_message row /\ e_id row' = e_id row /\
      (e_published_at row' = e_published_at row \/ e_id row = id /\ e_published_at row' = e_published_at (upd row))) as Hback.
  { intros row'. destruct d; cbn. intros (row & -> & Hrow)%list_elem_of_fmap. exists row. split; [done|].
    destruct (e_id row =? id)%string eqn:Hid; [apply String.eqb_eq in Hid|]; [|auto].
    destruct (Hupd row) as [-> ->]. auto. }
  split.
  - intros event Ht row' (row & Hrow & Hmsg & Hid & _)%Hback E. rewrite Hmsg. apply Ht; congruence.
  - intros log Hw Hnew row' (row & Hrow & Hmsg & Hid & Hpub)%Hback Hp. rewrite Hmsg.
    destruct Hpub as [Hpub|[Hi Hpub]]; [apply Hw; congruence|].
    destruct (decide (e_published_at (upd row) = e_published_at row)); [apply Hw; congruence | auto].
Qed.

Lemma Publish_run event r r' e :
  Publish event r = (r', e) ->
  db (ry_store r') = db (ry_store r) /\ (forall m, m ∈ ry_log r -> m ∈ ry_log r') /\
  (e = None -> audit_message event ∈ ry_log r').
Proof. unfold Publish. destruct (kafka_trip _); intros [= <- <-]; cbn; set_solver. Qed.

Lemma mark_failed_run id reason r r' res :
  on_rows (Store_MarkOutboxFailed id reason) r = (r', res) -> ry_log r' = ry_log r /\
  (written_out (ry_log r) (db (ry_store r)) -> written_out (ry_log r') (db (ry_store r'))).
Proof.
  unfold on_rows. destruct (Store_MarkOutboxFailed id reason (ry_store r)) as [s' x] eqn:Hq. intros [= <- <-].
  cbn [ry_log ry_store]. split; [done|]. apply query_run in Hq as [->|([] & Hq)]; [done|].
  apply mark_keeps in Hq as [_ Hw]; [|done]. intros Hlog. by apply Hw.
Qed.
Lemma mark_published_run event r r' res :
  on_rows (let! now := timeNow in Store_MarkOutboxPublished (e_id event) (UTC now)) r = (r', res) ->
  tells (db (ry_store r)) event -> audit_message event ∈ ry_log r -> ry_log r' = ry_log r /\
  (forall other, tells (db (ry_store r)) other -> tells (db (ry_store r')) other) /\
  (written_out (ry_log r) (db (ry_store r)) -> written_out (ry_log r') (db (ry_store r'))).
Proof.
  unfold on_rows. intros Hrun Ht Hin.
  unfold bind, timeNow in Hrun. cbv beta iota zeta in Hrun.
  destruct (Store_MarkOutboxPublished _ _ _) as [s' x] eqn:Hq. injection Hrun as <- <-.
  cbn [ry_log ry_store]. split; [done|].
  apply query_run in Hq as [Hq|([] & Hq)]; cbn [db advance] in Hq; [by rewrite Hq|].
  apply mark_keeps in Hq as [Hk Hw]; [|done]. split; [done|]. intros Hlog. apply Hw; [done|].
  intros row Hrow Hid _. by rewrite (Ht row Hrow Hid).
Qed.

Lemma publish_events_written events : forall r r' res,
  publish_events events r = (r', res) -> Forall (tells (db (ry_store r))) events ->
  written_out (ry_log r) (db (ry_store r)) -> written_out (ry_log r') (db (ry_store r')).
Proof.
  induction events as [|event events IH]; intros r r' res; cbn [publish_events]; [by intros [= <- <-]|].
  destruct (Publish event r) as [r1 e] eqn:Hp. apply Publish_run in Hp as (Hdb & Hlog & Hin).
  intros Hrun [Ht Hall]%Forall_cons Hw. rewrite <- Hdb in Ht, Hall.
  assert (written_out (ry_log r1) (db (ry_store r1))) as Hw1 by (rewrite Hdb; intros row Hr Hpub; by apply Hlog, Hw).
  destruct e as [e|].
  - destruct (on_rows _ r1) as [r2 x] eqn:Hm. injection Hrun as <- <-. by apply (mark_failed_run _ _ _ _ _ Hm).
  - destruct (on_rows _ r1) as [r2 x] eqn:Hm.
    destruct (mark_published_run event r1 r2 x Hm Ht (Hin eq_refl)) as (_ & Hk & Hw2).
    destruct x as [u|e]; [|injection Hrun as <- <-; by apply Hw2].
    eapply IH; [exact Hrun | | by apply Hw2]. eapply Forall_impl; [exact Hall | exact Hk].
Qed.

Lemma PendingOutbox_run limit (s s' : St IdDB (list Mail)) res :
  PendingOutbox limit s = (s', res) -> db s' = db s /\ forall events, res = Ok events -> events ⊆ id_outbox (db s).
Proof.
  intros Hq. split.
  - apply query_run in Hq as [Hdb|(a & Ha)]; [done|]. unfold IdQueries.ListPendingOutbox in Ha.
    by destruct (limited _ _); simplify_eq.
  - intros events ->. apply query_ok in Hq. unfold IdQueries.ListPendingOutbox, limited in Hq.
    destruct (limit <? 0); [done|]. injection Hq as _ <-. intros event Hin. apply elem_of_take in Hin as (i & Hi & _).
    apply list_elem_of_lookup_2 in Hi. rewrite order_by_Permutation in Hi. by apply list_elem_of_filter in Hi as [_ Hi].
Qed.

Lemma unique_rows_tell d event :
  NoDup (map e_id (id_outbox d)) -> event ∈ id_outbox d -> tells d event.
Proof.
  intros Hnd Hin row Hrow Hid. apply list_elem_of_lookup_1 in Hin as (i & Hi), Hrow as (j & Hj).
  assert (i = j) as ->; [|congruence].
  apply (NoDup_lookup _ i j (e_id event) Hnd); apply list_lookup_fmap_Some; eauto.
Qed.

Lemma batch_written r r' res :
  NoDup (map e_id (id_outbox (db (ry_store r)))) -> written_out (ry_log r) (db (ry_store r)) ->
  Relay_publishBatch r = (r', res) -> written_out (ry_log r') (db (ry_store r')).
Proof.
  intros Hnd Hw. unfold Relay_publishBatch, on_rows.
  destruct (PendingOutbox 100 (ry_store r)) as [s1 events] eqn:Hq. apply PendingOutbox_run in Hq as [Hdb Hsub].
  destruct events as [events|e]; [|intros [= <- <-]; cbn; by rewrite Hdb].
  intros Hrun. eapply publish_events_written; [exact Hrun| |]; cbn [ry_store ry_log]; rewrite Hdb; [|done].
  apply Forall_forall. intros event Hin. apply unique_rows_tell; [done|]. by apply (Hsub events eq_refl).
Qed.

(** ** The relay leaves the rows' ids as they are *)

Definition outbox_ids (s : St IdDB (list Mail)) : list string := map e_id (id_outbox (db s)).
Lemma mark_ids id upd (s s' : St IdDB (list Mail)) res : (forall row, e_id (upd row) = e_id row) ->
  query (IdQueries.attempt_on id upd) s = (s', res) -> outbox_ids s' = outbox_ids s.
Proof.
  intros Hupd [Hdb|(a & Hq)]%query_run; unfold outbox_ids; [by rewrite Hdb|].
  unfold IdQueries.attempt_on in Hq. go_inv Hq. destruct s' as [d1 l1 t1]. cbn in *. subst d1. destruct (db s); cbn. rewrite map_map. apply map_ext.
  intros row. destruct (_ =? _)%string; [apply Hupd | done].
Qed.
Lemma publish_events_ids events : forall r r' res,
  publish_events events r = (r', res) -> outbox_ids (ry_store r') = outbox_ids (ry_store r).
Proof.
  induction events as [|event events IH]; intros r r' res; cbn [publish_events]; [by intros [= <- <-]|].
  destruct (Publish event r) as [r1 e] eqn:Hp. apply Publish_run in Hp as (Hdb & _ & _).
  assert (outbox_ids (ry_store r1) = outbox_ids (ry_store r)) as <- by (unfold outbox_ids; by rewrite Hdb).
  destruct e as [e|]; unfold on_rows.
  - destruct (Store_MarkOutboxFailed _ _ _) as [s2 x] eqn:Hm. intros [= <- <-]. by eapply mark_ids; [|exact Hm].
  - unfold bind, timeNow. cbv beta iota zeta. destruct (Store_MarkOutboxPublished _ _ _) as [s2 x] eqn:Hm.
    assert (outbox_ids s2 = outbox_ids (ry_store r1)) as Hids by (by eapply (mark_ids _ _ (advance _)); [|exact Hm]).
    destruct x as [u|err]; [|by intros [= <- <-]]. intros Hrun. apply IH in Hrun. cbn in Hrun. by rewrite Hrun, Hids.
Qed.
Lemma batch_ids r r' res : Relay_publishBatch r = (r', res) -> outbox_ids (ry_store r') = outbox_ids (ry_store r).
Proof.
  unfold Relay_publishBatch, on_rows.
  destruct (PendingOutbox 100 (ry_store r)) as [s1 events] eqn:Hq. apply PendingOutbox_run in Hq as [Hdb _].
  assert (outbox_ids s1 = outbox_ids (ry_store r)) as <- by (unfold outbox_ids; by rewrite Hdb).
  destruct events; [apply publish_events_ids | by intros [= <- <-]].
Qed.

(** The relay marks no event published whose message, with the event's key,
    payload and headers, was not written to Kafka, for as long as it runs,
    whatever fails and whichever acknowledgement is lost; and no error of a
    batch ends it. *)
Theorem identity_events_were_written polls : forall r r' res,
  NoDup (outbox_ids (ry_store r)) -> written_out (ry_log r) (db (ry_store r)) ->
  Relay_Run polls r = (r', res) -> written_out (ry_log r') (db (ry_store r')) /\
  (res = None \/ res = Some (Ok tt)).
Proof.
  induction polls as [|p polls IH]; intros r r' res Hnd Hw; cbn [Relay_Run];
    destruct (Relay_publishBatch r) as [r1 x] eqn:Hb; pose proof (batch_written _ _ _ Hnd Hw Hb) as Hw1.
  - intros [= <- <-]. auto.
  - destruct p; [intros [= <- <-]; auto|]. apply IH; [|done]. by rewrite (batch_ids _ _ _ Hb).
Qed.
End Relay.
