(* ===== verification/IdentityProcess.v ===== *)
(** * Identity: the parts put together

    [apps/identity/cmd/api/main.go] gives the service its ports and the server
    its settings.  With them, what signing in issues is what the interface
    accepts: the token the service signed opens the routes behind [auth] for
    the user's own session. *)
From Stdlib Require Import ZArith Lia Ascii String.
From stdpp Require Import base gmap strings list relations pretty.
From S2P Require Import Prelude GoStrings GoErrors GoTime GoBase64 GoCrypto GoJson GoURL GoHttp Tx.
From S2P Require Import IdentityConfig IdentityDomain IdentityTables IdentityStore IdentityService IdentityCrypto.
From S2P Require Import IdentityHTTP IdentityHTTPFacts IdentityFacts IdentityInvariant IdentityCalls IdentityTheorems.

Open Scope string_scope.
Open Scope Z_scope.
Open Scope go_scope.

(** What the process gets from its host and the other machines, by event. *)
Class IdHost := {
  random_bytes : nat -> Z -> result goerr string;
  new_v7 : nat -> result goerr string;
  rate_reply : nat -> list string -> result goerr bool;
  smtp_reply : nat -> result goerr unit;
  parse_address : string -> option string;
  far_year : Time -> string
}.

Section Wiring.
Context `{GoLib} `{Crypto} `{Argon} `{JwtLib} `{JwtSigner} `{IdHost} `{Env}.

(** The ports of [NewService] in [run]. *)
Definition identity_ports (signer : Signer) : IdPorts := {|
  pw_Hash := fun n p => Hasher_Hash NewPasswordHasher (random_bytes n 16) p;
  pw_Verify := Hasher_Verify;
  tk_NewOpaque := fun n size => TokenService_NewOpaque size (random_bytes n size);
  tk_HashOpaque := HashOpaque;
  tk_Sign := fun n subject audience kind sid rls scopes ttl =>
    TokenService_Sign (Some signer) (clock_at n) (new_v7 n) subject audience kind sid rls scopes ttl;
  lim_reply := rate_reply;
  mail_reply := smtp_reply;
  uuid_NewV7 := new_v7;
  mail_ParseAddress := parse_address;
  far_year_text := far_year
|}.

(** The service and the server of [run], by the configuration. *)
Definition run_service (c : Config) : result goerr Service :=
  NewService true true true true ManyLimiter true (HumanAudience c) (MachineAudience c).
Definition run_server (c : Config) (svc : Service) (signer : Signer) : Server := {|
  srv_identity := Some svc; srv_signer := Some signer; srv_revocations := true; srv_revoker := true;
  srv_emergencyRevocation := EmergencyRevocation c; srv_demoRegistration := DemoRegistration c;
  srv_humanAudience := HumanAudience c; srv_machineAudience := MachineAudience c; srv_gatewaySubject := "svc_gateway";
  srv_testMailer := negb (MailerMode c =? "smtp")%string && TestMailerEnabled c;
  srv_trustProxyHeaders := TrustProxyHeaders c
|}.
End Wiring.

(** ** What is relied on *)

(** A token is valid at a time: from its start, before its end. *)
Definition within (claims : JwtClaims) (now : Time) : Prop :=
  (forall t, cl_NotBefore claims = Some t -> nanos t <= nanos now) /\
  (forall t, cl_ExpiresAt claims = Some t -> nanos now < nanos t).
(** The JWT library reads back what it signed, under the matching public key,
    for the issuer and audience it was signed for, while the claims are valid. *)
Class JwtLaws `{JwtLib} `{JwtSigner} := {
  (** Three parts of base64 with full stops between them. *)
  signed_plain : forall private kid issuer audience claims raw,
    jwt_SignedString private kid issuer [audience] claims = Ok raw -> plain raw /\ raw <> "";
  signed_kid : forall private kid issuer audience claims raw options,
    jwt_SignedString private kid issuer [audience] claims = Ok raw ->
    jo_methods options = ["EdDSA"] -> jwt_kid options raw = Some (Some kid);
  signed_claims_read : forall private kid issuer audience claims raw options now,
    jwt_SignedString private kid issuer [audience] claims = Ok raw ->
    jo_methods options = ["EdDSA"] -> jo_issuer options = issuer -> jo_audience options = audience ->
    within claims now -> jwt_claims options raw (public_half private) now = Some claims
}.

(** The signer holds the public half of its own key under its key id. *)
Definition own_key (sg : Signer) : Prop := sg_publicKeys sg !! sg_kid sg = Some (public_half (sg_privateKey sg)).
Lemma NewSigner_own_key private kid issuer sg : NewSigner private kid issuer = Ok sg -> own_key sg.
Proof. unfold NewSigner. intros Hs. go_inv Hs. apply lookup_singleton_eq. Qed.

Section Accepted.
Context `{GoLib} `{Crypto} `{Argon} `{JwtLaws} `{IdHost} `{Env}.

(** A token of the signer is taken by every parser for its issuer and audience
    while it lasts. *)
Lemma signed_is_read sg n id subject audience kind sid rls scopes ttl raw options now :
  Signer_Sign sg (clock_at n) (Ok id) subject audience kind sid rls scopes ttl = Ok raw ->
  jo_methods options = ["EdDSA"] -> jo_issuer options = sg_issuer sg -> jo_audience options = audience ->
  nanos (clock_at n) <= nanos now -> nanos now + Second <= nanos (clock_at n) + ttl ->
  plain raw /\ raw <> "" /\ jwt_kid options raw = Some (Some (sg_kid sg)) /\
  jwt_claims options raw (public_half (sg_privateKey sg)) now =
    Some (signed_claims subject kind sid id rls scopes ttl (UTC (clock_at n))).
Proof.
  intros Hs Hm Hi Ha Hfrom Hto. destruct (signed_plain _ _ _ _ _ _ Hs) as [Hp Hne]. split; [done|]. split; [done|].
  split; [by eapply signed_kid|]. eapply signed_claims_read; try done.
  split; intros t [= <-]; cbn [nanos NumericDate UTC Add].
  - pose proof (Z.mul_div_le (nanos (clock_at n)) Second ltac:(done)). lia.
  - pose proof (Z.mod_pos_bound (nanos (clock_at n) + ttl) Second ltac:(done)).
    pose proof (Z.div_mod (nanos (clock_at n) + ttl) Second ltac:(done)). lia.
Qed.
(** The signer itself verifies it. *)
Lemma signed_verifies sg n jti subject audience kind sid rls scopes ttl raw now :
  own_key sg -> jti = new_v7 n -> Signer_Sign sg (clock_at n) jti subject audience kind sid rls scopes ttl = Ok raw ->
  nanos (clock_at n) <= nanos now -> nanos now + Second <= nanos (clock_at n) + ttl ->
  exists id, raw <> "" /\
    Signer_Verify sg now raw audience = Ok (signed_claims subject kind sid id rls scopes ttl (UTC (clock_at n))).
Proof.
  intros Hkey -> Hs Hfrom Hto. destruct (new_v7 n) as [id|e]; [|done]. exists id.
  destruct (signed_is_read _ _ _ _ _ _ _ _ _ _ _ (signer_options sg audience) now Hs) as (_ & Hne & Hk & Hc); [done..|].
  split; [done|]. unfold Signer_Verify. by rewrite Hk, Hkey, Hc.
Qed.

(** ** From signing in to being let in *)

Context `{Pg} `{UuidText} `{SourceLib} `{Revocations} (c : Config) (svc : Service) (sg : Signer).
#[local] Instance process_ports : IdPorts := identity_ports sg.
Local Notation srv := (run_server c svc sg).
Local Notation State := (St IdDB (list Mail)).

(** The server keeps an instant to the microsecond, the text of a UUID that was
    made is the text it parses to, and nothing is on the emergency list. *)
Definition keeps_instants : Prop := forall t, nanos t - 1000 <= nanos (pg_time t).
Definition parses_own_ids : Prop := forall n id, new_v7 n = Ok id -> uuid_Parse id = Some id.
Definition none_revoked : Prop := forall n id, is_revoked n id = Ok false.
(** From one event to another the database answers, and the clock moves on by
    less than nine minutes. *)
Definition quiet (first last : nat) : Prop :=
  (forall n, (first <= n <= last)%nat -> trip_at n = TripOk) /\
  (forall n m, (first <= n)%nat -> (n <= m <= last)%nat ->
     nanos (clock_at n) <= nanos (clock_at m) < nanos (clock_at n) + 9 * Minute).

Lemma session_found sid row (s : State) :
  sessions (db s) !! sid = Some row -> trip_at (tick s) = TripOk ->
  Session_IsUsable (mapSession row) (clock_at (S (tick s))) = true ->
  session_active sid s = (advance (advance s), true).
Proof.
  intros Hrow Htrip Huse. unfold session_active, IsSessionActive, FindSessionByID, query, bind, mapE, exec, stmt.
  rewrite Htrip. unfold IdQueries.GetSessionByID. rewrite Hrow. cbn -[Session_IsUsable]. by rewrite Huse.
Qed.

Lemma live_human_passes claims sid row (s : State) :
  none_revoked -> uuid_Parse (cl_SessionID claims) = Some sid -> sessions (db s) !! sid = Some row ->
  (forall n, (tick s <= n <= 2 + tick s)%nat ->
     trip_at n = TripOk /\ Session_IsUsable (mapSession row) (clock_at n) = true) ->
  exists s', requireActiveHumanSession srv claims s = (s', true) /\ db s' = db s.
Proof.
  intros Hnone Hsid Hrow Hev. unfold requireActiveHumanSession.
  destruct (srv_emergencyRevocation srv && srv_revocations srv); [rewrite Hnone|]; cbn iota; rewrite Hsid;
    cbn [srv_identity run_server]; (erewrite session_found; [eexists; split; [reflexivity | done] | exact Hrow | |]);
    apply Hev; cbn; lia.
Qed.

(** What signing in issues is what the interface accepts: on a process put
    together as in main, the access token of a sign-in that succeeded, sent
    within nine minutes and while its session is still in the rows, passes
    [auth] on every protected route, and the handler runs for the user who
    signed in, with exactly the user's roles and scopes. *)
Theorem issued_tokens_are_accepted email password cid source (s s' s2 : State) cred user rls next r cid2 w :
  keeps_instants -> parses_own_ids -> none_revoked -> own_key sg -> run_service c = Ok svc -> wf (db s) ->
  Login svc email password cid source s = (s', Ok (cred, user, rls)) ->
  (tick s' <= tick s2)%nat -> sessions (db s2) = sessions (db s') -> quiet (tick s) (3 + tick s2) ->
  token_of r = AccessToken cred ->
  exists claims s3, auth srv next r cid2 w s2 = next claims r cid2 w s3 /\ db s3 = db s2 /\
    cl_TokenKind claims = "human" /\ cl_Subject claims = userRef (u_ID user) /\
    cl_Roles claims = roleNames rls /\ cl_Scopes claims = scopeNames rls.
Proof.
  intros Hpg Hids Hnone Hkey Hsvc Hwf Hlogin Htick Hsess [Htrips Hclock] Htok.
  assert (humanAudience svc = HumanAudience c /\ HumanAudience c <> "") as [Haud Hne].
  { unfold run_service, NewService in Hsvc. destruct (_ || _) eqn:Hb in Hsvc; [done|].
    destruct ((HumanAudience c =? "")%string) eqn:He; [done|]. apply String.eqb_neq in He. go_inv Hsvc. done. }
  apply Login_ok in Hlogin as (k & urow & pairs & s1 & _ & _ & _ & _ & _ & _ & _ & _ & _ & Hdb & Ht1 & Hcs); [|done].
  apply createSession_ok in Hcs as (sid & row & _ & Hrow & _ & Hst & _ & Hexp & Hsid & _ & Hsign & Hlast).
  set (n := (4 + tick s1)%nat) in *. rewrite Haud in Hsign.
  assert (nanos (clock_at n) <= nanos (clock_at (tick s2)) < nanos (clock_at n) + 9 * Minute) as Hnow
    by (apply Hclock; lia).
  destruct (signed_verifies sg n _ _ _ _ _ _ _ _ _ (clock_at (tick s2)) Hkey eq_refl Hsign) as (id & Hraw & Hv);
    [lia | unfold accessTokenTTL, Minute, Second in *; lia|].
  set (claims := signed_claims _ _ _ _ _ _ _ _) in *.
  destruct (live_human_passes claims sid row (advance s2)) as (s3 & Hlive & Hd3); [done | by eapply Hids | | |].
  - cbn [db advance]. by rewrite Hsess, Hrow, lookup_insert_eq.
  - intros m Hm. cbn [tick advance] in Hm. split; [apply Htrips; lia|].
    unfold Session_IsUsable, mapSession. cbn [se_Status se_ExpiresAt]. rewrite Hst, Hexp. cbn [String.eqb andb].
    apply andb_true_iff. split; [done|]. apply Z.ltb_lt.
    pose proof (Hpg (Add (UTC (clock_at (tick s1))) refreshTokenTTL)) as Hp. cbn [nanos Add UTC] in Hp.
    assert (nanos (clock_at m) < nanos (clock_at (tick s1)) + 9 * Minute) by (apply Hclock; lia).
    unfold refreshTokenTTL, Hour, Minute, Second in *. lia.
  - exists claims, s3. split; [|done]. unfold auth, verify_now. cbn [srv_signer run_server srv_humanAudience].
    fold (token_of r). rewrite Htok, (proj2 (String.eqb_neq _ _) Hraw), (proj2 (String.eqb_neq _ _) Hne), Hv.
    cbn [claims signed_claims cl_TokenKind]. change ("human" =? "human")%string with true. cbn iota.
    by rewrite Hlive.
Qed.
End Accepted.
