(* ===== verification/IdentityStart.v ===== *)
(** * Identity: the process

    [run] of [apps/identity/cmd/api/main.go]: migrations, the signing key, the
    mailer, the two goroutines beside the server, and what is true of an
    Identity that came to serve. *)
From Stdlib Require Import ZArith Lia Ascii String.
From stdpp Require Import base gmap strings list.
From S2P Require Import Prelude GoStrings GoErrors GoTime GoURL GoHttp GoCrypto GoProcess Tx GatewayConfig.
From S2P Require Import IdentityConfig IdentityService IdentityCrypto IdentityHTTP IdentityMail IdentityRelay IdentityProcess.

Open Scope string_scope.
Open Scope Z_scope.
Open Scope go_scope.

(** Where mail goes: through a relay, or to the process's own mailbox, which
    the test route reads only when it is enabled. *)
Inductive MailerChoice := ThroughSMTP (m : SMTPMailer) | InMemory (mailbox_open : bool).
Record IdentityApp := mkIdentityApp {
  ia_config : Config;
  ia_signer : Signer;
  ia_mailer : MailerChoice;
  ia_service : Service;
  ia_health : list string;
  ia_brokers : list string;
  ia_server : Server
}.

Section Run.
Context `{GoLib} `{DurationLib} `{MailLib} `{Files} `{KeyFiles} `{Host}.
(** What [ed25519.GenerateKey] gave. *)
Context (generated : result goerr string).

Definition choose_signer (cfg : Config) : result goerr Signer :=
  if negb (SigningKeyPath cfg =? "")%string
  then LoadSignerWithHistory (SigningKeyPath cfg) (SigningKeyID cfg) (Issuer cfg) (SigningKeyHistoryDir cfg)
  else GenerateSigner generated (SigningKeyID cfg) (Issuer cfg).
Definition choose_mailer (cfg : Config) : MailerChoice :=
  if (MailerMode cfg =? "smtp")%string
  then ThroughSMTP (NewConfiguredSMTPMailer (SMTPHost cfg) (SMTPPort cfg) (SMTPUsername cfg) (SMTPPassword cfg)
                      (SMTPFrom cfg) (PublicAppURL cfg))
  else InMemory (TestMailerEnabled cfg).

(** *** The server *)

(** [NewServer], with nothing of the application yet. *)
Definition Server_new : Server :=
  mkServer None None false false false false "" "" "" false false.
(** [NewApplicationServer]; the test mailbox answers when it is enabled and the
    mailer is the in-memory one. *)
Definition NewApplicationServer (service : Service) (signer : Signer) (revocations : bool) (human : string)
    (demoRegistration testMailer mailbox : bool) : Server :=
  let s := Server_new in
  {| srv_identity := Some service; srv_signer := Some signer; srv_revocations := revocations; srv_revoker := revocations;
     srv_emergencyRevocation := srv_emergencyRevocation s; srv_demoRegistration := demoRegistration;
     srv_humanAudience := human; srv_machineAudience := srv_machineAudience s; srv_gatewaySubject := srv_gatewaySubject s;
     srv_testMailer := testMailer && mailbox; srv_trustProxyHeaders := srv_trustProxyHeaders s |}.
Definition SetTrustProxyHeaders (enabled : bool) (s : Server) : Server :=
  mkServer (srv_identity s) (srv_signer s) (srv_revocations s) (srv_revoker s) (srv_emergencyRevocation s)
    (srv_demoRegistration s) (srv_humanAudience s) (srv_machineAudience s) (srv_gatewaySubject s) (srv_testMailer s) enabled.
Definition SetEmergencyRevocation (enabled : bool) (s : Server) : Server :=
  mkServer (srv_identity s) (srv_signer s) (srv_revocations s) (srv_revoker s) enabled
    (srv_demoRegistration s) (srv_humanAudience s) (srv_machineAudience s) (srv_gatewaySubject s) (srv_testMailer s)
    (srv_trustProxyHeaders s).
Definition SetMachineAudience (audience : string) (s : Server) : Server :=
  mkServer (srv_identity s) (srv_signer s) (srv_revocations s) (srv_revoker s) (srv_emergencyRevocation s)
    (srv_demoRegistration s) (srv_humanAudience s) audience (srv_gatewaySubject s) (srv_testMailer s) (srv_trustProxyHeaders s).
Definition SetGatewayServiceSubject (subject : string) (s : Server) : Server :=
  mkServer (srv_identity s) (srv_signer s) (srv_revocations s) (srv_revoker s) (srv_emergencyRevocation s)
    (srv_demoRegistration s) (srv_humanAudience s) (srv_machineAudience s) subject (srv_testMailer s) (srv_trustProxyHeaders s).
Definition mailbox_of (m : MailerChoice) : bool := match m with InMemory open_ => open_ | ThroughSMTP _ => false end.
Definition build_server (cfg : Config) (service : Service) (signer : Signer) : Server :=
  SetGatewayServiceSubject "svc_gateway"
    (SetMachineAudience (MachineAudience cfg)
      (SetEmergencyRevocation (EmergencyRevocation cfg)
        (SetTrustProxyHeaders (TrustProxyHeaders cfg)
          (NewApplicationServer service signer true (HumanAudience cfg) (DemoRegistration cfg) (TestMailerEnabled cfg)
             (mailbox_of (choose_mailer cfg)))))).
(** The server [run] builds call by call is the one its settings describe. *)
Lemma build_server_settings cfg service signer : build_server cfg service signer = run_server cfg service signer.
Proof.
  unfold build_server, run_server, NewApplicationServer, choose_mailer. cbn.
  destruct (_ =? "smtp")%string; cbn; by rewrite ?andb_false_r, ?andb_diag.
Qed.

(** The service, its goroutines and its server, once the dependencies are there. *)
Definition identity_serve (cfg : Config) : Proc (W := IdentityApp) unit :=
  plet _ := acquire "redis" in
  plet signer := plift (choose_signer cfg) in
  plet service := plift (run_service cfg) in
  plet _ := hold "publisher" in
  plet _ := emit (Spawned "outbox relay") in
  plet _ := emit (Did "relay.SetPublishObserver") in
  plet _ := emit (Spawned "outbox backlog") in
  serve_until_signal (mkIdentityApp cfg signer (choose_mailer cfg) service ["postgresql"; "redis"]
                        (publisher_addresses (KafkaBrokers cfg)) (build_server cfg service signer)).
Definition identity_run (source : GatewayConfig.Source) : Proc (W := IdentityApp) unit :=
  plet cfg := plift (Load source) in
  plet _ := acquire "telemetry" in
  plet _ := hold "signals" in
  plet _ := acquire "postgresql" in
  plet _ := hold "startup context" in
  plet _ := attempt "database check" in
  plet _ := (if RunMigrations cfg then attempt "migrate" else pret tt) in
  if MigrationsOnly cfg then pret tt else identity_serve cfg.

(** The goroutine that reports the backlog: a count at once and at every tick;
    a failed count leaves the gauge. *)
Fixpoint backlog_gauge (counts : list (result goerr Z)) (gauge : Z) : Z :=
  match counts with
  | [] => gauge
  | Ok n :: rest => backlog_gauge rest n
  | Err _ :: rest => backlog_gauge rest gauge
  end.

#[export] Instance identity_serve_disciplined cfg : Disciplined (identity_serve cfg).
Proof. unfold identity_serve. apply _. Qed.
#[export] Instance identity_run_disciplined source : Disciplined (identity_run source).
Proof.
  unfold identity_run. repeat (apply disciplined_bind; [apply _|intros ?]).
  apply disciplined_bind; [destruct (RunMigrations _); apply _ | intros ?]. destruct (MigrationsOnly _); apply _.
Qed.
#[export] Instance identity_serve_grows cfg : Grows (identity_serve cfg).
Proof. unfold identity_serve. apply _. Qed.
End Run.

(** The key id and the issuer of a signer are those it was made for. *)
Lemma NewSigner_names private kid issuer sg : NewSigner private kid issuer = Ok sg -> sg_kid sg = kid /\ sg_issuer sg = issuer.
Proof. unfold NewSigner. intros Hs. by go_inv Hs. Qed.
Lemma choose_signer_names `{GoLib} `{Files} `{KeyFiles} generated cfg sg : choose_signer generated cfg = Ok sg ->
  sg_kid sg = SigningKeyID cfg /\ sg_issuer sg = Issuer cfg.
Proof.
  unfold choose_signer, LoadSignerWithHistory, GenerateSigner. intros Hs.
  destruct (negb _).
  - destruct (os_ReadFile _); [|done]. destruct (pem_Decode _); [|done]. destruct (ParsePKCS8PrivateKey _) as [[k|]|]; try done.
    destruct (NewSigner _ _ _) as [sg0|] eqn:Hn; [|done]. apply NewSigner_names in Hn. cbn in Hs.
    destruct (_ =? _)%string; [by injection Hs as <-|]. destruct (os_ReadDir _) as [es|]; [|done].
    destruct (add_history _ _ _ _); [|done]. by injection Hs as <-.
  - destruct generated; [|done]. by apply NewSigner_names in Hs.
Qed.

(** An Identity that serves was put together as its configuration says,
    after the database answered and, when they were asked for, the migrations
    went through; it signs under the configured key id for the configured
    issuer; a process started only for migrations never serves.  In production
    its key is read from a file, its mail goes through an authenticated relay,
    nobody reads tokens from a mailbox and registration is closed.  However
    [run] ends, everything it opened is closed in the opposite order. *)
Theorem identity_serves_only_when_ready `{GoLib} `{DurationLib} `{MailLib} `{Files} `{KeyFiles} `{Host} generated source t r :
  run_process (identity_run generated source) = (t, r) ->
  (exists body, t = (body ++ map Closed (rev (opened body)))%list /\ existsb is_close body = false) /\
  forall a, serves (identity_run generated source) (mkPSt [] [] 0) a ->
    let cfg := ia_config a in
    servings t = [a] /\ Load source = Ok cfg /\ MigrationsOnly cfg = false /\ Did "database check" ∈ t /\
    (RunMigrations cfg = true -> Did "migrate" ∈ t) /\
    sg_kid (ia_signer a) = SigningKeyID cfg /\ sg_issuer (ia_signer a) = Issuer cfg /\
    srv_signer (ia_server a) = Some (ia_signer a) /\ srv_humanAudience (ia_server a) = HumanAudience cfg /\
    (Environment cfg = "production" ->
       LoadSignerWithHistory (SigningKeyPath cfg) (SigningKeyID cfg) (Issuer cfg) (SigningKeyHistoryDir cfg) = Ok (ia_signer a) /\
       (exists m, ia_mailer a = ThroughSMTP m /\ blank (sm_username m) = false /\ blank (sm_password m) = false) /\
       srv_testMailer (ia_server a) = false /\ srv_demoRegistration (ia_server a) = false).
Proof.
  intros Hr. split; [by eapply run_process_closes; [apply identity_run_disciplined|]|]. intros a Hg.
  pose proof (served_once _ _ _ _ Hg Hr) as Hone. pose proof (ran_trace _ _ _ Hr) as Hin. clear Hr.
  unfold identity_run in Hg, Hin.
  served_step Hg Hin s1 cfg E1. served_step Hg Hin s2 u2 E2. served_step Hg Hin s3 u3 E3.
  served_step Hg Hin s4 u4 E4. served_step Hg Hin s5 u5 E5.
  served_step Hg Hin s6 u6 E6.
  assert (Did "database check" ∈ t) as Hcheck.
  { eapply Hin, attempt_stays; [|exact E6]. apply grows_bind; [destruct (RunMigrations cfg); apply _ | intros ?].
    destruct (MigrationsOnly cfg); apply _. }
  apply serves_bind in Hg as (s7 & u7 & E7 & Hg); [|destruct (RunMigrations cfg); apply _].
  rewrite (pbind_fst _ _ _ _ _ E7) in Hin.
  destruct (MigrationsOnly cfg) eqn:Honly.
  { exfalso. revert Hg. unfold serves. cbn. intros He%(f_equal length). rewrite length_app in He. cbn in He. lia. }
  assert (RunMigrations cfg = true -> Did "migrate" ∈ t) as Hmig.
  { intros Hm. rewrite Hm in E7. eapply Hin, attempt_stays; [apply _ | exact E7]. }
  clear Hin. unfold identity_serve in Hg.
  served_step Hg Hone s8 u8 E8. served_step Hg Hone s9 sg E9. served_step Hg Hone s10 svc E10.
  served_step Hg Hone s11 u11 E11. served_step Hg Hone s12 u12 E12. served_step Hg Hone s13 u13 E13.
  served_step Hg Hone s14 u14 E14. apply serves_now in Hg. subst a.
  apply plift_ok in E1 as [_ Hload], E9 as [_ Hsg].
  cbn [ia_config ia_signer ia_mailer ia_server]. split; [exact Hone|]. rewrite !build_server_settings.
  cbn [srv_signer srv_humanAudience srv_testMailer srv_demoRegistration run_server].
  destruct (choose_signer_names _ _ _ Hsg) as [Hkid Hiss]. split_and!; try done.
  intros Hprod. destruct (proj2 (identity_production_is_safe _ _ Hload) Hprod) as [_ Hreg Hkey (Hmode & Htest & _ & Hu & Hp)].
  split_and!.
  - unfold choose_signer in Hsg. destruct (SigningKeyPath cfg =? "")%string eqn:Hpath; [|done].
    apply String.eqb_eq in Hpath. rewrite Hpath in Hkey. discriminate Hkey.
  - unfold choose_mailer. rewrite Hmode. cbn. by eexists.
  - by rewrite Htest, andb_false_r.
  - done.
Qed.

(** ** A production start *)

Definition identity_production : GatewayConfig.Source := fun key =>
  if (key =? "IDENTITY_ENVIRONMENT")%string then Some "production"
  else if (key =? "IDENTITY_DATABASE_URL")%string then Some "postgres://identity:pw@db/identity?sslmode=verify-full"
  else if (key =? "IDENTITY_SIGNING_KEY_PATH")%string then Some "/keys/signing.pem"
  else if (key =? "IDENTITY_MAILER_MODE")%string then Some "smtp"
  else if (key =? "IDENTITY_SMTP_HOST")%string then Some "smtp.example"
  else if (key =? "IDENTITY_SMTP_USERNAME")%string then Some "identity"
  else if (key =? "IDENTITY_SMTP_PASSWORD")%string then Some "pw"
  else None.
Definition migrations_only : GatewayConfig.Source := fun key =>
  if (key =? "IDENTITY_MIGRATIONS_ONLY")%string then Some "true" else identity_production key.
(** 64 bytes of key. *)
Definition stored_key : string := "0123456789abcdef0123456789abcdef0123456789abcdef0123456789abcdef".

Section Start.
#[local] Existing Instance ascii_lib.
#[local] Instance start_durations : DurationLib := {| fraction_duration := fun _ => None |}.
#[local] Instance start_mail : MailLib := {| mail_Parse := fun s => Some s |}.
#[local] Instance start_files : Files :=
  {| os_ReadFile := fun path => if (path =? "/keys/signing.pem")%string then Ok stored_key else Err (NewErr "no such file");
     os_ReadDir := fun _ => Err (NewErr "no such directory");
     os_ReadFile_in := fun _ _ => Err (NewErr "no such file") |}.
#[local] Instance start_keys : KeyFiles :=
  {| pem_Decode := fun data => Some data; ParsePKCS8PrivateKey := fun block => Ok (Some block);
     ParsePKIXPublicKey := fun _ => Ok None |}.
#[local] Instance start_host : Host := {| host_fails := fun _ _ => None; host_signalled := fun _ => true |}.

Definition started := identity_run (Err (NewErr "no entropy")) identity_production.
Definition started_app : IdentityApp :=
  match servings (fst (run_process started)) with a :: _ => a | [] =>
    mkIdentityApp (read_config identity_production) (mkSigner "" "" ∅ "" "") (InMemory false)
      (mkService NoLimiter false "" "") [] [] (run_server (read_config identity_production) (mkService NoLimiter false "" "")
        (mkSigner "" "" ∅ "" "")) end.

Lemma identity_serves_only_when_ready_witness :
  servings (fst (run_process started)) = [started_app] /\ sg_privateKey (ia_signer started_app) = stored_key /\
  Did "migrate" ∈ fst (run_process started) /\ srv_testMailer (ia_server started_app) = false.
Proof.
  destruct (identity_serves_only_when_ready (Err (NewErr "no entropy")) identity_production
              (fst (run_process started)) (snd (run_process started))) as [_ Hs].
  - unfold started. by destruct (run_process _).
  - destruct (Hs started_app ltac:(vm_compute; reflexivity)) as (Hone & _ & _ & _ & Hmig & _ & _ & _ & _ & Hprod).
    split; [exact Hone|]. split; [vm_compute; reflexivity|]. split; [apply Hmig; vm_compute; reflexivity|].
    apply Hprod. vm_compute. reflexivity.
Defined.

(** A process for the migrations alone opens no Redis and serves nothing. *)
Example migrations_only_serves_nothing :
  run_process (identity_run (Ok stored_key) migrations_only) =
    ([Opened "telemetry"; Opened "signals"; Opened "postgresql"; Opened "startup context"; Did "database check"; Did "migrate";
      Closed "startup context"; Closed "postgresql"; Closed "signals"; Closed "telemetry"], Ok tt).
Proof. vm_compute. reflexivity. Qed.
(** The relay's goroutine runs before the field it reads its observer from is
    written: the two are not ordered. *)
Fact observer_is_set_while_the_relay_runs :
  exists before after, fst (run_process started) =
    (before ++ [Spawned "outbox relay"; Did "relay.SetPublishObserver"] ++ after)%list.
Proof.
  exists [Opened "telemetry"; Opened "signals"; Opened "postgresql"; Opened "startup context"; Did "database check";
          Did "migrate"; Opened "redis"; Opened "publisher"].
  eexists. vm_compute. reflexivity.
Qed.
End Start.
