(* ===== verification/RequestIds.v ===== *)
(** * Request ids through the services

    How the Gateway and Orders make the ids of requests, and that one id follows
    a request: the Gateway takes over a client's id only when it is well formed,
    and the ids it chose are the ones Orders and Identity answer, log and trace
    under. *)
From Stdlib Require Import ZArith Lia Ascii String.
From stdpp Require Import base gmap strings list.
From S2P Require Import Prelude GoStrings GoErrors GoTime GoBase64 GoCrypto GoURL GoHttp Tx.
From S2P Require Import GatewayDomain GatewayService GatewayUpstream GatewayHTTP GatewayOrders OrdersHTTP.
From S2P Require Import IdentityTables IdentityService IdentityHTTP.

Open Scope string_scope.
Open Scope Z_scope.

(** ** Making ids *)

(** [makeRequestID] of the Gateway: a version 7 UUID, or a random one. *)
Definition makeRequestID (v7 : result goerr string) (random : string) : string :=
  match v7 with Err _ => "sw_" +:+ random | Ok id => "sw_" +:+ id end.
(** [newRequestID] of Orders: twelve random bytes, or the time and a sequence
    number, which are given as their texts. *)
Definition newRequestID (random : result goerr string) (now sequence : string) : string :=
  match random with Ok bytes_ => "ord-" +:+ HexEncode bytes_ | Err _ => "ord-" +:+ now +:+ "-" +:+ sequence end.
(** [fingerprint] of a source in the Gateway's log: eight bytes of its hash. *)
Definition fingerprint `{Crypto} (value : string) : string := HexEncode (of_bytes (take 8 (bytes (sha256 value)))).

(** The text of a UUID. *)
Definition uuid_text (s : string) : Prop := String.length s = 36%nat /\ Forall (fun c => is_key_char c = true) (bytes s).

(** ** Well-formed ids *)

Lemma validID_spec s : validID s = true <->
  Forall (fun c => is_key_char c = true) (bytes s) /\ (1 <= String.length s <= 128)%nat.
Proof.
  unfold validID, MatchString, acceptedID. rewrite match_bytes_spec, matches_Rep, length_bytes by done. tauto.
Qed.
Lemma key_char_plain c : is_key_char c = true -> plain_byte c.
Proof. destruct c as [[] [] [] [] [] [] [] []]; vm_compute; done. Qed.
Lemma validID_plain s : validID s = true -> plain s /\ s <> "".
Proof.
  intros [Hs Hlen]%validID_spec. split; [eapply Forall_impl; [exact Hs | apply key_char_plain] | by intros ->; cbn in Hlen; lia].
Qed.

(** What the Gateway makes is what it would accept. *)
Lemma made_ids_are_valid v7 random : (forall id, v7 = Ok id -> uuid_text id) -> uuid_text random ->
  validID (makeRequestID v7 random) = true.
Proof.
  intros H7 Hr. assert (forall id, uuid_text id -> validID ("sw_" +:+ id) = true) as Hid.
  { intros id [Hlen Hc]. apply validID_spec. split; [by repeat constructor|]. rewrite <- length_bytes, bytes_app, length_app, (length_bytes id), Hlen. cbn. lia. }
  destruct v7 as [id|e]; cbn; [by apply Hid, H7 | by apply Hid].
Qed.
Lemma effective_ids_are_valid r fresh : validID fresh = true ->
  validID (requestID (request_ctx r fresh)) = true /\ validID (GatewayHTTP.correlationID (request_ctx r fresh)) = true.
Proof.
  intros Hf. unfold request_ctx. cbn. destruct (validID (Get (rq_Header r) "X-Request-ID")) eqn:H1,
    (validID (Get (rq_Header r) "X-Correlation-ID")) eqn:H2; auto.
Qed.

(** ** The hop *)

Section Hop.
Context `{GoLib} `{UpstreamEnv}.
Lemma id_headers token actor input :
  Values (request_headers token actor input) "X-Request-ID" = [fr_RequestID input] /\
  Values (request_headers token actor input) "X-Correlation-ID" = [fr_CorrelationID input].
Proof.
  unfold request_headers, actor_headers, set_nonempty.
  destruct actor; repeat case_match; split;
    repeat (rewrite Values_Set_ne by (vm_compute; discriminate)); apply Values_Set.
Qed.
End Hop.

(** One id follows a request: whatever ids the client sent, those the
    Gateway works under are well formed, and in every request it sends behind,
    Orders answers and logs under the Gateway's request id and Identity works
    under its correlation id, not under ids of their own. *)
Theorem ids_survive_the_hop `{GoLib} `{UpstreamEnv} `{Env} v7 random r policy body token actor q fresh
    (s : St IdDB (list Mail)) :
  injects_trace_only -> (forall id, v7 = Ok id -> uuid_text id) -> uuid_text random ->
  let c := request_ctx r (makeRequestID v7 random) in
  rq_Header q = otel_inject (request_headers token actor (forward_request r c policy body)) ->
  validID (requestID c) = true /\ validID (GatewayHTTP.correlationID c) = true /\
  requestID_of q fresh = requestID c /\
  IdentityHTTP.correlationID q s = (s, GatewayHTTP.correlationID c).
Proof.
  intros Hinj H7 Hr c Hq.
  destruct (effective_ids_are_valid r _ (made_ids_are_valid _ _ H7 Hr)) as [Hv1 Hv2]. fold c in Hv1, Hv2.
  destruct (id_headers token actor (forward_request r c policy body)) as [Hh1 Hh2]. cbn [fr_RequestID fr_CorrelationID forward_request] in *.
  assert (forall k, k ∈ ["X-Request-ID"; "X-Correlation-ID"] ->
    Get (rq_Header q) k = hd "" (Values (request_headers token actor (forward_request r c policy body)) k)) as Hget.
  { intros k Hk. unfold Get. rewrite Hq, (Values_injected _ _ Hinj) by set_solver. done. }
  split; [done|]. split; [done|]. split.
  - unfold requestID_of. rewrite Hget, Hh1 by set_solver. cbn [hd].
    destruct (validID_plain _ Hv1) as [Hp Hne]. rewrite (TrimSpace_plain _ Hp), (proj2 (String.eqb_neq _ _) Hne).
    apply validID_spec in Hv1 as [_ Hlen]. cbn [orb].
    rewrite (proj2 (Nat.ltb_ge 128 (String.length (requestID c)))) by lia. done.
  - unfold IdentityHTTP.correlationID. rewrite Hget, Hh2 by set_solver. cbn [hd].
    destruct (validID_plain _ Hv2) as [_ Hne]. rewrite (proj2 (String.eqb_neq _ _) Hne). cbn [orb].
    apply validID_spec in Hv2 as [_ Hlen]. unfold len.
    rewrite (proj2 (Z.ltb_ge 128 _)) by lia. done.
Qed.

Section Example_.
#[local] Existing Instance ascii_lib.
(** A propagator that adds the trace's own header. *)
#[local] Instance tracing : UpstreamEnv := {|
  slot_free := fun _ => true; ctx_error := fun _ => None; peer := fun _ _ => None; url_target := fun b p _ => Some (b +:+ p);
  request_ok := fun _ _ => true; otel_inject := fun h => Set_ h "Traceparent" "00-4bf92f3577b34da6a3ce929d0e0e4736-00f067aa0ba902b7-01"
|}.
#[local] Instance still : Env :=
  {| uuid_at := fun _ => ""; clock_at := fun _ => mkTime 0 None; db_now_at := fun _ => mkTime 0 None; trip_at := fun _ => TripOk |}.
Lemma tracing_injects_trace_only : injects_trace_only.
Proof.
  intros h k Hk. cbn [otel_inject tracing]. unfold Set_. apply lookup_insert_ne.
  rewrite !elem_of_cons, elem_of_nil in Hk. destruct_or! Hk; subst; (done || vm_compute; discriminate).
Qed.
Definition a_uuid : string := "0190f3a2-7c1e-7a4b-9d2e-3f5a6b7c8d9e".
Lemma a_uuid_text : uuid_text a_uuid.
Proof. split; [reflexivity | repeat constructor]. Qed.
(** The client's id has a blank: the Gateway makes its own, and Orders and
    Identity take it over. *)
Definition odd_request : Request := mkRequest "GET" "/v1/orders" "" (Set_ ∅ "X-Request-ID" "my id") "" 0 "10.0.0.1:9".
Definition orders_policy : RoutePolicy := hd (mkPolicy "" "" "" AuthNone [] "" 0 false false 0 false) DefaultPolicies.
Definition forwarded : Request :=
  mkRequest "GET" "/v1/orders" "" (otel_inject (request_headers "svc" None
    (forward_request odd_request (request_ctx odd_request (makeRequestID (Ok a_uuid) a_uuid)) orders_policy ""))) "" 0 "10.0.0.2:9".
Lemma ids_survive_the_hop_witness :
  requestID_of forwarded "ord-1" = "sw_0190f3a2-7c1e-7a4b-9d2e-3f5a6b7c8d9e" /\
  validID "sw_0190f3a2-7c1e-7a4b-9d2e-3f5a6b7c8d9e" = true.
Proof.
  destruct (ids_survive_the_hop (Ok a_uuid) a_uuid odd_request orders_policy "" "svc" None forwarded "ord-1"
              (mkSt (mkIdDB ∅ ∅ ∅ [] ∅ ∅ ∅ ∅ ∅ [] [] []) [] 0%nat) tracing_injects_trace_only
              (fun id H => eq_rect a_uuid uuid_text a_uuid_text id (f_equal (fun r => match r with Ok i => i | Err _ => "" end) H))
              a_uuid_text eq_refl) as (Hv & _ & Hr & _).
  split; [exact Hr | exact Hv].
Defined.
End Example_.
