(* ===== verification/HttpMetrics.v ===== *)
(** * Request metrics of the three services

    [observe] of Orders, [cors] and [observability] of the Gateway and
    [accessLog] of Identity count what they serve: a counter by route, method
    and status, and a gauge of the requests in flight.  Requests run at the same
    time, so the counting is a step machine of goroutines over the registry. *)
From Stdlib Require Import ZArith Lia Ascii String.
From stdpp Require Import base gmap strings list pretty.
From S2P Require Import Prelude GoStrings GoErrors GoTime GoJson GoURL GoHttp GoCrypto Interleave.
From S2P Require Import GatewayDomain GatewayService GatewayHTTP GatewayHTTPFacts OrdersHTTP IdentityHTTP.

Open Scope string_scope.
Open Scope Z_scope.

(** ** Counters *)

(** A [prometheus.CounterVec]: its series by their label values. *)
Notation CounterVec := (gmap (list string) Z).
Definition Inc (labels : list string) (v : CounterVec) : CounterVec := <[labels := default 0 (v !! labels) + 1]> v.
Definition total (v : CounterVec) : Z := map_fold (fun _ n acc => n + acc) 0 v.

Lemma total_insert (v : CounterVec) l n : v !! l = None -> total (<[l := n]> v) = n + total v.
Proof. intros Hl. unfold total. apply map_fold_insert_L; [intros; lia | done]. Qed.
Lemma total_Inc labels v : total (Inc labels v) = total v + 1.
Proof.
  unfold Inc. destruct (v !! labels) as [n|] eqn:Hl; cbn.
  - rewrite <- (insert_delete_id v labels n Hl) at 2. rewrite <- insert_delete_eq.
    rewrite !total_insert by apply lookup_delete_eq. lia.
  - rewrite total_insert by done. lia.
Qed.

Record Metrics := mkMetrics { m_requests : CounterVec; m_inFlight : Z; m_rateLimited : CounterVec }.
Definition no_metrics : Metrics := mkMetrics ∅ 0 ∅.
Definition count_request (labels : list string) (m : Metrics) : Metrics :=
  mkMetrics (Inc labels (m_requests m)) (m_inFlight m) (m_rateLimited m).
Definition move_gauge (by_ : Z) (m : Metrics) : Metrics :=
  mkMetrics (m_requests m) (m_inFlight m + by_) (m_rateLimited m).
Definition count_limited (labels : list string) (m : Metrics) : Metrics :=
  mkMetrics (m_requests m) (m_inFlight m) (Inc labels (m_rateLimited m)).

(** A request on its way through the handlers around the router. *)
Inductive visit :=
| Arrived (r : Request)
| Handling (r : Request)
| Handled (r : Request) (status : Z)
| Leaving (r : Request) (status : option Z)
| Answered (r : Request) (status : option Z).
(** What the router did: it answered with a status, or panicked. *)
Inductive answer := Replied (status : Z) | Panicked.

(** ** The multiplexers of Orders and the Gateway *)

(** A redirect for a path that is not clean ([redirect] answers it), the metrics
    page for GET alone, and the router for everything else. *)
Definition serve_mux {S : Type} (redirect : string -> Request -> Writer -> Writer) (metrics_page : Writer -> Writer)
    (not_allowed : Writer -> Request -> Writer) (router : Request -> Writer -> S -> S * Writer)
    (r : Request) (w : Writer) (s : S) : S * Writer :=
  if negb (rq_Method r =? "CONNECT")%string && negb (cleanPath (rq_Path r) =? rq_Path r)%string
  then (s, redirect (cleanPath (rq_Path r)) r w)
  else if (rq_Path r =? "/metrics")%string
  then (s, if negb (rq_Method r =? MethodGet)%string then not_allowed w r else metrics_page w)
  else router r w s.
(** Nothing gets behind a router except through it, under a path the router
    itself sees as the client wrote it. *)
Lemma serve_mux_routes {S : Type} redirect metrics_page not_allowed router r w (s : S) :
  fst (serve_mux redirect metrics_page not_allowed router r w s) = s \/
  serve_mux redirect metrics_page not_allowed router r w s = router r w s /\
    (rq_Method r = "CONNECT" \/ cleanPath (rq_Path r) = rq_Path r).
Proof.
  unfold serve_mux. destruct (negb (_ =? "CONNECT")%string && _) eqn:Hc; [by left|].
  destruct (_ =? "/metrics")%string; [by left|]. right. split; [done|].
  apply andb_false_iff in Hc as [Hc|Hc]; apply negb_false_iff, String.eqb_eq in Hc; auto.
Qed.

(** ** Orders *)

Definition orders_labels (r : Request) (status : Z) : list string :=
  [routeTemplate (rq_Path r); rq_Method r; pretty status].
(** [observe]: the gauge up, the router, the counter, the deferred gauge down. *)
Definition orders_observe (a : answer) (p : visit) (m : Metrics) : option (Metrics * visit) :=
  match p with
  | Arrived r => Some (move_gauge 1 m, Handling r)
  | Handling r => match a with
                  | Replied status => Some (m, Handled r status)
                  | Panicked => Some (m, Leaving r None)
                  end
  | Handled r status => Some (count_request (orders_labels r status) m, Leaving r (Some status))
  | Leaving r status => Some (move_gauge (-1) m, Answered r status)
  | Answered _ _ => None
  end.
Definition run_orders_observe : list (label answer Request) -> Sys Metrics visit -> option (Sys Metrics visit) :=
  run Arrived orders_observe.

(** ** The Gateway *)

Section GatewayLabels.
Context `{GoLib} (server : GatewayHTTP.Server).

(** Answered by [cors] itself. *)
Definition preflight (r : Request) : bool :=
  let origin := TrimSpace (Get (rq_Header r) "Origin") in
  negb (origin =? "")%string && (rq_Method r =? MethodOptions)%string &&
  (negb (bool_decide (origin ∈ sv_corsOrigins server)) || isKnownRoute server (rq_Path r)).
(** What [route] left in the route holder of the context. *)
Definition routeHolder (r : Request) : string :=
  if preflight r then ""
  else if existsb (String.eqb (rq_Path r)) ["/metrics"; "/health/live"; "/health/ready"; "/v1/docs"; "/v1/openapi.yaml"] then ""
  else match matchPolicy (sv_policies server) (rq_Method r) (rq_Path r) with
       | None => ""
       | Some policy => if (p_Pattern policy =? "/.well-known/register")%string && negb (sv_demoRegistration server)
                        then "" else p_Pattern policy
       end.
Definition gateway_route_label (r : Request) : string :=
  if (routeHolder r =? "")%string then rq_Path r else routeHolder r.
Definition gateway_labels (r : Request) (status : Z) : list string :=
  [gateway_route_label r; rq_Method r; pretty status].

(** [observability] around [cors]: the gauge is [cors]'s, the counter follows. *)
Definition gateway_observe (a : answer) (p : visit) (m : Metrics) : option (Metrics * visit) :=
  match p with
  | Arrived r => Some (move_gauge 1 m, Handling r)
  | Handling r => match a with
                  | Replied status => Some (move_gauge (-1) m, Handled r status)
                  | Panicked => Some (move_gauge (-1) m, Answered r None)
                  end
  | Handled r status => Some (count_request (gateway_labels r status) m, Answered r (Some status))
  | _ => None
  end.
Definition run_gateway_observe : list (label answer Request) -> Sys Metrics visit -> option (Sys Metrics visit) :=
  run Arrived gateway_observe.
End GatewayLabels.

(** ** Identity *)

Definition segment_text (s : segment) : string := match s with Lit_ name => name | Wild name => name end.
Definition pattern_text (p : Pattern) : string := pt_method p +:+ " " +:+ Join (map segment_text (pt_segments p)) "/".
Definition with_path (r : Request) (path : string) : Request :=
  mkRequest (rq_Method r) path (rq_RawQuery r) (rq_Header r) (rq_Body r) (rq_ContentLength r) (rq_RemoteAddr r).

Section IdentityLabels.
Context {St : Type} (routes : list (Route St)) (metricsPath : string).
(** [request.Pattern] as the multiplexer set it, for the cleaned path. *)
Definition request_Pattern (r : Request) : string :=
  let path := if (rq_Method r =? "CONNECT")%string then rq_Path r else cleanPath (rq_Path r) in
  match find_route routes (with_path r path) with
  | Some (rt, _) => pattern_text (rt_pattern rt)
  | None => if (path =? metricsPath)%string then metricsPath else ""
  end.
Definition identity_route_label (r : Request) : string :=
  if (request_Pattern r =? "")%string then "unmatched" else request_Pattern r.
(** [accessLog]: the counter by status text, and the one of refused callers. *)
Definition identity_observe (a : answer) (p : visit) (m : Metrics) : option (Metrics * visit) :=
  match p with
  | Arrived r => Some (m, Handling r)
  | Handling r => match a with
                  | Replied status => Some (m, Handled r status)
                  | Panicked => Some (m, Answered r None)
                  end
  | Handled r status =>
      Some (count_request [identity_route_label r; rq_Method r; StatusText status] m, Leaving r (Some status))
  | Leaving r status =>
      Some (if bool_decide (status = Some 429) then count_limited [identity_route_label r] m else m, Answered r status)
  | Answered _ _ => None
  end.
Definition run_identity_observe : list (label answer Request) -> Sys Metrics visit -> option (Sys Metrics visit) :=
  run Arrived identity_observe.
End IdentityLabels.

(** ** What the metrics tell *)

(** Whether a visit is between the gauge's two moves, and whether it was counted. *)
Definition in_flight (p : visit) : Z := match p with Handling _ | Handled _ _ | Leaving _ _ => 1 | _ => 0 end.
Definition counted (p : visit) : Z := match p with Leaving _ (Some _) | Answered _ (Some _) => 1 | _ => 0 end.
Definition in_cors (p : visit) : Z := match p with Handling _ => 1 | _ => 0 end.

(** Every series has labels of this kind. *)
Definition series_are (L : list string -> Prop) (m : Metrics) : Prop := forall l, is_Some (m_requests m !! l) -> L l.
Lemma series_count L l m : L l -> series_are L m -> series_are L (count_request l m).
Proof.
  intros Hl Hm l' Hs. cbn in Hs. unfold Inc in Hs. destruct (decide (l' = l)) as [->|Hne]; [done|].
  rewrite lookup_insert_ne in Hs by done. by apply Hm.
Qed.
Lemma series_none L : series_are L no_metrics.
Proof. intros l Hs. cbn in Hs. rewrite lookup_empty in Hs. by destruct Hs. Qed.

Ltac visit_step :=
  intros e p m m' q Hs; destruct p as [r|r|r status|r [status|]|r [status|]], e; cbn in Hs; simplify_eq/=;
  rewrite ?total_Inc; lia.

Definition orders_templates : list string :=
  ["/health/live"; "/health/ready"; "/metrics"; "/v1/docs"; "/v1/openapi.yaml"; "/v1/orders";
   "/v1/orders/{order_id}/cancel"; "/v1/orders/{order_id}"; "unmatched"].
Lemma routeTemplate_bounded path : routeTemplate path ∈ orders_templates.
Proof.
  unfold routeTemplate. destruct (existsb _ _) eqn:He.
  - apply existsb_exists in He as (t & Ht%list_elem_of_In & ->%String.eqb_eq). unfold orders_templates. set_solver.
  - repeat case_match; unfold orders_templates; set_solver.
Qed.

(** Orders' request metrics are exact and bounded however requests overlap:
    the gauge is the number of requests being handled, so never negative; the
    counters add up to the requests that were answered, panics apart; and no
    path, order id or customer id becomes a label: the route of every series is
    one of nine templates. *)
Theorem orders_metrics_are_exact ls st : run_orders_observe ls (start no_metrics) = Some st ->
  m_inFlight (shared st) = shares in_flight (threads st) /\ 0 <= m_inFlight (shared st) /\
  total (m_requests (shared st)) = shares counted (threads st) /\
  forall l, is_Some (m_requests (shared st) !! l) ->
    exists route method status, l = [route; method; status] /\ route ∈ orders_templates.
Proof.
  intros Hr. assert (m_inFlight (shared st) = shares in_flight (threads st)) as Hg.
  { rewrite (run_shares Arrived orders_observe m_inFlight in_flight no_metrics ltac:(done) ltac:(visit_step) _ _ Hr). done. }
  split; [done|]. split.
  { rewrite Hg. apply shares_nonneg. by intros []. }
  split.
  { rewrite (run_shares Arrived orders_observe (fun m => total (m_requests m)) counted no_metrics ltac:(done) ltac:(visit_step) _ _ Hr). done. }
  apply (run_shared Arrived orders_observe (series_are _) no_metrics (series_none _)) with (2 := Hr).
  intros e p m m' q Hs Hm. destruct p as [r|r|r status|r status|r status], e; cbn in Hs; simplify_eq/=; try done;
    apply series_count; try done; exists (routeTemplate (rq_Path r)), (rq_Method r), (pretty status);
    (split; [done | apply routeTemplate_bounded]).
Qed.

(** ** The Gateway's *)

Section GatewayMetrics.
Context `{GoLib} (server : GatewayHTTP.Server).

Lemma policy_found policies method path p : matchPolicy policies method path = Some p ->
  p ∈ policies /\ routeMatches (p_Pattern p) path = true.
Proof.
  unfold matchPolicy. destruct (negb _); intros [Hin Hb]%find_some; apply list_elem_of_In in Hin; [|done].
  by apply andb_true_iff in Hb as [_ Hb].
Qed.
Lemma gateway_label_cases r :
  gateway_route_label server r = rq_Path r \/ gateway_route_label server r ∈ map p_Pattern (sv_policies server).
Proof.
  unfold gateway_route_label. destruct (routeHolder server r =? "")%string eqn:Hh; [by left|]. right. revert Hh. unfold routeHolder.
  destruct (preflight _ _); [done|]. destruct (existsb _ _); [done|].
  destruct (matchPolicy _ _ _) as [p|] eqn:Hm; [|done]. destruct (_ && _); [done|]. intros _.
  apply policy_found in Hm as [Hin _]. apply list_elem_of_fmap. by exists p.
Qed.

(** The Gateway's gauge and counters are exact too.  A request that reached a
    policy is counted under the policy's pattern; any other under its own path. *)
Theorem gateway_metrics_are_exact ls st : run_gateway_observe server ls (start no_metrics) = Some st ->
  m_inFlight (shared st) = shares in_cors (threads st) /\ 0 <= m_inFlight (shared st) /\
  total (m_requests (shared st)) = shares counted (threads st) /\
  forall l, is_Some (m_requests (shared st) !! l) ->
    exists r status, l = gateway_labels server r status /\
      (hd "" l = rq_Path r \/ hd "" l ∈ map p_Pattern (sv_policies server)).
Proof.
  intros Hr. assert (m_inFlight (shared st) = shares in_cors (threads st)) as Hg.
  { rewrite (run_shares Arrived (gateway_observe server) m_inFlight in_cors no_metrics ltac:(done) ltac:(visit_step) _ _ Hr).
    done. }
  split; [done|]. split; [rewrite Hg; apply shares_nonneg; by intros []|]. split.
  { rewrite (run_shares Arrived (gateway_observe server) (fun m => total (m_requests m)) counted no_metrics
               ltac:(done) ltac:(visit_step) _ _ Hr). done. }
  apply (run_shared Arrived (gateway_observe server) (series_are _) no_metrics (series_none _)) with (2 := Hr).
  intros e p m m' q Hs Hm. destruct p as [r|r|r status|r status|r status], e; cbn in Hs; simplify_eq/=; try done;
    apply series_count; try done; exists r, status; (split; [done | apply gateway_label_cases]).
Qed.

(** A path that no policy has is a label of its own. *)
Lemma unmatched_path_is_a_label r :
  Forall (fun p => routeMatches (p_Pattern p) (rq_Path r) = false) (sv_policies server) ->
  gateway_route_label server r = rq_Path r.
Proof.
  intros Hnone. unfold gateway_route_label.
  assert (routeHolder server r = "") as ->; [|done]. unfold routeHolder.
  destruct (preflight _ _); [done|]. destruct (existsb _ _); [done|].
  destruct (matchPolicy _ _ _) as [p|] eqn:Hm; [|done]. apply policy_found in Hm as [Hin Hp].
  rewrite Forall_forall in Hnone. rewrite (Hnone p Hin) in Hp. discriminate Hp.
Qed.
End GatewayMetrics.

(** The route holder tells what the handlers did: where it stayed empty, the
    request was answered without the Gateway's components, readiness and the
    metrics page apart. *)
Lemma unlabelled_requests_are_local `{GoLib} `{NetLib} {G : Type} `{!ClaimsVerifier G} `{!RateLimiter G}
    `{!ServiceTokenProvider G} `{!UpstreamClient G} server (verifier_Check limiter_Check : gcall G unit) fresh r g :
  Forall (fun p => p_Pattern p <> "") (sv_policies server) ->
  routeHolder server r = "" -> rq_Path r <> "/health/ready" -> rq_Path r <> "/metrics" ->
  fst (GatewayHTTP.serve server verifier_Check limiter_Check fresh r g) = g.
Proof.
  intros Hpat Hh Hready Hmetrics.
  assert (forall w c, preflight server r = false -> fst (GatewayHTTP.route server verifier_Check limiter_Check w r c g) = g) as Hroute.
  { intros w c Hpre. unfold GatewayHTTP.route, get_only. unfold routeHolder in Hh. rewrite Hpre in Hh.
    destruct (rq_Path r =? "/health/live")%string eqn:E1; [by destruct (negb (rq_Method r =? MethodGet)%string)|].
    destruct (rq_Path r =? "/health/ready")%string eqn:E2; [by apply String.eqb_eq in E2|].
    destruct (rq_Path r =? "/v1/docs")%string eqn:E3; [by destruct (negb (rq_Method r =? MethodGet)%string)|].
    destruct (rq_Path r =? "/v1/openapi.yaml")%string eqn:E4; [by destruct (negb (rq_Method r =? MethodGet)%string)|].
    destruct (matchPolicy _ (rq_Method r) _) as [p|] eqn:Hm; [|by destruct (matchPolicy _ "" _)].
    apply String.eqb_neq in Hmetrics. cbn [existsb] in Hh. rewrite Hmetrics, E1, E2, E3, E4 in Hh. cbn [orb] in Hh.
    destruct (_ && _); [done|]. rewrite Forall_forall in Hpat. apply policy_found in Hm as [Hin _].
    by destruct (Hpat p Hin). }
  unfold GatewayHTTP.serve, cors. unfold preflight in Hroute.
  destruct (TrimSpace _ =? "")%string; [by apply Hroute|].
  destruct (bool_decide _), (rq_Method r =? MethodOptions)%string; cbn [negb andb orb] in *; try (by apply Hroute); try done.
  destruct (isKnownRoute server (rq_Path r)); [done | by apply Hroute].
Qed.

(** ** Identity's *)

Lemma identity_label_bounded {St} (routes : list (Route St)) metricsPath r :
  identity_route_label routes metricsPath r ∈ "unmatched" :: metricsPath :: map (fun rt => pattern_text (rt_pattern rt)) routes.
Proof.
  unfold identity_route_label. destruct (_ =? "")%string eqn:Hp; [set_solver|]. revert Hp. unfold request_Pattern.
  destruct (find_route _ _) as [[rt vs]|] eqn:Hf.
  - intros _. unfold find_route in Hf. destruct (List.find _ _) as [rt'|] eqn:Hl; [|done].
    apply find_some in Hl as [Hin%list_elem_of_In _]. destruct (match_segments _ _); [|done]. injection Hf as <- <-.
    do 2 right. apply list_elem_of_fmap. by exists rt'.
  - destruct (_ =? metricsPath)%string; [intros _; set_solver | done].
Qed.
Definition limited_visit (p : visit) : Z := match p with Answered _ (Some status) => if status =? 429 then 1 else 0 | _ => 0 end.

(** Identity's counters add up to the requests answered and to those refused
    with 429, and the route of a series is a registered pattern, the metrics
    path or unmatched. *)
Theorem identity_metrics_are_exact {St} (routes : list (Route St)) metricsPath ls st :
  run_identity_observe routes metricsPath ls (start no_metrics) = Some st ->
  total (m_requests (shared st)) = shares counted (threads st) /\
  total (m_rateLimited (shared st)) = shares limited_visit (threads st) /\
  forall l, is_Some (m_requests (shared st) !! l) ->
    hd "" l ∈ "unmatched" :: metricsPath :: map (fun rt => pattern_text (rt_pattern rt)) routes.
Proof.
  intros Hr. split; [|split].
  - rewrite (run_shares Arrived (identity_observe routes metricsPath) (fun m => total (m_requests m)) counted no_metrics
               ltac:(done)) with (2 := Hr); [done|].
    intros e p m m' q Hs. destruct p as [r|r|r status|r [status|]|r [status|]], e; cbn in Hs; simplify_eq/=;
      rewrite ?total_Inc; try case_bool_decide; cbn; lia.
  - rewrite (run_shares Arrived (identity_observe routes metricsPath) (fun m => total (m_rateLimited m)) limited_visit no_metrics
               ltac:(done)) with (2 := Hr); [done|].
    intros e p m m' q Hs. destruct p as [r|r|r status|r [status|]|r [status|]], e; cbn in Hs; simplify_eq/=;
      try case_bool_decide; simplify_eq/=; rewrite ?total_Inc; try destruct (Z.eqb_spec status 429); subst; try done; lia.
  - apply (run_shared Arrived (identity_observe routes metricsPath) (series_are _) no_metrics (series_none _)) with (2 := Hr).
    intros e p m m' q Hs Hm. destruct p as [r|r|r status|r status|r status], e; cbn in Hs; simplify_eq/=; try done;
      try (by case_bool_decide); apply series_count; try done; cbn [hd]; apply identity_label_bounded.
Qed.

(** ** On concrete requests *)

Definition get_of (method path : string) (h : Header) : Request := mkRequest method path "" h "" 0 "10.0.0.1:9".
Definition visited (i : nat) (r : Request) (status : Z) : list (label answer Request) :=
  [Spawn r; Run i (Replied status); Run i (Replied status); Run i (Replied status)].

Definition two_visits : list (label answer Request) :=
  [Spawn (get_of "GET" "/v1/orders" ∅); Spawn (get_of "GET" "/v1/orders/ord_1" ∅);
   Run 0 (Replied 200); Run 1 (Replied 200); Run 1 (Replied 404); Run 1 (Replied 404)].
Definition two_visited : Sys Metrics visit := default (start no_metrics) (run_orders_observe two_visits (start no_metrics)).
Lemma orders_metrics_are_exact_witness :
  length (threads two_visited) = 2%nat /\ m_inFlight (shared two_visited) = 2 /\
  total (m_requests (shared two_visited)) = shares counted (threads two_visited).
Proof.
  split; [vm_compute; reflexivity|]. split; [vm_compute; reflexivity|].
  apply (orders_metrics_are_exact two_visits two_visited). vm_compute. reflexivity.
Defined.

Section Examples.
#[local] Existing Instance ascii_lib.
Definition browsed : GatewayHTTP.Server := NewServer false false ["https://shop.example"] None None.
(** Unknown paths each make a series, and the preflight of an order's page puts
    the order's id in a label. *)
Fact gateway_labels_can_be_raw :
  gateway_route_label browsed (get_of "GET" "/reset/token-1" ∅) = "/reset/token-1" /\
  gateway_route_label browsed (get_of "GET" "/reset/token-2" ∅) = "/reset/token-2" /\
  gateway_route_label browsed (get_of "OPTIONS" "/v1/orders/ord_ab12"
    (Set_ ∅ "Origin" "https://shop.example")) = "/v1/orders/ord_ab12" /\
  gateway_route_label browsed (get_of "GET" "/v1/orders/ord_ab12" ∅) = "/v1/orders/{order_id}".
Proof. repeat split; vm_compute; reflexivity. Qed.
Example three_paths_three_series :
  option_map (fun st => size (m_requests (shared st)))
    (run_gateway_observe browsed (visited 0 (get_of "GET" "/a" ∅) 404 ++ visited 1 (get_of "GET" "/b" ∅) 404 ++
                                  visited 2 (get_of "GET" "/c" ∅) 404)%list (start no_metrics)) = Some 3%nat.
Proof. vm_compute. reflexivity. Qed.
End Examples.
