(* ===== verification/GatewayTelemetry.v ===== *)
(** * Gateway: what is counted

    The calls of [gatewayMetrics] that [Authorize], [Forward] and [route] make
    beside their work, and that they tell what happened: the observed versions
    do what the plain ones do, every refused caller is counted once under the
    route's pattern, and every request to a service behind is counted with its
    outcome. *)
From Stdlib Require Import ZArith Lia Ascii String.
From stdpp Require Import base gmap strings list pretty.
From S2P Require Import Prelude GoStrings GoErrors GoTime GoJson GoURL GoHttp.
From S2P Require Import GatewayDomain GatewayService GatewayHTTP GatewayHTTPFacts HttpMetrics.

Open Scope string_scope.
Open Scope Z_scope.

(** A call on [domain.Metrics], or on the server's own counter of failures. *)
Inductive observation :=
| ObserveAuthFailure (route reason : string)
| ObserveRateLimitRejection (route limit_class : string)
| ObserveRateLimiterError (limit_class : string)
| ObserveUpstreamRequest (service route outcome : string)
| ObserveUpstreamFailure (owner reason : string).

Record gatewayMetrics := mkGatewayMetrics {
  authFailures : CounterVec; rateLimited : CounterVec; limiterErrors : CounterVec;
  upstreamRequests : CounterVec; upstreamFailures : CounterVec
}.
Definition record (m : gatewayMetrics) (o : observation) : gatewayMetrics :=
  let '(mkGatewayMetrics a rl le ur uf) := m in
  match o with
  | ObserveAuthFailure route reason => mkGatewayMetrics (Inc [route; reason] a) rl le ur uf
  | ObserveRateLimitRejection route class_ => mkGatewayMetrics a (Inc [route; class_] rl) le ur uf
  | ObserveRateLimiterError class_ => mkGatewayMetrics a rl (Inc [class_] le) ur uf
  | ObserveUpstreamRequest service route outcome => mkGatewayMetrics a rl le (Inc [service; route; outcome] ur) uf
  | ObserveUpstreamFailure owner reason => mkGatewayMetrics a rl le ur (Inc [owner; reason] uf)
  end.

(** ** The service, observed *)

Section Observed.
Context `{GoLib} {G : Type} `{!ClaimsVerifier G} `{!RateLimiter G} `{!ServiceTokenProvider G} `{!UpstreamClient G}.

Definition limited_observed (key : string) (policy : RoutePolicy) (g : G) : G * option goerr * list observation :=
  match rl_Allow key (LimitKeyClass policy) g with
  | (g, Err _) => (g, Some ErrDependency, [ObserveRateLimiterError (LimitKeyClass policy)])
  | (g, Ok false) => (g, Some ErrRateLimited, [ObserveRateLimitRejection (p_Pattern policy) (LimitKeyClass policy)])
  | (g, Ok true) => (g, None, [])
  end.
Definition Authorize_observed (request : Request) (policy : RoutePolicy) (source : string) (g : G)
  : G * result goerr (Actor * string) * list observation :=
  let failure reason := [ObserveAuthFailure (p_Pattern policy) reason] in
  match p_Auth policy with
  | AuthNone =>
      match limited_observed (limitKey request policy source) policy g with
      | (g, Some e, obs) => (g, Err e, obs)
      | (g, None, obs) => (g, Ok (no_actor, ""), obs)
      end
  | AuthBearer =>
      if negb (Nat.eqb (length (Values (rq_Header request) "Authorization")) 1)
      then (g, Err ErrUnauthorized, failure "unauthorized")
      else match bearerToken (Get (rq_Header request) "Authorization") with
           | None => (g, Err ErrUnauthorized, failure "unauthorized")
           | Some raw =>
               match cv_Verify raw g with
               | (g, Err _) => (g, Err ErrUnauthorized, failure "unauthorized")
               | (g, Ok verified) =>
                   let actor := Normalized verified in
                   if (Subject actor =? "")%string || negb (Type_ actor =? "human")%string ||
                      negb (Allows policy (Scopes actor))
                   then (g, Err ErrForbidden, failure "forbidden")
                   else match limited_observed (limitKeyWithActor policy source actor) policy g with
                        | (g, Some e, obs) => (g, Err e, obs)
                        | (g, None, obs) => (g, Ok (actor, raw), obs)
                        end
               end
           end
  end.

(** [forwardUpstream] *)
Definition outcome_of (r : result goerr (option Response)) : string :=
  match r with
  | Err _ => "error"
  | Ok (Some response) => if 400 <=? rs_StatusCode response then "http_" +:+ pretty (rs_StatusCode response) else "success"
  | Ok None => "success"
  end.
Definition forward_observed (owner token : string) (actor : option Actor) (request : ForwardRequest) (g : G)
  : G * result goerr Response * list observation :=
  let '(g, r) := up_Forward owner token actor request g in
  let route := if (fr_Route request =? "")%string then "unknown" else fr_Route request in
  (g, match r with
      | Err e => Err e
      | Ok (Some response) => if usable_response (Some response) then Ok response else Err ErrUpstreamResponse
      | Ok None => Err ErrUpstreamResponse
      end, [ObserveUpstreamRequest owner route (outcome_of r)]).
Definition Forward_observed (owner : string) (actor : option Actor) (request : ForwardRequest) (policy : RoutePolicy) (g : G)
  : G * result goerr Response * list observation :=
  match tp_Token g with
  | (g, Err _) => (g, Err ErrDependency, [])
  | (g, Ok token) =>
      match forward_observed owner token actor request g with
      | (g, Err e, obs) => (g, Err e, obs)
      | (g, Ok response, obs) =>
          if (rs_StatusCode response =? 401) && p_RetrySafeRead policy then
            match tp_Refresh with
            | None => (g, Ok response, obs)
            | Some refresh =>
                match refresh g with
                | (g, Err _) => (g, Err ErrDependency, obs)
                | (g, Ok freshToken) =>
                    let '(g, r, obs') := forward_observed owner freshToken actor request g in (g, r, (obs ++ obs')%list)
                end
            end
          else (g, Ok response, obs)
      end
  end.

(** ** The server, observed *)

Context `{NetLib} (server : GatewayHTTP.Server).

(** [writeServiceError]: failures of the kind 5xx by the owner of the route. *)
Definition error_observed (policy : RoutePolicy) (err : goerr) : list observation :=
  let '(status, reason, _) := mapError err in
  if 500 <=? status then [ObserveUpstreamFailure (routeOwner (p_Pattern policy)) reason] else [].
Definition proxied_observed (policy : RoutePolicy) (w : Writer) (r : Request) (c : Ctx) (g : G)
  : G * Writer * list observation :=
  match validateRequest r policy with
  | Some (status, reason, detail) =>
      (g, GatewayHTTP.problem w r c status reason detail, [ObserveAuthFailure (p_Pattern policy) reason])
  | None =>
      match Authorize_observed r policy (GatewayHTTP.requestSource r (sv_trustProxyHeaders server)) g with
      | (g, Err err, obs) => (g, writeServiceError w r c err, (obs ++ error_observed policy err)%list)
      | (g, Ok (actor, _), obs) =>
          match readBody r (p_MaxBodyBytes policy) with
          | None => (g, GatewayHTTP.problem w r c 413 "payload_too_large" "Request body is too large", obs)
          | Some body =>
              match Forward_observed (p_Owner policy) (actorPointer actor) (forward_request r c policy body) policy g with
              | (g, Err err, obs') => (g, writeServiceError w r c err, (obs ++ obs' ++ error_observed policy err)%list)
              | (g, Ok response, obs') => (g, writeResponse w r c response, (obs ++ obs')%list)
              end
          end
      end
  end.
End Observed.

(** ** What the counts tell *)

(** The counter a refusal of [Authorize] goes to. *)
Inductive counts_refusal `{GoLib} (policy : RoutePolicy) : goerr -> observation -> Prop :=
| counts_unauthorized : counts_refusal policy ErrUnauthorized (ObserveAuthFailure (p_Pattern policy) "unauthorized")
| counts_forbidden : counts_refusal policy ErrForbidden (ObserveAuthFailure (p_Pattern policy) "forbidden")
| counts_limited : counts_refusal policy ErrRateLimited (ObserveRateLimitRejection (p_Pattern policy) (LimitKeyClass policy))
| counts_limiter : counts_refusal policy ErrDependency (ObserveRateLimiterError (LimitKeyClass policy)).
#[local] Hint Constructors counts_refusal : core.

(** A request to the service behind, counted under the route's pattern. *)
Definition counts_forward (policy : RoutePolicy) (o : observation) : Prop :=
  exists outcome, o = ObserveUpstreamRequest (p_Owner policy) (p_Pattern policy) outcome.

Section Facts.
Context `{GoLib} {G : Type} `{!ClaimsVerifier G} `{!RateLimiter G} `{!ServiceTokenProvider G} `{!UpstreamClient G}.

Lemma limited_counts key policy (g g' : G) e obs : limited_observed key policy g = (g', e, obs) ->
  limited_by key policy g = (g', e) /\
  match e with None => obs = [] | Some err => exists o, obs = [o] /\ counts_refusal policy err o end.
Proof.
  unfold limited_observed, limited_by. destruct (rl_Allow _ _ g) as [g1 [[|]|err]]; intros [= <- <- <-]; split; eauto.
Qed.
Lemma Authorize_counts request policy source (g g' : G) r obs :
  Authorize_observed request policy source g = (g', r, obs) ->
  Authorize request policy source g = (g', r) /\
  match r with Ok _ => obs = [] | Err err => exists o, obs = [o] /\ counts_refusal policy err o end.
Proof.
  unfold Authorize_observed, Authorize. destruct (p_Auth policy).
  - destruct (limited_observed _ _ g) as [[g1 e] o1] eqn:Hl. apply limited_counts in Hl as [-> Hl].
    destruct e; intros [= <- <- <-]; auto.
  - destruct (negb _); [intros [= <- <- <-]; eauto|]. destruct (bearerToken _) as [raw|]; [|intros [= <- <- <-]; eauto].
    destruct (cv_Verify raw g) as [g1 [verified|e]]; [|intros [= <- <- <-]; eauto].
    destruct (_ || _); [intros [= <- <- <-]; eauto|].
    destruct (limited_observed _ _ g1) as [[g2 e] o1] eqn:Hl. apply limited_counts in Hl as [-> Hl].
    destruct e; intros [= <- <- <-]; auto.
Qed.
Lemma forward_counts owner token actor request (g g' : G) r obs :
  forward_observed owner token actor request g = (g', r, obs) ->
  forward_checked owner token actor request g = (g', r) /\
  exists outcome, obs = [ObserveUpstreamRequest owner (if (fr_Route request =? "")%string then "unknown" else fr_Route request) outcome].
Proof.
  unfold forward_observed, forward_checked. destruct (up_Forward _ _ _ _ g) as [g1 [[response|]|e]]; intros [= <- <- <-];
    [|by eauto..]. split; [|by eauto]. cbn [usable_response]. by destruct (_ && _).
Qed.
Lemma Forward_counts owner actor request policy (g g' : G) r obs :
  Forward_observed owner actor request policy g = (g', r, obs) ->
  Forward owner actor request policy g = (g', r) /\
  (length obs <= if p_RetrySafeRead policy then 2 else 1)%nat /\
  Forall (fun o => exists outcome,
    o = ObserveUpstreamRequest owner (if (fr_Route request =? "")%string then "unknown" else fr_Route request) outcome) obs.
Proof.
  unfold Forward_observed, Forward. destruct (tp_Token g) as [g1 [token|e]]; [|intros [= <- <- <-]; cbn; split_and!; auto; lia].
  destruct (forward_observed _ token _ _ g1) as [[g2 r1] o1] eqn:Hf. apply forward_counts in Hf as [-> [out1 ->]].
  assert (forall n, (1 <= if p_RetrySafeRead policy then S (S n) else 1)%nat) as Hone by (intros; case_match; lia).
  destruct r1 as [response|e]; [|intros [= <- <- <-]; split_and!; [done | apply (Hone 0%nat) | eauto]].
  destruct ((rs_StatusCode response =? 401) && p_RetrySafeRead policy) eqn:Hretry.
  2:{ intros [= <- <- <-]; split_and!; [done | apply (Hone 0%nat) | eauto]. }
  apply andb_true_iff in Hretry as [_ ->]. destruct tp_Refresh as [refresh|]; [|intros [= <- <- <-]; split_and!; cbn; eauto].
  destruct (refresh g2) as [g3 [fresh|e]]; [|intros [= <- <- <-]; split_and!; cbn; eauto].
  destruct (forward_observed _ fresh _ _ g3) as [[g4 r2] o2] eqn:Hf. apply forward_counts in Hf as [-> [out2 ->]].
  intros [= <- <- <-]; split_and!; cbn; eauto.
Qed.
End Facts.

Lemma gateway_problem_status `{GoLib} w r c status reason detail : w_sent w = None ->
  status_of_writer (GatewayHTTP.problem w r c status reason detail) = status.
Proof.
  intros Hw. unfold GatewayHTTP.problem, writeProblem, status_of_writer.
  rewrite (encode_json_sent _ _ (status, w_header (set_header w "Content-Type" "application/problem+json"))); [done|].
  by apply WriteHeader_sent.
Qed.
Lemma service_error_status `{GoLib} w r c err : w_sent w = None ->
  status_of_writer (writeServiceError w r c err) = fst (fst (mapError err)).
Proof.
  intros Hw. unfold writeServiceError. destruct (mapError err) as [[status reason] detail]. cbn [fst].
  apply gateway_problem_status. by destruct (status =? 429).
Qed.
Lemma error_counts policy err :
  (length (error_observed policy err) <= 1)%nat /\
  (error_observed policy err <> [] -> 500 <= fst (fst (mapError err))).
Proof.
  unfold error_observed. destruct (mapError err) as [[status reason] detail]. cbn [fst].
  destruct (Z.leb_spec 500 status); cbn; split; try lia; done.
Qed.

(** What a refused caller is answered. *)
Definition refusal_statuses : list Z := [400; 401; 403; 413; 415; 429; 503].
Lemma validation_statuses `{GoLib} r policy status reason detail :
  validateRequest r policy = Some (status, reason, detail) -> status ∈ refusal_statuses.
Proof. unfold validateRequest. repeat case_match; intros [= <- _ _]; unfold refusal_statuses; set_solver. Qed.
Lemma refusal_status `{GoLib} policy err o : counts_refusal policy err o -> fst (fst (mapError err)) ∈ refusal_statuses.
Proof. destruct 1; vm_compute; set_solver. Qed.

(** A request of a known route is counted for what was done with it, and
    the counting changes nothing: at most one refusal, under the route's
    pattern, and then nothing is sent behind and the caller gets an error;
    otherwise one entry for every request sent behind, at most two, and only
    one on routes that are not safe to repeat; at most one failure, and then
    the answer is a 5xx.  No label depends on the caller. *)
Theorem gateway_counts_what_it_does `{GoLib} `{NetLib} {G : Type} `{!ClaimsVerifier G} `{!RateLimiter G}
    `{!ServiceTokenProvider G} `{!UpstreamClient G} server policy w r c (g g' : G) w' obs :
  w_sent w = None -> p_Pattern policy <> "" ->
  proxied_observed server policy w r c g = (g', w', obs) ->
  proxied server policy w r c g = (g', w') /\
  exists refused sent failed, obs = (refused ++ sent ++ failed)%list /\
    (length refused <= 1)%nat /\ (length sent <= if p_RetrySafeRead policy then 2 else 1)%nat /\ (length failed <= 1)%nat /\
    Forall (fun o => (exists reason, o = ObserveAuthFailure (p_Pattern policy) reason) \/
                     exists err, counts_refusal policy err o) refused /\
    (refused <> [] -> sent = [] /\ status_of_writer w' ∈ refusal_statuses) /\
    Forall (counts_forward policy) sent /\
    (failed <> [] -> 500 <= status_of_writer w').
Proof.
  intros Hw Hpat. unfold proxied_observed, proxied.
  destruct (validateRequest r policy) as [[[status reason] detail]|] eqn:Hv.
  { intros [= <- <- <-]. split; [done|]. eexists [_], [], []. split; [done|]. cbn [length].
    split_and!; try lia; try done; try (by case_match; lia); [by repeat constructor; eauto|].
    intros _. split; [done|]. rewrite gateway_problem_status by done. by eapply validation_statuses. }
  destruct (Authorize_observed _ _ _ g) as [[g1 res] o1] eqn:Ha. apply Authorize_counts in Ha as [-> Ho].
  destruct res as [[actor raw]|err].
  2:{ destruct Ho as (o & -> & Ho). intros [= <- <- <-]. split; [done|]. destruct (error_counts policy err) as [Hlen Hst].
      eexists [o], [], _. split; [done|]. cbn [length]. rewrite service_error_status by done.
      split_and!; try lia; try done; try (by case_match; lia); [by repeat constructor; eauto|].
      intros _. split; [done|]. by eapply refusal_status. }
  subst o1. destruct (readBody _ _) as [body|].
  2:{ intros [= <- <- <-]. split; [done|]. exists [], [], []. cbn. split_and!; try lia; try done. all: by case_match; lia. }
  destruct (Forward_observed _ _ _ policy g1) as [[g2 r2] o2] eqn:Hf. apply Forward_counts in Hf as (-> & Hlen & Hall).
  assert (Forall (counts_forward policy) o2) as Hfw.
  { eapply Forall_impl; [exact Hall|]. cbn. rewrite (proj2 (String.eqb_neq _ _) Hpat). by intros o [out ->]; exists out. }
  destruct r2 as [response|err]; intros [= <- <- <-]; (split; [done|]).
  - exists [], o2, []. rewrite !app_nil_r. cbn. split_and!; try lia; done.
  - destruct (error_counts policy err) as [Hl Hst]. exists [], o2, (error_observed policy err). cbn.
    rewrite service_error_status by done. split_and!; try lia; done.
Qed.
