(* ===== verification/TokenPath.v ===== *)
(** * Tokens, from Identity through the Gateway to Orders

    The token a sign-in issues is verified by a Gateway that fetches Identity's
    key set, and the service token the Gateway buys from Identity is taken by
    Orders.  The parts are those of the three services; the JWT library is
    relied on only to read back what it signed ([JwtLaws]). *)
From Stdlib Require Import ZArith Lia Ascii String.
From stdpp Require Import base gmap strings list sorting pretty.
From S2P Require Import Prelude GoStrings GoErrors GoTime GoBase64 GoJson GoJsonFacts GoCrypto GoURL GoHttp Tx.
From S2P Require Import Interleave GatewayDomain GatewayService GatewayVerifier GatewayTokens.
From S2P Require OrdersPorts OrdersQuote OrdersAuth.
From S2P Require Import IdentityConfig IdentityDomain IdentityTables IdentityStore IdentityService IdentityCrypto.
From S2P Require Import IdentityHTTP IdentityInvariant IdentityTheorems IdentityKeys IdentityProcess.

Open Scope string_scope.
Open Scope Z_scope.

Section Path.
Context `{GoLib} `{Crypto} `{Argon} `{JwtLaws} `{IdHost} `{Env} `{Pg} `{UuidLib}.
Context (c : Config) (svc : Service) (sg : Signer).
#[local] Instance path_ports : IdPorts := identity_ports sg.
Local Notation State := (St IdDB (list Mail)).

(** The keys are ones the other services take. *)
Definition publishable_keys : Prop := forall id key, sg_publicKeys sg !! id = Some key -> publishable id key.
Lemma own_key_publishable : own_key sg -> publishable_keys -> TrimSpace (sg_kid sg) <> "" /\ sg_publicKeys sg <> ∅.
Proof. intros Hk Hp. split; [apply (Hp _ _ Hk)|]. intros He. unfold own_key in Hk. by rewrite He in Hk. Qed.

(** ** A user's token at the Gateway *)

(** C38: who signs in at Identity gets through at the Gateway: when a Gateway
    configured for Identity's issuer and audience, which has no key yet,
    verifies the access token of a sign-in within nine minutes and its fetch
    is answered with the document Identity's key endpoint writes, then the call
    ends, and its actor is the user who signed in, with exactly the user's
    roles and scopes and the new session. *)
Theorem signed_in_users_pass_the_gateway email password cid source (s s' : State) cred user rls
    vc v0 srv r kcid h (k k' : State) w cache_control e1 e2 e3 e4 e5 e6 :
  own_key sg -> publishable_keys -> run_service c = Ok svc -> wf (db s) ->
  (forall n id, new_v7 n = Ok id -> uuid_valid id = true /\ id <> "") ->
  Login svc email password cid source s = (s', Ok (cred, user, rls)) ->
  NewVerifier true (sg_issuer sg) (HumanAudience c) = Ok (vc, v0) ->
  srv_signer srv = Some sg -> jwks srv r kcid (new_writer h) k = (k', w) -> len (w_body w) <= 2 ^ 20 ->
  ev_answer e4 = Some (status_of_writer w, cache_control, Some (w_body w)) ->
  nanos (ev_now e5) <= nanos (ev_now e4) + 15 * Minute ->
  (forall n, (tick s <= n <= tick s')%nat ->
     nanos (clock_at n) <= nanos (ev_now e6) < nanos (clock_at n) + 9 * Minute) ->
  exists st sid,
    run_verifier vc (cold_call (AccessToken cred) e1 e2 e3 e4 e5 e6) (start v0) = Some st /\
    threads st = [Returned (JVerify (AccessToken cred))
                    (Ok (mkActor (userRef (u_ID user)) "human" (roleNames rls) (scopeNames rls) sid))] /\
    sessions (db s) !! sid = None /\ is_Some (sessions (db s') !! sid).
Proof.
  intros Hkey Hpub Hsvc Hwf Hids Hlogin Hn Hsrv Hw Hlen Hans Hload Hclock.
  assert (humanAudience svc = HumanAudience c) as Haud.
  { unfold run_service, NewService in Hsvc. destruct (_ || _) eqn:Hb in Hsvc; [done|].
    destruct ((HumanAudience c =? "")%string) eqn:He; [done|]. go_inv Hsvc. done. }
  apply Login_ok in Hlogin as (uk & urow & pairs & s1 & _ & _ & _ & _ & _ & _ & _ & _ & _ & Hd1 & Ht1 & Hcs); [|done].
  apply createSession_ok in Hcs as (sid & row & Hnew & Hrow & _ & _ & _ & _ & Hsid & _ & Hsign & Hlast).
  set (n := (4 + tick s1)%nat) in *. rewrite Haud in Hsign.
  change (Signer_Sign sg (clock_at n) (new_v7 n) (userRef (u_ID user)) (HumanAudience c) "human" sid (roleNames rls)
            (scopeNames rls) accessTokenTTL = Ok (AccessToken cred)) in Hsign.
  destruct (new_v7 n) as [jti|e] eqn:Hjti; [|done]. destruct (own_key_publishable Hkey Hpub) as [Hkid Hne].
  assert (options vc = mkJwtOptions ["EdDSA"] (sg_issuer sg) (HumanAudience c) (30 * Second)) as Hopt.
  { unfold NewVerifier in Hn. destruct (_ || _); [done|]. by injection Hn as <- <-. }
  destruct (signed_is_read sg n jti _ _ _ _ _ _ _ _ (options vc) (ev_now e6) Hsign) as (Hplain & Hraw & Hk & Hcl);
    [by rewrite Hopt.. | apply Hclock; lia | |].
  { specialize (Hclock n ltac:(lia)). unfold accessTokenTTL, Minute, Second in *. lia. }
  match type of Hcl with jwt_claims _ _ ?key _ = Some ?cl =>
    destruct (cold_verify vc v0 _ _ (AccessToken cred) (sg_kid sg) (sg_publicKeys sg) (maxAge cache_control) key cl
              e1 e2 e3 e4 e5 e6 Hn) as (st & Hrun & Hth); [| | | exact Hkey | done | exact Hcl | |] end.
  - by rewrite TrimSpace_plain.
  - unfold asked_kid. rewrite Hk. apply String.eqb_neq in Hkid. by rewrite Hkid.
  - rewrite Hans. eapply published_keys_fetched; eauto.
  - unfold claims_ok. cbn. destruct (Hids _ _ Hsid) as [-> Hsn]. destruct (Hids _ _ Hjti) as [_ Hjn].
    apply String.eqb_neq in Hsn, Hjn. by rewrite Hsn, Hjn.
  - exists st, sid. split; [done|]. split; [done|]. rewrite Hd1 in Hnew. rewrite Hrow, lookup_insert_eq. eauto.
Qed.

(** ** The Gateway's own token *)

(** The request the Gateway's client writes is read by Identity as it was meant,
    and the answer Identity writes by the client. *)
Definition ascii_client (tc : TokenClient) : Prop :=
  is_ascii (clientID tc) = true /\ is_ascii (secret tc) = true /\ Forall (fun s => is_ascii s = true) (scopes tc).
Lemma token_request_fields tc : token_request tc =
  JObj [("client_id", jstr (clientID tc)); ("client_secret", jstr (secret tc)); ("scopes", JArr (map jstr (scopes tc)))].
Proof. reflexivity. Qed.
Lemma token_request_read tc : ascii_client tc ->
  unmarshal_struct dec_serviceToken (json_text (token_request tc)) = Some (clientID tc, secret tc, scopes tc).
Proof.
  intros (Hc & Hs & Hsc). unfold unmarshal_struct. rewrite (json_round_trip 2); [| |vm_compute; discriminate].
  - rewrite token_request_fields. cbn [mbind option_bind]. unfold dec_serviceToken, known_fields.
    cbn [forallb existsb fst]. keys_matched. cbn [orb andb]. unfold dec_field. cbn [foldl fst snd]. keys_matched.
    cbn [mbind option_bind dec_string jstr]. rewrite !unquote_quote by done.
    assert (dec_strings (JArr (map jstr (scopes tc))) = Some (scopes tc)) as ->; [|done]. cbn [dec_strings].
    induction Hsc as [|x l Hx Hl IH]; [done|]. cbn [map mapM jstr dec_string]. cbn in IH. rewrite unquote_quote by done.
    cbn [mbind option_bind]. by rewrite IH.
  - rewrite token_request_fields. apply written_obj. repeat apply Forall_cons_2; [..|constructor].
    1-2: split; [by intros rest | by apply written_str].
    split; [by intros rest|]. apply written_arr, Forall_map. eapply Forall_impl; [exact Hsc|]. intros x Hx. by apply written_str.
Qed.

Definition token_answer_json (mc : MachineCredentials) : json :=
  jmap [("access_token", jstr (MAccessToken mc)); ("token_type", jstr "Bearer"); ("expires_in", jint (ExpiresIn mc))].
Lemma token_answer_read mc h w : is_ascii (MAccessToken mc) = true -> MAccessToken mc <> "" -> ExpiresIn mc = 300 ->
  w = writeJSON (no_store (new_writer h)) 200 (Ok (token_answer_json mc)) -> len (w_body w) <= 2 ^ 16 ->
  token_result_of (Some (status_of_writer w, Some (w_body w))) = Ok (mkTokenResult (MAccessToken mc) 300).
Proof.
  intros Ha Hne He -> Hlen. set (j := token_answer_json mc) in *.
  change (w_body (writeJSON (no_store (new_writer h)) 200 (Ok j))) with (json_text j +:+ String "010" "") in Hlen |- *.
  change (status_of_writer _) with 200. unfold token_result_of. change (negb (200 =? 200)) with false. cbn iota.
  rewrite take_string_all by done. unfold unmarshal_struct.
  assert (j = JObj [("access_token", jstr (MAccessToken mc)); ("expires_in", JNum "300"); ("token_type", jstr "Bearer")]) as Hj
    by (subst j; unfold token_answer_json; rewrite He; reflexivity).
  rewrite (json_line_round_trip 1); [| |vm_compute; discriminate].
  - rewrite Hj. cbn [mbind option_bind]. unfold dec_token_result, dec_field. cbn [foldl fst snd]. keys_matched.
    cbn [mbind option_bind dec_string jstr]. rewrite unquote_quote by done.
    change (dec_int64 0 (JNum "300")) with (Some 300). cbn [mbind option_bind AccessToken].
    cbn [GatewayTokens.AccessToken GatewayTokens.ExpiresIn]. apply String.eqb_neq in Hne. by rewrite Hne.
  - rewrite Hj. apply written_obj. repeat apply Forall_cons_2; [..|constructor].
    + split; [by intros rest | by apply written_str].
    + split; [by intros rest|]. by apply (digits_literal "3" ["0"; "0"]%char).
    + split; [by intros rest | by apply written_str].
Qed.

(** Orders reads the published keys too. *)
Lemma orders_jwk_read id key : is_ascii id = true ->
  match jwk id key with JObj fs => OrdersQuote.dec_jwk fs | _ => None end =
  Some (OrdersQuote.mkJwk "OKP" "Ed25519" id "sig" "EdDSA" (RawURLEncode key)).
Proof.
  intros Hid. rewrite jwk_fields. unfold OrdersQuote.dec_jwk, dec_field. cbn [foldl fst snd]. keys_matched.
  cbn [mbind option_bind dec_string jstr]. by rewrite !unquote_quote by (done || apply RawURLEncode_ascii).
Qed.
Lemma orders_reads_keys body : publishable_keys -> json_parse body = Some (JWKS sg) ->
  exists document, unmarshal_struct OrdersQuote.dec_jwks body = Some document /\
    foldl OrdersQuote.add_key ∅ document = sg_publicKeys sg.
Proof.
  intros Hp Hb. set (read := fun p : string * string => OrdersQuote.mkJwk "OKP" "Ed25519" (fst p) "sig" "EdDSA" (RawURLEncode (snd p))).
  assert (Forall (fun p => publishable (fst p) (snd p)) (published sg)) as Hl.
  { apply Forall_forall. intros [i x] Hin. rewrite published_all in Hin. by apply elem_of_map_to_list, Hp in Hin. }
  exists (map read (published sg)). split.
  - unfold unmarshal_struct. rewrite Hb, JWKS_shape. cbn [mbind option_bind].
    unfold OrdersQuote.dec_jwks, dec_field. cbn [foldl fst snd]. keys_matched. cbn [mbind option_bind dec_slice].
    induction Hl as [|[i x] l (Hi & _) Hl IH]; [done|]. cbn [map mapM fst snd]. cbn in Hi.
    pose proof (orders_jwk_read i x Hi) as Hj. rewrite jwk_fields in *. rewrite Hj. cbn [mbind option_bind]. by rewrite IH.
  - rewrite <- (foldl_insert_all (sg_publicKeys sg) (published sg)) by apply published_all.
    generalize (∅ : gmap string string). induction Hl as [|[i x] l (_ & _ & Hx) Hl IH]; intros m; [done|].
    cbn [map foldl fst snd]. rewrite <- IH. f_equal. subst read. cbn [fst snd] in Hx |- *.
    unfold OrdersQuote.add_key, OrdersQuote.usable. cbn -[RawURLEncode RawURLDecode PublicKeySize].
    by rewrite RawURL_roundtrip, Hx, Nat.eqb_refl.
Qed.

(** Orders fetches the document when its cache is empty. *)
Section Orders.
Context `{OrdersQuote.KeySetHTTP} `{SourceLib} {D : Type}.
Local Notation OState := (St D OrdersQuote.QuoteCache).

Lemma orders_fetches_own_key url (o : OState) srv r kcid h (k k' : State) w :
  own_key sg -> publishable_keys -> loc o = OrdersQuote.empty_cache ->
  srv_signer srv = Some sg -> jwks srv r kcid (new_writer h) k = (k', w) -> len (w_body w) <= 2 ^ 20 ->
  OrdersQuote.key_set_reply url (tick o) = Some (status_of_writer w, Some (w_body w)) ->
  exists o', OrdersQuote.key url (sg_kid sg) o = (o', Ok (Some (public_half (sg_privateKey sg)))) /\ tick o' = (2 + tick o)%nat.
Proof.
  intros Hkey Hpub Hc Hsrv Hw Hlen Hr. unfold jwks in Hw. rewrite Hsrv in Hw.
  assert (w = writeJSON (new_writer h) 200 (Ok (JWKS sg))) as -> by congruence.
  change (w_body (writeJSON (new_writer h) 200 (Ok (JWKS sg)))) with (json_text (JWKS sg) +:+ String "010" "") in *.
  change (status_of_writer _) with 200 in Hr.
  destruct (orders_reads_keys (json_text (JWKS sg) +:+ String "010" "") Hpub) as (document & Hdoc & Hkeys);
    [eapply json_line_round_trip; [by apply JWKS_written | done]|].
  unfold OrdersQuote.key, bind at 1, get_loc. rewrite Hc. cbn [OrdersQuote.keys OrdersQuote.empty_cache].
  rewrite lookup_empty. unfold OrdersQuote.refresh_keys, bind at 1, OrdersQuote.http_get. rewrite Hr. cbn iota.
  change (negb (200 =? OrdersQuote.StatusOK)) with false. cbn iota.
  unfold OrdersQuote.limited_body. rewrite take_string_all, Hdoc, Hkeys by done.
  unfold own_key in Hkey. rewrite Hkey. eexists. split; reflexivity.
Qed.

(** C37: the Gateway's service token reaches Orders: the request the Gateway's
    client writes is read by Identity as the client meant it; where Identity
    grants it, the client reads from the answer exactly the token that was
    signed, with its five minutes; and an Orders process that is configured for
    Identity and fetches its key set accepts a request with that token in the
    next four minutes, as the actor its headers name, when the scopes the
    Gateway asked for contain one of Orders' machine scopes. *)
Theorem the_gateways_token_opens_orders tc r cid h (s s' : State) mc w
    a headers actor (o : OState) srv kr kcid kh (k k' : State) kw :
  own_key sg -> publishable_keys -> wf (db s) -> ascii_client tc -> (forall n id, new_v7 n = Ok id -> id <> "") ->
  rq_Body r = json_text (token_request tc) -> len (rq_Body r) <= 2 ^ 14 ->
  ServiceTokenFromSource svc (clientID tc) (secret tc) (scopes tc) (source_of srv r) cid s = (s', Ok mc) ->
  serviceToken_handler srv svc r cid (new_writer h) s = (s', w) -> len (w_body w) <= 2 ^ 16 ->
  OrdersAuth.ga_staticToken a = "" -> OrdersAuth.ga_issuer a = sg_issuer sg ->
  OrdersAuth.ga_subject a = "svc_" +:+ clientID tc ->
  (forall i p, service_principals (db s) !! i = Some p -> pr_client_id p = clientID tc -> pr_audience p = OrdersAuth.ga_audience a) ->
  OrdersAuth.hasOrdersMachineScope (scopes tc) = true ->
  loc o = OrdersQuote.empty_cache ->
  srv_signer srv = Some sg -> jwks srv kr kcid (new_writer kh) k = (k', kw) -> len (w_body kw) <= 2 ^ 20 ->
  OrdersQuote.key_set_reply (OrdersAuth.ga_jwksURL a) (tick o) = Some (status_of_writer kw, Some (w_body kw)) ->
  (forall n, (tick s <= n <= tick s')%nat ->
     nanos (clock_at n) <= nanos (clock_at (2 + tick o)) < nanos (clock_at n) + 4 * Minute) ->
  token_result_of (Some (status_of_writer w, Some (w_body w))) = Ok (mkTokenResult (MAccessToken mc) 300) /\
  (Values headers "Authorization" = ["Bearer " +:+ MAccessToken mc] -> OrdersAuth.trustedActor headers = Ok actor ->
   exists o', OrdersAuth.Authenticate a headers o = (o', Ok actor)).
Proof.
  intros Hkey Hpub Hwf Htc Hids Hbody Hblen Hmc Hh Hwlen Hst Hiss Hsub Haud Hsc Hcache Hsrv Hkw Hklen Hreply Hclock.
  destruct (serviceToken_ok _ _ _ _ _ _ _ _ _ Hwf Hmc) as
    (pk & p & psc & cr & n & m & Hp & Hcl & _ & _ & _ & _ & _ & _ & _ & _ & _ & _ & Hsign & _ & Hm & Hexp).
  change (Signer_Sign sg (clock_at m) (new_v7 m) ("svc_" +:+ clientID tc) (pr_audience p) "service" "" [] (scopes tc)
            machineTokenTTL = Ok (MAccessToken mc)) in Hsign.
  destruct (new_v7 m) as [jti|e] eqn:Hjti; [|done]. rewrite (Haud _ _ Hp Hcl) in Hsign.
  specialize (Hclock m ltac:(lia)).
  destruct (signed_is_read sg m jti _ _ _ _ _ _ _ _ (OrdersAuth.gateway_options a) (clock_at (2 + tick o)) Hsign)
    as (Hplain & Hraw & Hkid & Hclaims); [done | done | done | lia | unfold machineTokenTTL, Minute, Second in *; lia |].
  assert (w = writeJSON (no_store (new_writer h)) 200 (Ok (token_answer_json mc))) as Hw.
  { unfold serviceToken_handler, decodeJSON in Hh. rewrite (proj2 (Z.ltb_ge _ _) Hblen), Hbody, token_request_read in Hh by done.
    unfold answering in Hh. rewrite Hmc in Hh. by injection Hh as <-. }
  split; [by eapply token_answer_read; [apply plain_ascii| | rewrite Hexp | exact Hw |]|].
  intros Hauth Hactor. unfold OrdersAuth.Authenticate. rewrite Hauth.
  assert (HasPrefix ("Bearer " +:+ MAccessToken mc) "Bearer " = true /\
          TrimPrefix ("Bearer " +:+ MAccessToken mc) "Bearer " = MAccessToken mc) as [Hpre Htrim].
  { assert (HasPrefix ("Bearer " +:+ MAccessToken mc) "Bearer " = true) as Hpre by (cbn; by destruct (MAccessToken mc)).
    split; [done|]. unfold TrimPrefix. rewrite Hpre. cbn. apply of_bytes_bytes. }
  rewrite Hpre, Htrim, TrimSpace_plain by done. cbn [negb].
  rewrite (proj2 (String.eqb_neq _ _) Hraw), Hst. cbn [negb String.eqb].
  unfold bind at 1, OrdersAuth.machine_claims. rewrite Hkid.
  destruct (own_key_publishable Hkey Hpub) as [Hkn _].
  assert ((sg_kid sg =? "")%string = false) as -> by (apply String.eqb_neq; by intros He; rewrite He in Hkn).
  unfold OrdersAuth.gateway_key.
  destruct (orders_fetches_own_key (OrdersAuth.ga_jwksURL a) o srv kr kcid kh k k' kw Hkey Hpub Hcache Hsrv Hkw Hklen Hreply)
    as (o1 & Ho1 & Ht1).
  unfold bind at 1. rewrite Ho1. unfold bind at 1, timeNow at 1. rewrite Ht1, Hclaims. cbn [ret].
  unfold OrdersAuth.machine_ok. cbn [signed_claims cl_TokenKind cl_Subject cl_ExpiresAt cl_ID cl_Scopes].
  rewrite Hsub, !String.eqb_refl, Hsc. pose proof (Hids _ _ Hjti) as Hjn. apply String.eqb_neq in Hjn. rewrite Hjn.
  cbn. rewrite Hactor. eauto.
Qed.
End Orders.
End Path.
