(* ===== verification/TokenPathWitness.v ===== *)
(** * Tokens on their way: concrete runs

    A process of Identity put together as in [main], with toys for Argon2 and
    for a JWT library that signs one set of claims: a user signs in and lists the
    sessions with the token, and is verified by a Gateway that has no keys yet;
    the Gateway buys a service token and Orders takes it. *)
From Stdlib Require Import ZArith Lia Ascii String.
From stdpp Require Import base gmap strings list relations pretty.
From S2P Require Import Prelude GoStrings GoErrors GoTime GoBase64 GoCrypto GoJson GoURL GoHttp Tx.
From S2P Require Import Interleave GatewayDomain GatewayService GatewayVerifier GatewayTokens.
From S2P Require OrdersPorts OrdersQuote OrdersAuth.
From S2P Require Import IdentityConfig IdentityDomain IdentityTables IdentityStore IdentityService IdentityCrypto IdentityHTTP.
From S2P Require Import IdentityHTTPFacts IdentityInvariant IdentityWitnesses IdentityKeys IdentityProcess TokenPath.

Open Scope string_scope.
Open Scope Z_scope.

#[local] Existing Instance ascii_lib.
#[local] Existing Instance exact_pg.
#[local] Existing Instance i_env.
#[local] Existing Instance i_crypto.
#[local] Instance p_durations : DurationLib := {| fraction_duration := fun _ => None |}.
#[local] Instance p_argon : Argon :=
  {| argon2_IDKey := fun p _ _ _ _ _ => of_bytes (take 32 (bytes p ++ repeat "."%char 32)) |}.
#[local] Instance p_host : IdHost := {|
  random_bytes := fun _ size => Ok (of_bytes (repeat "r"%char (Z.to_nat size)));
  new_v7 := fun n => Ok ("id-" +:+ pretty (N.of_nat n));
  rate_reply := fun _ _ => Ok true; smtp_reply := fun _ => Ok tt; parse_address := fun a => Some a; far_year := fun _ => ""
|}.
#[local] Instance p_uuid : UuidText := {| uuid_Parse := fun s => Some s |}.
#[local] Instance p_source : SourceLib := {| src_SplitHost := fun s => Some s; src_Prefix := fun s => Some s |}.
#[local] Instance p_revocations : Revocations :=
  {| is_revoked := fun _ _ => Ok false; revoke_reply := fun _ _ _ => Ok tt |}.

Definition p_private : string := of_bytes (repeat "k"%char 64).
Definition p_signer : Signer := mkSigner p_private (public_half p_private) {["k1" := public_half p_private]} "k1" "identity.local".

#[local] Instance time_eq : EqDecision Time.
Proof. solve_decision. Defined.
#[local] Instance claims_eq : EqDecision JwtClaims.
Proof. solve_decision. Defined.

(** A library that signs one set of claims, those of the run below. *)
Definition p_claims : JwtClaims :=
  signed_claims "usr_user1" "human" "id-4" "id-7" ["customer"] ["orders:read:self"] accessTokenTTL noon.
Definition p_valid (now : Time) : bool :=
  (nanos (NumericDate noon) <=? nanos now) && (nanos now <? nanos (NumericDate (Add noon accessTokenTTL))).
#[local] Instance p_jwt : JwtLib := {|
  jwt_kid := fun _ raw => if (raw =? "signed")%string then Some (Some "k1") else None;
  jwt_claims := fun options raw key now =>
    if (raw =? "signed")%string && (key =? public_half p_private)%string && p_valid now
    then Some p_claims else None
|}.
#[local] Instance p_sign : JwtSigner := {|
  jwt_SignedString := fun private kid issuer audience claims =>
    if decide ((private, kid, claims) = (p_private, "k1", p_claims)) then Ok "signed" else Err (NewErr "unsigned")
|}.
#[local] Instance p_laws : JwtLaws.
Proof.
  split; intros private kid issuer audience claims raw; cbn -[p_valid p_claims p_private]; destruct (decide _) as [[= -> -> ->]|]; try discriminate.
  - intros [= <-]. split; [by repeat constructor | done].
  - by intros options [= <-].
  - intros options now [= <-] _ _ _ [Hfrom Hto]. specialize (Hfrom _ eq_refl). specialize (Hto _ eq_refl).
    assert (p_valid now = true) as ->; [|reflexivity].
    apply andb_true_iff. split; [by apply Z.leb_le | by apply Z.ltb_lt].
Qed.

Definition p_config : Config := read_config (fun _ => None).
Definition p_svc : Service := mkService ManyLimiter true "platform-api" "platform-internal".
Definition p_hash : string :=
  default "" (match Hasher_Hash NewPasswordHasher (Ok "0123456789abcdef") "correct horse battery" with Ok h => Some h | Err _ => None end).
Definition p_state : St IdDB (list Mail) := mkSt (i_db_with p_hash) [] 0.
#[local] Instance p_ports : IdPorts := identity_ports p_signer.
Definition p_signed_in := Login p_svc "ada@example.test" "correct horse battery" "c" "" p_state.
Definition p_request : Request :=
  mkRequest MethodGet "/v1/auth/sessions" "" (Set_ ∅ "Authorization" "Bearer signed") "" 0 "192.0.2.1:443".

Lemma p_login_ok : exists s' cred user rls,
  p_signed_in = (s', Ok (cred, user, rls)) /\ AccessToken cred = "signed".
Proof. do 4 eexists. vm_compute. split; reflexivity. Qed.

Lemma issued_tokens_are_accepted_witness :
  exists s' cred user rls, p_signed_in = (s', Ok (cred, user, rls)) /\
  exists claims s3,
    auth (run_server p_config p_svc p_signer) (fun claims => sessions_page claims) p_request "c" (new_writer ∅) s' =
    sessions_page claims p_request "c" (new_writer ∅) s3 /\ db s3 = db s' /\
    cl_TokenKind claims = "human" /\ cl_Subject claims = userRef (u_ID user) /\
    cl_Roles claims = roleNames rls /\ cl_Scopes claims = scopeNames rls.
Proof.
  destruct p_login_ok as (s' & cred & user & rls & Hlogin & Htoken). exists s', cred, user, rls. split; [exact Hlogin|].
  apply (issued_tokens_are_accepted p_config p_svc p_signer "ada@example.test" "correct horse battery" "c" "" p_state s' s'
           cred user rls (fun claims => sessions_page claims) p_request "c" (new_writer ∅)).
  - intros t. cbn. lia.
  - intros n id Hid. exact (f_equal Some eq_refl).
  - intros n id. reflexivity.
  - reflexivity.
  - reflexivity.
  - apply i_wf_with.
  - exact Hlogin.
  - apply Nat.le_refl.
  - reflexivity.
  - split; [reflexivity|]. intros n m _ _. cbn. split; [apply Z.le_refl | reflexivity].
  - rewrite Htoken. vm_compute. reflexivity.
Defined.

#[local] Instance t_uuid : UuidLib := {| uuid_valid := fun _ => true |}.

(** ** A user *)

Section User.
#[local] Existing Instance p_jwt.
#[local] Existing Instance p_sign.
#[local] Existing Instance p_laws.
#[local] Existing Instance p_ports.

Lemma p_publishable : publishable_keys p_signer.
Proof.
  intros id key. change (sg_publicKeys p_signer) with ({["k1" := public_half p_private]} : gmap string string).
  intros [<- <-]%lookup_singleton_Some. repeat split; vm_compute; congruence.
Qed.

Definition p_server : Server := run_server p_config p_svc p_signer.
Definition p_keys_page : Writer := snd (jwks p_server p_request "c" (new_writer ∅) p_state).
Definition p_event : Ev := mkEv noon (Some (200, "max-age=300", Some (w_body p_keys_page))) false.

Lemma signed_in_users_pass_the_gateway_witness :
  exists s' cred user rls vc v0 st sid,
    Login p_svc "ada@example.test" "correct horse battery" "c" "" p_state = (s', Ok (cred, user, rls)) /\
    NewVerifier true "identity.local" "platform-api" = Ok (vc, v0) /\
    run_verifier vc (cold_call "signed" p_event p_event p_event p_event p_event p_event) (start v0) = Some st /\
    threads st = [Returned (JVerify "signed")
                    (Ok (mkActor (userRef (u_ID user)) "human" (roleNames rls) (scopeNames rls) sid))].
Proof.
  destruct p_login_ok as (s' & cred & user & rls & Hlogin & Htoken).
  destruct (NewVerifier true "identity.local" "platform-api") as [[vc v0]|e] eqn:Hn; [|discriminate Hn].
  destruct (signed_in_users_pass_the_gateway p_config p_svc p_signer "ada@example.test"
              "correct horse battery" "c" "" p_state s' cred user rls vc v0 p_server p_request "c" ∅ p_state p_state p_keys_page
              "max-age=300" p_event p_event p_event p_event p_event p_event) as (st & sid & Hrun & Hth & _).
  - reflexivity.
  - exact p_publishable.
  - reflexivity.
  - apply i_wf_with.
  - intros n id [= <-]. split; [reflexivity | discriminate].
  - exact Hlogin.
  - exact Hn.
  - reflexivity.
  - reflexivity.
  - vm_compute. discriminate.
  - reflexivity.
  - vm_compute. discriminate.
  - intros n _. vm_compute. split; [discriminate | reflexivity].
  - exists s', cred, user, rls, vc, v0, st, sid. rewrite Htoken in Hrun, Hth. split; [exact Hlogin|]. split; [reflexivity|].
    split; [exact Hrun | exact Hth].
Defined.
End User.

(** ** The Gateway *)

Section Machine.
#[local] Existing Instance claims_eq.
Definition m_claims : JwtClaims :=
  signed_claims "svc_gateway" "service" "" "id-4" [] ["orders:read"] machineTokenTTL noon.
Definition m_valid (now : Time) : bool :=
  (nanos (NumericDate noon) <=? nanos now) && (nanos now <? nanos (NumericDate (Add noon machineTokenTTL))).
#[local] Instance m_jwt : JwtLib := {|
  jwt_kid := fun _ raw => if (raw =? "machine-token")%string then Some (Some "k1") else None;
  jwt_claims := fun options raw key now =>
    if (raw =? "machine-token")%string && (key =? public_half p_private)%string && m_valid now
    then Some m_claims else None
|}.
#[local] Instance m_sign : JwtSigner := {|
  jwt_SignedString := fun private kid issuer audience claims =>
    if decide ((private, kid, claims) = (p_private, "k1", m_claims)) then Ok "machine-token" else Err (NewErr "unsigned")
|}.
#[local] Instance m_laws : JwtLaws.
Proof.
  split; intros private kid issuer audience claims raw; cbn -[m_valid m_claims p_private]; destruct (decide _) as [[= -> -> ->]|]; try discriminate.
  - intros [= <-]. split; [by repeat constructor | done].
  - by intros options [= <-].
  - intros options now [= <-] _ _ _ [Hfrom Hto]. specialize (Hfrom _ eq_refl). specialize (Hto _ eq_refl).
    assert (m_valid now = true) as ->; [|reflexivity].
    apply andb_true_iff. split; [by apply Z.leb_le | by apply Z.ltb_lt].
Qed.
#[local] Instance m_ports : IdPorts := identity_ports p_signer.

Definition m_hash : string :=
  default "" (match Hasher_Hash NewPasswordHasher (Ok "0123456789abcdef") "machine secret" with Ok h => Some h | Err _ => None end).
Definition m_db : IdDB :=
  let d := i_db_with p_hash in
  mkIdDB (users d) (roles d) (permissions d) (role_permissions d) (user_roles d) (sessions d) (reset_tokens d)
    (verification_tokens d) (service_principals d) [mkCredentialRow "cred-1" "svc-1" m_hash "ACTIVE" noon None] [] [].
Lemma m_wf : wf m_db.
Proof. destruct (i_wf_with p_hash). constructor; assumption. Qed.
Definition m_state : St IdDB (list Mail) := mkSt m_db [] 0.

Definition m_client : TokenClient := mkTokenClient "https://identity.local" "gateway" "machine secret" ["orders:read"].
Definition m_request : Request :=
  mkRequest MethodPost "/v1/auth/service-token" "" ∅ (json_text (token_request m_client)) 0 "192.0.2.7:443".
Definition m_keys_page : Writer := snd (jwks p_server p_request "c" (new_writer ∅) m_state).
#[local] Instance m_key_set : OrdersQuote.KeySetHTTP :=
  {| OrdersQuote.key_set_reply := fun _ _ => Some (200, Some (w_body m_keys_page)) |}.
Definition m_orders : OrdersAuth.GatewayAuthenticator :=
  OrdersAuth.mkGatewayAuthenticator "" "https://identity.local/.well-known/jwks.json" "identity.local" "orders" "svc_gateway".
Definition m_headers : Header :=
  Set_ (Set_ (Set_ (Set_ ∅ "Authorization" "Bearer machine-token") OrdersAuth.actor_id_header "usr_ada")
    OrdersAuth.actor_type_header "human") OrdersAuth.scopes_header "orders:read:self".
Definition m_idle : St unit OrdersQuote.QuoteCache := mkSt tt OrdersQuote.empty_cache 50.

Definition m_answer := serviceToken_handler p_server p_svc m_request "c" (new_writer ∅) m_state.
Lemma m_granted : exists s' mc w,
  ServiceTokenFromSource p_svc "gateway" "machine secret" ["orders:read"] (source_of p_server m_request) "c" m_state = (s', Ok mc) /\
  serviceToken_handler p_server p_svc m_request "c" (new_writer ∅) m_state = (s', w) /\
  (len (w_body w) <=? 2 ^ 16) = true /\
  token_result_of (Some (status_of_writer w, Some (w_body w))) = Ok (mkTokenResult "machine-token" 300).
Proof.
  exists (fst m_answer), (mkMachineCredentials "machine-token" 300), (snd m_answer).
  split; [vm_compute; reflexivity|]. split; [apply surjective_pairing|]. split; vm_compute; reflexivity.
Qed.

Lemma the_gateways_token_opens_orders_witness :
  exists t o', t = "machine-token" /\ OrdersAuth.Authenticate m_orders m_headers m_idle =
    (o', Ok (OrdersPorts.mkActor "usr_ada" "human" ["orders:read:self"])).
Proof.
  destruct m_granted as (s' & mc & w & Hmc & Hh & Hlen%Z.leb_le & Htoken).
  destruct (the_gateways_token_opens_orders p_svc p_signer m_client m_request "c" ∅ m_state s' mc w m_orders m_headers
    (OrdersPorts.mkActor "usr_ada" "human" ["orders:read:self"]) m_idle p_server p_request "c" ∅ m_state m_state m_keys_page)
    as (Hread & Haccepted).
  - reflexivity.
  - exact p_publishable.
  - exact m_wf.
  - split; [reflexivity|]. split; [reflexivity|]. constructor; [reflexivity | constructor].
  - intros n id [= <-]. discriminate.
  - reflexivity.
  - vm_compute. discriminate.
  - exact Hmc.
  - exact Hh.
  - exact Hlen.
  - reflexivity.
  - reflexivity.
  - reflexivity.
  - intros i p. change (service_principals (db m_state)) with ({["svc-1" := gateway_machine]} : gmap string PrincipalRow).
    intros [_ <-]%lookup_singleton_Some _. reflexivity.
  - reflexivity.
  - reflexivity.
  - reflexivity.
  - reflexivity.
  - vm_compute. discriminate.
  - reflexivity.
  - intros n _. vm_compute. split; [discriminate | reflexivity].
  - assert (MAccessToken mc = "machine-token") as Htok by congruence.
    destruct Haccepted as [o' Ho]; [rewrite Htok; vm_compute; reflexivity | vm_compute; reflexivity|].
    exists (MAccessToken mc), o'. split; [exact Htok | exact Ho].
Defined.
End Machine.
